(* ===== verification/_CoqProject ===== *)
-Q . S2P
Prelude.v
Float64.v
Amount.v
Toid.v
Resilience.v
Db.v
Moments.v
WalletAddress.v
Paging.v
Store.v
PaymentLinks.v
Addresses.v
HorizonIngest.v
Ingest.v
ExactlyOnce.v
Progress.v
PaymentMatch.v
Sponsorship.v
Idempotency.v
Otp.v
RateLimit.v
Csv.v
ApiHorizon.v
Fees.v
Reconciler.v
Crypto.v
Signer.v
Submit.v
Sponsor.v
AuditChain.v
AuditLog.v
AuditTamper.v
AuditErase.v
Users.v
WebhookStore.v
Account.v
Exporting.v
Net.v
Email.v
Token.v
Auth.v
AuthSafe.v
AuthExact.v
Wallets.v
MigrateKeys.v
AccountRoutes.v
Retention.v
Redact.v
Webhooks.v
RouteCommon.v
AmountText.v
Withdraw.v
LinkRoutes.v
WalletRoutes.v
ConfigRoutes.v
ConfigInv.v
ServerConfig.v
ServerBoot.v
Evm.v
EvmRpc.v
Sse.v
Streaming.v
Supervisor.v
Leader.v
Leadership.v
Backfill.v
Metrics.v
Router.v
SponsorRoutes.v
