(* ===== verification/Prelude.v ===== *)
(** * Octo Protocol: a Rocq development

    Octo is a custody-light Stellar payments backend in Rust: a web service
    ([crates/api]) through which a business creates wallets, hands a deposit address
    to every customer, shares payment links and withdraws by transactions signed on
    the client; a worker ([crates/ingest]) that follows each wallet's account on the
    Stellar network and credits deposits; and a PostgreSQL store ([crates/store]) the
    two share. Both talk to Horizon, the network's HTTP front end, under a retry policy
    and a circuit breaker ([crates/resilience]). Customers are told apart by muxed
    addresses ([crates/wallet-core]). This development models the logic that decides
    about money and credentials, and proves what it promises.

    ** How the program is modelled

    Rust integers are [Z], with wrapping, saturation and checked arithmetic written out
    at their width ([wrap_i64], [sat_u64], [checked_mul_i64]...); strings are
    [string]s of bytes; [Result] is [result]; [f64] is exact binary64 arithmetic
    ([Float64]). A timestamp is a number of microseconds, an [Instant] of nanoseconds.

    A handler is a sequence of SQL statements on a database other connections also use.
    [Db.M] is the monad of such programs: a computation runs in a [World] of the
    tables, the state of the other services and a schedule that says, statement by
    statement, what other connections did before it, what [now()] is, and whether it
    fails before or after taking effect or the process dies around it. A theorem that
    quantifies over the world quantifies over all of these. [Db] has a rely/guarantee
    logic for such programs ([Db.triple]), used by [ExactlyOnce], [Reconciler] and
    [LinkRoutes]; [Moments] recovers the databases that the statements of a run met, so
    that a theorem on a gate speaks of the rows that the gate looked at.
    Where many requests run at once and each is short, the system is instead a step
    relation or a list of operations in any order ([Idempotency], [Otp],
    [PaymentLinks], [Sponsorship], [Resilience]).

    Code that is not in the repository is a parameter: strkey ([WalletAddress.Strkey],
    with its laws in [StrkeyLaws] and an instance [Toy] that satisfies them), AES-GCM and
    HKDF ([Crypto.Aead], [AeadLaws]), XDR, base64, SHA-256, ed25519 and SLIP-0010
    ([Signer.Codec], [CodecLaws]), SHA-256 of a code ([Otp]), [powi] and the random
    number of the retry jitter ([Resilience]), Horizon's answers, the JSON decoder and
    the clock ([HorizonIngest.Outside], [ApiHorizon.Outside]: oracles indexed by the
    number of the request, its URL and the attempt). What a theorem needs of them is a
    named hypothesis, and its witness instantiates the parameter.

    ** The files

    Shared by all:
    - [Prelude] (this file): results, checked and saturating integers, Rust's [trim],
      [split_once] and integer parsing and printing, with their lemmas; tactics and the
      hint database. [Float64]: [f64]. [Db]: statements, faults, the program logic;
      [store/src/error.rs]. [Moments]: the worlds a run went through. [Paging]: keyset pagination of the list queries.
    - [Resilience]: [resilience/src/lib.rs]: backoff, breaker, executor, configuration.

    The store ([crates/store/src]):
    - [Store]: tables and statements of [models.rs], [ingest.rs], [addresses.rs];
      [Addresses]: the allocation transaction; [PaymentLinks]; [Sponsorship];
      [Idempotency] (with its client in [api/src/routes/payment_links.rs]); [Otp];
      [Users]: [users.rs], [sessions.rs], [denylist.rs], [api_keys.rs]; [Wallets]:
      [wallets.rs] and [config.rs]; [WebhookStore]; [Retention]; [AuditChain], with what it
      promises in [AuditLog], [AuditTamper] and [AuditErase]; [Account] and [Exporting]:
      [account.rs] over all the tables together.

    The ingester ([crates/ingest/src]):
    - [Amount]: [amount.rs]. [Toid]: the operation identifiers of [lib.rs].
      [HorizonIngest] and [Ingest]: [horizon.rs] and the ingester of [lib.rs], with
      [ExactlyOnce], [Progress] and [PaymentMatch] on what it guarantees.
    - [Sse]: the event-stream decoder of [horizon.rs]; [Streaming]: [stream.rs].
    - [Supervisor]: the tick of [lib.rs] against the interface [TickWorld], with the laws
      [TickLaws]; [Leader] discharges them with the real polls and the real schedule;
      [Leadership]: the loops around a tick and the advisory lock, for many replicas.

    The API ([crates/api/src]):
    - [Router]: [lib.rs] and [error.rs]. [Token], [Auth], [AuthSafe], [AuthExact]:
      [auth.rs], [audit.rs], [routes/sessions.rs], [routes/apikeys.rs]. [RateLimit];
      [Net]: addresses of clients and of webhook targets.
    - [ApiHorizon]: [horizon.rs]; [Fees]: [withdrawal_estimate.rs], [signing_policy.rs];
      [Submit]: [submit_validation.rs], [sponsor_validation.rs] and the relay of
      [routes/submit.rs]; [Withdraw] and [AmountText]: the handlers of [routes/submit.rs];
      [Sponsor] and [SponsorRoutes]: [routes/sponsor.rs]; [Reconciler]:
      [withdrawal_reconciler.rs].
    - [RouteCommon]: [validation.rs] and the pages of the list endpoints; [LinkRoutes]:
      [routes/payment_links.rs]; [WalletRoutes]: [routes/wallets.rs], [addresses.rs];
      [ConfigRoutes] and [ConfigInv]: the allowlist, sponsorship, webhook, trustline,
      upload and audit routes; [AccountRoutes]: [routes/account.rs]; [Csv]:
      [routes/transactions_csv.rs].

    Keys and messages:
    - [WalletAddress] and [Signer]: [crates/wallet-core]; [Crypto]: [crates/crypto];
      [Webhooks] and [Redact]: [crates/webhooks]; [Email]: [crates/email]; [Metrics]:
      [crates/metrics]; [Evm] and [EvmRpc]: [crates/evm-core] and [crates/evm-rpc].

    Binaries:
    - [ServerConfig] and [ServerBoot]: [bin/server] with [api/src/self_test.rs];
      [MigrateKeys]: [bin/migrate-keys]; [Backfill]: [bin/backfill-operation-index].

    A record of the model is the struct of the same name, an inductive type its enum;
    a definition has the name of its function. An SQL statement [f] is the definition
    [f_stmt] on the tables and its method the definition [f] in the monad. Long bodies
    are cut at their loops and matches ([Ingest.process_all], [Submit.scan_ops],
    [Supervisor.fan_out]).

    ** What is proved

    - Deposits. [exactly_once]: under all faults, interleavings and repetitions no
      operation is credited twice, and the cursor passes no creditable operation without
      its row; [stream_exactly_once]: the same when streams and polls take over from each
      other; [sse_roundtrip]: a stream is decoded to what was sent however it is cut.
      [poll_progress]: a poll without faults reaches the end of its page, and each credit
      of the page has its row. [tick_fair]: a tick
      ends, reaches every due wallet, and none takes more than its budget; [real_tick]: so
      do the real ones. [one_leader]: one replica of a network leads, hands over (with a
      last tick that may overlap), and stops when told. [payment_confirmed_exactly],
      [payment_settles_once]: which payment intent a deposit settles and as what, and that
      it settles once, also when the account is deleted later.
    - Withdrawals and payments. [relay_gate], [withdrawal_gate], [payer_relay_gate]: what
      reaches Horizon was checked against the rows of the run's database, and was confirmed
      by its code where one is required; [submission_once]; [reconcile_sound]: a sweep
      settles a withdrawal by what is true on the ledger, or gives one without a time bound
      up at its age; [signing_bounds].
    - Sponsorship and keys. [sponsor_gate]: what is sponsored was checked, reserved and
      signed as it is; [dry_run_agrees]: the dry run foretells the real call;
      [fee_bump_faithful]: what a fee bump contains; [rotation_resumes],
      [rotation_keeps_seeds]: a rotation of the master key loses no seed, and ends after any
      interruption if every row still to be done opens.
    - Accounts. [authorize_exact], [login_exact], [password_change_ends_tokens],
      [registration_gate], [ownership_challenge], [account_deleted]; [tamper_evident] and
      [record_refines]: the audit log refines a list of signed events, and what verifies is
      a version that was signed (an old one too) or nothing. [authorize_exact] and
      [login_exact] are about requests that no fault and no other writer disturbs.
    - Shared limits. [allocation_safe], [budget_never_exceeded], [created_at_most_once],
      [retry_replays], [otp_safe], [rate_bounded]. The bounds count what is lost: a creation
      that committed unreported, the counters of a process or a database that died.
    - The service. [boot_gate]: a server that listens has passed its checks;
      [responses_uniform]: what every answer looks like; [configuration_typed]: what the
      configuration tables hold; [delivery_target_public], [delivery_exact]: where webhooks
      go and what is recorded of them; [backfill_inert]: the backfill tool writes nothing.
    - Encodings and arithmetic. [to_stroops_exact], and as lemmas [muxed_roundtrip],
      [decode_toid_correct], [csv_reads_back], [export_complete], [token_roundtrip],
      [eip55_exact], [amount_shown_exact], [metrics_exact], [listing_complete],
      [delay_for_bounded], [single_probe], [execute_contract].

    The [Example]s show behaviour on concrete inputs, including the limits of the
    guarantees: [Sponsorship.revived_reservation_exceeds],
    [Idempotency.lost_creation_repeats], [Reconciler.expiry_race],
    [Submit.allowlist_first_payment_only], [Submit.gateway_timeout_settles],
    [Sponsor.foreign_sequence_refused], [Sponsor.lost_answer_releases],
    [Resilience.circuit_after_call], [Leadership.ticks_overlap],
    [Router.webhook_secret_cacheable], [EvmRpc.client_errors_retried],
    [Users.denied_until_expiry_only], [RateLimit.memory_resets].

    ** Bounds and fuel

    Loops over lists are structural. [Resilience.attempts] recurses on the number of
    attempts that the policy allows. Every other loop has fuel, and a theorem that gives an
    amount that is enough: a CSV stream, three more than the number of transactions
    ([export_complete]); a key rotation, more than its pages ([rotation_resumes]); a
    session of a stream, one more than the bytes it receives ([session_fuel]), since every
    record takes a line; a tick, [Supervisor.drain_fuel], ten times its tasks, since a
    wallet is queued for at most ten pages, and one more than the full pages of wallets for
    its fan-out ([tick_fair]); a backfill, one more than the deposits ([backfill_inert]);
    [print_dec], the number of digits. A leader's loop runs for ever: it is a state machine
    whose events are any list.

    ** What is not modelled

    Logging, tracing and the trace exporter; the JSON, HTTP, TLS and SQL libraries, which
    are parameters; the twenty permits for polls at one time (a tick is proved for every order
    in which they end); the drain of the server at shutdown, which is calls of the runtime;
    the accessors of [AppState]; friendbot; mnemonics, which are library calls, and the
    signing functions that are compiled for tests only; the in-process lock and the audit
    entry of a sponsorship. Handlers that call functions which other crates of this commit
    do not have: [archive_wallet], [unarchive_wallet], [create_gas_tank], the sealing and the
    adapter of [evm-core], and [bin/migrate-keys/src/lib.rs]. The mock of Horizon and the
    seeding of demonstration data serve tests. *)

From Stdlib Require Export ZArith Lia Ascii String Bool.
From stdpp Require Export base list list_numbers strings numbers option gmap.

#[global] Open Scope string_scope.
#[global] Open Scope list_scope.
#[global] Open Scope Z_scope.

#[global] Arguments String.append !s1 s2 / : simpl nomatch.

(** ** Results: Rust's [Result<T, E>] *)

Inductive result (A E : Type) : Type :=
| Ok (a : A)
| Err (e : E).

Arguments Ok {A E} a.
Arguments Err {A E} e.

Definition result_bind {A B E} (m : result A E) (k : A -> result B E) : result B E :=
  match m with Ok a => k a | Err e => Err e end.

Definition ok_or {A E} (o : option A) (e : E) : result A E :=
  match o with Some a => Ok a | None => Err e end.

Definition map_err {A E F} (f : E -> F) (m : result A E) : result A F :=
  match m with Ok a => Ok a | Err e => Err (f e) end.

Definition result_ok {A E} (m : result A E) : option A :=
  match m with Ok a => Some a | Err _ => None end.

Definition is_ok {A E} (m : result A E) : bool :=
  match m with Ok _ => true | Err _ => false end.

Declare Scope octo_scope.
Delimit Scope octo_scope with octo.

(** [let? x := m in k] is Rust's [?] operator. *)
Notation "'let?' x ':=' m 'in' k" := (result_bind m (fun x => k))
  (at level 10, x pattern, m at level 100, k at level 200) : octo_scope.
Notation "'ensure!' b 'else' e ';' k" := (if b then k else Err e)
  (at level 10, b at level 100, e at level 100, k at level 200) : octo_scope.
Notation "'let*' x ':=' m 'in' k" := (option_bind _ _ (fun x => k) m)
  (at level 10, x pattern, m at level 100, k at level 200) : octo_scope.
#[global] Open Scope octo_scope.

(** ** Tactics *)

(** Turn every boolean comparison of the context into the proposition it
    decides. *)
Ltac bool_to_prop :=
  repeat match goal with
  | H : (_ && _)%bool = true |- _ => apply andb_true_iff in H; destruct H
  | H : (_ || _)%bool = false |- _ => apply orb_false_iff in H; destruct H
  | H : negb _ = true |- _ => apply negb_true_iff in H
  | H : negb _ = false |- _ => apply negb_false_iff in H
  | H : (_ <? _) = true |- _ => apply Z.ltb_lt in H
  | H : (_ <? _) = false |- _ => apply Z.ltb_ge in H
  | H : (_ <=? _) = true |- _ => apply Z.leb_le in H
  | H : (_ <=? _) = false |- _ => apply Z.leb_gt in H
  | H : (_ =? _) = true |- _ => apply Z.eqb_eq in H
  | H : (_ =? _) = false |- _ => apply Z.eqb_neq in H
  | H : bool_decide _ = true |- _ => apply bool_decide_eq_true in H
  | H : bool_decide _ = false |- _ => apply bool_decide_eq_false in H
  end.

(** Case on the scrutinee of the first [match] or [if] of the goal or of a
    hypothesis, and clear the impossible branches. *)
Ltac split_match :=
  match goal with
  | |- context [match ?x with _ => _ end] =>
      lazymatch x with context [match _ with _ => _ end] => fail | _ => idtac end;
      let E := fresh "E" in destruct x eqn:E
  | H : context [match ?x with _ => _ end] |- _ =>
      lazymatch x with context [match _ with _ => _ end] => fail | _ => idtac end;
      let E := fresh "E" in destruct x eqn:E
  end.

Ltac crush_match := repeat (split_match; simplify_eq/=; try done).

(** ** Machine integers

    A [w]-bit Rust integer is a [Z] in the range of its type; the operations
    that the source applies to it are written with their overflow behaviour. *)

Definition i64_MIN : Z := - 2 ^ 63.
Definition i64_MAX : Z := 2 ^ 63 - 1.
Definition u64_MAX : Z := 2 ^ 64 - 1.
Definition u32_MAX : Z := 2 ^ 32 - 1.
Definition i32_MAX : Z := 2 ^ 31 - 1.

Definition in_range (lo hi z : Z) : bool := (lo <=? z) && (z <=? hi).

Definition is_i64 (z : Z) : bool := in_range i64_MIN i64_MAX z.
Definition is_u64 (z : Z) : bool := in_range 0 u64_MAX z.
Definition is_u32 (z : Z) : bool := in_range 0 u32_MAX z.

(** [T::try_from(z).ok()] and the checked operations. *)
Definition guard_range (lo hi z : Z) : option Z := if in_range lo hi z then Some z else None.
Definition try_i64 (z : Z) : option Z := guard_range i64_MIN i64_MAX z.
Definition try_u64 (z : Z) : option Z := guard_range 0 u64_MAX z.
Definition try_u32 (z : Z) : option Z := guard_range 0 u32_MAX z.
Definition checked_mul_i64 (a b : Z) : option Z := try_i64 (a * b).
Definition checked_add_i64 (a b : Z) : option Z := try_i64 (a + b).

(** Saturating arithmetic. *)
Definition clampZ (lo hi z : Z) : Z := Z.max lo (Z.min hi z).
Definition sat_i64 (z : Z) : Z := clampZ i64_MIN i64_MAX z.
Definition sat_u64 (z : Z) : Z := clampZ 0 u64_MAX z.
Definition sat_u32 (z : Z) : Z := clampZ 0 u32_MAX z.

(** [z as u32]. *)
Definition as_u32 (z : Z) : Z := z mod 2 ^ 32.

(** [i64] arithmetic of a release build wraps. *)
Definition wrap_i64 (z : Z) : Z := (z + 2 ^ 63) mod 2 ^ 64 - 2 ^ 63.

Create HintDb octo.

Lemma in_range_spec lo hi z : in_range lo hi z = true <-> lo <= z <= hi.
Proof. unfold in_range. rewrite andb_true_iff, !Z.leb_le. lia. Qed.

Lemma guard_range_Some lo hi z v :
  guard_range lo hi z = Some v <-> v = z /\ lo <= z <= hi.
Proof.
  unfold guard_range. destruct (in_range lo hi z) eqn:E.
  - apply in_range_spec in E. naive_solver lia.
  - split; [done|]. intros [-> H]. apply in_range_spec in H. congruence.
Qed.

Lemma guard_range_in lo hi z : lo <= z <= hi -> guard_range lo hi z = Some z.
Proof. intros H. by apply guard_range_Some. Qed.

Lemma clampZ_bounds lo hi z : lo <= hi -> lo <= clampZ lo hi z <= hi.
Proof. unfold clampZ. lia. Qed.

Lemma wrap_i64_id z : i64_MIN <= z <= i64_MAX -> wrap_i64 z = z.
Proof. intros H. unfold wrap_i64, i64_MIN, i64_MAX in *. rewrite Z.mod_small; lia. Qed.

Lemma clampZ_id lo hi z : lo <= z <= hi -> clampZ lo hi z = z.
Proof. unfold clampZ. lia. Qed.

#[export] Hint Resolve guard_range_in clampZ_bounds : octo.

(** ** Strings

    A [&str] is its UTF-8 bytes, a [String.string]; [str::len] is the number of
    bytes, [String.length]. *)

Definition slen (s : string) : Z := Z.of_nat (String.length s).

Definition is_empty (s : string) : bool := match s with EmptyString => true | _ => false end.

Definition byte_val (c : ascii) : Z := Z.of_N (N_of_ascii c).

Definition is_ascii_digit (c : ascii) : bool := in_range 48 57 (byte_val c).

Definition is_ascii_hexdigit (c : ascii) : bool :=
  in_range 48 57 (byte_val c) || in_range 65 70 (byte_val c) || in_range 97 102 (byte_val c).

Definition to_ascii_lower (c : ascii) : ascii :=
  if in_range 65 90 (byte_val c) then ascii_of_N (N_of_ascii c + 32) else c.

Fixpoint str_forall (p : ascii -> bool) (s : string) : bool :=
  match s with
  | EmptyString => true
  | String c r => p c && str_forall p r
  end.

Fixpoint str_map (f : ascii -> ascii) (s : string) : string :=
  match s with
  | EmptyString => EmptyString
  | String c r => String (f c) (str_map f r)
  end.

Definition to_ascii_lowercase (s : string) : string := str_map to_ascii_lower s.

Definition eq_ignore_ascii_case (a b : string) : bool :=
  bool_decide (to_ascii_lowercase a = to_ascii_lowercase b).

(** [s.split_once(c)]: around the first occurrence. *)
Fixpoint split_once (c : ascii) (s : string) : option (string * string) :=
  match s with
  | EmptyString => None
  | String d r =>
      if bool_decide (c = d) then Some (EmptyString, r)
      else match split_once c r with
           | Some (a, b) => Some (String d a, b)
           | None => None
           end
  end.

Fixpoint strip_prefix (p s : string) : option string :=
  match p, s with
  | EmptyString, _ => Some s
  | String c p', String d s' => if bool_decide (c = d) then strip_prefix p' s' else None
  | String _ _, EmptyString => None
  end.

Definition starts_with (p s : string) : bool :=
  match strip_prefix p s with Some _ => true | None => false end.

(** *** [str::trim]

    The characters of Unicode's White_Space property, by their UTF-8 bytes:
    U+0009..U+000D, U+0020, U+0085, U+00A0, U+1680, U+2000..U+200A, U+2028,
    U+2029, U+202F, U+205F, U+3000. The function removes one such character
    from the front of a byte list. *)
Definition drop_ws (l : list Z) : option (list Z) :=
  match l with
  | a :: r1 =>
      if in_range 9 13 a || (a =? 32) then Some r1
      else match r1 with
      | b :: r2 =>
          if (a =? 194) && ((b =? 133) || (b =? 160)) then Some r2
          else match r2 with
          | c :: r3 =>
              if ((a =? 225) && (b =? 154) && (c =? 128))
                 || ((a =? 226) && (b =? 128) &&
                     (in_range 128 138 c || (c =? 168) || (c =? 169) || (c =? 175)))
                 || ((a =? 226) && (b =? 129) && (c =? 159))
                 || ((a =? 227) && (b =? 128) && (c =? 128))
              then Some r3 else None
          | [] => None
          end
      | [] => None
      end
  | [] => None
  end.

(** The same, from the end: the list is reversed, so the bytes of one
    character come in the opposite order. *)
Definition drop_ws_rev (l : list Z) : option (list Z) :=
  match l with
  | a :: r1 =>
      if in_range 9 13 a || (a =? 32) then Some r1
      else match r1 with
      | b :: r2 =>
          match drop_ws [b; a] with
          | Some [] => Some r2
          | _ => match r2 with
                 | c :: r3 => match drop_ws [c; b; a] with Some [] => Some r3 | _ => None end
                 | [] => None
                 end
          end
      | [] => None
      end
  | [] => None
  end.

Fixpoint drop_all (f : list Z -> option (list Z)) (fuel : nat) (l : list Z) : list Z :=
  match fuel with
  | O => l
  | S n => match f l with Some r => drop_all f n r | None => l end
  end.

Definition bytes_of (s : string) : list Z := map byte_val (list_ascii_of_string s).
Definition str_of (l : list Z) : string :=
  string_of_list_ascii (map (fun z => ascii_of_N (Z.to_N z)) l).

Definition trim_start (l : list Z) : list Z := drop_all drop_ws (length l) l.
Definition trim_end (l : list Z) : list Z :=
  rev (drop_all drop_ws_rev (length l) (rev l)).
Definition trim (s : string) : string := str_of (trim_end (trim_start (bytes_of s))).

(** *** Decimal numbers *)

(** The value of a run of ASCII digits, most significant first. *)
Fixpoint dec_acc (acc : Z) (s : string) : Z :=
  match s with
  | EmptyString => acc
  | String c r => dec_acc (acc * 10 + (byte_val c - 48)) r
  end.
Definition dec_val (s : string) : Z := dec_acc 0 s.

Definition all_digits (s : string) : bool := str_forall is_ascii_digit s.

(** [s.parse::<T>().ok()] for an integer type with range [lo..hi]: an optional
    ['+'], or ['-'] when the type is signed, then one or more ASCII digits. *)
Definition parse_int (lo hi : Z) (s : string) : option Z :=
  let '(neg, body) :=
    match s with
    | String c r =>
        if bool_decide (c = "+"%char) then (false, r)
        else if bool_decide (c = "-"%char) && (lo <? 0) then (true, r)
        else (false, s)
    | EmptyString => (false, s)
    end in
  if negb (is_empty body) && all_digits body
  then guard_range lo hi (if neg then - dec_val body else dec_val body)
  else None.

Definition parse_i64 : string -> option Z := parse_int i64_MIN i64_MAX.
Definition parse_i32 : string -> option Z := parse_int (- 2 ^ 31) i32_MAX.
Definition parse_u64 : string -> option Z := parse_int 0 u64_MAX.
Definition parse_u32 : string -> option Z := parse_int 0 u32_MAX.

(** The decimal text of a number: [to_string] of a non-negative integer, and
    its zero-padded form of a fixed width. *)
Definition digit_char (d : Z) : ascii := ascii_of_N (Z.to_N (48 + d)).

Fixpoint print_fixed (width : nat) (n : Z) : string :=
  match width with
  | O => EmptyString
  | S w => print_fixed w (n / 10) +:+ String (digit_char (n mod 10)) EmptyString
  end.

Fixpoint dec_width (fuel : nat) (n : Z) : nat :=
  match fuel with
  | O => 1
  | S f => if n <? 10 then 1 else S (dec_width f (n / 10))
  end.

(** The binary length bounds the number of digits. *)
Definition dec_fuel (n : Z) : nat := Z.to_nat (Z.log2 n).

Definition print_dec (n : Z) : string := print_fixed (dec_width (dec_fuel n) n) n.

(** A signed integer, as [Display] prints it. *)
Definition print_int (z : Z) : string := if z <? 0 then String "-" (print_dec (- z)) else print_dec z.

(** *** Lemmas on strings and decimals *)

Lemma slen_app s t : slen (s +:+ t) = slen s + slen t.
Proof.
  unfold slen. rewrite <- Nat2Z.inj_add. f_equal.
  induction s as [|c s IH]; cbn; [done|]. by rewrite IH.
Qed.

Lemma str_app_empty_r s : s +:+ "" = s.
Proof. induction s as [|c s IH]; cbn; [done|]. by rewrite IH. Qed.

Lemma str_app_assoc s t u : s +:+ (t +:+ u) = (s +:+ t) +:+ u.
Proof. induction s as [|c s IH]; cbn; [done|]. by rewrite IH. Qed.

Lemma slen_cons c s : slen (String c s) = slen s + 1.
Proof. unfold slen. cbn [String.length]. lia. Qed.

Lemma slen_nonneg s : 0 <= slen s.
Proof. unfold slen. lia. Qed.

Lemma str_forall_app p s t : str_forall p (s +:+ t) = str_forall p s && str_forall p t.
Proof. induction s as [|c s IH]; simpl; [done|]. rewrite IH. by rewrite andb_assoc. Qed.

Lemma str_forall_impl (p q : ascii -> bool) s :
  (forall c, p c = true -> q c = true) -> str_forall p s = true -> str_forall q s = true.
Proof.
  intros Hpq. induction s as [|c s IH]; simpl; [done|].
  rewrite !andb_true_iff. intros [H1 H2]. auto.
Qed.

Lemma byte_val_bounds c : 0 <= byte_val c < 256.
Proof.
  unfold byte_val. pose proof (N_ascii_bounded c). lia.
Qed.

Lemma byte_val_inj c d : byte_val c = byte_val d -> c = d.
Proof.
  unfold byte_val. intros H. apply N2Z.inj in H.
  by rewrite <- (ascii_N_embedding c), <- (ascii_N_embedding d), H.
Qed.

Lemma byte_val_of_N z : 0 <= z < 256 -> byte_val (ascii_of_N (Z.to_N z)) = z.
Proof. intros H. unfold byte_val. rewrite N_ascii_embedding; lia. Qed.

Lemma str_of_bytes_of s : str_of (bytes_of s) = s.
Proof.
  unfold str_of, bytes_of. rewrite map_map.
  rewrite (map_ext _ (fun c => c)).
  - rewrite map_id. apply string_of_list_ascii_of_string.
  - intros c. unfold byte_val. rewrite N2Z.id. apply ascii_N_embedding.
Qed.

Lemma digit_char_val d : 0 <= d <= 9 -> byte_val (digit_char d) = 48 + d.
Proof. intros H. apply byte_val_of_N. lia. Qed.

Lemma digit_char_digit d : 0 <= d <= 9 -> is_ascii_digit (digit_char d) = true.
Proof. intros H. unfold is_ascii_digit. apply in_range_spec. rewrite digit_char_val; lia. Qed.

Lemma dec_acc_app a s t : dec_acc a (s +:+ t) = dec_acc (dec_acc a s) t.
Proof. revert a. induction s as [|c s IH]; intros a; [done|]. apply IH. Qed.

Lemma dec_acc_shift a s : dec_acc a s = a * 10 ^ slen s + dec_val s.
Proof.
  unfold dec_val. revert a. induction s as [|c s IH]; intros a.
  - change (slen "") with 0. cbn [dec_acc]. rewrite Z.pow_0_r. lia.
  - cbn [dec_acc]. rewrite IH, (IH (0 * 10 + _)).
    rewrite slen_cons, Z.pow_add_r by (pose proof (slen_nonneg s); lia).
    nia.
Qed.

Lemma dec_val_app s t : dec_val (s +:+ t) = dec_val s * 10 ^ slen t + dec_val t.
Proof. unfold dec_val at 1. rewrite dec_acc_app. apply dec_acc_shift. Qed.

Lemma dec_val_bounds s : all_digits s = true -> 0 <= dec_val s < 10 ^ slen s.
Proof.
  induction s as [|c s IH]; cbn [all_digits str_forall].
  - intros _. change (slen "") with 0. cbn. lia.
  - rewrite andb_true_iff. intros [Hc Hs]. specialize (IH Hs).
    unfold is_ascii_digit in Hc. apply in_range_spec in Hc.
    rewrite slen_cons, Z.pow_add_r by (pose proof (slen_nonneg s); lia).
    unfold dec_val. cbn [dec_acc]. rewrite dec_acc_shift. nia.
Qed.

Lemma slen_print_fixed w n : slen (print_fixed w n) = Z.of_nat w.
Proof.
  revert n. induction w as [|w IH]; intros n; [done|].
  cbn [print_fixed]. rewrite slen_app, IH.
  change (slen (String _ EmptyString)) with 1. lia.
Qed.

Lemma all_digits_print_fixed w n : all_digits (print_fixed w n) = true.
Proof.
  revert n. induction w as [|w IH]; intros n; [done|].
  cbn [print_fixed]. unfold all_digits in *. rewrite str_forall_app, IH.
  cbn [str_forall]. rewrite digit_char_digit; [done|].
  pose proof (Z.mod_pos_bound n 10). lia.
Qed.

Lemma dec_val_print_fixed w n :
  0 <= n -> dec_val (print_fixed w n) = n mod 10 ^ Z.of_nat w.
Proof.
  revert n. induction w as [|w IH]; intros n Hn.
  - cbn. by rewrite Z.mod_1_r.
  - cbn [print_fixed]. rewrite dec_val_app, IH by (apply Z.div_pos; lia).
    change (slen (String _ EmptyString)) with 1.
    pose proof (Z.mod_pos_bound n 10 ltac:(lia)).
    unfold dec_val. cbn [dec_acc]. rewrite digit_char_val by lia.
    replace (Z.of_nat (S w)) with (Z.of_nat w + 1) by lia.
    rewrite Z.pow_add_r by lia. change (10 ^ 1) with 10.
    rewrite (Z.mul_comm (10 ^ _) 10), Z.rem_mul_r by (try apply Z.pow_pos_nonneg; lia).
    lia.
Qed.

Lemma dec_width_enough fuel n :
  (dec_fuel n <= fuel)%nat -> n < 10 ^ Z.of_nat (dec_width fuel n).
Proof.
  unfold dec_fuel. revert n. induction fuel as [|f IH]; intros n Hf; cbn [dec_width].
  - change (10 ^ Z.of_nat 1) with 10. pose proof (Z.log2_nonneg n).
    assert (Hl : Z.log2 n < 2) by lia. destruct (Z.le_gt_cases n 0); [lia|]. apply Z.log2_lt_pow2 in Hl; lia.
  - destruct (Z.ltb_spec n 10) as [H|H].
    + change (10 ^ Z.of_nat 1) with 10. lia.
    + assert (Hd : Z.log2 (n / 10) < Z.log2 n).
      { assert (Hh : Z.log2 (n / 10) <= Z.log2 (n / 2)).
        { apply Z.log2_le_mono. apply Z.div_le_compat_l; lia. }
        change (n / 2) with (n / 2 ^ 1) in Hh. rewrite <- Z.shiftr_div_pow2, Z.log2_shiftr in Hh by lia.
        pose proof (Z.log2_pos n ltac:(lia)). lia. }
      assert (0 <= n / 10) by (apply Z.div_pos; lia). pose proof (Z.log2_nonneg (n / 10)).
      specialize (IH (n / 10) ltac:(lia)).
      replace (Z.of_nat (S (dec_width f (n / 10))))
        with (Z.of_nat (dec_width f (n / 10)) + 1) by lia.
      rewrite Z.pow_add_r by lia. change (10 ^ 1) with 10.
      pose proof (Z.div_mod n 10 ltac:(lia)).
      pose proof (Z.mod_pos_bound n 10 ltac:(lia)). lia.
Qed.

Lemma dec_width_pos fuel n : (0 < dec_width fuel n)%nat.
Proof. destruct fuel; cbn; [lia|]. destruct (n <? 10); lia. Qed.

Lemma dec_val_print_dec n : 0 <= n -> dec_val (print_dec n) = n.
Proof.
  intros Hn. unfold print_dec. rewrite dec_val_print_fixed by done.
  apply Z.mod_small. split; [done|]. apply dec_width_enough. lia.
Qed.

Lemma all_digits_print_dec n : all_digits (print_dec n) = true.
Proof. apply all_digits_print_fixed. Qed.

Lemma print_dec_nonempty n : print_dec n <> EmptyString.
Proof.
  intros H. pose proof (slen_print_fixed (dec_width (dec_fuel n) n) n) as HL.
  unfold print_dec in H. rewrite H in HL.
  pose proof (dec_width_pos (dec_fuel n) n). unfold slen in HL. simpl in HL. lia.
Qed.

Lemma is_empty_false s : is_empty s = false <-> s <> EmptyString.
Proof. destruct s; naive_solver. Qed.

Lemma digit_not_sign c : is_ascii_digit c = true -> c <> "+"%char /\ c <> "-"%char.
Proof. intros H. split; intros ->; vm_compute in H; discriminate. Qed.

(** A run of digits parses to its value, when the value is in range. *)
Lemma parse_int_digits lo hi s :
  s <> EmptyString -> all_digits s = true ->
  parse_int lo hi s = guard_range lo hi (dec_val s).
Proof.
  intros Hne Hd. unfold parse_int. destruct s as [|c r]; [done|].
  pose proof Hd as Hd'. cbn [all_digits str_forall] in Hd'.
  apply andb_true_iff in Hd' as [Hc _]. apply digit_not_sign in Hc as [Hp Hm].
  rewrite (bool_decide_eq_false_2 (c = "+"%char)) by done.
  rewrite (bool_decide_eq_false_2 (c = "-"%char)) by done.
  cbn [andb is_empty negb]. by rewrite Hd.
Qed.

Lemma parse_int_print_dec lo hi n :
  0 <= n -> lo <= n <= hi -> parse_int lo hi (print_dec n) = Some n.
Proof.
  intros Hn Hr. rewrite parse_int_digits; [|apply print_dec_nonempty|apply all_digits_print_dec].
  rewrite dec_val_print_dec by done. by apply guard_range_in.
Qed.

Lemma parse_int_range lo hi s v : parse_int lo hi s = Some v -> lo <= v <= hi.
Proof.
  unfold parse_int. intros H. crush_match; apply guard_range_Some in H; naive_solver.
Qed.

(** [split_once] finds the first separator. *)
Lemma split_once_Some c s a b :
  split_once c s = Some (a, b) <->
  s = a +:+ String c b /\ str_forall (fun d => bool_decide (c <> d)) a = true.
Proof.
  split.
  - revert a. induction s as [|d s IH]; intros a; cbn [split_once]; [done|].
    case_bool_decide as Hcd; [intros [= <- <-]; by subst|].
    destruct (split_once c s) as [[a' b']|]; intros [= <- <-].
    destruct (IH a') as [-> Hf]; [done|]. cbn. rewrite Hf.
    by rewrite bool_decide_eq_true_2.
  - intros [-> Hf]. induction a as [|e a IH]; cbn in *.
    + by rewrite bool_decide_eq_true_2.
    + apply andb_true_iff in Hf as [He Hf]. apply bool_decide_eq_true in He.
      rewrite bool_decide_eq_false_2 by done. by rewrite IH.
Qed.

Lemma split_once_None c s :
  split_once c s = None <-> str_forall (fun d => bool_decide (c <> d)) s = true.
Proof.
  induction s as [|d s IH]; cbn [split_once str_forall]; [done|].
  case_bool_decide as H; [subst|].
  - rewrite bool_decide_eq_false_2 by naive_solver. naive_solver.
  - rewrite bool_decide_eq_true_2 by done. cbn. rewrite <- IH.
    destruct (split_once c s) as [[? ?]|]; naive_solver.
Qed.

(** Trimming does not touch a text whose first and last bytes are ASCII and not
    white space. *)
Definition plain_byte (z : Z) : bool := in_range 33 126 z.

Lemma drop_ws_plain z l : plain_byte z = true -> drop_ws (z :: l) = None.
Proof.
  unfold plain_byte. rewrite in_range_spec. intros H. cbn [drop_ws].
  assert (in_range 9 13 z = false) as ->.
  { destruct (in_range 9 13 z) eqn:E; [|done]. apply in_range_spec in E. lia. }
  replace (z =? 32) with false by lia. replace (z =? 194) with false by lia.
  replace (z =? 225) with false by lia. replace (z =? 226) with false by lia.
  replace (z =? 227) with false by lia.
  destruct l as [|b [|c r]]; done.
Qed.

Lemma drop_ws_rev_plain z l : plain_byte z = true -> drop_ws_rev (z :: l) = None.
Proof.
  unfold plain_byte. rewrite in_range_spec. intros H. cbn [drop_ws_rev].
  assert (in_range 9 13 z = false) as ->.
  { destruct (in_range 9 13 z) eqn:E; [|done]. apply in_range_spec in E. lia. }
  replace (z =? 32) with false by lia.
  destruct l as [|b l]; [done|]. cbn [drop_ws].
  replace (z =? 133) with false by lia. replace (z =? 160) with false by lia.
  cbn [orb]. rewrite andb_false_r.
  destruct (in_range 9 13 b || (b =? 32)); destruct l as [|c l]; try done;
    replace (z =? 128) with false by lia; replace (z =? 159) with false by lia;
    replace (z =? 168) with false by lia; replace (z =? 169) with false by lia;
    replace (z =? 175) with false by lia;
    (assert (in_range 128 138 z = false) as ->
      by (destruct (in_range 128 138 z) eqn:E; [apply in_range_spec in E; lia|done]));
    cbn [orb]; rewrite !andb_false_r; cbn [orb]; repeat case_match; done.
Qed.

Lemma drop_all_stop f fuel l : f l = None -> drop_all f fuel l = l.
Proof. intros H. destruct fuel; cbn; [done|]. by rewrite H. Qed.

Lemma trim_plain s c d t u :
  s = String c t -> s = u +:+ String d EmptyString ->
  plain_byte (byte_val c) = true -> plain_byte (byte_val d) = true -> trim s = s.
Proof.
  intros Hs Hs' Hc Hd. unfold trim, trim_start.
  rewrite drop_all_stop.
  2:{ rewrite Hs. apply drop_ws_plain. done. }
  unfold trim_end. rewrite drop_all_stop.
  - by rewrite rev_involutive, str_of_bytes_of.
  - assert (bytes_of s = bytes_of u ++ [byte_val d]) as ->.
    { rewrite Hs'. unfold bytes_of. clear. induction u as [|e u IH]; [done|].
      simpl in *. by rewrite IH. }
    rewrite rev_app_distr. apply drop_ws_rev_plain. done.
Qed.
