(* ===== verification/Float64.v ===== *)
(** * Rust's [f64]

    The part of IEEE 754 binary64 that the sources use: conversion from an
    integer, multiplication, division and addition rounded to nearest (ties to even),
    comparison, [clamp], the saturating conversion [as u64] and the text of a fixed
    number of decimals. A finite value
    is [m * 2^e]; several pairs denote one value, and every operation below is a
    function of the value alone. The sign of a zero is not kept: none of the
    operations can observe it. *)

From S2P Require Import Prelude.

Module Float64.

Inductive f64 : Type :=
| NaN
| Inf (neg : bool)
| Fin (m e : Z).

(** Rounding of the exact value [m * 2^e]: 53 significant bits, least exponent
    -1074, values of 2^1024 and more are infinite. *)
Definition round_mag (a e : Z) : f64 :=
  if a =? 0 then Fin 0 0 else
  let e' := Z.max (e + Z.log2 a + 1 - 53) (-1074) in
  let '(q, qe) :=
    if e' <=? e then (a, e) else
    let sh := e' - e in
    let q := a / 2 ^ sh in
    let r := a mod 2 ^ sh in
    let half := 2 ^ (sh - 1) in
    (if (half <? r) || ((r =? half) && Z.odd q) then q + 1 else q, e') in
  if 1024 <=? qe + Z.log2 q then Inf false else Fin q qe.

Definition neg (x : f64) : f64 :=
  match x with NaN => NaN | Inf s => Inf (negb s) | Fin m e => Fin (- m) e end.

Definition round (m e : Z) : f64 :=
  if m <? 0 then neg (round_mag (- m) e) else round_mag m e.

(** [z as f64]. *)
Definition of_Z (z : Z) : f64 := round z 0.

Definition is_nan (x : f64) : bool := match x with NaN => true | _ => false end.

Definition is_neg (x : f64) : bool :=
  match x with NaN => false | Inf s => s | Fin m _ => m <? 0 end.

Definition is_zero (x : f64) : bool := match x with Fin 0 _ => true | _ => false end.

Definition mul (x y : f64) : f64 :=
  match x, y with
  | NaN, _ | _, NaN => NaN
  | Fin m e, Fin n f => round (m * n) (e + f)
  | _, _ => if is_zero x || is_zero y then NaN else Inf (xorb (is_neg x) (is_neg y))
  end.

(** The mantissas of two finite numbers over their common exponent. *)
Definition align (m e n f : Z) : Z * Z * Z :=
  let g := Z.min e f in (m * 2 ^ (e - g), n * 2 ^ (f - g), g).

Definition add (x y : f64) : f64 :=
  match x, y with
  | NaN, _ | _, NaN => NaN
  | Inf s, Inf t => if eqb s t then Inf s else NaN
  | Inf s, _ | _, Inf s => Inf s
  | Fin m e, Fin n f => let '(a, b, g) := align m e n f in round (a + b) g
  end.

(** [x < y] and [x == y]; every comparison with a NaN is false. *)
Definition ltb (x y : f64) : bool :=
  match x, y with
  | NaN, _ | _, NaN => false
  | Inf s, Inf t => s && negb t
  | Inf s, Fin _ _ => s
  | Fin _ _, Inf t => negb t
  | Fin m e, Fin n f => let '(a, b, _) := align m e n f in a <? b
  end.

Definition eqf (x y : f64) : bool :=
  match x, y with
  | NaN, _ | _, NaN => false
  | Inf s, Inf t => eqb s t
  | Fin m e, Fin n f => let '(a, b, _) := align m e n f in a =? b
  | _, _ => false
  end.

Definition leb (x y : f64) : bool := ltb x y || eqf x y.

(** [x.clamp(lo, hi)]: panics unless [lo <= hi]; a NaN is returned as it is. *)
Definition clamp (lo hi x : f64) : option f64 :=
  if leb lo hi then
    let x := if ltb x lo then lo else x in
    Some (if ltb hi x then hi else x)
  else None.

(** [x as u64]: towards zero, saturating, NaN to zero. *)
Definition to_u64 (x : f64) : Z :=
  match x with
  | NaN => 0
  | Inf true => 0
  | Inf false => u64_MAX
  | Fin m e => sat_u64 (if 0 <=? e then m * 2 ^ e else Z.quot m (2 ^ (- e)))
  end.

(** The exact quotient, cut far below the last bit with one more bit for the rest, is rounded. *)
Definition div (x y : f64) : f64 :=
  match x, y with
  | NaN, _ | _, NaN | Inf _, Inf _ => NaN
  | Inf s, _ => Inf (xorb s (is_neg y))
  | Fin _ _, Inf _ => Fin 0 0
  | Fin m e, Fin n f =>
      if n =? 0 then (if m =? 0 then NaN else Inf (m <? 0)) else
      let a := Z.abs m * 2 ^ 128 in
      let q := 2 * (a / Z.abs n) + (if a mod Z.abs n =? 0 then 0 else 1) in
      round (Z.sgn m * Z.sgn n * q) (e - f - 129)
  end.

(** [a / b] to the nearest integer, ties to even. *)
Definition nearest_even (a b : Z) : Z :=
  let q := a / b in
  let r := a mod b in
  if (b <? 2 * r) || ((2 * r =? b) && Z.odd q) then q + 1 else q.

(** [format!("{:.p$}", x)]. *)
Definition format_fixed (p : nat) (x : f64) : string :=
  match x with
  | NaN => "NaN"
  | Inf s => if s then "-inf" else "inf"
  | Fin m e =>
      let scaled := Z.abs m * 10 ^ Z.of_nat p in
      let n := if 0 <=? e then scaled * 2 ^ e else nearest_even scaled (2 ^ (- e)) in
      (if m <? 0 then "-" else "") +:+ print_dec (n / 10 ^ Z.of_nat p)
        +:+ (if (p =? 0)%nat then "" else "." +:+ print_fixed p (n mod 10 ^ Z.of_nat p))
  end.

(** The literals of the sources. *)
Definition zero : f64 := Fin 0 0.
Definition two : f64 := Fin 1 1.
Definition half : f64 := Fin 1 (-1).
Definition minus_half : f64 := Fin (-1) (-1).
Definition point_two : f64 := Fin 7205759403792794 (-55).

(** ** Lemmas *)

Lemma of_Z_exact z : 0 <= z <= 2 ^ 53 -> exists m e, of_Z z = Fin m e /\ 0 <= e /\ m * 2 ^ e = z.
Proof.
  intros Hz. unfold of_Z, round. replace (z <? 0) with false by lia.
  unfold round_mag. destruct (Z.eqb_spec z 0) as [->|Hne].
  { exists 0, 0. split_and!; done || lia. }
  destruct (Z.eq_dec z (2 ^ 53)) as [->|Hlt].
  { exists (2 ^ 52), 1. split_and!; done || lia. }
  assert (HL : 0 <= Z.log2 z <= 52).
  { split; [apply Z.log2_nonneg|]. assert (z < 2 ^ 53) by lia.
    apply Z.log2_lt_pow2 in H; lia. }
  replace (Z.max _ _ <=? 0) with true by lia.
  replace (1024 <=? 0 + Z.log2 z) with false by lia.
  exists z, 0. split_and!; try done; lia.
Qed.

Lemma round_mag_fin_nonneg a e : 0 <= a -> is_neg (round_mag a e) = false /\ is_nan (round_mag a e) = false.
Proof.
  intros Ha. unfold round_mag. destruct (a =? 0); [done|].
  case_match eqn:E. destruct (1024 <=? _); [done|]. cbn. split; [|done].
  apply Z.ltb_ge. revert E. repeat case_match; intros [= <- <-]; try lia.
  all: assert (0 <= a / 2 ^ (Z.max (e + Z.log2 a + 1 - 53) (-1074) - e))
    by (apply Z.div_pos; [lia|apply Z.pow_pos_nonneg; lia]); lia.
Qed.

Lemma of_Z_nonneg z : 0 <= z -> leb zero (of_Z z) = true.
Proof.
  intros Hz. unfold of_Z, round. replace (z <? 0) with false by lia.
  destruct (round_mag_fin_nonneg z 0 Hz) as [Hn Hna].
  destruct (round_mag z 0) as [|[]|m e]; try done.
  cbn in Hn. apply Z.ltb_ge in Hn. unfold leb, ltb, eqf, zero, align.
  assert (0 <= 2 ^ (e - Z.min 0 e)) by (apply Z.pow_nonneg; lia).
  apply orb_true_iff. rewrite Z.ltb_lt, Z.eqb_eq. nia.
Qed.

(** A value that is not above an integer converts to at most that integer. *)
Lemma to_u64_le x m e z :
  0 <= e -> m * 2 ^ e = z -> 0 <= z -> ltb (Fin m e) x = false -> 0 <= to_u64 x <= z.
Proof.
  intros He Hm Hz Hx. destruct x as [|[]|n f]; try (cbn in *; (done || lia)).
  unfold ltb, align in Hx. apply Z.ltb_ge in Hx. unfold to_u64, sat_u64, clampZ.
  destruct (Z.leb_spec 0 f) as [Hf|Hf].
  - assert (n * 2 ^ f <= z); [|lia]. rewrite <- Hm.
    assert (Hg : 0 < 2 ^ Z.min e f) by (apply Z.pow_pos_nonneg; lia).
    apply (Z.mul_le_mono_nonneg_r _ _ (2 ^ Z.min e f)) in Hx; [|lia].
    rewrite <- !Z.mul_assoc, <- !Z.pow_add_r in Hx by lia.
    by rewrite !Z.sub_add in Hx.
  - replace (Z.min e f) with f in Hx by lia. rewrite Z.sub_diag, Z.pow_0_r, Z.mul_1_r in Hx.
    replace (e - f) with (e + - f) in Hx by lia.
    rewrite Z.pow_add_r, Z.mul_assoc, Hm in Hx by lia.
    assert (Hp : 0 < 2 ^ (- f)) by (apply Z.pow_pos_nonneg; lia).
    assert (Z.quot n (2 ^ - f) <= z); [|lia].
    destruct (Z.le_gt_cases 0 n).
    + rewrite Z.quot_div_nonneg by lia. apply Z.div_le_upper_bound; lia.
    + pose proof (Z.quot_opp_l n (2 ^ - f) ltac:(lia)).
      pose proof (Z.quot_pos (- n) (2 ^ - f) ltac:(lia) ltac:(lia)). lia.
Qed.

Lemma ltb_irrefl x : ltb x x = false.
Proof. destruct x as [|[]|m e]; try done. cbn. apply Z.ltb_irrefl. Qed.

(** [clamp] between zero and a converted integer does not panic, and its result
    is not above the bound. *)
Lemma clamp_of_Z z x :
  0 <= z -> exists y, clamp zero (of_Z z) x = Some y /\ ltb (of_Z z) y = false.
Proof.
  intros Hz. unfold clamp. rewrite of_Z_nonneg by done. eexists. split; [done|].
  case_match; [by apply ltb_irrefl|done].
Qed.

Lemma clamp_of_Z_to_u64 z x y :
  0 <= z <= 2 ^ 53 -> clamp zero (of_Z z) x = Some y -> 0 <= to_u64 y <= z.
Proof.
  intros Hz Hc. destruct (clamp_of_Z z x) as (y' & Hy' & Hl); [lia|].
  rewrite Hc in Hy'. injection Hy' as <-.
  destruct (of_Z_exact z Hz) as (m & e & Hof & He & Hm). rewrite Hof in Hl.
  eapply to_u64_le; eauto; lia.
Qed.

(** Rounding moves a value by at most half a unit of the last place. *)
Lemma round_mag_near a e :
  0 < a -> -1074 <= e -> e + Z.log2 a < 1000 ->
  let qe := Z.max e (e + Z.log2 a - 52) in
  exists q, round_mag a e = Fin q qe /\ 2 * Z.abs (q * 2 ^ (qe - e) - a) <= 2 ^ (qe - e).
Proof.
  intros Ha He Hlog qe. unfold round_mag. replace (a =? 0) with false by lia.
  destruct (Z.leb_spec (Z.max (e + Z.log2 a + 1 - 53) (-1074)) e) as [Hs|Hs].
  - replace (1024 <=? e + Z.log2 a) with false by lia. exists a. replace qe with e by (unfold qe; lia).
    split; [done|]. rewrite Z.sub_diag, Z.pow_0_r. lia.
  - replace (Z.max (e + Z.log2 a + 1 - 53) (-1074)) with qe in * by (unfold qe; lia).
    assert (Hp : 0 < 2 ^ (qe - e - 1)) by (apply Z.pow_pos_nonneg; lia).
    assert (Hd : 2 ^ (qe - e) = 2 * 2 ^ (qe - e - 1)) by (rewrite <- Z.pow_succ_r by lia; f_equal; lia).
    pose proof (Z.div_mod a (2 ^ (qe - e)) ltac:(lia)) as Hdm. pose proof (Z.mod_pos_bound a (2 ^ (qe - e)) ltac:(lia)) as Hmb.
    set (r := a mod 2 ^ (qe - e)) in *. set (q0 := a / 2 ^ (qe - e)) in *.
    set (q := if _ : bool then q0 + 1 else q0).
    assert (Hq : 2 * Z.abs (q * 2 ^ (qe - e) - a) <= 2 ^ (qe - e) /\ q0 <= q <= q0 + 1).
    { unfold q. destruct (Z.ltb_spec (2 ^ (qe - e - 1)) r); cbn [orb]; [nia|].
      destruct (Z.eqb_spec r (2 ^ (qe - e - 1))); cbn [andb]; [destruct (Z.odd q0)|]; nia. }
    assert (Hl : Z.log2 q <= 53).
    { assert (Hu : q0 < 2 ^ 53).
      { apply Z.div_lt_upper_bound; [lia|]. rewrite <- Z.pow_add_r by lia.
        pose proof (Z.log2_spec a Ha) as [_ Hh]. eapply Z.lt_le_trans; [exact Hh|]. apply Z.pow_le_mono_r; unfold qe; lia. }
      destruct (Z.le_gt_cases q 0); [rewrite Z.log2_nonpos by done; lia|].
      change 53 with (Z.log2 (2 ^ 53)). apply Z.log2_le_mono. lia. }
    replace (1024 <=? qe + Z.log2 q) with false by (unfold qe in *; lia). exists q. tauto.
Qed.

Lemma nearest_even_spec a b n : 0 < b -> 2 * Z.abs (a - n * b) < b -> nearest_even a b = n.
Proof.
  intros Hb Hn. unfold nearest_even. pose proof (Z.div_mod a b ltac:(lia)). pose proof (Z.mod_pos_bound a b Hb).
  set (q := a / b) in *. set (r := a mod b) in *. assert (q = n \/ q + 1 = n) as [E|E] by nia.
  - replace (b <? 2 * r) with false by (symmetry; apply Z.ltb_ge; nia). cbn [orb].
    replace (2 * r =? b) with false by (symmetry; apply Z.eqb_neq; nia). done.
  - replace (b <? 2 * r) with true by (symmetry; apply Z.ltb_lt; nia). done.
Qed.

(** Below [2^29] units, an amount of the smallest units that is divided and printed with seven
    decimals is printed exactly. *)
Lemma format_div_exact s :
  0 <= s < 2 ^ 29 * 10 ^ 7 ->
  format_fixed 7 (div (of_Z s) (of_Z 10000000)) = print_dec (s / 10 ^ 7) +:+ "." +:+ print_fixed 7 (s mod 10 ^ 7).
Proof.
  intros Hs. destruct (Z.eq_dec s 0) as [->|Hne]; [by vm_compute|].
  assert (Hof : of_Z s = Fin s 0).
  { destruct (round_mag_near s 0) as (q & E & Hq); [lia..| |].
    { assert (Z.log2 s < 60) by (apply Z.log2_lt_pow2; lia). lia. }
    assert (Hl : Z.log2 s < 53) by (apply Z.log2_lt_pow2; lia). replace (Z.max 0 _) with 0 in * by lia.
    unfold of_Z, round. replace (s <? 0) with false by lia. rewrite E. f_equal. change (2 ^ (0 - 0)) with 1 in Hq. lia. }
  rewrite Hof. change (of_Z 10000000) with (Fin 10000000 0). unfold div. cbn [Z.eqb].
  replace (Z.sgn s * Z.sgn 10000000) with 1 by (rewrite Z.sgn_pos by lia; done). rewrite Z.mul_1_l, Z.abs_eq by lia.
  change (Z.abs 10000000) with 10000000. change (0 - 0 - 129) with (-129).
  set (A := s * 2 ^ 128). pose proof (Z.div_mod A 10000000 ltac:(lia)) as Hdm. pose proof (Z.mod_pos_bound A 10000000 ltac:(lia)) as Hmb.
  set (a := 2 * (A / 10000000) + _).
  assert (Ha : Z.abs (a * 10000000 - s * 2 ^ 129) < 20000000) by (unfold a; destruct (A mod 10000000 =? 0); lia).
  assert (Hpos : 0 < a) by lia. unfold round. replace (a <? 0) with false by lia.
  assert (Hla : Z.log2 a <= 157) by (assert (Z.log2 a < 158) by (apply Z.log2_lt_pow2; lia); lia).
  destruct (round_mag_near a (-129)) as (q & E & Hq); [lia..|]. rewrite E.
  set (qe := Z.max (-129) (-129 + Z.log2 a - 52)) in *. assert (Hqe : -129 <= qe <= -24) by lia. clearbody qe.
  assert (Hscale : exists b, 1 <= b <= 2 ^ 105 /\ 2 ^ (qe - -129) = b /\ b * 2 ^ (- qe) = 2 ^ 129).
  { exists (2 ^ (qe + 129)). split_and!.
    - apply (Z.pow_le_mono_r 2 0); lia.
    - apply Z.pow_le_mono_r; lia.
    - by replace (qe - -129) with (qe + 129) by lia.
    - rewrite <- Z.pow_add_r by lia. by replace (qe + 129 + - qe) with 129 by lia. }
  destruct Hscale as (b & Hb & Eb & EB). rewrite Eb in Hq. assert (HB : 0 < 2 ^ (- qe)) by (apply Z.pow_pos_nonneg; lia).
  assert (Hq0 : 0 <= q) by nia.
  assert (En : nearest_even (Z.abs q * 10 ^ Z.of_nat 7) (2 ^ (- qe)) = s).
  { rewrite Z.abs_eq by done. change (10 ^ Z.of_nat 7) with 10000000. apply nearest_even_spec; [done|].
    set (B := 2 ^ (- qe)) in *. assert (b * (2 * Z.abs (q * 10000000 - s * B)) < b * B); [|nia].
    rewrite EB. replace (b * (2 * Z.abs (q * 10000000 - s * B))) with (2 * Z.abs (b * (q * 10000000 - s * B))) by (rewrite Z.abs_mul, (Z.abs_eq b); lia).
    replace (b * (q * 10000000 - s * B)) with (10000000 * (q * b) - s * 2 ^ 129) by (rewrite <- EB; ring).
    assert (Z.abs (10000000 * (q * b - a)) <= 10000000 * 2 ^ 104); [rewrite Z.abs_mul; change (Z.abs 10000000) with 10000000; lia|]. lia. }
  unfold format_fixed. replace (0 <=? qe) with false by lia. rewrite En. replace (q <? 0) with false by lia. done.
Qed.

End Float64.
