(* ===== verification/Amount.v ===== *)
(** * Amounts: decimal text to integer stroops

    [crates/ingest/src/amount.rs]. Horizon writes an amount as decimal text with
    at most seven fractional digits; the ingest worker turns it into an [i64]
    number of stroops without floating point. The specification is the exact
    value of the text: [to_stroops_exact] characterises every accepted text and
    its result, [to_stroops_horizon] is the round trip with the text Horizon
    prints. *)

From S2P Require Import Prelude.

Module Amount.

Definition STROOPS_PER_UNIT : Z := 10000000.
Definition DECIMALS : nat := 7.

(** [while frac.len() < n { frac.push('0') }] *)
Fixpoint pad_zeros (k : nat) (s : string) : string :=
  match k with
  | O => s
  | S k' => pad_zeros k' (s +:+ "0")
  end.

Definition to_stroops (amount : string) : option Z :=
  let amount := trim amount in
  if is_empty amount || starts_with "-" amount then None else
  let '(int_part, frac_part) :=
    match split_once "." amount with
    | Some (i, f) => (i, f)
    | None => (amount, "")
    end in
  if negb (all_digits int_part) || negb (all_digits frac_part)
     || Nat.ltb DECIMALS (String.length frac_part)
  then None else
  let* int_val := parse_i64 int_part in
  let frac := pad_zeros (DECIMALS - String.length frac_part) frac_part in
  let* frac_val := parse_i64 frac in
  let* v := checked_mul_i64 int_val STROOPS_PER_UNIT in
  checked_add_i64 v frac_val.

(** ** Specification *)

(** [denotes s i f]: the trimmed text is the integer digits [i], optionally
    followed by a point and the fractional digits [f]. *)
Definition denotes (s i f : string) : Prop :=
  (trim s = i +:+ String "." f \/ (trim s = i /\ f = "")) /\
  i <> "" /\ all_digits i = true /\ all_digits f = true /\ slen f <= 7.

(** The exact value, in stroops, of [i.f]. *)
Definition stroops_value (i f : string) : Z :=
  dec_val i * 10 ^ 7 + dec_val f * 10 ^ (7 - slen f).

(** The text Horizon prints for an amount: seven fractional digits. *)
Definition horizon_text (v : Z) : string :=
  print_dec (v / STROOPS_PER_UNIT) +:+ String "." (print_fixed 7 (v mod STROOPS_PER_UNIT)).

(** ** Lemmas *)

Lemma pad_zeros_val k s : dec_val (pad_zeros k s) = dec_val s * 10 ^ Z.of_nat k.
Proof.
  revert s. induction k as [|k IH]; intros s; cbn [pad_zeros].
  - rewrite Z.pow_0_r. lia.
  - rewrite IH, dec_val_app. change (slen "0") with 1. change (dec_val "0") with 0.
    replace (Z.of_nat (S k)) with (1 + Z.of_nat k) by lia.
    rewrite Z.pow_add_r by lia. lia.
Qed.

Lemma pad_zeros_digits k s : all_digits s = true -> all_digits (pad_zeros k s) = true.
Proof.
  revert s. induction k as [|k IH]; intros s Hs; cbn [pad_zeros]; [done|].
  apply IH. unfold all_digits in *. by rewrite str_forall_app, Hs.
Qed.

Lemma pad_zeros_slen k s : slen (pad_zeros k s) = slen s + Z.of_nat k.
Proof.
  revert s. induction k as [|k IH]; intros s; cbn [pad_zeros]; [lia|].
  rewrite IH, slen_app. change (slen "0") with 1. lia.
Qed.

Lemma digits_no_point s :
  all_digits s = true -> str_forall (fun d => bool_decide ("."%char <> d)) s = true.
Proof.
  apply str_forall_impl. intros c Hc. apply bool_decide_eq_true_2. intros <-.
  by vm_compute in Hc.
Qed.

Lemma digits_no_minus i r : all_digits i = true -> i <> "" -> starts_with "-" (i +:+ r) = false.
Proof.
  destruct i as [|c i]; [done|]. cbn [all_digits str_forall]. intros H _.
  apply andb_true_iff in H as [Hc _]. apply digit_not_sign in Hc as [_ Hm].
  unfold starts_with. cbn. by rewrite bool_decide_eq_false_2.
Qed.

(** What [to_stroops] computes once the two runs of digits are known. *)
Definition combine (i f : string) : option Z :=
  let* int_val := parse_i64 i in
  let* frac_val := parse_i64 (pad_zeros (DECIMALS - String.length f) f) in
  let* v := checked_mul_i64 int_val STROOPS_PER_UNIT in
  checked_add_i64 v frac_val.

Lemma combine_spec i f :
  i <> "" -> all_digits i = true -> all_digits f = true -> slen f <= 7 ->
  combine i f = guard_range i64_MIN i64_MAX (stroops_value i f).
Proof.
  intros Hi Hdi Hdf Hlen. unfold combine.
  pose proof (dec_val_bounds i Hdi) as Bi. pose proof (dec_val_bounds f Hdf) as Bf.
  set (k := (DECIMALS - String.length f)%nat).
  assert (Hk : Z.of_nat k = 7 - slen f) by (unfold k, slen, DECIMALS in *; lia).
  assert (Hpad : parse_i64 (pad_zeros k f) = Some (dec_val f * 10 ^ (7 - slen f))).
  { pose proof (pad_zeros_digits k f Hdf) as Hd.
    pose proof (dec_val_bounds _ Hd) as B. rewrite pad_zeros_slen, Hk in B.
    replace (slen f + (7 - slen f)) with 7 in B by lia.
    assert (Hne : pad_zeros k f <> "").
    { intros E. pose proof (pad_zeros_slen k f) as HL. rewrite E in HL.
      change (slen "") with 0 in HL. lia. }
    unfold parse_i64. rewrite parse_int_digits by done.
    rewrite <- Hk, <- pad_zeros_val. apply guard_range_in.
    unfold i64_MIN, i64_MAX. lia. }
  rewrite Hpad. unfold parse_i64. rewrite parse_int_digits by done.
  unfold stroops_value, checked_mul_i64, checked_add_i64, try_i64, STROOPS_PER_UNIT, guard_range.
  assert (Bf' : 0 <= dec_val f * 10 ^ (7 - slen f)) by (apply Z.mul_nonneg_nonneg; lia).
  destruct (in_range _ _ (dec_val i)) eqn:E1; cbn [option_bind].
  - destruct (in_range _ _ (dec_val i * 10000000)) eqn:E2; cbn [option_bind].
    + change (10 ^ 7) with 10000000. done.
    + destruct (in_range _ _ (_ + _)) eqn:E3; [|done]. exfalso.
      apply in_range_spec in E3. apply not_true_iff_false in E2. apply E2, in_range_spec.
      unfold i64_MIN, i64_MAX in *. lia.
  - destruct (in_range _ _ (_ + _)) eqn:E3; [|done]. exfalso.
    apply in_range_spec in E3. apply not_true_iff_false in E1. apply E1, in_range_spec.
    unfold i64_MIN, i64_MAX in *. lia.
Qed.

Lemma to_stroops_denotes s i f :
  denotes s i f -> to_stroops s = guard_range i64_MIN i64_MAX (stroops_value i f).
Proof.
  intros (Hs & Hi & Hdi & Hdf & Hlen). rewrite <- combine_spec by done.
  assert (Hlt : Nat.ltb DECIMALS (String.length f) = false)
    by (apply Nat.ltb_ge; unfold slen, DECIMALS in *; lia).
  unfold to_stroops, combine.
  destruct Hs as [Hs | [Hs ->]]; rewrite Hs.
  - rewrite digits_no_minus by done.
    assert (is_empty (i +:+ String "." f) = false) as -> by (destruct i; done).
    rewrite (proj2 (split_once_Some "." _ i f)); [|split; [done|by apply digits_no_point]].
    rewrite Hdi, Hdf, Hlt. done.
  - assert (starts_with "-" i = false) as ->.
    { rewrite <- (str_app_empty_r i). by apply digits_no_minus. }
    rewrite (proj2 (is_empty_false i) Hi).
    rewrite (proj2 (split_once_None "." i)) by (by apply digits_no_point).
    rewrite Hdi. done.
Qed.

Lemma to_stroops_inv s v :
  to_stroops s = Some v -> exists i f, denotes s i f /\ combine i f = Some v.
Proof.
  unfold to_stroops. intros H.
  destruct (is_empty (trim s) || starts_with "-" (trim s)); [done|].
  destruct (split_once "." (trim s)) as [[i f]|] eqn:E.
  - destruct (negb (all_digits i)) eqn:Ei; [done|].
    destruct (negb (all_digits f)) eqn:Ef; [done|].
    destruct (Nat.ltb DECIMALS (String.length f)) eqn:El; [done|].
    apply split_once_Some in E as [E _]. bool_to_prop.
    exists i, f. split; [|exact H]. split_and!; [by left| |done|done|].
    + intros ->. done.
    + apply Nat.ltb_ge in El. unfold slen, DECIMALS in *. lia.
  - destruct (negb (all_digits (trim s))) eqn:Ei; [done|]. bool_to_prop.
    exists (trim s), "". split; [|exact H].
    split_and!; [by right| |done|done|by vm_compute].
    intros E'. rewrite E' in H. done.
Qed.

Lemma digit_plain c : is_ascii_digit c = true -> plain_byte (byte_val c) = true.
Proof. unfold is_ascii_digit, plain_byte. rewrite !in_range_spec. lia. Qed.

Lemma horizon_text_denotes v :
  denotes (horizon_text v) (print_dec (v / STROOPS_PER_UNIT))
          (print_fixed 7 (v mod STROOPS_PER_UNIT)).
Proof.
  unfold denotes, horizon_text.
  generalize (v / STROOPS_PER_UNIT) as q, (v mod STROOPS_PER_UNIT) as r. intros q r.
  pose proof (all_digits_print_dec q) as Hq. pose proof (print_dec_nonempty q) as Hne.
  split_and!; [left| done | done | apply all_digits_print_fixed | by rewrite slen_print_fixed].
  destruct (print_dec q) as [|c t] eqn:E; [done|].
  cbn [all_digits str_forall] in Hq. apply andb_true_iff in Hq as [Hc _].
  eapply (trim_plain _ c (digit_char (r mod 10)) _
            (String c t +:+ String "." (print_fixed 6 (r / 10)))).
  - done.
  - rewrite <- str_app_assoc. done.
  - by apply digit_plain.
  - apply digit_plain, digit_char_digit. pose proof (Z.mod_pos_bound r 10). lia.
Qed.

Lemma horizon_text_value v :
  0 <= v ->
  stroops_value (print_dec (v / STROOPS_PER_UNIT)) (print_fixed 7 (v mod STROOPS_PER_UNIT)) = v.
Proof.
  intros Hv.
  assert (Hpos : 0 < STROOPS_PER_UNIT) by done.
  pose proof (Z.mod_pos_bound v STROOPS_PER_UNIT Hpos).
  unfold stroops_value. rewrite dec_val_print_dec by (apply Z.div_pos; lia).
  rewrite dec_val_print_fixed, slen_print_fixed by lia.
  change (10 ^ Z.of_nat 7) with STROOPS_PER_UNIT. change (10 ^ (7 - Z.of_nat 7)) with 1.
  change (10 ^ 7) with STROOPS_PER_UNIT. rewrite Zmod_mod.
  pose proof (Z.div_mod v STROOPS_PER_UNIT). lia.
Qed.

(** ** Properties *)

(** C39: exactness. [to_stroops] accepts a text exactly when, trimmed, it is one
    or more digits, optionally followed by a point and at most seven digits, and
    its exact value in stroops fits an [i64]; the result is then that exact
    value. Nothing is rounded, truncated or wrapped, and every other text
    (signs, exponents, separators, an eighth fractional digit) is refused. Zero
    is accepted, as [Some 0], where the comment on the function announces that a
    result that is not positive is rejected: the callers test for it. *)
Theorem to_stroops_exact (s : string) (v : Z) :
  to_stroops s = Some v <->
  exists i f, denotes s i f /\ v = stroops_value i f /\ v <= i64_MAX.
Proof.
  split.
  - intros H. destruct (to_stroops_inv s v H) as (i & f & Hd & Hc).
    exists i, f. split; [done|]. destruct Hd as (? & ? & ? & ? & ?).
    rewrite combine_spec in Hc by done. apply guard_range_Some in Hc. naive_solver lia.
  - intros (i & f & Hd & -> & Hmax). rewrite (to_stroops_denotes s i f) by done.
    apply guard_range_in. split; [|done]. destruct Hd as (? & ? & Hi & Hf & ?).
    apply dec_val_bounds in Hi, Hf. unfold stroops_value, i64_MIN.
    pose proof (Z.pow_nonneg 10 (7 - slen f)). nia.
Qed.

(** Round trip. The text with seven fractional digits that Horizon prints
    for any representable amount is read back as exactly that amount. *)
Lemma to_stroops_horizon (v : Z) :
  0 <= v <= i64_MAX -> to_stroops (horizon_text v) = Some v.
Proof.
  intros Hv. rewrite (to_stroops_denotes _ _ _ (horizon_text_denotes v)).
  rewrite horizon_text_value by lia. apply guard_range_in. unfold i64_MIN. lia.
Qed.

End Amount.
