(* ===== verification/Toid.v ===== *)
(** * Horizon operation identifiers (TOIDs)

    [crates/ingest/src/lib.rs], [decode_toid] and its callers. A TOID packs a
    ledger sequence, a transaction order and an operation order into 64 bits; the
    decoded operation index is half of the key under which a deposit is
    recorded, so the decoder must be exact and injective. *)

From S2P Require Import Prelude.

Module Toid.

Definition STELLAR_GENESIS_UNIX : Z := 1443571200.
Definition LEDGER_CEILING_FLOOR : Z := 323654400.
Definition MAX_OPS_PER_TX : Z := 100.

Record Toid := mkToid {
  ledger : Z;            (* u32 *)
  tx_order : Z;          (* u32 *)
  operation_index : Z    (* i32 *)
}.

#[export] Instance Toid_eq_dec : EqDecision Toid.
Proof. solve_decision. Defined.

(** [now] is the host clock, in seconds since the Unix epoch ([u64]). *)
Definition plausible_max_ledger (now : Z) : Z :=
  let by_clock := default u32_MAX (try_u32 (Z.max 0 (now - STELLAR_GENESIS_UNIX))) in
  Z.max by_clock LEDGER_CEILING_FLOOR.

Definition decode_toid (toid : string) (max_ledger : Z) : option Toid :=
  if is_empty toid || negb (all_digits toid) then None else
  let* signed := parse_i64 toid in
  let* packed := try_u64 signed in
  let ledger := as_u32 (Z.shiftr packed 32) in
  let tx_order := as_u32 (Z.land (Z.shiftr packed 12) 0xFFFFF) in
  let op_order := Z.land packed 0xFFF in
  if (ledger =? 0) || (max_ledger <? ledger) || (tx_order =? 0) then None else
  if (op_order =? 0) || (MAX_OPS_PER_TX <? op_order) then None else
  Some (mkToid ledger tx_order (op_order - 1)).

Definition operation_index_from_toid (toid : string) (now : Z) : option Z :=
  option_map operation_index (decode_toid toid (plausible_max_ledger now)).

(** ** Specification

    How Horizon builds the identifier of an operation: [toid.New(ledger,
    tx.Index, opIndex + 1)], 32, 20 and 12 bits. *)
Definition pack (t : Toid) : Z :=
  ledger t * 2 ^ 32 + tx_order t * 2 ^ 12 + (operation_index t + 1).

Definition plausible (max_ledger : Z) (t : Toid) : Prop :=
  1 <= ledger t <= max_ledger /\ ledger t < 2 ^ 31 /\
  1 <= tx_order t < 2 ^ 20 /\ 0 <= operation_index t < MAX_OPS_PER_TX.

(** ** Lemmas *)

Lemma fields_of_packed p :
  0 <= p < 2 ^ 63 ->
  as_u32 (Z.shiftr p 32) = p / 2 ^ 32 /\
  as_u32 (Z.land (Z.shiftr p 12) 0xFFFFF) = (p / 2 ^ 12) mod 2 ^ 20 /\
  Z.land p 0xFFF = p mod 2 ^ 12.
Proof.
  intros Hp. change 0xFFFFF with (Z.ones 20). change 0xFFF with (Z.ones 12).
  rewrite !Z.land_ones, !Z.shiftr_div_pow2 by lia. unfold as_u32.
  split_and!; [| |done].
  - apply Z.mod_small. split; [apply Z.div_pos; lia|].
    apply Z.div_lt_upper_bound; lia.
  - apply Z.mod_small. pose proof (Z.mod_pos_bound (p / 2 ^ 12) (2 ^ 20)). lia.
Qed.

Lemma packed_recompose p :
  0 <= p -> p = p / 2 ^ 32 * 2 ^ 32 + (p / 2 ^ 12) mod 2 ^ 20 * 2 ^ 12 + p mod 2 ^ 12.
Proof.
  intros Hp. pose proof (Z.div_mod p (2 ^ 12) ltac:(lia)) as H1.
  pose proof (Z.div_mod (p / 2 ^ 12) (2 ^ 20) ltac:(lia)) as H2.
  rewrite Z.div_div in H2 by lia. change (2 ^ 12 * 2 ^ 20) with (2 ^ 32) in H2. lia.
Qed.

Lemma pack_bounds m t : plausible m t -> 0 <= pack t < 2 ^ 63.
Proof. unfold plausible, pack, MAX_OPS_PER_TX. lia. Qed.

Lemma pack_fields m t :
  plausible m t ->
  pack t / 2 ^ 32 = ledger t /\ (pack t / 2 ^ 12) mod 2 ^ 20 = tx_order t /\
  pack t mod 2 ^ 12 = operation_index t + 1.
Proof.
  intros (Hl & Hl' & Ht & Ho). unfold MAX_OPS_PER_TX in Ho. unfold pack.
  assert (H12 : (ledger t * 2 ^ 32 + tx_order t * 2 ^ 12 + (operation_index t + 1)) / 2 ^ 12
                = ledger t * 2 ^ 20 + tx_order t).
  { symmetry. apply (Z.div_unique _ _ _ (operation_index t + 1)); lia. }
  split_and!.
  - symmetry. apply (Z.div_unique _ _ _ (tx_order t * 2 ^ 12 + (operation_index t + 1))); lia.
  - rewrite H12. symmetry. apply (Z.mod_unique _ _ (ledger t)); lia.
  - symmetry. apply (Z.mod_unique _ _ (ledger t * 2 ^ 20 + tx_order t)); lia.
Qed.

Lemma decode_toid_digits s m :
  s <> "" -> all_digits s = true -> dec_val s < 2 ^ 63 ->
  decode_toid s m =
    let p := dec_val s in
    let l := p / 2 ^ 32 in let t := (p / 2 ^ 12) mod 2 ^ 20 in let o := p mod 2 ^ 12 in
    if (l =? 0) || (m <? l) || (t =? 0) || ((o =? 0) || (MAX_OPS_PER_TX <? o)) then None
    else Some (mkToid l t (o - 1)).
Proof.
  intros Hne Hd Hlt. pose proof (dec_val_bounds s Hd) as B.
  unfold decode_toid. rewrite (proj2 (is_empty_false s) Hne), Hd. cbn [orb negb].
  unfold parse_i64, try_u64. rewrite parse_int_digits by done.
  rewrite guard_range_in by (unfold i64_MIN, i64_MAX; lia). cbn [option_bind].
  rewrite guard_range_in by (unfold u64_MAX; lia). cbn [option_bind].
  destruct (fields_of_packed (dec_val s)) as (-> & -> & ->); [lia|].
  destruct ((_ =? 0) || (m <? _) || (_ =? 0)); done.
Qed.

Lemma decode_toid_inv s m t :
  decode_toid s m = Some t ->
  s <> "" /\ all_digits s = true /\ dec_val s = pack t /\ plausible m t.
Proof.
  intros H. pose proof H as H0. unfold decode_toid in H0.
  destruct (is_empty s) eqn:E1; [done|]. destruct (all_digits s) eqn:E2; [|done].
  cbn [orb negb] in H0. apply is_empty_false in E1.
  unfold parse_i64 in H0. rewrite parse_int_digits in H0 by done.
  pose proof (dec_val_bounds s E2) as B.
  destruct (guard_range i64_MIN i64_MAX (dec_val s)) as [v|] eqn:E3; [|done].
  apply guard_range_Some in E3 as [_ E3]. unfold i64_MAX in E3.
  clear H0. rewrite decode_toid_digits in H by (try done; lia). cbn zeta in H.
  destruct (_ || _) eqn:E4 in H; [done|]. bool_to_prop. injection H as <-.
  pose proof (packed_recompose (dec_val s) ltac:(lia)) as HR.
  pose proof (Z.mod_pos_bound (dec_val s / 2 ^ 12) (2 ^ 20) ltac:(lia)).
  pose proof (Z.mod_pos_bound (dec_val s) (2 ^ 12) ltac:(lia)).
  assert (0 <= dec_val s / 2 ^ 32 < 2 ^ 31).
  { split; [apply Z.div_pos; lia|].
    apply Z.div_lt_upper_bound; [lia|]. change (2 ^ 32 * 2 ^ 31) with (2 ^ 63). lia. }
  unfold plausible, pack, MAX_OPS_PER_TX in *. cbn [ledger tx_order operation_index].
  split_and!; try done; lia.
Qed.


Lemma decode_toid_complete s m t :
  s <> "" -> all_digits s = true -> dec_val s = pack t -> plausible m t ->
  decode_toid s m = Some t.
Proof.
  intros Hne Hd Hv Hp. pose proof (pack_bounds _ _ Hp) as B.
  rewrite decode_toid_digits by (try done; lia). rewrite Hv. cbn zeta.
  destruct (pack_fields _ _ Hp) as (-> & -> & ->).
  destruct Hp as (? & ? & ? & Ho). unfold MAX_OPS_PER_TX in *.
  replace (ledger t =? 0) with false by lia.
  replace (m <? ledger t) with false by lia.
  replace (tx_order t =? 0) with false by lia.
  replace (operation_index t + 1 =? 0) with false by lia.
  replace (100 <? operation_index t + 1) with false by lia.
  cbn [orb]. rewrite Z.add_simpl_r. by destruct t.
Qed.

(** ** Properties *)

(** Soundness and completeness of the decoder. A text decodes to [t] exactly
    when it is a non-empty run of digits whose value is the packing of [t] and
    every field of [t] is plausible: the ledger is positive and at most the
    ceiling, the transaction order is at least one, and the operation index is
    one of the hundred a transaction can have. *)
Lemma decode_toid_correct (s : string) (max_ledger : Z) (t : Toid) :
  decode_toid s max_ledger = Some t <->
  s <> "" /\ all_digits s = true /\ dec_val s = pack t /\ plausible max_ledger t.
Proof.
  split; [apply decode_toid_inv|]. intros (? & ? & ? & ?). by apply decode_toid_complete.
Qed.

(** No false sharing of the deduplication key. Two identifiers that decode
    to the same triple have the same numeric value, whatever ledger ceilings
    they were decoded under: two different on-chain operations never share a
    (ledger, transaction, operation) key. *)
Lemma decode_toid_injective (s1 s2 : string) (m1 m2 : Z) (t : Toid) :
  decode_toid s1 m1 = Some t -> decode_toid s2 m2 = Some t -> dec_val s1 = dec_val s2.
Proof.
  intros H1 H2. apply decode_toid_inv in H1 as (_ & _ & -> & _).
  by apply decode_toid_inv in H2 as (_ & _ & -> & _).
Qed.

(** The clock cannot reject real operations. Whatever the host clock says,
    an operation Horizon could have issued in a ledger up to the fixed ceiling
    is decoded from its decimal text, with its index intact. *)
Lemma operation_index_any_clock (t : Toid) (now : Z) :
  plausible LEDGER_CEILING_FLOOR t ->
  operation_index_from_toid (print_dec (pack t)) now = Some (operation_index t).
Proof.
  intros Hp. pose proof (pack_bounds _ _ Hp) as B.
  unfold operation_index_from_toid.
  rewrite (decode_toid_complete _ _ t); [done|..].
  - apply print_dec_nonempty.
  - apply all_digits_print_dec.
  - apply dec_val_print_dec. lia.
  - destruct Hp as (Hl & ?). split; [|done]. unfold plausible_max_ledger. lia.
Qed.

End Toid.
