(* ===== verification/Resilience.v ===== *)
(** * Retry policy and circuit breaker

    [crates/resilience/src/lib.rs]: the policy that spaces the retries of
    read-only Horizon calls, the circuit breaker every Horizon call shares, and
    [execute], which runs a call under both.

    An [Instant] is a number of nanoseconds. The breaker's mutex makes each of
    its three operations atomic, so a run of the breaker is a sequence of
    [event]s by any callers. [execute] suspends at each [await]; what the other
    tasks do to the shared breaker meanwhile is an arbitrary list of events. *)

From S2P Require Import Prelude Float64.

Module Resilience.
Import Float64.

(** ** Retry policy *)

Record RetryPolicy := mkRetryPolicy {
  max_attempts : Z;        (* u32 *)
  base_delay_ms : Z;       (* u64 *)
  max_delay_ms : Z;        (* u64 *)
  multiplier : f64;
  jitter_factor : f64
}.

Definition RetryPolicy_default : RetryPolicy :=
  mkRetryPolicy 3 200 5000 two point_two.

Section DelayFor.
(** [f64::powi]: its precision is unspecified, so nothing is assumed of it. *)
Variable powi : f64 -> Z -> f64.

(** The delay in milliseconds; [None] is a panic of [clamp]. *)
Definition delay_for (p : RetryPolicy) (attempt : Z) : option Z :=
  let base := of_Z (base_delay_ms p) in
  let max := of_Z (max_delay_ms p) in
  let exponent := default i32_MAX (guard_range (- 2 ^ 31) i32_MAX attempt) in
  let exp := if eqf base zero then zero
             else mul base (powi (multiplier p) exponent) in
  let* capped := if is_nan exp then Some max else clamp zero max exp in
  let jitter_range := mul capped (jitter_factor p) in
  let jitter := if attempt mod 2 =? 0 then mul jitter_range half
                else mul jitter_range minus_half in
  let* ms := clamp zero max (add capped jitter) in
  Some (to_u64 ms).
End DelayFor.

(** ** Circuit breaker *)

Inductive CbState :=
| Closed
| Open (opened_at : Z)
| HalfOpen (probe_started : Z).

Record CbInner := mkCbInner {
  state : CbState;
  consecutive_failures : Z    (* u32 *)
}.

Record CircuitBreaker := mkCircuitBreaker {
  inner : CbInner;
  failure_threshold : Z;      (* u32 *)
  reset_timeout : Z           (* Duration *)
}.

Inductive CircuitError := CircuitOpen.

Definition CircuitBreaker_new (failure_threshold reset_timeout : Z) : CircuitBreaker :=
  mkCircuitBreaker (mkCbInner Closed 0) failure_threshold reset_timeout.

Definition set_inner (b : CircuitBreaker) (i : CbInner) : CircuitBreaker :=
  mkCircuitBreaker i (failure_threshold b) (reset_timeout b).

(** [check] reads the clock twice: [t1] in [since.elapsed()], which saturates at
    zero, and [t2] when it claims the probe. *)
Definition check (b : CircuitBreaker) (t1 t2 : Z) : result unit CircuitError * CircuitBreaker :=
  let try_since since :=
    if reset_timeout b <=? Z.max 0 (t1 - since)
    then (Ok tt, set_inner b (mkCbInner (HalfOpen t2) (consecutive_failures (inner b))))
    else (Err CircuitOpen, b) in
  match state (inner b) with
  | Closed => (Ok tt, b)
  | Open opened_at => try_since opened_at
  | HalfOpen probe_started => try_since probe_started
  end.

Definition on_success (b : CircuitBreaker) : CircuitBreaker :=
  set_inner b (mkCbInner Closed 0).

(** The counter wraps at 2^32, as in a release build. *)
Definition on_failure (b : CircuitBreaker) (now : Z) : CircuitBreaker :=
  let failures := as_u32 (consecutive_failures (inner b) + 1) in
  if failure_threshold b <=? failures
  then set_inner b (mkCbInner (Open now) failures)
  else set_inner b (mkCbInner (state (inner b)) failures).

(** *** Runs of the breaker *)

Inductive event :=
| Check (t1 t2 : Z)
| Success
| Failure (now : Z).

Definition apply_event (b : CircuitBreaker) (e : event) : CircuitBreaker :=
  match e with
  | Check t1 t2 => snd (check b t1 t2)
  | Success => on_success b
  | Failure now => on_failure b now
  end.

Definition run (b : CircuitBreaker) (es : list event) : CircuitBreaker :=
  fold_left apply_event es b.

(** ** The executor *)

Inductive CallKind := ReadOnly | Submit.
#[export] Instance CallKind_eq_dec : EqDecision CallKind.
Proof. solve_decision. Defined.

(** Which errors are transient: the trait of the error types passed to
    [execute]. *)
Class Retriable (E : Type) := is_retriable : E -> bool.

#[export] Instance Retriable_str : Retriable string := fun _ => true.
#[export] Instance Retriable_unit : Retriable unit := fun _ => true.

Inductive ResilienceError (E : Type) :=
| Circuit
| Exhausted (e : E).
Arguments Circuit {E}.
Arguments Exhausted {E} e.

(** What happens around the [n]-th call of the closure: the events of other
    tasks while it is awaited, its response, the clock readings of [on_failure]
    and of the re-check, and the events of other tasks during the sleep. *)
Record Round (T E : Type) := mkRound {
  during_call : list event;
  response : result T E;
  t_fail : Z;
  t_check : Z;
  t_probe : Z;
  during_sleep : list event
}.
Arguments mkRound {T E}.
Arguments during_call {T E}.
Arguments response {T E}.
Arguments t_fail {T E}.
Arguments t_check {T E}.
Arguments t_probe {T E}.
Arguments during_sleep {T E}.

(** The outcome of [execute]: what it returns ([None] for a panic, of [clamp] or
    of the final [unwrap]), how often it called the closure, the delays it slept
    and the breaker it leaves. *)
Record Executed (T E : Type) := mkExecuted {
  returned : option (result T (ResilienceError E));
  calls : nat;
  slept : list Z;
  breaker : CircuitBreaker
}.
Arguments mkExecuted {T E}.
Arguments returned {T E}.
Arguments calls {T E}.
Arguments slept {T E}.
Arguments breaker {T E}.

Section Execute.
Context {T E : Type} `{Retriable E}.
Variable powi : f64 -> Z -> f64.
Variable policy : RetryPolicy.
Variable env : nat -> Round T E.

(** The [for attempt in 0..max_attempts] loop with [left] iterations to go. *)
Fixpoint attempts (left attempt : nat) (last_err : option E) (slept : list Z)
    (b : CircuitBreaker) : Executed T E :=
  match left with
  | O => mkExecuted (option_map (fun e => Err (Exhausted e)) last_err) attempt slept b
  | S left' =>
      let r := env attempt in
      let b := run b (during_call r) in
      match response r with
      | Ok val => mkExecuted (Some (Ok val)) (S attempt) slept (on_success b)
      | Err e =>
          if negb (is_retriable e)
          then mkExecuted (Some (Err (Exhausted e))) (S attempt) slept b
          else
            let b := on_failure b (t_fail r) in
            match check b (t_check r) (t_probe r) with
            | (Err _, b) => mkExecuted (Some (Err Circuit)) (S attempt) slept b
            | (Ok _, b) =>
                match left' with
                | O => attempts left' (S attempt) (Some e) slept b
                | S _ =>
                    match delay_for powi policy (Z.of_nat attempt) with
                    | None => mkExecuted None (S attempt) slept b
                    | Some d =>
                        attempts left' (S attempt) (Some e) (slept ++ [d])
                                 (run b (during_sleep r))
                    end
                end
            end
      end
  end.

Definition attempt_limit (kind : CallKind) : nat :=
  if decide (kind = Submit) then 1%nat else Z.to_nat (Z.max (max_attempts policy) 1).

Definition execute (kind : CallKind) (b : CircuitBreaker) (t1 t2 : Z) : Executed T E :=
  match check b t1 t2 with
  | (Err _, b) => mkExecuted (Some (Err Circuit)) 0 [] b
  | (Ok _, b) => attempts (attempt_limit kind) 0 None [] b
  end.
End Execute.

(** ** Configuration *)

Record ResilienceConfig := mkResilienceConfig {
  cfg_max_attempts : Z;
  cfg_base_delay_ms : Z;
  cfg_max_delay_ms : Z;
  cb_failure_threshold : Z;
  cb_reset_timeout_secs : Z
}.

Definition ResilienceConfig_default : ResilienceConfig := mkResilienceConfig 3 200 5000 5 30.

(** [env] is the process environment. *)
Definition env_parse (parse : string -> option Z) (env : string -> option string)
    (key : string) (dflt : Z) : Z :=
  default dflt (let* v := env key in parse v).

Definition from_env (env : string -> option string) : ResilienceConfig :=
  mkResilienceConfig
    (env_parse parse_u32 env "HORIZON_MAX_ATTEMPTS" 3)
    (env_parse parse_u64 env "HORIZON_BASE_DELAY_MS" 200)
    (env_parse parse_u64 env "HORIZON_MAX_DELAY_MS" 5000)
    (env_parse parse_u32 env "HORIZON_CB_FAILURE_THRESHOLD" 5)
    (env_parse parse_u64 env "HORIZON_CB_RESET_TIMEOUT_SECS" 30).

Definition retry_policy (c : ResilienceConfig) : RetryPolicy :=
  mkRetryPolicy (cfg_max_attempts c) (cfg_base_delay_ms c) (cfg_max_delay_ms c)
    (multiplier RetryPolicy_default) (jitter_factor RetryPolicy_default).

Definition circuit_breaker (c : ResilienceConfig) : CircuitBreaker :=
  CircuitBreaker_new (cb_failure_threshold c) (cb_reset_timeout_secs c * 1000000000).

(** ** Lemmas on the breaker *)

(** Specification of the counter: the failures reported since the last
    success. *)
Definition failures_since_success (es : list event) : Z :=
  fold_left (fun n e => match e with Success => 0 | Failure _ => n + 1 | Check _ _ => n end) es 0.

Definition is_closed (b : CircuitBreaker) : bool :=
  match state (inner b) with Closed => true | _ => false end.

Definition event_time (e : event) : Z :=
  match e with Check _ t2 => t2 | Success => 0 | Failure now => now end.

Lemma run_app b es fs : run b (es ++ fs) = run (run b es) fs.
Proof. apply fold_left_app. Qed.

Lemma failures_since_success_bounds es : 0 <= failures_since_success es <= Z.of_nat (length es).
Proof.
  induction es as [|e es IH] using rev_ind; [cbn; lia|].
  unfold failures_since_success in *. rewrite fold_left_app, length_app. cbn.
  destruct e; lia.
Qed.

Lemma check_inner b t1 t2 :
  consecutive_failures (inner (snd (check b t1 t2))) = consecutive_failures (inner b) /\
  is_closed (snd (check b t1 t2)) = is_closed b.
Proof.
  unfold check, is_closed. destruct (state (inner b)) eqn:E; cbn; try case_match; cbn;
    rewrite ?E; done.
Qed.

Lemma apply_event_config b e :
  failure_threshold (apply_event b e) = failure_threshold b /\
  reset_timeout (apply_event b e) = reset_timeout b.
Proof. unfold apply_event, check, on_failure. destruct e; repeat case_match; done. Qed.

Lemma run_config b es :
  failure_threshold (run b es) = failure_threshold b /\ reset_timeout (run b es) = reset_timeout b.
Proof.
  induction es as [|e es IH] using rev_ind; [done|]. rewrite run_app. cbn.
  destruct (apply_event_config (run b es) e) as [-> ->]. done.
Qed.

Lemma failures_since_success_snoc es e :
  failures_since_success (es ++ [e]) =
  match e with
  | Success => 0
  | Failure _ => failures_since_success es + 1
  | Check _ _ => failures_since_success es
  end.
Proof. unfold failures_since_success. rewrite fold_left_app. by destruct e. Qed.

Lemma run_new_state n reset es :
  1 <= n -> Z.of_nat (length es) < 2 ^ 32 ->
  let b := run (CircuitBreaker_new n reset) es in
  consecutive_failures (inner b) = failures_since_success es /\
  is_closed b = (failures_since_success es <? n).
Proof.
  intros Hn. induction es as [|e es IH] using rev_ind; cbn zeta.
  { intros _. cbn. split; [done|]. lia. }
  rewrite length_app. cbn [length]. intros Hl. destruct IH as [IH1 IH2]; [lia|].
  pose proof (failures_since_success_bounds es) as HB.
  rewrite run_app, failures_since_success_snoc. cbn [run fold_left].
  fold (run (CircuitBreaker_new n reset) es) in *.
  set (b := run _ es) in *. destruct e as [t1 t2| |now]; cbn [apply_event].
  - destruct (check_inner b t1 t2) as [-> ->]. done.
  - split; [done|]. cbn. lia.
  - assert (Hthr : failure_threshold b = n) by apply run_config.
    assert (Hw : as_u32 (consecutive_failures (inner b) + 1) = failures_since_success es + 1).
    { unfold as_u32. rewrite IH1. apply Z.mod_small. lia. }
    unfold on_failure. rewrite Hw, Hthr. unfold is_closed in *.
    destruct (Z.leb_spec n (failures_since_success es + 1)); cbn; split; try done; try lia.
    rewrite IH2. lia.
Qed.

(** The [since] of a breaker that is not closed is never later than the last
    clock reading. *)
Definition since_le (t : Z) (b : CircuitBreaker) : Prop :=
  match state (inner b) with Closed => True | Open s | HalfOpen s => s <= t end.

Lemma since_le_run t b es :
  since_le t b -> Forall (fun e => event_time e <= t) es -> since_le t (run b es).
Proof.
  intros Hb Hes. induction es as [|e es IH] using rev_ind; [done|].
  apply Forall_app in Hes as [Hes He]. apply Forall_cons in He as [He _]. specialize (IH Hes).
  rewrite run_app. cbn. unfold since_le in *.
  destruct (state (inner (run b es))) eqn:Es, e; cbn in *; unfold check, on_failure;
    rewrite ?Es; cbn; try destruct (_ <=? _); cbn; rewrite ?Es; done.
Qed.

(** The grants of a sequence of checks. *)
Fixpoint grants (b : CircuitBreaker) (ts : list (Z * Z)) : list bool :=
  match ts with
  | [] => []
  | (t1, t2) :: r => is_ok (fst (check b t1 t2)) :: grants (snd (check b t1 t2)) r
  end.

Lemma grants_half_open b s ts :
  state (inner b) = HalfOpen s -> 0 < reset_timeout b ->
  Forall (fun t => fst t < s + reset_timeout b) ts -> Forall (eq false) (grants b ts).
Proof.
  intros Hs Hr. induction ts as [|[t1 t2] ts IH]; intros Hts; [constructor|].
  apply Forall_cons in Hts as [Ht Hts]. cbn in *. unfold check. rewrite Hs.
  replace (reset_timeout b <=? Z.max 0 (t1 - s)) with false by lia. cbn. auto.
Qed.

(** ** Lemmas on the executor *)

Lemma delay_for_Some powi p n :
  0 <= max_delay_ms p ->
  exists d, delay_for powi p n = Some d /\ (max_delay_ms p <= 2 ^ 53 -> 0 <= d <= max_delay_ms p).
Proof.
  intros Hm. unfold delay_for.
  set (exp := if eqf _ _ then zero else mul _ _).
  assert (exists c, (if is_nan exp then Some (of_Z (max_delay_ms p))
                     else clamp zero (of_Z (max_delay_ms p)) exp) = Some c) as [c ->].
  { destruct (is_nan exp); [eauto|].
    destruct (clamp_of_Z (max_delay_ms p) exp Hm) as (y & -> & _). eauto. }
  cbn. set (x := add c _).
  destruct (clamp_of_Z (max_delay_ms p) x Hm) as (y & Hy & _). rewrite Hy. cbn.
  eexists. split; [done|]. intros Hle. eapply clamp_of_Z_to_u64; [|exact Hy]. lia.
Qed.

Section ExecuteLemmas.
Context {T E : Type} `{Retriable E}.
Variable powi : f64 -> Z -> f64.
Variable policy : RetryPolicy.
Hypothesis policy_ok : 0 <= max_delay_ms policy.
Variable env : nat -> Round T E.

(** What a result says of the responses: a success or an exhausted error is
    the response of the last call; the calls before it were answered by
    transient errors. *)
Definition explained (x : Executed T E) : Prop :=
  (forall k, (S k < calls x)%nat ->
     exists e, response (env k) = Err e /\ is_retriable e = true) /\
  match returned x with
  | Some (Ok v) => exists k, calls x = S k /\ response (env k) = Ok v
  | Some (Err (Exhausted e)) => exists k, calls x = S k /\ response (env k) = Err e
  | Some (Err Circuit) =>
      forall k, calls x = S k -> exists e, response (env k) = Err e /\ is_retriable e = true
  | None => False
  end.

Lemma attempts_explained left n last slept b :
  (0 < left + n)%nat ->
  (forall k, (k < n)%nat -> exists e, response (env k) = Err e /\ is_retriable e = true) ->
  (forall k, n = S k -> exists e, last = Some e /\ response (env k) = Err e) ->
  let x := attempts powi policy env left n last slept b in
  explained x /\ (n <= calls x <= n + left)%nat /\ ((0 < left)%nat -> (n < calls x)%nat).
Proof using policy_ok.
  revert n last slept b. induction left as [|left IH]; intros n last slept b Hpos Hprev Hlast;
    cbn [attempts]; cbn zeta.
  { destruct n as [|n]; [lia|]. destruct (Hlast n eq_refl) as (e & -> & He).
    unfold explained. cbn. split_and!; try lia.
    - intros k Hk. apply Hprev. lia.
    - eauto. }
  destruct (response (env n)) as [v|e] eqn:Er.
  { unfold explained. cbn. split_and!; try lia.
    - intros k Hk. apply Hprev. lia.
    - eauto. }
  destruct (is_retriable e) eqn:Eret; cbn [negb].
  2:{ unfold explained. cbn. split_and!; try lia.
      - intros k Hk. apply Hprev. lia.
      - eauto. }
  assert (Hprev' : forall k, (k < S n)%nat ->
            exists e, response (env k) = Err e /\ is_retriable e = true).
  { intros k Hk. destruct (decide (k = n)) as [->|]; [by exists e|]. apply Hprev. lia. }
  destruct (check _ _ _) as [[] b'].
  2:{ unfold explained. cbn. split_and!; try lia.
      - intros k Hk. apply Hprev. lia.
      - intros k [= <-]. apply Hprev'. lia. }
  assert (Hlast' : forall k, S n = S k -> exists e', Some e = Some e' /\ response (env k) = Err e').
  { intros k [= <-]. eauto. }
  destruct left as [|left].
  - destruct (IH (S n) (Some e) slept b') as (? & ? & ?); try done; try lia.
    cbn [attempts] in *. split_and!; [done|lia..].
  - destruct (delay_for_Some powi policy (Z.of_nat n) policy_ok) as (d & -> & _).
    destruct (IH (S n) (Some e) (slept ++ [d]) (run b' (during_sleep (env n)))) as (? & ? & ?);
      try done; try lia.
    split_and!; [done|lia..].
Qed.

Lemma attempt_limit_pos kind : (0 < attempt_limit policy kind)%nat.
Proof. unfold attempt_limit. case_decide; lia. Qed.
End ExecuteLemmas.

(** ** Properties *)

(** Whatever the attempt number, the multiplier, the jitter factor (NaN and
    infinities included) and the results of [powi], the delay computation does
    not panic and its result is at most [max_delay_ms], for every bound up to
    2^53 milliseconds (above, the bound itself is not a binary64 value). *)
Lemma delay_for_bounded powi (p : RetryPolicy) (attempt : Z) :
  0 <= max_delay_ms p <= 2 ^ 53 ->
  exists d, delay_for powi p attempt = Some d /\ 0 <= d <= max_delay_ms p.
Proof.
  intros [H1 H2]. destruct (delay_for_Some powi p attempt H1) as (d & -> & Hd). eauto.
Qed.

(** The breaker's state machine, for every history of fewer than 2^32
    events by any number of callers: the counter is the number of failures since
    the last success, and the circuit is closed exactly while that number is
    below the threshold. In particular a failed probe always re-opens it, and
    no check closes it. *)
Lemma breaker_state (threshold reset : Z) (es : list event) :
  1 <= threshold -> Z.of_nat (length es) < 2 ^ 32 ->
  let b := run (CircuitBreaker_new threshold reset) es in
  consecutive_failures (inner b) = failures_since_success es /\
  (state (inner b) = Closed <-> failures_since_success es < threshold).
Proof.
  intros Hn Hl. destruct (run_new_state threshold reset es Hn Hl) as [H1 H2].
  split; [done|]. unfold is_closed in H2. rewrite <- Z.ltb_lt, <- H2.
  destruct (state _); split; done.
Qed.

(** Single probe. Once a check of a breaker that is not closed has been
    granted (the probe is claimed at [t2]), every other check by any caller that
    reads the clock before [t2 + reset_timeout] is refused, as long as the probe
    has not reported. *)
Lemma single_probe (b : CircuitBreaker) (t1 t2 : Z) (others : list (Z * Z)) :
  0 < reset_timeout b -> state (inner b) <> Closed -> fst (check b t1 t2) = Ok tt ->
  Forall (fun t => fst t < t2 + reset_timeout b) others ->
  Forall (eq false) (grants (snd (check b t1 t2)) others).
Proof.
  intros Hr Hne Hok Ho.
  assert (state (inner (snd (check b t1 t2))) = HalfOpen t2 /\
          reset_timeout (snd (check b t1 t2)) = reset_timeout b) as [Hs Hrt].
  { unfold check in *. repeat case_match; simplify_eq/=; done. }
  apply (grants_half_open _ t2); [done|lia|]. by rewrite Hrt.
Qed.

(** The breaker cannot be wedged. After any history whose clock readings
    are at most [t], lost probes included, a check made [reset_timeout] later
    is granted. *)
Lemma breaker_recovers (threshold reset t t1 t2 : Z) (es : list event) :
  Forall (fun e => event_time e <= t) es -> t + reset <= t1 ->
  fst (check (run (CircuitBreaker_new threshold reset) es) t1 t2) = Ok tt.
Proof.
  intros Hes Ht. pose proof (since_le_run t (CircuitBreaker_new threshold reset) es I Hes) as Hs.
  destruct (run_config (CircuitBreaker_new threshold reset) es) as [_ Hr]. cbn in Hr.
  unfold check, since_le in *. rewrite Hr. case_match; [done|..];
    replace (reset <=? _) with true by lia; done.
Qed.

Lemma execute_spec {T E : Type} `{Retriable E} powi (policy : RetryPolicy)
    (env : nat -> Round T E) (kind : CallKind) (b : CircuitBreaker) (t1 t2 : Z) :
  0 <= max_delay_ms policy ->
  let x := execute powi policy env kind b t1 t2 in
  explained env x /\
  (calls x <= match kind with
              | Submit => 1
              | ReadOnly => Z.to_nat (Z.max (max_attempts policy) 1)
              end)%nat /\
  (calls x = O <-> fst (check b t1 t2) = Err CircuitOpen).
Proof.
  intros Hp. unfold execute. destruct (check b t1 t2) as [[[]|[]] b'].
  - destruct (attempts_explained powi policy Hp env (attempt_limit policy kind) 0 None [] b')
      as (He & Hc & Hpos); try (intros; lia).
    + pose proof (attempt_limit_pos policy kind). lia.
    + pose proof (attempt_limit_pos policy kind). cbn [fst].
      split_and!; [done| |split; [lia|done]].
      etrans; [apply Hc|]. unfold attempt_limit. destruct kind; case_decide; (done || lia).
  - unfold explained. cbn. split_and!; try done; intros; lia.
Qed.

(** [execute] never panics and calls the closure at most once for a
    submission and at most [max(max_attempts, 1)] times for a read, whatever the
    other users of the breaker do while it is suspended. It calls it zero times
    exactly when the first check is refused. A success or an exhausted error it
    returns is the response of its last call, and every earlier call was
    answered by a transient error. *)
Lemma execute_contract {T E : Type} `{Retriable E} powi (policy : RetryPolicy)
    (env : nat -> Round T E) (kind : CallKind) (b : CircuitBreaker) (t1 t2 : Z) :
  0 <= max_delay_ms policy ->
  let x := execute powi policy env kind b t1 t2 in
  explained env x /\
  (calls x <= match kind with
              | Submit => 1
              | ReadOnly => Z.to_nat (Z.max (max_attempts policy) 1)
              end)%nat /\
  (calls x = O <-> fst (check b t1 t2) = Err CircuitOpen).
Proof. apply execute_spec. Qed.

(** [Circuit] does not mean that no call was made: a submission whose failure
    opens the breaker is reported as [Circuit] after one call. *)
Example circuit_after_call :
  let x := execute (T := unit) (E := unit) (fun _ _ => zero) RetryPolicy_default
             (fun _ => mkRound [] (Err tt) 1 2 3 []) Submit (CircuitBreaker_new 1 30) 0 0 in
  returned x = Some (Err Circuit) /\ calls x = 1%nat.
Proof. vm_compute. done. Qed.

End Resilience.
