(* ===== verification/Db.v ===== *)
(** * Programs over a database

    The handlers of the program are sequences of SQL statements on a shared
    PostgreSQL database, interleaved with calls to other services. A computation
    is a function on a [World]: the database, a schedule of what happens around
    each statement, and the state of the other services.

    Each statement (or explicit transaction) is atomic. Between two statements of
    a computation other connections may change the database: [t_others]. A
    statement may fail before or after it took effect, and the process may die
    around it: [t_fault]. [t_now] is what [now()] returns in it.

    The second half is a small rely/guarantee logic for these computations. *)

From S2P Require Import Prelude.

(** JSON values, for the metadata columns and the webhook payloads. *)
#[warnings="-register-all"]
Inductive json : Type :=
| JNull
| JBool (b : bool)
| JNum (z : Z)
| JStr (s : string)
| JId (id : Z)
| JObj (fields : list (string * json)).

Definition json_opt {A} (f : A -> json) (o : option A) : json :=
  match o with Some a => f a | None => JNull end.

Module Db.

(** [StoreError]; the payloads of [Database] and [Migration] are dropped. *)
Inductive StoreError : Type :=
| Database
| Migration
| Conflict
| NotFound
| BudgetExceeded
| InvalidOtp
| InvalidMemoId
| WalletArchived
| DuplicateCustomerRef
| AuditChainCorrupt.

#[export] Instance StoreError_eq_dec : EqDecision StoreError.
Proof. solve_decision. Defined.

(** What a statement reports: a result, a unique violation with the name of the
    violated constraint (SQLSTATE 23505), or any other database error. *)
Inductive sqlx_error : Type :=
| UniqueViolation (constraint : string)
| OtherDbError.

Definition from_sqlx_conflict (err : sqlx_error) : StoreError :=
  match err with
  | UniqueViolation c =>
      if bool_decide (c = "idx_addresses_wallet_customer_ref") then DuplicateCustomerRef
      else Conflict
  | OtherDbError => Database
  end.

(** The conversion of the [?] operator. *)
Definition from_sqlx (err : sqlx_error) : StoreError := Database.

Inductive fault := NoFault | FailBefore | FailAfter | CrashBefore | CrashAfter.

(** ** Computations *)

Record tick (S : Type) := mkTick {
  t_fault : fault;
  t_now : Z;
  t_others : S -> S
}.
Arguments mkTick {S}.
Arguments t_fault {S}.
Arguments t_now {S}.
Arguments t_others {S}.

Record World (S X : Type) := mkWorld {
  db : S;
  ticks : list (tick S);
  ext : X
}.
Arguments mkWorld {S X}.
Arguments db {S X}.
Arguments ticks {S X}.
Arguments ext {S X}.

Inductive outcome (A : Type) := Ret (a : A) | Crashed.
Arguments Ret {A} a.
Arguments Crashed {A}.

Section Monad.
Context {S X : Type}.

Definition M (A : Type) : Type := World S X -> outcome A * World S X.

Definition ret {A} (a : A) : M A := fun w => (Ret a, w).

Definition bind {A B} (m : M A) (k : A -> M B) : M B := fun w =>
  match m w with
  | (Ret a, w') => k a w'
  | (Crashed, w') => (Crashed, w')
  end.

(** [m.await?]: continue with the value, return the error. *)
Definition try_bind {A B E F} (m : M (result A E)) (f : E -> F) (k : A -> M (result B F)) :
    M (result B F) :=
  bind m (fun r => match r with Ok a => k a | Err e => ret (Err (f e)) end).

Definition quiet_tick : tick S := mkTick NoFault 0 (fun s => s).

(** One statement: [stmt now s] is its result and its effect. *)
Definition db_call {A} (stmt : Z -> S -> result A sqlx_error * S) : M (result A sqlx_error) :=
  fun w =>
    let t := default quiet_tick (head (ticks w)) in
    let rest := tail (ticks w) in
    let s := t_others t (db w) in
    let '(r, s') := stmt (t_now t) s in
    match t_fault t with
    | NoFault => (Ret r, mkWorld s' rest (ext w))
    | FailBefore => (Ret (Err OtherDbError), mkWorld s rest (ext w))
    | FailAfter => (Ret (Err OtherDbError), mkWorld s' rest (ext w))
    | CrashBefore => (Crashed, mkWorld s rest (ext w))
    | CrashAfter => (Crashed, mkWorld s' rest (ext w))
    end.

(** A call of another service: it sees and changes [ext] only. *)
Definition ext_call {A} (f : X -> A * X) : M A := fun w =>
  let '(a, x) := f (ext w) in (Ret a, mkWorld (db w) (ticks w) x).

(** A read-only statement. *)
Definition query {A} (q : Z -> S -> A) : M (result A sqlx_error) :=
  db_call (fun now s => (Ok (q now s), s)).

End Monad.
Arguments M : clear implicits.

(** A component's tables as a part of a database: what the component sees of it, and the database
    with that part replaced. *)
Class Part (T S : Type) := { part : S -> T; with_part : T -> S -> S }.

#[export] Instance Part_self T : Part T T := {| part s := s; with_part t _ := t |}.

Definition on_part {T S A} `{Part T S} (stmt : Z -> T -> result A sqlx_error * T) (now : Z) (s : S) : result A sqlx_error * S :=
  let '(r, t) := stmt now (part s) in (r, with_part t s).

Definition part_call {T S X A} `{Part T S} (stmt : Z -> T -> result A sqlx_error * T) : M S X (result A sqlx_error) :=
  db_call (on_part stmt).

Definition part_query {T S X A} `{Part T S} (q : Z -> T -> A) : M S X (result A sqlx_error) :=
  query (fun now s => q now (part s)).

Declare Scope db_scope.
Delimit Scope db_scope with db.
Notation "'do' x <- m ; k" := (bind m (fun x => k))
  (at level 200, x pattern, m at level 100, k at level 200) : db_scope.
Notation "'try' x <- m | f ; k" := (try_bind m f (fun x => k))
  (at level 200, x pattern, m at level 100, f at level 0, k at level 200) : db_scope.

(** ** The logic *)

Section Logic.
Context {S X : Type}.

(** What other connections may do to the database, and an invariant of the state
    outside the database. *)
Variable rely : S -> S -> Prop.
Variable ext_inv : X -> Prop.

Definition ticks_ok (ts : list (tick S)) : Prop :=
  Forall (fun t => forall s, rely s (t_others t s)) ts.

Definition world_ok (w : World S X) : Prop := ticks_ok (ticks w) /\ ext_inv (ext w).

Definition stable (P : S -> Prop) : Prop := forall s s', P s -> rely s s' -> P s'.

(** [{P} m {Q | C}]: from a database in [P], [m] ends either with a value [a]
    and a database in [Q a], or dead with a database in [C]. *)
Definition triple {A} (P : S -> Prop) (m : M S X A) (Q : A -> S -> Prop) (C : S -> Prop) : Prop :=
  forall w, P (db w) -> world_ok w ->
    world_ok (snd (m w)) /\
    match fst (m w) with
    | Ret a => Q a (db (snd (m w)))
    | Crashed => C (db (snd (m w)))
    end.

Lemma triple_ret {A} (a : A) P (Q : A -> S -> Prop) C :
  (forall s, P s -> Q a s) -> triple P (ret a) Q C.
Proof. intros H w HP Ht. cbn. auto. Qed.

Lemma triple_bind {A B} (m : M S X A) (k : A -> M S X B) P R Q C :
  triple P m R C -> (forall a, triple (R a) (k a) Q C) -> triple P (bind m k) Q C.
Proof.
  intros Hm Hk w HP Ht. specialize (Hm w HP Ht) as [Hm1 Hm2]. unfold bind.
  destruct (m w) as [[a|] w'] eqn:E; cbn in *; [by apply Hk|done].
Qed.

Lemma triple_conseq {A} (m : M S X A) (P P' C C' : S -> Prop) (Q Q' : A -> S -> Prop) :
  triple P m Q C -> (forall s, P' s -> P s) -> (forall a s, Q a s -> Q' a s) ->
  (forall s, C s -> C' s) -> triple P' m Q' C'.
Proof.
  intros Hm HP HQ HC w Hw Ht. destruct (Hm w (HP _ Hw) Ht) as [? Hr]. split; [done|].
  destruct (fst (m w)); auto.
Qed.

Lemma triple_try {A B E F} (m : M S X (result A E)) (f : E -> F) (k : A -> M S X (result B F))
    P R Q C :
  triple P m R C ->
  (forall a, triple (R (Ok a)) (k a) Q C) ->
  (forall e s, R (Err e) s -> Q (Err (f e)) s) ->
  triple P (try_bind m f k) Q C.
Proof.
  intros Hm Hk He. eapply triple_bind; [done|]. intros [a|e]; [done|].
  apply triple_ret. auto.
Qed.

Lemma triple_db_call {A} (stmt : Z -> S -> result A sqlx_error * S) P Q C :
  (forall s, rely s s) -> stable P ->
  (forall now s, P s -> Q (fst (stmt now s)) (snd (stmt now s)) /\
                        Q (Err OtherDbError) (snd (stmt now s)) /\ C (snd (stmt now s))) ->
  (forall s, P s -> Q (Err OtherDbError) s /\ C s) ->
  triple P (db_call stmt) Q C.
Proof.
  intros Hrefl HP Hstmt Hfail w Hw [Ht Hx]. unfold db_call.
  set (t := default quiet_tick (head (ticks w))).
  assert (Hrest : ticks_ok (tail (ticks w))).
  { unfold ticks_ok in *. destruct (ticks w); [done|]. by apply Forall_cons in Ht as [_ Ht]. }
  assert (Hs : P (t_others t (db w))).
  { eapply HP; [exact Hw|]. unfold t. destruct (ticks w) as [|t' r]; [apply Hrefl|].
    apply Forall_cons in Ht as [Ht _]. apply Ht. }
  specialize (Hstmt (t_now t) _ Hs) as (H1 & H2 & H3). specialize (Hfail _ Hs) as (H4 & H5).
  destruct (stmt (t_now t) (t_others t (db w))) as [r s']. cbn in *. unfold world_ok.
  destruct (t_fault t); cbn; auto.
Qed.

Lemma triple_query {A} (q : Z -> S -> A) (P : S -> Prop) (Q : result A sqlx_error -> S -> Prop) C :
  (forall s, rely s s) -> stable P ->
  (forall now s, P s -> Q (Ok (q now s)) s) ->
  (forall s, P s -> Q (Err OtherDbError) s) -> (forall s, P s -> C s) ->
  triple P (query q) Q C.
Proof. intros. apply triple_db_call; cbn; auto. Qed.

Lemma triple_ext_call {A} (f : X -> A * X) (P : S -> Prop) (Q : A -> S -> Prop) C :
  (forall x, ext_inv x -> ext_inv (snd (f x))) ->
  (forall x s, ext_inv x -> P s -> Q (fst (f x)) s) -> triple P (ext_call f) Q C.
Proof.
  intros Hi H w Hw [Ht Hx]. unfold ext_call, world_ok in *.
  specialize (H (ext w) _ Hx Hw). specialize (Hi _ Hx).
  destruct (f (ext w)) as [a x]. by cbn in *.
Qed.

Lemma triple_pure {A} (m : M S X A) (P : S -> Prop) (phi : Prop) Q C :
  (phi -> triple P m Q C) -> triple (fun s => P s /\ phi) m Q C.
Proof. intros H w [HP Hphi] Hw. by apply H. Qed.

(** A computation made only of steps that keep [P] keeps [P]. *)
Definition preserves {A} (P : S -> Prop) (m : M S X A) : Prop := triple P m (fun _ => P) P.

Lemma preserves_bind {A B} (m : M S X A) (k : A -> M S X B) P :
  preserves P m -> (forall a, preserves P (k a)) -> preserves P (bind m k).
Proof. intros Hm Hk. by eapply triple_bind. Qed.

Lemma preserves_ret {A} (a : A) P : preserves P (ret a).
Proof. by apply triple_ret. Qed.

Lemma preserves_query {A} (q : Z -> S -> A) P :
  (forall s, rely s s) -> stable P -> preserves P (query q).
Proof. intros. by apply triple_query. Qed.

Lemma preserves_db_call {A} (stmt : Z -> S -> result A sqlx_error * S) P :
  (forall s, rely s s) -> stable P -> (forall now s, P s -> P (snd (stmt now s))) ->
  preserves P (db_call stmt).
Proof. intros. apply triple_db_call; naive_solver. Qed.

Lemma preserves_try {A B E F} (m : M S X (result A E)) (f : E -> F) (k : A -> M S X (result B F)) P :
  preserves P m -> (forall a, preserves P (k a)) -> preserves P (try_bind m f k).
Proof. intros Hm Hk. apply preserves_bind; [done|]. intros [a|e]; [done|apply preserves_ret]. Qed.

End Logic.

(** ** Invariants

    [maintains P m]: under any schedule of faults and of other connections that keep [P] too, [m] ends,
    or dies, in a database where [P] still holds. *)

Section Maintains.
Context {S X : Type}.
Variable P : S -> Prop.

Definition maintains {A} (m : M S X A) : Prop := preserves (fun s s' => P s -> P s') (fun _ => True) P m.

Lemma maintains_ret {A} (a : A) : maintains (ret a).
Proof. apply preserves_ret. Qed.

Lemma maintains_bind {A B} (m : M S X A) (k : A -> M S X B) : maintains m -> (forall a, maintains (k a)) -> maintains (bind m k).
Proof. apply preserves_bind. Qed.

Lemma maintains_try {A B E F} (m : M S X (result A E)) (f : E -> F) (k : A -> M S X (result B F)) :
  maintains m -> (forall a, maintains (k a)) -> maintains (try_bind m f k).
Proof. apply preserves_try. Qed.

(** Continuing with a value that was only computed. *)
Lemma maintains_try_ret {A B E F} (r : result A E) (f : E -> F) (k : A -> M S X (result B F)) :
  (forall a, r = Ok a -> maintains (k a)) -> maintains (try_bind (ret r) f k).
Proof. intros Hk. destruct r as [a|e]; [by apply (Hk a)|apply maintains_ret]. Qed.

Lemma maintains_call {A} (stmt : Z -> S -> result A sqlx_error * S) :
  (forall now s, P s -> P (snd (stmt now s))) -> maintains (db_call stmt).
Proof. intros. apply preserves_db_call; [done| |done]. intros s s' Hs Hr. by apply Hr. Qed.

Lemma maintains_query {A} (q : Z -> S -> A) : maintains (query q).
Proof. by apply maintains_call. Qed.

Lemma maintains_part_call {T A} `{Part T S} (stmt : Z -> T -> result A sqlx_error * T) :
  (forall now s, P s -> P (with_part (snd (stmt now (part s))) s)) -> maintains (part_call stmt).
Proof.
  intros Hs. apply maintains_call. intros now s HP. unfold on_part. specialize (Hs now s HP).
  by destruct (stmt now (part s)).
Qed.

Lemma maintains_part_query {T A} `{Part T S} (q : Z -> T -> A) : maintains (part_query q).
Proof. apply maintains_query. Qed.

Lemma maintains_ext {A} (g : X -> A * X) : maintains (ext_call g).
Proof. by apply triple_ext_call. Qed.

(** What it means for the database afterwards. *)
Lemma maintains_db {A} (m : M S X A) w :
  maintains m -> P (db w) -> Forall (fun t => forall s, P s -> P (t_others t s)) (ticks w) ->
  P (db (snd (m w))) /\ Forall (fun t => forall s, P s -> P (t_others t s)) (ticks (snd (m w))).
Proof. intros Hm HP Ht. destruct (Hm w HP) as [[Ht' _] Hd]; [by split|]. split; [by destruct (fst (m w))|done]. Qed.
End Maintains.

End Db.

Create HintDb maintains discriminated.
#[export] Hint Resolve Db.maintains_ret Db.maintains_bind Db.maintains_try Db.maintains_query Db.maintains_part_query Db.maintains_ext : maintains.

(** ** Running without interference

    What a computation does when the database answers and no other connection writes between its
    statements. *)

Module Runs.
Import Db.

Section Runs.
Context {S X : Type}.
Notation World := (World S X).
Notation M := (M S X).

Definition calm (w : World) : Prop := Forall (fun t => t_fault t = NoFault /\ forall s, t_others t s = s) (ticks w).

(** The database's clock in the next statement. *)
Definition tick_now (w : World) : Z := t_now (default quiet_tick (head (ticks w))).

(** [m] ends with a value and a world in [Q]. *)
Definition runs {A} (m : M A) (Q : A -> World -> Prop) (w : World) : Prop := exists a w', m w = (Ret a, w') /\ Q a w'.

Lemma exec_ret {A} (a : A) (Q : A -> World -> Prop) w : Q a w -> runs (ret a) Q w.
Proof. intros HQ. by exists a, w. Qed.

Lemma exec_bind {A B} (m : M A) (k : A -> M B) Q w : runs m (fun a => runs (k a) Q) w -> runs (bind m k) Q w.
Proof. intros (a & w1 & E1 & b & w2 & E2 & HQ). exists b, w2. unfold bind. by rewrite E1. Qed.

Lemma exec_try {A B E F} (m : M (result A E)) (f : E -> F) (k : A -> M (result B F)) Q w :
  runs m (fun r w' => match r with Ok a => runs (k a) Q w' | Err e => Q (Err (f e)) w' end) w -> runs (try_bind m f k) Q w.
Proof.
  intros (a & w1 & E1 & HQ). unfold try_bind, runs, bind. rewrite E1. destruct a as [a|e]; [exact HQ|]. by exists (Err (f e)), w1.
Qed.

Lemma exec_call {A} (stmt : Z -> S -> result A sqlx_error * S) Q w :
  calm w -> (forall w', calm w' -> db w' = snd (stmt (tick_now w) (db w)) -> ext w' = ext w -> Q (fst (stmt (tick_now w) (db w))) w') ->
  runs (db_call stmt) Q w.
Proof.
  intros Hc HQ. destruct w as [d ts x]. unfold runs, db_call, tick_now in *. cbn in *.
  destruct ts as [|[f n o] ts]; cbn in *.
  - destruct (stmt 0 d) as [r d'] eqn:E. eexists _, _. split; [reflexivity|]. apply (HQ (mkWorld d' [] x)); done.
  - apply Forall_cons in Hc as [[Ef Ho] Hts]. cbn in Ef, Ho. rewrite Ho, Ef. destruct (stmt n d) as [r d'] eqn:E.
    eexists _, _. split; [reflexivity|]. apply (HQ (mkWorld d' ts x)); done.
Qed.

Lemma exec_query {A} (q : Z -> S -> A) Q w :
  calm w -> (forall w', calm w' -> db w' = db w -> ext w' = ext w -> Q (Ok (q (tick_now w) (db w))) w') -> runs (query q) Q w.
Proof. intros Hc HQ. by apply exec_call. Qed.

Lemma exec_ext {A} (f : X -> A * X) Q w :
  calm w -> (forall w', calm w' -> db w' = db w -> ticks w' = ticks w -> ext w' = snd (f (ext w)) -> Q (fst (f (ext w))) w') ->
  runs (ext_call f) Q w.
Proof.
  intros Hc HQ. unfold runs, ext_call. destruct (f (ext w)) as [a x] eqn:E. eexists _, _. split; [reflexivity|]. by apply HQ.
Qed.

Lemma exec_mono {A} (m : M A) (Q Q' : A -> World -> Prop) w : (forall a w', Q a w' -> Q' a w') -> runs m Q w -> runs m Q' w.
Proof. intros HQ (a & w' & E & Ha). exists a, w'. auto. Qed.
End Runs.

Ltac exec := first [apply exec_try | apply exec_bind]; cbn beta.

(** ** Computations that returned

    What must have happened, under any schedule, when a computation ends with a value. *)

Lemma bind_returns {S X A B} (m : M S X A) (k : A -> M S X B) w b w' :
  bind m k w = (Ret b, w') -> exists a w1, m w = (Ret a, w1) /\ k a w1 = (Ret b, w').
Proof. unfold bind. destruct (m w) as [[a|] w1]; [|done]. intros E. by exists a, w1. Qed.

Lemma try_returns {S X A B E F} (m : M S X (result A E)) (f : E -> F) (k : A -> M S X (result B F)) w b w' :
  try_bind m f k w = (Ret (Ok b), w') -> exists a w1, m w = (Ret (Ok a), w1) /\ k a w1 = (Ret (Ok b), w').
Proof. intros ([a|e] & w1 & E1 & E2)%bind_returns; [by exists a, w1|done]. Qed.

Lemma try_ret_returns {S X A B E F} (r : result A E) (f : E -> F) (k : A -> M S X (result B F)) w b w' :
  try_bind (ret r) f k w = (Ret (Ok b), w') -> exists a, r = Ok a /\ k a w = (Ret (Ok b), w').
Proof. destruct r as [a|e]; cbn; [|done]. intros E1. by exists a. Qed.

Ltac steps Hm :=
  first [ let a := fresh "a" in let E := fresh "E" in apply try_ret_returns in Hm as (a & E & Hm); cbv beta in Hm; steps Hm
        | let a := fresh "a" in let w := fresh "w" in let E := fresh "E" in apply try_returns in Hm as (a & w & E & Hm); cbv beta in Hm; steps Hm
        | idtac ].

Lemma call_returns {S X A} (stmt : Z -> S -> result A sqlx_error * S) (w w' : World S X) a :
  db_call stmt w = (Ret (Ok a), w') -> exists now s, stmt now s = (Ok a, db w').
Proof.
  unfold db_call. destruct (stmt _ _) as [r s'] eqn:E. destruct (t_fault _); [|done..]. intros [= -> <-]. by eexists _, _.
Qed.

Lemma query_returns {S X A} (q : Z -> S -> A) (w w' : World S X) a :
  query q w = (Ret (Ok a), w') -> exists now, q now (db w') = a.
Proof. unfold query. intros (now & s & [= Ea Es])%call_returns. exists now. by rewrite <- Es. Qed.

Lemma part_query_returns {T S X A} `{Part T S} (q : Z -> T -> A) (w w' : World S X) a :
  part_query q w = (Ret (Ok a), w') -> exists now, q now (part (db w')) = a.
Proof. unfold part_query. intros [now E]%query_returns. by exists now. Qed.

(** ** What a computation leaves of the other services

    [leaves f m]: under any schedule, [m] leaves the part [f] of the services as it was. *)

Section Leaves.
Context {S X B : Type}.
Variable f : X -> B.

Definition leaves {A} (m : M S X A) : Prop := forall w, f (ext (snd (m w))) = f (ext w).

Lemma leaves_ret {A} (a : A) : leaves (ret a).
Proof. done. Qed.

Lemma leaves_bind {A C} (m : M S X A) (k : A -> M S X C) : leaves m -> (forall a, leaves (k a)) -> leaves (bind m k).
Proof. intros Hm Hk w. specialize (Hm w). unfold bind. destruct (m w) as [[a|] w1]; cbn in *; [|done]. by rewrite Hk. Qed.

Lemma leaves_try {A C E F} (m : M S X (result A E)) (g : E -> F) (k : A -> M S X (result C F)) :
  leaves m -> (forall a, leaves (k a)) -> leaves (try_bind m g k).
Proof. intros Hm Hk. apply leaves_bind; [done|]. by intros [a|e]. Qed.

Lemma leaves_call {A} (stmt : Z -> S -> result A sqlx_error * S) : leaves (db_call stmt).
Proof. intros w. unfold db_call. destruct (stmt _ _) as [r s]. by destruct (t_fault _). Qed.

Lemma leaves_query {A} (q : Z -> S -> A) : leaves (query q).
Proof. apply leaves_call. Qed.

Lemma leaves_part_call {T A} `{Part T S} (stmt : Z -> T -> result A sqlx_error * T) : leaves (part_call stmt).
Proof. apply leaves_call. Qed.

Lemma leaves_part_query {T A} `{Part T S} (q : Z -> T -> A) : leaves (part_query q).
Proof. apply leaves_query. Qed.

Lemma leaves_ext {A} (g : X -> A * X) : (forall x, f (snd (g x)) = f x) -> leaves (ext_call g).
Proof. intros Hg w. unfold ext_call. specialize (Hg (ext w)). by destruct (g (ext w)). Qed.

(** A computation that begins by leaving [f] alone. *)
Lemma after_quiet {A C} (P : B -> Prop) (m : M S X A) (k : A -> M S X C) w :
  leaves m -> P (f (ext w)) -> (forall a w1, m w = (Ret a, w1) -> f (ext w1) = f (ext w) -> P (f (ext (snd (k a w1))))) ->
  P (f (ext (snd (bind m k w)))).
Proof. intros Hm H0 Hk. specialize (Hm w). unfold bind. destruct (m w) as [[a|] w1] eqn:E; cbn in *; [by apply Hk|by rewrite Hm]. Qed.

Lemma after_quiet_try {A C E F} (P : B -> Prop) (m : M S X (result A E)) (g : E -> F) (k : A -> M S X (result C F)) w :
  leaves m -> P (f (ext w)) -> (forall a w1, m w = (Ret (Ok a), w1) -> f (ext w1) = f (ext w) -> P (f (ext (snd (k a w1))))) ->
  P (f (ext (snd (try_bind m g k w)))).
Proof. intros Hm H0 Hk. unfold try_bind. apply (after_quiet P); [done..|]. intros [a|e] w1 E1 Ew; [by apply Hk|]. cbn. by rewrite Ew. Qed.
End Leaves.

(** ** What a computation leaves of the database

    [frames f m]: without interference, [m] leaves the part [f] of the database as it was. *)

Section Frames.
Context {S X B : Type}.
Variable f : S -> B.

Definition frames {A} (m : M S X A) : Prop := forall w, calm w -> calm (snd (m w)) /\ f (db (snd (m w))) = f (db w).

Lemma frames_ret {A} (a : A) : frames (ret a).
Proof. done. Qed.

Lemma frames_bind {A C} (m : M S X A) (k : A -> M S X C) : frames m -> (forall a, frames (k a)) -> frames (bind m k).
Proof.
  intros Hm Hk w Hc. destruct (Hm w Hc) as [H1 H2]. unfold bind. destruct (m w) as [[a|] w1]; cbn in *; [|done].
  destruct (Hk a w1 H1) as [H3 H4]. split; [done|]. by rewrite H4.
Qed.

Lemma frames_try {A C E F} (m : M S X (result A E)) (g : E -> F) (k : A -> M S X (result C F)) :
  frames m -> (forall a, frames (k a)) -> frames (try_bind m g k).
Proof. intros Hm Hk. apply frames_bind; [done|]. by intros [a|e]. Qed.

Lemma frames_call {A} (stmt : Z -> S -> result A sqlx_error * S) :
  (forall now s, f (snd (stmt now s)) = f s) -> frames (db_call stmt).
Proof.
  intros Hs w Hc. destruct (exec_call stmt (fun _ w' => calm w' /\ f (db w') = f (db w)) w Hc) as (a & w' & E & H).
  - intros w' Hc' Ed _. rewrite Ed. by split.
  - by rewrite E.
Qed.

Lemma frames_ext {A} (g : X -> A * X) : frames (ext_call g).
Proof. intros w Hc. unfold ext_call. by destruct (g (ext w)). Qed.
End Frames.
End Runs.

Create HintDb leaves discriminated.
#[export] Hint Resolve Runs.leaves_ret Runs.leaves_bind Runs.leaves_try Runs.leaves_call Runs.leaves_query Runs.leaves_part_call Runs.leaves_part_query Runs.leaves_ext : leaves.
