(* ===== verification/Moments.v ===== *)
(** * The moments of a run

    A computation that returned went through particular worlds, which its schedule determines: each
    statement met the database as the other connections had left it, at its own time. The lemmas here
    recover those worlds from the fact that the computation returned, so that a theorem about what a
    handler checked can say in which database the check was made. *)

From S2P Require Import Prelude Db.

Module Moments.
Import Db Runs.

Section Moments.
Context {S X : Type}.
Notation World := (World S X).

(** The other connections did what the schedule has next, and that turn is over: the database that the
    next statement of [w] meets is [db (advance w)], and a read leaves the world [advance w]. *)
Definition advance (w : World) : World :=
  mkWorld (t_others (default quiet_tick (head (ticks w))) (db w)) (tail (ticks w)) (ext w).

(** The next statement took effect. *)
Definition performed {A} (stmt : Z -> S -> result A sqlx_error * S) (w : World) : World :=
  mkWorld (snd (stmt (tick_now w) (db (advance w)))) (tail (ticks w)) (ext w).

Lemma call_at {A} (stmt : Z -> S -> result A sqlx_error * S) (w w' : World) a :
  db_call stmt w = (Ret (Ok a), w') -> fst (stmt (tick_now w) (db (advance w))) = Ok a /\ w' = performed stmt w.
Proof.
  unfold db_call, performed, advance, tick_now. cbn [db]. destruct (stmt _ _) as [r s] eqn:E.
  destruct (t_fault _); intros [= -> <-]; try done; by rewrite E.
Qed.

Lemma query_at {A} (q : Z -> S -> A) (w w' : World) a :
  query q w = (Ret (Ok a), w') -> a = q (tick_now w) (db (advance w)) /\ w' = advance w.
Proof. unfold query. intros [E ->]%call_at. cbn in E. by injection E as <-. Qed.

Lemma ext_at {A} (f : X -> A * X) (w w' : World) a :
  ext_call f w = (Ret a, w') -> f (ext w) = (a, ext w') /\ db w' = db w /\ ticks w' = ticks w.
Proof. unfold ext_call. destruct (f (ext w)) as [b x]. by intros [= <- <-]. Qed.

(** The database that the [n]-th statement of a run meets, when the run has only read so far. *)
Fixpoint moment (n : nat) (w : World) : S :=
  match n with O => db w | Datatypes.S n => moment n (advance w) end.

(** [w'] is the world [w] after [n] reads, whatever the other services did. *)
Definition later (n : nat) (w w' : World) : Prop := db w' = moment n w /\ ticks w' = drop n (ticks w).

Lemma moment_next n (w w' : World) : later n w w' -> db (advance w') = moment (Datatypes.S n) w.
Proof.
  revert w. induction n as [|n IH]; intros w [Ed Et]; cbn in Ed, Et.
  - cbn. unfold advance. cbn. by rewrite Ed, Et.
  - change (moment (Datatypes.S (Datatypes.S n)) w) with (moment (Datatypes.S n) (advance w)). apply IH. split; [done|].
    rewrite Et. unfold advance. cbn. by destruct (ticks w), n.
Qed.

Lemma later_refl (w : World) : later 0 w w.
Proof. done. Qed.

Lemma later_ext {A} n (f : X -> A * X) (w w1 w2 : World) a : later n w w1 -> ext_call f w1 = (Ret a, w2) -> later n w w2.
Proof. intros [Ed Et] (_ & Ed' & Et')%ext_at. by split; congruence. Qed.

Lemma later_query {A} n (q : Z -> S -> A) (w w1 w2 : World) a :
  later n w w1 -> query q w1 = (Ret (Ok a), w2) -> a = q (tick_now w1) (moment (Datatypes.S n) w) /\ later (Datatypes.S n) w w2.
Proof.
  intros Hl [-> ->]%query_at. rewrite (moment_next _ _ _ Hl). split; [done|]. split; [by apply moment_next|].
  destruct Hl as [_ Et]. unfold advance. cbn [ticks]. rewrite Et, <- Nat.add_1_r, <- drop_drop. by destruct (drop n (ticks w)).
Qed.

Lemma later_part_query {T A} `{Part T S} n (q : Z -> T -> A) (w w1 w2 : World) a :
  later n w w1 -> part_query q w1 = (Ret (Ok a), w2) -> a = q (tick_now w1) (part (moment (Datatypes.S n) w)) /\ later (Datatypes.S n) w w2.
Proof. exact (later_query n _ w w1 w2 a). Qed.

(** A row that every other connection keeps is still there after a computation that keeps it. *)
Definition others_keep (P : S -> Prop) (w : World) : Prop := Forall (fun t => forall s, P s -> P (t_others t s)) (ticks w).

Lemma others_keep_after {A B} P (stmt : Z -> S -> result A sqlx_error * S) (m : M S X B) (w : World) :
  maintains P m -> others_keep P w -> P (db (performed stmt w)) -> P (db (snd (m (performed stmt w)))).
Proof.
  intros Hm Hk HP. apply (maintains_db P m); [done..|]. unfold others_keep in Hk. unfold performed. cbn.
  destruct (ticks w); [done|]. by apply Forall_cons in Hk as [_ Hk].
Qed.

(** On a schedule without interference each read meets the database that the run began with. *)
Lemma advance_calm (w : World) : calm w -> db (advance w) = db w /\ calm (advance w).
Proof. unfold calm, advance. cbn. destruct (ticks w) as [|t ts]; [done|]. by intros [[_ Ho] Hts]%Forall_cons. Qed.
End Moments.

End Moments.
