(* ===== verification/WalletAddress.v ===== *)
(** * Stellar addresses and asset codes

    [crates/wallet-core/src/{address,asset,error}.rs]: the two forms of a
    customer's deposit address (a muxed [M...] address, or the base [G...]
    account with a memo id), their conversions, and the asset-code policy.

    The strkey text encoding, ed25519 and base64 are third-party crates: the
    class [Strkey] is what the code calls, [StrkeyLaws] what it relies on. *)

From S2P Require Import Prelude.

Module WalletAddress.

Inductive WalletError : Type :=
| InvalidMnemonic
| InvalidChecksum
| InvalidSeedLength
| WeakSeed
| InvalidDerivationPath
| KeyDerivation
| MnemonicAccountMismatch
| InvalidAddress
| InvalidAssetCode
| ReservedNativeAssetCode
| InvalidAmount
| InvalidMemo
| Signing
| SeedDecryption
| InvalidXdr
| InvalidSignature
| StaleSequence.

#[export] Instance WalletError_eq_dec : EqDecision WalletError.
Proof. solve_decision. Defined.

(** A 32-byte ed25519 public key. *)
Definition key := list Z.

(** [stellar_strkey::ed25519]: [PublicKey] and [MuxedAccount], parsed and
    displayed. *)
Class Strkey := {
  pk_from_string : string -> option key;
  pk_display : key -> string;
  mux_from_string : string -> option (key * Z);
  mux_display : key -> Z -> string
}.

(** The strkey encoding is canonical: displaying and parsing are inverse, and
    the version byte tells the two kinds of address apart. *)
Class StrkeyLaws `{Strkey} := {
  pk_parse_display : forall k s, pk_from_string s = Some k -> pk_display k = s;
  mux_display_parse : forall k s id, pk_from_string s = Some k -> 0 <= id <= u64_MAX ->
    mux_from_string (mux_display k id) = Some (k, id);
  mux_key_valid : forall s k id, mux_from_string s = Some (k, id) ->
    pk_from_string (pk_display k) = Some k /\ 0 <= id <= u64_MAX;
  mux_parse_display : forall s k id, mux_from_string s = Some (k, id) -> mux_display k id = s;
  mux_not_pk : forall s, is_Some (mux_from_string s) -> pk_from_string s = None
}.

Section Address.
Context `{Strkey}.

Record DepositAddress := mkDepositAddress {
  muxed_address : string;
  base_address : string;
  memo_id : Z
}.

Definition deposit_address (base_account : string) (id : Z) : result DepositAddress WalletError :=
  let? pk := ok_or (pk_from_string base_account) InvalidAddress in
  Ok (mkDepositAddress (mux_display pk id) base_account id).

Definition encode_muxed (base_account : string) (id : Z) : result string WalletError :=
  let? pk := ok_or (pk_from_string base_account) InvalidAddress in
  Ok (mux_display pk id).

Record DecodedMuxed := mkDecodedMuxed {
  dm_ed25519 : key;
  dm_id : Z
}.

Definition base_account (d : DecodedMuxed) : string := pk_display (dm_ed25519 d).

Definition decode_muxed (muxed_address : string) : result DecodedMuxed WalletError :=
  let? mux := ok_or (mux_from_string muxed_address) InvalidAddress in
  Ok (mkDecodedMuxed (fst mux) (snd mux)).

Definition is_valid_account (address : string) : bool :=
  bool_decide (is_Some (pk_from_string address)).

Definition to_base_account (address : string) : result string WalletError :=
  match decode_muxed address with
  | Ok decoded => Ok (pk_display (dm_ed25519 decoded))
  | Err _ => if is_valid_account address then Ok address else Err InvalidAddress
  end.

(** [verifying_key] is [VerifyingKey::from_bytes(..).is_ok()], [b64] the base64
    decoder and [verify] the signature check of ed25519-dalek. *)
Definition verify_account_signature (verifying_key : key -> bool) (b64 : string -> option (list Z))
    (verify : key -> list Z -> list Z -> bool) (account : string) (message : list Z)
    (signature_b64 : string) : result unit WalletError :=
  let? pk := ok_or (pk_from_string account) InvalidAddress in
  ensure! verifying_key pk else InvalidAddress;
  let? sig_bytes := ok_or (b64 signature_b64) InvalidSignature in
  ensure! Nat.eqb (length sig_bytes) 64 else InvalidSignature;
  if verify pk message sig_bytes then Ok tt else Err InvalidSignature.
End Address.

(** ** Asset codes *)

Definition validate_asset_code (code : string) : result unit WalletError :=
  if eq_ignore_ascii_case code "XLM" || eq_ignore_ascii_case code "native"
  then Err ReservedNativeAssetCode
  else if negb (in_range 1 12 (slen code)) then Err InvalidAssetCode
  else Ok tt.

Definition is_valid_asset_code (code : string) : bool := is_ok (validate_asset_code code).

(** ** A concrete encoding, to evaluate the definitions on

    The letter of the kind, the 32 bytes of the key, and for a muxed address the
    decimal text of the id. *)
Module Toy.

Fixpoint split_str (n : nat) (s : string) : option (string * string) :=
  match n, s with
  | O, _ => Some (EmptyString, s)
  | S n', String c r => match split_str n' r with Some (a, b) => Some (String c a, b) | None => None end
  | S _, EmptyString => None
  end.

Definition toy_pk (s : string) : option key :=
  match s with
  | String d r =>
      if bool_decide ("G"%char = d) && Nat.eqb (String.length r) 32 then Some (bytes_of r) else None
  | EmptyString => None
  end.

Definition toy_mux (s : string) : option (key * Z) :=
  match s with
  | String d r =>
      if bool_decide ("M"%char = d) then
        match split_str 32 r with
        | Some (k, t) =>
            match parse_u64 t with
            | Some id => if bool_decide (print_dec id = t) then Some (bytes_of k, id) else None
            | None => None
            end
        | None => None
        end
      else None
  | EmptyString => None
  end.

#[export] Instance toy_strkey : Strkey := {|
  pk_from_string := toy_pk;
  pk_display k := String "G"%char (str_of k);
  mux_from_string := toy_mux;
  mux_display k id := String "M"%char (str_of k +:+ print_dec id)
|}.

Lemma split_str_app s t : split_str (String.length s) (s +:+ t) = Some (s, t).
Proof. induction s as [|c s IH]; cbn; [done|]. by rewrite IH. Qed.

Lemma split_str_Some n s a b : split_str n s = Some (a, b) -> s = a +:+ b /\ String.length a = n.
Proof.
  revert s a b. induction n as [|n IH]; intros s a b; cbn; [by intros [= <- <-]|].
  destruct s as [|c r]; [done|]. destruct (split_str n r) as [[a' b']|] eqn:E; [|done].
  intros [= <- <-]. destruct (IH _ _ _ E) as [-> <-]. done.
Qed.

Lemma toy_pk_Some s k : toy_pk s = Some k -> exists r, s = String "G"%char r /\ String.length r = 32%nat /\ k = bytes_of r.
Proof.
  destruct s as [|d r]; cbn; [done|]. case_bool_decide as Hd; cbn [andb]; [|done].
  destruct (Nat.eqb_spec (String.length r) 32); [|done]. intros [= <-]. exists r. by subst.
Qed.

Lemma toy_mux_Some s k id :
  toy_mux s = Some (k, id) ->
  exists r, s = String "M"%char (r +:+ print_dec id) /\ String.length r = 32%nat /\
            k = bytes_of r /\ 0 <= id <= u64_MAX.
Proof.
  destruct s as [|d r]; cbn [toy_mux]; [done|]. case_bool_decide as Hd; [|done].
  destruct (split_str 32 r) as [[a t]|] eqn:E; [|done].
  destruct (parse_u64 t) as [v|] eqn:Ep; [|done].
  case_bool_decide as Ht; [|done]. intros [= <- <-].
  apply split_str_Some in E as [-> Hl]. exists a. subst. split_and!; try done;
  apply parse_int_range in Ep; lia.
Qed.

#[local] Arguments toy_mux : simpl never.
#[local] Arguments toy_pk : simpl never.

#[export] Instance toy_laws : StrkeyLaws.
Proof.
  constructor; cbn.
  - intros k s (r & -> & _ & ->)%toy_pk_Some. by rewrite str_of_bytes_of.
  - intros k s id (r & -> & Hl & ->)%toy_pk_Some Hid. rewrite str_of_bytes_of.
    unfold toy_mux. rewrite bool_decide_eq_true_2 by done.
    assert (split_str 32 (r +:+ print_dec id) = Some (r, print_dec id)) as ->
      by (rewrite <- Hl; apply split_str_app).
    unfold parse_u64. rewrite parse_int_print_dec by lia.
    by rewrite bool_decide_eq_true_2.
  - intros s k id (r & -> & Hl & -> & Hid)%toy_mux_Some. split; [|done].
    rewrite str_of_bytes_of. unfold toy_pk. rewrite bool_decide_eq_true_2, Hl by done. done.
  - intros s k id (r & -> & Hl & -> & Hid)%toy_mux_Some. by rewrite str_of_bytes_of.
  - intros s [[k id] (r & -> & _)%toy_mux_Some]. done.
Qed.
End Toy.

(** ** Properties *)

Section Properties.
Context `{StrkeyLaws}.

Lemma encode_muxed_Ok g id m :
  encode_muxed g id = Ok m -> exists k, pk_from_string g = Some k /\ m = mux_display k id.
Proof. unfold encode_muxed. destruct (pk_from_string g); cbn; [|done]. intros [= <-]. eauto. Qed.

(** A deposit address round-trips. For every valid base account and every
    u64 id (zero included) the muxed address decodes to that id and its base
    account is the account it was made for, character for character. *)
Lemma muxed_roundtrip (g : string) (id : Z) (m : string) :
  0 <= id <= u64_MAX -> encode_muxed g id = Ok m ->
  exists d, decode_muxed m = Ok d /\ dm_id d = id /\ base_account d = g.
Proof.
  intros Hid (k & Hk & ->)%encode_muxed_Ok. unfold decode_muxed.
  rewrite (mux_display_parse _ _ _ Hk Hid). cbn. eexists. split_and!; [done..|].
  by apply pk_parse_display.
Qed.

(** Customers never share a deposit address. Two muxed addresses are equal
    only when both the base accounts and the ids are. *)
Lemma encode_muxed_injective (g1 g2 : string) (id1 id2 : Z) (m : string) :
  0 <= id1 <= u64_MAX -> 0 <= id2 <= u64_MAX ->
  encode_muxed g1 id1 = Ok m -> encode_muxed g2 id2 = Ok m -> g1 = g2 /\ id1 = id2.
Proof.
  intros H1 H2 (k1 & Hk1 & ->)%encode_muxed_Ok (k2 & Hk2 & E)%encode_muxed_Ok.
  pose proof (mux_display_parse _ _ _ Hk1 H1) as P1. rewrite E in P1.
  rewrite (mux_display_parse _ _ _ Hk2 H2) in P1. injection P1 as -> ->.
  apply pk_parse_display in Hk1, Hk2. by subst.
Qed.

(** Normalisation. Whatever valid form an address is given in, its base
    account is a valid base account that normalises to itself, and every muxed
    form of a base account normalises to that base account, so that comparing
    normalised addresses compares accounts. *)
Lemma to_base_account_normal (a b : string) :
  to_base_account a = Ok b ->
  is_valid_account b = true /\ to_base_account b = Ok b /\
  forall id m, 0 <= id <= u64_MAX -> encode_muxed b id = Ok m -> to_base_account m = Ok b.
Proof.
  intros Ha.
  assert (Hb : exists k, pk_from_string b = Some k).
  { unfold to_base_account, decode_muxed, is_valid_account in Ha.
    destruct (mux_from_string a) as [[k id]|] eqn:E; cbn in Ha.
    - injection Ha as <-. exists k. by eapply mux_key_valid.
    - case_bool_decide as Hv; [|done]. injection Ha as <-. by destruct Hv as [k ?]; exists k. }
  destruct Hb as [k Hk].
  assert (Hv : is_valid_account b = true) by (apply bool_decide_eq_true; eauto).
  split_and!; [done|..].
  - unfold to_base_account, decode_muxed. destruct (mux_from_string b) as [[k' id]|] eqn:E; cbn.
    + rewrite (mux_not_pk b) in Hk by (rewrite E; eauto). done.
    + by rewrite Hv.
  - intros id m Hid (k' & Hk' & ->)%encode_muxed_Ok. unfold to_base_account, decode_muxed.
    rewrite (mux_display_parse _ _ _ Hk' Hid). cbn. f_equal. by apply pk_parse_display.
Qed.
End Properties.

Import Toy.

Definition toy_account : string := "GABCDEFGHIJKLMNOPQRSTUVWXYZ234567".
Definition toy_muxed : string := "MABCDEFGHIJKLMNOPQRSTUVWXYZ23456742".

(** The asset-code policy accepts exactly the codes of 1 to 12 bytes that do not
    spell the native asset in any case. *)
Lemma validate_asset_code_spec code :
  is_valid_asset_code code = true <->
  1 <= slen code <= 12 /\ to_ascii_lowercase code <> "xlm" /\ to_ascii_lowercase code <> "native".
Proof.
  unfold is_valid_asset_code, validate_asset_code, eq_ignore_ascii_case.
  change (to_ascii_lowercase "XLM") with "xlm". change (to_ascii_lowercase "native") with "native".
  destruct (bool_decide_reflect (to_ascii_lowercase code = "xlm")),
    (bool_decide_reflect (to_ascii_lowercase code = "native")); cbn;
    [naive_solver..|].
  destruct (in_range 1 12 (slen code)) eqn:E; cbn.
  - apply in_range_spec in E. naive_solver.
  - split; [done|]. intros [HL _]. apply in_range_spec in HL. congruence.
Qed.

End WalletAddress.
