(* ===== verification/Paging.v ===== *)
(** * Ordered queries and keyset pagination

    [SELECT ... ORDER BY created_at DESC, id DESC LIMIT n], with the row before
    which the page starts given by its id: the query of every list endpoint of
    [crates/store/src]. *)

From Stdlib Require Import Sorted.
From S2P Require Import Prelude.

Module Paging.

(** ** Ordering *)

Section Sort.
Context {A : Type}.
Variable leb : A -> A -> bool.

Fixpoint insert_by (a : A) (l : list A) : list A :=
  match l with
  | [] => [a]
  | b :: r => if leb a b then a :: l else b :: insert_by a r
  end.

Fixpoint sort_by (l : list A) : list A :=
  match l with [] => [] | a :: r => insert_by a (sort_by r) end.

Lemma insert_by_perm a l : Permutation (insert_by a l) (a :: l).
Proof.
  induction l as [|b l IH]; cbn; [done|]. destruct (leb a b); [done|].
  rewrite IH. apply perm_swap.
Qed.

Lemma sort_by_perm l : Permutation (sort_by l) l.
Proof. induction l as [|a l IH]; cbn; [done|]. by rewrite insert_by_perm, IH. Qed.

Hypothesis leb_total : forall a b, leb a b = true \/ leb b a = true.
Hypothesis leb_trans : forall a b c, leb a b = true -> leb b c = true -> leb a c = true.

Lemma insert_by_sorted a l :
  StronglySorted (fun x y => leb x y = true) l ->
  StronglySorted (fun x y => leb x y = true) (insert_by a l).
Proof using leb_total leb_trans.
  induction 1 as [|b l Hl IH Hb]; cbn; [repeat constructor|].
  destruct (leb a b) eqn:E.
  - constructor; [by constructor|]. constructor; [done|].
    eapply Forall_impl; [exact Hb|]. eauto.
  - constructor; [done|]. rewrite insert_by_perm. constructor; [|done].
    destruct (leb_total a b); congruence.
Qed.

Lemma sort_by_sorted l : StronglySorted (fun x y => leb x y = true) (sort_by l).
Proof using leb_total leb_trans.
  induction l as [|a l IH]; cbn; [constructor|]. by apply insert_by_sorted.
Qed.
End Sort.

(** ** Pages *)

(** A row of a paged query has a creation time and a unique id. *)
Class Row (A : Type) := {
  row_created_at : A -> Z;
  row_id : A -> Z
}.

Section Pages.
Context {A : Type} `{Row A}.

(** [(created_at, id) < (created_at', id')], SQL's row comparison. *)
Definition key_ltb (a b : A) : bool :=
  (row_created_at a <? row_created_at b)
  || ((row_created_at a =? row_created_at b) && (row_id a <? row_id b)).

(** [ORDER BY created_at DESC, id DESC]. *)
Definition desc_leb (a b : A) : bool := negb (key_ltb a b).

(** [LIMIT n]; a negative limit is a database error in PostgreSQL and never
    passed by the callers. *)
Definition sql_limit (n : Z) (l : list A) : list A := take (Z.to_nat n) l.

(** One page of the rows [p] selects: the newest first, after the row
    [before_id] when it is given. The subquery that resolves the cursor looks in
    the rows [scope] selects; when it finds none, the comparison is NULL and
    selects nothing. *)
Definition page (scope p : A -> bool) (limit : Z) (before_id : option Z) (table : list A) : list A :=
  let before r :=
    match before_id with
    | None => true
    | Some id =>
        match List.find (fun c => (row_id c =? id) && scope c) table with
        | Some c => key_ltb r c
        | None => false
        end
    end in
  sql_limit limit (sort_by desc_leb (List.filter (fun r => p r && before r) table)).

(** ** Pagination is complete *)

(** What a client does: ask for the next page with the id of the last row it
    got, until a page comes back short. *)
Fixpoint all_pages (fuel : nat) (scope p : A -> bool) (limit : Z) (before_id : option Z)
    (table : list A) : list A :=
  match fuel with
  | O => []
  | S f =>
      let rows := page scope p limit before_id table in
      match last rows with
      | Some r => rows ++ all_pages f scope p limit (Some (row_id r)) table
      | None => []
      end
  end.

Definition full (p : A -> bool) (table : list A) : list A :=
  sort_by desc_leb (List.filter p table).

Lemma desc_leb_total a b : desc_leb a b = true \/ desc_leb b a = true.
Proof.
  unfold desc_leb, key_ltb. destruct (Z.ltb_spec (row_created_at a) (row_created_at b)),
    (Z.ltb_spec (row_created_at b) (row_created_at a)),
    (Z.eqb_spec (row_created_at a) (row_created_at b)),
    (Z.eqb_spec (row_created_at b) (row_created_at a)),
    (Z.ltb_spec (row_id a) (row_id b)), (Z.ltb_spec (row_id b) (row_id a)); cbn; auto; lia.
Qed.

Lemma key_ltb_spec a b :
  key_ltb a b = true <->
  row_created_at a < row_created_at b \/ (row_created_at a = row_created_at b /\ row_id a < row_id b).
Proof.
  unfold key_ltb. rewrite orb_true_iff, andb_true_iff, !Z.ltb_lt, Z.eqb_eq. done.
Qed.

Lemma desc_leb_spec a b :
  desc_leb a b = true <->
  row_created_at b < row_created_at a \/ (row_created_at a = row_created_at b /\ row_id b <= row_id a).
Proof.
  unfold desc_leb. rewrite negb_true_iff, <- not_true_iff_false, key_ltb_spec. lia.
Qed.

Lemma desc_leb_trans a b c : desc_leb a b = true -> desc_leb b c = true -> desc_leb a c = true.
Proof. rewrite !desc_leb_spec. lia. Qed.

(** Two sorted lists with the same rows and distinct keys are equal. *)
Lemma sorted_unique (l1 l2 : list A) :
  (forall a b, a ∈ l1 -> b ∈ l1 -> row_id a = row_id b -> a = b) ->
  StronglySorted (fun x y => desc_leb x y = true) l1 ->
  StronglySorted (fun x y => desc_leb x y = true) l2 ->
  Permutation l1 l2 -> l1 = l2.
Proof.
  intros Hinj H1. revert l2. induction H1 as [|a l1 H1 IH Ha]; intros l2 H2 HP.
  { by apply Permutation_nil in HP. }
  destruct H2 as [|b l2 H2 Hb].
  { apply Permutation_sym, Permutation_nil in HP. done. }
  assert (a = b) as ->.
  { assert (a ∈ b :: l2) as Hin by (rewrite <- HP; left).
    assert (b ∈ a :: l1) as Hin' by (rewrite HP; left).
    apply elem_of_cons in Hin as [->|Hin]; [done|].
    apply elem_of_cons in Hin' as [->|Hin']; [done|].
    rewrite Forall_forall in Ha, Hb. specialize (Ha b Hin'). specialize (Hb a Hin).
    rewrite desc_leb_spec in Ha, Hb. apply Hinj; [left|by right|lia]. }
  f_equal. apply IH; [|done|by eapply Permutation_cons_inv].
  intros x y Hx Hy. apply Hinj; by right.
Qed.

Lemma sorted_filter (l : list A) (q : A -> bool) :
  StronglySorted (fun x y => desc_leb x y = true) l ->
  StronglySorted (fun x y => desc_leb x y = true) (List.filter q l).
Proof.
  induction 1 as [|a l Hl IH Ha]; cbn; [constructor|].
  destruct (q a); [|done]. constructor; [done|]. rewrite Forall_forall in *.
  intros x Hx. apply Ha. rewrite list_elem_of_In in *. by apply filter_In in Hx as [Hx _].
Qed.

Lemma filter_perm (q : A -> bool) l1 l2 :
  Permutation l1 l2 -> Permutation (List.filter q l1) (List.filter q l2).
Proof.
  induction 1 as [|a ? ? HP IH|a b l|? ? ? HP1 IH1 HP2 IH2]; cbn; [done|..].
  - destruct (q a); [by rewrite IH|done].
  - destruct (q a), (q b); try done. apply perm_swap.
  - by rewrite IH1.
Qed.

Lemma filter_filter (q r : A -> bool) l :
  List.filter q (List.filter r l) = List.filter (fun a => r a && q a) l.
Proof.
  induction l as [|a l IH]; cbn; [done|]. destruct (r a); cbn; [|done].
  destruct (q a); by rewrite IH.
Qed.

Lemma sorted_split (l : list A) pre r post :
  StronglySorted (fun x y => desc_leb x y = true) l -> l = pre ++ r :: post ->
  Forall (fun x => desc_leb x r = true) pre /\ Forall (fun x => desc_leb r x = true) post /\
  StronglySorted (fun x y => desc_leb x y = true) post.
Proof.
  intros Hs. revert pre. induction Hs as [|a l Hs IH Ha]; intros [|b pre]; intros [= -> ->].
  - done.
  - destruct (IH pre eq_refl) as (H1 & H2 & H3). split_and!; try done.
    apply Forall_app in Ha as [_ Ha]. apply Forall_cons in Ha as [Ha _]. by constructor.
Qed.

Lemma filter_none (q : A -> bool) l : Forall (fun x => q x = false) l -> List.filter q l = [].
Proof. induction 1 as [|a l Ha Hl IH]; cbn; [done|]. by rewrite Ha. Qed.

Lemma filter_all (q : A -> bool) l : Forall (fun x => q x = true) l -> List.filter q l = l.
Proof. induction 1 as [|a l Ha Hl IH]; cbn; [done|]. by rewrite Ha, IH. Qed.

Lemma nodup_ids_inj (l : list A) a b :
  NoDup (map row_id l) -> a ∈ l -> b ∈ l -> row_id a = row_id b -> a = b.
Proof.
  induction l as [|c l IH]; cbn; [set_solver|]. intros Hnd Ha Hb Hab.
  apply NoDup_cons in Hnd as [Hc Hnd]. rewrite list_elem_of_fmap in Hc.
  apply elem_of_cons in Ha as [->|Ha], Hb as [->|Hb]; [done| | |by apply IH].
  - exfalso. apply Hc. by exists b.
  - exfalso. apply Hc. by exists a.
Qed.

Lemma nodup_ids_filter (q : A -> bool) (l : list A) :
  NoDup (map row_id l) -> NoDup (map row_id (List.filter q l)).
Proof.
  induction l as [|c l IH]; cbn; [done|]. intros Hnd.
  apply NoDup_cons in Hnd as [Hc Hnd]. destruct (q c); [|by apply IH].
  cbn. constructor; [|by apply IH]. rewrite list_elem_of_fmap in *.
  intros (x & Hx & Hin). apply Hc. exists x. split; [done|].
  rewrite list_elem_of_In in *. by apply filter_In in Hin as [Hin _].
Qed.

Section Complete.
Variables (scope p : A -> bool) (table : list A).
Hypothesis ids_unique : NoDup (map row_id table).
Hypothesis p_in_scope : forall a, p a = true -> scope a = true.

Lemma full_elem a : a ∈ full p table <-> p a = true /\ a ∈ table.
Proof.
  unfold full. rewrite (sort_by_perm desc_leb), !list_elem_of_In, filter_In. naive_solver.
Qed.

Lemma full_sorted : StronglySorted (fun x y => desc_leb x y = true) (full p table).
Proof. apply sort_by_sorted; eauto using desc_leb_total, desc_leb_trans. Qed.

Lemma full_nodup : NoDup (map row_id (full p table)).
Proof using ids_unique.
  unfold full. rewrite (sort_by_perm desc_leb). by apply nodup_ids_filter.
Qed.

(** The cursor selects exactly the rows after it. *)
Lemma filter_before pre r post :
  full p table = pre ++ r :: post ->
  List.filter (fun x => key_ltb x r) (pre ++ r :: post) = post.
Proof using ids_unique.
  intros Hf. destruct (sorted_split _ pre r post full_sorted Hf) as (Hpre & Hpost & _).
  pose proof full_nodup as Hnd. rewrite Hf, map_app in Hnd. cbn in Hnd.
  apply NoDup_app in Hnd as (_ & _ & Hnd). apply NoDup_cons in Hnd as [Hr _].
  rewrite List.filter_app. cbn [List.filter].
  replace (key_ltb r r) with false
    by (symmetry; apply not_true_iff_false; rewrite key_ltb_spec; lia).
  rewrite filter_none, filter_all; [done|..].
  - rewrite Forall_forall in *. intros x Hx. specialize (Hpost x Hx).
    apply desc_leb_spec in Hpost. apply key_ltb_spec.
    assert (row_id x <> row_id r).
    { intros E. apply Hr. rewrite list_elem_of_fmap. by exists x. }
    lia.
  - eapply Forall_impl; [exact Hpre|]. intros x. unfold desc_leb. by rewrite negb_true_iff.
Qed.

(** A page is the next segment of the full list. *)
Lemma page_segment limit pre r post :
  full p table = pre ++ r :: post ->
  page scope p limit (Some (row_id r)) table = sql_limit limit post.
Proof using ids_unique p_in_scope.
  intros Hf. unfold page. f_equal.
  assert (Hr : p r = true /\ r ∈ table).
  { apply full_elem. rewrite Hf. set_solver. }
  destruct (List.find _ table) as [c|] eqn:Efind.
  2:{ exfalso. destruct Hr as [Hp Hin]. apply list_elem_of_In in Hin.
      pose proof (List.find_none _ _ Efind r Hin) as Hn. cbn in Hn.
      rewrite Z.eqb_refl, (p_in_scope _ Hp) in Hn. done. }
  assert (c = r) as ->.
  { apply List.find_some in Efind as [Hin Hc]. apply andb_true_iff in Hc as [Hc _].
    apply Z.eqb_eq in Hc. apply list_elem_of_In in Hin.
    by eapply nodup_ids_inj; [|exact Hin|apply Hr|]. }
  rewrite <- filter_filter.
  apply sorted_unique.
  - intros a b Ha Hb Hab. eapply nodup_ids_inj; [|exact Ha|exact Hb|done].
    rewrite (sort_by_perm desc_leb). by do 2 apply nodup_ids_filter.
  - apply sort_by_sorted; eauto using desc_leb_total, desc_leb_trans.
  - apply (sorted_split _ pre r post full_sorted Hf).
  - rewrite (sort_by_perm desc_leb). etrans; [|apply reflexive_eq, (filter_before _ _ _ Hf)].
    apply filter_perm. rewrite <- Hf. unfold full. by rewrite (sort_by_perm desc_leb).
Qed.

Lemma all_pages_segment fuel limit pre r post :
  1 <= limit -> full p table = pre ++ r :: post -> (length post <= fuel)%nat ->
  all_pages (S fuel) scope p limit (Some (row_id r)) table = post.
Proof using ids_unique p_in_scope.
  intros Hlim. revert pre r post. induction fuel as [|fuel IH]; intros pre r post Hf Hlen.
  - destruct post; [|cbn in Hlen; lia]. cbn [all_pages].
    rewrite (page_segment _ _ _ _ Hf). unfold sql_limit. by rewrite take_nil.
  - remember (S fuel) as f eqn:Ef. cbn [all_pages]. rewrite (page_segment _ _ _ _ Hf).
    destruct (last (sql_limit limit post)) as [x|] eqn:El.
    + apply last_Some in El as [mid Hmid].
      assert (Hpost : post = mid ++ x :: drop (Z.to_nat limit) post).
      { rewrite <- (take_drop (Z.to_nat limit) post) at 1. unfold sql_limit in Hmid.
        rewrite Hmid. by rewrite <- app_assoc. }
      rewrite Hmid. rewrite (IH (pre ++ r :: mid) x (drop (Z.to_nat limit) post)).
      * rewrite <- app_assoc. by symmetry.
      * rewrite <- app_assoc. cbn. by rewrite <- Hpost.
      * rewrite length_drop. lia.
    + apply last_None in El. destruct post; [done|].
      unfold sql_limit in El. destruct (Z.to_nat limit) eqn:E; [lia|done].
Qed.

Lemma page_first limit : page scope p limit None table = sql_limit limit (full p table).
Proof.
  unfold page, full. do 2 f_equal. apply filter_ext. intros a. apply andb_true_r.
Qed.

Lemma all_pages_full limit :
  1 <= limit -> all_pages (S (S (length table))) scope p limit None table = full p table.
Proof using ids_unique p_in_scope.
  intros Hlim. remember (S (length table)) as f eqn:Ef. cbn [all_pages]. rewrite page_first.
  destruct (last (sql_limit limit (full p table))) as [x|] eqn:El.
  - apply last_Some in El as [mid Hmid].
    assert (Hfull : full p table = mid ++ x :: drop (Z.to_nat limit) (full p table)).
    { rewrite <- (take_drop (Z.to_nat limit) (full p table)) at 1. unfold sql_limit in Hmid.
      rewrite Hmid. by rewrite <- app_assoc. }
    rewrite Hmid, Ef, (all_pages_segment (length table) limit mid x _ Hlim Hfull).
    + rewrite <- app_assoc. by symmetry.
    + rewrite length_drop. unfold full. rewrite (Permutation_length (sort_by_perm desc_leb _)).
      pose proof (List.filter_length_le p table). lia.
  - apply last_None in El. destruct (full p table); [done|].
    unfold sql_limit in El. destruct (Z.to_nat limit) eqn:E; [lia|done].
Qed.
End Complete.
End Pages.
End Paging.
