(* ===== verification/Store.v ===== *)
(** * The store: deposits, withdrawals, addresses and payment links

    [crates/store/src/{models,ingest,addresses,payment_links,wallets}.rs] over
    the tables they use. A table is the list of its rows in insertion order; the
    constraints are those of [crates/store/migrations]: CHECK constraints are
    evaluated first, then the unique indexes, then the foreign keys, and a
    violated one leaves the table as it was. A timestamp is a number of
    microseconds. Identifiers come from a counter, for [gen_random_uuid()], which
    does not repeat. Where SQL leaves the order of equal rows open, table order is
    used. *)

From S2P Require Import Prelude Db Paging.

Module Store.
Import Db Paging.
Local Open Scope db_scope.

Definition Uuid := Z.

(** ** Rows *)

Record Wallet := mkWallet {
  w_id : Uuid;
  w_network : string;
  w_stellar_account_g : string;
  w_sealed_ciphertext : option (list Z);
  w_sealed_nonce : option (list Z);
  w_sealed_salt : option (list Z);
  w_sealed_scheme : option Z;
  w_next_muxed_id : Z;
  w_label : option string;
  w_user_id : option Uuid;
  w_description : option string;
  w_custody : string;
  w_encrypted_backup : option string;
  w_gas_tank_account_g : option string;
  w_created_at : Z;
  w_updated_at : Z;
  w_archived_at : option Z;
  w_ingest_streaming : bool;
  w_ingest_paused : bool;
  w_ingest_paused_at : option Z
}.

Definition is_client_custody (w : Wallet) : bool := bool_decide (w_custody w = "client").
Definition is_archived (w : Wallet) : bool := bool_decide (is_Some (w_archived_at w)).

Record Address := mkAddress {
  a_id : Uuid;
  a_wallet_id : Uuid;
  a_muxed_id : Z;
  a_muxed_address : string;
  a_customer_ref : option string;
  a_metadata : json;
  a_created_at : Z
}.

Record Transaction := mkTransaction {
  tx_id : Uuid;
  tx_wallet_id : Uuid;
  tx_address_id : option Uuid;
  tx_direction : string;
  tx_asset_code : string;
  tx_asset_issuer : option string;
  tx_amount_stroops : Z;
  tx_source_account : option string;
  tx_destination_account : option string;
  tx_stellar_tx_hash : option string;
  tx_operation_index : option Z;
  tx_horizon_op_id : option string;
  tx_ledger : option Z;
  tx_memo_id : option Z;
  tx_status : string;
  tx_reference : option string;
  tx_metadata : list (string * json);
  tx_created_at : Z
}.

Record NewDeposit := mkNewDeposit {
  d_wallet_id : Uuid;
  d_address_id : option Uuid;
  d_asset_code : string;
  d_asset_issuer : option string;
  d_amount_stroops : Z;
  d_source_account : option string;
  d_destination_account : option string;
  d_stellar_tx_hash : string;
  d_operation_index : Z;
  d_horizon_op_id : string;
  d_ledger : option Z;
  d_memo_id : option Z
}.

Record NewWithdrawalTransaction := mkNewWithdrawalTransaction {
  nw_wallet_id : Uuid;
  nw_asset_code : string;
  nw_asset_issuer : option string;
  nw_amount_stroops : Z;
  nw_source_account : string;
  nw_destination_account : string;
  nw_stellar_tx_hash : option string;
  nw_status : string;
  nw_ledger : option Z;
  nw_max_time : option Z
}.

Record IngestCursor := mkIngestCursor {
  ic_wallet_id : Uuid;
  ic_paging_token : option string;
  ic_updated_at : Z;
  ic_last_polled_at : option Z
}.

Record PaymentLink := mkPaymentLink {
  pl_id : Uuid;
  pl_wallet_id : Uuid;
  pl_address_id : Uuid;
  pl_slug : string;
  pl_name : string;
  pl_description : option string;
  pl_image_url : option string;
  pl_redirect_url : option string;
  pl_amount_usdc_stroops : option Z;
  pl_active : bool;
  pl_created_at : Z;
  pl_updated_at : Z;
  pl_expires_at : option Z;
  pl_cancelled_at : option Z
}.

Record PaymentLinkPayment := mkPaymentLinkPayment {
  p_id : Uuid;
  p_payment_link_id : Uuid;
  p_transaction_id : option Uuid;
  p_address_id : option Uuid;
  p_payer_name : option string;
  p_payer_email : option string;
  p_amount_usdc_stroops : Z;
  p_status : string;
  p_created_at : Z
}.

Record Withdrawal := mkWithdrawal {
  wd_id : Uuid;
  wd_wallet_id : Uuid;
  wd_idempotency_key : string;
  wd_destination_account : string;
  wd_asset_code : string;
  wd_asset_issuer : option string;
  wd_amount_stroops : Z;
  wd_memo_id : option Z;
  wd_status : string;
  wd_stellar_tx_hash : option string;
  wd_error : option string;
  wd_created_at : Z;
  wd_updated_at : Z
}.

Record NewWithdrawal := mkNewWithdrawal {
  n_wallet_id : Uuid;
  n_idempotency_key : string;
  n_destination_account : string;
  n_asset_code : string;
  n_asset_issuer : option string;
  n_amount_stroops : Z;
  n_memo_id : option Z
}.

Record State := mkState {
  next_uuid : Uuid;
  wallets : list Wallet;
  addresses : list Address;
  transactions : list Transaction;
  ingest_cursor : list IngestCursor;
  payment_links : list PaymentLink;
  payment_link_payments : list PaymentLinkPayment;
  withdrawals : list Withdrawal
}.

Definition set_wallets (s : State) (v : list Wallet) : State :=
  mkState (next_uuid s) v (addresses s) (transactions s)
          (ingest_cursor s) (payment_links s) (payment_link_payments s) (withdrawals s).
Definition set_addresses (s : State) (v : list Address) : State :=
  mkState (next_uuid s) (wallets s) v (transactions s)
          (ingest_cursor s) (payment_links s) (payment_link_payments s) (withdrawals s).
Definition set_transactions (s : State) (v : list Transaction) : State :=
  mkState (next_uuid s) (wallets s) (addresses s) v
          (ingest_cursor s) (payment_links s) (payment_link_payments s) (withdrawals s).
Definition set_ingest_cursor (s : State) (v : list IngestCursor) : State :=
  mkState (next_uuid s) (wallets s) (addresses s) (transactions s)
          v (payment_links s) (payment_link_payments s) (withdrawals s).
Definition set_payment_links (s : State) (v : list PaymentLink) : State :=
  mkState (next_uuid s) (wallets s) (addresses s) (transactions s)
          (ingest_cursor s) v (payment_link_payments s) (withdrawals s).
Definition set_payments (s : State) (v : list PaymentLinkPayment) : State :=
  mkState (next_uuid s) (wallets s) (addresses s) (transactions s)
          (ingest_cursor s) (payment_links s) v (withdrawals s).
Definition set_withdrawals (s : State) (v : list Withdrawal) : State :=
  mkState (next_uuid s) (wallets s) (addresses s) (transactions s)
          (ingest_cursor s) (payment_links s) (payment_link_payments s) v.
Definition bump (s : State) : State :=
  mkState (next_uuid s + 1) (wallets s) (addresses s) (transactions s)
          (ingest_cursor s) (payment_links s) (payment_link_payments s) (withdrawals s).

(** SQL's [UPDATE ... WHERE p SET f]. *)
Definition update_where {A} (p : A -> bool) (f : A -> A) (l : list A) : list A :=
  map (fun r => if p r then f r else r) l.

Definition count_where {A} (p : A -> bool) (l : list A) : Z := Z.of_nat (length (List.filter p l)).

Lemma update_where_key {A B} (key : A -> B) p f l :
  (forall a, key (f a) = key a) -> map key (update_where p f l) = map key l.
Proof. intros Hf. unfold update_where. rewrite map_map. apply map_ext. intros a. by destruct (p a). Qed.

Lemma update_where_Forall {A} (P Q : A -> Prop) (p : A -> bool) (f : A -> A) (l : list A) :
  Forall P l -> (forall r, r ∈ l -> P r -> if p r then Q (f r) else Q r) -> Forall Q (update_where p f l).
Proof.
  intros HP Hf. unfold update_where. rewrite Forall_forall in HP |- *.
  intros r' (r & -> & Hr)%list_elem_of_fmap. specialize (Hf r Hr (HP r Hr)). by destruct (p r).
Qed.

Lemma count_where_cons {A} (p : A -> bool) x l :
  count_where p (x :: l) = (if p x then 1 else 0) + count_where p l.
Proof. unfold count_where. cbn. destruct (p x); cbn; lia. Qed.

Lemma count_where_pos {A} (p : A -> bool) l : 0 < count_where p l -> exists x, x ∈ l /\ p x = true.
Proof.
  induction l as [|x l IH]; [done|]. rewrite count_where_cons. intros H.
  destruct (p x) eqn:E; [exists x; split; [left|done]|].
  destruct IH as (z & Hz & Ez); [lia|]. exists z. split; [by right|done].
Qed.

Lemma find_elem {A} (p : A -> bool) l x : List.find p l = Some x -> x ∈ l /\ p x = true.
Proof. intros [H ?]%List.find_some. split; [by apply list_elem_of_In|done]. Qed.

(** [SELECT ... ORDER BY key ASC LIMIT 1]. *)
Fixpoint first_by {A} (key : A -> Z) (l : list A) : option A :=
  match l with
  | [] => None
  | a :: r => match first_by key r with
              | Some b => if key a <=? key b then Some a else Some b
              | None => Some a
              end
  end.

(** Equality of two nullable columns: NULL equals nothing. *)
Definition sql_eq {A} `{EqDecision A} (a b : option A) : bool :=
  match a, b with Some x, Some y => bool_decide (x = y) | _, _ => false end.

(** ** Transactions *)

(** The unique indexes [uq_tx_onchain], [uq_tx_horizon_op_id] and
    [idx_tx_withdrawal_unique], and the primary key. *)
Definition tx_violates (t r : Transaction) : option string :=
  if bool_decide (tx_id t = tx_id r) then Some "transactions_pkey"
  else if sql_eq (tx_stellar_tx_hash t) (tx_stellar_tx_hash r)
          && sql_eq (tx_operation_index t) (tx_operation_index r) then Some "uq_tx_onchain"
  else if sql_eq (tx_horizon_op_id t) (tx_horizon_op_id r) then Some "uq_tx_horizon_op_id"
  else if bool_decide (tx_wallet_id t = tx_wallet_id r)
          && sql_eq (tx_stellar_tx_hash t) (tx_stellar_tx_hash r)
          && bool_decide (tx_direction t = "withdrawal")
          && bool_decide (tx_direction r = "withdrawal") then Some "idx_tx_withdrawal_unique"
  else None.

Definition first_violation {A} (f : A -> option string) (l : list A) : option string :=
  head (omap f l).

Definition tx_status_ok (st : string) : bool :=
  bool_decide (st ∈ ["pending"; "confirmed"; "failed"]).
Definition tx_direction_ok (d : string) : bool := bool_decide (d ∈ ["deposit"; "withdrawal"]).

Definition tx_checks (t : Transaction) : bool :=
  (0 <? tx_amount_stroops t) && tx_status_ok (tx_status t) && tx_direction_ok (tx_direction t).

Definition tx_foreign_keys (s : State) (t : Transaction) : bool :=
  existsb (fun w => bool_decide (w_id w = tx_wallet_id t)) (wallets s)
  && match tx_address_id t with
     | Some a => existsb (fun r => bool_decide (a_id r = a)) (addresses s)
     | None => true
     end.

Definition insert_transaction (t : Transaction) (s : State) : result Transaction sqlx_error * State :=
  if negb (tx_checks t) then (Err OtherDbError, s) else
  match first_violation (tx_violates t) (transactions s) with
  | Some c => (Err (UniqueViolation c), s)
  | None =>
      if tx_foreign_keys s t
      then (Ok t, bump (set_transactions s (transactions s ++ [t])))
      else (Err OtherDbError, s)
  end.

Definition deposit_row (d : NewDeposit) (id now : Z) : Transaction :=
  mkTransaction id (d_wallet_id d) (d_address_id d) "deposit" (d_asset_code d) (d_asset_issuer d)
    (d_amount_stroops d) (d_source_account d) (d_destination_account d)
    (Some (d_stellar_tx_hash d)) (Some (d_operation_index d)) (Some (d_horizon_op_id d))
    (d_ledger d) (d_memo_id d) "confirmed" None [] now.

#[export] Instance Transaction_row : Row Transaction :=
  {| row_created_at := tx_created_at; row_id := tx_id |}.
#[export] Instance Address_row : Row Address :=
  {| row_created_at := a_created_at; row_id := a_id |}.
#[export] Instance PaymentLink_row : Row PaymentLink :=
  {| row_created_at := pl_created_at; row_id := pl_id |}.
#[export] Instance PaymentLinkPayment_row : Row PaymentLinkPayment :=
  {| row_created_at := p_created_at; row_id := p_id |}.

Section Methods.
Context {X : Type}.
Notation M := (M State X).

Definition record_deposit (d : NewDeposit) : M (result (option Transaction) StoreError) :=
  do r <- db_call (fun now s => insert_transaction (deposit_row d (next_uuid s) now) s);
  ret match r with
      | Ok tx => Ok (Some tx)
      | Err e => match from_sqlx_conflict e with
                 | Conflict => Ok None
                 | other => Err other
                 end
      end.

Definition set_tx_address (a : Uuid) (t : Transaction) : Transaction :=
  mkTransaction (tx_id t) (tx_wallet_id t) (Some a) (tx_direction t) (tx_asset_code t)
    (tx_asset_issuer t) (tx_amount_stroops t) (tx_source_account t) (tx_destination_account t)
    (tx_stellar_tx_hash t) (tx_operation_index t) (tx_horizon_op_id t) (tx_ledger t)
    (tx_memo_id t) (tx_status t) (tx_reference t) (tx_metadata t) (tx_created_at t).

(** [UPDATE transactions SET address_id = $2 WHERE id = $1 AND address_id IS NULL],
    with the foreign key of the new value. *)
Definition attribute_stmt (transaction_id address_id : Uuid) (now : Z) (s : State) :
    result unit sqlx_error * State :=
  let p t := bool_decide (tx_id t = transaction_id) && bool_decide (tx_address_id t = None) in
  if existsb p (transactions s)
     && negb (existsb (fun r => bool_decide (a_id r = address_id)) (addresses s))
  then (Err OtherDbError, s)
  else (Ok tt, set_transactions s (update_where p (set_tx_address address_id) (transactions s))).

Definition attribute_quarantined_deposit (transaction_id address_id : Uuid) :
    M (result unit StoreError) :=
  do r <- db_call (attribute_stmt transaction_id address_id);
  ret (map_err from_sqlx r).

Definition list_transactions (wallet_id : Uuid) (limit : Z) (before_id : option Uuid) :
    M (result (list Transaction) StoreError) :=
  do r <- query (fun _ s =>
    page (fun _ => true) (fun t => bool_decide (tx_wallet_id t = wallet_id))
         limit before_id (transactions s));
  ret (map_err from_sqlx r).

Definition list_quarantined_transactions (wallet_id : Uuid) :
    M (result (list Transaction) StoreError) :=
  do r <- query (fun _ s =>
    sort_by desc_leb
      (List.filter (fun t => bool_decide (tx_wallet_id t = wallet_id)
                             && bool_decide (tx_direction t = "deposit")
                             && bool_decide (tx_address_id t = None)) (transactions s)));
  ret (map_err from_sqlx r).

Record TransactionFilter := mkTransactionFilter {
  f_direction : option string;
  f_status : option string;
  f_asset_code : option string;
  f_asset_issuer : option string;
  f_from : option Z;
  f_to : option Z
}.

Definition null_or {A} (o : option A) (p : A -> bool) : bool :=
  match o with None => true | Some a => p a end.

Definition filter_row (wallet_id : Uuid) (f : TransactionFilter) (t : Transaction) : bool :=
  bool_decide (tx_wallet_id t = wallet_id)
  && null_or (f_direction f) (fun v => bool_decide (tx_direction t = v))
  && null_or (f_status f) (fun v => bool_decide (tx_status t = v))
  && null_or (f_asset_code f) (fun v => bool_decide (tx_asset_code t = v))
  && null_or (f_asset_issuer f) (fun v => bool_decide (tx_asset_issuer t = Some v))
  && null_or (f_from f) (fun v => v <=? tx_created_at t)
  && null_or (f_to f) (fun v => tx_created_at t <? v).

(** *** Withdrawal history *)

Definition withdrawal_row (n : NewWithdrawalTransaction) (id now : Z) : Transaction :=
  mkTransaction id (nw_wallet_id n) None "withdrawal" (nw_asset_code n) (nw_asset_issuer n)
    (nw_amount_stroops n) (Some (nw_source_account n)) (Some (nw_destination_account n))
    (nw_stellar_tx_hash n) None None (nw_ledger n) None (nw_status n) None
    (match nw_max_time n with Some t => [("max_time", JNum t)] | None => [] end) now.

Definition set_outcome (status : string) (ledger : option Z) (meta : list (string * json))
    (t : Transaction) : Transaction :=
  mkTransaction (tx_id t) (tx_wallet_id t) (tx_address_id t) (tx_direction t) (tx_asset_code t)
    (tx_asset_issuer t) (tx_amount_stroops t) (tx_source_account t) (tx_destination_account t)
    (tx_stellar_tx_hash t) (tx_operation_index t) (tx_horizon_op_id t)
    (match ledger with Some l => Some l | None => tx_ledger t end)
    (tx_memo_id t) status (tx_reference t) meta (tx_created_at t).

(** The row a withdrawal insert conflicts with in [idx_tx_withdrawal_unique]. *)
Definition withdrawal_conflict (n : NewWithdrawalTransaction) (t : Transaction) : bool :=
  bool_decide (tx_wallet_id t = nw_wallet_id n)
  && sql_eq (tx_stellar_tx_hash t) (nw_stellar_tx_hash n)
  && bool_decide (tx_direction t = "withdrawal").

(** [INSERT ... ON CONFLICT DO UPDATE SET ... WHERE status = 'pending']. *)
Definition record_withdrawal_stmt (n : NewWithdrawalTransaction) (now : Z) (s : State) :
    result (option Transaction) sqlx_error * State :=
  if negb (tx_checks (withdrawal_row n (next_uuid s) now)) then (Err OtherDbError, s) else
  match List.find (withdrawal_conflict n) (transactions s) with
  | Some t =>
      if bool_decide (tx_status t = "pending") then
        let t' := set_outcome (nw_status n) (nw_ledger n) (tx_metadata t) t in
        (Ok (Some t'),
         set_transactions s
           (update_where (fun r => bool_decide (tx_id r = tx_id t)) (fun _ => t') (transactions s)))
      else (Ok None, s)
  | None =>
      match insert_transaction (withdrawal_row n (next_uuid s) now) s with
      | (Ok t, s') => (Ok (Some t), s')
      | (Err e, s') => (Err e, s')
      end
  end.

Definition record_withdrawal_transaction (n : NewWithdrawalTransaction) :
    M (result (option Transaction) StoreError) :=
  do r <- db_call (record_withdrawal_stmt n);
  ret (map_err from_sqlx r).

(** [older_than] in microseconds. *)
Definition list_stale_pending_withdrawals (older_than limit : Z) :
    M (result (list Transaction) StoreError) :=
  do r <- query (fun now s =>
    take (Z.to_nat limit)
      (sort_by (fun a b => tx_created_at a <=? tx_created_at b)
        (List.filter (fun t => bool_decide (tx_direction t = "withdrawal")
                               && bool_decide (tx_status t = "pending")
                               && (tx_created_at t <? now - older_than)) (transactions s))));
  ret (map_err from_sqlx r).

(** [metadata || jsonb_build_object(k, v)]. *)
Definition json_set (k : string) (v : json) (m : list (string * json)) : list (string * json) :=
  List.filter (fun '(k', _) => bool_decide (k' <> k)) m ++ [(k, v)].

Definition settle_stmt (id : Uuid) (status : string) (ledger : option Z) (reason : option string)
    (now : Z) (s : State) : result bool sqlx_error * State :=
  let p t := bool_decide (tx_id t = id) && bool_decide (tx_direction t = "withdrawal")
             && bool_decide (tx_status t = "pending") in
  let f t := set_outcome status ledger
               (match reason with
                | None => tx_metadata t
                | Some r => json_set "reconcile_reason" (JStr r) (tx_metadata t)
                end) t in
  let n := count_where p (transactions s) in
  if (0 <? n) && negb (tx_status_ok status) then (Err OtherDbError, s)
  else (Ok (0 <? n), set_transactions s (update_where p f (transactions s))).

Definition settle_pending_withdrawal (id : Uuid) (status : string) (ledger : option Z)
    (reason : option string) : M (result bool StoreError) :=
  do r <- db_call (settle_stmt id status ledger reason);
  ret (map_err from_sqlx r).

(** *** Withdrawal intents *)

Definition withdrawal_status_ok (st : string) : bool :=
  bool_decide (st ∈ ["pending"; "submitted"; "confirmed"; "failed"]).

Definition withdrawal_key (wallet_id : Uuid) (key : string) (d : Withdrawal) : bool :=
  bool_decide (wd_wallet_id d = wallet_id) && bool_decide (wd_idempotency_key d = key).

Definition withdrawal_exists (wallet_id : Uuid) (idempotency_key : string) :
    M (result bool StoreError) :=
  do r <- query (fun _ s => existsb (withdrawal_key wallet_id idempotency_key) (withdrawals s));
  ret (map_err from_sqlx r).

Definition create_withdrawal_stmt (n : NewWithdrawal) (now : Z) (s : State) :
    result Withdrawal sqlx_error * State :=
  if negb (0 <? n_amount_stroops n) then (Err OtherDbError, s)
  else if existsb (withdrawal_key (n_wallet_id n) (n_idempotency_key n)) (withdrawals s)
  then (Err (UniqueViolation "withdrawals_wallet_id_idempotency_key_key"), s)
  else if negb (existsb (fun w => bool_decide (w_id w = n_wallet_id n)) (wallets s))
  then (Err OtherDbError, s)
  else
    let d := mkWithdrawal (next_uuid s) (n_wallet_id n) (n_idempotency_key n)
               (n_destination_account n) (n_asset_code n) (n_asset_issuer n) (n_amount_stroops n)
               (n_memo_id n) "pending" None None now now in
    (Ok d, bump (set_withdrawals s (withdrawals s ++ [d]))).

Definition create_withdrawal (n : NewWithdrawal) : M (result Withdrawal StoreError) :=
  do r <- db_call (create_withdrawal_stmt n);
  ret (map_err from_sqlx_conflict r).

Definition update_withdrawal_stmt (id : Uuid) (status : string) (hash : option string) (now : Z)
    (s : State) : result unit sqlx_error * State :=
  let p d := bool_decide (wd_id d = id) in
  let f d := mkWithdrawal (wd_id d) (wd_wallet_id d) (wd_idempotency_key d)
               (wd_destination_account d) (wd_asset_code d) (wd_asset_issuer d)
               (wd_amount_stroops d) (wd_memo_id d) status hash (wd_error d)
               (wd_created_at d) now in
  if existsb p (withdrawals s) && negb (withdrawal_status_ok status) then (Err OtherDbError, s)
  else (Ok tt, set_withdrawals s (update_where p f (withdrawals s))).

Definition update_withdrawal_status (id : Uuid) (status : string) (stellar_tx_hash : option string) :
    M (result unit StoreError) :=
  do r <- db_call (update_withdrawal_stmt id status stellar_tx_hash);
  ret (map_err from_sqlx r).

(** *** Received totals *)

Definition is_confirmed_deposit_of (address_id : Uuid) (t : Transaction) : bool :=
  bool_decide (tx_address_id t = Some address_id)
  && bool_decide (tx_direction t = "deposit") && bool_decide (tx_status t = "confirmed").

(** [SUM(...)::bigint]: the cast of an out-of-range sum is an error. *)
Definition sum_bigint (l : list Z) : option Z := try_i64 (foldr Z.add 0 l).

Definition sum_deposits_for_address (address_id : Uuid) : M (result Z StoreError) :=
  do r <- db_call (fun _ s =>
    (ok_or (sum_bigint (map tx_amount_stroops
              (List.filter (is_confirmed_deposit_of address_id) (transactions s)))) OtherDbError, s));
  ret (map_err from_sqlx r).

(** *** Ingest cursor *)

Definition cursor_of (s : State) (wallet_id : Uuid) : option string :=
  match List.find (fun c => bool_decide (ic_wallet_id c = wallet_id)) (ingest_cursor s) with
  | Some c => ic_paging_token c
  | None => None
  end.

Definition get_cursor (wallet_id : Uuid) : M (result (option string) StoreError) :=
  do r <- query (fun _ s => cursor_of s wallet_id);
  ret (map_err from_sqlx r).

(** [INSERT ... ON CONFLICT (wallet_id) DO UPDATE]. *)
Definition upsert_cursor (wallet_id : Uuid) (fresh : IngestCursor)
    (upd : IngestCursor -> IngestCursor) (s : State) : result unit sqlx_error * State :=
  let p c := bool_decide (ic_wallet_id c = wallet_id) in
  if existsb p (ingest_cursor s)
  then (Ok tt, set_ingest_cursor s (update_where p upd (ingest_cursor s)))
  else if existsb (fun w => bool_decide (w_id w = wallet_id)) (wallets s)
  then (Ok tt, set_ingest_cursor s (ingest_cursor s ++ [fresh]))
  else (Err OtherDbError, s).

Definition set_cursor_stmt (wallet_id : Uuid) (paging_token : string) (now : Z) (s : State) :
    result unit sqlx_error * State :=
  upsert_cursor wallet_id (mkIngestCursor wallet_id (Some paging_token) now None)
    (fun c => mkIngestCursor wallet_id (Some paging_token) now (ic_last_polled_at c)) s.

Definition set_cursor (wallet_id : Uuid) (paging_token : string) : M (result unit StoreError) :=
  do r <- db_call (set_cursor_stmt wallet_id paging_token);
  ret (map_err from_sqlx r).

(** [updated_at] of a cursor created by a poll is the epoch, 0. *)
Definition mark_polled_stmt (wallet_id : Uuid) (now : Z) (s : State) :
    result unit sqlx_error * State :=
  upsert_cursor wallet_id (mkIngestCursor wallet_id None 0 (Some now))
    (fun c => mkIngestCursor wallet_id (ic_paging_token c) (ic_updated_at c) (Some now)) s.

Definition mark_polled (wallet_id : Uuid) : M (result unit StoreError) :=
  do r <- db_call (mark_polled_stmt wallet_id);
  ret (map_err from_sqlx r).

(** *** Addresses *)

Definition address_by_muxed_id (wallet_id : Uuid) (muxed_id : Z) :
    M (result (option Address) StoreError) :=
  do r <- query (fun _ s =>
    List.find (fun a => bool_decide (a_wallet_id a = wallet_id)
                        && bool_decide (a_muxed_id a = muxed_id)) (addresses s));
  ret (map_err from_sqlx r).
End Methods.

(** *** Reads of the API *)

Section Reads.
Context {D X : Type} {tables : Part State D}.
Notation M := (M D X).

Definition list_transactions_page (wallet_id : Uuid) (f : TransactionFilter) (limit : Z)
    (before_id : option Uuid) : M (result (list Transaction) StoreError) :=
  do r <- part_query (fun _ s =>
    page (fun t => bool_decide (tx_wallet_id t = wallet_id)) (filter_row wallet_id f)
         limit before_id (transactions s));
  ret (map_err from_sqlx r).

Definition get_transaction (id : Uuid) : M (result (option Transaction) StoreError) :=
  do r <- part_query (fun _ s => List.find (fun t => bool_decide (tx_id t = id)) (transactions s));
  ret (map_err from_sqlx r).

Definition get_address (id : Uuid) : M (result (option Address) StoreError) :=
  do r <- part_query (fun _ s => List.find (fun a => bool_decide (a_id a = id)) (addresses s));
  ret (map_err from_sqlx r).

Definition address_by_customer_ref (wallet_id : Uuid) (customer_ref : string) :
    M (result (option Address) StoreError) :=
  do r <- part_query (fun _ s =>
    List.find (fun a => bool_decide (a_wallet_id a = wallet_id)
                        && bool_decide (a_customer_ref a = Some customer_ref)) (addresses s));
  ret (map_err from_sqlx r).

Definition list_addresses (wallet_id : Uuid) (limit : Z) (before_id : option Uuid) :
    M (result (list Address) StoreError) :=
  do r <- part_query (fun _ s =>
    page (fun _ => true) (fun t => bool_decide (a_wallet_id t = wallet_id))
         limit before_id (addresses s));
  ret (map_err from_sqlx r).

(** [SELECT id, SUM(..)::bigint .. WHERE id = ANY(ids) AND .. GROUP BY id]: the rows of each id that
    has some. *)
Fixpoint group_sums (amounts_of : Uuid -> list Z) (ids : list Uuid) : option (list (Uuid * Z)) :=
  match ids with
  | [] => Some []
  | id :: rest =>
      let* tail := group_sums amounts_of rest in
      match amounts_of id with
      | [] => Some tail
      | amounts => let* total := sum_bigint amounts in Some ((id, total) :: tail)
      end
  end.

Definition sum_deposits_for_addresses (address_ids : list Uuid) : M (result (list (Uuid * Z)) StoreError) :=
  match address_ids with
  | [] => ret (Ok [])
  | _ =>
      do r <- part_call (fun _ s =>
        (ok_or (group_sums (fun id => map tx_amount_stroops (List.filter (is_confirmed_deposit_of id) (transactions s))) address_ids)
           OtherDbError, s));
      ret (map_err from_sqlx r)
  end.
End Reads.

(** ** Lemmas on the statements *)

Lemma first_violation_Some {A} (f : A -> option string) l c :
  first_violation f l = Some c -> exists x, x ∈ l /\ f x = Some c.
Proof.
  unfold first_violation. intros Hh.
  assert (c ∈ omap f l) as Hin by (destruct (omap f l); [done|]; injection Hh as ->; left).
  by apply list_elem_of_omap in Hin.
Qed.

Lemma first_violation_None {A} (f : A -> option string) l x :
  first_violation f l = None -> x ∈ l -> f x = None.
Proof.
  unfold first_violation. intros Hn Hin. destruct (f x) as [c|] eqn:E; [|done].
  assert (c ∈ omap f l) as Hc by (apply list_elem_of_omap; eauto).
  destruct (omap f l); [by apply elem_of_nil in Hc|done].
Qed.

Lemma sql_eq_true {A} `{EqDecision A} (a b : option A) :
  sql_eq a b = true <-> exists x, a = Some x /\ b = Some x.
Proof.
  unfold sql_eq. destruct a, b; try naive_solver. rewrite bool_decide_eq_true. naive_solver.
Qed.

Lemma cursor_of_upsert wallet_id fresh upd tok s :
  ic_wallet_id fresh = wallet_id -> ic_paging_token fresh = Some tok ->
  (forall c, ic_wallet_id (upd c) = wallet_id /\ ic_paging_token (upd c) = Some tok) ->
  fst (upsert_cursor wallet_id fresh upd s) = Ok tt ->
  cursor_of (snd (upsert_cursor wallet_id fresh upd s)) wallet_id = Some tok.
Proof.
  intros Hw Ht Hu. unfold upsert_cursor, cursor_of.
  destruct (existsb _ (ingest_cursor s)) eqn:E; cbn.
  - intros _. induction (ingest_cursor s) as [|c l IH]; cbn in *; [done|].
    destruct (bool_decide (ic_wallet_id c = wallet_id)) eqn:Ec; cbn in *.
    + destruct (Hu c) as [-> Hp]. by rewrite bool_decide_eq_true_2.
    + rewrite Ec. by apply IH.
  - case_match; cbn; [|done]. intros _. induction (ingest_cursor s) as [|c l IH]; cbn in *.
    + by rewrite Hw, bool_decide_eq_true_2.
    + apply orb_false_iff in E as [-> E]. by apply IH.
Qed.

Lemma upsert_cursor_tables wallet_id fresh upd s :
  transactions (snd (upsert_cursor wallet_id fresh upd s)) = transactions s /\
  next_uuid (snd (upsert_cursor wallet_id fresh upd s)) = next_uuid s.
Proof. unfold upsert_cursor. repeat case_match; done. Qed.

End Store.
