(* ===== verification/PaymentLinks.v ===== *)
(** * Payment links

    [crates/store/src/payment_links.rs] and the lifecycle methods of
    [PaymentLink] in [models.rs]: creation, activation, cancellation, edits,
    payer intents, the settlement of an intent by a deposit, and what the deletion
    of the merchant's account ([account.rs]) does to both tables. The properties
    are about every interleaving of these statements. *)

From S2P Require Import Prelude Db Paging Store.

Module PaymentLinks.
Import Db Paging Store.
Local Open Scope db_scope.

Definition is_closed_at (l : PaymentLink) (now : Z) : bool :=
  bool_decide (is_Some (pl_cancelled_at l))
  || match pl_expires_at l with Some e => e <=? now | None => false end.

Definition status_at (l : PaymentLink) (now : Z) : string :=
  if bool_decide (is_Some (pl_cancelled_at l)) then "cancelled"
  else if match pl_expires_at l with Some e => e <=? now | None => false end then "expired"
  else if pl_active l then "active" else "inactive".

Record NewPaymentLink := mkNewPaymentLink {
  nl_wallet_id : Uuid;
  nl_address_id : Uuid;
  nl_slug : string;
  nl_name : string;
  nl_description : option string;
  nl_image_url : option string;
  nl_redirect_url : option string;
  nl_amount_usdc_stroops : option Z;
  nl_expires_at : option Z
}.

Record PaymentLinkUpdate := mkPaymentLinkUpdate {
  u_description : option (option string);
  u_redirect_url : option (option string);
  u_amount_usdc_stroops : option (option Z)
}.

(** ** Statements *)

Definition create_stmt (n : NewPaymentLink) (now : Z) (s : State) :
    result PaymentLink sqlx_error * State :=
  if existsb (fun l => bool_decide (pl_slug l = nl_slug n)) (payment_links s)
  then (Err (UniqueViolation "payment_links_slug_key"), s)
  else if existsb (fun w => bool_decide (w_id w = nl_wallet_id n)) (wallets s)
       && existsb (fun a => bool_decide (a_id a = nl_address_id n)) (addresses s)
  then
    let l := mkPaymentLink (next_uuid s) (nl_wallet_id n) (nl_address_id n) (nl_slug n) (nl_name n)
               (nl_description n) (nl_image_url n) (nl_redirect_url n) (nl_amount_usdc_stroops n)
               true now now (nl_expires_at n) None in
    (Ok l, bump (set_payment_links s (payment_links s ++ [l])))
  else (Err OtherDbError, s).

Definition owned (wallet_id id : Uuid) (l : PaymentLink) : bool :=
  bool_decide (pl_id l = id) && bool_decide (pl_wallet_id l = wallet_id).

(** [UPDATE payment_links SET f WHERE p RETURNING *], by a unique id. *)
Definition update_link (p : PaymentLink -> bool) (f : PaymentLink -> PaymentLink) (s : State) :
    result (option PaymentLink) sqlx_error * State :=
  (Ok (option_map f (List.find p (payment_links s))),
   set_payment_links s (update_where p f (payment_links s))).

Definition set_active (active : bool) (now : Z) (l : PaymentLink) : PaymentLink :=
  mkPaymentLink (pl_id l) (pl_wallet_id l) (pl_address_id l) (pl_slug l) (pl_name l)
    (pl_description l) (pl_image_url l) (pl_redirect_url l) (pl_amount_usdc_stroops l)
    active (pl_created_at l) now (pl_expires_at l) (pl_cancelled_at l).

Definition set_active_stmt (wallet_id id : Uuid) (active : bool) (now : Z) (s : State) :
    result (option PaymentLink) sqlx_error * State :=
  update_link (fun l => owned wallet_id id l
                        && (bool_decide (pl_cancelled_at l = None) || negb active))
              (set_active active now) s.

Definition set_cancelled (now : Z) (l : PaymentLink) : PaymentLink :=
  mkPaymentLink (pl_id l) (pl_wallet_id l) (pl_address_id l) (pl_slug l) (pl_name l)
    (pl_description l) (pl_image_url l) (pl_redirect_url l) (pl_amount_usdc_stroops l)
    false (pl_created_at l) now (pl_expires_at l)
    (match pl_cancelled_at l with Some t => Some t | None => Some now end).

Definition set_payment_status (status : string) (tx : option Uuid) (p : PaymentLinkPayment) :
    PaymentLinkPayment :=
  mkPaymentLinkPayment (p_id p) (p_payment_link_id p) tx (p_address_id p) (p_payer_name p)
    (p_payer_email p) (p_amount_usdc_stroops p) status (p_created_at p).

Definition is_pending (p : PaymentLinkPayment) : bool := bool_decide (p_status p = "pending").

(** [UPDATE payment_link_payments SET status = ... WHERE q AND status = 'pending'
    RETURNING *]: the flipped rows. *)
Definition flip_pending (q : PaymentLinkPayment -> bool)
    (f : PaymentLinkPayment -> PaymentLinkPayment) (s : State) :
    list PaymentLinkPayment * State :=
  (map f (List.filter (fun p => q p && is_pending p) (payment_link_payments s)),
   set_payments s (update_where (fun p => q p && is_pending p) f (payment_link_payments s))).

(** The transaction of [cancel_payment_link]. *)
Definition cancel_stmt (wallet_id id : Uuid) (now : Z) (s : State) :
    result (option (PaymentLink * list PaymentLinkPayment)) sqlx_error * State :=
  match update_link (owned wallet_id id) (set_cancelled now) s with
  | (Ok (Some link), s1) =>
      let '(cancelled, s2) :=
        flip_pending (fun p => bool_decide (p_payment_link_id p = pl_id link))
                     (fun p => set_payment_status "cancelled" (p_transaction_id p) p) s1 in
      (Ok (Some (link, cancelled)), s2)
  | _ => (Ok None, s)
  end.

Definition locks_link (id : Uuid) (p : PaymentLinkPayment) : bool :=
  bool_decide (p_payment_link_id p = id)
  && bool_decide (p_status p ∈ ["pending"; "confirmed"; "underpaid"; "overpaid"]).

Definition edit_link (u : PaymentLinkUpdate) (now : Z) (l : PaymentLink) : PaymentLink :=
  mkPaymentLink (pl_id l) (pl_wallet_id l) (pl_address_id l) (pl_slug l) (pl_name l)
    (default (pl_description l) (u_description u)) (pl_image_url l)
    (default (pl_redirect_url l) (u_redirect_url u))
    (default (pl_amount_usdc_stroops l) (u_amount_usdc_stroops u))
    (pl_active l) (pl_created_at l) now (pl_expires_at l) (pl_cancelled_at l).

Definition update_unpaid_stmt (wallet_id id : Uuid) (u : PaymentLinkUpdate) (now : Z) (s : State) :
    result (option PaymentLink) sqlx_error * State :=
  update_link (fun l => owned wallet_id id l
                        && negb (existsb (locks_link (pl_id l)) (payment_link_payments s)))
              (edit_link u now) s.

Definition intent_stmt (payment_link_id : Uuid) (payer_name payer_email : option string)
    (amount_usdc_stroops : Z) (address_id : option Uuid) (now : Z) (s : State) :
    result PaymentLinkPayment sqlx_error * State :=
  if existsb (fun l => bool_decide (pl_id l = payment_link_id)) (payment_links s)
     && null_or address_id (fun a => existsb (fun r => bool_decide (a_id r = a)) (addresses s))
  then
    let p := mkPaymentLinkPayment (next_uuid s) payment_link_id None address_id payer_name
               payer_email amount_usdc_stroops "pending" now in
    (Ok p, bump (set_payments s (payment_link_payments s ++ [p])))
  else (Err OtherDbError, s).

Definition payment_status_ok (st : string) : bool :=
  bool_decide (st ∈ ["pending"; "confirmed"; "expired"; "underpaid"; "overpaid"; "cancelled"]).

(** [UPDATE ... SET status, transaction_id WHERE id = $ AND status = 'pending'],
    with the CHECK constraint and the foreign key of the new values. *)
Definition settle_payment_stmt (id transaction_id : Uuid) (status : string) (now : Z) (s : State) :
    result bool sqlx_error * State :=
  let '(flipped, s') :=
    flip_pending (fun p => bool_decide (p_id p = id))
                 (set_payment_status status (Some transaction_id)) s in
  if bool_decide (flipped <> [])
     && negb (payment_status_ok status
              && existsb (fun t => bool_decide (tx_id t = transaction_id)) (transactions s))
  then (Err OtherDbError, s)
  else (Ok (Z.of_nat (length flipped) =? 1), s').

Definition confirm_stmt (id transaction_id : Uuid) :=
  settle_payment_stmt id transaction_id "confirmed".

(** [interval '1 hour'] in microseconds. *)
Definition one_hour : Z := 3600 * 1000000.

Definition expire_stmt (now : Z) (s : State) :
    result (list PaymentLinkPayment) sqlx_error * State :=
  let stale p :=
    (p_created_at p <? now - one_hour)
    || existsb (fun l => bool_decide (pl_id l = p_payment_link_id p)
                         && match pl_expires_at l with Some e => e <=? now | None => false end)
               (payment_links s) in
  let '(flipped, s') :=
    flip_pending stale (fun p => set_payment_status "expired" (p_transaction_id p) p) s in
  (Ok flipped, s').

(** ** Store methods *)

Section Methods.
Context {D X : Type} {tables : Part State D}.
Notation M := (M D X).

Definition create_payment_link (n : NewPaymentLink) : M (result PaymentLink StoreError) :=
  do r <- part_call (create_stmt n);
  ret (map_err from_sqlx_conflict r).

Definition get_payment_link (wallet_id id : Uuid) : M (result PaymentLink StoreError) :=
  do r <- part_query (fun _ s => List.find (owned wallet_id id) (payment_links s));
  ret (let? o := map_err from_sqlx r in ok_or o NotFound).

Definition get_payment_link_by_slug (slug : string) : M (result PaymentLink StoreError) :=
  do r <- part_query (fun _ s => List.find (fun l => bool_decide (pl_slug l = slug)) (payment_links s));
  ret (let? o := map_err from_sqlx r in ok_or o NotFound).

Definition get_payment_link_by_id (id : Uuid) : M (result (option PaymentLink) StoreError) :=
  do r <- part_query (fun _ s => List.find (fun l => bool_decide (pl_id l = id)) (payment_links s));
  ret (map_err from_sqlx r).

Definition list_payment_links (wallet_id : Uuid) (limit : Z) (before_id : option Uuid) :
    M (result (list PaymentLink) StoreError) :=
  do r <- part_query (fun _ s =>
    page (fun _ => true) (fun l => bool_decide (pl_wallet_id l = wallet_id))
         limit before_id (payment_links s));
  ret (map_err from_sqlx r).

(** The shared tail of the two guarded updates: no row means that the link is
    not this wallet's, or that the guard refused it. *)
Definition refused (wallet_id id : Uuid) (updated : option PaymentLink) :
    M (result PaymentLink StoreError) :=
  match updated with
  | Some link => ret (Ok link)
  | None =>
      try _ <- get_payment_link wallet_id id | (fun e => e);
      ret (Err Conflict)
  end.

Definition set_payment_link_active (wallet_id id : Uuid) (active : bool) :
    M (result PaymentLink StoreError) :=
  try updated <- part_call (set_active_stmt wallet_id id active) | from_sqlx;
  refused wallet_id id updated.

Definition cancel_payment_link (wallet_id id : Uuid) :
    M (result (PaymentLink * list PaymentLinkPayment) StoreError) :=
  try r <- part_call (cancel_stmt wallet_id id) | from_sqlx;
  ret (ok_or r NotFound).

Definition update_unpaid_payment_link (wallet_id id : Uuid) (u : PaymentLinkUpdate) :
    M (result PaymentLink StoreError) :=
  try updated <- part_call (update_unpaid_stmt wallet_id id u) | from_sqlx;
  refused wallet_id id updated.

Definition record_payment_link_intent (payment_link_id : Uuid) (payer_name payer_email : option string)
    (amount_usdc_stroops : Z) (address_id : option Uuid) : M (result PaymentLinkPayment StoreError) :=
  do r <- part_call (intent_stmt payment_link_id payer_name payer_email amount_usdc_stroops address_id);
  ret (map_err from_sqlx r).

Definition get_payment_link_payment (payment_link_id id : Uuid) :
    M (result PaymentLinkPayment StoreError) :=
  do r <- part_query (fun _ s =>
    List.find (fun p => bool_decide (p_id p = id)
                        && bool_decide (p_payment_link_id p = payment_link_id))
              (payment_link_payments s));
  ret (let? o := map_err from_sqlx r in ok_or o NotFound).

Definition list_payment_link_payments (payment_link_id : Uuid) (limit : Z) (before_id : option Uuid) :
    M (result (list PaymentLinkPayment) StoreError) :=
  do r <- part_query (fun _ s =>
    page (fun _ => true) (fun p => bool_decide (p_payment_link_id p = payment_link_id))
         limit before_id (payment_link_payments s));
  ret (map_err from_sqlx r).

Definition sum_payment_link_collected (payment_link_id : Uuid) : M (result Z StoreError) :=
  do r <- part_call (fun _ s =>
    (ok_or (sum_bigint (map p_amount_usdc_stroops
       (List.filter (fun p => bool_decide (p_payment_link_id p = payment_link_id)
                              && bool_decide (p_status p = "confirmed"))
                    (payment_link_payments s)))) OtherDbError, s));
  ret (map_err from_sqlx r).

Definition sum_payment_link_collected_batch (payment_link_ids : list Uuid) : M (result (list (Uuid * Z)) StoreError) :=
  match payment_link_ids with
  | [] => ret (Ok [])
  | _ =>
      do r <- part_call (fun _ s =>
        (ok_or (group_sums (fun id => map p_amount_usdc_stroops
                  (List.filter (fun p => bool_decide (p_payment_link_id p = id) && bool_decide (p_status p = "confirmed"))
                               (payment_link_payments s))) payment_link_ids) OtherDbError, s));
      ret (map_err from_sqlx r)
  end.
End Methods.

(** What the ingest worker uses, on the tables themselves. *)
Section Matching.
Context {X : Type}.
Notation M := (M State X).

Definition get_payment_link_by_address (address_id : Uuid) :
    M (result (option PaymentLink) StoreError) :=
  do r <- query (fun _ s =>
    List.find (fun l => bool_decide (pl_address_id l = address_id)) (payment_links s));
  ret (map_err from_sqlx r).

Definition pending_payment_by_address (address_id : Uuid) :
    M (result (option PaymentLinkPayment) StoreError) :=
  do r <- query (fun _ s =>
    first_by p_created_at
      (List.filter (fun p => bool_decide (p_address_id p = Some address_id) && is_pending p)
                   (payment_link_payments s)));
  ret (map_err from_sqlx r).

Definition oldest_pending_payment_link_payment (payment_link_id : Uuid) :
    M (result (option PaymentLinkPayment) StoreError) :=
  do r <- query (fun _ s =>
    first_by p_created_at
      (List.filter (fun p => bool_decide (p_payment_link_id p = payment_link_id) && is_pending p)
                   (payment_link_payments s)));
  ret (map_err from_sqlx r).

Definition confirm_payment_link_payment (id transaction_id : Uuid) : M (result bool StoreError) :=
  do r <- db_call (confirm_stmt id transaction_id);
  ret (map_err from_sqlx r).

Definition mark_payment_link_payment_mismatched (id transaction_id : Uuid) (status : string) :
    M (result bool StoreError) :=
  do r <- db_call (settle_payment_stmt id transaction_id status);
  ret (map_err from_sqlx r).

Definition expire_stale_payment_link_payments : M (result (list PaymentLinkPayment) StoreError) :=
  do r <- db_call expire_stmt;
  ret (map_err from_sqlx r).
End Matching.

(** ** What the deletion of an account does to its links

    From [Store::delete_account]: the links of the user's wallets [ids] are closed, and the names and
    emails of their payers are cleared, whatever the status of the payment. *)

Definition close_link (now : Z) (l : PaymentLink) : PaymentLink :=
  mkPaymentLink (pl_id l) (pl_wallet_id l) (pl_address_id l) (pl_slug l) (pl_name l)
    (pl_description l) (pl_image_url l) (pl_redirect_url l) (pl_amount_usdc_stroops l) false
    (pl_created_at l) now (pl_expires_at l) (pl_cancelled_at l).

Definition scrub_payer (p : PaymentLinkPayment) : PaymentLinkPayment :=
  mkPaymentLinkPayment (p_id p) (p_payment_link_id p) (p_transaction_id p) (p_address_id p)
    None None (p_amount_usdc_stroops p) (p_status p) (p_created_at p).

Definition retire_links (ids : list Uuid) (now : Z) (s : State) : State :=
  let mine l := bool_decide (pl_wallet_id l ∈ ids) in
  let links := map pl_id (List.filter mine (payment_links s)) in
  set_payments (set_payment_links s (update_where mine (close_link now) (payment_links s)))
    (update_where (fun p => bool_decide (p_payment_link_id p ∈ links)) scrub_payer (payment_link_payments s)).

(** ** Every interleaving of the statements *)

Inductive step : State -> State -> Prop :=
| step_create n now s : step s (snd (create_stmt n now s))
| step_set_active w i a now s : step s (snd (set_active_stmt w i a now s))
| step_cancel w i now s : step s (snd (cancel_stmt w i now s))
| step_update w i u now s : step s (snd (update_unpaid_stmt w i u now s))
| step_intent l n e a ad now s : step s (snd (intent_stmt l n e a ad now s))
| step_settle i t st now s : step s (snd (settle_payment_stmt i t st now s))
| step_expire now s : step s (snd (expire_stmt now s))
| step_retire ids now s : step s (retire_links ids now s).

Definition steps : State -> State -> Prop := rtc step.

(** What was settled: everything of the row but who paid. *)
Definition settlement (p : PaymentLinkPayment) : Uuid * Uuid * option Uuid * option Uuid * Z * string * Z :=
  (p_id p, p_payment_link_id p, p_transaction_id p, p_address_id p, p_amount_usdc_stroops p, p_status p, p_created_at p).

(** The payer's data, as it was or cleared. *)
Definition payer_kept (p p' : PaymentLinkPayment) : Prop :=
  (p_payer_name p' = p_payer_name p /\ p_payer_email p' = p_payer_email p) \/ (p_payer_name p' = None /\ p_payer_email p' = None).

(** A payment that is settled has its row. *)
Definition settled (p : PaymentLinkPayment) (s : State) : Prop :=
  p_status p <> "pending" /\
  exists p', p' ∈ payment_link_payments s /\ settlement p' = settlement p /\ payer_kept p p'.

(** A row is as good as another with the same settlement. *)
Lemma settled_row p p' s' :
  p_status p <> "pending" -> settlement p' = settlement p -> payer_kept p p' ->
  (p_status p' <> "pending" -> exists p2, p2 ∈ payment_link_payments s' /\ settlement p2 = settlement p' /\ payer_kept p' p2) ->
  settled p s'.
Proof.
  intros Hst Hs Hk Hrow. assert (Hst' : p_status p' <> "pending") by (unfold settlement in Hs; congruence).
  destruct (Hrow Hst') as (p2 & Hin & Hs2 & Hk2). split; [done|]. exists p2. split; [done|]. split; [congruence|].
  unfold payer_kept in *. destruct Hk as [[H1 H2]|[H1 H2]], Hk2 as [[H3 H4]|[H3 H4]]; (left; split; congruence) || (right; split; congruence).
Qed.

Lemma flip_pending_settled q f p s :
  settled p s -> settled p (snd (flip_pending q f s)).
Proof.
  intros [Hst (p' & Hin & Hs & Hk)]. apply (settled_row p p'); [done..|]. intros Hst'.
  exists p'. split; [|split; [done|by left]]. unfold flip_pending. cbn.
  unfold update_where. apply list_elem_of_fmap. exists p'. split; [|done].
  unfold is_pending. by rewrite (bool_decide_eq_false_2 _ Hst'), andb_false_r.
Qed.

Lemma settle_payment_stmt_db i t st now s :
  snd (settle_payment_stmt i t st now s) = s \/
  snd (settle_payment_stmt i t st now s) =
    snd (flip_pending (fun p => bool_decide (p_id p = i)) (set_payment_status st (Some t)) s).
Proof.
  unfold settle_payment_stmt. destruct (flip_pending _ _ _) as [fl s']. case_match; auto.
Qed.

Lemma cancel_stmt_db w i now s :
  snd (cancel_stmt w i now s) = s \/
  exists link, List.find (owned w i) (payment_links s) = Some link /\
  snd (cancel_stmt w i now s) =
    snd (flip_pending (fun p => bool_decide (p_payment_link_id p = pl_id link))
           (fun p => set_payment_status "cancelled" (p_transaction_id p) p)
           (set_payment_links s (update_where (owned w i) (set_cancelled now) (payment_links s)))).
Proof.
  unfold cancel_stmt, update_link. destruct (List.find _ _) as [l|] eqn:E; cbn; [|auto].
  right. exists l. split; [done|]. unfold flip_pending. done.
Qed.

Lemma step_settled p s s' : step s s' -> settled p s -> settled p s'.
Proof.
  intros Hstep Hp. destruct Hstep.
  - unfold create_stmt. repeat case_match; done.
  - exact Hp.
  - destruct (cancel_stmt_db w i now s) as [->|(l & _ & ->)]; [done|].
    by apply flip_pending_settled.
  - exact Hp.
  - unfold intent_stmt. case_match; [|done]. destruct Hp as [Hp Hst]. split; [done|].
    destruct Hst as (p' & Hp' & Hsame). exists p'. split; [|done]. cbn. apply elem_of_app. by left.
  - destruct (settle_payment_stmt_db i t st now s) as [->| ->]; [done|].
    by apply flip_pending_settled.
  - unfold expire_stmt. pose proof (flip_pending_settled) as H.
    match goal with |- context [flip_pending ?q ?f s] => specialize (H q f p s Hp) end.
    destruct (flip_pending _ _ _). done.
  - destruct Hp as [Hst (p' & Hin & Hs & Hk)]. apply (settled_row p p'); [done..|]. intros _.
    set (mine := fun x => bool_decide (p_payment_link_id x ∈ map pl_id (List.filter (fun l => bool_decide (pl_wallet_id l ∈ ids)) (payment_links s)))).
    exists (if mine p' then scrub_payer p' else p'). split; [apply list_elem_of_fmap; by exists p'|].
    unfold payer_kept. destruct (mine p'); auto.
Qed.

(** Cancellation is permanent. *)
Definition cancelled_link (id : Uuid) (at_ : Z) (s : State) : Prop :=
  exists l, l ∈ payment_links s /\ pl_id l = id /\ pl_cancelled_at l = Some at_ /\ pl_active l = false.

Lemma update_where_cancelled id at_ p f s :
  (forall l, p l = true -> pl_cancelled_at l = Some at_ -> pl_active l = false ->
     pl_id (f l) = pl_id l /\ pl_cancelled_at (f l) = Some at_ /\ pl_active (f l) = false) ->
  cancelled_link id at_ s ->
  cancelled_link id at_ (set_payment_links s (update_where p f (payment_links s))).
Proof.
  intros Hf (l & Hin & Hid & Hc & Ha). unfold cancelled_link. cbn.
  exists (if p l then f l else l). split.
  { apply list_elem_of_fmap. by exists l. }
  destruct (p l) eqn:E; [|done]. destruct (Hf l E Hc Ha) as (-> & -> & ->). done.
Qed.

Lemma step_cancelled id at_ s s' : step s s' -> cancelled_link id at_ s -> cancelled_link id at_ s'.
Proof.
  intros Hstep Hc. destruct Hstep.
  - unfold create_stmt. repeat case_match; try done. destruct Hc as (l & Hin & Hl).
    exists l. split; [|done]. cbn. apply elem_of_app. by left.
  - apply update_where_cancelled; [|done]. intros l Hp Hcl Ha. cbn. split_and!; try done.
    rewrite Hcl in Hp. destruct a; [|done]. rewrite (bool_decide_eq_false_2 (Some _ = None)) in Hp by done.
    by rewrite andb_false_r in Hp.
  - destruct (cancel_stmt_db w i now s) as [->|(l & _ & ->)]; [done|].
    cbn. apply (update_where_cancelled id at_ (owned w i) (set_cancelled now) s); [|done].
    intros l' _ Hcl _. cbn. by rewrite Hcl.
  - apply update_where_cancelled; [|done]. done.
  - unfold intent_stmt. case_match; done.
  - destruct (settle_payment_stmt_db i t st now s) as [->| ->]; done.
  - unfold expire_stmt. destruct (flip_pending _ _ _) eqn:E. unfold flip_pending in E.
    injection E as <- <-. done.
  - by apply (update_where_cancelled id at_ (fun l => bool_decide (pl_wallet_id l ∈ ids)) (close_link now) s).
Qed.

(** ** Properties *)

(** C7: a payment intent is settled at most once. Once its status is anything
    but [pending] (confirmed, underpaid, overpaid, expired or cancelled), no
    sequence of store operations on the links and payments, by any number of
    connections, changes its status, amount, transaction, address, link or time
    again: a late or replayed deposit cannot resurrect it. The only change that is
    left is that the deletion of the merchant's account clears the payer's name
    and email. *)
Theorem payment_settles_once (p : PaymentLinkPayment) (s s' : State) :
  p ∈ payment_link_payments s -> p_status p <> "pending" -> steps s s' ->
  exists p', p' ∈ payment_link_payments s' /\ settlement p' = settlement p /\ payer_kept p p'.
Proof.
  intros Hin Hst Hsteps. cut (settled p s'); [by intros []|].
  assert (settled p s) as Hs by (split; [done|]; exists p; split; [done|]; split; [done|by left]). clear Hin Hst.
  induction Hsteps as [|s1 s2 s3 H12 H23 IH]; [done|]. by apply IH, (step_settled p s1).
Qed.

Lemma payment_settles_once_witness :
  let p := mkPaymentLinkPayment 7 1 (Some 3) None (Some "Ada") None 100 "confirmed" 0 in
  let l := mkPaymentLink 1 2 4 "abc" "shop" None None None None true 0 0 None None in
  let s := mkState 8 [] [] [] [] [l] [p] [] in
  let s' := retire_links [2] 60 (snd (settle_payment_stmt 7 4 "overpaid" 50 s)) in
  (exists p', p' ∈ payment_link_payments s' /\ settlement p' = settlement p /\ payer_kept p p') /\
  map p_payer_name (payment_link_payments s') = [None].
Proof.
  cbn zeta. split; [|vm_compute; reflexivity].
  apply (payment_settles_once
           (mkPaymentLinkPayment 7 1 (Some 3) None (Some "Ada") None 100 "confirmed" 0)
           (mkState 8 [] [] [] [] [mkPaymentLink 1 2 4 "abc" "shop" None None None None true 0 0 None None]
              [mkPaymentLinkPayment 7 1 (Some 3) None (Some "Ada") None 100 "confirmed" 0] []));
    [cbn; left | done | eapply rtc_l; [apply step_settle|apply rtc_once, step_retire]].
Defined.

(** Cancellation is permanent. After a cancellation the link keeps its
    first cancellation time and stays inactive through every sequence of store
    operations, and it is closed at every time. *)
Lemma cancelled_forever (id at_ : Z) (s s' : State) :
  cancelled_link id at_ s -> steps s s' ->
  exists l, l ∈ payment_links s' /\ pl_id l = id /\ pl_cancelled_at l = Some at_ /\
            pl_active l = false /\ forall now, is_closed_at l now = true.
Proof.
  intros Hc Hsteps.
  assert (cancelled_link id at_ s') as (l & H1 & H2 & H3 & H4).
  { induction Hsteps as [|s1 s2 s3 H12 H23 IH]; [done|]. by apply IH, (step_cancelled id at_ s1). }
  exists l. split_and!; try done. intros now. unfold is_closed_at. rewrite H3.
  by rewrite bool_decide_eq_true_2.
Qed.

End PaymentLinks.
