(* ===== verification/Addresses.v ===== *)
(** * Allocation of customer addresses

    [crates/store/src/addresses.rs]: one transaction reserves a block of muxed
    ids in the wallet's counter and inserts one address row per id; it takes
    effect as a whole or not at all. The muxed address of an id is computed by
    the caller's closure. *)

From S2P Require Import Prelude Db Paging Store.

Module Addresses.
Import Db Paging Store.
Local Open Scope db_scope.

Record NewAddress := mkNewAddress {
  na_customer_ref : option string;
  na_metadata : json
}.

(** The CHECK constraint and unique indexes of [addresses]. *)
Definition address_violates (a r : Address) : option string :=
  if bool_decide (a_id a = a_id r) then Some "addresses_pkey"
  else if bool_decide (a_wallet_id a = a_wallet_id r) && bool_decide (a_muxed_id a = a_muxed_id r)
  then Some "addresses_wallet_id_muxed_id_key"
  else if bool_decide (a_wallet_id a = a_wallet_id r)
          && sql_eq (a_customer_ref a) (a_customer_ref r)
  then Some "idx_addresses_wallet_customer_ref"
  else None.

Definition insert_address (a : Address) (s : State) : result Address sqlx_error * State :=
  if a_muxed_id a <? 0 then (Err OtherDbError, s) else
  match first_violation (address_violates a) (addresses s) with
  | Some c => (Err (UniqueViolation c), s)
  | None => (Ok a, bump (set_addresses s (addresses s ++ [a])))
  end.

Section Allocate.
Variable wallet_id : Uuid.
(** [muxed_address_for]: the derivation in wallet-core. *)
Variable muxed_address_for : Z -> result string unit.

(** The loop over [(first_id..).zip(new)], inside the transaction. *)
Fixpoint insert_all (now muxed_id : Z) (new : list NewAddress) (s : State) :
    result (list Address) StoreError * State :=
  match new with
  | [] => (Ok [], s)
  | item :: rest =>
      match muxed_address_for muxed_id with
      | Err _ => (Err NotFound, s)
      | Ok muxed_address =>
          let a := mkAddress (next_uuid s) wallet_id muxed_id muxed_address
                     (na_customer_ref item) (na_metadata item) now in
          match insert_address a s with
          | (Err e, s') => (Err (from_sqlx_conflict e), s')
          | (Ok a, s') =>
              let '(r, s'') := insert_all now (muxed_id + 1) rest s' in
              (let? l := r in Ok (a :: l), s'')
          end
      end
  end.

Definition bump_counter (count now : Z) (w : Wallet) : Wallet :=
  mkWallet (w_id w) (w_network w) (w_stellar_account_g w) (w_sealed_ciphertext w)
    (w_sealed_nonce w) (w_sealed_salt w) (w_sealed_scheme w) (w_next_muxed_id w + count)
    (w_label w) (w_user_id w) (w_description w) (w_custody w) (w_encrypted_backup w)
    (w_gas_tank_account_g w) (w_created_at w) now (w_archived_at w)
    (w_ingest_streaming w) (w_ingest_paused w) (w_ingest_paused_at w).

Definition is_wallet (w : Wallet) : bool := bool_decide (w_id w = wallet_id).

(** The transaction. An error leaves the database as it was: the transaction is
    dropped without a commit. *)
Definition allocate_tx (new : list NewAddress) (now : Z) (s : State) :
    result (result (list Address) StoreError) sqlx_error * State :=
  let count := Z.of_nat (length new) in
  match List.find is_wallet (wallets s) with
  | None => (Ok (Err NotFound), s)
  | Some w =>
      if negb (is_i64 (w_next_muxed_id w + count)) then (Err OtherDbError, s) else
      let s1 := set_wallets s (update_where is_wallet (bump_counter count now) (wallets s)) in
      match insert_all now (w_next_muxed_id w) new s1 with
      | (Ok rows, s') => (Ok (Ok rows), s')
      | (Err e, _) => (Ok (Err e), s)
      end
  end.

Context {D X : Type} {tables : Part State D}.
Notation M := (M D X).

Definition allocate_addresses (new : list NewAddress) : M (result (list Address) StoreError) :=
  match new with
  | [] => ret (Ok [])
  | _ =>
      match try_i64 (Z.of_nat (length new)) with
      | None => ret (Err NotFound)
      | Some _ =>
          do r <- part_call (allocate_tx new);
          ret match r with Ok r => r | Err e => Err (from_sqlx e) end
      end
  end.

Definition allocate_address (customer_ref : option string) (metadata : json) :
    M (result Address StoreError) :=
  try rows <- allocate_addresses [mkNewAddress customer_ref metadata] | (fun e => e);
  ret (ok_or (last rows) NotFound).
End Allocate.

(** ** The invariant *)

(** Ids are keys, and a wallet's addresses all have ids below its counter. *)
Record Inv (s : State) : Prop := {
  inv_wallets : NoDup (map w_id (wallets s));
  inv_counter : forall a w, a ∈ addresses s -> w ∈ wallets s -> a_wallet_id a = w_id w ->
    a_muxed_id a < w_next_muxed_id w;
  inv_keys : NoDup (map (fun a => (a_wallet_id a, a_muxed_id a)) (addresses s))
}.

Lemma insert_address_Ok a s a' s' :
  insert_address a s = (Ok a', s') ->
  a' = a /\ addresses s' = addresses s ++ [a] /\ wallets s' = wallets s /\
  (forall r, r ∈ addresses s -> a_wallet_id r = a_wallet_id a -> a_muxed_id r <> a_muxed_id a).
Proof.
  unfold insert_address. destruct (_ <? 0); [done|].
  destruct (first_violation _ _) eqn:E; [done|]. intros [= <- <-]. split_and!; [done..|].
  intros r Hr Hw Hm. pose proof (first_violation_None _ _ _ E Hr) as Hv.
  unfold address_violates in Hv. case_bool_decide; [done|].
  rewrite (bool_decide_eq_true_2 (a_wallet_id a = a_wallet_id r)),
    (bool_decide_eq_true_2 (a_muxed_id a = a_muxed_id r)) in Hv by done. done.
Qed.

Lemma insert_all_Ok wid f now new : forall id s l s',
  insert_all wid f now id new s = (Ok l, s') ->
  map a_muxed_id l = seqZ id (Z.of_nat (length new)) /\ Forall (fun a => a_wallet_id a = wid) l /\
  Forall (fun a => f (a_muxed_id a) = Ok (a_muxed_address a)) l /\
  addresses s' = addresses s ++ l /\ wallets s' = wallets s /\
  (NoDup (map (fun a => (a_wallet_id a, a_muxed_id a)) (addresses s)) ->
   NoDup (map (fun a => (a_wallet_id a, a_muxed_id a)) (addresses s'))).
Proof.
  induction new as [|item new IH]; intros id s l s'; cbn [insert_all].
  { intros [= <- <-]. rewrite app_nil_r. split_and!; try done; constructor. }
  destruct (f id) as [addr|] eqn:Ef; [|done].
  destruct (insert_address _ s) as [[a|e] s1] eqn:Ei; [|done].
  destruct (insert_all wid f now (id + 1) new s1) as [[l'|e] s2] eqn:Er; cbn; [|done].
  intros [= <- <-]. apply insert_address_Ok in Ei as (-> & Ha & Hw & Hfresh).
  destruct (IH _ _ _ _ Er) as (H1 & H2 & H3 & H4 & H5 & H6). cbn [length].
  split_and!.
  - rewrite Nat2Z.inj_succ, seqZ_cons by lia. cbn. rewrite H1. do 2 f_equal. lia.
  - by constructor.
  - by constructor.
  - rewrite H4, Ha. by rewrite <- app_assoc.
  - by rewrite H5, Hw.
  - intros Hnd. apply H6. rewrite Ha, map_app. apply NoDup_app. split_and!; [done| |apply NoDup_singleton].
    intros k Hk Hk'. apply list_elem_of_singleton in Hk' as ->.
    apply list_elem_of_fmap in Hk as (r & Hr & Hin). injection Hr as Hr1 Hr2.
    by eapply Hfresh.
Qed.

Lemma allocate_tx_Ok wid f new now s l s' :
  allocate_tx wid f new now s = (Ok (Ok l), s') ->
  exists w, w ∈ wallets s /\ w_id w = wid /\
    wallets s' = update_where (is_wallet wid) (bump_counter (Z.of_nat (length new)) now) (wallets s) /\
    map a_muxed_id l = seqZ (w_next_muxed_id w) (Z.of_nat (length new)) /\
    Forall (fun a => a_wallet_id a = wid) l /\
    Forall (fun a => f (a_muxed_id a) = Ok (a_muxed_address a)) l /\
    addresses s' = addresses s ++ l /\
    (NoDup (map (fun a => (a_wallet_id a, a_muxed_id a)) (addresses s)) ->
     NoDup (map (fun a => (a_wallet_id a, a_muxed_id a)) (addresses s'))).
Proof.
  unfold allocate_tx. destruct (List.find _ _) as [w|] eqn:Ew; [|done].
  destruct (is_i64 _); cbn [negb]; [|done].
  destruct (insert_all _ _ _ _ _ _) as [[l'|e] s2] eqn:Ei; [|done]. intros [= <- <-].
  apply List.find_some in Ew as [Hin Hw]. apply bool_decide_eq_true in Hw.
  destruct (insert_all_Ok _ _ _ _ _ _ _ _ Ei) as (H1 & H2 & H3 & H4 & H5 & H6).
  exists w. rewrite list_elem_of_In. split_and!; done.
Qed.

Lemma allocate_tx_Inv wid f new now s r s' :
  Inv s -> allocate_tx wid f new now s = (r, s') -> Inv s'.
Proof.
  intros Hi E. destruct r as [[l|e]|e].
  2,3: unfold allocate_tx in E; repeat case_match; by simplify_eq.
  destruct (allocate_tx_Ok _ _ _ _ _ _ _ E) as (w & Hw & Hid & Hws & Hm & Hl & _ & Ha & Hnd).
  destruct Hi as [I1 I2 I3]. constructor.
  - rewrite Hws. by rewrite update_where_key.
  - intros a w' Hin Hin' Haw. rewrite Ha in Hin. rewrite Hws in Hin'.
    apply list_elem_of_fmap in Hin' as (w0 & -> & Hin0).
    assert (Hw0 : w_id (if is_wallet wid w0 then bump_counter (Z.of_nat (length new)) now w0 else w0)
                  = w_id w0) by by destruct (is_wallet wid w0).
    rewrite Hw0 in Haw. apply elem_of_app in Hin as [Hin|Hin].
    + specialize (I2 a w0 Hin Hin0 Haw). destruct (is_wallet wid w0); cbn; lia.
    + rewrite Forall_forall in Hl. specialize (Hl a Hin). rewrite Hl in Haw.
      assert (w0 = w) as ->.
      { clear -I1 Hin0 Hw Haw Hid. assert (w_id w0 = w_id w) as E by congruence.
        induction (wallets s) as [|x ws IH]; cbn in *; [by apply elem_of_nil in Hw|].
        apply NoDup_cons in I1 as [Hx I1]. rewrite list_elem_of_fmap in Hx.
        apply elem_of_cons in Hin0 as [->|Hin0], Hw as [->|Hw]; try done; [..|by apply IH];
          exfalso; apply Hx; eauto. }
      unfold is_wallet. rewrite bool_decide_eq_true_2 by done. cbn.
      assert (a_muxed_id a ∈ seqZ (w_next_muxed_id w) (Z.of_nat (length new))) as Hs.
      { rewrite <- Hm. apply list_elem_of_fmap. by exists a. }
      apply elem_of_seqZ in Hs. lia.
  - by apply Hnd.
Qed.

(** Any number of allocations, by any callers. *)
Inductive alloc_step : State -> State -> Prop :=
| alloc wid f new now s r s' : allocate_tx wid f new now s = (r, s') -> alloc_step s s'.

(** C9: addresses are allocated safely. After any number of allocations for any
    wallets (each a transaction, so in some order), no two address rows share a
    wallet and a muxed id. A successful allocation returns the block of
    consecutive ids that starts at the wallet's counter, with the muxed address
    the caller's derivation gives for each id, and appends exactly these rows; a
    failed one changes nothing at all, the counter included. *)
Theorem allocation_safe (s s1 : State) :
  Inv s -> rtc alloc_step s s1 ->
  NoDup (map (fun a => (a_wallet_id a, a_muxed_id a)) (addresses s1)) /\
  forall wid f new now r s2, allocate_tx wid f new now s1 = (r, s2) ->
    match r with
    | Ok (Ok l) =>
        exists w, w ∈ wallets s1 /\ w_id w = wid /\
          map a_muxed_id l = seqZ (w_next_muxed_id w) (Z.of_nat (length new)) /\
          Forall (fun a => a_wallet_id a = wid /\ f (a_muxed_id a) = Ok (a_muxed_address a)) l /\
          addresses s2 = addresses s1 ++ l /\
          Forall (fun a => Forall (fun b => (a_wallet_id a, a_muxed_id a) <> (a_wallet_id b, a_muxed_id b))
                                  (addresses s1)) l
    | _ => s2 = s1
    end.
Proof.
  intros Hi Hs. assert (Hi1 : Inv s1).
  { induction Hs as [|x y z Hxy Hyz IH]; [done|]. apply IH. destruct Hxy. by eapply allocate_tx_Inv. }
  split; [apply Hi1|]. intros wid f new now r s2 E. destruct r as [[l|e]|e].
  - destruct (allocate_tx_Ok _ _ _ _ _ _ _ E) as (w & Hw & Hid & _ & Hm & Hl & Hf & Ha & Hnd).
    exists w. split_and!; try done; [by apply Forall_and|].
    specialize (Hnd (inv_keys _ Hi1)). rewrite Ha, map_app in Hnd.
    apply NoDup_app in Hnd as (_ & Hdis & _). rewrite !Forall_forall. intros a Hin.
    rewrite Forall_forall. intros b Hb Heq. apply (Hdis (a_wallet_id b, a_muxed_id b)).
    + apply list_elem_of_fmap. by exists b.
    + apply list_elem_of_fmap. exists a. by rewrite Heq.
  - unfold allocate_tx in E. repeat case_match; by simplify_eq.
  - unfold allocate_tx in E. repeat case_match; by simplify_eq.
Qed.

Definition ex_wallet : Wallet :=
  mkWallet 1 "testnet" "G" None None None None 1 None None None "client" None None 0 0 None
    false false None.
Definition ex_state : State := mkState 10 [ex_wallet] [] [] [] [] [] [].
Definition ex_new : list NewAddress := [mkNewAddress (Some "alice") JNull; mkNewAddress None JNull].

Lemma allocation_safe_witness :
  map a_muxed_id (addresses (snd (allocate_tx 1 (fun _ => Ok "M") ex_new 5 ex_state))) = [1; 2] /\
  NoDup (map (fun a => (a_wallet_id a, a_muxed_id a))
           (addresses (snd (allocate_tx 1 (fun _ => Ok "M") ex_new 5 ex_state)))).
Proof.
  split; [vm_compute; reflexivity|].
  apply (allocation_safe ex_state).
  - constructor; cbn.
    + apply NoDup_singleton.
    + intros a w Ha. by apply elem_of_nil in Ha.
    + constructor.
  - apply rtc_once. eapply alloc. apply surjective_pairing.
Defined.

End Addresses.
