(* ===== verification/HorizonIngest.v ===== *)
(** * The ingester's Horizon client

    [crates/ingest/src/horizon.rs]: the records Horizon returns, the three
    read-only requests of the ingester, each run under [Resilience.execute], and
    the classification of HTTP responses.

    The HTTP client, Horizon itself and the JSON decoder are outside: a request
    is answered by an oracle, indexed by the request number, the URL and the
    attempt, and what else happens around an attempt (clock readings, other users
    of the breaker) is a second oracle. *)

From S2P Require Import Prelude Float64 Resilience.

Module HorizonIngest.
Import Resilience.

Inductive HorizonError := Request | Decode | CircuitOpenError.

Record TransactionRecord := mkTransactionRecord {
  tr_memo_type : option string;
  tr_memo : option string;
  tr_ledger : option Z
}.

Record PaymentRecord := mkPaymentRecord {
  r_id : string;
  r_paging_token : string;
  r_kind : string;
  r_transaction_hash : option string;
  r_transaction_successful : bool;
  r_from : option string;
  r_to : option string;
  r_to_muxed : option string;
  r_to_muxed_id : option string;
  r_asset_type : option string;
  r_asset_code : option string;
  r_asset_issuer : option string;
  r_amount : option string;
  r_starting_balance : option string;
  r_transaction : option TransactionRecord;
  r_balance_id : option string;
  r_claimant : option string
}.

Record EffectRecord := mkEffectRecord {
  e_kind : string;
  e_account : option string;
  e_amount : option string;
  e_asset_type : option string;
  e_asset_code : option string;
  e_asset_issuer : option string
}.

Record ClaimCredit := mkClaimCredit {
  cc_amount : string;
  cc_asset_type : option string;
  cc_asset_code : option string;
  cc_asset_issuer : option string
}.

Record ClaimOrigin := mkClaimOrigin {
  co_kind : string;
  co_source_account : option string;
  co_transaction : option TransactionRecord
}.

(** ** Responses *)

Inductive IngestFetchError := Transport | DecodeError | Permanent.

#[export] Instance Retriable_IngestFetchError : Retriable IngestFetchError :=
  fun e => match e with Transport => true | DecodeError | Permanent => false end.

(** What one HTTP request gives: no response, or a status and what the body
    decodes to as a page of records ([None]: not such a page). *)
Inductive http_response (T : Type) : Type :=
| NoResponse
| Response (status : Z) (body : option (list T)).
Arguments NoResponse {T}.
Arguments Response {T} status body.

Definition is_server_error (status : Z) : bool := in_range 500 599 status.
Definition is_success (status : Z) : bool := in_range 200 299 status.

(** The body of the closure of [fetch_records]. *)
Definition classify {T} (r : http_response T) : result (list T) IngestFetchError :=
  match r with
  | NoResponse => Err Transport
  | Response status body =>
      if status =? 404 then Ok []
      else if is_server_error status then Err Transport
      else if negb (is_success status) then Err Permanent
      else ok_or body DecodeError
  end.

Definition map_resilience (e : ResilienceError IngestFetchError) : HorizonError :=
  match e with
  | Circuit => CircuitOpenError
  | Exhausted DecodeError => Decode
  | Exhausted _ => Request
  end.

(** ** URLs *)

Fixpoint trim_end_matches_rev (c : ascii) (l : list ascii) : list ascii :=
  match l with
  | a :: r => if bool_decide (a = c) then trim_end_matches_rev c r else l
  | [] => []
  end.

(** [s.trim_end_matches(c)]. *)
Definition trim_end_matches (c : ascii) (s : string) : string :=
  string_of_list_ascii (rev (trim_end_matches_rev c (rev (list_ascii_of_string s)))).

Definition operations_url (base_url account_g : string) (cursor : option string) (limit : Z) : string :=
  trim_end_matches "/"%char base_url +:+ "/accounts/" +:+ account_g
  +:+ "/operations?order=asc&limit=" +:+ print_dec limit +:+ "&join=transactions"
  +:+ match cursor with Some c => "&cursor=" +:+ c | None => "" end.

Definition effects_url (base_url op_id : string) : string :=
  trim_end_matches "/"%char base_url +:+ "/operations/" +:+ op_id +:+ "/effects?limit=200".

Definition origin_url (base_url balance_id : string) : string :=
  trim_end_matches "/"%char base_url +:+ "/claimable_balances/" +:+ balance_id
  +:+ "/operations?order=asc&limit=1&join=transactions".

(** ** The client *)

(** Everything around one attempt but its response. *)
Record Timing := mkTiming {
  tm_during_call : list event;
  tm_fail : Z;
  tm_check : Z;
  tm_probe : Z;
  tm_during_sleep : list event
}.

(** The outside of the client. *)
Record Outside := mkOutside {
  powi : Float64.f64 -> Z -> Float64.f64;
  http_operations : nat -> string -> nat -> http_response PaymentRecord;
  http_effects : nat -> string -> nat -> http_response EffectRecord;
  http_origin : nat -> string -> nat -> http_response ClaimOrigin;
  timing : nat -> nat -> Timing;
  first_check : nat -> Z * Z
}.

(** The client: its base URL, its retry policy and the shared breaker, with the
    number of requests made so far. *)
Record HorizonPayments := mkHorizonPayments {
  hp_base_url : string;
  hp_retry : RetryPolicy;
  hp_circuit : CircuitBreaker;
  hp_requests : nat
}.

Definition HorizonPayments_with_resilience (base_url : string) (retry : RetryPolicy)
    (circuit : CircuitBreaker) : HorizonPayments := mkHorizonPayments base_url retry circuit 0.

Definition HorizonPayments_new (base_url : string) : HorizonPayments :=
  HorizonPayments_with_resilience base_url RetryPolicy_default
    (CircuitBreaker_new 5 (30 * 1000000000)).

Section Client.
Variable out : Outside.

(** A request; [None] is a panic inside [execute]. *)
Definition fetch_records {T} (http : nat -> string -> nat -> http_response T) (url : string)
    (h : HorizonPayments) :
    option (result (list T) (ResilienceError IngestFetchError)) * HorizonPayments :=
  let n := hp_requests h in
  let env k :=
    let t := timing out n k in
    mkRound (tm_during_call t) (classify (http n url k)) (tm_fail t) (tm_check t) (tm_probe t)
            (tm_during_sleep t) in
  let x := execute (powi out) (hp_retry h) env ReadOnly (hp_circuit h)
                   (fst (first_check out n)) (snd (first_check out n)) in
  (returned x, mkHorizonPayments (hp_base_url h) (hp_retry h) (breaker x) (S n)).

Definition payments_after (account_g : string) (cursor : option string) (limit : Z)
    (h : HorizonPayments) : option (result (list PaymentRecord) HorizonError) * HorizonPayments :=
  let '(r, h') := fetch_records (http_operations out)
                    (operations_url (hp_base_url h) account_g cursor limit) h in
  (option_map (map_err map_resilience) r, h').

(** The first [account_credited] effect of the account. *)
Definition find_credit (account_g : string) (effects : list EffectRecord) : option ClaimCredit :=
  let* e := List.find (fun e => bool_decide (e_kind e = "account_credited")
                                && bool_decide (e_account e = Some account_g)) effects in
  let* amount := e_amount e in
  Some (mkClaimCredit amount (e_asset_type e) (e_asset_code e) (e_asset_issuer e)).

Definition claim_credit (op_id account_g : string) (h : HorizonPayments) :
    option (result (option ClaimCredit) HorizonError) * HorizonPayments :=
  let '(r, h') := fetch_records (http_effects out) (effects_url (hp_base_url h) op_id) h in
  (option_map (fun r =>
     let? effects := map_err map_resilience r in
     Ok (find_credit account_g effects)) r, h').

Definition find_origin (ops : list ClaimOrigin) : option ClaimOrigin :=
  match head ops with
  | Some op => if bool_decide (co_kind op = "create_claimable_balance") then Some op else None
  | None => None
  end.

Definition claimable_balance_origin (balance_id : string) (h : HorizonPayments) :
    option (result (option ClaimOrigin) HorizonError) * HorizonPayments :=
  let '(r, h') := fetch_records (http_origin out) (origin_url (hp_base_url h) balance_id) h in
  (option_map (fun r =>
     let? ops := map_err map_resilience r in
     Ok (find_origin ops)) r, h').

(** ** What a successful request returns *)

(** The records of a response: none for a 404, the decoded page for a success. *)
Definition answered {T} (r : http_response T) (rs : list T) : Prop :=
  match r with
  | NoResponse => False
  | Response status body =>
      (status = 404 /\ rs = []) \/ (is_success status = true /\ body = Some rs)
  end.

Lemma classify_Ok {T} (r : http_response T) rs : classify r = Ok rs -> answered r rs.
Proof.
  unfold classify, answered. destruct r as [|status body]; [done|].
  destruct (Z.eqb_spec status 404); [intros [= <-]; auto|].
  destruct (is_server_error status); [done|]. destruct (is_success status) eqn:E; cbn; [|done].
  destruct body; cbn; [|done]. intros [= <-]. auto.
Qed.

Lemma fetch_records_spec {T} (http : nat -> string -> nat -> http_response T) url h :
  0 <= max_delay_ms (hp_retry h) ->
  (exists r, fst (fetch_records http url h) = Some r /\
     match r with
     | Ok rs => exists k, answered (http (hp_requests h) url k) rs
     | Err _ => True
     end) /\
  hp_retry (snd (fetch_records http url h)) = hp_retry h /\
  hp_base_url (snd (fetch_records http url h)) = hp_base_url h.
Proof.
  intros Hp. unfold fetch_records. cbn. split_and!; [|done..].
  set (env := fun k => mkRound _ _ _ _ _ _).
  unfold execute. destruct (check _ _ _) as [[[]|[]] b']; [|by eexists].
  destruct (attempts_explained (powi out) (hp_retry h) Hp env (attempt_limit (hp_retry h) ReadOnly)
              0 None [] b') as ((_ & He) & _); try (intros; lia).
  { pose proof (attempt_limit_pos (hp_retry h) ReadOnly). lia. }
  set (x := attempts _ _ _ _ _ _ _ _) in *.
  destruct (returned x) as [[rs|[|e]]|]; [|by eexists..|done].
  destruct He as (k & _ & Hk). eexists. split; [done|]. exists k. by apply classify_Ok.
Qed.

End Client.
End HorizonIngest.
