(* ===== verification/Ingest.v ===== *)
(** * Deposit ingestion

    [crates/ingest/src/lib.rs]: [Ingestor::process] turns one Horizon operation
    record into a deposit row (or skips it), attributes it to a customer and
    confirms a payment link; [poll_once] processes a page and persists the cursor
    after each record.

    The store is that of [Store] and [PaymentLinks], under the fault schedule of
    [Db]; Horizon is the client of [HorizonIngest]. A webhook dispatch is recorded
    as an effect. *)

From S2P Require Import Prelude Db Amount Toid Float64 Resilience WalletAddress Paging Store PaymentLinks HorizonIngest.

Module Ingest.
Import Db Amount Toid WalletAddress Store PaymentLinks HorizonIngest.
Local Open Scope db_scope.

Definition USDC_TESTNET_ISSUER : string :=
  "GBBD47IF6LWK7P7MDEVSCWR7DPUWV3NY3DTQEVFL4NAT4AQH3ZLLFLA5".

Definition CLAIM_KIND : string := "claim_claimable_balance".

Record Event := mkEvent { event_type : string; event_data : json }.

Inductive Processed :=
| Recorded (attributed : bool)
| Duplicate
| FailedTransaction
| Skipped.

Inductive IngestError := StoreFailed (e : StoreError) | HorizonFailed.

(** Effects outside the database. *)
Inductive effect :=
| Dispatch (wallet_id : Uuid) (event : Event)
| DepositMetric (attributed : bool)
| PollSuccess (wallet_id : Uuid)
(** [LiveStreams::insert] and [remove], and the pause before a stream is opened again (nanoseconds). *)
| StreamOpened (wallet_id : Uuid)
| StreamClosed (wallet_id : Uuid)
| Paused (delay : Z).

(** The state outside the database: the Horizon client and the effects, latest
    first. *)
Record Ext := mkExt {
  x_horizon : HorizonPayments;
  x_effects : list effect
}.

Notation M := (Db.M State Ext).

Definition emit (e : effect) : M unit :=
  ext_call (fun x => (tt, mkExt (x_horizon x) (e :: x_effects x))).

(** A Horizon request; a panic ends the task. *)
Definition horizon_call {A} (f : HorizonPayments -> option (result A HorizonError) * HorizonPayments) :
    M (result A HorizonError) := fun w =>
  let '(r, h) := f (x_horizon (ext w)) in
  let w' := mkWorld (db w) (ticks w) (mkExt h (x_effects (ext w))) in
  match r with Some r => (Ret r, w') | None => (Crashed, w') end.

(** ** Classification of records *)

Definition is_from_successful_tx (rec : PaymentRecord) : bool := r_transaction_successful rec.

Definition is_path_payment (kind : string) : bool :=
  bool_decide (kind = "path_payment_strict_send") || bool_decide (kind = "path_payment_strict_receive").

Definition is_credit_kind (kind : string) : bool :=
  bool_decide (kind = "payment") || bool_decide (kind = "create_account") || is_path_payment kind.

Definition credited_amount (rec : PaymentRecord) : option string :=
  if bool_decide (r_kind rec = "create_account") then r_starting_balance rec else r_amount rec.

Definition is_balance_id (id : string) : bool :=
  negb (is_empty id) && (slen id <=? 80) && str_forall is_ascii_hexdigit id.

Definition page_was_full (records page_limit : Z) : bool :=
  (0 <? page_limit) && (page_limit <=? records).

Record Credit := mkCredit {
  c_amount : string;
  c_asset_type : option string;
  c_asset_code : option string;
  c_asset_issuer : option string;
  c_source_account : option string;
  c_destination_account : option string;
  c_customer_id : option Z;
  c_memo_id : option Z
}.

Definition memo_id_of_tx (tx : TransactionRecord) : option Z :=
  if bool_decide (tr_memo_type tx = Some "id") then
    let* memo := tr_memo tx in parse_i64 memo
  else None.

Section Ingestor.
Context `{Strkey}.
Variable out : Outside.
(** The fields of [Ingestor]; [webhooks] and [tracker] say whether a sender and
    a tracker are attached. *)
Variables (wallet_id : Uuid) (account_g : string) (webhooks tracker : bool).
(** The host clock, for [plausible_max_ledger]. *)
Variable clock : Z.

Definition memo_id (rec : PaymentRecord) : option Z :=
  let* tx := r_transaction rec in memo_id_of_tx tx.

Definition muxed_id (rec : PaymentRecord) : option Z :=
  let* muxed := r_to_muxed rec in
  let* decoded := result_ok (decode_muxed muxed) in
  if bool_decide (base_account decoded = account_g) then try_i64 (dm_id decoded) else None.

Definition attribute (rec : PaymentRecord) : option Z :=
  match muxed_id rec with Some id => Some id | None => memo_id rec end.

Definition direct_credit (rec : PaymentRecord) : option Credit :=
  if negb (is_credit_kind (r_kind rec)) then None
  else if negb (bool_decide (r_to rec = Some account_g)) then None
  else if is_path_payment (r_kind rec) && bool_decide (r_from rec = Some account_g) then None
  else Some (mkCredit (default "" (credited_amount rec))
               (r_asset_type rec) (r_asset_code rec) (r_asset_issuer rec) (r_from rec)
               (match r_to_muxed rec with Some m => Some m | None => r_to rec end)
               (attribute rec) (memo_id rec)).

Definition claim_credit_of (rec : PaymentRecord) : M (result (option Credit) IngestError) :=
  if negb (bool_decide (r_claimant rec = Some account_g)) then ret (Ok None)
  else match r_balance_id rec with
  | Some balance_id =>
      if negb (is_balance_id balance_id) then ret (Ok None) else
      try credited <- horizon_call (claim_credit out (r_id rec) account_g) | (fun _ => HorizonFailed);
      match credited with
      | None => ret (Ok None)
      | Some credited =>
          try origin <- horizon_call (claimable_balance_origin out balance_id) | (fun _ => HorizonFailed);
          let creator := let* o := origin in co_source_account o in
          if bool_decide (creator = Some account_g) then ret (Ok None) else
          let memo := let* o := origin in let* t := co_transaction o in memo_id_of_tx t in
          ret (Ok (Some (mkCredit (cc_amount credited) (cc_asset_type credited)
                           (cc_asset_code credited) (cc_asset_issuer credited)
                           creator (r_claimant rec) memo memo)))
      end
  | None => ret (Ok None)
  end.

(** ** Webhooks and payment links *)

Definition dispatch (e : Event) : M unit :=
  if webhooks then emit (Dispatch wallet_id e) else ret tt.

Definition fire_deposit_webhook (tx : Transaction) : M unit :=
  if negb webhooks then ret tt else
  do metadata <- match tx_address_id tx with
    | Some addr_id =>
        do r <- get_address addr_id;
        ret match r with Ok (Some a) => a_metadata a | _ => JNull end
    | None => ret JNull
    end;
  emit (Dispatch wallet_id (mkEvent "deposit.created" (JObj [
    ("id", JId (tx_id tx)); ("wallet_id", JId (tx_wallet_id tx));
    ("address_id", json_opt JId (tx_address_id tx));
    ("asset_code", JStr (tx_asset_code tx));
    ("asset_issuer", json_opt JStr (tx_asset_issuer tx));
    ("amount_stroops", JNum (tx_amount_stroops tx));
    ("source_account", json_opt JStr (tx_source_account tx));
    ("destination_account", json_opt JStr (tx_destination_account tx));
    ("stellar_tx_hash", json_opt JStr (tx_stellar_tx_hash tx));
    ("memo_id", json_opt JNum (tx_memo_id tx));
    ("status", JStr (tx_status tx));
    ("attributed", JBool (bool_decide (is_Some (tx_address_id tx))));
    ("metadata", metadata)]))).

(** The link and the payment a deposit on [address_id] is for. *)
Definition match_payment (address_id : Uuid) : M (option (PaymentLink * PaymentLinkPayment)) :=
  do exact <- pending_payment_by_address address_id;
  match exact with
  | Ok (Some payment) =>
      do link <- get_payment_link wallet_id (p_payment_link_id payment);
      ret match link with Ok link => Some (link, payment) | Err _ => None end
  | _ =>
      do link <- get_payment_link_by_address address_id;
      match link with
      | Ok (Some link) =>
          do payment <- oldest_pending_payment_link_payment (pl_id link);
          ret match payment with Ok (Some payment) => Some (link, payment) | _ => None end
      | _ => ret None
      end
  end.

Definition confirm_payment_link (tx : Transaction) : M unit :=
  if negb (bool_decide (tx_asset_code tx = "USDC"))
     || negb (bool_decide (tx_asset_issuer tx = Some USDC_TESTNET_ISSUER)) then ret tt else
  match tx_address_id tx with
  | None => ret tt
  | Some address_id =>
      do matched <- match_payment address_id;
      match matched with
      | None => ret tt
      | Some (link, payment) =>
          if is_closed_at link (tx_created_at tx) then ret tt else
          if negb (tx_amount_stroops tx =? p_amount_usdc_stroops payment) then
            let status := if tx_amount_stroops tx <? p_amount_usdc_stroops payment
                          then "underpaid" else "overpaid" in
            do flipped <- mark_payment_link_payment_mismatched (p_id payment) (tx_id tx) status;
            match flipped with
            | Ok true =>
                dispatch (mkEvent "payment_link.mismatched" (JObj [
                  ("payment_link_id", JId (pl_id link)); ("payment_id", JId (p_id payment));
                  ("slug", JStr (pl_slug link));
                  ("payer_name", json_opt JStr (p_payer_name payment));
                  ("payer_email", json_opt JStr (p_payer_email payment));
                  ("status", JStr status);
                  ("expected_usdc_stroops", JNum (p_amount_usdc_stroops payment));
                  ("received_usdc_stroops", JNum (tx_amount_stroops tx));
                  ("stellar_tx_hash", json_opt JStr (tx_stellar_tx_hash tx))]))
            | _ => ret tt
            end
          else
            do flipped <- confirm_payment_link_payment (p_id payment) (tx_id tx);
            match flipped with
            | Ok true =>
                dispatch (mkEvent "payment_link.paid" (JObj [
                  ("payment_link_id", JId (pl_id link)); ("payment_id", JId (p_id payment));
                  ("slug", JStr (pl_slug link));
                  ("payer_name", json_opt JStr (p_payer_name payment));
                  ("payer_email", json_opt JStr (p_payer_email payment));
                  ("amount_usdc_stroops", JNum (p_amount_usdc_stroops payment));
                  ("stellar_tx_hash", json_opt JStr (tx_stellar_tx_hash tx))]))
            | _ => ret tt
            end
      end
  end.

(** ** Processing a record *)

(** The asset columns of a credit. *)
Definition asset_of (c : Credit) : string * option string :=
  match c_asset_type c with
  | None => ("native", None)
  | Some t => if bool_decide (t = "native") then ("native", None)
              else (default "unknown" (c_asset_code c), c_asset_issuer c)
  end.

(** The checked identifier of a record: plausible, and of the ledger the joined
    transaction names, if any. *)
Definition record_toid (rec : PaymentRecord) : option Toid :=
  let ledger_of := let* t := r_transaction rec in tr_ledger t in
  let* t := decode_toid (r_id rec) (plausible_max_ledger clock) in
  if match ledger_of with None => true | Some l => ledger t =? l end then Some t else None.

Definition new_deposit (rec : PaymentRecord) (toid : Toid) (c : Credit) (stroops : Z)
    (address_id : option Uuid) : NewDeposit :=
  mkNewDeposit wallet_id address_id (fst (asset_of c)) (snd (asset_of c)) stroops
    (c_source_account c) (c_destination_account c) (default "" (r_transaction_hash rec))
    (operation_index toid) (r_id rec) (let* t := r_transaction rec in tr_ledger t) (c_memo_id c).

(** Steps 3 to the end: the amount, the attribution and the insert. *)
Definition record_credit (rec : PaymentRecord) (toid : Toid) (c : Credit) :
    M (result Processed IngestError) :=
  match to_stroops (c_amount c) with
  | None => ret (Ok Skipped)
  | Some stroops =>
      if stroops <=? 0 then ret (Ok Skipped) else
      try address <- match c_customer_id c with
        | Some id => address_by_muxed_id wallet_id id
        | None => ret (Ok None)
        end | StoreFailed;
      let address_id := option_map a_id address in
      try recorded <- record_deposit (new_deposit rec toid c stroops address_id) | StoreFailed;
      match recorded with
      | Some tx =>
          let attributed := bool_decide (is_Some address_id) in
          do _ <- emit (DepositMetric attributed);
          do _ <- fire_deposit_webhook tx;
          do _ <- confirm_payment_link tx;
          ret (Ok (Recorded attributed))
      | None => ret (Ok Duplicate)
      end
  end.

Definition process (rec : PaymentRecord) : M (result Processed IngestError) :=
  if negb (is_from_successful_tx rec) then ret (Ok FailedTransaction) else
  match record_toid rec with
  | None => ret (Ok Skipped)
  | Some toid =>
      try credit <- (if bool_decide (r_kind rec = CLAIM_KIND) then claim_credit_of rec
                     else ret (Ok (direct_credit rec))) | (fun e => e);
      match credit with
      | None => ret (Ok Skipped)
      | Some c => record_credit rec toid c
      end
  end.

(** ** Polling *)

Definition record_poll_success : M unit :=
  if tracker then emit (PollSuccess wallet_id) else ret tt.

(** The loop of [poll_once]: process a record, then persist its token. *)
Fixpoint process_all (records : list PaymentRecord) (count : Z) : M (result Z IngestError) :=
  match records with
  | [] => ret (Ok count)
  | rec :: rest =>
      try _ <- process rec | (fun e => e);
      try _ <- set_cursor wallet_id (r_paging_token rec) | StoreFailed;
      process_all rest (count + 1)
  end.

Definition poll_once (limit : Z) : M (result Z IngestError) :=
  try cursor <- get_cursor wallet_id | StoreFailed;
  try records <- horizon_call (payments_after out account_g cursor limit) | (fun _ => HorizonFailed);
  try count <- process_all records 0 | (fun e => e);
  do _ <- record_poll_success;
  ret (Ok count).

End Ingestor.
End Ingest.
