(* ===== verification/ExactlyOnce.v ===== *)
(** * Every credit is recorded exactly once

    The central property of the ingester: whatever statements fail, wherever the
    process dies and whatever other connections do meanwhile, no operation is
    credited twice, and the cursor never passes an operation whose credit is not
    recorded.

    [chain] is the history of the account, oldest operation first. What the code
    relies on of Horizon is stated as hypotheses of the section: a page is the
    segment of the history that follows the cursor, an answer about a claim is
    that claim's, identifiers are unique. *)

From S2P Require Import Prelude Db Amount Toid Float64 Resilience WalletAddress Paging Store PaymentLinks HorizonIngest Ingest.

Module ExactlyOnce.
Import Db Amount Toid WalletAddress Store PaymentLinks HorizonIngest Ingest.

Section Setting.
Context `{Strkey}.
Variable out : Outside.
Variables (wallet_id : Uuid) (account_g : string) (webhooks tracker : bool).
Variables (base_url : string) (retry : Resilience.RetryPolicy).
Variable chain : list PaymentRecord.

(** What Horizon says of a claim operation and of the creation of a balance. *)
Variable claim_fact : string -> option ClaimCredit.
Variable origin_fact : string -> option ClaimOrigin.

(** ** What each operation should credit *)

Definition claim_spec (rec : PaymentRecord) : option Credit :=
  if negb (bool_decide (r_claimant rec = Some account_g)) then None else
  let* balance_id := r_balance_id rec in
  if negb (is_balance_id balance_id) then None else
  let* credited := claim_fact (r_id rec) in
  let origin := origin_fact balance_id in
  let creator := let* o := origin in co_source_account o in
  if bool_decide (creator = Some account_g) then None else
  let memo := let* o := origin in let* t := co_transaction o in memo_id_of_tx t in
  Some (mkCredit (cc_amount credited) (cc_asset_type credited) (cc_asset_code credited)
          (cc_asset_issuer credited) creator (r_claimant rec) memo memo).

Definition credit_spec (rec : PaymentRecord) : option Credit :=
  if bool_decide (r_kind rec = CLAIM_KIND) then claim_spec rec else direct_credit account_g rec.

(** The credit an operation deserves: its identifier, the credit and the amount
    in stroops. The identifier is checked against the fixed ledger ceiling, that
    of a host at the epoch. *)
Definition expected (rec : PaymentRecord) : option (Toid * Credit * Z) :=
  if negb (is_from_successful_tx rec) then None else
  let* toid := record_toid 0 rec in
  let* c := credit_spec rec in
  let* v := to_stroops (c_amount c) in
  if v <=? 0 then None else Some (toid, c, v).

(** A row records the credit of an operation: every column but the id, the
    address and the time is determined. *)
Definition credits (row : Transaction) (rec : PaymentRecord) : Prop :=
  exists toid c v, expected rec = Some (toid, c, v) /\
  tx_wallet_id row = wallet_id /\ tx_direction row = "deposit" /\ tx_status row = "confirmed" /\
  tx_amount_stroops row = v /\ tx_asset_code row = fst (asset_of c) /\
  tx_asset_issuer row = snd (asset_of c) /\ tx_source_account row = c_source_account c /\
  tx_destination_account row = c_destination_account c /\
  tx_horizon_op_id row = Some (r_id rec) /\
  tx_stellar_tx_hash row = Some (default "" (r_transaction_hash rec)) /\
  tx_operation_index row = Some (operation_index toid) /\ tx_memo_id row = c_memo_id c.

Definition recorded (s : State) (rec : PaymentRecord) : Prop :=
  exists row, row ∈ transactions s /\ credits row rec.

Definition covered (s : State) (pre : list PaymentRecord) : Prop :=
  Forall (fun rec => is_Some (expected rec) -> recorded s rec) pre.

(** A row that would collide with the deposit row of [rec]. *)
Definition collides (row : Transaction) (rec : PaymentRecord) : Prop :=
  tx_horizon_op_id row = Some (r_id rec) \/
  exists t, record_toid 0 rec = Some t /\
    tx_stellar_tx_hash row = Some (default "" (r_transaction_hash rec)) /\
    tx_operation_index row = Some (operation_index t).

(** ** The invariant *)

Definition ids_below (s : State) : Prop := Forall (fun r => tx_id r < next_uuid s) (transactions s).

Definition rows_ok (s : State) : Prop :=
  forall row rec, row ∈ transactions s -> rec ∈ chain -> collides row rec -> credits row rec.

Definition op_ids_unique (s : State) : Prop := NoDup (omap tx_horizon_op_id (transactions s)).

(** The position of a cursor in the history. *)
Definition cursor_at (c : option string) (pre : list PaymentRecord) : Prop :=
  match c with
  | None => pre = []
  | Some t => exists p r, pre = p ++ [r] /\ r_paging_token r = t
  end.

Definition cursor_ok (s : State) : Prop :=
  exists pre post, chain = pre ++ post /\ cursor_at (cursor_of s wallet_id) pre /\
                   covered s pre.

Definition Inv (s : State) : Prop :=
  ids_below s /\ rows_ok s /\ op_ids_unique s /\ cursor_ok s.

(** Other connections keep the invariant and delete no deposit. *)
Definition rely (s s' : State) : Prop :=
  Inv s -> Inv s' /\ forall rec, recorded s rec -> recorded s' rec.

(** ** Hypotheses on Horizon *)

Definition client_ok (x : Ext) : Prop :=
  hp_base_url (x_horizon x) = base_url /\ hp_retry (x_horizon x) = retry.

Record horizon_ok : Prop := {
  retry_ok : 0 <= Resilience.max_delay_ms retry;
  (* a page is the part of the history that follows the cursor *)
  pages_ok : forall n c limit k rs,
    answered (http_operations out n (operations_url base_url account_g c limit) k) rs ->
    rs = [] \/ exists pre post, chain = pre ++ rs ++ post /\ cursor_at c pre;
  (* the answers about claims are those of the claims *)
  claims_ok : forall n k rec rs, rec ∈ chain ->
    answered (http_effects out n (effects_url base_url (r_id rec)) k) rs ->
    find_credit account_g rs = claim_fact (r_id rec);
  origins_ok : forall n k b rs,
    answered (http_origin out n (origin_url base_url b) k) rs -> find_origin rs = origin_fact b;
  (* paging tokens and identifiers are unique *)
  tokens_unique : NoDup (map r_paging_token chain);
  ids_unique : forall r1 r2, r1 ∈ chain -> r2 ∈ chain ->
    dec_val (r_id r1) = dec_val (r_id r2) -> r1 = r2;
  (* every operation names its transaction, whose place in the ledger is in the
     identifiers of its operations *)
  hash_known : forall r, r ∈ chain -> is_Some (r_transaction_hash r);
  same_tx : forall r1 r2 m t1 t2, r1 ∈ chain -> r2 ∈ chain ->
    r_transaction_hash r1 = r_transaction_hash r2 ->
    decode_toid (r_id r1) m = Some t1 -> decode_toid (r_id r2) m = Some t2 ->
    ledger t1 = ledger t2 /\ tx_order t1 = tx_order t2;
  (* the ledgers of the history are below the fixed ceiling *)
  ledgers_ok : forall r m t, r ∈ chain -> decode_toid (r_id r) m = Some t ->
    ledger t <= LEDGER_CEILING_FLOOR
}.

Hypothesis H_horizon : horizon_ok.

(** ** Keys *)

Lemma record_toid_decode rec t :
  record_toid 0 rec = Some t -> decode_toid (r_id rec) (plausible_max_ledger 0) = Some t.
Proof.
  unfold record_toid. destruct (decode_toid _ _) as [t'|]; cbn; [|done].
  case_match; [by intros [= <-]|done].
Qed.

(** Two operations of the history with the same key are the same. *)
Lemma same_key r1 r2 t1 t2 :
  r1 ∈ chain -> r2 ∈ chain ->
  record_toid 0 r1 = Some t1 -> record_toid 0 r2 = Some t2 ->
  default "" (r_transaction_hash r1) = default "" (r_transaction_hash r2) ->
  operation_index t1 = operation_index t2 -> r1 = r2.
Proof using H_horizon.
  intros H1 H2 T1%record_toid_decode T2%record_toid_decode Hh Hi.
  destruct (hash_known H_horizon r1 H1) as [h1 E1], (hash_known H_horizon r2 H2) as [h2 E2].
  assert (Hhash : r_transaction_hash r1 = r_transaction_hash r2).
  { rewrite E1, E2 in *. cbn in Hh. by subst. }
  destruct (same_tx H_horizon r1 r2 _ t1 t2 H1 H2 Hhash T1 T2) as [Hl Ho].
  apply (ids_unique H_horizon); [done..|].
  apply decode_toid_inv in T1 as (_ & _ & -> & _), T2 as (_ & _ & -> & _).
  unfold pack. by rewrite Hl, Ho, Hi.
Qed.

Lemma deposit_row_credits rec toid c v a id now :
  expected rec = Some (toid, c, v) ->
  credits (deposit_row (new_deposit wallet_id rec toid c v a) id now) rec.
Proof. intros He. exists toid, c, v. cbn. done. Qed.

Lemma expected_toid rec toid c v :
  expected rec = Some (toid, c, v) -> record_toid 0 rec = Some toid /\ 0 < v.
Proof.
  unfold expected. destruct (is_from_successful_tx rec); cbn; [|done].
  destruct (record_toid 0 rec) as [t|]; cbn; [|done].
  destruct (credit_spec rec); cbn; [|done]. destruct (to_stroops _); cbn; [|done].
  destruct (Z.leb_spec z 0); [done|]. intros [= <- <- <-]. done.
Qed.

Lemma deposit_row_collides rec rec' toid c v a id now :
  rec ∈ chain -> rec' ∈ chain -> expected rec = Some (toid, c, v) ->
  collides (deposit_row (new_deposit wallet_id rec toid c v a) id now) rec' -> rec' = rec.
Proof using H_horizon.
  intros Hr Hr' He [Hid|(t & Ht & Hh & Hi)]; cbn in *.
  - apply (ids_unique H_horizon); [done..|]. by injection Hid as ->.
  - apply expected_toid in He as [He _]. injection Hh as Hh. injection Hi as Hi.
    symmetry. by eapply same_key.
Qed.

(** The host clock does not matter for the operations of the history. *)
Lemma record_toid_clock clock rec :
  rec ∈ chain -> record_toid clock rec = record_toid 0 rec.
Proof using H_horizon.
  intros Hr. unfold record_toid.
  assert (forall m t, decode_toid (r_id rec) m = Some t -> forall c,
            decode_toid (r_id rec) (plausible_max_ledger c) = Some t) as Hany.
  { intros m t Ht c. pose proof (ledgers_ok H_horizon rec m t Hr Ht).
    apply decode_toid_inv in Ht as (H1 & H2 & H3 & (H4 & H5)).
    apply decode_toid_complete; [done..|]. split; [|done]. unfold plausible_max_ledger. lia. }
  destruct (decode_toid (r_id rec) (plausible_max_ledger clock)) as [t|] eqn:E1;
    destruct (decode_toid (r_id rec) (plausible_max_ledger 0)) as [t'|] eqn:E2; cbn; try done.
  - apply (Hany _ _) with (c := 0) in E1. by assert (t = t') as -> by congruence.
  - apply (Hany _ _) with (c := 0) in E1. congruence.
  - apply (Hany _ _) with (c := clock) in E2. congruence.
Qed.

(** ** The statements keep the invariant *)

Lemma recorded_mono s s' rec :
  transactions s ⊆ transactions s' -> recorded s rec -> recorded s' rec.
Proof. intros Hsub (row & Hin & Hc). exists row. split; [by apply Hsub|done]. Qed.

Lemma covered_mono s s' pre :
  (forall rec, recorded s rec -> recorded s' rec) -> covered s pre -> covered s' pre.
Proof. intros Hm Hc. eapply Forall_impl; [exact Hc|]. cbn. auto. Qed.

Lemma rely_refl s : rely s s.
Proof. done. Qed.

Lemma stable_Inv : stable rely Inv.
Proof. intros s s' Hi Hr. by apply Hr. Qed.

Lemma stable_covered pre : stable rely (fun s => Inv s /\ covered s pre).
Proof.
  intros s s' [Hi Hc] Hr. destruct (Hr Hi) as [Hi' Hm]. split; [done|].
  by eapply covered_mono.
Qed.

(** A statement that leaves the transactions and the cursors alone. *)
Lemma same_tables_Inv s s' :
  transactions s' = transactions s -> ingest_cursor s' = ingest_cursor s ->
  next_uuid s <= next_uuid s' -> Inv s -> Inv s'.
Proof.
  intros Ht Hc Hn (H1 & H2 & H3 & (pre & post & H4 & H5 & H6)).
  unfold Inv, ids_below, rows_ok, op_ids_unique, cursor_ok, cursor_of, covered, recorded in *.
  rewrite Ht, Hc. split_and!; [|done..|].
  - eapply Forall_impl; [exact H1|]. cbn. lia.
  - exists pre, post. done.
Qed.

Lemma same_tables_covered s s' pre :
  transactions s' = transactions s -> covered s pre -> covered s' pre.
Proof. intros Ht. unfold covered, recorded. by rewrite Ht. Qed.

(** *** The deposit insert *)

(** A unique violation of a deposit row comes from a colliding row. *)
Lemma violation_collides s rec toid c v a now cname :
  ids_below s -> expected rec = Some (toid, c, v) ->
  first_violation (tx_violates (deposit_row (new_deposit wallet_id rec toid c v a) (next_uuid s) now))
    (transactions s) = Some cname ->
  (exists row, row ∈ transactions s /\ collides row rec) /\
  cname <> "idx_addresses_wallet_customer_ref".
Proof.
  intros Hids He (row & Hin & Hv)%first_violation_Some.
  apply expected_toid in He as [He _]. unfold tx_violates in Hv.
  case_bool_decide as Hid; cbn in Hid.
  { unfold ids_below in Hids. rewrite Forall_forall in Hids. specialize (Hids row Hin). lia. }
  destruct (_ && _) eqn:E1 in Hv.
  { injection Hv as <-. split; [|done]. exists row. split; [done|]. right.
    apply andb_true_iff in E1 as [(x & Hx & Hx')%sql_eq_true (y & Hy & Hy')%sql_eq_true].
    cbn in Hx, Hy. exists toid. by rewrite Hx', Hy', Hx, Hy. }
  destruct (sql_eq _ _) eqn:E2 in Hv.
  { injection Hv as <-. split; [|done]. exists row. split; [done|]. left.
    apply sql_eq_true in E2 as (x & Hx & Hx'). cbn in Hx. by rewrite Hx', Hx. }
  cbn in Hv. rewrite (bool_decide_eq_false_2 ("deposit" = "withdrawal")) in Hv by done.
  rewrite andb_false_r in Hv. done.
Qed.

Lemma no_violation_fresh s t row :
  first_violation (tx_violates t) (transactions s) = None -> row ∈ transactions s ->
  sql_eq (tx_horizon_op_id t) (tx_horizon_op_id row) = false.
Proof.
  intros Hn Hin. pose proof (first_violation_None _ _ _ Hn Hin) as Hv. unfold tx_violates in Hv.
  destruct (sql_eq (tx_horizon_op_id t) _); [|done]. repeat case_match; done.
Qed.

Lemma insert_deposit_Inv s rec toid c v a now :
  rec ∈ chain -> expected rec = Some (toid, c, v) -> Inv s ->
  let t := deposit_row (new_deposit wallet_id rec toid c v a) (next_uuid s) now in
  first_violation (tx_violates t) (transactions s) = None ->
  Inv (bump (set_transactions s (transactions s ++ [t]))).
Proof using H_horizon.
  intros Hr He (H1 & H2 & H3 & (pre & post & H4 & H5 & H6)) t Hnv.
  unfold Inv. split_and!.
  - unfold ids_below in *. cbn. apply Forall_app. split.
    + eapply Forall_impl; [exact H1|]. cbn. lia.
    + constructor; [cbn; lia|constructor].
  - intros row rec' Hin Hr' Hc. cbn in Hin. apply elem_of_app in Hin as [Hin|Hin].
    + by apply H2.
    + apply list_elem_of_singleton in Hin as ->.
      assert (rec' = rec) as -> by (eapply deposit_row_collides; eauto).
      by apply deposit_row_credits.
  - unfold op_ids_unique in *. cbn. rewrite omap_app. cbn. apply NoDup_app. split_and!; [done| |].
    + intros x (row & Hin & Hx)%list_elem_of_omap Hx'. apply list_elem_of_singleton in Hx' as ->.
      pose proof (no_violation_fresh s t row Hnv Hin) as Hf. cbn in Hf.
      rewrite Hx in Hf. cbn in Hf. by rewrite bool_decide_eq_true_2 in Hf.
    + apply NoDup_singleton.
  - exists pre, post. split_and!; [done..|]. eapply covered_mono; [|exact H6].
    intros r. apply recorded_mono. cbn. set_solver.
Qed.

(** [record_deposit] of an operation of the history keeps the invariant, and
    when it answers, the operation is recorded. *)
Lemma record_deposit_spec {X} (J : X -> Prop) pre rec toid c v a :
  rec ∈ chain -> expected rec = Some (toid, c, v) ->
  triple rely J (fun s => Inv s /\ covered s pre)
    (record_deposit (new_deposit wallet_id rec toid c v a))
    (fun r s => (Inv s /\ covered s pre) /\ (is_ok r = true -> recorded s rec))
    Inv.
Proof using H_horizon.
  intros Hr He. eapply triple_bind with
    (R := fun r s => (Inv s /\ covered s pre) /\
            match r with
            | Ok _ => recorded s rec
            | Err (UniqueViolation cn) => recorded s rec /\ cn <> "idx_addresses_wallet_customer_ref"
            | Err OtherDbError => True
            end).
  - apply triple_db_call; [apply rely_refl|apply stable_covered| |naive_solver].
    intros now s [Hi Hc]. unfold insert_transaction. destruct (tx_checks _); cbn; [|naive_solver].
    destruct (first_violation _ _) as [cn|] eqn:E; cbn.
    + pose proof Hi as (Hids & Hrows & _ & _).
      destruct (violation_collides s rec toid c v a now cn Hids He E) as [(row & Hin & Hcol) Hcn].
      split_and!; try done. exists row. split; [done|]. by apply Hrows.
    + case_match; cbn; [|naive_solver].
      pose proof (insert_deposit_Inv s rec toid c v a now Hr He Hi E) as Hi'.
      assert (Hm : forall r, recorded s r -> recorded
                (bump (set_transactions s (transactions s ++
                  [deposit_row (new_deposit wallet_id rec toid c v a) (next_uuid s) now]))) r).
      { intros r. apply recorded_mono. cbn. set_solver. }
      split_and!; try done; try by eapply covered_mono.
      eexists. split; [|by apply deposit_row_credits with (id := next_uuid s) (now := now)].
      cbn. apply elem_of_app. right. by apply list_elem_of_singleton.
  - intros r. apply triple_ret. intros s [Hic Hm]. split; [done|].
    destruct r as [t|[cn|]]; cbn in *; [done| |done].
    destruct Hm as [Hm Hcn]. done.
Qed.

(** *** The best-effort steps after the insert *)

Definition good (pre : list PaymentRecord) (s : State) : Prop := Inv s /\ covered s pre.

Lemma stable_good pre : stable rely (good pre).
Proof. apply stable_covered. Qed.

Lemma same_tables_good pre s s' :
  transactions s' = transactions s -> ingest_cursor s' = ingest_cursor s ->
  next_uuid s <= next_uuid s' -> good pre s -> good pre s'.
Proof.
  intros H1 H2 H3 [Hi Hc]. split; [by eapply same_tables_Inv|by eapply same_tables_covered].
Qed.

Lemma emit_preserves pre e : preserves rely client_ok (good pre) (emit e).
Proof. apply triple_ext_call; [|done]. intros x Hx. exact Hx. Qed.

Lemma query_preserves {A B} pre (q : Z -> State -> A) (f : result A sqlx_error -> B) :
  preserves rely client_ok (good pre) (bind (query q) (fun r => ret (f r))).
Proof.
  apply preserves_bind; [|intros; apply preserves_ret].
  apply preserves_query; [apply rely_refl|apply stable_good].
Qed.

Lemma settle_payment_preserves {B} pre i t st (f : result bool sqlx_error -> B) :
  preserves rely client_ok (good pre) (bind (db_call (settle_payment_stmt i t st)) (fun r => ret (f r))).
Proof.
  apply preserves_bind; [|intros; apply preserves_ret].
  apply preserves_db_call; [apply rely_refl|apply stable_good|].
  intros now s Hg. destruct (settle_payment_stmt_db i t st now s) as [->| ->]; [done|].
  by eapply same_tables_good; [..|exact Hg].
Qed.

Lemma fire_deposit_webhook_preserves pre tx :
  preserves rely client_ok (good pre) (fire_deposit_webhook wallet_id webhooks tx).
Proof.
  unfold fire_deposit_webhook. destruct webhooks; cbn [negb]; [|apply preserves_ret].
  apply preserves_bind.
  - destruct (tx_address_id tx); [|apply preserves_ret].
    apply preserves_bind; [apply query_preserves|intros; apply preserves_ret].
  - intros m. apply emit_preserves.
Qed.

Lemma match_payment_preserves pre a :
  preserves rely client_ok (good pre) (match_payment wallet_id a).
Proof.
  unfold match_payment. apply preserves_bind; [apply query_preserves|].
  assert (Hfb : preserves rely client_ok (good pre)
    (bind (get_payment_link_by_address a) (fun link =>
       match link with
       | Ok (Some link) =>
           bind (oldest_pending_payment_link_payment (pl_id link)) (fun payment =>
             ret match payment with Ok (Some payment) => Some (link, payment) | _ => None end)
       | _ => ret None
       end))).
  { apply preserves_bind; [apply query_preserves|].
    intros [[l|]|]; [|apply preserves_ret..].
    apply preserves_bind; [apply query_preserves|intros; apply preserves_ret]. }
  intros [[p|]|]; [|exact Hfb..].
  apply preserves_bind; [apply query_preserves|intros; apply preserves_ret].
Qed.

Lemma confirm_payment_link_preserves pre tx :
  preserves rely client_ok (good pre) (confirm_payment_link wallet_id webhooks tx).
Proof.
  unfold confirm_payment_link. case_match; [apply preserves_ret|].
  destruct (tx_address_id tx) as [a|]; [|apply preserves_ret].
  apply preserves_bind; [apply match_payment_preserves|].
  intros [[link payment]|]; [|apply preserves_ret].
  destruct (is_closed_at _ _); [apply preserves_ret|].
  destruct (tx_amount_stroops tx =? _); cbn [negb]; (apply preserves_bind; [apply settle_payment_preserves|]);
    (intros [[]|]; [|apply preserves_ret..]); unfold dispatch;
    (destruct webhooks; [apply emit_preserves|apply preserves_ret]).
Qed.

(** *** Claims *)

Lemma horizon_call_spec {A T} pre (http : nat -> string -> nat -> http_response T)
    (url : string -> string) (f : result (list T) (Resilience.ResilienceError IngestFetchError) -> result A HorizonError)
    (Q : result A HorizonError -> Prop) :
  (forall n k rs, answered (http n (url base_url) k) rs -> Q (f (Ok rs))) ->
  (forall e, Q (f (Err e))) ->
  triple rely client_ok (good pre)
    (horizon_call (fun h => let '(r, h') := fetch_records out http (url (hp_base_url h)) h in
                            (option_map f r, h')))
    (fun r s => good pre s /\ Q r) Inv.
Proof using H_horizon.
  intros HQ HE w Hw [Ht Hx]. unfold horizon_call.
  destruct Hx as [Hb Hret].
  destruct (fetch_records_spec out http (url (hp_base_url (x_horizon (ext w)))) (x_horizon (ext w)))
    as ((r & Hr & Hans) & Hret' & Hb'); [rewrite Hret; apply (retry_ok H_horizon)|].
  destruct (fetch_records _ _ _ _) as [o h']. cbn in *. subst o. cbn.
  split; [split; [done|]; unfold client_ok; cbn; by rewrite Hret', Hb'|].
  split; [done|]. destruct r as [rs|e]; [|apply HE].
  destruct Hans as [k Hk]. eapply HQ. rewrite <- Hb. exact Hk.
Qed.

Lemma claim_credit_of_spec pre rec :
  rec ∈ chain ->
  triple rely client_ok (good pre) (claim_credit_of out account_g rec)
    (fun r s => good pre s /\ match r with Ok o => o = claim_spec rec | Err _ => True end) Inv.
Proof using H_horizon.
  intros Hr. unfold claim_credit_of, claim_spec.
  case_bool_decide as Hcl; cbn [negb]; [|by apply triple_ret].
  destruct (r_balance_id rec) as [b|]; cbn [option_bind]; [|by apply triple_ret].
  destruct (is_balance_id b); cbn [negb]; [|by apply triple_ret].
  eapply triple_try.
  - apply (horizon_call_spec pre (http_effects out) (fun u => effects_url u (r_id rec))
      (fun r => result_bind (map_err map_resilience r) (fun e => Ok (find_credit account_g e)))
      (fun r => match r with Ok o => o = claim_fact (r_id rec) | Err _ => True end)).
    + intros n k rs Ha. cbn. by eapply (claims_ok H_horizon).
    + done.
  - intros o. cbn. destruct o as [cr|].
    2:{ apply triple_ret. intros s [Hg <-]. done. }
    eapply triple_try with (R := fun r s => (good pre s /\ Some cr = claim_fact (r_id rec)) /\
        match r with Ok o => o = origin_fact b | Err _ => True end).
    + intros w [Hg Hcr] Hw. revert w Hg Hw.
      change (triple rely client_ok (good pre) (horizon_call (claimable_balance_origin out b))
        (fun r s => (good pre s /\ Some cr = claim_fact (r_id rec)) /\
        match r with Ok o => o = origin_fact b | Err _ => True end) Inv).
      eapply triple_conseq; [|done| |done].
      * apply (horizon_call_spec pre (http_origin out) (fun u => origin_url u b)
          (fun r => result_bind (map_err map_resilience r) (fun o => Ok (find_origin o)))
          (fun r => match r with Ok o => o = origin_fact b | Err _ => True end)); [|done].
        intros n k rs Ha. cbn. by eapply (origins_ok H_horizon).
      * cbn. naive_solver.
    + intros o. destruct (bool_decide _) eqn:Ed.
      * apply triple_ret. intros s [[Hg Hcf] ->]. split; [done|]. rewrite <- Hcf. cbn. by rewrite Ed.
      * apply triple_ret. intros s [[Hg Hcf] ->]. split; [done|]. rewrite <- Hcf. cbn. by rewrite Ed.
    + cbn. naive_solver.
  - cbn. naive_solver.
Qed.

(** *** One record *)

(** After a record is processed without error, its credit is recorded. *)
Definition done_with (pre : list PaymentRecord) (rec : PaymentRecord)
    (r : result Processed IngestError) (s : State) : Prop :=
  good pre s /\ (is_ok r = true -> is_Some (expected rec) -> recorded s rec).

Lemma covered_snoc s pre rec :
  covered s (pre ++ [rec]) <-> covered s pre /\ (is_Some (expected rec) -> recorded s rec).
Proof. unfold covered. rewrite Forall_app, Forall_singleton. done. Qed.

Lemma record_credit_spec pre rec toid c :
  rec ∈ chain -> is_from_successful_tx rec = true -> record_toid 0 rec = Some toid ->
  credit_spec rec = Some c ->
  triple rely client_ok (good pre) (record_credit wallet_id webhooks rec toid c)
    (done_with pre rec) Inv.
Proof using H_horizon.
  intros Hr Hs Ht Hc.
  assert (He : forall v, to_stroops (c_amount c) = Some v ->
            expected rec = if v <=? 0 then None else Some (toid, c, v)).
  { intros v Hv. unfold expected. rewrite Hs, Ht. cbn. rewrite Hc. cbn. by rewrite Hv. }
  unfold record_credit. destruct (to_stroops (c_amount c)) as [v|] eqn:Ev.
  2:{ apply triple_ret. intros s Hg. split; [done|]. unfold expected. rewrite Hs, Ht. cbn.
      rewrite Hc. cbn. rewrite Ev. by intros _ []. }
  specialize (He v eq_refl). destruct (v <=? 0).
  { apply triple_ret. intros s Hg. split; [done|]. rewrite He. by intros _ []. }
  eapply triple_try with (R := fun _ => good pre).
  - destruct (c_customer_id c).
    + eapply triple_conseq; [apply query_preserves|done..|]. by intros s [].
    + by apply triple_ret.
  - intros addr. eapply triple_try.
    + apply (record_deposit_spec client_ok pre rec toid c v (option_map a_id addr) Hr He).
    + intros [tx|].
      * eapply triple_conseq with (Q := fun r s => good (pre ++ [rec]) s) (C := good (pre ++ [rec]))
          (P := good (pre ++ [rec])).
        -- apply preserves_bind; [apply emit_preserves|intros _].
           apply preserves_bind; [apply fire_deposit_webhook_preserves|intros _].
           apply preserves_bind; [apply confirm_payment_link_preserves|intros _].
           apply preserves_ret.
        -- intros s [[Hi Hcov] Hrec]. split; [done|]. apply covered_snoc. auto.
        -- intros r s [Hi [Hcov Hrec]%covered_snoc]. split; [done|]. auto.
        -- by intros s [].
      * apply triple_ret. intros s [Hg Hrec]. split; [done|]. auto.
    + intros e s [Hg _]. done.
  - intros e s Hg. done.
Qed.

Lemma process_spec clock pre rec :
  rec ∈ chain ->
  triple rely client_ok (good pre) (process out wallet_id account_g webhooks clock rec)
    (done_with pre rec) Inv.
Proof using H_horizon.
  intros Hr. unfold process. destruct (is_from_successful_tx rec) eqn:Es; cbn [negb].
  2:{ apply triple_ret. intros s Hg. split; [done|]. unfold expected. rewrite Es. by intros _ []. }
  rewrite (record_toid_clock clock rec Hr). destruct (record_toid 0 rec) as [toid|] eqn:Et.
  2:{ apply triple_ret. intros s Hg. split; [done|]. unfold expected. rewrite Es, Et. by intros _ []. }
  eapply triple_try with
    (R := fun r s => good pre s /\ match r with Ok o => o = credit_spec rec | Err _ => True end).
  - unfold credit_spec. case_bool_decide; [by apply claim_credit_of_spec|by apply triple_ret].
  - intros o. intros w [Hg Ho]. subst o. revert w Hg. destruct (credit_spec rec) as [c|] eqn:Ec.
    + by apply record_credit_spec.
    + apply triple_ret. intros s Hg. split; [done|]. unfold expected. rewrite Es, Et. cbn.
      rewrite Ec. by intros _ [].
  - intros e s [Hg _]. done.
Qed.

(** *** The cursor *)

Lemma set_cursor_Inv pre rec post tok now s :
  chain = pre ++ [rec] ++ post -> r_paging_token rec = tok ->
  Inv s -> covered s (pre ++ [rec]) -> Inv (snd (set_cursor_stmt wallet_id tok now s)).
Proof.
  intros Hch Htok (H1 & H2 & H3 & H4) Hc. unfold set_cursor_stmt.
  set (fresh := mkIngestCursor wallet_id (Some tok) now None).
  set (upd := fun c => mkIngestCursor wallet_id (Some tok) now (ic_last_polled_at c)).
  destruct (upsert_cursor_tables wallet_id fresh upd s) as [Ht Hn].
  unfold Inv, ids_below, rows_ok, op_ids_unique. rewrite Ht, Hn. split_and!; [done..|].
  destruct (fst (upsert_cursor wallet_id fresh upd s)) as [[]|e] eqn:E.
  - exists (pre ++ [rec]), post. rewrite <- app_assoc. split_and!; [done| |].
    + rewrite (cursor_of_upsert wallet_id fresh upd tok s) by done. by exists pre, rec.
    + eapply covered_mono; [|exact Hc]. intros r. apply recorded_mono. by rewrite Ht.
  - assert (snd (upsert_cursor wallet_id fresh upd s) = s) as ->; [|done].
    unfold upsert_cursor in *. repeat case_match; done.
Qed.

Lemma set_cursor_spec pre rec post :
  chain = pre ++ [rec] ++ post ->
  triple rely client_ok (good (pre ++ [rec])) (set_cursor wallet_id (r_paging_token rec))
    (fun _ => good (pre ++ [rec])) Inv.
Proof.
  intros Hch.
  eapply triple_bind with (R := fun _ => good (pre ++ [rec])); [|intros r; by apply triple_ret].
  apply triple_db_call; [apply rely_refl|apply stable_good| |by intros s [Hi Hc]].
  intros now s [Hi Hc]. pose proof (set_cursor_Inv pre rec post _ now s Hch eq_refl Hi Hc) as Hi'.
  assert (good (pre ++ [rec]) (snd (set_cursor_stmt wallet_id (r_paging_token rec) now s))).
  { split; [done|]. eapply covered_mono; [|exact Hc]. intros r. apply recorded_mono.
    unfold set_cursor_stmt. by rewrite (proj1 (upsert_cursor_tables _ _ _ s)). }
  naive_solver.
Qed.

(** *** A page and a poll *)

Lemma process_all_spec clock rs : forall pre post count,
  chain = pre ++ rs ++ post ->
  triple rely client_ok (good pre)
    (process_all out wallet_id account_g webhooks clock rs count) (fun _ => Inv) Inv.
Proof using H_horizon.
  induction rs as [|rec rs IH]; intros pre post count Hch; cbn [process_all].
  { apply triple_ret. by intros s []. }
  assert (Hr : rec ∈ chain) by (rewrite Hch; set_solver).
  eapply triple_try; [by apply process_spec| |].
  - intros r. eapply triple_try with (R := fun _ => good (pre ++ [rec])).
    + eapply triple_conseq.
      * apply (set_cursor_spec pre rec (rs ++ post)). by rewrite Hch.
      * intros s [[Hi Hc] Hrec]. split; [done|]. apply covered_snoc. auto.
      * done.
      * done.
    + intros _. apply (IH (pre ++ [rec]) post). rewrite Hch. by rewrite <- app_assoc.
    + by intros e s [].
  - by intros e s [[] _].
Qed.

Lemma nodup_token_prefix pre1 post1 pre2 post2 c :
  chain = pre1 ++ post1 -> chain = pre2 ++ post2 -> cursor_at c pre1 -> cursor_at c pre2 ->
  pre1 = pre2.
Proof using H_horizon.
  intros H1 H2. destruct c as [t|]; cbn; [|by intros -> ->].
  intros (p1 & r1 & -> & T1) (p2 & r2 & -> & T2).
  pose proof (tokens_unique H_horizon) as Hnd.
  assert (Hl : length p1 = length p2).
  { apply (NoDup_lookup _ (length p1) (length p2) t Hnd).
    - rewrite H1, map_app. rewrite lookup_app_l by (rewrite length_map, length_app; cbn; lia).
      rewrite list_lookup_fmap, lookup_app_r by lia. rewrite Nat.sub_diag. cbn. by rewrite T1.
    - rewrite H2, map_app. rewrite lookup_app_l by (rewrite length_map, length_app; cbn; lia).
      rewrite list_lookup_fmap, lookup_app_r by lia. rewrite Nat.sub_diag. cbn. by rewrite T2. }
  rewrite H1 in H2. apply app_inj_1 in H2 as [-> _]; [done|]. rewrite !length_app. cbn. lia.
Qed.

(** A cursor read from the database, and where it is in the history. *)
Definition at_cursor (c : option string) (s : State) : Prop :=
  exists pre post, chain = pre ++ post /\ cursor_at c pre /\ good pre s.

Lemma get_cursor_spec :
  triple rely client_ok Inv (get_cursor wallet_id)
    (fun r s => match r with Ok c => at_cursor c s | Err _ => Inv s end) Inv.
Proof.
  eapply triple_bind with (R := fun r s => match r with Ok c => at_cursor c s | Err _ => Inv s end).
  - apply triple_query; [apply rely_refl|apply stable_Inv| |done|done].
    intros now s Hi. pose proof Hi as (_ & _ & _ & (pre & post & Hch & Hat & Hc)).
    by exists pre, post.
  - intros [c|e]; by apply triple_ret.
Qed.

Lemma record_poll_success_spec (P C : State -> Prop) :
  triple rely client_ok P (record_poll_success wallet_id tracker) (fun _ => P) C.
Proof.
  unfold record_poll_success. destruct tracker; [|by apply triple_ret].
  apply triple_ext_call; [|done]. intros x Hx. exact Hx.
Qed.

Lemma poll_once_spec clock limit :
  triple rely client_ok Inv (poll_once out wallet_id account_g webhooks tracker clock limit)
    (fun _ => Inv) Inv.
Proof using H_horizon.
  unfold poll_once. eapply triple_try; [apply get_cursor_spec| |done].
  intros c. intros w (pre & post & Hch & Hat & Hg) Hw. revert w Hg Hw.
  change (triple rely client_ok (good pre)
    (try_bind (horizon_call (payments_after out account_g c limit)) (fun _ => HorizonFailed)
      (fun records => try_bind (process_all out wallet_id account_g webhooks clock records 0)
         (fun e => e) (fun count => bind (record_poll_success wallet_id tracker)
            (fun _ => ret (Ok count))))) (fun _ => Inv) Inv).
  eapply triple_try.
  - apply (horizon_call_spec pre (http_operations out)
      (fun u => operations_url u account_g c limit) (map_err map_resilience)
      (fun r => match r with
                | Ok rs => exists post', chain = pre ++ rs ++ post'
                | Err _ => True end)); [|done].
    intros n k rs Ha. destruct (pages_ok H_horizon _ _ _ _ _ Ha) as [->|(pre' & post' & Hch' & Hat')];
      cbn; [by exists post|].
    assert (pre' = pre) as -> by (eapply nodup_token_prefix; eauto). by exists post'.
  - intros rs w [Hg [post' Hch']]. revert w Hg.
    eapply triple_try with (R := fun _ => Inv); [by eapply process_all_spec| |done].
    intros n. eapply triple_bind; [apply record_poll_success_spec|intros; by apply triple_ret].
  - by intros e s [[] _].
Qed.

(** *** Any number of polls *)

(** A worker that polls, dies and is restarted: each entry is the limit and the
    host clock of one call of [poll_once], which may return, fail or crash. *)
Definition run_polls (ps : list (Z * Z)) (w : World State Ext) : World State Ext :=
  fold_left (fun w '(limit, clock) =>
    snd (poll_once out wallet_id account_g webhooks tracker clock limit w)) ps w.

Lemma run_polls_Inv ps w :
  Inv (db w) -> world_ok rely client_ok w ->
  Inv (db (run_polls ps w)) /\ world_ok rely client_ok (run_polls ps w).
Proof using H_horizon.
  revert w. induction ps as [|[limit clock] ps IH]; intros w Hi Hw; cbn; [done|].
  destruct (poll_once_spec clock limit w Hi Hw) as [Hw' Hi'].
  apply IH; [|done]. destruct (fst _); done.
Qed.

Lemma op_ids_at_most_once s id :
  op_ids_unique s ->
  (length (List.filter (fun t => bool_decide (tx_horizon_op_id t = Some id)) (transactions s)) <= 1)%nat.
Proof.
  unfold op_ids_unique. induction (transactions s) as [|t l IH]; cbn; [lia|].
  destruct (tx_horizon_op_id t) as [i|] eqn:E; cbn.
  - intros [Hi Hnd]%NoDup_cons. case_bool_decide as Hid; [|auto]. injection Hid as ->. cbn.
    rewrite Paging.Paging.filter_none; [cbn; lia|]. apply Forall_forall. intros x Hx.
    apply bool_decide_eq_false. intros Hxi. apply Hi. apply list_elem_of_omap. eauto.
  - intros Hnd. rewrite bool_decide_eq_false_2 by done. auto.
Qed.

(** The rows of an operation. *)
Definition rows_of (rec : PaymentRecord) (s : State) : list Transaction :=
  List.filter (fun t => bool_decide (tx_horizon_op_id t = Some (r_id rec))) (transactions s).

Lemma recorded_rows rec s : op_ids_unique s -> recorded s rec -> length (rows_of rec s) = 1%nat.
Proof.
  intros Hu (row & Hin & (toid & c & v & He & Hrow)). pose proof (op_ids_at_most_once s (r_id rec) Hu).
  unfold rows_of. assert (row ∈ List.filter (fun t => bool_decide (tx_horizon_op_id t = Some (r_id rec)))
    (transactions s)) as Hf.
  { apply list_elem_of_In, filter_In. split; [by apply list_elem_of_In|].
    apply bool_decide_eq_true. by destruct_and?. }
  destruct (List.filter _ _); [by apply elem_of_nil in Hf|]. cbn in *. lia.
Qed.
(** What a database says of a history: at most one row for an operation, no row but the one that it
    deserves, and exactly one for those that deserve one and come before the cursor. *)
Definition once (s : State) : Prop :=
  Forall (fun rec => length (rows_of rec s) <= 1)%nat chain /\
  (forall rec row, rec ∈ chain -> row ∈ rows_of rec s -> credits row rec) /\
  exists pre post, chain = pre ++ post /\ cursor_at (cursor_of s wallet_id) pre /\
    Forall (fun rec => is_Some (expected rec) -> length (rows_of rec s) = 1%nat) pre.

Lemma Inv_once s : Inv s -> once s.
Proof.
  intros (_ & Hrows & Hu & (pre & post & Hch & Hat & Hc)). unfold once. split_and!.
  - apply Forall_forall. intros rec _. by apply op_ids_at_most_once.
  - intros rec row Hr Hin. unfold rows_of in Hin. apply list_elem_of_In, filter_In in Hin as [Hin Hid].
    apply bool_decide_eq_true in Hid. apply Hrows; [by apply list_elem_of_In|done|by left].
  - exists pre, post. split_and!; [done..|]. eapply Forall_impl; [exact Hc|].
    intros rec Hrec He. eapply recorded_rows; eauto.
Qed.
End Setting.

(** C1: exactly once. Take any history of the account, and any number of polls
    by a worker whose statements fail before or after taking effect, which is
    killed and restarted at any point, against a Horizon that fails at will,
    while other connections change the database in any way that keeps the
    invariant. Then no operation has more than one row; a row under an
    operation's identifier carries exactly the amount, asset, accounts and wallet
    of the credit the operation deserves; and the stored cursor is at a point of
    the history before which every operation that deserves a credit has exactly
    one row. *)
Theorem exactly_once `{Strkey} (out : Outside) (wallet_id : Uuid) (account_g : string)
    (webhooks tracker : bool) (base_url : string) (retry : Resilience.RetryPolicy)
    (chain : list PaymentRecord) (claim_fact : string -> option ClaimCredit)
    (origin_fact : string -> option ClaimOrigin) (ps : list (Z * Z)) (w : World State Ext) :
  horizon_ok out account_g base_url retry chain claim_fact origin_fact ->
  Inv wallet_id account_g chain claim_fact origin_fact (db w) ->
  world_ok (rely wallet_id account_g chain claim_fact origin_fact) (client_ok base_url retry) w ->
  once wallet_id account_g chain claim_fact origin_fact (db (run_polls out wallet_id account_g webhooks tracker ps w)).
Proof.
  intros Hh Hi Hw. apply Inv_once.
  by destruct (run_polls_Inv out wallet_id account_g webhooks tracker base_url retry chain claim_fact origin_fact Hh ps w Hi Hw).
Qed.

(** ** A concrete run *)
Module Example.
Import WalletAddress.Toy.

Definition acct : string := toy_account.
Definition issuer : string := "GISSUER".

Definition pay (id tok amount : string) : PaymentRecord :=
  mkPaymentRecord id tok "payment" (Some "h1") true (Some "GSENDER") (Some acct) None None
    (Some "credit_alphanum4") (Some "USDC") (Some issuer) (Some amount) None None None None.

(** A credit of 12.5 USDC, then a conversion of our own funds. *)
Definition rec1 : PaymentRecord := pay "12884905985" "12884905985" "12.5000000".
Definition rec2 : PaymentRecord :=
  mkPaymentRecord "12884905986" "12884905986" "path_payment_strict_send" (Some "h1") true
    (Some acct) (Some acct) None None None None None (Some "3.0000000") None None None None.
Definition history : list PaymentRecord := [rec1; rec2].

Definition horizon : Outside := {|
  powi _ _ := Float64.Float64.zero;
  http_operations n url k :=
    if bool_decide (url = operations_url "https://h/" acct None 10)
    then Response 200 (Some history) else NoResponse;
  http_effects _ _ _ := NoResponse;
  http_origin _ _ _ := NoResponse;
  timing _ _ := mkTiming [] 0 0 0 [];
  first_check _ := (0, 0)
|}.

Definition no_claim : string -> option ClaimCredit := fun _ => None.
Definition no_origin : string -> option ClaimOrigin := fun _ => None.

Lemma url_cursor c limit :
  operations_url "https://h/" acct c limit = operations_url "https://h/" acct None 10 -> c = None.
Proof.
  destruct c as [t|]; [|done]. intros E%(f_equal slen). exfalso. unfold operations_url in E.
  change (trim_end_matches _ _) with "https://h" in E. rewrite !slen_app in E.
  change (slen "&cursor=") with 8 in E. change (slen (print_dec 10)) with 2 in E.
  change (slen "") with 0 in E.
  pose proof (slen_nonneg t). unfold print_dec in E. rewrite slen_print_fixed in E.
  pose proof (dec_width_pos (dec_fuel limit) limit). lia.
Qed.

Lemma horizon_is_ok :
  horizon_ok horizon acct "https://h/" Resilience.RetryPolicy_default history no_claim no_origin.
Proof.
  constructor.
  - cbn. lia.
  - intros n c limit k rs. unfold answered. cbn [http_operations horizon].
    case_bool_decide as Hu; [|done]. apply url_cursor in Hu as ->.
    intros [[Hs _]|[_ [= <-]]]; [lia|]. right. exists [], []. done.
  - done.
  - done.
  - apply (bool_decide_unpack _). vm_compute. done.
  - intros r1 r2 H1 H2. unfold history in *. set_unfold.
    destruct H1 as [->|[->|[]]], H2 as [->|[->|[]]]; try done; intros E; vm_compute in E; discriminate.
  - intros r Hr. unfold history in *. set_unfold. destruct Hr as [->|[->|[]]]; vm_compute; eauto.
  - intros r1 r2 m t1 t2 H1 H2 _ (_ & _ & E1 & _ & Hl1 & Ht1 & Ho1)%decode_toid_inv
      (_ & _ & E2 & _ & Hl2 & Ht2 & Ho2)%decode_toid_inv.
    assert (Hv : forall r, r ∈ history -> dec_val (r_id r) = 12884905985 \/ dec_val (r_id r) = 12884905986).
    { intros r Hr. unfold history in *. set_unfold. destruct Hr as [->|[->|[]]]; vm_compute; auto. }
    unfold pack, MAX_OPS_PER_TX in *. destruct (Hv r1 H1), (Hv r2 H2); lia.
  - intros r m t Hr (_ & _ & E & _ & Hl & Ht & Ho)%decode_toid_inv.
    assert (dec_val (r_id r) <= 12884905986).
    { unfold history in *. set_unfold. destruct Hr as [->|[->|[]]]; vm_compute; discriminate. }
    unfold pack, MAX_OPS_PER_TX, LEDGER_CEILING_FLOOR in *. lia.
Qed.

Definition wallet : Wallet :=
  mkWallet 1 "testnet" acct None None None None 1 None None None "client" None None 0 0 None
    false false None.

Definition empty_db : State := mkState 100 [wallet] [] [] [] [] [] [].

(** The insert of the first poll takes effect but reports an error; the process
    is killed in the second poll after the cursor moved past the credit. *)
Definition world0 : World State Ext :=
  mkWorld empty_db
    [mkTick NoFault 1 (fun s => s); mkTick FailAfter 2 (fun s => s);
     mkTick NoFault 3 (fun s => s); mkTick NoFault 4 (fun s => s); mkTick CrashAfter 5 (fun s => s)]
    (mkExt (HorizonPayments_new "https://h/") []).

Lemma empty_db_Inv : Inv 1 acct history no_claim no_origin empty_db.
Proof.
  split_and!.
  - constructor.
  - intros row rec Hin. by apply elem_of_nil in Hin.
  - constructor.
  - exists [], history. split_and!; [done..|constructor].
Qed.

Lemma exactly_once_witness :
  let s := db (run_polls horizon 1 acct true false [(10, 0); (10, 50)] world0) in
  cursor_of s 1 = Some "12884905985" /\ map tx_amount_stroops (transactions s) = [125000000] /\
  Forall (fun rec => length (rows_of rec s) <= 1)%nat history /\
  (forall rec row, rec ∈ history -> row ∈ rows_of rec s -> credits 1 acct no_claim no_origin row rec) /\
  exists pre post, history = pre ++ post /\ cursor_at (cursor_of s 1) pre /\
    Forall (fun rec => is_Some (expected acct no_claim no_origin rec) ->
                       length (rows_of rec s) = 1%nat) pre.
Proof.
  cbv zeta. split; [vm_compute; reflexivity|]. split; [vm_compute; reflexivity|].
  apply (exactly_once horizon 1 acct true false "https://h/" Resilience.RetryPolicy_default history
           no_claim no_origin [(10, 0); (10, 50)] world0).
  - exact horizon_is_ok.
  - exact empty_db_Inv.
  - split; [|split; reflexivity]. unfold ticks_ok. cbn.
    repeat (apply Forall_cons_2; [intros s; apply rely_refl|]). apply Forall_nil_2.
Defined.
End Example.
End ExactlyOnce.
