(* ===== verification/Progress.v ===== *)
(** * A clean poll makes progress

    The counterpart of [ExactlyOnce]: when no statement fails and Horizon
    answers, a poll processes the whole page, reports its length, leaves the
    cursor at the last record, and every record of the page that deserves a
    credit has its row. *)

From S2P Require Import Prelude Db Amount Toid Float64 Resilience WalletAddress Paging Store PaymentLinks HorizonIngest Ingest ExactlyOnce.

Module Progress.
Import Db Amount Toid WalletAddress Store PaymentLinks HorizonIngest Ingest.

(** ** Runs without faults *)

(** [{P} m {Q}] for worlds with nothing left on the fault schedule: [m] returns
    a value, and nothing appears on the schedule. *)
Definition clean {A} (P : World State Ext -> Prop) (m : M A) (Q : A -> World State Ext -> Prop) : Prop :=
  forall w, ticks w = [] -> P w ->
    match m w with
    | (Ret a, w') => ticks w' = [] /\ Q a w'
    | (Crashed, _) => False
    end.

Lemma clean_ret {A} (a : A) P (Q : A -> World State Ext -> Prop) :
  (forall w, P w -> Q a w) -> clean P (ret a) Q.
Proof. intros HQ w Ht HP. cbn. auto. Qed.

Lemma clean_bind {A B} (m : M A) (k : A -> M B) P R Q :
  clean P m R -> (forall a, clean (R a) (k a) Q) -> clean P (bind m k) Q.
Proof.
  intros Hm Hk w Ht HP. specialize (Hm w Ht HP). unfold bind.
  destruct (m w) as [[a|] w']; [|done]. destruct Hm as [Ht' HR]. by apply Hk.
Qed.

Lemma clean_try {A B E F} (m : M (result A E)) (f : E -> F) (k : A -> M (result B F)) P R Q :
  clean P m (fun r w => match r with Ok a => R a w | Err _ => False end) ->
  (forall a, clean (R a) (k a) Q) -> clean P (try_bind m f k) Q.
Proof.
  intros Hm Hk. eapply clean_bind; [done|]. intros [a|e]; [apply Hk|]. by intros w _ [].
Qed.

Lemma clean_conseq {A} (m : M A) (P P' : World State Ext -> Prop) (Q Q' : A -> World State Ext -> Prop) :
  clean P m Q -> (forall w, P' w -> P w) -> (forall a w, Q a w -> Q' a w) -> clean P' m Q'.
Proof.
  intros Hm HP HQ w Ht HP'. specialize (Hm w Ht (HP _ HP')). destruct (m w) as [[a|] w']; naive_solver.
Qed.

Lemma clean_db_call {A} (stmt : Z -> State -> result A sqlx_error * State) P Q :
  (forall w, P w -> Q (fst (stmt 0 (db w))) (mkWorld (snd (stmt 0 (db w))) [] (ext w))) ->
  clean P (db_call stmt) Q.
Proof.
  intros HQ w Ht HP. specialize (HQ w HP). unfold db_call. rewrite Ht. cbn.
  destruct (stmt 0 (db w)) as [r s']. done.
Qed.

Lemma clean_ext_call {A} (f : Ext -> A * Ext) P (Q : A -> World State Ext -> Prop) :
  (forall w, P w -> Q (fst (f (ext w))) (mkWorld (db w) [] (snd (f (ext w))))) ->
  clean P (ext_call f) Q.
Proof.
  intros HQ w Ht HP. specialize (HQ w HP). unfold ext_call. destruct (f (ext w)) as [a x].
  rewrite Ht. cbn in *. done.
Qed.

Section Setting.
Context `{Strkey}.
Variable out : Outside.
Variables (wallet_id : Uuid) (account_g : string) (webhooks tracker : bool) (clock : Z).
Variable base_url : string.

(** Horizon answers every question about a claim at the first attempt. *)
Definition claims_answered : Prop :=
  (forall n id, is_ok (classify (http_effects out n (effects_url base_url id) 0)) = true) /\
  (forall n b, is_ok (classify (http_origin out n (origin_url base_url b) 0)) = true).

(** The breaker is closed and the wallet exists. *)
Definition wallet_exists (s : State) : bool :=
  existsb (fun r => bool_decide (w_id r = wallet_id)) (wallets s).

Definition ready (w : World State Ext) : Prop :=
  hp_base_url (x_horizon (ext w)) = base_url /\
  Resilience.state (Resilience.inner (hp_circuit (x_horizon (ext w)))) = Resilience.Closed /\
  wallet_exists (db w) = true.

(** ** Horizon requests *)

Lemma execute_first_ok {T E} `{Resilience.Retriable E} pw policy (env : nat -> Resilience.Round T E) b t1 t2 v :
  Resilience.state (Resilience.inner b) = Resilience.Closed ->
  Resilience.response (env 0%nat) = Ok v ->
  let x := Resilience.execute pw policy env Resilience.ReadOnly b t1 t2 in
  Resilience.returned x = Some (Ok v) /\
  Resilience.state (Resilience.inner (Resilience.breaker x)) = Resilience.Closed.
Proof.
  intros Hb Hv. unfold Resilience.execute, Resilience.check. rewrite Hb. cbn [fst].
  pose proof (Resilience.attempt_limit_pos policy Resilience.ReadOnly).
  destruct (Resilience.attempt_limit policy Resilience.ReadOnly) as [|n]; [lia|].
  cbn [Resilience.attempts]. rewrite Hv. done.
Qed.

Lemma clean_horizon_call {A T} (http : nat -> string -> nat -> http_response T)
    (url : string -> string)
    (f : result (list T) (Resilience.ResilienceError IngestFetchError) -> result A HorizonError)
    (P : World State Ext -> Prop) (Q : result A HorizonError -> Prop) :
  (forall n, exists rs, classify (http n (url base_url) 0%nat) = Ok rs /\ Q (f (Ok rs))) ->
  (forall w, P w -> ready w) ->
  (forall w h, P w -> ready (mkWorld (db w) [] (mkExt h (x_effects (ext w)))) ->
     P (mkWorld (db w) [] (mkExt h (x_effects (ext w))))) ->
  clean P
    (horizon_call (fun h => let '(r, h') := fetch_records out http (url (hp_base_url h)) h in
                            (option_map f r, h')))
    (fun r w => P w /\ Q r).
Proof.
  intros HQ HP HP' w Ht Hw. pose proof (HP w Hw) as (Hb & Hc & He). unfold horizon_call, fetch_records.
  destruct (HQ (hp_requests (x_horizon (ext w)))) as (rs & Hrs & HQrs).
  match goal with |- context [Resilience.execute ?pw ?pol ?env _ ?b ?t1 ?t2] =>
    destruct (execute_first_ok pw pol env b t1 t2 rs Hc) as [Hret Hcl] end.
  { cbn. by rewrite Hb. }
  cbn in Hret, Hcl |- *. rewrite Hret. cbn. rewrite Ht. split_and!; [done| |done].
  apply HP'; [done|]. split_and!; done.
Qed.

(** ** One record *)

(** The page read from the database does not move the wallets or addresses. *)
Lemma clean_query {A B} (q : Z -> State -> A) (f : result A sqlx_error -> B) (P : World State Ext -> Prop) :
  (forall w, P w -> P (mkWorld (db w) [] (ext w))) ->
  clean P (bind (query q) (fun r => ret (f r)))
    (fun b w => P w /\ b = f (Ok (q 0 (db w)))).
Proof.
  intros HP. eapply clean_bind with (R := fun r w => P w /\ r = Ok (q 0 (db w))).
  - apply clean_db_call. cbn. auto.
  - intros r. apply clean_ret. by intros w [Hw ->].
Qed.

Lemma ready_no_ticks w : ready w -> ready (mkWorld (db w) [] (ext w)).
Proof. done. Qed.

Lemma clean_emit e : clean ready (emit e) (fun _ => ready).
Proof. apply clean_ext_call. intros w Hw. exact Hw. Qed.

Lemma clean_fire tx : clean ready (fire_deposit_webhook wallet_id webhooks tx) (fun _ => ready).
Proof.
  unfold fire_deposit_webhook. destruct webhooks; cbn [negb]; [|by apply clean_ret].
  eapply clean_bind with (R := fun _ => ready); [|intros; apply clean_emit].
  destruct (tx_address_id tx); [|by apply clean_ret].
  eapply clean_bind with (R := fun _ => ready); [|intros; by apply clean_ret].
  eapply clean_conseq; [apply (clean_query _ _ ready ready_no_ticks)|done|]. by intros ? w [].
Qed.

Lemma clean_settle {B} i t st (f : result bool sqlx_error -> B) :
  clean ready (bind (db_call (settle_payment_stmt i t st)) (fun r => ret (f r))) (fun _ => ready).
Proof.
  eapply clean_bind with (R := fun _ => ready); [|intros; by apply clean_ret].
  apply clean_db_call. intros w Hw.
  destruct (settle_payment_stmt_db i t st 0 (db w)) as [->| ->]; exact Hw.
Qed.

Lemma clean_any_query {A B} (q : Z -> State -> A) (f : result A sqlx_error -> B) :
  clean ready (bind (query q) (fun r => ret (f r))) (fun _ => ready).
Proof.
  eapply clean_conseq; [apply (clean_query _ _ ready ready_no_ticks)|done|]. by intros ? w [].
Qed.

Lemma clean_match a : clean ready (match_payment wallet_id a) (fun _ => ready).
Proof.
  unfold match_payment. eapply clean_bind; [apply clean_any_query|].
  intros [[p|]|];
    (eapply clean_bind; [apply clean_any_query|]).
  1: intros; by apply clean_ret.
  all: intros [[l|]|]; [|by apply clean_ret..];
    eapply clean_bind; [apply clean_any_query|intros; by apply clean_ret].
Qed.

Lemma clean_confirm tx : clean ready (confirm_payment_link wallet_id webhooks tx) (fun _ => ready).
Proof.
  unfold confirm_payment_link. case_match; [by apply clean_ret|].
  destruct (tx_address_id tx) as [a|]; [|by apply clean_ret].
  eapply clean_bind; [apply clean_match|].
  intros [[link payment]|]; [|by apply clean_ret].
  destruct (is_closed_at _ _); [by apply clean_ret|].
  destruct (tx_amount_stroops tx =? _); cbn [negb]; (eapply clean_bind; [apply clean_settle|]);
    (intros [[]|]; [|by apply clean_ret..]); unfold dispatch;
    (destruct webhooks; [apply clean_emit|by apply clean_ret]).
Qed.

Definition ok_ready {A E} (r : result A E) (w : World State Ext) : Prop := is_ok r = true /\ ready w.

Lemma violation_names t l c :
  first_violation (tx_violates t) l = Some c -> c <> "idx_addresses_wallet_customer_ref".
Proof.
  intros (r & _ & Hr)%first_violation_Some. unfold tx_violates in Hr.
  repeat case_match; simplify_eq; discriminate.
Qed.

(** A deposit of the wallet on one of its addresses is inserted or found to be a
    duplicate, never refused. *)
Lemma clean_record_deposit rec toid c v a :
  0 < v ->
  clean (fun w => ready w /\
      match a with
      | Some id => existsb (fun r => bool_decide (a_id r = id)) (addresses (db w)) = true
      | None => True
      end)
    (record_deposit (new_deposit wallet_id rec toid c v a)) (fun r w => ok_ready r w).
Proof.
  intros Hv. eapply clean_bind with (R := fun r w => ready w /\
    match r with
    | Ok _ => True
    | Err (UniqueViolation cn) => cn <> "idx_addresses_wallet_customer_ref"
    | Err OtherDbError => False
    end).
  - apply clean_db_call. intros w [Hr Ha]. pose proof Hr as (_ & _ & Hw).
    unfold insert_transaction, tx_checks, tx_foreign_keys. cbn.
    replace (0 <? v) with true by lia. cbn.
    destruct (first_violation _ _) as [cn|] eqn:E; cbn.
    + split; [done|]. by eapply violation_names.
    + unfold wallet_exists in Hw. rewrite Hw. cbn. destruct a as [id|]; cbn; [rewrite Ha|]; done.
  - intros r. apply clean_ret. intros w [Hr Hm]. split; [|done].
    destruct r as [t|[cn|]]; [done| |done]. cbn. by rewrite bool_decide_eq_false_2.
Qed.

Lemma clean_record_credit rec toid c :
  clean ready (record_credit wallet_id webhooks rec toid c) ok_ready.
Proof.
  unfold record_credit. destruct (to_stroops (c_amount c)) as [v|]; [|by apply clean_ret].
  destruct (Z.leb_spec v 0); [by apply clean_ret|].
  eapply clean_try with (R := fun addr w => ready w /\
      match option_map a_id addr with
      | Some id => existsb (fun r => bool_decide (a_id r = id)) (addresses (db w)) = true
      | None => True
      end).
  - destruct (c_customer_id c) as [cid|]; [|by apply clean_ret].
    eapply clean_conseq; [apply (clean_query _ _ ready ready_no_ticks)|done|].
    intros r w [Hr ->]. cbn. split; [done|].
    destruct (List.find _ _) as [x|] eqn:E; cbn; [|done].
    apply List.find_some in E as [Hin _]. apply existsb_exists. exists x. split; [done|].
    by apply bool_decide_eq_true.
  - intros addr. eapply clean_try with (R := fun _ => ready).
    + eapply clean_conseq; [by apply clean_record_deposit|done|]. by intros [] w [].
    + intros [tx|]; [|by apply clean_ret].
      eapply clean_bind; [apply clean_emit|intros ?].
      eapply clean_bind; [apply clean_fire|intros ?].
      eapply clean_bind; [apply clean_confirm|intros ?]. by apply clean_ret.
Qed.

Lemma clean_claim rec :
  claims_answered ->
  clean ready (claim_credit_of out account_g rec) ok_ready.
Proof.
  intros [He Ho]. unfold claim_credit_of. case_bool_decide; cbn [negb]; [|by apply clean_ret].
  destruct (r_balance_id rec) as [b|]; [|by apply clean_ret].
  destruct (is_balance_id b); cbn [negb]; [|by apply clean_ret].
  eapply clean_try with (R := fun _ => ready).
  - eapply clean_conseq; [|done|].
    + apply (clean_horizon_call (http_effects out) (fun u => effects_url u (r_id rec))
        (fun r => result_bind (map_err map_resilience r) (fun e => Ok (find_credit account_g e)))
        ready (fun r => is_ok r = true)); [|done..].
      intros n. specialize (He n (r_id rec)). destruct (classify _); [|done]. eauto.
    + by intros [] w [].
  - intros [cr|]; [|by apply clean_ret]. eapply clean_try with (R := fun _ => ready).
    + eapply clean_conseq; [|done|].
      * apply (clean_horizon_call (http_origin out) (fun u => origin_url u b)
          (fun r => result_bind (map_err map_resilience r) (fun o => Ok (find_origin o)))
          ready (fun r => is_ok r = true)); [|done..].
        intros n. specialize (Ho n b). destruct (classify _); [|done]. eauto.
      * by intros [] w [].
    + intros o. case_match; by apply clean_ret.
Qed.

Lemma clean_process rec :
  claims_answered ->
  clean ready (process out wallet_id account_g webhooks clock rec) ok_ready.
Proof.
  intros Hcl. unfold process. destruct (is_from_successful_tx rec); cbn [negb]; [|by apply clean_ret].
  destruct (record_toid clock rec) as [toid|]; [|by apply clean_ret].
  eapply clean_try with (R := fun _ => ready).
  - case_bool_decide; [|by apply clean_ret].
    eapply clean_conseq; [by apply clean_claim|done|]. by intros [] w [].
  - intros [c|]; [apply clean_record_credit|by apply clean_ret].
Qed.

(** ** The page *)

Lemma clean_set_cursor tok :
  clean ready (set_cursor wallet_id tok)
    (fun r w => is_ok r = true /\ ready w /\ cursor_of (db w) wallet_id = Some tok).
Proof.
  eapply clean_bind with (R := fun r w => r = Ok tt /\ ready w /\ cursor_of (db w) wallet_id = Some tok).
  - apply clean_db_call. intros w Hr. pose proof Hr as (_ & _ & Hw). cbn.
    unfold set_cursor_stmt.
    set (fresh := mkIngestCursor wallet_id (Some tok) 0 None).
    set (upd := fun c => mkIngestCursor wallet_id (Some tok) 0 (ic_last_polled_at c)).
    assert (Hok : fst (upsert_cursor wallet_id fresh upd (db w)) = Ok tt /\
                  ready (mkWorld (snd (upsert_cursor wallet_id fresh upd (db w))) [] (ext w))).
    { unfold upsert_cursor. unfold wallet_exists in Hw. rewrite Hw. case_match; done. }
    destruct Hok as [Hok Hr']. split_and!; [done| |by apply cursor_of_upsert]. exact Hr'.
  - intros r. apply clean_ret. by intros w (-> & Hr & Hc).
Qed.

Lemma clean_process_all rs : forall n c0,
  claims_answered ->
  clean (fun w => ready w /\ cursor_of (db w) wallet_id = c0)
    (process_all out wallet_id account_g webhooks clock rs n)
    (fun r w => r = Ok (n + Z.of_nat (length rs)) /\
       ready w /\ cursor_of (db w) wallet_id =
         match last rs with Some r => Some (r_paging_token r) | None => c0 end).
Proof.
  induction rs as [|rec rs IH]; intros n c0 Hcl; cbn [process_all].
  { apply clean_ret. intros w Hw. cbn. by rewrite Z.add_0_r. }
  eapply clean_try with (R := fun _ => ready).
  - eapply clean_conseq; [by apply clean_process|by intros w []|]. by intros [] w [].
  - intros _. eapply clean_try with
      (R := fun _ w => ready w /\ cursor_of (db w) wallet_id = Some (r_paging_token rec)).
    + eapply clean_conseq; [apply clean_set_cursor|done|]. by intros [] w (? & ? & ?).
    + intros _. eapply clean_conseq; [by apply (IH (n + 1) (Some (r_paging_token rec)) Hcl)|done|].
      intros r w (-> & Hr & Hcur). split_and!; [f_equal; cbn [length]; lia|done|].
      rewrite Hcur. destruct rs as [|r' rs']; [done|]. rewrite last_cons_cons.
      destruct (last (r' :: rs')) eqn:El; [done|]. by apply last_None in El.
Qed.

(** ** The poll *)

Definition last_token (rs : list PaymentRecord) (c0 : option string) : option string :=
  match last rs with Some r => Some (r_paging_token r) | None => c0 end.

Definition ready_at (c0 : option string) (w : World State Ext) : Prop :=
  ready w /\ cursor_of (db w) wallet_id = c0.

Lemma clean_poll_success {A} (a : A) c :
  clean (ready_at c) (bind (record_poll_success wallet_id tracker) (fun _ => ret a))
    (fun r w => r = a /\ ready_at c w).
Proof.
  eapply clean_bind with (R := fun _ => ready_at c); [|intros; by apply clean_ret].
  unfold record_poll_success. destruct tracker; [|by apply clean_ret].
  apply clean_ext_call. intros w Hw. exact Hw.
Qed.

Lemma clean_page rs c0 limit :
  (forall n, classify (http_operations out n (operations_url base_url account_g c0 limit) 0) = Ok rs) ->
  clean (ready_at c0) (horizon_call (payments_after out account_g c0 limit))
    (fun r w => ready_at c0 w /\ r = Ok rs).
Proof.
  intros Hpage.
  apply (clean_horizon_call (http_operations out)
    (fun u => operations_url u account_g c0 limit) (map_err map_resilience) (ready_at c0)
    (fun r => r = Ok rs)); [|by intros w []|by intros w h [_ Hc]].
  intros n. exists rs. split; [apply Hpage|done].
Qed.

Lemma clean_poll_once rs c0 limit :
  claims_answered ->
  (forall n, classify (http_operations out n (operations_url base_url account_g c0 limit) 0) = Ok rs) ->
  clean (ready_at c0) (poll_once out wallet_id account_g webhooks tracker clock limit)
    (fun r w => r = Ok (Z.of_nat (length rs)) /\ ready_at (last_token rs c0) w).
Proof.
  intros Hcl Hpage. unfold poll_once.
  eapply clean_try with (R := fun c w => ready_at c0 w /\ c = c0).
  { eapply clean_conseq; [by apply (clean_query _ _ (ready_at c0))|done|].
    intros r w [Hw ->]. split; [done|]. apply Hw. }
  intros c w Ht [Hw ->]. revert w Ht Hw.
  eapply clean_try with (R := fun r w => ready_at c0 w /\ r = rs).
  { eapply clean_conseq; [by apply clean_page|intros w Hw; exact Hw|]. by intros r w [Hw ->]. }
  intros r w Ht [Hw ->]. revert w Ht Hw.
  eapply clean_try with (R := fun n w => n = Z.of_nat (length rs) /\ ready_at (last_token rs c0) w).
  { eapply clean_conseq; [by apply (clean_process_all rs 0 c0 Hcl)|done|]. by intros r w (-> & Hr & Hc). }
  intros n w Ht [-> Hw]. revert w Ht Hw. apply clean_poll_success.
Qed.
End Setting.

(** A page that a poll went through, on a database that kept the invariant: the cursor is at its end, so
    each of its records has the row that it deserves. *)
Section Page.
Context `{Strkey}.
Variables (out : Outside) (wallet_id : Uuid) (account_g base_url : string) (retry : Resilience.RetryPolicy).
Variables (chain : list PaymentRecord) (claim_fact : string -> option ClaimCredit) (origin_fact : string -> option ClaimOrigin).

Definition has_its_row (s : State) (rec : PaymentRecord) : Prop :=
  is_Some (ExactlyOnce.expected account_g claim_fact origin_fact rec) ->
  exists row, ExactlyOnce.rows_of rec s = [row] /\ ExactlyOnce.credits wallet_id account_g claim_fact origin_fact row rec.

Lemma page_recorded rs c0 s limit n k :
  ExactlyOnce.horizon_ok out account_g base_url retry chain claim_fact origin_fact ->
  ExactlyOnce.Inv wallet_id account_g chain claim_fact origin_fact s ->
  answered (http_operations out n (operations_url base_url account_g c0 limit) k) rs ->
  cursor_of s wallet_id = last_token rs c0 -> Forall (has_its_row s) rs.
Proof.
  intros Hh Hi Ha Hc. pose proof Hh as [_ Hpages _ _ _ _ _ _ _]. destruct (Hpages _ _ _ _ _ Ha) as [->|(pre & post & Hch & Hat)]; [constructor|].
  destruct rs as [|r0 rs0] using rev_ind; [constructor|]. clear IHrs0.
  pose proof (ExactlyOnce.Inv_once _ _ _ _ _ s Hi) as (_ & Hrow & pre2 & post2 & Hch2 & Hat2 & Hall).
  unfold last_token in Hc. rewrite last_snoc in Hc. rewrite Hc in Hat2.
  assert (Hat1 : ExactlyOnce.cursor_at (Some (r_paging_token r0)) (pre ++ rs0 ++ [r0])).
  { exists (pre ++ rs0), r0. by rewrite <- app_assoc. }
  assert (pre2 = pre ++ rs0 ++ [r0]) as ->.
  { eapply (ExactlyOnce.nodup_token_prefix out account_g base_url retry chain claim_fact origin_fact Hh); [exact Hch2| |exact Hat2|exact Hat1].
    by rewrite Hch, <- !app_assoc. }
  apply Forall_app in Hall as [_ Hall]. apply Forall_forall. intros rec Hin Hexp.
  pose proof (proj1 (Forall_forall _ _) Hall rec Hin Hexp) as Hlen. destruct (ExactlyOnce.rows_of rec s) as [|row [|]] eqn:Er; [done| |done].
  exists row. split; [done|]. apply Hrow; [rewrite Hch; set_solver|]. rewrite Er. by apply list_elem_of_singleton.
Qed.
End Page.

(** C3: progress. When nothing fails (the fault schedule is empty, the wallet
    exists, the breaker is closed) and Horizon answers the page request with the
    records [rs] and every question about a claim, a poll returns the number of
    records and leaves the cursor at the token of the last one (where it was, if
    the page is empty). When, in addition, the pages and answers of Horizon are
    those of a history of the account and the database keeps the invariant of
    the ingest worker, every record of the page that deserves a credit has
    exactly one row after the poll, with exactly that credit. *)
Theorem poll_progress `{Strkey} (out : Outside) (wallet_id : Uuid) (account_g : string)
    (webhooks tracker : bool) (clock : Z) (base_url : string) (limit : Z) (w : World State Ext)
    (rs : list PaymentRecord) :
  ticks w = [] -> ready wallet_id base_url w -> claims_answered out base_url ->
  (forall n, classify (http_operations out n
     (operations_url base_url account_g (cursor_of (db w) wallet_id) limit) 0) = Ok rs) ->
  exists w', poll_once out wallet_id account_g webhooks tracker clock limit w
             = (Ret (Ok (Z.of_nat (length rs))), w') /\
    cursor_of (db w') wallet_id = last_token rs (cursor_of (db w) wallet_id) /\
    forall retry chain claim_fact origin_fact,
      ExactlyOnce.horizon_ok out account_g base_url retry chain claim_fact origin_fact ->
      ExactlyOnce.Inv wallet_id account_g chain claim_fact origin_fact (db w) ->
      ExactlyOnce.client_ok base_url retry (ext w) ->
      Forall (has_its_row wallet_id account_g claim_fact origin_fact (db w')) rs.
Proof.
  intros Ht Hr Hcl Hpage.
  pose proof (clean_poll_once out wallet_id account_g webhooks tracker clock base_url rs _ limit Hcl
    Hpage w Ht (conj Hr eq_refl)) as Hclean.
  destruct (poll_once _ _ _ _ _ _ _ w) as [[r|] w'] eqn:Ep; [|done].
  destruct Hclean as (_ & -> & _ & Hc). exists w'. split_and!; [done..|].
  intros retry chain cf of_ Hh Hi Hx.
  destruct (ExactlyOnce.poll_once_spec out wallet_id account_g webhooks tracker base_url retry chain cf of_ Hh clock limit w Hi) as [_ Hi'].
  { split; [|done]. unfold ticks_ok. rewrite Ht. constructor. }
  rewrite Ep in Hi'. cbn in Hi'.
  by eapply page_recorded; [done|done|apply classify_Ok, (Hpage 0%nat)|].
Qed.

Module Example.
Import ExactlyOnce.Example WalletAddress.Toy.

Definition answering : Outside := {|
  powi := powi horizon;
  http_operations := http_operations horizon;
  http_effects _ _ _ := Response 404 None;
  http_origin _ _ _ := Response 404 None;
  timing := timing horizon;
  first_check := first_check horizon
|}.

Definition clean_world : World State Ext :=
  mkWorld empty_db [] (mkExt (HorizonPayments_new "https://h/") []).

Lemma answering_is_ok :
  ExactlyOnce.horizon_ok answering acct "https://h/" Resilience.RetryPolicy_default history no_claim no_origin.
Proof.
  destruct horizon_is_ok as [H1 H2 _ _ H5 H6 H7 H8 H9]. constructor; [exact H1|exact H2| | |exact H5|exact H6|exact H7|exact H8|exact H9].
  - intros n k rec rs _ [[_ ->]|[_ [=]]]. reflexivity.
  - intros n k b rs [[_ ->]|[_ [=]]]. reflexivity.
Qed.

Lemma poll_progress_witness :
  exists w', poll_once answering 1 acct true true 0 10 clean_world = (Ret (Ok 2), w') /\
    cursor_of (db w') 1 = Some "12884905986" /\ exists row, ExactlyOnce.rows_of rec1 (db w') = [row] /\ tx_amount_stroops row = 125000000.
Proof.
  destruct (poll_progress answering 1 acct true true 0 "https://h/" 10 clean_world history) as (w' & Ep & Ec & Hrows).
  - reflexivity.
  - split; [reflexivity|split; reflexivity].
  - split; reflexivity.
  - intros n. vm_compute. reflexivity.
  - exists w'. split; [exact Ep|]. split; [exact Ec|].
    pose proof (Hrows _ _ _ _ answering_is_ok empty_db_Inv (conj eq_refl eq_refl)) as Hall.
    apply Forall_cons in Hall as [Hrow _]. destruct Hrow as (row & Er & toid & c & v & He & _ & _ & _ & Hv & _).
    { vm_compute. eexists. reflexivity. }
    exists row. split; [exact Er|]. rewrite Hv. vm_compute in He. injection He as _ _ <-. reflexivity.
Defined.
End Example.
End Progress.
