(* ===== verification/PaymentMatch.v ===== *)
(** * Which payment a deposit settles

    [Ingestor::confirm_payment_link]: when a deposit settles a payment intent,
    and as what. The database is not changed by others during the call, so that
    its effect can be stated exactly; statements may still fail before or after
    taking effect, and the process may die. *)

From S2P Require Import Prelude Db Amount Toid Float64 Resilience WalletAddress Paging Store PaymentLinks HorizonIngest Ingest.

Module PaymentMatch.
Import Db WalletAddress Store PaymentLinks HorizonIngest Ingest.

(** The intent a deposit on [address_id] is matched with: the intent's own
    address, or for older intents the oldest pending one of the link whose address
    it is. *)
Definition matches (s : State) (wallet_id address_id : Uuid) (link : PaymentLink)
    (p : PaymentLinkPayment) : Prop :=
  p ∈ payment_link_payments s /\ p_status p = "pending" /\
  p_payment_link_id p = pl_id link /\ link ∈ payment_links s /\
  ((p_address_id p = Some address_id /\ pl_wallet_id link = wallet_id) \/
   pl_address_id link = address_id).

(** What a deposit may do to the payments. *)
Definition settles (wallet_id : Uuid) (tx : Transaction) (s s' : State) : Prop :=
  s' = s \/
  exists address_id link p status now,
    tx_address_id tx = Some address_id /\
    tx_asset_code tx = "USDC" /\ tx_asset_issuer tx = Some USDC_TESTNET_ISSUER /\
    matches s wallet_id address_id link p /\ is_closed_at link (tx_created_at tx) = false /\
    status = match Z.compare (tx_amount_stroops tx) (p_amount_usdc_stroops p) with
             | Lt => "underpaid" | Eq => "confirmed" | Gt => "overpaid" end /\
    s' = snd (settle_payment_stmt (p_id p) (tx_id tx) status now s).

Lemma first_by_elem {A} (key : A -> Z) l a : first_by key l = Some a -> a ∈ l.
Proof.
  revert a. induction l as [|x l IH]; intros a; cbn; [done|].
  destruct (first_by key l) as [b|]; [|intros [= <-]; left].
  case_match; intros [= <-]; [left|right; by apply IH].
Qed.

Section Setting.
Context `{Strkey}.
Variables (wallet_id : Uuid) (webhooks : bool).
Let J (_ : Ext) : Prop := True.
Variable s0 : State.
Let I (s : State) : Prop := s = s0.

Lemma stable_I : stable eq I.
Proof. by intros s s' Hs <-. Qed.

Lemma query_I {A B} (q : Z -> State -> A) (f : result A sqlx_error -> B) :
  triple eq J I (bind (query q) (fun r => ret (f r)))
    (fun b s => I s /\ ((exists now, b = f (Ok (q now s0))) \/ b = f (Err OtherDbError))) I.
Proof.
  eapply triple_bind with (R := fun r s => I s /\ ((exists now, r = Ok (q now s0)) \/ r = Err OtherDbError)).
  - apply triple_query; [done|apply stable_I| |by intros s Hs; split; [|right]|done].
    intros now s ->. split; [done|]. left. by exists now.
  - intros r. apply triple_ret. intros s [Hs Hr]. split; [done|]. naive_solver.
Qed.

Lemma match_payment_spec a :
  triple eq J I (match_payment wallet_id a)
    (fun m s => I s /\ match m with Some (link, p) => matches s0 wallet_id a link p | None => True end) I.
Proof.
  assert (Hfb : triple eq J I
    (bind (get_payment_link_by_address a) (fun link =>
       match link with
       | Ok (Some link) =>
           bind (oldest_pending_payment_link_payment (pl_id link)) (fun payment =>
             ret match payment with Ok (Some payment) => Some (link, payment) | _ => None end)
       | _ => ret None
       end))
    (fun m s => I s /\ match m with Some (link, p) => matches s0 wallet_id a link p | None => True end) I).
  { eapply triple_bind; [apply query_I|]. intros [[l|]|]; [|by apply triple_ret; naive_solver..].
    apply triple_pure. intros Hl.
    assert (Hl' : l ∈ payment_links s0 /\ pl_address_id l = a).
    { destruct Hl as [[now E]|E]; [|done]. injection E as E. symmetry in E.
      apply List.find_some in E as [? E]. rewrite list_elem_of_In. by apply bool_decide_eq_true in E. }
    eapply triple_bind; [apply query_I|]. intros r. apply triple_ret. intros s [Hs Hr].
    split; [done|]. destruct r as [[p|]|]; try done.
    destruct Hr as [[now E]|E]; [|done]. injection E as E. symmetry in E.
    apply first_by_elem, list_elem_of_In, filter_In in E as [Hp E].
    apply andb_true_iff in E as [E1%bool_decide_eq_true E2%bool_decide_eq_true].
    split_and!; try done; [by apply list_elem_of_In|apply Hl'|right; apply Hl']. }
  unfold match_payment. eapply triple_bind; [apply query_I|].
  intros [[p|]|]; [|eapply triple_conseq; [exact Hfb|by intros s []|done..]..].
  apply triple_pure. intros Hp.
  assert (Hp' : p ∈ payment_link_payments s0 /\ p_address_id p = Some a /\ p_status p = "pending").
  { destruct Hp as [[now E]|E]; [|done]. injection E as E. symmetry in E.
    apply first_by_elem, list_elem_of_In, filter_In in E as [Hin E].
    apply andb_true_iff in E as [E1%bool_decide_eq_true E2%bool_decide_eq_true].
    by rewrite list_elem_of_In. }
  eapply triple_bind; [apply query_I|]. intros r. apply triple_ret. intros s [Hs Hr].
  split; [done|]. destruct r as [l|]; [|done].
  destruct Hr as [[now E]|E]; [|done]. cbn in E.
  destruct (List.find _ _) as [l'|] eqn:Ef; [|done]. cbn in E. injection E as <-.
  apply List.find_some in Ef as [Hin Ef]. unfold owned in Ef.
  apply andb_true_iff in Ef as [E1%bool_decide_eq_true E2%bool_decide_eq_true].
  destruct Hp' as (? & ? & ?). split_and!; try done; [by apply list_elem_of_In|by left].
Qed.

Lemma settle_spec (k : result bool StoreError -> M unit) i t st :
  (forall r s, triple eq J (fun x => x = s) (k r) (fun _ x => x = s) (fun x => x = s)) ->
  triple eq J I
    (bind (bind (db_call (settle_payment_stmt i t st)) (fun r => ret (map_err from_sqlx r))) k)
    (fun _ s => s = s0 \/ exists now, s = snd (settle_payment_stmt i t st now s0))
    (fun s => s = s0 \/ exists now, s = snd (settle_payment_stmt i t st now s0)).
Proof.
  intros Hk. set (Q := fun s => s = s0 \/ exists now, s = snd (settle_payment_stmt i t st now s0)).
  eapply triple_bind with (R := fun _ => Q).
  - eapply triple_bind with (R := fun _ => Q); [|intros r; by apply triple_ret].
    apply triple_db_call; [done|apply stable_I| |].
    + intros now s ->. split_and!; right; by exists now.
    + intros s ->. split; by left.
  - intros r w Hw Hok. pose proof (Hk r (db w) w eq_refl Hok) as [Hok' Hr]. split; [done|].
    destruct (fst (k r w)); by rewrite Hr.
Qed.

Lemma dispatch_same e s :
  triple eq J (fun x => x = s) (dispatch wallet_id webhooks e) (fun _ x => x = s) (fun x => x = s).
Proof.
  unfold dispatch, emit. destruct webhooks; [|by apply triple_ret]. by apply triple_ext_call.
Qed.

Lemma confirm_payment_link_spec tx :
  triple eq J I (confirm_payment_link wallet_id webhooks tx)
    (fun _ s => settles wallet_id tx s0 s) (settles wallet_id tx s0).
Proof.
  unfold confirm_payment_link.
  destruct (bool_decide (tx_asset_code tx = "USDC")) eqn:E1; cbn [negb orb];
    [|apply triple_ret; intros s ->; by left].
  destruct (bool_decide (tx_asset_issuer tx = Some USDC_TESTNET_ISSUER)) eqn:E2; cbn [negb orb];
    [|apply triple_ret; intros s ->; by left].
  apply bool_decide_eq_true in E1, E2.
  destruct (tx_address_id tx) as [a|] eqn:Ea; [|apply triple_ret; intros s ->; by left].
  eapply triple_bind; [eapply triple_conseq; [apply match_payment_spec|done|done|intros s ->; by left]|].
  intros [[link p]|]; [|apply triple_ret; intros s [-> _]; by left].
  apply triple_pure. intros Hm.
  destruct (is_closed_at link (tx_created_at tx)) eqn:Ecl; [apply triple_ret; intros s ->; by left|].
  assert (Hset : forall st now, st = match Z.compare (tx_amount_stroops tx) (p_amount_usdc_stroops p) with
             | Lt => "underpaid" | Eq => "confirmed" | Gt => "overpaid" end ->
      settles wallet_id tx s0 (snd (settle_payment_stmt (p_id p) (tx_id tx) st now s0))).
  { intros st now Hst. right. exists a, link, p, st, now. done. }
  destruct (Z.eqb_spec (tx_amount_stroops tx) (p_amount_usdc_stroops p)) as [Heq|Hne]; cbn [negb].
  - eapply triple_conseq; [apply settle_spec|done| |].
    + intros [[]|] s; [apply dispatch_same|by apply triple_ret..].
    + intros _ s [->|[now ->]]; [by left|]. apply Hset. by rewrite Heq, Z.compare_refl.
    + intros s [->|[now ->]]; [by left|]. apply Hset. by rewrite Heq, Z.compare_refl.
  - assert (Hst : (if tx_amount_stroops tx <? p_amount_usdc_stroops p then "underpaid" else "overpaid") =
      match Z.compare (tx_amount_stroops tx) (p_amount_usdc_stroops p) with
      | Lt => "underpaid" | Eq => "confirmed" | Gt => "overpaid" end).
    { unfold Z.ltb. destruct (Z.compare_spec (tx_amount_stroops tx) (p_amount_usdc_stroops p)); done. }
    eapply triple_conseq; [apply settle_spec|done| |].
    + intros [[]|] s; [apply dispatch_same|by apply triple_ret..].
    + intros _ s [->|[now ->]]; [by left|]. by apply Hset.
    + intros s [->|[now ->]]; [by left|]. by apply Hset.
Qed.
End Setting.

(** C6: a deposit settles at most one payment intent, and only the right one. With
    no other writer, whatever fails during [confirm_payment_link], the database is
    unchanged or exactly one settlement statement took effect, for a pending
    intent matched by the deposit's address, of a link that is not closed at the
    deposit's time, and only for a USDC deposit of the expected issuer; the
    intent becomes [confirmed] exactly when the deposited amount is the quoted
    one, and [underpaid] or [overpaid] otherwise. *)
Theorem payment_confirmed_exactly (wallet_id : Uuid) (webhooks : bool) (tx : Transaction)
    (w : World State Ext) :
  Forall (fun t => forall s, t_others t s = s) (ticks w) ->
  settles wallet_id tx (db w) (db (snd (confirm_payment_link wallet_id webhooks tx w))).
Proof.
  intros Ht. destruct (confirm_payment_link_spec wallet_id webhooks (db w) tx w eq_refl) as [_ Hr].
  - split; [|done]. eapply Forall_impl; [exact Ht|]. cbn. auto.
  - destruct (fst _); exact Hr.
Qed.

Definition ex_link : PaymentLink :=
  mkPaymentLink 5 1 20 "slug" "n" None None None (Some 700) true 0 0 (Some 1000) None.
Definition ex_intent : PaymentLinkPayment :=
  mkPaymentLinkPayment 7 5 None (Some 21) None None 700 "pending" 0.
Definition ex_deposit : Transaction :=
  mkTransaction 30 1 (Some 21) "deposit" "USDC" (Some USDC_TESTNET_ISSUER) 700 None None (Some "h")
    (Some 0) (Some "1") None None "confirmed" None [] 999.
Definition ex_world : World State Ext :=
  mkWorld (mkState 40 [] [] [ex_deposit] [] [ex_link] [ex_intent] []) []
    (mkExt (HorizonPayments_new "h") []).

Lemma payment_confirmed_exactly_witness :
  map p_status (payment_link_payments (db (snd (confirm_payment_link 1 true ex_deposit ex_world))))
    = ["confirmed"] /\
  settles 1 ex_deposit (db ex_world) (db (snd (confirm_payment_link 1 true ex_deposit ex_world))).
Proof.
  split; [vm_compute; reflexivity|]. apply (payment_confirmed_exactly 1 true ex_deposit ex_world).
  apply Forall_nil_2.
Defined.

End PaymentMatch.
