(* ===== verification/Sponsorship.v ===== *)
(** * Gas sponsorship and the withdrawal allowlist

    [crates/store/src/sponsorship.rs]: the sponsorship configuration, the ledger
    of sponsored transactions with its daily budget, and the list of approved
    withdrawal destinations.

    [try_reserve_sponsored_transaction] holds an advisory lock on the wallet for
    its whole transaction, so a reservation is one atomic step of its wallet.
    [now()] is the time the transaction began, before it waited for the lock, so
    successive reservations may carry times in any order. *)

From S2P Require Import Prelude Db Paging Store.

Module Sponsorship.
Import Db Paging.
Import Store (Uuid, sum_bigint, null_or, update_where, count_where, first_violation).
Local Open Scope db_scope.

Record SponsoredTransaction := mkSponsoredTransaction {
  s_id : Uuid;
  s_wallet_id : Uuid;
  s_inner_tx_hash : string;
  s_fee_bump_tx_hash : option string;
  s_fee_stroops : Z;
  s_status : string;
  s_error : option string;
  s_created_at : Z
}.

#[export] Instance SponsoredTransaction_row : Row SponsoredTransaction :=
  {| row_created_at := s_created_at; row_id := s_id |}.

Record GasSponsorshipConfig := mkGasSponsorshipConfig {
  g_wallet_id : Uuid;
  g_enabled : bool;
  g_per_tx_fee_cap_stroops : option Z;
  g_daily_budget_stroops : option Z;
  g_created_at : Z;
  g_updated_at : Z;
  g_allowed_operations : option (list string)
}.

Record WithdrawalAllowlistConfig := mkWithdrawalAllowlistConfig {
  al_wallet_id : Uuid;
  al_enabled : bool;
  al_created_at : Z;
  al_updated_at : Z
}.

Record WhitelistedAddress := mkWhitelistedAddress {
  wl_id : Uuid;
  wl_wallet_id : Uuid;
  wl_address : string;
  wl_label : option string;
  wl_created_at : Z
}.

Record NewSponsoredTx := mkNewSponsoredTx {
  ns_wallet_id : Uuid;
  ns_inner_tx_hash : string;
  ns_fee_stroops : Z
}.

(** The tables; [wallet_ids] is the referenced key of [wallets]. *)
Record State := mkState {
  next_uuid : Uuid;
  wallet_ids : list Uuid;
  sponsored : list SponsoredTransaction;
  configs : list GasSponsorshipConfig;
  allowlists : list WithdrawalAllowlistConfig;
  whitelisted : list WhitelistedAddress
}.

Definition set_sponsored (s : State) (v : list SponsoredTransaction) : State :=
  mkState (next_uuid s) (wallet_ids s) v (configs s) (allowlists s) (whitelisted s).
Definition set_configs (s : State) (v : list GasSponsorshipConfig) : State :=
  mkState (next_uuid s) (wallet_ids s) (sponsored s) v (allowlists s) (whitelisted s).
Definition set_allowlists (s : State) (v : list WithdrawalAllowlistConfig) : State :=
  mkState (next_uuid s) (wallet_ids s) (sponsored s) (configs s) v (whitelisted s).
Definition set_whitelisted (s : State) (v : list WhitelistedAddress) : State :=
  mkState (next_uuid s) (wallet_ids s) (sponsored s) (configs s) (allowlists s) v.
Definition bump (s : State) : State :=
  mkState (next_uuid s + 1) (wallet_ids s) (sponsored s) (configs s) (allowlists s) (whitelisted s).

Definition wallet_fk (s : State) (w : Uuid) : bool := bool_decide (w ∈ wallet_ids s).

(** ** The ledger *)

(** [date_trunc('day', now() AT TIME ZONE 'UTC')], in a UTC session. *)
Definition day : Z := 86400 * 1000000.
Definition day_start (now : Z) : Z := now - now mod day.

Definition is_reserved (r : SponsoredTransaction) : bool :=
  bool_decide (s_status r ∈ ["pending"; "confirmed"]).

Definition reserved_since (wallet_id : Uuid) (t : Z) (r : SponsoredTransaction) : bool :=
  bool_decide (s_wallet_id r = wallet_id) && is_reserved r && (t <=? s_created_at r).

Definition fees (p : SponsoredTransaction -> bool) (l : list SponsoredTransaction) : list Z :=
  map s_fee_stroops (List.filter p l).

Definition sponsored_status_ok (st : string) : bool :=
  bool_decide (st ∈ ["pending"; "confirmed"; "failed"]).

(** The INSERT of a pending row, with its unique index and foreign key. *)
Definition insert_sponsored (wallet_id : Uuid) (inner_tx_hash : string) (fee_stroops now : Z)
    (s : State) : result SponsoredTransaction sqlx_error * State :=
  if existsb (fun r => bool_decide (s_inner_tx_hash r = inner_tx_hash)) (sponsored s)
  then (Err (UniqueViolation "idx_sponsored_inner_tx_hash"), s)
  else if negb (wallet_fk s wallet_id) then (Err OtherDbError, s)
  else
    let r := mkSponsoredTransaction (next_uuid s) wallet_id inner_tx_hash None fee_stroops
               "pending" None now in
    (Ok r, bump (set_sponsored s (sponsored s ++ [r]))).

(** The whole transaction of a reservation. *)
Definition reserve_tx (wallet_id : Uuid) (inner_tx_hash : string) (fee_stroops : Z)
    (daily_budget_stroops : option Z) (now : Z) (s : State) :
    result (option SponsoredTransaction) sqlx_error * State :=
  match sum_bigint (fees (reserved_since wallet_id (day_start now)) (sponsored s)) with
  | None => (Err OtherDbError, s)
  | Some total =>
      let within :=
        match daily_budget_stroops with
        | None => Ok true
        | Some budget => ok_or (option_map (fun t => t <=? budget) (try_i64 (total + fee_stroops))) OtherDbError
        end in
      match within with
      | Err e => (Err e, s)
      | Ok false => (Ok None, s)
      | Ok true =>
          match insert_sponsored wallet_id inner_tx_hash fee_stroops now s with
          | (Ok r, s') => (Ok (Some r), s')
          | (Err e, s') => (Err e, s')
          end
      end
  end.

Definition update_status_stmt (id : Uuid) (status : string) (fee_bump_tx_hash error : option string)
    (now : Z) (s : State) : result unit sqlx_error * State :=
  let p r := bool_decide (s_id r = id) in
  let f r := mkSponsoredTransaction (s_id r) (s_wallet_id r) (s_inner_tx_hash r) fee_bump_tx_hash
               (s_fee_stroops r) status error (s_created_at r) in
  if existsb p (sponsored s) && negb (sponsored_status_ok status) then (Err OtherDbError, s)
  else (Ok tt, set_sponsored s (update_where p f (sponsored s))).

Definition stale (older_than now : Z) (r : SponsoredTransaction) : bool :=
  bool_decide (s_status r = "pending") && (s_created_at r <? now - older_than).

Definition time_out (r : SponsoredTransaction) : SponsoredTransaction :=
  mkSponsoredTransaction (s_id r) (s_wallet_id r) (s_inner_tx_hash r) (s_fee_bump_tx_hash r)
    (s_fee_stroops r) "failed"
    (match s_error r with Some e => Some e | None => Some "timed out pending confirmation" end)
    (s_created_at r).

Definition reconcile_stmt (older_than now : Z) (s : State) : result Z sqlx_error * State :=
  (Ok (count_where (stale older_than now) (sponsored s)),
   set_sponsored s (update_where (stale older_than now) time_out (sponsored s))).

Definition config_of (wallet_id : Uuid) (s : State) : option GasSponsorshipConfig :=
  List.find (fun c => bool_decide (g_wallet_id c = wallet_id)) (configs s).

(** Today's reserved fees, and whether the transaction was sponsored already. *)
Definition projection_stmt (wallet_id : Uuid) (inner_tx_hash : string) (now : Z) (s : State) :
    result (Z * bool) sqlx_error * State :=
  (let? total := ok_or (sum_bigint (fees (reserved_since wallet_id (day_start now)) (sponsored s)))
                       OtherDbError in
   Ok (total, existsb (fun r => bool_decide (s_inner_tx_hash r = inner_tx_hash)) (sponsored s)), s).

(** The rows of the allowlist queries. *)
Definition allowlist_of (wallet_id : Uuid) (s : State) : option WithdrawalAllowlistConfig :=
  List.find (fun c => bool_decide (al_wallet_id c = wallet_id)) (allowlists s).

Definition whitelists (wallet_id : Uuid) (address : string) (s : State) : bool :=
  existsb (fun r => bool_decide (wl_wallet_id r = wallet_id) && bool_decide (wl_address r = address))
    (whitelisted s).

(** ** Store methods *)

Section Methods.
Context {D X : Type} {tables : Part State D}.
Notation M := (M D X).

Definition list_sponsored_transactions (wallet_id : Uuid) (limit : Z) (status_filter : option string)
    (before_id : option Uuid) : M (result (list SponsoredTransaction) StoreError) :=
  do r <- part_query (fun _ s =>
    page (fun _ => true)
         (fun t => bool_decide (s_wallet_id t = wallet_id)
                   && null_or status_filter (fun v => bool_decide (s_status t = v)))
         limit before_id (sponsored s));
  ret (map_err from_sqlx r).

Definition get_gas_sponsorship_config (wallet_id : Uuid) :
    M (result (option GasSponsorshipConfig) StoreError) :=
  do r <- part_query (fun _ s => config_of wallet_id s);
  ret (map_err from_sqlx r).

(** [allowed_operations]: [None] keeps the stored list. *)
Definition upsert_config_stmt (wallet_id : Uuid) (enabled : bool)
    (per_tx_fee_cap_stroops daily_budget_stroops : option Z)
    (allowed_operations : option (option (list string))) (now : Z) (s : State) :
    result GasSponsorshipConfig sqlx_error * State :=
  let p c := bool_decide (g_wallet_id c = wallet_id) in
  let upd c := mkGasSponsorshipConfig wallet_id enabled per_tx_fee_cap_stroops daily_budget_stroops
                 (g_created_at c) now
                 (match allowed_operations with Some a => a | None => g_allowed_operations c end) in
  match List.find p (configs s) with
  | Some c => (Ok (upd c), set_configs s (update_where p upd (configs s)))
  | None =>
      if wallet_fk s wallet_id then
        let c := mkGasSponsorshipConfig wallet_id enabled per_tx_fee_cap_stroops
                   daily_budget_stroops now now
                   (match allowed_operations with Some a => a | None => None end) in
        (Ok c, set_configs s (configs s ++ [c]))
      else (Err OtherDbError, s)
  end.

Definition upsert_gas_sponsorship_config (wallet_id : Uuid) (enabled : bool)
    (per_tx_fee_cap_stroops daily_budget_stroops : option Z)
    (allowed_operations : option (option (list string))) : M (result GasSponsorshipConfig StoreError) :=
  do r <- part_call (upsert_config_stmt wallet_id enabled per_tx_fee_cap_stroops
                     daily_budget_stroops allowed_operations);
  ret (map_err from_sqlx r).

Definition reconcile_stale_pending_sponsorships (older_than : Z) : M (result Z StoreError) :=
  do r <- part_call (reconcile_stmt older_than);
  ret (map_err from_sqlx r).

Definition sum_sponsored_fees_reserved_today (wallet_id : Uuid) : M (result Z StoreError) :=
  do r <- part_call (fun now s =>
    (ok_or (sum_bigint (fees (reserved_since wallet_id (day_start now)) (sponsored s))) OtherDbError, s));
  ret (map_err from_sqlx r).

Definition sum_sponsored_fees_today (wallet_id : Uuid) : M (result Z StoreError) :=
  do r <- part_call (fun now s =>
    (ok_or (sum_bigint (fees (fun r => bool_decide (s_wallet_id r = wallet_id)
                                       && bool_decide (s_status r = "confirmed")
                                       && (day_start now <=? s_created_at r)) (sponsored s)))
           OtherDbError, s));
  ret (map_err from_sqlx r).

Definition try_reserve_sponsored_transaction (wallet_id : Uuid) (inner_tx_hash : string)
    (fee_stroops : Z) (daily_budget_stroops : option Z) : M (result SponsoredTransaction StoreError) :=
  do r <- part_call (reserve_tx wallet_id inner_tx_hash fee_stroops daily_budget_stroops);
  ret match r with
      | Ok (Some row) => Ok row
      | Ok None => Err BudgetExceeded
      | Err e => Err (from_sqlx_conflict e)
      end.

Definition sponsorship_projection (wallet_id : Uuid) (inner_tx_hash : string) :
    M (result (Z * bool) StoreError) :=
  do r <- part_call (projection_stmt wallet_id inner_tx_hash);
  ret (map_err from_sqlx r).

Definition update_sponsored_tx_status (id : Uuid) (status : string)
    (fee_bump_tx_hash error : option string) : M (result unit StoreError) :=
  do r <- part_call (update_status_stmt id status fee_bump_tx_hash error);
  ret (map_err from_sqlx r).

Definition finalize_sponsored_transaction (id : Uuid) (status : string)
    (fee_bump_tx_hash error : option string) : M (result unit StoreError) :=
  update_sponsored_tx_status id status fee_bump_tx_hash error.

Definition record_sponsored_tx (n : NewSponsoredTx) : M (result SponsoredTransaction StoreError) :=
  do r <- part_call (insert_sponsored (ns_wallet_id n) (ns_inner_tx_hash n) (ns_fee_stroops n));
  ret (map_err from_sqlx_conflict r).

(** *** Withdrawal allowlist *)

Definition get_withdrawal_allowlist_config (wallet_id : Uuid) :
    M (result (option WithdrawalAllowlistConfig) StoreError) :=
  do r <- part_query (fun _ s => allowlist_of wallet_id s);
  ret (map_err from_sqlx r).

Definition upsert_allowlist_stmt (wallet_id : Uuid) (enabled : bool) (now : Z) (s : State) :
    result WithdrawalAllowlistConfig sqlx_error * State :=
  let p c := bool_decide (al_wallet_id c = wallet_id) in
  let upd c := mkWithdrawalAllowlistConfig wallet_id enabled (al_created_at c) now in
  match List.find p (allowlists s) with
  | Some c => (Ok (upd c), set_allowlists s (update_where p upd (allowlists s)))
  | None =>
      if wallet_fk s wallet_id then
        let c := mkWithdrawalAllowlistConfig wallet_id enabled now now in
        (Ok c, set_allowlists s (allowlists s ++ [c]))
      else (Err OtherDbError, s)
  end.

Definition upsert_withdrawal_allowlist_config (wallet_id : Uuid) (enabled : bool) :
    M (result WithdrawalAllowlistConfig StoreError) :=
  do r <- part_call (upsert_allowlist_stmt wallet_id enabled);
  ret (map_err from_sqlx r).

Definition add_whitelisted_stmt (wallet_id : Uuid) (address : string) (label : option string)
    (now : Z) (s : State) : result WhitelistedAddress sqlx_error * State :=
  if existsb (fun r => bool_decide (wl_wallet_id r = wallet_id) && bool_decide (wl_address r = address))
       (whitelisted s)
  then (Err (UniqueViolation "idx_whitelisted_addresses_wallet_addr"), s)
  else if negb (wallet_fk s wallet_id) then (Err OtherDbError, s)
  else
    let r := mkWhitelistedAddress (next_uuid s) wallet_id address label now in
    (Ok r, bump (set_whitelisted s (whitelisted s ++ [r]))).

Definition add_whitelisted_address (wallet_id : Uuid) (address : string) (label : option string) :
    M (result WhitelistedAddress StoreError) :=
  do r <- part_call (add_whitelisted_stmt wallet_id address label);
  ret (map_err from_sqlx_conflict r).

Definition list_whitelisted_addresses (wallet_id : Uuid) :
    M (result (list WhitelistedAddress) StoreError) :=
  do r <- part_query (fun _ s =>
    sort_by (fun a b => wl_created_at b <=? wl_created_at a)
      (List.filter (fun r => bool_decide (wl_wallet_id r = wallet_id)) (whitelisted s)));
  ret (map_err from_sqlx r).

Definition remove_whitelisted_address (wallet_id entry_id : Uuid) : M (result unit StoreError) :=
  let p r := bool_decide (wl_id r = entry_id) && bool_decide (wl_wallet_id r = wallet_id) in
  try n <- part_call (fun _ s =>
    (Ok (count_where p (whitelisted s)),
     set_whitelisted s (List.filter (fun r => negb (p r)) (whitelisted s)))) | from_sqlx;
  ret (if n =? 0 then Err NotFound else Ok tt).

Definition is_address_whitelisted (wallet_id : Uuid) (address : string) : M (result bool StoreError) :=
  do r <- part_query (fun _ s => whitelists wallet_id address s);
  ret (map_err from_sqlx r).
End Methods.

(** ** The budget *)

(** Fees reserved by a wallet on the day that starts at [d]. *)
Definition on_day (wallet_id : Uuid) (d : Z) (r : SponsoredTransaction) : bool :=
  bool_decide (s_wallet_id r = wallet_id) && is_reserved r
  && (d <=? s_created_at r) && (s_created_at r <? d + day).

Definition reserved_on (wallet_id : Uuid) (d : Z) (s : State) : Z :=
  foldr Z.add 0 (fees (on_day wallet_id d) (sponsored s)).

(** Operations of the ledger, in any order, by any callers. The reservations of
    [w] are made with its budget; an update of a sponsored transaction does not
    bring back one that has failed. *)
Inductive ledger_step (w : Uuid) (budget : Z) : State -> State -> Prop :=
| step_reserve h fee now s :
    0 <= fee -> ledger_step w budget s (snd (reserve_tx w h fee (Some budget) now s))
| step_reserve_other w' h fee b now s :
    w' <> w -> ledger_step w budget s (snd (reserve_tx w' h fee b now s))
| step_update id st h e now s :
    (st = "failed" \/ Forall (fun r => s_id r = id -> s_status r <> "failed") (sponsored s)) ->
    ledger_step w budget s (snd (update_status_stmt id st h e now s))
| step_reconcile older now s : ledger_step w budget s (snd (reconcile_stmt older now s)).

Definition budget_inv (w : Uuid) (budget : Z) (s : State) : Prop :=
  Forall (fun r => sponsored_status_ok (s_status r) = true /\
                   (s_wallet_id r = w -> 0 <= s_fee_stroops r)) (sponsored s) /\
  forall d, d mod day = 0 -> reserved_on w d s <= budget.

Lemma fees_snoc p l r :
  foldr Z.add 0 (fees p (l ++ [r])) = foldr Z.add 0 (fees p l) + (if p r then s_fee_stroops r else 0).
Proof.
  unfold fees. rewrite List.filter_app, map_app, foldr_app. cbn.
  induction (List.filter p l) as [|a l' IH]; cbn; [destruct (p r); cbn; lia|]. lia.
Qed.

Lemma fees_le p q l :
  (forall r, r ∈ l -> p r = true -> q r = true) ->
  (forall r, r ∈ l -> q r = true -> 0 <= s_fee_stroops r) ->
  foldr Z.add 0 (fees p l) <= foldr Z.add 0 (fees q l).
Proof.
  unfold fees. induction l as [|r l IH]; intros Hpq Hnn; cbn; [lia|].
  specialize (IH ltac:(set_solver) ltac:(set_solver)).
  specialize (Hpq r ltac:(left)). specialize (Hnn r ltac:(left)).
  destruct (p r), (q r); cbn; lia.
Qed.

Lemma on_day_unique w d now r :
  d mod day = 0 -> on_day w d r = true -> s_created_at r = now -> d = day_start now.
Proof.
  unfold on_day, day_start. intros Hd Hon Hc. bool_to_prop. rewrite Hc in *.
  unfold day in *. change (86400 * 1000000) with 86400000000 in *.
  pose proof (Z.div_mod d 86400000000 ltac:(lia)).
  pose proof (Z.div_mod now 86400000000 ltac:(lia)).
  pose proof (Z.mod_pos_bound now 86400000000 ltac:(lia)). lia.
Qed.

Lemma reserve_budget w budget h fee now s :
  0 <= fee -> budget_inv w budget s -> budget_inv w budget (snd (reserve_tx w h fee (Some budget) now s)).
Proof.
  intros Hfee Hinv. pose proof Hinv as [Hnn Hb]. unfold reserve_tx. destruct (sum_bigint _) as [total|] eqn:Et; [|done].
  destruct (try_i64 (total + fee)) as [t|] eqn:E; cbn; [|done].
  apply guard_range_Some in E as [-> _]. apply guard_range_Some in Et as [-> _].
  destruct (Z.leb_spec (foldr Z.add 0 (fees (reserved_since w (day_start now)) (sponsored s)) + fee) budget)
    as [Hle|]; [|done].
  unfold insert_sponsored. repeat case_match; simplify_eq/=; try exact Hinv.
  split.
  - cbn. apply Forall_app. split; [done|]. constructor; [done|constructor].
  - intros d Hd. unfold reserved_on. cbn [sponsored bump set_sponsored]. rewrite fees_snoc.
    cbn [s_fee_stroops].
    destruct (on_day w d _) eqn:Eo; [|specialize (Hb d Hd); unfold reserved_on in Hb; lia].
    apply (on_day_unique _ _ now) in Eo as ->; [|done|done].
    pose proof (fees_le (on_day w (day_start now)) (reserved_since w (day_start now)) (sponsored s)) as Hfl.
    unfold day_start in *. assert (foldr Z.add 0 (fees (on_day w (now - now mod day)) (sponsored s)) <=
      foldr Z.add 0 (fees (reserved_since w (now - now mod day)) (sponsored s))); [|lia].
    apply Hfl.
    + intros r _. unfold on_day, reserved_since. rewrite !andb_true_iff. naive_solver.
    + intros r Hr Hs. rewrite Forall_forall in Hnn. apply Hnn; [done|].
      unfold reserved_since in Hs. by bool_to_prop.
Qed.

Lemma map_fees_le w d (f : SponsoredTransaction -> SponsoredTransaction) l :
  (forall r, r ∈ l -> on_day w d (f r) = true -> on_day w d r = true) ->
  (forall r, r ∈ l -> s_fee_stroops (f r) = s_fee_stroops r) ->
  Forall (fun r => s_wallet_id r = w -> 0 <= s_fee_stroops r) l ->
  foldr Z.add 0 (fees (on_day w d) (map f l)) <= foldr Z.add 0 (fees (on_day w d) l).
Proof.
  unfold fees. induction l as [|r l IH]; intros Hday Hfee Hnn; cbn; [lia|].
  apply Forall_cons in Hnn as [Hr Hnn].
  specialize (IH ltac:(set_solver) ltac:(set_solver) Hnn).
  specialize (Hday r ltac:(left)). specialize (Hfee r ltac:(left)).
  destruct (on_day w d (f r)), (on_day w d r) eqn:E; cbn; try lia.
  unfold on_day in E. bool_to_prop. specialize (Hr H). lia.
Qed.

Lemma other_wallet_budget w w' budget h fee b now s :
  w' <> w -> budget_inv w budget s -> budget_inv w budget (snd (reserve_tx w' h fee b now s)).
Proof.
  intros Hne Hinv. pose proof Hinv as [Hnn Hb]. unfold reserve_tx, insert_sponsored.
  repeat case_match; simplify_eq/=; try exact Hinv.
  all: split; [cbn; apply Forall_app; split; [done|]; constructor; [done|constructor]|].
  all: intros d Hd; unfold reserved_on; cbn [sponsored bump set_sponsored]; rewrite fees_snoc; unfold on_day at 2; cbn;
    rewrite bool_decide_eq_false_2 by done; cbn; specialize (Hb d Hd); unfold reserved_on in Hb; lia.
Qed.

Lemma update_keeps_budget w budget s f :
  (forall r, r ∈ sponsored s -> s_wallet_id (f r) = s_wallet_id r /\
     s_fee_stroops (f r) = s_fee_stroops r /\ s_created_at (f r) = s_created_at r /\
     sponsored_status_ok (s_status (f r)) = true /\
     (is_reserved (f r) = true -> is_reserved r = true)) ->
  budget_inv w budget s -> budget_inv w budget (set_sponsored s (map f (sponsored s))).
Proof.
  intros Hf [Hnn Hb]. split.
  - cbn. rewrite Forall_forall in *. intros r' Hr'. apply list_elem_of_fmap in Hr' as (r & -> & Hr).
    destruct (Hf r Hr) as (-> & -> & _ & Hok & _). split; [done|]. by apply Hnn.
  - intros d Hd. etrans; [|by apply (Hb d)]. unfold reserved_on. cbn.
    apply map_fees_le; [|intros r Hr; by apply Hf|].
    + intros r Hr. destruct (Hf r Hr) as (Hw & _ & Hc & _ & Hres). unfold on_day. rewrite Hw, Hc.
      rewrite !andb_true_iff. naive_solver.
    + eapply Forall_impl; [exact Hnn|]. by intros r [].
Qed.

Lemma reserved_of_ok r :
  sponsored_status_ok (s_status r) = true -> s_status r <> "failed" -> is_reserved r = true.
Proof.
  unfold sponsored_status_ok, is_reserved. rewrite !bool_decide_eq_true. intros Hok Hne. set_solver.
Qed.

Lemma ledger_step_inv w budget s s' :
  ledger_step w budget s s' -> budget_inv w budget s -> budget_inv w budget s'.
Proof.
  intros [h fee now s0 Hfee|w' h fee b now s0 Hne|id st h e now s0 Hst|older now s0] Hinv.
  - by apply reserve_budget.
  - by apply other_wallet_budget.
  - unfold update_status_stmt. destruct (_ && _) eqn:E; [done|].
    apply update_keeps_budget; [|done]. intros r Hr.
    destruct Hinv as [Hnn _]. rewrite Forall_forall in Hnn. destruct (Hnn r Hr) as [Hok _].
    case_bool_decide as Hid; cbn; [|done]. split_and!; [done..| |].
    + apply andb_false_iff in E as [E|E]; [|by apply negb_false_iff in E].
      exfalso. apply not_true_iff_false in E. apply E, existsb_exists. exists r.
      split; [by apply list_elem_of_In|by apply bool_decide_eq_true].
    + intros Hres. destruct Hst as [->|Hst]; [by vm_compute in Hres|].
      rewrite Forall_forall in Hst. apply reserved_of_ok; auto.
  - apply update_keeps_budget; [|done]. intros r Hr.
    destruct Hinv as [Hnn _]. rewrite Forall_forall in Hnn. destruct (Hnn r Hr) as [Hok _].
    destruct (stale older now r); cbn; done.
Qed.

(** C10: the daily budget holds. After any sequence of reservations (with
    transaction times in any order, as they are under concurrency), status
    updates that do not revive a failed row, and time-outs, the fees a wallet has
    reserved on any UTC day stay within its budget. *)
Theorem budget_never_exceeded (w : Uuid) (budget : Z) (s s' : State) (d : Z) :
  0 <= budget -> sponsored s = [] -> rtc (ledger_step w budget) s s' -> d mod day = 0 ->
  reserved_on w d s' <= budget.
Proof.
  intros Hb He Hs Hd. cut (budget_inv w budget s'); [by intros [_ H]; apply H|].
  assert (budget_inv w budget s) as Hinv.
  { split; [rewrite He; constructor|]. intros d' _. unfold reserved_on. rewrite He. done. }
  clear He. induction Hs as [|x y z Hxy Hyz IH]; [done|]. by apply IH, (ledger_step_inv w budget x).
Qed.

Definition ex_state : State := mkState 1 [7] [] [] [] [].

Lemma budget_never_exceeded_witness :
  reserved_on 7 0 (snd (reserve_tx 7 "b" 60 (Some 100) 20
                          (snd (reserve_tx 7 "a" 70 (Some 100) 10 ex_state)))) <= 100.
Proof.
  apply (budget_never_exceeded 7 100 ex_state _ 0); [lia|reflexivity| |reflexivity].
  eapply rtc_l; [apply (step_reserve 7 100 "a" 70 10); lia|].
  eapply rtc_l; [apply (step_reserve 7 100 "b" 60 20); lia|]. apply rtc_refl.
Defined.

(** Without the side condition the bound fails: a reservation that timed out and
    is then confirmed counts again, on top of one that took its place. *)
Example revived_reservation_exceeds :
  let s1 := snd (reserve_tx 7 "a" 70 (Some 100) 10 ex_state) in
  let s2 := snd (reconcile_stmt 5 20 s1) in
  let s3 := snd (reserve_tx 7 "b" 60 (Some 100) 21 s2) in
  let s4 := snd (update_status_stmt 1 "confirmed" None None 22 s3) in
  reserved_on 7 0 s4 = 130.
Proof. reflexivity. Qed.

End Sponsorship.
