(* ===== verification/Idempotency.v ===== *)
(** * Idempotency keys

    [crates/store/src/idempotency.rs] and the protocol of its client, the
    [create_payment_link] handler of [crates/api/src/routes/payment_links.rs]:
    claim the key, run the creation, then store the response or, when the creation
    failed, release the key. Requests run concurrently; a step of the system is
    one database statement or one run of the creation. *)

From S2P Require Import Prelude Db Store.

Module Idempotency.
Import Db.
Import Store (Uuid).
Local Open Scope db_scope.

(** 24 hours, in microseconds. *)
Definition IDEMPOTENCY_KEY_TTL_SECS : Z := 24 * 60 * 60.
Definition ttl : Z := IDEMPOTENCY_KEY_TTL_SECS * 1000000.

Record Row := mkRow {
  i_wallet_id : Uuid;
  i_scope : string;
  i_key : string;
  i_request_hash : string;
  i_status_code : option Z;
  i_response : option json;
  i_created_at : Z;
  i_expires_at : Z
}.

Record State := mkState {
  wallet_ids : list Uuid;
  rows : list Row
}.

Inductive IdempotencyClaim :=
| Claimed
| Replay (status_code : Z) (response : json)
| Mismatch
| InProgress.

Section Key.
Variables (wallet_id : Uuid) (scope key : string).

Definition is_key (r : Row) : bool :=
  bool_decide (i_wallet_id r = wallet_id) && bool_decide (i_scope r = scope)
  && bool_decide (i_key r = key).

Definition find_row (s : State) : option Row := List.find is_key (rows s).

Definition fresh_row (request_hash : string) (now : Z) : Row :=
  mkRow wallet_id scope key request_hash None None now (now + ttl).

(** [INSERT ... ON CONFLICT DO UPDATE ... WHERE expires_at <= now()]; the result
    says whether a row came back. *)
Definition claim_stmt (request_hash : string) (now : Z) (s : State) : result bool sqlx_error * State :=
  if negb (in_range 1 255 (slen key)) then (Err OtherDbError, s) else
  match find_row s with
  | None =>
      if bool_decide (wallet_id ∈ wallet_ids s)
      then (Ok true, mkState (wallet_ids s) (rows s ++ [fresh_row request_hash now]))
      else (Err OtherDbError, s)
  | Some r =>
      if i_expires_at r <=? now
      then (Ok true, mkState (wallet_ids s)
                       (Store.update_where is_key (fun _ => fresh_row request_hash now) (rows s)))
      else (Ok false, s)
  end.

(** What the stored row says to a request that did not get the claim. *)
Definition judge (request_hash : string) (r : Row) : IdempotencyClaim :=
  if negb (bool_decide (i_request_hash r = request_hash)) then Mismatch
  else match i_status_code r, i_response r with
       | Some code, Some response => Replay (default 500 (guard_range 0 65535 code)) response
       | _, _ => InProgress
       end.

Definition i16_code (status_code : Z) : Z := default 500 (guard_range (- 32768) 32767 status_code).

Definition complete_row (status_code : Z) (response : json) (r : Row) : Row :=
  mkRow (i_wallet_id r) (i_scope r) (i_key r) (i_request_hash r) (Some (i16_code status_code))
        (Some response) (i_created_at r) (i_expires_at r).

Definition unanswered (r : Row) : bool := is_key r && bool_decide (i_response r = None).

Definition complete_stmt (status_code : Z) (response : json) (now : Z) (s : State) :
    result unit sqlx_error * State :=
  (Ok tt, mkState (wallet_ids s)
            (Store.update_where unanswered (complete_row status_code response) (rows s))).

Definition release_stmt (now : Z) (s : State) : result unit sqlx_error * State :=
  (Ok tt, mkState (wallet_ids s) (List.filter (fun r => negb (unanswered r)) (rows s))).

Definition purge_stmt (now : Z) (s : State) : result Z sqlx_error * State :=
  (Ok (Store.count_where (fun r => i_expires_at r <=? now) (rows s)),
   mkState (wallet_ids s) (List.filter (fun r => negb (i_expires_at r <=? now)) (rows s))).

Context {D X : Type} {tables : Part State D}.
Notation M := (M D X).

Definition claim_idempotency_key (request_hash : string) : M (result IdempotencyClaim StoreError) :=
  try claimed <- part_call (claim_stmt request_hash) | from_sqlx;
  if claimed then ret (Ok Claimed) else
  try r <- part_call (fun _ s => (ok_or (find_row s) OtherDbError, s)) | from_sqlx;
  ret (Ok (judge request_hash r)).

Definition complete_idempotency_key (status_code : Z) (response : json) : M (result unit StoreError) :=
  do r <- part_call (complete_stmt status_code response);
  ret (map_err from_sqlx r).

Definition release_idempotency_key : M (result unit StoreError) :=
  do r <- part_call release_stmt;
  ret (map_err from_sqlx r).

Definition purge_expired_idempotency_keys : M (result Z StoreError) :=
  do r <- part_call purge_stmt;
  ret (map_err from_sqlx r).

(** ** The handler *)

(** Where a request is: it was refused the claim and is about to read the row; it
    got the claim and runs the creation; the creation succeeded with a response that
    is not stored yet; the creation failed and the key is not released yet; it is
    over, with the verdict on the row if it read one. *)
Inductive phase :=
| Refused
| Running
| Created (response : json)
| Failing
| Over (answer : option IdempotencyClaim).

(** All requests with the key: their body hash and phase, by request number, and
    the creations that took place, each with the body hash it ran for: those that
    reported their success, and those that committed and reported an error. *)
Record System := mkSystem {
  sys_db : State;
  sys_requests : list (string * phase);
  sys_created : list (string * json);
  sys_lost : list (string * json)
}.

Definition arrive (h : string) (p : phase) (s : State) (y : System) : System :=
  mkSystem s (sys_requests y ++ [(h, p)]) (sys_created y) (sys_lost y).

Definition move (i : nat) (h : string) (p : phase) (s : State) (y : System) : System :=
  mkSystem s (<[i := (h, p)]> (sys_requests y)) (sys_created y) (sys_lost y).

(** The time of a step is that of its statement. A statement may fail without
    effect or take effect and report an error: the claim's error ends the request,
    storing the response and releasing the key are best-effort. A request may also
    stop anywhere (the process dies): it then takes no further step. The creation,
    too, may take effect and report an error, or its process die before it answers. *)
Inductive step : Z -> System -> System -> Prop :=
| st_claim now h y s' :
    claim_stmt h now (sys_db y) = (Ok true, s') -> step now y (arrive h Running s' y)
| st_claim_lost now h y s' :
    claim_stmt h now (sys_db y) = (Ok true, s') -> step now y (arrive h (Over None) s' y)
| st_refused now h y s' :
    claim_stmt h now (sys_db y) = (Ok false, s') -> step now y (arrive h Refused s' y)
| st_judge now i h y r :
    sys_requests y !! i = Some (h, Refused) -> find_row (sys_db y) = Some r ->
    step now y (move i h (Over (Some (judge h r))) (sys_db y) y)
| st_create_ok now i h v y :
    sys_requests y !! i = Some (h, Running) ->
    step now y (mkSystem (sys_db y) (<[i := (h, Created v)]> (sys_requests y))
                  ((h, v) :: sys_created y) (sys_lost y))
| st_create_err now i h y :
    sys_requests y !! i = Some (h, Running) -> step now y (move i h Failing (sys_db y) y)
| st_create_lost now i h v y :
    sys_requests y !! i = Some (h, Running) ->
    step now y (mkSystem (sys_db y) (<[i := (h, Failing)]> (sys_requests y))
                  (sys_created y) ((h, v) :: sys_lost y))
| st_complete now i h v y :
    sys_requests y !! i = Some (h, Created v) ->
    step now y (move i h (Over None) (snd (complete_stmt 201 v now (sys_db y))) y)
| st_release now i h y :
    sys_requests y !! i = Some (h, Failing) ->
    step now y (move i h (Over None) (snd (release_stmt now (sys_db y))) y)
| st_give_up now i h p y :
    sys_requests y !! i = Some (h, p) -> (p = Failing \/ p = Refused \/ exists v, p = Created v) ->
    step now y (move i h (Over None) (sys_db y) y)
| st_purge now y :
    step now y (mkSystem (snd (purge_stmt now (sys_db y))) (sys_requests y) (sys_created y) (sys_lost y)).

(** Everything that was created. *)
Definition creations (y : System) : list (string * json) := sys_created y ++ sys_lost y.

(** Runs whose steps all happen in [t0, t0 + ttl). *)
Inductive run (t0 : Z) : System -> System -> Prop :=
| run_nil y : run t0 y y
| run_snoc y y' y'' now :
    run t0 y y' -> t0 <= now < t0 + ttl -> step now y' y'' -> run t0 y y''.
End Key.

(** ** At most one creation *)

(** *** Selecting rows and requests *)

Lemma filter_map_comm {A} (f : A -> bool) (g : A -> A) (l : list A) :
  (forall x, f (g x) = f x) -> List.filter f (map g l) = map g (List.filter f l).
Proof.
  intros Hg; induction l as [|x l IH]; [done|]; cbn. rewrite Hg. case_match; cbn; by rewrite IH.
Qed.

Lemma filter_comm {A} (f g : A -> bool) (l : list A) :
  List.filter f (List.filter g l) = List.filter g (List.filter f l).
Proof.
  induction l as [|x l IH]; [done|]; cbn.
  destruct (g x) eqn:Eg, (f x) eqn:Ef; cbn; rewrite ?Eg, ?Ef, IH; done.
Qed.

Lemma filter_insert {A} (f : A -> bool) (i : nat) (x z : A) (l : list A) :
  l !! i = Some x ->
  exists a b, List.filter f l = a ++ (if f x then [x] else []) ++ b /\
              List.filter f (<[i := z]> l) = a ++ (if f z then [z] else []) ++ b.
Proof.
  intros Hi. exists (List.filter f (take i l)), (List.filter f (drop (S i) l)).
  rewrite (insert_take_drop l i z) by (by eapply lookup_lt_Some).
  rewrite <-(take_drop_middle l i x Hi) at 1. rewrite !List.filter_app. cbn.
  by destruct (f x), (f z).
Qed.

Section Proofs.
Variables (wallet_id : Uuid) (scope key : string).
Notation is_key := (is_key wallet_id scope key).
Notation find_row := (find_row wallet_id scope key).

Definition keyed (s : State) : list Row := List.filter is_key (rows s).

Definition active (r : string * phase) : bool :=
  match snd r with Running | Created _ | Failing => true | Refused | Over _ => false end.

Definition actives (y : System) : list (string * phase) := List.filter active (sys_requests y).

(** What the system can look like in one window: nobody holds the key; one request
    holds it; the response is stored; or the row is left without a response. *)
Inductive shape : list (string * phase) -> list Row -> list (string * json) -> Prop :=
| sh_free : shape [] [] []
| sh_held h p r made :
    i_response r = None -> i_request_hash r = h ->
    match p with
    | Running | Failing => made = []
    | Created v => made = [(h, v)]
    | _ => False
    end -> shape [(h, p)] [r] made
| sh_answered r h v :
    i_response r = Some v -> i_status_code r = Some 201 -> i_request_hash r = h ->
    shape [] [r] [(h, v)]
| sh_left r made : i_response r = None -> (length made <= 1)%nat -> shape [] [r] made.

Definition answered_ok (y : System) : Prop :=
  forall i h c v, sys_requests y !! i = Some (h, Over (Some (Replay c v))) ->
    c = 201 /\ sys_created y = [(h, v)].

Record Inv (t0 : Z) (y : System) : Prop := {
  inv_shape : shape (actives y) (keyed (sys_db y)) (sys_created y);
  inv_window : Forall (fun r => t0 + ttl <= i_expires_at r) (keyed (sys_db y));
  inv_answers : answered_ok y
}.

(** *** The statements on the rows of the key *)

Lemma find_row_keyed (s : State) : find_row s = hd_error (keyed s).
Proof.
  unfold Idempotency.find_row, keyed. induction (rows s) as [|r l IH]; [done|]; cbn. by case_match.
Qed.

Lemma is_key_fresh h now : is_key (fresh_row wallet_id scope key h now) = true.
Proof. unfold Idempotency.is_key, fresh_row; cbn. by rewrite !bool_decide_eq_true_2. Qed.

Lemma claim_stmt_keyed h now s b s' :
  claim_stmt wallet_id scope key h now s = (Ok b, s') ->
  match keyed s with
  | [] => b = true /\ keyed s' = [fresh_row wallet_id scope key h now]
  | r :: l => if b then i_expires_at r <= now else s' = s
  end.
Proof.
  unfold claim_stmt. rewrite find_row_keyed. intros H.
  destruct (keyed s) as [|r l] eqn:Ek; cbn in H; repeat case_match; simplify_eq; try done; [|lia].
  split; [done|]. unfold keyed in *. cbn [rows]. rewrite List.filter_app, Ek. cbn.
  by rewrite is_key_fresh.
Qed.

Lemma complete_stmt_keyed code v now s :
  keyed (snd (complete_stmt wallet_id scope key code v now s)) =
  map (fun r => if bool_decide (i_response r = None) then complete_row code v r else r) (keyed s).
Proof.
  unfold keyed. cbn. unfold Store.update_where. rewrite filter_map_comm.
  - apply map_ext_in. intros r [_ Hr]%filter_In. unfold unanswered. by rewrite Hr.
  - intros r. unfold unanswered. by case_match.
Qed.

Lemma release_stmt_keyed now s :
  keyed (snd (release_stmt wallet_id scope key now s)) =
  List.filter (fun r => negb (bool_decide (i_response r = None))) (keyed s).
Proof.
  unfold keyed. cbn. induction (rows s) as [|r l IH]; [done|]; cbn.
  unfold unanswered at 1. destruct (is_key r) eqn:Er; cbn; [|by rewrite Er].
  case_bool_decide; cbn; [done|]. by rewrite Er, IH.
Qed.

Lemma purge_stmt_keyed now s :
  Forall (fun r => now < i_expires_at r) (keyed s) -> keyed (snd (purge_stmt now s)) = keyed s.
Proof.
  intros H. unfold keyed at 1. cbn. rewrite filter_comm. fold (keyed s).
  induction H as [|r l Hr Hl IH]; [done|]; cbn.
  destruct (Z.leb_spec (i_expires_at r) now); [lia|]; cbn. by rewrite IH.
Qed.

(** *** Preservation *)

Lemma active_arrive h p s y : actives (arrive h p s y) = actives y ++ (if active (h, p) then [(h, p)] else []).
Proof. unfold actives. cbn. rewrite List.filter_app. cbn. by case_match. Qed.

(** The request that moves, if it is active, is the only active one. *)
Lemma actives_step l rs made i h p :
  shape (List.filter active l) rs made -> l !! i = Some (h, p) -> active (h, p) = true ->
  List.filter active l = [(h, p)] /\
  forall q, List.filter active (<[i := (h, q)]> l) = if active (h, q) then [(h, q)] else [].
Proof.
  intros Hs Hi Ep.
  assert (Hone : forall a b, List.filter active l = a ++ [(h, p)] ++ b -> a = [] /\ b = []).
  { intros a b Ea. rewrite Ea in Hs. inversion Hs; destruct a as [|? [|]], b; simplify_eq; done. }
  split.
  - destruct (filter_insert active i _ (h, p) l Hi) as (a & b & Ea & _).
    rewrite Ep in Ea. destruct (Hone a b Ea) as [-> ->]. done.
  - intros q. destruct (filter_insert active i _ (h, q) l Hi) as (a & b & Ea & Eb).
    rewrite Ep in Ea. destruct (Hone a b Ea) as [-> ->]. by rewrite Eb, app_nil_r.
Qed.

Lemma actives_idle l i h p q :
  l !! i = Some (h, p) -> active (h, p) = false -> active (h, q) = false ->
  List.filter active (<[i := (h, q)]> l) = List.filter active l.
Proof.
  intros Hi Ep Eq. destruct (filter_insert active i _ (h, q) l Hi) as (a & b & Ea & Eb).
  by rewrite Ea, Eb, Ep, Eq.
Qed.

Definition no_replay (p : phase) : Prop := forall c v, p <> Over (Some (Replay c v)).

Lemma answers_arrive h p s y : no_replay p -> answered_ok y -> answered_ok (arrive h p s y).
Proof.
  intros Hp H i h' c v. cbn. intros [Hi|[_ Hi]]%lookup_app_Some; [exact (H _ _ _ _ Hi)|].
  apply list_lookup_singleton_Some in Hi as [_ Hi]. simplify_eq. by destruct (Hp c v).
Qed.

Lemma answers_move i h p s y : no_replay p -> answered_ok y -> answered_ok (move i h p s y).
Proof.
  intros Hp H j h' c v. cbn. intros [(-> & Hj & _)|[_ Hj]]%list_lookup_insert_Some; [|exact (H _ _ _ _ Hj)].
  simplify_eq. by destruct (Hp c v).
Qed.

Section Preservation.
Context (t0 now : Z) (y : System) (Hinv : Inv t0 y) (Hnow : t0 <= now < t0 + ttl).

Lemma rows_live : Forall (fun r => now < i_expires_at r) (keyed (sys_db y)).
Proof using Hinv Hnow. eapply Forall_impl; [apply (inv_window _ _ Hinv)|]. cbn. lia. Qed.

Lemma claim_taken h s' p :
  claim_stmt wallet_id scope key h now (sys_db y) = (Ok true, s') ->
  p = Running \/ p = Over None -> Inv t0 (arrive h p s' y).
Proof using Hinv Hnow.
  intros Hc%claim_stmt_keyed Hp. pose proof rows_live as Hl. destruct Hinv as [Hs _ Ha].
  destruct (keyed (sys_db y)) as [|r l]; [|apply Forall_cons in Hl as [Hl _]; lia].
  destruct Hc as [_ Hk]. inversion Hs as [Ea Er Em| | |].
  split.
  - rewrite active_arrive, <-Ea. cbn [sys_db sys_created arrive]. rewrite Hk, <-Em.
    destruct Hp as [-> | ->]; cbn; by constructor; cbn; try lia.
  - cbn [sys_db arrive]. rewrite Hk. apply Forall_singleton. cbn. lia.
  - apply answers_arrive; [|done]. by destruct Hp as [-> | ->].
Qed.

Lemma claim_refused h s' :
  claim_stmt wallet_id scope key h now (sys_db y) = (Ok false, s') -> Inv t0 (arrive h Refused s' y).
Proof using Hinv Hnow.
  intros Hc%claim_stmt_keyed. destruct Hinv as [Hs Hw Ha].
  assert (s' = sys_db y) as ->.
  { destruct (keyed (sys_db y)); naive_solver. }
  split; [|done|by apply answers_arrive]. rewrite active_arrive. cbn. by rewrite app_nil_r.
Qed.

Lemma row_read i h r :
  sys_requests y !! i = Some (h, Refused) -> find_row (sys_db y) = Some r ->
  Inv t0 (move i h (Over (Some (judge h r))) (sys_db y) y).
Proof using Hinv Hnow.
  intros Hi Hr. rewrite find_row_keyed in Hr. destruct Hinv as [Hs Hw Ha].
  split; [|done|].
  - unfold actives in *. cbn. erewrite actives_idle by done. done.
  - intros j h' c v. cbn. intros [(-> & Hj & _)|[_ Hj]]%list_lookup_insert_Some; [|exact (Ha _ _ _ _ Hj)].
    injection Hj as <- Hj. unfold judge in Hj.
    inversion Hs as [E1 E2|? ? ? ? E0 ? ? E1 E2|? ? ? E0 E3 E4 E1 E2|? ? E0 ? E1 E2];
      rewrite <-E2 in Hr; cbn in Hr; [done|injection Hr as ->..]; rewrite E0 in Hj;
      repeat case_match; simplify_eq; split; try done.
    by case_bool_decide; simplify_eq/=.
Qed.

(** The request that holds the key moves on. *)
Lemma holder_moves i h p q s' made lost :
  sys_requests y !! i = Some (h, p) -> active (h, p) = true -> no_replay q ->
  (forall r, i_response r = None -> i_request_hash r = h -> keyed (sys_db y) = [r] ->
     match p with Running | Failing => sys_created y = [] | Created v => sys_created y = [(h, v)] | _ => False end ->
     shape (if active (h, q) then [(h, q)] else []) (keyed s') made /\
     (t0 + ttl <= i_expires_at r -> Forall (fun r => t0 + ttl <= i_expires_at r) (keyed s')) /\
     (sys_created y = [] \/ made = sys_created y)) ->
  Inv t0 (mkSystem s' (<[i := (h, q)]> (sys_requests y)) made lost).
Proof using Hinv Hnow.
  intros Hi Hp Hq Hnext. destruct Hinv as [Hs Hw Ha].
  destruct (actives_step _ _ _ _ _ _ Hs Hi Hp) as [Eone Emove].
  unfold actives in Hs. rewrite Eone in Hs.
  inversion Hs as [|? ? r ? E0 Eh Em Ea Ek| |]; simplify_eq.
  destruct (Hnext r) as (H1 & H2 & H3); [done..|].
  rewrite <-Ek in Hw. apply Forall_cons in Hw as [Hw _].
  split; [unfold actives; cbn; by rewrite Emove|exact (H2 Hw)|].
  intros j h' c v Hj.
  assert (Hold : exists j, sys_requests y !! j = Some (h', Over (Some (Replay c v)))).
  { cbn in Hj. apply list_lookup_insert_Some in Hj as [(-> & Hj & _)|[_ Hj]]; [|by exists j].
    simplify_eq. by destruct (Hq c v). }
  destruct Hold as [k [-> Hc]%Ha]. split; [done|]. destruct H3 as [H3 | ->]; [by rewrite H3 in Hc|done].
Qed.
End Preservation.

Lemma Inv_step t0 now y y' :
  Inv t0 y -> t0 <= now < t0 + ttl -> step wallet_id scope key now y y' -> Inv t0 y'.
Proof.
  intros Hinv Hnow Hst.
  inversion Hst as [? h ? s' Hc|? h ? s' Hc|? h ? s' Hc|? i h ? r Hi Hr|? i h v ? Hi|? i h ? Hi
    |? i h v ? Hi|? i h v ? Hi|? i h ? Hi|? i h p ? Hi Hp|]; simplify_eq.
  - eapply claim_taken; eauto.
  - eapply claim_taken; eauto.
  - by eapply claim_refused.
  - by eapply row_read.
  - eapply holder_moves; [done..|]. intros r Hr Hh -> ->. split_and!; [by constructor|auto|auto].
  - eapply holder_moves; [done..|]. intros r Hr Hh -> ->. split_and!; [by constructor|auto|auto].
  - eapply holder_moves; [done..|]. intros r Hr Hh -> ->. split_and!; [by constructor|auto|auto].
  - eapply holder_moves; [done..|]. intros r Hr Hh Hk ->.
    rewrite complete_stmt_keyed, Hk. cbn. rewrite bool_decide_eq_true_2 by done.
    split_and!; [by constructor|auto|auto].
  - eapply holder_moves; [done..|]. intros r Hr Hh Hk ->.
    rewrite release_stmt_keyed, Hk. cbn. rewrite bool_decide_eq_true_2 by done.
    split_and!; [by constructor|auto|auto].
  - destruct Hp as [-> | [-> | [v ->]]].
    + eapply holder_moves; [done..|]. intros r Hr Hh -> ->. split_and!; [constructor; cbn; auto; lia|auto|auto].
    + destruct Hinv as [Hs Hw Ha]. split; [|done|by apply answers_move].
      unfold actives in *. cbn. by erewrite actives_idle.
    + eapply holder_moves; [done..|]. intros r Hr Hh -> ->. split_and!; [constructor; cbn; auto; lia|auto|auto].
  - pose proof (rows_live _ _ _ Hinv Hnow). destruct Hinv as [Hs Hw Ha].
    split; unfold actives; cbn [sys_db sys_requests sys_created]; rewrite ?purge_stmt_keyed by done; done.
Qed.

Definition start (s : State) : System := mkSystem s [] [] [].

Lemma Inv_run t0 s y :
  keyed s = [] -> run wallet_id scope key t0 (start s) y -> Inv t0 y.
Proof.
  intros Hk. remember (start s) as y0 eqn:E0. induction 1 as [y|y y1 y2 now Hr IH Hn Hst]; subst.
  - split; cbn; rewrite ?Hk; [constructor|constructor|]. by intros [|i] h c v Hi.
  - by eapply Inv_step; [apply IH| |].
Qed.
End Proofs.

Lemma run_cons wallet_id scope key t0 now y y' y'' :
  t0 <= now < t0 + ttl -> step wallet_id scope key now y y' ->
  run wallet_id scope key t0 y' y'' -> run wallet_id scope key t0 y y''.
Proof.
  intros Hn Hs. induction 1 as [y'|y' y1 y2 now' Hr IH Hn' Hs'].
  - by eapply run_snoc; [apply run_nil| |].
  - by eapply run_snoc; [apply IH| |].
Qed.

Section Claim.
Variables (wallet_id : Uuid) (scope key : string).

(** C11: Let requests that carry one idempotency key for a wallet arrive and interleave
    in any way in the 24 hours after [t0], with statements that fail, take effect
    unreported, or never run because the process died, and with the purge running at
    any time. If the key had no row at the start, then at most one creation reports its
    success, so that the number of creations is at most one more than the number of
    those whose success was lost (a creation that commits and reports an error frees the
    key, and the retry creates again); and every request that is answered by a replay
    gets status 201 and the response of the one creation that reported its success,
    which ran for a body with the same hash. *)
Theorem created_at_most_once (t0 : Z) (s : State) (y : System) :
  find_row wallet_id scope key s = None ->
  run wallet_id scope key t0 (start s) y ->
  (length (sys_created y) <= 1)%nat /\
  (length (creations y) <= 1 + length (sys_lost y))%nat /\
  forall i h c v, sys_requests y !! i = Some (h, Over (Some (Replay c v))) ->
    c = 201 /\ sys_created y = [(h, v)].
Proof.
  intros Hf Hr. rewrite find_row_keyed in Hf.
  assert (Hk : keyed wallet_id scope key s = []) by (by destruct (keyed _ _ _ s)).
  destruct (Inv_run _ _ _ _ _ _ Hk Hr) as [Hs _ Ha].
  assert (Hone : (length (sys_created y) <= 1)%nat).
  { inversion Hs as [|? p ? ? ? ? Hp| |]; cbn; try lia. destruct p; try done; rewrite Hp; cbn; lia. }
  split; [done|]. split; [|exact Ha]. unfold creations. rewrite length_app. lia.
Qed.
End Claim.

(** Two concurrent requests with one key and body, and a third that comes after the
    response was stored: one creation, one request told to wait, one replay. *)
Definition sample_db : State := mkState [1] [].
Definition sample_body : json := JStr "link".

Definition sample_end : System :=
  mkSystem (snd (complete_stmt 1 "s" "k" 201 sample_body 7
              (mkState [1] [fresh_row 1 "s" "k" "h" 5])))
    [("h", Over None); ("h", Over (Some InProgress)); ("h", Over (Some (Replay 201 sample_body)))]
    [("h", sample_body)] [].

(** One step at [t], of the constructor given. *)
Ltac run_step t c := eapply (run_cons _ _ _ _ t); [done|eapply c; (reflexivity || done)|].

Lemma sample_run : run 1 "s" "k" 0 (start sample_db) sample_end.
Proof.
  run_step 5 (st_claim 1 "s" "k" 5 "h").
  run_step 6 (st_refused 1 "s" "k" 6 "h").
  run_step 7 (st_create_ok 1 "s" "k" 7 0 "h" sample_body).
  run_step 7 (st_judge 1 "s" "k" 7 1 "h").
  run_step 7 (st_complete 1 "s" "k" 7 0 "h" sample_body).
  run_step 8 (st_refused 1 "s" "k" 8 "h").
  run_step 9 (st_judge 1 "s" "k" 9 2 "h").
  apply run_nil.
Qed.

Lemma created_at_most_once_witness :
  find_row 1 "s" "k" sample_db = None /\
  sys_requests sample_end !! 2%nat = Some ("h", Over (Some (Replay 201 sample_body))) /\
  sys_created sample_end = [("h", sample_body)].
Proof.
  split; [reflexivity|]. split; [reflexivity|].
  exact (proj2 (proj2 (proj2 (created_at_most_once 1 "s" "k" 0 sample_db sample_end eq_refl sample_run))
           2%nat "h" 201 sample_body eq_refl)).
Defined.

(** A lost success does repeat: when the creation commits and its error is reported, the
    key is released and the retry creates again. *)
Example lost_creation_repeats :
  exists y, run 1 "s" "k" 0 (start sample_db) y /\ length (creations y) = 2%nat /\ length (sys_lost y) = 1%nat.
Proof.
  eexists. split.
  - run_step 5 (st_claim 1 "s" "k" 5 "h").
    run_step 6 (st_create_lost 1 "s" "k" 6 0 "h" sample_body).
    run_step 7 (st_release 1 "s" "k" 7 0 "h").
    run_step 8 (st_claim 1 "s" "k" 8 "h").
    run_step 9 (st_create_ok 1 "s" "k" 9 1 "h" sample_body).
    apply run_nil.
  - split; reflexivity.
Qed.
End Idempotency.
