(* ===== verification/Otp.v ===== *)
(** * Email one-time codes

    [crates/store/src/otps.rs]: issuing a code, verifying and consuming it, and the
    retention sweep. Verifications run concurrently; the guarantees (a bounded number
    of guesses, one redemption, only by the right code, only in time) are stated for
    every interleaving of their statements. *)

From Stdlib Require Import Sorted.
From S2P Require Import Prelude Db Paging Store.

Module Otp.
Import Db Paging.
Import Store (Uuid, update_where, count_where, update_where_key, update_where_Forall, count_where_cons, count_where_pos, find_elem).
Local Open Scope db_scope.

Record Row := mkRow {
  o_id : Uuid;
  o_user_id : Uuid;
  o_purpose : string;
  o_code_hash : string;
  o_tx_hash_bound : option string;
  o_attempts : Z;
  o_consumed_at : option Z;
  o_expires_at : Z;
  o_created_at : Z
}.

Record State := mkState {
  next_uuid : Uuid;
  user_ids : list Uuid;
  otps : list Row
}.

Definition set_otps (s : State) (v : list Row) : State := mkState (next_uuid s) (user_ids s) v.

Definition purpose_ok (p : string) : bool :=
  bool_decide (p ∈ ["signup"; "withdrawal"; "password_reset"; "email_change";
                    "account_export"; "account_delete"]).

Definition MAX_ATTEMPTS : Z := 5.

#[export] Instance otp_row : Paging.Row Row := {| row_created_at := o_created_at; row_id := o_id |}.

(** ** Statements *)

(** [rank] is the order in which the database happens to return rows of the same
    creation time; nothing is assumed of it. *)
Section Statements.
Variable rank : Row -> Z.

Definition create_stmt (user_id : Uuid) (purpose code_hash : string) (tx_hash_bound : option string)
    (ttl now : Z) (s : State) : result Uuid sqlx_error * State :=
  if negb (purpose_ok purpose) || negb (bool_decide (user_id ∈ user_ids s)) then (Err OtherDbError, s)
  else
    let r := mkRow (next_uuid s) user_id purpose code_hash tx_hash_bound 0 None (now + ttl) now in
    (Ok (o_id r), mkState (next_uuid s + 1) (user_ids s) (otps s ++ [r])).

Definition newer (a b : Row) : bool :=
  (o_created_at b <? o_created_at a) || ((o_created_at b =? o_created_at a) && (rank a <=? rank b)).

Definition latest (user_id : Uuid) (purpose : string) (s : State) : option Row :=
  head (sort_by newer (List.filter (fun r => bool_decide (o_user_id r = user_id)
                                             && bool_decide (o_purpose r = purpose)) (otps s))).

Definition redeemable (now : Z) (r : Row) : bool :=
  bool_decide (o_consumed_at r = None) && (o_attempts r <? MAX_ATTEMPTS) && (now <? o_expires_at r).

Definition count_attempt (r : Row) : Row :=
  mkRow (o_id r) (o_user_id r) (o_purpose r) (o_code_hash r) (o_tx_hash_bound r) (o_attempts r + 1)
        (o_consumed_at r) (o_expires_at r) (o_created_at r).

(** The update that claims one attempt on the latest live code. *)
Definition claim_stmt (user_id : Uuid) (purpose : string) (now : Z) (s : State) :
    result (option Row) sqlx_error * State :=
  match latest user_id purpose s with
  | None => (Ok None, s)
  | Some r0 =>
      let p r := bool_decide (o_id r = o_id r0) && redeemable now r in
      match List.find p (otps s) with
      | None => (Ok None, s)
      | Some r => (Ok (Some (count_attempt r)), set_otps s (update_where p count_attempt (otps s)))
      end
  end.

Definition consume (now : Z) (r : Row) : Row :=
  mkRow (o_id r) (o_user_id r) (o_purpose r) (o_code_hash r) (o_tx_hash_bound r) (o_attempts r)
        (Some now) (o_expires_at r) (o_created_at r).

Definition unconsumed (id : Uuid) (r : Row) : bool :=
  bool_decide (o_id r = id) && bool_decide (o_consumed_at r = None).

(** The result is the number of affected rows. *)
Definition consume_stmt (id : Uuid) (now : Z) (s : State) : result Z sqlx_error * State :=
  (Ok (count_where (unconsumed id) (otps s)),
   set_otps s (update_where (unconsumed id) (consume now) (otps s))).

Definition purgeable (retain_for now : Z) (r : Row) : bool :=
  (o_expires_at r <? now - retain_for)
  || match o_consumed_at r with Some c => c <? now - retain_for | None => false end.

Definition purge_stmt (retain_for now : Z) (s : State) : result Z sqlx_error * State :=
  (Ok (count_where (purgeable retain_for now) (otps s)),
   set_otps s (List.filter (fun r => negb (purgeable retain_for now r)) (otps s))).

(** The comparison of the code and of the bound transaction. *)
Definition accepts (code_hash : string) (tx_hash_bound : option string) (r : Row) : bool :=
  bool_decide (o_code_hash r = code_hash) && bool_decide (o_tx_hash_bound r = tx_hash_bound).

(** ** Store methods *)

Context {X : Type}.
Notation M := (M State X).

Definition create_otp (user_id : Uuid) (purpose code_hash : string) (tx_hash_bound : option string)
    (ttl : Z) : M (result Uuid StoreError) :=
  do r <- db_call (create_stmt user_id purpose code_hash tx_hash_bound ttl);
  ret (map_err from_sqlx r).

Definition verify_and_consume_otp (user_id : Uuid) (purpose code_hash : string)
    (tx_hash_bound : option string) : M (result unit StoreError) :=
  try claimed <- db_call (claim_stmt user_id purpose) | from_sqlx;
  match claimed with
  | None => ret (Err InvalidOtp)
  | Some r =>
      if negb (accepts code_hash tx_hash_bound r) then ret (Err InvalidOtp) else
      try affected <- db_call (consume_stmt (o_id r)) | from_sqlx;
      if negb (affected =? 1) then ret (Err InvalidOtp) else ret (Ok tt)
  end.

Definition purge_expired_otps (retain_for : Z) : M (result Z StoreError) :=
  do r <- db_call (purge_stmt retain_for);
  ret (map_err from_sqlx r).
End Statements.

(** ** Concurrent verifications *)

(** The arguments of a verification. *)
Record Guess := mkGuess {
  gs_user_id : Uuid;
  gs_purpose : string;
  gs_code_hash : string;
  gs_tx_hash_bound : option string
}.

Inductive event :=
| Compared (id : Uuid) (at_ : Z)
| Redeemed (id : Uuid) (g : Guess).

(** The rows as they were issued, the verifications whose guess was accepted and that
    are about to consume the code, and what happened. *)
Record System := mkSystem {
  sys_db : State;
  sys_issued : list Row;
  sys_matched : list (Guess * Uuid);
  sys_log : list event
}.

Definition with_db (y : System) (s : State) : System :=
  mkSystem s (sys_issued y) (sys_matched y) (sys_log y).

(** A statement may also take effect while its caller sees an error or is gone: the
    steps [os_claim_lost] and [os_consume_lost]; a caller that stops takes no step. *)
Inductive step (rank : Row -> Z) : System -> System -> Prop :=
| os_create y u p h b ttl now id s' :
    create_stmt u p h b ttl now (sys_db y) = (Ok id, s') ->
    step rank y (mkSystem s' (sys_issued y ++ [mkRow id u p h b 0 None (now + ttl) now])
                   (sys_matched y) (sys_log y))
| os_claim y g now r s' :
    claim_stmt rank (gs_user_id g) (gs_purpose g) now (sys_db y) = (Ok (Some r), s') ->
    step rank y (mkSystem s' (sys_issued y)
                   (if accepts (gs_code_hash g) (gs_tx_hash_bound g) r
                    then sys_matched y ++ [(g, o_id r)] else sys_matched y)
                   (Compared (o_id r) now :: sys_log y))
| os_claim_lost y g now r s' :
    claim_stmt rank (gs_user_id g) (gs_purpose g) now (sys_db y) = (r, s') ->
    step rank y (with_db y s')
| os_consume y g id now n s' :
    (g, id) ∈ sys_matched y -> consume_stmt id now (sys_db y) = (Ok n, s') ->
    step rank y (mkSystem s' (sys_issued y) (sys_matched y)
                   (if n =? 1 then Redeemed id g :: sys_log y else sys_log y))
| os_consume_lost y id now :
    step rank y (with_db y (snd (consume_stmt id now (sys_db y))))
| os_purge y retain_for now :
    step rank y (with_db y (snd (purge_stmt retain_for now (sys_db y))))
| os_delete_user y u :
    step rank y (with_db y (set_otps (sys_db y)
      (List.filter (fun r => negb (bool_decide (o_user_id r = u))) (otps (sys_db y))))).

Definition start (users : list Uuid) : System := mkSystem (mkState 0 users []) [] [] [].

Definition comparisons (id : Uuid) (l : list event) : Z :=
  count_where (fun e => match e with Compared i _ => i =? id | _ => false end) l.

Definition redemptions (id : Uuid) (l : list event) : Z :=
  count_where (fun e => match e with Redeemed i _ => i =? id | _ => false end) l.

(** What never changes in a row. *)
Definition same_code (r r0 : Row) : Prop :=
  o_id r = o_id r0 /\ o_user_id r = o_user_id r0 /\ o_purpose r = o_purpose r0 /\
  o_code_hash r = o_code_hash r0 /\ o_tx_hash_bound r = o_tx_hash_bound r0 /\
  o_expires_at r = o_expires_at r0.

Definition right_guess (g : Guess) (r0 : Row) : Prop :=
  o_user_id r0 = gs_user_id g /\ o_purpose r0 = gs_purpose g /\
  o_code_hash r0 = gs_code_hash g /\ o_tx_hash_bound r0 = gs_tx_hash_bound g.

Definition issued (y : System) (id : Uuid) (P : Row -> Prop) : Prop :=
  exists r0, r0 ∈ sys_issued y /\ o_id r0 = id /\ P r0.

Definition event_ok (y : System) (e : event) : Prop :=
  match e with
  | Compared id t => issued y id (fun r0 => t < o_expires_at r0)
  | Redeemed id g => issued y id (right_guess g)
  end.

(** A row in the database bounds what happened to its code. *)
Definition row_ok (y : System) (r : Row) : Prop :=
  issued y (o_id r) (same_code r) /\ o_id r < next_uuid (sys_db y) /\
  comparisons (o_id r) (sys_log y) <= o_attempts r <= MAX_ATTEMPTS /\
  (o_consumed_at r = None -> redemptions (o_id r) (sys_log y) = 0).

Definition id_ok (y : System) (id : Uuid) : Prop :=
  comparisons id (sys_log y) <= MAX_ATTEMPTS /\ redemptions id (sys_log y) <= 1 /\
  (next_uuid (sys_db y) <= id -> comparisons id (sys_log y) = 0 /\ redemptions id (sys_log y) = 0).

Record Inv (y : System) : Prop := {
  inv_nodup : NoDup (map o_id (otps (sys_db y)));
  inv_rows : Forall (row_ok y) (otps (sys_db y));
  inv_ids : forall id, id_ok y id;
  inv_matched : Forall (fun m => issued y (snd m) (right_guess (fst m))) (sys_matched y);
  inv_log : Forall (event_ok y) (sys_log y)
}.

(** *** Preservation *)

Section Preservation.
Context (rank : Row -> Z) (y : System) (Hinv : Inv y).

Lemma Inv_rows rows' :
  NoDup (map o_id rows') -> Forall (row_ok y) rows' -> Inv (with_db y (set_otps (sys_db y) rows')).
Proof using Hinv. intros Hn Hr. by destruct Hinv. Qed.

Lemma Inv_filter q : Inv (with_db y (set_otps (sys_db y) (List.filter q (otps (sys_db y))))).
Proof using Hinv.
  apply Inv_rows.
  - exact (nodup_ids_filter (A := Row) q _ (inv_nodup _ Hinv)).
  - apply Forall_forall. intros r Hr. apply list_elem_of_In, filter_In in Hr as [Hr%list_elem_of_In _].
    revert r Hr. apply Forall_forall, (inv_rows _ Hinv).
Qed.

Lemma row_of r : r ∈ otps (sys_db y) -> row_ok y r.
Proof using Hinv. apply Forall_forall, (inv_rows _ Hinv). Qed.

Lemma same_id a b :
  a ∈ otps (sys_db y) -> b ∈ otps (sys_db y) -> o_id a = o_id b -> a = b.
Proof using Hinv. exact (nodup_ids_inj (A := Row) _ a b (inv_nodup _ Hinv)). Qed.

(** The row claimed is a row of the database, redeemable, with its attempt counted. *)
Lemma claim_stmt_row u p now r s' :
  claim_stmt rank u p now (sys_db y) = (Ok (Some r), s') ->
  exists r1, r1 ∈ otps (sys_db y) /\ redeemable now r1 = true /\ r = count_attempt r1 /\
    o_user_id r1 = u /\ o_purpose r1 = p /\
    s' = set_otps (sys_db y) (update_where (fun x => bool_decide (o_id x = o_id r1) && redeemable now x)
                                count_attempt (otps (sys_db y))).
Proof using Hinv.
  unfold claim_stmt. destruct (latest _ _ _ _) as [r0|] eqn:El; [|done].
  destruct (List.find _ _) as [r1|] eqn:Ef; [|done]. intros [= <- <-].
  apply find_elem in Ef as [Hin [Eid%bool_decide_eq_true Hr]%andb_true_iff].
  exists r1. split_and!; [done..| | |by rewrite Eid].
  all: unfold latest in El; apply head_Some_elem_of in El; rewrite sort_by_perm in El;
    apply list_elem_of_In, filter_In in El as [Hl [Hu%bool_decide_eq_true Hp%bool_decide_eq_true]%andb_true_iff];
    apply list_elem_of_In in Hl; by rewrite (same_id r1 r0 Hin Hl Eid).
Qed.

Lemma row_claimed now r1 :
  r1 ∈ otps (sys_db y) -> redeemable now r1 = true ->
  let p x := bool_decide (o_id x = o_id r1) && redeemable now x in
  forall x, x ∈ otps (sys_db y) -> p x = bool_decide (o_id x = o_id r1).
Proof using Hinv.
  intros Hin Hr p x Hx. unfold p. case_bool_decide as E; [|done]. by rewrite (same_id x r1 Hx Hin E).
Qed.

Lemma Inv_claim_lost u p now r s' :
  claim_stmt rank u p now (sys_db y) = (r, s') -> Inv (with_db y s').
Proof using Hinv.
  intros Hc. assert (r = Ok None /\ s' = sys_db y \/ exists r1, r = Ok (Some r1)) as [[-> ->]|[r1 ->]].
  { unfold claim_stmt in Hc. repeat case_match; simplify_eq; eauto. }
  { by destruct y, Hinv. }
  apply claim_stmt_row in Hc as (r0 & Hin & Hr & -> & _ & _ & ->). apply Inv_rows.
  - rewrite update_where_key by done. apply (inv_nodup _ Hinv).
  - eapply update_where_Forall; [apply (inv_rows _ Hinv)|]. intros x Hx Hok.
    case_match eqn:E; [|done]. apply andb_true_iff in E as [_ Hred].
    unfold redeemable in Hred. rewrite !andb_true_iff in Hred. destruct Hok as (H1 & H2 & H3 & H4).
    split_and!; cbn; try done; unfold MAX_ATTEMPTS in *; lia.
Qed.

Lemma Inv_claim g now r s' :
  claim_stmt rank (gs_user_id g) (gs_purpose g) now (sys_db y) = (Ok (Some r), s') ->
  Inv (mkSystem s' (sys_issued y)
         (if accepts (gs_code_hash g) (gs_tx_hash_bound g) r
          then sys_matched y ++ [(g, o_id r)] else sys_matched y)
         (Compared (o_id r) now :: sys_log y)).
Proof using Hinv.
  intros (r1 & Hin & Hr & -> & Hu & Hp & ->)%claim_stmt_row. cbn [o_id count_attempt].
  pose proof (row_of r1 Hin) as (Hiss & Hlt & Hcmp & Hred).
  assert (Hlive : o_attempts r1 < MAX_ATTEMPTS /\ now < o_expires_at r1).
  { unfold redeemable in Hr. rewrite !andb_true_iff in Hr. lia. }
  split; cbn [sys_db sys_issued sys_matched sys_log set_otps otps next_uuid].
  - rewrite update_where_key by done. apply (inv_nodup _ Hinv).
  - eapply update_where_Forall; [apply (inv_rows _ Hinv)|]. intros x Hx (H1 & H2 & H3 & H4).
    rewrite (row_claimed now r1 Hin Hr x Hx).
    unfold row_ok, comparisons, redemptions in *. cbn [sys_log sys_db]. rewrite !count_where_cons.
    case_bool_decide as E; cbn -[count_where MAX_ATTEMPTS].
    + assert (x = r1) as -> by (by apply same_id). rewrite Z.eqb_refl. split_and!; done || lia.
    + rewrite (proj2 (Z.eqb_neq _ _) (not_eq_sym E)). split_and!; done || lia.
  - intros id. destruct (inv_ids _ Hinv id) as (H1 & H2 & H3). unfold id_ok, comparisons, redemptions in *.
    cbn [sys_log sys_db]. rewrite !count_where_cons. unfold MAX_ATTEMPTS in *. cbn [next_uuid set_otps].
    destruct (Z.eqb_spec (o_id r1) id) as [<-|]; split_and!; lia.
  - pose proof (inv_matched _ Hinv) as Hm. case_match eqn:E; [|done]. apply Forall_app. split; [done|].
    apply Forall_singleton. destruct Hiss as (r0 & Hr0 & E0 & S1 & S2 & S3 & S4 & S5 & S6).
    unfold accepts in E. rewrite andb_true_iff, !bool_decide_eq_true in E. cbn in E.
    exists r0. split_and!; [done..|]. split_and!; cbn; intuition congruence.
  - constructor; [|apply (inv_log _ Hinv)]. destruct Hiss as (r0 & Hr0 & E0 & S1 & S2 & S3 & S4 & S5 & S6).
    exists r0. split_and!; [done..|lia].
Qed.

Lemma issued_more l id P : issued y id P -> exists r0, r0 ∈ sys_issued y ++ l /\ o_id r0 = id /\ P r0.
Proof. intros (r0 & Hr & H). exists r0. split; [apply elem_of_app; by left|done]. Qed.

Lemma Inv_create u p h b ttl now id s' :
  create_stmt u p h b ttl now (sys_db y) = (Ok id, s') ->
  Inv (mkSystem s' (sys_issued y ++ [mkRow id u p h b 0 None (now + ttl) now])
         (sys_matched y) (sys_log y)).
Proof using Hinv.
  unfold create_stmt. case_match; [done|]. intros [= <- <-]. destruct Hinv as [Hn Hr Hi Hm Hl].
  split; cbn [sys_db sys_issued sys_matched sys_log otps next_uuid].
  - rewrite map_app. apply NoDup_app. split_and!; [done| |apply NoDup_singleton].
    intros k Hk Hk'. apply list_elem_of_singleton in Hk' as ->.
    apply list_elem_of_fmap in Hk as (r & E & Hin). apply row_of in Hin as (_ & Hlt & _). cbn in E. lia.
  - apply Forall_app. split.
    + eapply Forall_impl; [exact Hr|]. intros r (H1 & H2 & H3 & H4).
      split_and!; cbn; try done; try lia. by apply issued_more.
    + apply Forall_singleton. destruct (Hi (next_uuid (sys_db y))) as (H1 & H2 & H3).
      destruct H3 as [H3 H4]; [lia|]. split; [|cbn; split_and!; done || lia].
      eexists. split; [apply elem_of_app; right; by apply list_elem_of_singleton|]. by split_and!.
  - intros id. destruct (Hi id) as (H1 & H2 & H3). split_and!; [done..|]. cbn. intros ?. apply H3. lia.
  - eapply Forall_impl; [exact Hm|]. intros m. by apply issued_more.
  - eapply Forall_impl; [exact Hl|]. intros [|]; by apply issued_more.
Qed.

Lemma consume_rows id now P Q :
  Forall P (otps (sys_db y)) ->
  (forall r, P r -> unconsumed id r = true -> Q (consume now r)) ->
  (forall r, P r -> unconsumed id r = false -> Q r) ->
  Forall Q (update_where (unconsumed id) (consume now) (otps (sys_db y))).
Proof. intros HP H1 H2. eapply update_where_Forall; [exact HP|]. intros r _ Hr. case_match; auto. Qed.

Lemma Inv_consume_lost id now : Inv (with_db y (snd (consume_stmt id now (sys_db y)))).
Proof using Hinv.
  apply Inv_rows; [rewrite update_where_key by done; apply (inv_nodup _ Hinv)|].
  eapply consume_rows; [apply (inv_rows _ Hinv)| |done]. intros r (H1 & H2 & H3 & H4) _. split; [exact H1|]. cbn. split_and!; done || lia.
Qed.

Lemma Inv_redeemed g id now :
  (g, id) ∈ sys_matched y -> count_where (unconsumed id) (otps (sys_db y)) = 1 ->
  Inv (mkSystem (snd (consume_stmt id now (sys_db y))) (sys_issued y) (sys_matched y)
         (Redeemed id g :: sys_log y)).
Proof using Hinv.
  intros Hm Hn. destruct (count_where_pos (unconsumed id) (otps (sys_db y))) as (r & Hr & E); [lia|].
  apply andb_true_iff in E as [<-%bool_decide_eq_true Hc%bool_decide_eq_true].
  pose proof (row_of r Hr) as (_ & Hlt & _ & H0). specialize (H0 Hc).
  split; cbn [sys_db sys_issued sys_matched sys_log otps next_uuid snd consume_stmt set_otps].
  - rewrite update_where_key by done. apply (inv_nodup _ Hinv).
  - unfold row_ok, comparisons, redemptions in *. cbn [sys_log sys_db].
    setoid_rewrite count_where_cons.
    eapply consume_rows; [apply (inv_rows _ Hinv)| |]; intros x (H1 & H2 & H3 & H4) Hx.
    all: unfold comparisons, redemptions in H3, H4.
    + split; [exact H1|]. cbn -[count_where MAX_ATTEMPTS]. split_and!; done || lia.
    + split_and!; try done; try lia. intros Hx'. specialize (H4 Hx').
      unfold unconsumed in Hx. rewrite (bool_decide_eq_true_2 _ Hx'), andb_true_r in Hx.
      apply bool_decide_eq_false in Hx. rewrite (proj2 (Z.eqb_neq _ _)) by congruence. done.
  - intros i. destruct (inv_ids _ Hinv i) as (H1 & H2 & H3). unfold id_ok, comparisons, redemptions in *.
    cbn [sys_log sys_db]. rewrite !count_where_cons. cbn [next_uuid set_otps].
    destruct (Z.eqb_spec (o_id r) i) as [<-|]; split_and!; lia.
  - apply (inv_matched _ Hinv).
  - constructor; [|apply (inv_log _ Hinv)].
    pose proof (inv_matched _ Hinv) as Hall. rewrite Forall_forall in Hall. exact (Hall _ Hm).
Qed.

Lemma otp_Inv_step y' : step rank y y' -> Inv y'.
Proof using Hinv.
  inversion 1; subst.
  - by eapply Inv_create.
  - by eapply Inv_claim.
  - by eapply Inv_claim_lost.
  - match goal with Hc : consume_stmt _ _ _ = _ |- _ => injection Hc as <- <- end.
    case_match eqn:E; [apply Inv_redeemed; [done|lia]|]. apply Inv_consume_lost.
  - apply Inv_consume_lost.
  - apply Inv_filter.
  - apply Inv_filter.
Qed.
End Preservation.

Lemma Inv_start users : Inv (start users).
Proof. split; cbn; try constructor; cbn; try done; unfold MAX_ATTEMPTS; lia. Qed.

Lemma otp_Inv_run rank users y : rtc (step rank) (start users) y -> Inv y.
Proof.
  intros Hr. apply rtc_ind_r with (P := Inv) in Hr; [done|apply Inv_start|].
  intros y1 y2 _ Hs H1. by eapply otp_Inv_step.
Qed.

(** C34: Whatever the interleaving of issuances, concurrent verifications (with
    statements that fail, take effect unreported or are never followed up), purges and
    account deletions, and whichever of several codes of the same instant the database
    calls the latest: each code is compared with at most five guesses, every one of
    them before its expiry, and is redeemed at most once, by a verification for its
    user, its purpose, its code and its bound transaction. *)
Theorem otp_safe (rank : Row -> Z) (users : list Uuid) (y : System) (id : Uuid) :
  rtc (step rank) (start users) y ->
  comparisons id (sys_log y) <= MAX_ATTEMPTS /\ redemptions id (sys_log y) <= 1 /\
  (forall t, Compared id t ∈ sys_log y -> issued y id (fun r0 => t < o_expires_at r0)) /\
  (forall g, Redeemed id g ∈ sys_log y -> issued y id (right_guess g)).
Proof.
  intros [_ _ Hi _ Hl]%otp_Inv_run. destruct (Hi id) as (H1 & H2 & _). rewrite Forall_forall in Hl.
  split_and!; [done..| |]; intros ? He; exact (Hl _ He).
Qed.

Definition ex_guess : Guess := mkGuess 7 "withdrawal" "h" (Some "tx").
Definition ex_row : Row := mkRow 0 7 "withdrawal" "h" (Some "tx") 0 None 100 0.
Definition ex_end : System :=
  mkSystem (mkState 1 [7] [consume 11 (count_attempt ex_row)]) [ex_row] [(ex_guess, 0)]
    [Redeemed 0 ex_guess; Compared 0 10].

Lemma otp_safe_witness :
  rtc (step (fun _ => 0)) (start [7]) ex_end /\
  comparisons 0 (sys_log ex_end) <= MAX_ATTEMPTS /\ issued ex_end 0 (right_guess ex_guess).
Proof.
  assert (Hrun : rtc (step (fun _ => 0)) (start [7]) ex_end).
  { eapply rtc_l; [by apply (os_create _ (start [7]) 7 "withdrawal" "h" (Some "tx") 100 0 0)|].
    eapply rtc_l; [by apply (os_claim _ _ ex_guess 10 (count_attempt ex_row))|].
    eapply rtc_l; [apply (os_consume _ _ ex_guess 0 11 1); [by left|reflexivity]|].
    apply rtc_refl. }
  destruct (otp_safe (fun _ => 0) [7] ex_end 0 Hrun) as (H1 & _ & _ & H2).
  split; [exact Hrun|]. split; [exact H1|]. apply H2. left.
Defined.

(** ** A code that was issued is accepted, once *)

Section Roundtrip.
Context (rank : Row -> Z) {X : Type}.

Lemma newer_total a b : newer rank a b = true \/ newer rank b a = true.
Proof. unfold newer. rewrite !orb_true_iff, !andb_true_iff. lia. Qed.

Lemma newer_trans a b c : newer rank a b = true -> newer rank b c = true -> newer rank a c = true.
Proof. unfold newer. rewrite !orb_true_iff, !andb_true_iff. lia. Qed.

(** The last row issued to a user for a purpose is the latest one. *)
Lemma latest_last l r n us :
  Forall (fun x => o_user_id x = o_user_id r -> o_purpose x = o_purpose r -> o_created_at x < o_created_at r) l ->
  latest rank (o_user_id r) (o_purpose r) (mkState n us (l ++ [r])) = Some r.
Proof.
  intros Hl. unfold latest. cbn [otps]. set (q := fun x => _).
  assert (Hr : r ∈ sort_by (newer rank) (List.filter q (l ++ [r]))).
  { rewrite sort_by_perm. apply list_elem_of_In, filter_In. split.
    - apply in_or_app. right. by left.
    - unfold q. by rewrite !bool_decide_eq_true_2. }
  pose proof (sort_by_sorted (newer rank) newer_total newer_trans (List.filter q (l ++ [r]))) as Hs.
  destruct (sort_by (newer rank) _) as [|x rest] eqn:E; [by apply elem_of_nil in Hr|]. cbn. f_equal.
  apply elem_of_cons in Hr as [->|Hr]; [done|]. apply StronglySorted_inv in Hs as [_ Hx].
  rewrite Forall_forall in Hx. specialize (Hx r Hr).
  assert (Hin : x ∈ List.filter q (l ++ [r])) by (rewrite <-sort_by_perm, E; left).
  apply list_elem_of_In, filter_In in Hin as [Hin Hq]. unfold q in Hq.
  rewrite andb_true_iff, !bool_decide_eq_true in Hq. apply in_app_or in Hin as [Hin|[->|[]]]; [|done].
  rewrite Forall_forall in Hl. apply list_elem_of_In in Hin. specialize (Hl x Hin (proj1 Hq) (proj2 Hq)).
  unfold newer in Hx. rewrite orb_true_iff, andb_true_iff in Hx. lia.
Qed.

(** An update of the last row alone. *)
Lemma update_where_last p f (l : list Row) r :
  Forall (fun x => p x = false) l -> update_where p f (l ++ [r]) = l ++ [if p r then f r else r].
Proof.
  intros Hl. unfold update_where. rewrite map_app. f_equal.
  induction Hl as [|x l Hx Hl IH]; cbn; [done|]. by rewrite Hx, IH.
Qed.

Lemma find_last (p : Row -> bool) l r :
  Forall (fun x => p x = false) l -> p r = true -> List.find p (l ++ [r]) = Some r.
Proof. intros Hl Hr. induction Hl as [|x l Hx Hl IH]; cbn; [by rewrite Hr|]. by rewrite Hx. Qed.

(** What a verification does when the code it meets is the last row. *)
Lemma claim_last l r n us now :
  Forall (fun x => o_id x <> o_id r) l ->
  Forall (fun x => o_user_id x = o_user_id r -> o_purpose x = o_purpose r -> o_created_at x < o_created_at r) l ->
  claim_stmt rank (o_user_id r) (o_purpose r) now (mkState n us (l ++ [r])) =
    if redeemable now r then (Ok (Some (count_attempt r)), mkState n us (l ++ [count_attempt r]))
    else (Ok None, mkState n us (l ++ [r])).
Proof.
  intros Hid Hlate. unfold claim_stmt. rewrite latest_last by done. cbn [otps].
  assert (Hno : Forall (fun x => bool_decide (o_id x = o_id r) && redeemable now x = false) l).
  { eapply Forall_impl; [exact Hid|]. intros x Hx. by rewrite bool_decide_eq_false_2. }
  destruct (redeemable now r) eqn:E.
  - rewrite find_last; [|done|by rewrite bool_decide_eq_true_2].
    unfold set_otps. cbn. rewrite update_where_last by done. by rewrite bool_decide_eq_true_2, E.
  - destruct (List.find _ _) as [x|] eqn:Ef; [|done]. exfalso.
    apply find_elem in Ef as [Hx Ep]. apply elem_of_app in Hx as [Hx|Hx%list_elem_of_singleton].
    + rewrite Forall_forall in Hno. by rewrite (Hno x Hx) in Ep.
    + subst x. by rewrite E, andb_false_r in Ep.
Qed.

Lemma consume_last l r n us now :
  Forall (fun x => o_id x <> o_id r) l -> o_consumed_at r = None ->
  consume_stmt (o_id r) now (mkState n us (l ++ [r])) = (Ok 1, mkState n us (l ++ [consume now r])).
Proof.
  intros Hid Hc.
  assert (Hno : Forall (fun x => unconsumed (o_id r) x = false) l).
  { eapply Forall_impl; [exact Hid|]. intros x Hx. unfold unconsumed. by rewrite bool_decide_eq_false_2. }
  assert (Hr : unconsumed (o_id r) r = true) by (unfold unconsumed; by rewrite !bool_decide_eq_true_2).
  unfold consume_stmt, set_otps, count_where. cbn [otps next_uuid user_ids].
  rewrite update_where_last, Hr by done. rewrite List.filter_app, filter_none by done. cbn. by rewrite Hr.
Qed.

Definition quiet (now : Z) : tick State := mkTick NoFault now (fun s => s).

Lemma verify_last l r n us ta tb rest x code bound :
  Forall (fun x => o_id x <> o_id r) l ->
  Forall (fun x => o_user_id x = o_user_id r -> o_purpose x = o_purpose r -> o_created_at x < o_created_at r) l ->
  verify_and_consume_otp (X := X) rank (o_user_id r) (o_purpose r) code bound
    (mkWorld (mkState n us (l ++ [r])) (quiet ta :: quiet tb :: rest) x) =
  if redeemable ta r then
    if accepts code bound (count_attempt r)
    then (Ret (Ok tt), mkWorld (mkState n us (l ++ [consume tb (count_attempt r)])) rest x)
    else (Ret (Err InvalidOtp), mkWorld (mkState n us (l ++ [count_attempt r])) (quiet tb :: rest) x)
  else (Ret (Err InvalidOtp), mkWorld (mkState n us (l ++ [r])) (quiet tb :: rest) x).
Proof.
  intros Hid Hlate. unfold verify_and_consume_otp, try_bind, bind, db_call.
  cbn -[claim_stmt consume_stmt redeemable accepts count_attempt].
  rewrite claim_last by done. destruct (redeemable ta r) eqn:E; [|done]. cbn [snd].
  destruct (accepts _ _ _); [|done]. cbn -[consume_stmt].
  change (o_id r) with (o_id (count_attempt r)).
  rewrite consume_last; [done|done|]. unfold redeemable in E.
  rewrite !andb_true_iff, bool_decide_eq_true in E. naive_solver.
Qed.

(** A code is accepted, and once. Issue a code at [t0] to a user who got no code
    for the purpose at that instant or later; then verify a guess at [t1] and another
    at a later time, with nothing failing. Before the expiry the first verification
    succeeds exactly for the issued code with the bound transaction, and after a
    success the second one is refused whatever it guesses. *)
Lemma issued_code_accepted (s : State) (x : X) (u : Uuid) (p h h' : string) (b b' : option string)
    (ttl t0 t1 t2 t3 t4 : Z) (g2 : string) (b2 : option string) :
  purpose_ok p = true -> u ∈ user_ids s ->
  Forall (fun r => o_id r < next_uuid s /\ o_created_at r < t0) (otps s) -> t1 < t0 + ttl ->
  exists r1 r2 w',
    (do _ <- create_otp u p h b ttl;
     do r1 <- verify_and_consume_otp rank u p h' b';
     do r2 <- verify_and_consume_otp rank u p g2 b2;
     ret (r1, r2)) (mkWorld s [quiet t0; quiet t1; quiet t2; quiet t3; quiet t4] x) = (Ret (r1, r2), w') /\
    (r1 = Ok tt <-> h' = h /\ b' = b) /\ (r1 = Ok tt -> r2 = Err InvalidOtp).
Proof.
  intros Hp Hu Hrows Ht. set (r := mkRow (next_uuid s) u p h b 0 None (t0 + ttl) t0).
  assert (Hid : Forall (fun x => o_id x <> next_uuid s) (otps s)).
  { eapply Forall_impl; [exact Hrows|]. cbn. lia. }
  assert (Hlate : Forall (fun x => o_user_id x = u -> o_purpose x = p -> o_created_at x < t0) (otps s)).
  { eapply Forall_impl; [exact Hrows|]. cbn. lia. }
  unfold bind at 1, create_otp, bind at 1, db_call at 1.
  cbn -[create_stmt verify_and_consume_otp].
  unfold create_stmt. rewrite Hp, (bool_decide_eq_true_2 _ Hu). cbn [negb orb]. fold r.
  cbn [ret bind]. unfold bind at 1.
  rewrite (verify_last (otps s) r) by done.
  assert (Hred : redeemable t1 r = true) by (unfold redeemable, r, MAX_ATTEMPTS; cbn; lia).
  rewrite Hred. unfold accepts. cbn [o_code_hash o_tx_hash_bound count_attempt r].
  destruct (bool_decide (h = h') && bool_decide (b = b')) eqn:Eacc;
    unfold bind; [rewrite (verify_last (otps s) (consume t2 (count_attempt r)))
                 |rewrite (verify_last (otps s) (count_attempt r))]; try done.
  - cbn. do 3 eexists. split; [reflexivity|]. rewrite andb_true_iff, !bool_decide_eq_true in Eacc. naive_solver.
  - destruct (redeemable t2 (count_attempt r)), (accepts g2 b2 (count_attempt (count_attempt r)));
      do 3 eexists; (split; [reflexivity|]);
      rewrite andb_false_iff, !bool_decide_eq_false in Eacc; naive_solver.
Qed.
End Roundtrip.

End Otp.
