(* ===== verification/RateLimit.v ===== *)
(** * Rate limiting

    [crates/api/src/rate_limit.rs] and [crates/store/src/rate_limit.rs]: fixed-window
    counters behind the [RateLimitStore] trait, its per-process and its PostgreSQL
    implementation, and the limiter that falls back to the former when the latter
    fails. The trait is a class whose laws say what the counters promise; the
    limiter's theorems are proved against the laws, and both implementations satisfy
    them. The counters in memory are gone when the process dies, those of the table
    (which is UNLOGGED) when the database crashes. Times and windows are in
    microseconds. The address helpers of the module ([client_ip], [ip_in_cidr]) are
    not modelled here. *)

From S2P Require Import Prelude Db.

Module RateLimit.
Import Db.

(** A bucket is named by the limited subject and the endpoint class. *)
Notation BucketKey := (string * string)%type.

(** ** The trait *)

(** What happens to a call of the backend while the process lives; only a remote backend has faults. *)
Inductive reply := Works | FailsBefore | FailsAfter.

(** With what is left of the counters when the process dies and when the database crashes, and whether
    they are the process's own. *)
Class RateLimitStore (B : Type) := {
  hit : reply -> BucketKey -> Z -> Z -> B -> result Z StoreError * B;
  prune : reply -> Z -> B -> result Z StoreError * B;
  in_process : bool;
  process_died : B -> B;
  database_crashed : B -> B
}.
Arguments in_process B {_}.

(** A bucket: when its window ends, and the hits so far. *)
Definition live (now : Z) (b : option (Z * Z)) : option (Z * Z) :=
  match b with
  | Some (expires, hits) => if now <? expires then Some (expires, hits) else None
  | None => None
  end.

(** A hit at [now] on the bucket [b]: the bucket after it. *)
Definition counted (window now : Z) (b : option (Z * Z)) : Z * Z :=
  let '(expires, hits) := default (now + window, 0) (live now b) in
  (expires, Z.min (hits + 1) u64_MAX).

(** [b'] is [b] or, if [b] had expired, nothing. *)
Definition kept (now : Z) (b b' : option (Z * Z)) : Prop :=
  b' = b \/ (b' = None /\ live now b = None).

Class RateLimitLaws (B : Type) `{RateLimitStore B} := {
  valid : B -> Prop;
  bucket : B -> BucketKey -> option (Z * Z);
  valid_hits s k expires hits : valid s -> bucket s k = Some (expires, hits) -> 0 <= hits <= u64_MAX;
  hit_valid f k window now s : valid s -> valid (snd (hit f k window now s));
  prune_valid f now s : valid s -> valid (snd (prune f now s));
  hit_ok f k window now s n s' :
    valid s -> hit f k window now s = (Ok n, s') ->
    bucket s' k = Some (counted window now (bucket s k)) /\ n = snd (counted window now (bucket s k));
  hit_err f k window now s e s' :
    valid s -> hit f k window now s = (Err e, s') ->
    kept now (bucket s k) (bucket s' k) \/ bucket s' k = Some (counted window now (bucket s k));
  hit_other f k k' window now s :
    valid s -> k' <> k -> kept now (bucket s k') (bucket (snd (hit f k window now s)) k');
  prune_bucket f k now s : valid s -> kept now (bucket s k) (bucket (snd (prune f now s)) k);
  died_valid s : valid s -> valid (process_died s);
  crashed_valid s : valid s -> valid (database_crashed s);
  died_keeps s : in_process B = false -> process_died s = s;
  crashed_keeps s : in_process B = true -> database_crashed s = s;
  died_bucket s k : bucket (process_died s) k = bucket s k \/ bucket (process_died s) k = None;
  crashed_bucket s k : bucket (database_crashed s) k = bucket s k \/ bucket (database_crashed s) k = None
}.

(** ** [MemoryRateLimitStore] *)

Definition SWEEP_THRESHOLD : nat := Z.to_nat 10000.

Notation MemoryRateLimitStore := (gmap BucketKey (Z * Z)).

Definition unexpired (now : Z) (m : MemoryRateLimitStore) : MemoryRateLimitStore :=
  filter (fun kb => now < fst (snd kb)) m.

Definition memory_count (k : BucketKey) (window now : Z) (m : MemoryRateLimitStore) :
    Z * MemoryRateLimitStore :=
  let m := if (SWEEP_THRESHOLD <? size m)%nat then unexpired now m else m in
  let '(expires, hits) := default (now + window, 0) (m !! k) in
  let '(expires, hits) := if expires <=? now then (now + window, 0) else (expires, hits) in
  let hits := Z.min (hits + 1) u64_MAX in
  (hits, <[k := (expires, hits)]> m).

Definition prune_expired (now : Z) (m : MemoryRateLimitStore) : Z * MemoryRateLimitStore :=
  let m' := unexpired now m in
  (Z.of_nat (size m - size m'), m').

#[export] Instance memory_store : RateLimitStore MemoryRateLimitStore := {|
  hit _ k window now m := let '(n, m') := memory_count k window now m in (Ok n, m');
  prune _ now m := let '(n, m') := prune_expired now m in (Ok n, m');
  in_process := true;
  process_died _ := ∅;
  database_crashed m := m
|}.

(** ** [PostgresRateLimitStore] *)

(** The table [rate_limit_buckets], by its primary key: [(expires_at, hits)]. *)
Record PostgresRateLimitStore := mkPg { rate_limit_buckets : gmap BucketKey (Z * Z) }.

Definition rate_limit_hit_stmt (k : BucketKey) (window now : Z) (p : PostgresRateLimitStore) :
    result Z sqlx_error * PostgresRateLimitStore :=
  let row :=
    match rate_limit_buckets p !! k with
    | None => Some (now + window, 1)
    | Some (expires_at, hits) =>
        if expires_at <=? now then Some (now + window, 1)
        else option_map (fun h => (expires_at, h)) (checked_add_i64 hits 1)
    end in
  match row with
  | Some (expires_at, hits) => (Ok hits, mkPg (<[k := (expires_at, hits)]> (rate_limit_buckets p)))
  | None => (Err OtherDbError, p)
  end.

Definition prune_stmt (now : Z) (p : PostgresRateLimitStore) : result Z sqlx_error * PostgresRateLimitStore :=
  let m' := filter (fun kb => now <= fst (snd kb)) (rate_limit_buckets p) in
  (Ok (Z.of_nat (size (rate_limit_buckets p) - size m')), mkPg m').

(** One statement under a fault: the result the caller sees and the effect. *)
Definition faulty {A} (f : reply) (p : PostgresRateLimitStore)
    (r : result A sqlx_error * PostgresRateLimitStore) : result A StoreError * PostgresRateLimitStore :=
  match f with
  | Works => (map_err from_sqlx (fst r), snd r)
  | FailsBefore => (Err Database, p)
  | FailsAfter => (Err Database, snd r)
  end.

Definition rate_limit_hit (f : reply) (k : BucketKey) (window now : Z) (p : PostgresRateLimitStore) :
    result Z StoreError * PostgresRateLimitStore :=
  faulty f p (rate_limit_hit_stmt k window now p).

Definition prune_rate_limit_buckets (f : reply) (now : Z) (p : PostgresRateLimitStore) :
    result Z StoreError * PostgresRateLimitStore :=
  faulty f p (prune_stmt now p).

#[export] Instance postgres_store : RateLimitStore PostgresRateLimitStore := {|
  hit f k window now p :=
    match rate_limit_hit f k window now p with
    | (Ok hits, p') => (Ok (default 0 (try_u64 hits)), p')
    | (Err e, p') => (Err e, p')
    end;
  prune f now p := prune_rate_limit_buckets f now p;
  in_process := false;
  process_died p := p;
  database_crashed _ := mkPg ∅
|}.

(** ** The backend selection *)

Inductive RateLimitBackend := Memory | Postgres.

Definition parse (s : string) : option RateLimitBackend :=
  let s := to_ascii_lowercase (trim s) in
  if bool_decide (s = "memory") then Some Memory
  else if bool_decide (s = "postgres") then Some Postgres else None.

Definition as_str (b : RateLimitBackend) : string :=
  match b with Memory => "memory" | Postgres => "postgres" end.

(** ** The limiter *)

Section Limiter.
Context {B : Type} `{RateLimitStore B}.

Record RateLimiter := mkLimiter { backend : B; fallback : MemoryRateLimitStore }.

Definition with_backend (b : B) : RateLimiter := mkLimiter b ∅.

(** [now] is the backend's clock, [mono] the process's. *)
Definition check (f : reply) (k : BucketKey) (limit window now mono : Z) (rl : RateLimiter) :
    bool * RateLimiter :=
  match hit f k window now (backend rl) with
  | (Ok hits, b) => (hits <=? limit, mkLimiter b (fallback rl))
  | (Err _, b) =>
      let '(hits, m) := memory_count k window mono (fallback rl) in
      (hits <=? limit, mkLimiter b m)
  end.

Definition prune_all (f : reply) (now mono : Z) (rl : RateLimiter) : result Z StoreError * RateLimiter :=
  let m := snd (prune_expired mono (fallback rl)) in
  let '(r, b) := prune f now (backend rl) in
  (r, mkLimiter b m).

(** The process died and a new one took its place. *)
Definition restarted (rl : RateLimiter) : RateLimiter := with_backend (process_died (backend rl)).
End Limiter.
Arguments RateLimiter : clear implicits.

(** ** Both implementations satisfy the laws *)

Definition hits_within (hi : Z) (m : gmap BucketKey (Z * Z)) : Prop :=
  map_Forall (fun _ b => 0 <= snd b <= hi) m.

Lemma unexpired_lookup now m k : unexpired now m !! k = live now (m !! k).
Proof.
  unfold unexpired, live. destruct (m !! k) as [[e h]|] eqn:E.
  - destruct (Z.ltb_spec now e).
    + apply map_lookup_filter_Some. by split.
    + apply map_lookup_filter_None. right. intros x Hx Hlt. rewrite E in Hx. simplify_eq. cbn in Hlt. lia.
  - apply map_lookup_filter_None. by left.
Qed.

Lemma live_live now b : live now (live now b) = live now b.
Proof. destruct b as [[e h]|]; [|done]. cbn. destruct (now <? e) eqn:E; cbn; by rewrite ?E. Qed.

Lemma swept_lookup now m k :
  let m' := if (SWEEP_THRESHOLD <? size m)%nat then unexpired now m else m in
  kept now (m !! k) (m' !! k) /\ live now (m' !! k) = live now (m !! k).
Proof.
  cbn. case_match; [|by split; [left|]]. rewrite unexpired_lookup, live_live. split; [|done].
  destruct (m !! k) as [[e h]|]; [|by left]. cbn. destruct (now <? e) eqn:E; [by left|].
  right. cbn. by rewrite E.
Qed.

Lemma memory_count_eq k window now m :
  let m' := if (SWEEP_THRESHOLD <? size m)%nat then unexpired now m else m in
  memory_count k window now m =
    (snd (counted window now (m !! k)), <[k := counted window now (m !! k)]> m').
Proof.
  intros m'. unfold memory_count, counted. fold m'.
  destruct (swept_lookup now m k) as [_ E]. fold m' in E. rewrite <-E.
  destruct (m' !! k) as [[e h]|]; cbn.
  - destruct (Z.ltb_spec now e), (Z.leb_spec e now); try lia; done.
  - destruct (Z.leb_spec (now + window) now); done.
Qed.

Lemma counted_within window now b hi :
  (forall e h, b = Some (e, h) -> 0 <= h <= hi) -> 0 <= snd (counted window now b) <= u64_MAX.
Proof.
  intros Hb. unfold counted, live. destruct b as [[e h]|]; cbn; [|unfold u64_MAX; lia].
  specialize (Hb e h eq_refl). destruct (now <? e); cbn; unfold u64_MAX; lia.
Qed.

Lemma filter_within (hi : Z) (P : BucketKey * (Z * Z) -> Prop) `{forall x, Decision (P x)} (m : gmap BucketKey (Z * Z)) :
  hits_within hi m -> hits_within hi (filter P m).
Proof. intros Hm k b [Hb _]%map_lookup_filter_Some. exact (Hm k b Hb). Qed.

#[export] Instance memory_laws : RateLimitLaws MemoryRateLimitStore.
Proof.
  refine {| valid := hits_within u64_MAX; bucket m k := m !! k |}.
  - intros s k e h Hs E. exact (Hs k _ E).
  - intros f k window now s Hs. cbn [hit memory_store]. rewrite memory_count_eq. cbn [snd].
    apply map_Forall_insert_2; [|case_match; [by apply filter_within|done]].
    apply (counted_within _ _ _ u64_MAX). intros e h E. exact (Hs k _ E).
  - intros f now s Hs. by apply filter_within.
  - intros f k window now s n s' _. cbn [hit memory_store]. rewrite memory_count_eq.
    intros [= <- <-]. by rewrite lookup_insert_eq.
  - intros f k window now s e s' _. cbn [hit memory_store]. by rewrite memory_count_eq.
  - intros f k k' window now s _ Hk. cbn [hit memory_store]. rewrite memory_count_eq. cbn [snd].
    rewrite lookup_insert_ne by done. apply swept_lookup.
  - intros f k now s _. cbn. rewrite unexpired_lookup.
    destruct (s !! k) as [[e h]|]; [|by left]. cbn. destruct (now <? e) eqn:E; [by left|].
    right. cbn. by rewrite E.
  - intros s _. apply map_Forall_empty.
  - done.
  - done.
  - done.
  - intros s k. by right.
  - intros s k. by left.
Defined.

Lemma counted_pg window now (b : option (Z * Z)) :
  (forall e h, b = Some (e, h) -> 0 <= h <= i64_MAX) ->
  match b with
  | None => Some (now + window, 1)
  | Some (e, h) => if e <=? now then Some (now + window, 1)
                   else option_map (fun h => (e, h)) (checked_add_i64 h 1)
  end = Some (counted window now b) /\ snd (counted window now b) <= i64_MAX \/
  exists e, b = Some (e, i64_MAX) /\ (e <=? now) = false.
Proof.
  intros Hb. unfold counted, live, checked_add_i64, try_i64. destruct b as [[e h]|]; [|by left].
  specialize (Hb e h eq_refl).
  destruct (Z.leb_spec e now), (Z.ltb_spec now e); try lia; [by left|].
  destruct (Z.eqb_spec h i64_MAX) as [->|Hne]; [right; exists e; split; [done|lia]|left].
  rewrite guard_range_in by (unfold i64_MIN, i64_MAX in *; lia). cbn -[Z.min i64_MAX u64_MAX].
  rewrite Z.min_l by (unfold i64_MAX, u64_MAX in *; lia). split; [done|lia].
Qed.

Lemma hit_stmt_eq k window now p :
  hits_within i64_MAX (rate_limit_buckets p) ->
  (rate_limit_hit_stmt k window now p =
     (Ok (snd (counted window now (rate_limit_buckets p !! k))),
      mkPg (<[k := counted window now (rate_limit_buckets p !! k)]> (rate_limit_buckets p))) /\
   0 <= snd (counted window now (rate_limit_buckets p !! k)) <= i64_MAX) \/
  rate_limit_hit_stmt k window now p = (Err OtherDbError, p).
Proof.
  intros Hp. unfold rate_limit_hit_stmt.
  assert (Hb : forall e h, rate_limit_buckets p !! k = Some (e, h) -> 0 <= h <= i64_MAX)
    by (intros e h E; exact (Hp k _ E)).
  pose proof (counted_within window now _ _ Hb).
  destruct (counted_pg window now _ Hb) as [[E Hle]|(e & E & Ee)].
  - left. rewrite E. destruct (counted _ _ _). cbn in *. split; [done|lia].
  - right. rewrite E, Ee. done.
Qed.

#[export] Instance postgres_laws : RateLimitLaws PostgresRateLimitStore.
Proof.
  refine {| valid p := hits_within i64_MAX (rate_limit_buckets p);
            bucket p k := rate_limit_buckets p !! k |}.
  - intros s k e h Hs E. specialize (Hs k _ E). cbn in Hs. unfold i64_MAX, u64_MAX in *. lia.
  - intros f k window now s Hs. cbn. unfold rate_limit_hit, faulty.
    destruct (hit_stmt_eq k window now s Hs) as [[-> Hc]| ->]; destruct f; cbn; try done;
      by apply map_Forall_insert_2.
  - intros f now s Hs. cbn. unfold prune_rate_limit_buckets, faulty.
    destruct f; cbn; try done; by apply filter_within.
  - intros f k window now s n s' Hs. cbn. unfold rate_limit_hit, faulty.
    destruct (hit_stmt_eq k window now s Hs) as [[-> Hc]| ->]; destruct f; cbn; try done.
    unfold try_u64. rewrite guard_range_in by (unfold i64_MAX, u64_MAX in *; lia).
    intros [= <- <-]. cbn. by rewrite lookup_insert_eq.
  - intros f k window now s e s' Hs. cbn. unfold rate_limit_hit, faulty.
    destruct (hit_stmt_eq k window now s Hs) as [[-> Hc]| ->]; destruct f; cbn; try done;
      intros [= _ <-]; cbn; rewrite ?lookup_insert_eq; auto; by left; left.
  - intros f k k' window now s Hs Hk. cbn. unfold rate_limit_hit, faulty.
    destruct (hit_stmt_eq k window now s Hs) as [[-> Hc]| ->]; destruct f; cbn; try (by left);
      rewrite lookup_insert_ne by done; by left.
  - intros f k now s Hs. cbn. unfold prune_rate_limit_buckets, faulty, prune_stmt.
    assert (Hk : kept now (rate_limit_buckets s !! k)
      (filter (fun kb => now <= fst (snd kb)) (rate_limit_buckets s) !! k)).
    { destruct (rate_limit_buckets s !! k) as [[e h]|] eqn:E.
      - destruct (decide (now <= e)).
        + left. by apply map_lookup_filter_Some.
        + right. cbn. split; [|case_match; [lia|done]].
          apply map_lookup_filter_None. right. intros x Hx Hle. rewrite E in Hx. simplify_eq. cbn in Hle. lia.
      - left. apply map_lookup_filter_None. by left. }
    destruct f; cbn; try done; by left.
  - done.
  - intros s _. apply map_Forall_empty.
  - done.
  - done.
  - intros s k. by left.
  - intros s k. by right.
Defined.

(** ** What the limiter guarantees *)

Lemma counted_live window now b :
  counted window now b = counted window now (live now b).
Proof. unfold counted. by rewrite live_live. Qed.

Section Guarantees.
Context {B : Type} `{RateLimitLaws B}.

(** What happens to the limiter: checks of any bucket, prunes, the death of the process (perhaps during
    the check of a bucket, whose hit then took effect and was not answered), after which a new process
    starts with an empty fallback, and a crash of the database. The limit and the window are those of the
    bucket's class. *)
Inductive request :=
| Check (f : reply) (k : BucketKey) (now mono : Z)
| Prune (f : reply) (now mono : Z)
| Dies (cut_off : option BucketKey) (now mono : Z)
| DatabaseCrashes (now mono : Z).

Variables (limit_of window_of : string -> Z).

(** The answers to the checks of [k], each with whether the backend gave it, and the
    limiter after the requests. *)
Fixpoint serve (k : BucketKey) (rs : list request) (rl : RateLimiter B) :
    list (bool * bool) * RateLimiter B :=
  match rs with
  | [] => ([], rl)
  | Check f k' now mono :: rest =>
      let '(ok, rl1) := check f k' (limit_of (snd k')) (window_of (snd k')) now mono rl in
      let by_backend := is_ok (fst (hit f k' (window_of (snd k')) now (backend rl))) in
      let '(oks, rl2) := serve k rest rl1 in
      (if bool_decide (k' = k) then (ok, by_backend) :: oks else oks, rl2)
  | Prune f now mono :: rest => serve k rest (snd (prune_all f now mono rl))
  | Dies cut_off now mono :: rest =>
      let b := match cut_off with
               | Some k' => snd (hit FailsAfter k' (window_of (snd k')) now (backend rl))
               | None => backend rl
               end in
      serve k rest (restarted (mkLimiter b (fallback rl)))
  | DatabaseCrashes _ _ :: rest => serve k rest (mkLimiter (database_crashed (backend rl)) (fallback rl))
  end.

(** The checks admitted by the backend ([true]) or by the fallback ([false]). *)
Definition admitted (by_backend : bool) (oks : list (bool * bool)) : Z :=
  Z.of_nat (length (List.filter (fun a => fst a && Bool.eqb (snd a) by_backend) oks)).

Definition db_time (r : request) : Z := match r with Check _ _ now _ | Prune _ now _ | Dies _ now _ | DatabaseCrashes now _ => now end.
Definition mono_time (r : request) : Z := match r with Check _ _ _ mono | Prune _ _ mono | Dies _ _ mono | DatabaseCrashes _ mono => mono end.

(** How often counters were lost. *)
Definition is_death (r : request) : bool := match r with Dies _ _ _ => true | _ => false end.
Definition is_crash (r : request) : bool := match r with DatabaseCrashes _ _ => true | _ => false end.
Definition deaths (rs : list request) : Z := Z.of_nat (length (List.filter is_death rs)).
Definition crashes (rs : list request) : Z := Z.of_nat (length (List.filter is_crash rs)).
Definition losses (rs : list request) : Z := if in_process B then deaths rs else crashes rs.

(** How many more hits can be admitted to a bucket before the time [stop]. *)
Definition budget (limit stop : Z) (b : option (Z * Z)) : Z :=
  match b with
  | None => limit
  | Some (e, h) => Z.max 0 (limit - h) + (if stop <=? e then 0 else limit)
  end.

Lemma budget_kept limit stop now b b' :
  0 <= limit -> now < stop -> kept now b b' -> budget limit stop b' <= budget limit stop b.
Proof.
  intros Hl Hn [->|[-> Hb]]; [done|]. destruct b as [[e h]|]; [|done]. cbn in *.
  destruct (Z.ltb_spec now e); [done|]. destruct (Z.leb_spec stop e); lia.
Qed.

(** A hit that is counted takes at least one from the budget if it is admitted. *)
Lemma budget_counted limit window start now b :
  0 <= limit < u64_MAX -> start <= now < start + window ->
  (forall e h, b = Some (e, h) -> 0 <= h <= u64_MAX) ->
  (if snd (counted window now b) <=? limit then 1 else 0)
    + budget limit (start + window) (Some (counted window now b)) <= budget limit (start + window) b.
Proof.
  intros Hl Hn Hb. unfold counted. destruct b as [[e h]|]; cbn.
  - specialize (Hb e h eq_refl). destruct (Z.ltb_spec now e); cbn;
      destruct (Z.leb_spec (start + window) e); try lia;
      repeat case_match; unfold u64_MAX in *; lia.
  - repeat case_match; unfold u64_MAX in *; lia.
Qed.

(** Counters that were lost give at most one limit back. *)
Lemma budget_lost limit stop b b' :
  0 <= limit -> (forall e h, b = Some (e, h) -> 0 <= h <= u64_MAX) -> b' = b \/ b' = None ->
  budget limit stop b' <= budget limit stop b + limit.
Proof.
  intros Hl Hb [->| ->]; [lia|]. destruct b as [[e h]|]; cbn; [|lia]. specialize (Hb e h eq_refl). case_match; lia.
Qed.

Lemma budget_le limit stop b :
  0 <= limit -> (forall e h, b = Some (e, h) -> 0 <= h <= u64_MAX) -> budget limit stop b <= 2 * limit.
Proof. intros Hl Hb. destruct b as [[e h]|]; cbn; [|lia]. specialize (Hb e h eq_refl). case_match; lia. Qed.
End Guarantees.

(** One hit on any bucket, seen from the bucket [k]. *)
Lemma hit_budget {B} `{RateLimitLaws B} limit f k k' (window_of : string -> Z) start now (s : B) :
  let stop := start + window_of (snd k) in
  valid s -> 0 <= limit < u64_MAX -> start <= now < stop ->
  (if bool_decide (k' = k) then
     match fst (hit f k' (window_of (snd k')) now s) with
     | Ok n => if n <=? limit then 1 else 0
     | Err _ => 0
     end else 0)
    + budget limit stop (bucket (snd (hit f k' (window_of (snd k')) now s)) k)
  <= budget limit stop (bucket s k).
Proof.
  intros stop Hs Hl Hn. unfold stop in *.
  assert (Hb : forall k e h, bucket s k = Some (e, h) -> 0 <= h <= u64_MAX) by (intros; by eapply valid_hits).
  case_bool_decide as Ek; [subst k'|].
  - pose proof (budget_counted limit (window_of (snd k)) start now _ Hl Hn (Hb k)) as Hc.
    destruct (hit f k _ now s) as [[n|e] s'] eqn:E; cbn [fst snd].
    + destruct (hit_ok _ _ _ _ _ _ _ Hs E) as [-> ->]. done.
    + destruct (hit_err _ _ _ _ _ _ _ Hs E) as [Hk| ->]; [|case_match; lia].
      apply (budget_kept limit (start + window_of (snd k)) now) in Hk; lia.
  - pose proof (hit_other f k' k (window_of (snd k')) now s Hs (not_eq_sym Ek)) as Hk.
    apply (budget_kept limit (start + window_of (snd k)) now) in Hk; lia.
Qed.

Lemma prune_budget {B} `{RateLimitLaws B} limit f k stop now (s : B) :
  valid s -> 0 <= limit -> now < stop ->
  budget limit stop (bucket (snd (prune f now s)) k) <= budget limit stop (bucket s k).
Proof. intros Hs Hl Hn. eapply budget_kept; [done|done|by apply prune_bucket]. Qed.

Section Theorems.
Context {B : Type} `{RateLimitLaws B}.
Variables (limit_of window_of : string -> Z) (k : BucketKey) (start mstart : Z).
Notation limit := (limit_of (snd k)).
Notation window := (window_of (snd k)).
Notation serve := (serve (B := B) limit_of window_of).
Notation losses := (losses (B := B)).

(** The requests happen within one window's length, on each clock. *)
Definition within (r : request) : Prop :=
  start <= db_time r < start + window /\ mstart <= mono_time r < mstart + window.

Definition limiter_valid (rl : RateLimiter B) : Prop := valid (backend rl) /\ valid (fallback rl).

Lemma admitted_cons b ok by_backend oks :
  admitted b ((ok, by_backend) :: oks) = (if ok && Bool.eqb by_backend b then 1 else 0) + admitted b oks.
Proof. unfold admitted. cbn. case_match; cbn; lia. Qed.

Ltac count_losses := unfold RateLimit.losses, deaths, crashes; destruct (in_process B); cbn [List.filter is_death is_crash length]; lia.
Lemma losses_check f k' now mono rs : losses (Check f k' now mono :: rs) = losses rs. Proof. count_losses. Qed.
Lemma losses_prune f now mono rs : losses (Prune f now mono :: rs) = losses rs. Proof. count_losses. Qed.
Lemma losses_dies c now mono rs : losses (Dies c now mono :: rs) = losses rs + if in_process B then 1 else 0. Proof. count_losses. Qed.
Lemma losses_crash now mono rs : losses (DatabaseCrashes now mono :: rs) = losses rs + if in_process B then 0 else 1. Proof. count_losses. Qed.
Lemma deaths_check f k' now mono rs : deaths (Check f k' now mono :: rs) = deaths rs. Proof. done. Qed.
Lemma deaths_prune f now mono rs : deaths (Prune f now mono :: rs) = deaths rs. Proof. done. Qed.
Lemma deaths_dies c now mono rs : deaths (Dies c now mono :: rs) = deaths rs + 1. Proof. unfold deaths. cbn [List.filter is_death length]. lia. Qed.
Lemma deaths_crash now mono rs : deaths (DatabaseCrashes now mono :: rs) = deaths rs. Proof. done. Qed.

Lemma serve_budget rs rl :
  0 <= limit < u64_MAX -> Forall within rs -> limiter_valid rl ->
  let '(oks, rl') := serve k rs rl in
  admitted true oks + budget limit (start + window) (bucket (backend rl') k)
    <= budget limit (start + window) (bucket (backend rl) k) + losses rs * limit /\
  admitted false oks + budget limit (mstart + window) (bucket (fallback rl') k)
    <= budget limit (mstart + window) (bucket (fallback rl) k) + deaths rs * limit.
Proof.
  intros Hl Hrs. revert rl. induction Hrs as [|r rs [Hdb Hmono] Hrs IH]; intros rl [Hvb Hvm]; [unfold RateLimit.losses, deaths, crashes, admitted; cbn [RateLimit.serve List.filter length]; destruct (in_process B); lia|].
  destruct r as [f k' now mono|f now mono|cut_off now mono|now mono]; cbn [serve].
  - unfold check. rewrite losses_check, deaths_check.
    pose proof (hit_budget limit f k k' window_of start now (backend rl) Hvb Hl Hdb) as Hb.
    pose proof (hit_budget limit Works k k' window_of mstart mono (fallback rl) Hvm Hl Hmono) as Hm.
    pose proof (hit_valid f k' (window_of (snd k')) now (backend rl) Hvb) as Hvb'.
    pose proof (hit_valid Works k' (window_of (snd k')) mono (fallback rl) Hvm) as Hvm'.
    cbn [hit memory_store] in Hm, Hvm'.
    destruct (hit f k' _ now (backend rl)) as [[n|e] b']; cbn [fst snd is_ok] in *.
    + specialize (IH (mkLimiter b' (fallback rl)) (conj Hvb' Hvm)).
      destruct (serve k rs _) as [oks rl']. cbn [backend fallback] in IH.
      destruct (decide (k' = k)) as [->|Hne];
        [rewrite !bool_decide_eq_true_2 in * by done|rewrite !bool_decide_eq_false_2 in * by done; lia].
      rewrite !admitted_cons. destruct (n <=? limit) eqn:En; cbn [andb Bool.eqb]; lia.
    + destruct (memory_count k' _ mono _) as [hits m']. cbn [fst snd] in *.
      specialize (IH (mkLimiter b' m') (conj Hvb' Hvm')).
      destruct (serve k rs _) as [oks rl']. cbn [backend fallback] in IH.
      destruct (decide (k' = k)) as [->|Hne];
        [rewrite !bool_decide_eq_true_2 in * by done|rewrite !bool_decide_eq_false_2 in * by done; lia].
      rewrite !admitted_cons. destruct (hits <=? limit) eqn:En; cbn [andb Bool.eqb]; lia.
  - unfold prune_all.
    pose proof (prune_budget limit f k (start + window) now (backend rl) Hvb ltac:(lia) ltac:(apply Hdb)) as Hb.
    pose proof (prune_budget limit Works k (mstart + window) mono (fallback rl) Hvm ltac:(lia) ltac:(apply Hmono)) as Hm.
    pose proof (prune_valid f now (backend rl) Hvb) as Hvb'.
    pose proof (prune_valid Works mono (fallback rl) Hvm) as Hvm'.
    cbn [prune memory_store] in Hm, Hvm'.
    destruct (prune f now (backend rl)) as [r b'], (prune_expired mono (fallback rl)) as [n m'].
    cbn [fst snd] in *. specialize (IH (mkLimiter b' m') (conj Hvb' Hvm')). rewrite losses_prune, deaths_prune.
    destruct (serve k rs _) as [oks rl']. cbn [backend fallback] in IH. lia.
  - set (b := match cut_off with Some k' => _ | None => _ end).
    assert (Hb : valid b /\ budget limit (start + window) (bucket b k) <= budget limit (start + window) (bucket (backend rl) k)).
    { unfold b. destruct cut_off as [k'|]; [|split; [done|lia]]. split; [by apply hit_valid|].
      pose proof (hit_budget limit FailsAfter k k' window_of start now (backend rl) Hvb Hl Hdb) as Hh.
      case_bool_decide; [|lia]. destruct (fst (hit _ _ _ _ _)) as [n|]; [|lia]. destruct (n <=? limit); lia. }
    destruct Hb as [Hvb' Hb]. unfold restarted. cbn [backend].
    specialize (IH (with_backend (process_died b)) (conj (died_valid b Hvb') (map_Forall_empty _))).
    destruct (serve k rs _) as [oks rl']. cbn [backend fallback with_backend] in IH. rewrite deaths_dies, losses_dies.
    assert (Hf : budget limit (mstart + window) (bucket (∅ : MemoryRateLimitStore) k) <= budget limit (mstart + window) (bucket (fallback rl) k) + limit).
    { apply budget_lost; [lia|intros e h Eb; exact (valid_hits _ _ _ _ Hvm Eb)|]. right. apply lookup_empty. }
    assert (Hd : budget limit (start + window) (bucket (process_died b) k) <= budget limit (start + window) (bucket b k) + (if in_process B then limit else 0)).
    { destruct (in_process B) eqn:Ei; [|rewrite died_keeps by done; lia]. apply budget_lost; [lia|intros e h Eb; exact (valid_hits _ _ _ _ Hvb' Eb)|apply died_bucket]. }
    destruct (in_process B); lia.
  - specialize (IH (mkLimiter (database_crashed (backend rl)) (fallback rl)) (conj (crashed_valid _ Hvb) Hvm)).
    destruct (serve k rs _) as [oks rl']. cbn [backend fallback] in IH. rewrite deaths_crash, losses_crash.
    assert (Hd : budget limit (start + window) (bucket (database_crashed (backend rl)) k)
      <= budget limit (start + window) (bucket (backend rl) k) + (if in_process B then 0 else limit)).
    { destruct (in_process B) eqn:Ei; [rewrite crashed_keeps by done; lia|]. apply budget_lost; [lia|intros e h Eb; exact (valid_hits _ _ _ _ Hvb Eb)|apply crashed_bucket]. }
    destruct (in_process B); lia.
Qed.

(** C35: The limiter holds the rate. Take any requests, on any buckets, with backend
    calls that fail before or after taking effect, deaths and restarts of the process
    (also during a check) and crashes of the database, in any order of times within
    one window's length. Of the checks of one bucket, the backend admits at most twice
    the limit (the end of one window and the start of the next), plus the limit once
    more for each time that its counters were lost: by a crash of the database, or for
    counters in memory by the death of the process. The fallback of the process, which
    is used when the backend fails, admits at most twice the limit as well, plus the
    limit once more for each death of the process. *)
Theorem rate_bounded (rs : list request) (rl : RateLimiter B) :
  0 <= limit <= u32_MAX -> Forall within rs -> limiter_valid rl ->
  admitted true (fst (serve k rs rl)) <= (2 + losses rs) * limit /\
  admitted false (fst (serve k rs rl)) <= (2 + deaths rs) * limit.
Proof.
  intros Hl Hrs Hv. assert (Hl' : 0 <= limit < u64_MAX) by (unfold u32_MAX, u64_MAX in *; lia).
  pose proof (serve_budget rs rl Hl' Hrs Hv) as Hb. destruct Hv as [Hvb Hvm].
  destruct (serve k rs rl) as [oks rl']. cbn [fst].
  assert (Hpos : forall s b, 0 <= budget limit s b) by (intros s [[e h]|]; cbn; [case_match|]; lia).
  pose proof (Hpos (start + window) (bucket (backend rl') k)).
  pose proof (Hpos (mstart + window) (bucket (fallback rl') k)).
  pose proof (budget_le limit (start + window) (bucket (backend rl) k) ltac:(lia)
    (fun e h => valid_hits _ k e h Hvb)).
  pose proof (budget_le limit (mstart + window) (bucket (fallback rl) k) ltac:(lia)
    (fun e h => valid_hits _ k e h Hvm)). lia.
Qed.

Lemma kept_live now e h (b : option (Z * Z)) : now < e -> kept now (Some (e, h)) b -> b = Some (e, h).
Proof. intros Hn [->|[_ Hl]]; [done|]. cbn in Hl. case_match; [done|lia]. Qed.

(** From a bucket that stays live, the answers count on. *)
Lemma serve_counts rs rl e h :
  0 <= limit < u64_MAX -> 0 <= h -> Forall (fun r => db_time r < e /\ is_death r = false /\ is_crash r = false) rs -> valid (backend rl) ->
  bucket (backend rl) k = Some (e, Z.min h u64_MAX) ->
  Forall (fun a => snd a = true) (fst (serve k rs rl)) ->
  exists m, fst (serve k rs rl) = map (fun i => (i <=? limit, true)) (seqZ (h + 1) (Z.of_nat m)).
Proof.
  intros Hl. revert rl h. induction rs as [|r rs IH]; intros rl h Hh Ht Hv Hb Hok; [by exists 0%nat|].
  apply Forall_cons in Ht as [(Ht & Hnd & Hnc) Hts]. destruct r as [f k' now mono|f now mono|c now mono|now mono]; cbn [serve db_time] in *; [| |done..].
  - unfold check in *. pose proof (hit_valid f k' (window_of (snd k')) now (backend rl) Hv) as Hv'.
    destruct (decide (k' = k)) as [->|Hne];
      [rewrite bool_decide_eq_true_2 in * by done|rewrite bool_decide_eq_false_2 in * by done].
    + destruct (hit f k _ now (backend rl)) as [[n|er] b'] eqn:E; cbn [fst snd is_ok] in *.
      * destruct (hit_ok _ _ _ _ _ _ _ Hv E) as [Hb' ->]. rewrite Hb in Hb' |- *.
        assert (Hc : counted window now (Some (e, Z.min h u64_MAX)) = (e, Z.min (h + 1) u64_MAX)).
        { unfold counted. cbn. rewrite (proj2 (Z.ltb_lt now e) Ht). cbn -[u64_MAX]. f_equal. lia. }
        rewrite Hc in Hb' |- *. cbn [snd].
        specialize (IH (mkLimiter b' (fallback rl)) (h + 1) ltac:(lia) Hts Hv' Hb').
        destruct (serve k rs _) as [oks rl'] eqn:Es. cbn [fst] in *.
        apply Forall_cons in Hok as [_ Hok]. destruct (IH Hok) as [m ->]. exists (S m).
        rewrite (seqZ_cons (h + 1)) by lia. cbn [map]. f_equal; [f_equal; lia|].
        f_equal. f_equal; lia.
      * destruct (memory_count _ _ _ _), (serve k rs _). apply Forall_cons in Hok as [Hbad _]. done.
    + pose proof (hit_other f k' k (window_of (snd k')) now (backend rl) Hv (not_eq_sym Hne)) as Hk.
      rewrite Hb in Hk. apply kept_live in Hk; [|done].
      destruct (hit f k' _ now (backend rl)) as [[n|er] b'] eqn:E; cbn [fst snd] in *.
      * specialize (IH (mkLimiter b' (fallback rl)) h Hh Hts Hv' Hk).
        destruct (serve k rs _) as [oks rl']. by apply IH.
      * destruct (memory_count _ _ _ _) as [hits m'].
        specialize (IH (mkLimiter b' m') h Hh Hts Hv' Hk).
        destruct (serve k rs _) as [oks rl']. by apply IH.
  - unfold prune_all in *. pose proof (prune_bucket f k now (backend rl) Hv) as Hk.
    pose proof (prune_valid f now (backend rl) Hv) as Hv'. rewrite Hb in Hk. apply kept_live in Hk; [|done].
    destruct (prune f now (backend rl)) as [r b']. cbn [snd] in *. by eapply IH.
Qed.

(** A window admits exactly the limit. When a check of a bucket with no live window
    starts one, the backend answers every check of the bucket during it and neither the
    process nor the database dies, then the
    checks of the bucket, however interleaved with other requests, are admitted up to
    the limit and refused afterwards. *)
Lemma window_exact (f : reply) (now mono : Z) (rs : list request) (rl : RateLimiter B) :
  0 <= limit <= u32_MAX -> 0 < window -> valid (backend rl) ->
  live now (bucket (backend rl) k) = None ->
  Forall (fun r => db_time r < now + window /\ is_death r = false /\ is_crash r = false) rs ->
  Forall (fun a => snd a = true) (fst (serve k (Check f k now mono :: rs) rl)) ->
  exists m, fst (serve k (Check f k now mono :: rs) rl) =
            map (fun i => (i <=? limit, true)) (seqZ 1 (Z.of_nat m)).
Proof.
  intros Hl Hw Hv Hlive Hts Hok. assert (Hl' : 0 <= limit < u64_MAX) by (unfold u32_MAX, u64_MAX in *; lia).
  cbn [serve] in *. unfold check in *. rewrite bool_decide_eq_true_2 in * by done.
  pose proof (hit_valid f k window now (backend rl) Hv) as Hv'.
  destruct (hit f k _ now (backend rl)) as [[n|er] b'] eqn:E; cbn [fst snd is_ok] in *.
  - destruct (hit_ok _ _ _ _ _ _ _ Hv E) as [Hb' ->].
    rewrite counted_live, Hlive in Hb' |- *.
    pose proof (serve_counts rs (mkLimiter b' (fallback rl)) (now + window) 1 Hl' ltac:(lia) Hts Hv' Hb') as Hc.
    destruct (serve k rs _) as [oks rl']. cbn [fst] in *.
    apply Forall_cons in Hok as [_ Hok]. destruct (Hc Hok) as [m ->]. exists (S m).
    rewrite (seqZ_cons 1) by lia. cbn [map]. f_equal. f_equal. f_equal; lia.
  - destruct (memory_count _ _ _ _), (serve k rs _). apply Forall_cons in Hok as [Hbad _]. done.
Qed.
End Theorems.

(** Checks against a limit of two: one while the database is down, one after the process was restarted
    and one after the database has crashed. *)
Definition ex_requests : list request :=
  [Check Works ("ip", "auth") 1000 5; Check Works ("other", "auth") 1001 6;
   Check Works ("ip", "auth") 1002 7; Check FailsAfter ("ip", "auth") 1003 8;
   Prune Works 1004 9; Check Works ("ip", "auth") 1005 10; Dies (Some ("ip", "auth")) 1006 11;
   Check Works ("ip", "auth") 1007 12; DatabaseCrashes 1008 13; Check Works ("ip", "auth") 1009 14].

Lemma rate_bounded_witness :
  let r := serve (B := PostgresRateLimitStore) (fun _ => 2) (fun _ => 60) ("ip", "auth") ex_requests
             (with_backend (mkPg ∅)) in
  fst r = [(true, true); (true, true); (true, false); (false, true); (false, true); (true, true)] /\
  admitted true (fst r) <= (2 + 1) * 2 /\ admitted false (fst r) <= (2 + 1) * 2.
Proof.
  split; [vm_compute; reflexivity|].
  destruct (rate_bounded (B := PostgresRateLimitStore) (fun _ => 2) (fun _ => 60) ("ip", "auth") 1000 5 ex_requests (with_backend (mkPg ∅))) as [H1 H2].
  - unfold u32_MAX. lia.
  - unfold ex_requests. repeat constructor; cbn; lia.
  - split; apply map_Forall_empty.
  - split; [exact H1|exact H2].
Defined.

(** Counters in memory are gone with the process: the same requests on them admit again after it died. *)
Example memory_resets :
  fst (serve (B := MemoryRateLimitStore) (fun _ => 2) (fun _ => 60) ("ip", "auth") ex_requests (with_backend ∅)) =
    [(true, true); (true, true); (false, true); (false, true); (true, true); (true, true)].
Proof. vm_compute. reflexivity. Qed.

End RateLimit.
