(* ===== verification/Csv.v ===== *)
(** * The CSV export of a wallet's transactions

    [crates/api/src/routes/transactions_csv.rs]: one record per transaction, its cells
    neutralised against spreadsheet formulas and quoted as RFC 4180 asks, streamed in
    keyset batches. A reference reader of RFC 4180 says what the text means. *)

From S2P Require Import Prelude Db Paging Store.

Module Csv.
Import Db Paging Store.
Local Open Scope db_scope.

Definition comma : ascii := ",".
Definition quote : ascii := "034".
Definition cr : ascii := "013".
Definition lf : ascii := "010".
Definition tab : ascii := "009".
Definition crlf : string := String cr (String lf "").

(** ** Cells *)

Definition formula_start (c : ascii) : bool :=
  bool_decide (c ∈ ["="%char; "+"%char; "-"%char; "@"%char; tab; cr]).

Definition neutralise (value : string) : string :=
  match value with
  | String c _ => if formula_start c then String "'" value else value
  | EmptyString => value
  end.

Definition plain_char (c : ascii) : bool := negb (bool_decide (c ∈ [comma; quote; lf; cr])).

(** [replace] of the quote by two. *)
Fixpoint double_quotes (s : string) : string :=
  match s with
  | EmptyString => EmptyString
  | String c r =>
      if bool_decide (c = quote) then String quote (String quote (double_quotes r))
      else String c (double_quotes r)
  end.

Definition text_cell (value : string) : string :=
  let neutralised := neutralise value in
  if negb (str_forall plain_char neutralised)
  then String quote (double_quotes neutralised +:+ String quote "")
  else neutralised.

Fixpoint join (sep : ascii) (l : list string) : string :=
  match l with
  | [] => ""
  | [a] => a
  | a :: r => a +:+ String sep (join sep r)
  end.

(** ** Records *)

(** [Uuid::to_string] and [DateTime::to_rfc3339]. *)
Section Export.
Variables (uuid_text rfc3339 : Z -> string).

Definition num (n : option Z) : string := match n with Some v => print_int v | None => "" end.
Definition text (o : option string) : string := default "" o.

Definition row_cells (tx : Transaction) : list string := [
  uuid_text (tx_id tx);
  rfc3339 (tx_created_at tx);
  text_cell (tx_direction tx);
  text_cell (tx_status tx);
  text_cell (tx_asset_code tx);
  text_cell (text (tx_asset_issuer tx));
  print_int (tx_amount_stroops tx);
  text_cell (text (tx_source_account tx));
  text_cell (text (tx_destination_account tx));
  text_cell (text (tx_stellar_tx_hash tx));
  num (tx_operation_index tx);
  num (tx_ledger tx);
  num (tx_memo_id tx);
  match tx_address_id tx with Some a => uuid_text a | None => "" end;
  text_cell (text (tx_reference tx))].

Definition write_row (out : string) (tx : Transaction) : string :=
  out +:+ join comma (row_cells tx) +:+ crlf.

Definition header_cells : list string :=
  ["id"; "created_at"; "direction"; "status"; "asset_code"; "asset_issuer"; "amount_stroops";
   "source_account"; "destination_account"; "stellar_tx_hash"; "operation_index"; "ledger";
   "memo_id"; "address_id"; "reference"].

Definition HEADER_ROW : string := join comma header_cells +:+ crlf.

(** ** The stream *)

Definition BATCH_SIZE : Z := 500.

Inductive Cursor := Start | After (before : option Uuid) | Done.

Context {X : Type}.
Notation M := (M State X).

(** One poll of the stream: the item, if any, and the next state. The error of an item
    is [io::Error::other("export aborted")]. *)
Definition csv_next (wallet_id : Uuid) (filter : TransactionFilter) (c : Cursor) :
    M (option (result string string * Cursor)) :=
  match c with
  | Start => ret (Some (Ok HEADER_ROW, After None))
  | Done => ret None
  | After before =>
      do page <- list_transactions_page wallet_id filter BATCH_SIZE before;
      ret match page with
          | Err _ => Some (Err "export aborted", Done)
          | Ok rows =>
              match last rows with
              | None => None
              | Some r =>
                  let next := if Z.of_nat (length rows) <? BATCH_SIZE then Done else After (Some (tx_id r)) in
                  Some (Ok (foldl write_row "" rows), next)
              end
          end
  end.

(** A client that reads the stream to its end. *)
Fixpoint read_all (fuel : nat) (wallet_id : Uuid) (filter : TransactionFilter) (c : Cursor) :
    M (option (list (result string string))) :=
  match fuel with
  | O => ret None
  | S f =>
      do item <- csv_next wallet_id filter c;
      match item with
      | None => ret (Some [])
      | Some (i, c') =>
          do rest <- read_all f wallet_id filter c';
          ret (option_map (cons i) rest)
      end
  end.
End Export.

(** ** A reader of RFC 4180 *)

Inductive mode := FieldStart | Bare | Quoted | QuoteSeen.

(** Records end in CRLF; [cell] and [row] are what was read of the current record. *)
Fixpoint read_csv (m : mode) (cell : string) (row : list string) (s : string) :
    option (list (list string)) :=
  match s with
  | EmptyString => match m, row with FieldStart, [] => Some [] | _, _ => None end
  | String c r =>
      match m with
      | Quoted =>
          if bool_decide (c = quote) then read_csv QuoteSeen cell row r
          else read_csv Quoted (cell +:+ String c "") row r
      | _ =>
          if bool_decide (c = comma) then read_csv FieldStart "" (row ++ [cell]) r
          else if bool_decide (c = cr) then
            match r with
            | String d r' =>
                if bool_decide (d = lf)
                then option_map (cons (row ++ [cell])) (read_csv FieldStart "" [] r')
                else None
            | EmptyString => None
            end
          else if bool_decide (c = lf) then None
          else if bool_decide (c = quote) then
            match m with
            | FieldStart => read_csv Quoted "" row r
            | QuoteSeen => read_csv Quoted (cell +:+ String quote "") row r
            | _ => None
            end
          else match m with
               | QuoteSeen => None
               | _ => read_csv Bare (cell +:+ String c "") row r
               end
      end
  end.

Definition parse_csv (s : string) : option (list (list string)) := read_csv FieldStart "" [] s.

(** ** What is read is what was written *)

(** What the reader makes of the text after a cell: the next cell of the record, or
    the next record. *)
Inductive follows (cell : string) (row : list string) : string -> option (list (list string)) -> Prop :=
| follows_comma r : follows cell row (String comma r) (read_csv FieldStart "" (row ++ [cell]) r)
| follows_end r :
    follows cell row (crlf +:+ r) (option_map (cons (row ++ [cell])) (read_csv FieldStart "" [] r)).

(** [c] is a text of the cell [v]. *)
Definition reads (c v : string) : Prop :=
  forall row t res, follows v row t res -> read_csv FieldStart "" row (c +:+ t) = res.

Lemma read_end m cell row t res : m <> Quoted -> follows cell row t res -> read_csv m cell row t = res.
Proof. intros Hm [r|r]; destruct m; done. Qed.

Lemma plain_char_ne c :
  plain_char c = true -> c <> comma /\ c <> cr /\ c <> lf /\ c <> quote.
Proof. unfold plain_char. rewrite negb_true_iff, bool_decide_eq_false. set_solver. Qed.

Lemma app_cons cell c s : cell +:+ String c s = (cell +:+ String c "") +:+ s.
Proof. by rewrite <-str_app_assoc. Qed.

Lemma read_bare v m cell row t res :
  (m = FieldStart \/ m = Bare) -> str_forall plain_char v = true -> follows (cell +:+ v) row t res ->
  read_csv m cell row (v +:+ t) = res.
Proof.
  revert m cell. induction v as [|c v IH]; intros m cell Hm Hv Hf.
  - rewrite str_app_empty_r in Hf. apply read_end; [by destruct Hm as [-> | ->]|done].
  - cbn in Hv. apply andb_true_iff in Hv as [(H1 & H2 & H3 & H4)%plain_char_ne Hv].
    rewrite app_cons in Hf. change (String c v +:+ t) with (String c (v +:+ t)).
    destruct Hm as [-> | ->]; cbn [read_csv]; rewrite !bool_decide_eq_false_2 by done; apply IH; auto.
Qed.

Lemma read_quoted v cell row t res :
  follows (cell +:+ v) row t res ->
  read_csv Quoted cell row (double_quotes v +:+ String quote t) = res.
Proof.
  revert cell. induction v as [|c v IH]; intros cell Hf.
  - rewrite str_app_empty_r in Hf. change ("" +:+ String quote t) with (String quote t).
    apply (read_end QuoteSeen); done.
  - rewrite app_cons in Hf. cbn [double_quotes]. case_bool_decide as Ec.
    + subst c. change (read_csv QuoteSeen cell row (String quote (double_quotes v +:+ String quote t)) = res).
      cbn [read_csv]. rewrite (bool_decide_eq_true_2 (quote = quote)) by done.
      rewrite !bool_decide_eq_false_2 by done. by apply IH.
    + change (String c (double_quotes v) +:+ String quote t) with (String c (double_quotes v +:+ String quote t)).
      cbn [read_csv]. rewrite bool_decide_eq_false_2 by done. by apply IH.
Qed.

Lemma reads_plain v : str_forall plain_char v = true -> reads v v.
Proof. intros Hv row t res Hf. apply read_bare; auto. Qed.

Lemma reads_text_cell v : reads (text_cell v) (neutralise v).
Proof.
  intros row t res Hf. unfold text_cell.
  destruct (str_forall plain_char (neutralise v)) eqn:E; [by apply reads_plain|]. cbn [negb].
  change (read_csv Quoted "" row ((double_quotes (neutralise v) +:+ String quote "") +:+ t) = res).
  rewrite <-str_app_assoc. by apply read_quoted.
Qed.

Lemma reads_join cs vs row rest :
  Forall2 reads cs vs -> cs <> [] ->
  read_csv FieldStart "" row (join comma cs +:+ crlf +:+ rest) =
    option_map (cons (row ++ vs)) (read_csv FieldStart "" [] rest).
Proof.
  intros Hr. revert row. induction Hr as [|c v cs vs Hc Hr IH]; intros row Hne; [done|].
  destruct Hr as [|c' v' cs vs Hc' Hr].
  - cbn [join]. apply Hc. apply follows_end.
  - change (join comma (c :: c' :: cs)) with (c +:+ String comma (join comma (c' :: cs))).
    rewrite <-str_app_assoc. erewrite Hc; [|apply follows_comma].
    change (String comma (join comma (c' :: cs)) +:+ crlf +:+ rest) with
      (String comma (join comma (c' :: cs) +:+ crlf +:+ rest)).
    rewrite IH by done. by rewrite <-app_assoc.
Qed.

Lemma digit_plain_char c : is_ascii_digit c = true -> plain_char c = true.
Proof.
  unfold is_ascii_digit. intros H%in_range_spec. unfold plain_char.
  rewrite negb_true_iff, bool_decide_eq_false. intros Hc. repeat (apply elem_of_cons in Hc as [->|Hc]);
    [cbv in H; intuition congruence..|by apply elem_of_nil in Hc].
Qed.

Lemma print_int_plain z : str_forall plain_char (print_int z) = true.
Proof.
  assert (Hd : forall n, str_forall plain_char (print_dec n) = true).
  { intros n. eapply str_forall_impl; [exact digit_plain_char|]. apply all_digits_print_dec. }
  unfold print_int. case_match; [|apply Hd]. cbn [str_forall]. by rewrite Hd.
Qed.

Lemma foldl_write_row uuid_text rfc3339 out txs :
  foldl (write_row uuid_text rfc3339) out txs = out +:+ foldl (write_row uuid_text rfc3339) "" txs.
Proof.
  revert out. induction txs as [|tx txs IH]; intros out; cbn [foldl]; [by rewrite str_app_empty_r|].
  rewrite (IH (write_row _ _ out tx)), (IH (write_row _ _ "" tx)). unfold write_row.
  by rewrite <-!str_app_assoc.
Qed.

Section Roundtrip.
Variables (uuid_text rfc3339 : Z -> string).
Hypothesis uuid_plain : forall z, str_forall plain_char (uuid_text z) = true.
Hypothesis rfc3339_plain : forall z, str_forall plain_char (rfc3339 z) = true.

(** The cells of a record as a spreadsheet shows them. *)
Definition row_values (tx : Transaction) : list string := [
  uuid_text (tx_id tx);
  rfc3339 (tx_created_at tx);
  neutralise (tx_direction tx);
  neutralise (tx_status tx);
  neutralise (tx_asset_code tx);
  neutralise (text (tx_asset_issuer tx));
  print_int (tx_amount_stroops tx);
  neutralise (text (tx_source_account tx));
  neutralise (text (tx_destination_account tx));
  neutralise (text (tx_stellar_tx_hash tx));
  num (tx_operation_index tx);
  num (tx_ledger tx);
  num (tx_memo_id tx);
  match tx_address_id tx with Some a => uuid_text a | None => "" end;
  neutralise (text (tx_reference tx))].

Lemma row_reads tx : Forall2 reads (row_cells uuid_text rfc3339 tx) (row_values tx).
Proof using uuid_plain rfc3339_plain.
  assert (Hnum : forall o, reads (num o) (num o)).
  { intros [z|]; apply reads_plain; [apply print_int_plain|done]. }
  assert (Hint : forall z, reads (print_int z) (print_int z)) by (intros z; apply reads_plain, print_int_plain).
  unfold row_cells, row_values.
  repeat (constructor; [first [apply reads_text_cell|apply Hnum|apply Hint|
    apply reads_plain, uuid_plain|apply reads_plain, rfc3339_plain|destruct (tx_address_id tx);
    apply reads_plain; [apply uuid_plain|done]]|]). constructor.
Qed.

Lemma read_rows txs :
  read_csv FieldStart "" [] (foldl (write_row uuid_text rfc3339) "" txs) = Some (map row_values txs).
Proof using uuid_plain rfc3339_plain.
  induction txs as [|tx txs IH]; [done|]. cbn [foldl]. rewrite foldl_write_row. unfold write_row at 1.
  change ("" +:+ ?x) with x. rewrite <-!str_app_assoc, (reads_join _ (row_values tx)), IH by (done || apply row_reads).
  done.
Qed.

Lemma read_header rest :
  read_csv FieldStart "" [] (HEADER_ROW +:+ rest) = option_map (cons header_cells) (read_csv FieldStart "" [] rest).
Proof.
  unfold HEADER_ROW. rewrite <-str_app_assoc. apply (reads_join header_cells header_cells []); [|done].
  unfold header_cells. repeat (constructor; [by apply reads_plain|]). constructor.
Qed.

(** A cell that a spreadsheet does not evaluate. *)
Definition inert (v : string) : Prop :=
  match v with String c _ => formula_start c = false | EmptyString => True end.

Lemma neutralise_inert v : inert (neutralise v).
Proof. destruct v as [|c v]; [done|]. cbn. destruct (formula_start c) eqn:E; cbn; [done|by rewrite E]. Qed.

(** The free-text columns and their fields. *)
Definition text_columns (tx : Transaction) : list (nat * string) :=
  [(2%nat, tx_direction tx); (3%nat, tx_status tx); (4%nat, tx_asset_code tx);
   (5%nat, text (tx_asset_issuer tx)); (7%nat, text (tx_source_account tx));
   (8%nat, text (tx_destination_account tx)); (9%nat, text (tx_stellar_tx_hash tx));
   (14%nat, text (tx_reference tx))].

(** The export reads back. An RFC 4180 reader makes of the exported text the header
    and, for each transaction in order, one record of its fields: identifiers, times
    and numbers as printed, and each free-text field as it is or, when it starts like a
    formula, with an apostrophe before it; no free-text cell can be taken for a
    formula, whatever the field holds. *)
Lemma csv_reads_back (txs : list Transaction) :
  parse_csv (HEADER_ROW +:+ foldl (write_row uuid_text rfc3339) "" txs)
    = Some (header_cells :: map row_values txs) /\
  forall tx, Forall (fun '(i, field) => exists v, row_values tx !! i = Some v /\ inert v /\
                       (v = field \/ v = String "'" field)) (text_columns tx).
Proof using uuid_plain rfc3339_plain.
  split; [unfold parse_csv; by rewrite read_header, read_rows|].
  assert (Hn : forall w, neutralise w = w \/ neutralise w = String "'" w).
  { intros [|c w]; cbn; [by left|]. case_match; auto. }
  intros tx. unfold text_columns.
  repeat (constructor; [eexists; split; [reflexivity|split; [apply neutralise_inert|apply Hn]]|]). constructor.
Qed.
End Roundtrip.

(** ** The stream is complete *)

Section Stream.
Variables (uuid_text rfc3339 : Z -> string).
Context {X : Type} (wallet_id : Uuid) (f : TransactionFilter).
Notation World := (World State X).
Notation wallet_rows := (fun t => bool_decide (tx_wallet_id t = wallet_id)).
Notation read_all := (read_all (X := X) uuid_text rfc3339).

(** What the wallet's history is, under the filter: newest first. *)
Definition history (s : State) : list Transaction := full (filter_row wallet_id f) (transactions s).

(** The text of a stream that did not break off. *)
Fixpoint body (items : list (result string string)) : option string :=
  match items with
  | [] => Some ""
  | Ok a :: r => option_map (String.append a) (body r)
  | Err _ :: _ => None
  end.

Definition broken_off (items : list (result string string)) : Prop := exists e, last items = Some (Err e).

(** Nobody else writes. *)
Definition alone (w : World) : Prop := Forall (fun t => forall s, t_others t s = s) (ticks w).
Definition quiet (w : World) : Prop := Forall (fun t => t_fault t = NoFault) (ticks w).

Lemma page_call before (w : World) :
  alone w ->
  let rows := page wallet_rows (filter_row wallet_id f) BATCH_SIZE before (transactions (db w)) in
  exists w', db w' = db w /\ alone w' /\ (quiet w -> quiet w') /\
    (list_transactions_page wallet_id f BATCH_SIZE before w = (Ret (Ok rows), w') \/
     ~ quiet w /\
     (list_transactions_page wallet_id f BATCH_SIZE before w = (Ret (Err Database), w') \/
      list_transactions_page wallet_id f BATCH_SIZE before w = (Crashed, w'))).
Proof.
  intros Ha rows. unfold list_transactions_page, query, bind, db_call, alone, quiet, rows in *.
  destruct w as [s [|t ts] x]; cbn in *.
  - eexists. split_and!; [| | |by left]; done.
  - apply Forall_cons in Ha as [Ht Hts]. rewrite !Ht.
    exists (mkWorld s ts x). split_and!; [done|done|by intros [_ ?]%Forall_cons|].
    destruct (t_fault t) eqn:E; cbn; [by left|right..]; (split; [intros [? _]%Forall_cons; congruence|auto]).
Qed.

(** How reading can end: with the text [t]; or, if some statement failed, broken off
    or with the process dead. *)
Definition ends (t : string) (w : World) (r : outcome (option (list (result string string))) * World) : Prop :=
  (exists w' items, r = (Ret (Some items), w') /\ body items = Some t) \/
  (~ quiet w /\ ((exists w' items, r = (Ret (Some items), w') /\ broken_off items) \/
                 (exists w', r = (Crashed, w')))).

Lemma ends_cons a t (w w' : World) (m : M State X (option (list (result string string)))) :
  (quiet w -> quiet w') -> ends t w' (m w') ->
  ends (a +:+ t) w (bind m (fun rest => ret (option_map (cons (Ok a)) rest)) w').
Proof.
  intros Hq [(w2 & items & E & Hb)|(Hnq & [(w2 & items & E & e & He)|(w2 & E)])]; unfold bind; rewrite E.
  - left. do 2 eexists. split; [reflexivity|]. cbn. by rewrite Hb.
  - right. split; [tauto|]. left. do 2 eexists. split; [reflexivity|]. exists e.
    by rewrite last_cons, He.
  - right. split; [tauto|]. right. by eexists.
Qed.

Lemma next_page pre rest s :
  NoDup (map tx_id (transactions s)) -> history s = pre ++ rest ->
  page wallet_rows (filter_row wallet_id f) BATCH_SIZE (option_map tx_id (last pre)) (transactions s)
    = take (Z.to_nat BATCH_SIZE) rest.
Proof.
  intros Hnd Hh. assert (Hscope : forall t, filter_row wallet_id f t = true -> bool_decide (tx_wallet_id t = wallet_id) = true).
  { intros t. unfold filter_row. rewrite !andb_true_iff. naive_solver. }
  destruct (last pre) as [r|] eqn:El.
  - apply last_Some in El as [pre' ->]. rewrite <-app_assoc in Hh.
    exact (page_segment wallet_rows (filter_row wallet_id f) (transactions s) Hnd Hscope BATCH_SIZE pre' r rest Hh).
  - apply last_None in El as ->. cbn [option_map]. rewrite page_first. unfold history in Hh. by rewrite Hh.
Qed.

Lemma read_after fuel pre rest (w : World) :
  NoDup (map tx_id (transactions (db w))) -> history (db w) = pre ++ rest -> alone w ->
  (length rest + 2 <= fuel)%nat ->
  ends (foldl (write_row uuid_text rfc3339) "" rest) w
    (read_all fuel wallet_id f (After (option_map tx_id (last pre))) w).
Proof.
  revert pre rest w. induction fuel as [|fuel IH]; intros pre rest w Hnd Hh Ha Hfuel; [lia|].
  cbn [Csv.read_all csv_next].
  destruct (page_call (option_map tx_id (last pre)) w Ha) as (w' & Hdb & Ha' & Hq & Hpage).
  rewrite (next_page pre rest (db w) Hnd Hh) in Hpage. unfold bind at 1, bind at 1.
  destruct Hpage as [->|(Hnq & [-> | ->])]; cbn [ret].
  2:{ right. split; [done|]. left. destruct fuel; [lia|]. cbn. do 2 eexists. split; [reflexivity|]. by eexists. }
  2:{ right. split; [done|]. right. by eexists. }
  destruct (last (take (Z.to_nat BATCH_SIZE) rest)) as [r|] eqn:El.
  - set (rows := take _ rest) in *. set (more := drop (Z.to_nat BATCH_SIZE) rest).
    assert (Hsplit : rest = rows ++ more) by (unfold rows, more; by rewrite take_drop).
    replace (foldl _ "" rest) with (foldl (write_row uuid_text rfc3339) "" rows +:+
                                    foldl (write_row uuid_text rfc3339) "" more)
      by (by rewrite Hsplit, foldl_app, <-foldl_write_row).
    apply ends_cons; [done|].
    destruct (Z.ltb_spec (Z.of_nat (length rows)) BATCH_SIZE) as [Hlt|Hge].
    + assert (more = []) as ->.
      { unfold more, rows in *. apply nil_length_inv. rewrite length_drop, length_take in *. lia. }
      destruct fuel; [lia|]. left. by do 2 eexists.
    + assert (Hlast : Some (tx_id r) = option_map tx_id (last (pre ++ rows))).
      { by rewrite last_app, El. }
      rewrite Hlast. apply IH; [by rewrite Hdb| |done|].
      * rewrite Hdb, Hh, <-app_assoc. f_equal. unfold rows, more. by rewrite take_drop.
      * unfold more, rows in *. rewrite length_drop, length_take in *. unfold BATCH_SIZE in *. lia.
  - apply last_None in El. left. do 2 eexists. split; [reflexivity|].
    destruct rest; [done|]. discriminate El.
Qed.

(** The export is the whole history or visibly broken. With nobody else writing
    and the identifiers unique, reading the stream to its end gives the header and one
    record for each transaction of the wallet that passes the filter, exactly once and
    newest first, however many batches that takes; the only other ends are a stream
    whose last item is an error and a process that died, and neither happens when no
    statement fails. *)
Lemma export_complete (w : World) (fuel : nat) :
  NoDup (map tx_id (transactions (db w))) -> alone w ->
  (length (transactions (db w)) + 3 <= fuel)%nat ->
  ends (HEADER_ROW +:+ foldl (write_row uuid_text rfc3339) "" (history (db w))) w
    (read_all fuel wallet_id f Start w) /\
  Permutation (history (db w)) (List.filter (filter_row wallet_id f) (transactions (db w))).
Proof.
  intros Hnd Ha Hfuel. destruct fuel as [|fuel]; [lia|]. split; [|apply sort_by_perm].
  cbn [Csv.read_all csv_next]. unfold bind at 1, ret at 1. apply (ends_cons HEADER_ROW _ w w); [done|].
  apply (read_after fuel []); [done|done|done|].
  unfold history, full. rewrite (Permutation_length (sort_by_perm desc_leb _)).
  pose proof (List.filter_length_le (filter_row wallet_id f) (transactions (db w))). lia.
Qed.
End Stream.

(** *** A concrete export *)

Definition ex_tx (id : Z) (reference : option string) : Transaction :=
  mkTransaction id 1 None "deposit" "USDC" None (10 * id) None None (Some "hash") (Some 0) (Some "1") (Some 5)
    None "confirmed" reference [] id.
Definition ex_state : State :=
  mkState 9 [] [] [ex_tx 3 (Some "=1,2"); ex_tx 4 None] [] [] [] [].
Definition any_transaction : TransactionFilter := mkTransactionFilter None None None None None None.
Definition ex_world : World State unit := mkWorld ex_state [] tt.

End Csv.
