(* ===== verification/ApiHorizon.v ===== *)
(** * The API's Horizon client

    [crates/api/src/horizon.rs]: account reads, fee statistics with their cache, the
    submission of a signed transaction and its lookup by hash, each run under
    [Resilience.execute]; and [ApiError] of [crates/api/src/error.rs].

    Horizon, the HTTP client, the JSON decoder and the RFC 3339 parser are outside: a
    request is answered by an oracle, indexed by the request's number, its URL and the
    attempt. *)

From S2P Require Import Prelude Float64 Amount Resilience Db HorizonIngest.

Module ApiHorizon.
Import Resilience.
Import HorizonIngest (Timing, mkTiming, tm_during_call, tm_fail, tm_check, tm_probe, tm_during_sleep, is_success, is_server_error, trim_end_matches).

(** ** [ApiError] *)

Inductive ApiError :=
| BadRequest (m : string)
| Unauthorized
| Forbidden (m : string)
| NotFound
| Conflict
| ConflictWith (m : string)
| Gone (m : string)
| TooManyRequests (m : string)
| StaleSequence (m : string)
| Internal
| GatewayTimeout (m : string)
| ServiceUnavailable (m : string).

Definition from_store_error (e : Db.StoreError) : ApiError :=
  match e with
  | Db.Conflict => Conflict
  | Db.NotFound => NotFound
  | Db.WalletArchived => Forbidden "wallet is archived"
  | Db.InvalidMemoId => BadRequest "memo id must be nonnegative"
  | Db.BudgetExceeded => TooManyRequests "daily sponsorship budget exceeded"
  | Db.DuplicateCustomerRef => ConflictWith "customer_ref already in use for this wallet"
  | _ => Internal
  end.

(** ** Accounts *)

Record Balance := mkBalance {
  b_balance : string;
  b_asset_type : string;
  b_asset_code : option string;
  b_asset_issuer : option string
}.

Record AccountResponse := mkAccountResponse {
  ar_balances : list Balance;
  ar_sequence : string;
  ar_subentry_count : Z;
  ar_num_sponsoring : Z;
  ar_num_sponsored : Z
}.

Record AccountInfo := mkAccountInfo {
  ai_balances : list Balance;
  ai_sequence : Z;
  ai_subentry_count : Z;
  ai_num_sponsoring : Z;
  ai_num_sponsored : Z
}.

Definition BASE_RESERVE_STROOPS : Z := 5000000.

Definition min_reserve_stroops (a : AccountInfo) : Z :=
  let entries :=
    wrap_i64 (wrap_i64 (wrap_i64 (2 + ai_subentry_count a) + ai_num_sponsoring a) - ai_num_sponsored a) in
  wrap_i64 (BASE_RESERVE_STROOPS * Z.max entries 0).

(** [while frac.len() < 7 { push('0') }; truncate(7)]; the text is ASCII. *)
Fixpoint fit (width : nat) (s : string) : string :=
  match width with
  | O => ""
  | S w => match s with
           | EmptyString => String "0" (fit w "")
           | String c r => String c (fit w r)
           end
  end.

Definition parse_amount_stroops (s : string) : option Z :=
  let '(whole, frac) := match split_once "." s with Some (w, f) => (w, f) | None => (s, "") end in
  let* whole := parse_i64 whole in
  let* frac := parse_i64 (fit 7 frac) in
  Some (wrap_i64 (wrap_i64 (whole * 10000000) + frac)).

Definition native_balance_stroops (a : AccountInfo) : Z :=
  default 0 (let* b := List.find (fun b => bool_decide (b_asset_type b = "native")) (ai_balances a) in
             parse_amount_stroops (b_balance b)).

Definition is_line (code issuer : string) (b : Balance) : bool :=
  bool_decide (b_asset_code b = Some code) && bool_decide (b_asset_issuer b = Some issuer).

Definition asset_balance_stroops (a : AccountInfo) (code issuer : string) : option Z :=
  let* b := List.find (is_line code issuer) (ai_balances a) in
  parse_amount_stroops (b_balance b).

Definition has_trustline (balances : list Balance) (code issuer : string) : bool :=
  existsb (is_line code issuer) balances.

(** ** Fee statistics *)

Record FeeStats := mkFeeStats {
  last_ledger_base_fee : Z;
  fee_charged_p50 : Z;
  fee_charged_p90 : Z
}.

(** The decoded body; [fsr_percentile] is the [fee_charged] object as
    [recommended_fee_stroops] reads it: a number or the text of one. *)
Record FeeStatsResponse := mkFeeStatsResponse {
  fsr_last_ledger_base_fee : string;
  fsr_p50 : string;
  fsr_p90 : string;
  fsr_percentile : string -> option (string + Z)
}.

Definition fee_stats_parse (r : FeeStatsResponse) : option FeeStats :=
  let* base := parse_i64 (fsr_last_ledger_base_fee r) in
  let* p50 := parse_i64 (fsr_p50 r) in
  let* p90 := parse_i64 (fsr_p90 r) in
  Some (mkFeeStats base p50 p90).

(** [TtlCache]: the time of the value and the value. *)
Definition TtlCache (T : Type) : Type := option (Z * T).

Definition cache_get {T} (ttl now : Z) (c : TtlCache T) : option T :=
  match c with
  | Some (at_, v) => if Z.max 0 (now - at_) <? ttl then Some v else None
  | None => None
  end.

Definition cache_put {T} (now : Z) (v : T) (c : TtlCache T) : TtlCache T := Some (now, v).

Definition FEE_STATS_TTL : Z := 10 * 1000000000.

(** ** Submission and lookup *)

Record SubmitResult := mkSubmitResult {
  s_hash : string;
  s_successful : bool;
  s_ledger : option Z;
  s_transaction_code : option string;
  s_operation_codes : list string
}.

(** [result_codes]: the transaction's code and the operations'. *)
Record SubmitResponse := mkSubmitResponse {
  sr_hash : string;
  sr_successful : bool;
  sr_ledger : option Z;
  sr_result_codes : option (option string * list string)
}.

Inductive TxLookup :=
| Found (successful : bool) (ledger : option Z)
| TxNotFound.

Record TxRecord := mkTxRecord { txr_successful : bool; txr_ledger : option Z }.

Inductive FetchError := Transport | FetchNotFound | Permanent | TxRejected.

#[export] Instance Retriable_FetchError : Retriable FetchError :=
  fun e => match e with Transport => true | _ => false end.

(** No response, or a status and what the body decodes to. *)
Inductive http_response (T : Type) : Type :=
| NoResponse
| Response (status : Z) (body : option T).
Arguments NoResponse {T}.
Arguments Response {T} status body.

(** The body of the read closures; [checks_404] says whether it tests for a 404. *)
Definition classify_read {T} (checks_404 : bool) (r : http_response T) : result T FetchError :=
  match r with
  | NoResponse => Err Transport
  | Response status body =>
      if (status =? 404) && checks_404 then Err FetchNotFound
      else if is_server_error status then Err Transport
      else if negb (is_success status) then Err Permanent
      else ok_or body Permanent
  end.

(** The body of the closure of [submit_transaction]. *)
Definition classify_submit (r : http_response SubmitResponse) : result SubmitResult FetchError :=
  match r with
  | NoResponse => Err Transport
  | Response status None => if is_success status then Err Transport else Err TxRejected
  | Response _ (Some body) =>
      let '(transaction_code, operation_codes) := default (None, []) (sr_result_codes body) in
      Ok (mkSubmitResult (sr_hash body) (sr_successful body) (sr_ledger body)
            transaction_code operation_codes)
  end.

Definition map_result {T} (r : result T (ResilienceError FetchError)) : result T ApiError :=
  match r with
  | Ok v => Ok v
  | Err Circuit => Err Internal
  | Err (Exhausted FetchNotFound) => Err NotFound
  | Err (Exhausted _) => Err Internal
  end.

(** ** The client *)

Record Outside := mkOutside {
  powi : Float64.f64 -> Z -> Float64.f64;
  http_account : nat -> string -> nat -> http_response AccountResponse;
  http_fee_stats : nat -> string -> nat -> http_response FeeStatsResponse;
  http_submit : nat -> string -> string -> nat -> http_response SubmitResponse;
  http_tx : nat -> string -> nat -> http_response TxRecord;
  http_ledgers : nat -> string -> nat -> http_response (list string);
  rfc3339_timestamp : string -> option Z;
  timing : nat -> nat -> Timing;
  first_check : nat -> Z * Z
}.

Record Horizon := mkHorizon {
  h_base_url : string;
  h_circuit : CircuitBreaker;
  h_retry : RetryPolicy;
  h_fee_stats_cache : TtlCache FeeStats;
  h_requests : nat
}.

Definition with_resilience (base_url : string) (retry : RetryPolicy) (circuit : CircuitBreaker) : Horizon :=
  mkHorizon base_url circuit retry None 0.

Definition Horizon_new (base_url : string) : Horizon :=
  with_resilience base_url RetryPolicy_default (CircuitBreaker_new 5 (30 * 1000000000)).

Section Client.
Variable out : Outside.

(** One call under [execute]: what it returns ([None] is a panic), how often the
    request was sent, and the client after it. *)
Definition run_call {T} (kind : CallKind) (answer : nat -> nat -> result T FetchError) (h : Horizon) :
    option (result T (ResilienceError FetchError)) * nat * Horizon :=
  let n := h_requests h in
  let env k :=
    let t := timing out n k in
    mkRound (tm_during_call t) (answer n k) (tm_fail t) (tm_check t) (tm_probe t)
            (tm_during_sleep t) in
  let x := execute (powi out) (h_retry h) env kind (h_circuit h)
                   (fst (first_check out n)) (snd (first_check out n)) in
  (returned x, calls x,
   mkHorizon (h_base_url h) (breaker x) (h_retry h) (h_fee_stats_cache h) (S n)).

Definition base (h : Horizon) : string := trim_end_matches "/"%char (h_base_url h).

Definition read_call {T U} (checks_404 : bool) (http : nat -> string -> nat -> http_response T) (url : string)
    (decode : T -> result U FetchError) (h : Horizon) :
    option (result U (ResilienceError FetchError)) * Horizon :=
  let '(r, _, h') := run_call ReadOnly
    (fun n k => result_bind (classify_read checks_404 (http n url k)) decode) h in
  (r, h').

(** [t1] and [t2] are the clock readings around the cache. *)
Definition fee_stats (t1 t2 : Z) (h : Horizon) : option (result FeeStats ApiError) * Horizon :=
  match cache_get FEE_STATS_TTL t1 (h_fee_stats_cache h) with
  | Some stats => (Some (Ok stats), h)
  | None =>
      let '(r, h') := read_call false (http_fee_stats out) (base h +:+ "/fee_stats")
                        (fun body => ok_or (fee_stats_parse body) Permanent) h in
      match option_map map_result r with
      | Some (Ok stats) =>
          (Some (Ok stats), mkHorizon (h_base_url h') (h_circuit h') (h_retry h')
                              (cache_put t2 stats (h_fee_stats_cache h')) (h_requests h'))
      | other => (other, h')
      end
  end.

Definition account_url (h : Horizon) (account_g : string) : string := base h +:+ "/accounts/" +:+ account_g.

Definition balances (account_g : string) (h : Horizon) :
    option (result (list Balance) ApiError) * Horizon :=
  let '(r, h') := read_call true (http_account out) (account_url h account_g)
                    (fun a => Ok (ar_balances a)) h in
  (option_map map_result r, h').

Definition account_info (account_g : string) (h : Horizon) :
    option (result AccountInfo ApiError) * Horizon :=
  let '(r, h') := read_call true (http_account out) (account_url h account_g)
    (fun a =>
       let? sequence := ok_or (parse_i64 (ar_sequence a)) Permanent in
       Ok (mkAccountInfo (ar_balances a) sequence (ar_subentry_count a) (ar_num_sponsoring a)
             (ar_num_sponsored a))) h in
  (option_map map_result r, h').

Definition account_sequence (account_g : string) (h : Horizon) : option (result Z ApiError) * Horizon :=
  let '(r, h') := account_info account_g h in
  (option_map (fun r => let? a := r in Ok (ai_sequence a)) r, h').

(** The answer of the fee percentile request within its timeout, if any; it is made
    outside [execute]. *)
Definition fee_stats_percentile (percentile : Z) (h : Horizon) : option Z * Horizon :=
  let n := h_requests h in
  let h' := mkHorizon (h_base_url h) (h_circuit h) (h_retry h) (h_fee_stats_cache h) (S n) in
  (match http_fee_stats out n (base h +:+ "/fee_stats") 0 with
   | Response status (Some stats) =>
       if negb (is_success status) then None else
       let* value := fsr_percentile stats ("p" +:+ print_dec percentile) in
       match value with inl raw => parse_i64 raw | inr z => Some z end
   | _ => None
   end, h').

Definition recommended_fee_stroops (percentile base_fee_stroops ceiling_stroops : Z) (h : Horizon) :
    Z * Horizon :=
  let '(stats, h') := fee_stats_percentile percentile h in
  let fee := Z.max (default base_fee_stroops
                      (let* fee := stats in if 0 <? fee then Some fee else None)) base_fee_stroops in
  (Z.min fee ceiling_stroops, h').

(** With the number of times the transaction was posted. *)
Definition submit_transaction (envelope_xdr : string) (h : Horizon) :
    option (result SubmitResult ApiError) * nat * Horizon :=
  let '(r, posts, h') := run_call Submit
    (fun n k => classify_submit (http_submit out n (base h +:+ "/transactions") envelope_xdr k)) h in
  (option_map (fun r =>
     match r with
     | Ok r => Ok r
     | Err Circuit => Err Internal
     | Err (Exhausted TxRejected) => Err (BadRequest "transaction rejected by network")
     | Err (Exhausted _) => Err Internal
     end) r, posts, h').

Definition transaction_by_hash (hash : string) (h : Horizon) : option (result TxLookup ApiError) * Horizon :=
  if negb (slen hash =? 64) || negb (str_forall is_ascii_hexdigit hash)
  then (Some (Err (BadRequest "transaction hash is malformed")), h) else
  let '(r, h') := read_call true (http_tx out) (base h +:+ "/transactions/" +:+ hash) Ok h in
  (option_map (fun r =>
     match r with
     | Ok r => Ok (Found (txr_successful r) (txr_ledger r))
     | Err (Exhausted FetchNotFound) => Ok TxNotFound
     | Err _ => Err Internal
     end) r, h').

Definition latest_ledger_close_time (h : Horizon) : option (result Z ApiError) * Horizon :=
  let '(r, h') := read_call false (http_ledgers out) (base h +:+ "/ledgers?order=desc&limit=1")
    (fun records =>
       let? closed_at := ok_or (head records) Permanent in
       ok_or (rfc3339_timestamp out closed_at) Permanent) h in
  (option_map map_result r, h').
End Client.

(** ** What a call returns *)

(** The part of the client that a call does not change. *)
Definition same_client (h h' : Horizon) : Prop :=
  h_base_url h' = h_base_url h /\ h_retry h' = h_retry h /\ h_requests h' = S (h_requests h).

Lemma read_call_spec out {T U} checks_404 (http : nat -> string -> nat -> http_response T) url
    (decode : T -> result U FetchError) h :
  0 <= max_delay_ms (h_retry h) ->
  let answer k := result_bind (classify_read checks_404 (http (h_requests h) url k)) decode in
  let '(r, h') := read_call out checks_404 http url decode h in
  same_client h h' /\
  match r with
  | Some (Ok v) => exists k, answer k = Ok v
  | Some (Err (Exhausted e)) => exists k, answer k = Err e
  | Some (Err Circuit) => True
  | None => False
  end.
Proof.
  intros Hd answer. unfold read_call, run_call. set (env := fun k => mkRound _ _ _ _ _ _).
  destruct (execute_spec (powi out) (h_retry h) env ReadOnly (h_circuit h) (fst (first_check out (h_requests h)))
    (snd (first_check out (h_requests h))) Hd) as ([_ He] & _ & _).
  split; [done|]. destruct (returned _) as [[v|[|e]]|]; try done; destruct He as (k & _ & He); by exists k.
Qed.

Lemma classify_read_Ok {T} c (r : http_response T) v :
  classify_read c r = Ok v -> exists status, r = Response status (Some v) /\ is_success status = true.
Proof.
  destruct r as [|status body]; cbn; [done|]. repeat case_match; try done.
  destruct body; cbn; [intros [= <-]|done]. exists status. split; [done|]. by apply negb_false_iff.
Qed.

Lemma classify_read_404 {T} (r : http_response T) :
  classify_read true r = Err FetchNotFound -> exists body, r = Response 404 body.
Proof.
  destruct r as [|status body]; cbn; [done|]. rewrite andb_true_r.
  destruct (Z.eqb_spec status 404) as [->|]; [by exists body|].
  repeat case_match; try done. by destruct body.
Qed.

Lemma transaction_by_hash_spec out hash h :
  0 <= max_delay_ms (h_retry h) ->
  let url := base h +:+ "/transactions/" +:+ hash in
  let '(r, h') := transaction_by_hash out hash h in
  h_base_url h' = h_base_url h /\ h_retry h' = h_retry h /\
  exists res, r = Some res /\
  match res with
  | Ok (Found ok _) => h_requests h' = S (h_requests h) /\ exists k status rec,
      http_tx out (h_requests h) url k = Response status (Some rec) /\ is_success status = true /\
      ok = txr_successful rec
  | Ok TxNotFound => h_requests h' = S (h_requests h) /\ exists k body,
      http_tx out (h_requests h) url k = Response 404 body
  | Err _ => True
  end.
Proof.
  intros Hd url. unfold transaction_by_hash. destruct (negb (slen hash =? 64) || negb (str_forall is_ascii_hexdigit hash)); [split_and!; [done..|]; by eexists|].
  pose proof (read_call_spec out true (http_tx out) url Ok h Hd) as Hr. fold url.
  destruct (read_call _ _ _ _ _ _) as [r h']. destruct Hr as [(Hb & Hret & Hn) Hr].
  split_and!; [done..|]. destruct r as [[v|[|e]]|]; cbn; [| | |done].
  - eexists. split; [done|]. split; [done|]. destruct Hr as (k & Hr).
    destruct (classify_read true _) eqn:E; cbn in Hr; [|done]. injection Hr as ->.
    destruct (classify_read_Ok _ _ _ E) as (status & Eq & Hs). by exists k, status, v.
  - by eexists.
  - destruct e; (eexists; split; [done|]); cbn; try done. split; [done|]. destruct Hr as (k & Hr).
    destruct (classify_read true _) eqn:E; cbn in Hr; [done|]. injection Hr as ->.
    apply classify_read_404 in E as [body E]. by exists k, body.
Qed.

Lemma latest_ledger_spec out h :
  0 <= max_delay_ms (h_retry h) ->
  let url := base h +:+ "/ledgers?order=desc&limit=1" in
  let '(r, h') := latest_ledger_close_time out h in
  same_client h h' /\
  exists res, r = Some res /\
  match res with
  | Ok t => exists k status closed rest,
      http_ledgers out (h_requests h) url k = Response status (Some (closed :: rest)) /\
      rfc3339_timestamp out closed = Some t
  | Err _ => True
  end.
Proof.
  intros Hd url. unfold latest_ledger_close_time. fold url. set (dec := fun records => _).
  pose proof (read_call_spec out false (http_ledgers out) url dec h Hd) as Hr.
  destruct (read_call _ _ _ _ _ _) as [r h']. destruct Hr as [Hs Hr]. split; [done|].
  destruct r as [[v|[|e]]|]; cbn; [|by eexists| |done]; (eexists; split; [done|]); [|by destruct e].
  cbn. destruct Hr as (k & Hr).
  destruct (classify_read false _) as [l|] eqn:E; cbn in Hr; [|done].
  destruct (classify_read_Ok _ _ _ E) as (status & Eq & _). unfold dec in Hr.
  destruct l as [|closed rest]; cbn in Hr; [done|].
  destruct (rfc3339_timestamp out closed) as [t|] eqn:Et; cbn in Hr; [|done]. injection Hr as <-.
  by exists k, status, closed, rest.
Qed.

(** ** Balances are read exactly *)

Lemma pad_zeros_cons k c s : Amount.pad_zeros k (String c s) = String c (Amount.pad_zeros k s).
Proof. revert s. induction k as [|k IH]; intros s; [done|]. cbn [Amount.pad_zeros]. by rewrite <-IH. Qed.

Lemma fit_empty w : fit w "" = Amount.pad_zeros w "".
Proof.
  induction w as [|w IH]; [done|]. cbn [fit Amount.pad_zeros]. rewrite IH.
  change ("" +:+ "0") with (String "0" ""). by rewrite pad_zeros_cons.
Qed.

Lemma fit_pad w s : (String.length s <= w)%nat -> fit w s = Amount.pad_zeros (w - String.length s) s.
Proof.
  revert s. induction w as [|w IH]; intros [|c s] Hs; cbn [String.length] in *; try done; [lia| |].
  - apply fit_empty.
  - cbn [fit]. rewrite IH by lia. by rewrite <-pad_zeros_cons.
Qed.

(** The API reads a balance as the ingester reads an amount: on every text without
    surrounding spaces that [Amount.to_stroops] accepts, [parse_amount_stroops] gives
    the same number of stroops. *)
Lemma parse_amount_agrees (s : string) (v : Z) :
  trim s = s -> Amount.to_stroops s = Some v -> parse_amount_stroops s = Some v.
Proof.
  unfold Amount.to_stroops, parse_amount_stroops. intros -> H. case_match; [done|].
  destruct (match split_once "." s with Some (i, f) => (i, f) | None => (s, "") end) as [i f].
  case_match eqn:E; [done|]. rewrite !orb_false_iff in E. destruct E as [_ Hlen%Nat.ltb_ge].
  unfold Amount.DECIMALS in *. rewrite (fit_pad 7 f Hlen).
  destruct (parse_i64 i) as [iv|]; cbn in H |- *; [|done].
  destruct (parse_i64 (Amount.pad_zeros _ f)) as [fv|]; cbn in H |- *; [|done].
  destruct (checked_mul_i64 iv Amount.STROOPS_PER_UNIT) as [m|] eqn:Em; cbn in H; [|done].
  unfold checked_mul_i64, checked_add_i64, try_i64 in *.
  apply guard_range_Some in Em as [-> Hm], H as [-> Hv].
  unfold Amount.STROOPS_PER_UNIT in *. rewrite (wrap_i64_id (iv * 10000000)) by done. by rewrite wrap_i64_id.
Qed.

(** ** The submission *)

Section Submission.
Variable out : Outside.

(** What the one POST of a submission was answered, and what the caller is told. *)
Definition submission_fits (answer : http_response SubmitResponse) (posts : nat)
    (r : result SubmitResult ApiError) : Prop :=
  match r with
  | Ok res =>
      posts = 1%nat /\ exists status body, answer = Response status (Some body) /\
        s_successful res = sr_successful body /\ s_hash res = sr_hash body /\ s_ledger res = sr_ledger body
  | Err (BadRequest _) =>
      posts = 1%nat /\ exists status, answer = Response status None /\ is_success status = false
  | Err e =>
      e = Internal /\
      (posts = 0%nat \/ answer = NoResponse \/
       exists status, answer = Response status None /\ is_success status = true)
  end.

Lemma classify_submit_Ok r res :
  classify_submit r = Ok res -> submission_fits r 1 (Ok res).
Proof.
  destruct r as [|status [body|]]; cbn; [done| |by case_match].
  destruct (default (None, []) (sr_result_codes body)) as [t o]. intros [= <-]. eauto 10.
Qed.

Lemma classify_submit_Err r e :
  classify_submit r = Err e ->
  e = TxRejected /\ (exists status, r = Response status None /\ is_success status = false) \/
  e = Transport /\ (r = NoResponse \/ exists status, r = Response status None /\ is_success status = true).
Proof.
  destruct r as [|status [body|]]; cbn; [intros [= <-]; auto| |].
  - by destruct (default (None, []) (sr_result_codes body)).
  - destruct (is_success status) eqn:E; intros [= <-]; eauto 10.
Qed.

Lemma submission_spec (xdr : string) (h : Horizon) :
  0 <= max_delay_ms (h_retry h) ->
  let answer := http_submit out (h_requests h) (base h +:+ "/transactions") xdr 0 in
  let '(r, posts, h') := submit_transaction out xdr h in
  (posts <= 1)%nat /\ exists res, r = Some res /\ submission_fits answer posts res.
Proof.
  intros Hd answer. unfold submit_transaction, run_call.
  set (env := fun k => mkRound _ _ _ _ _ _).
  destruct (execute_spec (powi out) (h_retry h) env Submit (h_circuit h) (fst (first_check out (h_requests h)))
    (snd (first_check out (h_requests h))) Hd) as ([_ He] & Hc & _).
  set (x := execute _ _ _ _ _ _ _) in *. split; [done|].
  assert (Hone : forall k, calls x = S k -> k = 0%nat) by lia.
  destruct (returned x) as [[res|[|e]]|]; cbn; [..|done]; (eexists; split; [reflexivity|]).
  - destruct He as (k & Hk & He). rewrite Hk. rewrite (Hone k Hk) in *. by apply classify_submit_Ok.
  - split; [done|]. destruct (calls x) as [|k]; [by left|]. right.
    destruct (He k eq_refl) as (e & Hr & Ht). rewrite (Hone k eq_refl) in Hr.
    destruct (classify_submit_Err _ _ Hr) as [[-> _]|[_ H]]; [done|exact H].
  - destruct He as (k & Hk & He). rewrite Hk. assert (k = 0%nat) as -> by (by apply Hone).
    destruct (classify_submit_Err _ _ He) as [[-> H]|[-> H]]; (split; [done|]); [exact H|by right].
Qed.

(** C33: A signed transaction is posted to Horizon at most once per submission, whatever
    the responses, the clock and the other users of the breaker; and what the caller
    is told follows from the one answer: a result exactly as decoded; a rejection only
    for an undecodable response that is not a success; an internal error only when
    nothing was posted or no usable answer came. *)
Theorem submission_once (xdr : string) (h : Horizon) :
  0 <= max_delay_ms (h_retry h) ->
  let answer := http_submit out (h_requests h) (base h +:+ "/transactions") xdr 0 in
  let '(r, posts, h') := submit_transaction out xdr h in
  (posts <= 1)%nat /\ exists res, r = Some res /\ submission_fits answer posts res.
Proof. apply submission_spec. Qed.
End Submission.

Definition silent_net : Outside :=
  mkOutside (fun _ _ => Float64.zero) (fun _ _ _ => NoResponse) (fun _ _ _ => NoResponse)
    (fun _ _ _ _ => NoResponse) (fun _ _ _ => NoResponse) (fun _ _ _ => NoResponse)
    (fun _ => None) (fun _ _ => mkTiming [] 1 2 3 []) (fun _ => (0, 0)).

Lemma submission_once_witness :
  let '(r, posts, _) := submit_transaction silent_net "xdr" (Horizon_new "https://h/") in
  r = Some (Err Internal) /\ posts = 1%nat /\ (posts <= 1)%nat.
Proof.
  pose proof (submission_once silent_net "xdr" (Horizon_new "https://h/") ltac:(cbn; lia)) as H.
  destruct (submit_transaction silent_net "xdr" (Horizon_new "https://h/")) as [[r posts] h'] eqn:E.
  vm_compute in E. injection E as <- <- _. split; [reflexivity|]. split; [reflexivity|]. apply H.
Defined.
End ApiHorizon.
