(* ===== verification/Fees.v ===== *)
(** * Fees and withdrawal estimates

    [crates/api/src/withdrawal_estimate.rs], [crates/api/src/signing_policy.rs] and the
    fee selection of [crates/api/src/routes/submit.rs]. *)

From S2P Require Import Prelude ApiHorizon.

Module Fees.
Import ApiHorizon.

(** ** The estimate *)

Definition MAX_OPERATIONS : Z := 100.

Record EstimateRequest := mkEstimateRequest {
  er_asset : option (string * string);
  er_amount_stroops : option Z;
  er_operations : Z
}.

Record WithdrawalEstimate := mkWithdrawalEstimate {
  we_operations : Z;
  we_base_fee_stroops : Z;
  we_recommended_fee_stroops : Z;
  we_estimated_fee_stroops : Z;
  we_base_reserve_stroops : Z;
  we_min_reserve_stroops : Z;
  we_native_balance_stroops : Z;
  we_asset_code : option string;
  we_asset_issuer : option string;
  we_asset_balance_stroops : option Z;
  we_fee_covered : bool;
  we_max_withdrawable_stroops : Z;
  we_amount_stroops : option Z;
  we_sufficient : option bool
}.

Definition estimate (info : AccountInfo) (fees : FeeStats) (req : EstimateRequest) :
    result WithdrawalEstimate ApiError :=
  if negb (in_range 1 MAX_OPERATIONS (er_operations req)) then
    Err (BadRequest ("operations must be between 1 and " +:+ print_dec MAX_OPERATIONS)) else
  if match er_amount_stroops req with Some a => a <=? 0 | None => false end then
    Err (BadRequest "amount_stroops must be > 0") else
  let base_fee := Z.max (last_ledger_base_fee fees) 0 in
  let recommended := Z.max base_fee (fee_charged_p90 fees) in
  let estimated_fee := sat_i64 (recommended * er_operations req) in
  let min_reserve := min_reserve_stroops info in
  let native := native_balance_stroops info in
  let native_spendable := sat_i64 (native - min_reserve) in
  let fee_covered := estimated_fee <=? native_spendable in
  let? asset :=
    match er_asset req with
    | None => Ok (None, Z.max (sat_i64 (native_spendable - estimated_fee)) 0)
    | Some (code, issuer) =>
        let? balance := ok_or (asset_balance_stroops info code issuer)
                              (BadRequest "wallet has no trustline for this asset") in
        Ok (Some balance, if fee_covered then Z.max balance 0 else 0)
    end in
  let '(asset_balance, max_withdrawable) := asset in
  Ok (mkWithdrawalEstimate (er_operations req) base_fee recommended estimated_fee
        BASE_RESERVE_STROOPS min_reserve native
        (option_map fst (er_asset req)) (option_map snd (er_asset req)) asset_balance fee_covered
        max_withdrawable (er_amount_stroops req)
        (option_map (fun a => fee_covered && (a <=? max_withdrawable)) (er_amount_stroops req))).

(** ** The signing policy *)

Definition MIN_BASE_FEE_STROOPS : Z := 100.
Definition DEFAULT_MAX_TIME_WINDOW_SECONDS : Z := 300.
Definition DEFAULT_FEE_PERCENTILE : Z := 50.
Definition DEFAULT_FEE_CEILING_STROOPS : Z := 10000.
Definition MAX_TIME_WINDOW_SECONDS : Z := 86400.

Record SigningPolicy := mkSigningPolicy {
  max_time_window_seconds : Z;
  fee_percentile : Z;
  fee_ceiling_stroops : Z
}.

Definition SigningPolicy_new (max_time_window_seconds fee_percentile fee_ceiling_stroops : Z) :
    result SigningPolicy string :=
  if negb (in_range 1 MAX_TIME_WINDOW_SECONDS max_time_window_seconds) then
    Err "STELLAR_TX_MAX_AGE_SECS must be between 1 and 86400" else
  if negb (bool_decide (fee_percentile ∈ [10; 20; 30; 40; 50; 60; 70; 80; 90; 95; 99])) then
    Err "STELLAR_FEE_PERCENTILE must be one of 10,20,30,40,50,60,70,80,90,95,99" else
  if fee_ceiling_stroops <? MIN_BASE_FEE_STROOPS then
    Err "STELLAR_FEE_CEILING_STROOPS must be at least 100" else
  Ok (mkSigningPolicy max_time_window_seconds fee_percentile fee_ceiling_stroops).

Definition SigningPolicy_default : SigningPolicy :=
  mkSigningPolicy DEFAULT_MAX_TIME_WINDOW_SECONDS DEFAULT_FEE_PERCENTILE DEFAULT_FEE_CEILING_STROOPS.

(** [now] is the unix time, 0 for a clock before the epoch. *)
Definition max_time (p : SigningPolicy) (now : Z) : Z := sat_u64 (now + max_time_window_seconds p).

Definition selected_signing_fee (out : Outside) (policy : SigningPolicy) (h : Horizon) : Z * Horizon :=
  recommended_fee_stroops out (fee_percentile policy) MIN_BASE_FEE_STROOPS (fee_ceiling_stroops policy) h.

(** ** Properties *)

(** What a withdrawal takes from the account: the fee comes from the native balance,
    which keeps the reserve. *)
Definition affordable (info : AccountInfo) (req : EstimateRequest) (fee amount : Z) : Prop :=
  match er_asset req with
  | None => amount + fee + min_reserve_stroops info <= native_balance_stroops info
  | Some (code, issuer) =>
      fee + min_reserve_stroops info <= native_balance_stroops info /\
      exists b, asset_balance_stroops info code issuer = Some b /\ amount <= b
  end.

Definition account_sane (info : AccountInfo) : Prop :=
  0 <= native_balance_stroops info < i64_MAX /\ 0 <= min_reserve_stroops info <= i64_MAX.

(** Split on whether the fee is covered. *)
Ltac covered :=
  let E := fresh "E" in
  match goal with |- context [andb ?c _] => destruct c eqn:E end;
  [apply Z.leb_le in E|apply Z.leb_gt in E]; cbn [andb].

(** The estimate is right. For an account whose balance and reserve are in range,
    a request that is not refused is answered [sufficient] exactly when the true
    (unsaturated) fee of the operations, the reserve and the amount fit in the
    account's balances; and an amount is sufficient exactly when the fee is covered
    and it is at most [max_withdrawable_stroops]. *)
Lemma estimate_exact (info : AccountInfo) (fees : FeeStats) (req : EstimateRequest) (e : WithdrawalEstimate)
    (amount : Z) :
  account_sane info -> estimate info fees req = Ok e -> er_amount_stroops req = Some amount ->
  let fee := Z.max (Z.max (last_ledger_base_fee fees) 0) (fee_charged_p90 fees) * er_operations req in
  (we_sufficient e = Some true <-> affordable info req fee amount) /\
  we_sufficient e = Some (we_fee_covered e && (amount <=? we_max_withdrawable_stroops e)).
Proof.
  intros [Hn Hr] He Ha fee. unfold estimate in He.
  destruct (in_range 1 MAX_OPERATIONS (er_operations req)) eqn:Eops; [|done]. apply in_range_spec in Eops.
  rewrite Ha in He. cbn [negb] in He. destruct (Z.leb_spec amount 0); [done|].
  assert (Hfee : 0 <= fee) by (unfold fee; nia). fold fee in He. clearbody fee.
  unfold affordable, sat_i64, clampZ, i64_MIN, i64_MAX in *.
  destruct (er_asset req) as [[code issuer]|]; cbn in He.
  - destruct (asset_balance_stroops info code issuer) as [b|]; cbn in He; [|done]. simplify_eq/=.
    split; [|done]. covered.
    + split.
      * intros [= Hb%Z.leb_le]. split; [lia|]. exists b. split; [done|]. lia.
      * intros [_ (b' & [= <-] & Hb)]. do 2 f_equal. lia.
    + split; [done|]. intros [Hc _]. lia.
  - simplify_eq/=. split; [|done].
    covered.
    + split; [intros [= Hb%Z.leb_le]; lia|]. intros Hc. do 2 f_equal. lia.
    + split; [done|]. lia.
Qed.

Definition ex_account : AccountInfo :=
  mkAccountInfo [mkBalance "10.0" "native" None None; mkBalance "3.5" "credit_alphanum4" (Some "USDC") (Some "G")]
    7 1 0 0.

(** C37: Whatever Horizon answers, the fee a client is told to sign with is the reported
    percentile clamped between the network minimum and the configured ceiling, and the
    signed transaction expires in the future and within a day; for every policy that
    [SigningPolicy::new] accepts. *)
Theorem signing_bounds (out : Outside) (h : Horizon) (window percentile ceiling now : Z) (policy : SigningPolicy) :
  SigningPolicy_new window percentile ceiling = Ok policy ->
  0 <= now <= u64_MAX - 86400 ->
  let fee := fst (selected_signing_fee out policy h) in
  100 <= fee <= ceiling /\
  (forall f, fst (fee_stats_percentile out percentile h) = Some f -> fee = Z.min (Z.max f 100) ceiling) /\
  now < max_time policy now <= now + 86400.
Proof.
  unfold SigningPolicy_new. destruct (in_range 1 _ window) eqn:Ew; [|done]. apply in_range_spec in Ew.
  cbn [negb]. case_match; [done|]. destruct (Z.ltb_spec ceiling MIN_BASE_FEE_STROOPS); [done|].
  intros [= <-] Hnow. unfold selected_signing_fee, recommended_fee_stroops, max_time, sat_u64, clampZ.
  cbn [fee_percentile fee_ceiling_stroops max_time_window_seconds].
  unfold MIN_BASE_FEE_STROOPS, MAX_TIME_WINDOW_SECONDS in *.
  destruct (fee_stats_percentile out percentile h) as [[f|] h']; cbn.
  - destruct (Z.ltb_spec 0 f); cbn; (split_and!; [lia|lia| |lia|lia]); intros f' [= <-]; lia.
  - split_and!; try lia. done.
Qed.

Lemma signing_bounds_witness :
  SigningPolicy_new 300 50 10000 = Ok SigningPolicy_default /\
  100 <= fst (selected_signing_fee silent_net SigningPolicy_default (Horizon_new "https://h")) <= 10000.
Proof.
  split; [reflexivity|].
  apply (signing_bounds silent_net (Horizon_new "https://h") 300 50 10000 0 SigningPolicy_default);
    [reflexivity|vm_compute; split; discriminate].
Defined.
End Fees.
