(* ===== verification/Reconciler.v ===== *)
(** * The withdrawal reconciler

    [crates/api/src/withdrawal_reconciler.rs]: the sweep that settles withdrawals left
    pending, over the statements of [Store] and the lookups of [ApiHorizon]. What its
    verdicts mean is stated against the ledger: a chain of closed ledgers of which
    Horizon has ingested a prefix when it answers. *)

From Stdlib Require Import Sorted.
From S2P Require Import Prelude Float64 Resilience Db Paging Store HorizonIngest ApiHorizon.

Module Reconciler.
Import Db Store.
Import ApiHorizon (Horizon, Outside, TxLookup, Found, TxNotFound, ApiError, transaction_by_hash, latest_ledger_close_time).
Local Open Scope db_scope.

(** ** The sweep *)

(** Durations in microseconds. *)
Record ReconcilerConfig := mkReconcilerConfig {
  rc_interval : Z;
  rc_grace : Z;
  rc_abandon_after : Z;
  rc_batch : Z
}.

Definition ReconcilerConfig_default : ReconcilerConfig :=
  mkReconcilerConfig (60 * 1000000) (120 * 1000000) (24 * 60 * 60 * 1000000) 100.

Inductive Verdict :=
| Confirmed (ledger : option Z)
| Failed (reason : string)
| Wait.

Record Stats := mkStats { st_confirmed : Z; st_failed : Z; st_waiting : Z }.

Definition failed_on_chain : string := "transaction failed on-chain".
Definition expired : string := "transaction expired before inclusion (timebounds)".
Definition abandoned : string := "no timebound and never found on-chain; abandoned".
Definition no_hash : string := "no transaction hash recorded".

Definition decide (lookup : TxLookup) (max_time ledger_close : option Z) (age abandon_after : Z) : Verdict :=
  match lookup with
  | Found true ledger => Confirmed ledger
  | Found false _ => Failed failed_on_chain
  | TxNotFound =>
      match max_time, ledger_close with
      | Some max, Some close => if max <? close then Failed expired else Wait
      | None, _ => if abandon_after <=? age then Failed abandoned else Wait
      | Some _, None => Wait
      end
  end.

(** [metadata.get(k).and_then(as_i64)]. *)
Definition meta_i64 (k : string) (m : list (string * json)) : option Z :=
  match List.find (fun '(k', _) => bool_decide (k' = k)) m with
  | Some (_, JNum z) => try_i64 z
  | _ => None
  end.

Notation M := (M State Horizon).
Notation World := (World State Horizon).

(** A Horizon request; a panic ends the task. *)
Definition horizon_call {A} (f : Horizon -> option (result A ApiError) * Horizon) :
    M (result A ApiError) := fun w =>
  let '(r, h) := f (ext w) in
  let w' := mkWorld (db w) (ticks w) h in
  match r with Some r => (Ret r, w') | None => (Crashed, w') end.

Section Sweep.
Variables (out : Outside) (cfg : ReconcilerConfig).
(** The clock reading when a row is judged. *)
Variable clock : Uuid -> Z.

Definition resolve (row : Transaction) : M Verdict :=
  match tx_stellar_tx_hash row with
  | None => ret (Failed no_hash)
  | Some hash =>
      do lookup <- horizon_call (transaction_by_hash out hash);
      match lookup with
      | Err _ => ret Wait
      | Ok lookup =>
          let max_time := meta_i64 "max_time" (tx_metadata row) in
          do ledger_close <-
            match lookup, max_time with
            | TxNotFound, Some _ =>
                do r <- horizon_call (latest_ledger_close_time out); ret (result_ok r)
            | _, _ => ret None
            end;
          let age := Z.max 0 (clock (tx_id row) - tx_created_at row) in
          ret (decide lookup max_time ledger_close age (rc_abandon_after cfg))
      end
  end.

Definition outcome_of (v : Verdict) : option (string * option Z * option string) :=
  match v with
  | Confirmed ledger => Some ("confirmed", ledger, None)
  | Failed reason => Some ("failed", None, Some reason)
  | Wait => None
  end.

Fixpoint reconcile_rows (rows : list Transaction) (stats : Stats) : M (result Stats StoreError) :=
  match rows with
  | [] => ret (Ok stats)
  | row :: rest =>
      do verdict <- resolve row;
      match outcome_of verdict with
      | None =>
          reconcile_rows rest (mkStats (st_confirmed stats) (st_failed stats) (st_waiting stats + 1))
      | Some (status, ledger, reason) =>
          try settled <- settle_pending_withdrawal (tx_id row) status ledger reason | (fun e => e);
          reconcile_rows rest
            (if settled then
               if bool_decide (status = "confirmed")
               then mkStats (st_confirmed stats + 1) (st_failed stats) (st_waiting stats)
               else mkStats (st_confirmed stats) (st_failed stats + 1) (st_waiting stats)
             else stats)
      end
  end.

Definition reconcile_once : M (result Stats StoreError) :=
  try rows <- list_stale_pending_withdrawals (rc_grace cfg) (rc_batch cfg) | (fun e => e);
  reconcile_rows rows (mkStats 0 0 0).
End Sweep.

(** ** The ledger *)

(** A closed ledger: its close time and the transactions applied in it, each with
    whether it succeeded. *)
Record Ledger := mkLedger { l_close : Z; l_txs : list (string * bool) }.

Definition applied (chain : list Ledger) (hash : string) (ok : bool) : Prop :=
  exists l, l ∈ chain /\ (hash, ok) ∈ l_txs l.

(** A transaction with an upper time bound is applied in no later ledger. *)
Definition bounded_by (chain : list Ledger) (hash : string) (max : Z) : Prop :=
  forall l ok, l ∈ chain -> (hash, ok) ∈ l_txs l -> l_close l <= max.

Definition tx_url (h : Horizon) (hash : string) : string :=
  ApiHorizon.base h +:+ "/transactions/" +:+ hash.
Definition ledgers_url (h : Horizon) : string := ApiHorizon.base h +:+ "/ledgers?order=desc&limit=1".

(** Horizon answers from the ledgers it has ingested: [seen n k] of them at the attempt
    [k] of the request [n]. *)
Record honest (out : Outside) (base_url : string) (chain : list Ledger) (seen : nat -> nat -> nat) : Prop := {
  closes_sorted : StronglySorted Z.le (map l_close chain);
  tx_found : forall n k hash status r h, ApiHorizon.h_base_url h = base_url ->
    ApiHorizon.http_tx out n (tx_url h hash) k = ApiHorizon.Response status (Some r) ->
    status <> 404 -> applied (take (seen n k) chain) hash (ApiHorizon.txr_successful r);
  tx_missing : forall n k hash body h, ApiHorizon.h_base_url h = base_url ->
    ApiHorizon.http_tx out n (tx_url h hash) k = ApiHorizon.Response 404 body ->
    forall ok, ~ applied (take (seen n k) chain) hash ok;
  newest_ledger : forall n k status closed rest t h, ApiHorizon.h_base_url h = base_url ->
    ApiHorizon.http_ledgers out n (ledgers_url h) k = ApiHorizon.Response status (Some (closed :: rest)) ->
    ApiHorizon.rfc3339_timestamp out closed = Some t ->
    exists l, last (take (seen n k) chain) = Some l /\ t = l_close l
}.

(** What a verdict on a row asserts: of its transaction, and for an abandoned one of its age when it was
    judged. *)
Definition verdict_true (chain : list Ledger) (cfg : ReconcilerConfig) (clock : Uuid -> Z) (row : Transaction) (v : Verdict) : Prop :=
  match v, tx_stellar_tx_hash row with
  | Confirmed _, Some hash => applied chain hash true
  | Confirmed _, None => False
  | Failed reason, None => reason = no_hash
  | Failed reason, Some hash =>
      reason = failed_on_chain /\ applied chain hash false \/
      reason = expired /\ (forall ok, ~ applied chain hash ok) \/
      reason = abandoned /\ meta_i64 "max_time" (tx_metadata row) = None /\
      rc_abandon_after cfg <= Z.max 0 (clock (tx_id row) - tx_created_at row) /\
      (exists n, forall ok, ~ applied (take n chain) hash ok)
  | Wait, _ => True
  end.

(** ** Soundness of a verdict *)

Section Soundness.
Context (out : Outside) (cfg : ReconcilerConfig) (clock : Uuid -> Z).
Context (base_url : string) (chain : list Ledger) (seen : nat -> nat -> nat).
Hypothesis Hhonest : honest out base_url chain seen.
(** A transaction that Horizon did not find is not in the ledgers from which it answers the request that
    follows either: none of the ledgers that it ingests between the two requests of a row has the
    transaction of that row. *)
Hypothesis Hstill : forall n k k' hash body status closed rest h, ApiHorizon.h_base_url h = base_url ->
  ApiHorizon.http_tx out n (tx_url h hash) k = ApiHorizon.Response 404 body ->
  ApiHorizon.http_ledgers out (S n) (ledgers_url h) k' = ApiHorizon.Response status (Some (closed :: rest)) ->
  forall ok, ~ applied (take (seen (S n) k') chain) hash ok.
Notation verdict_true := (verdict_true chain cfg clock).

Definition client_ok (h : Horizon) : Prop :=
  ApiHorizon.h_base_url h = base_url /\ 0 <= Resilience.max_delay_ms (ApiHorizon.h_retry h).

Definition row_bounded (row : Transaction) : Prop :=
  forall hash max, tx_stellar_tx_hash row = Some hash ->
    meta_i64 "max_time" (tx_metadata row) = Some max -> bounded_by chain hash max.

Lemma applied_take n hash ok : applied (take n chain) hash ok -> applied chain hash ok.
Proof.
  intros (l & Hl & Hin). exists l. split; [|done].
  rewrite <-(take_drop n chain). apply elem_of_app. by left.
Qed.

(** A transaction absent up to a ledger that closed after its bound is never applied. *)
Lemma never_applied n l hash max :
  bounded_by chain hash max -> last (take n chain) = Some l -> max < l_close l ->
  (forall ok, ~ applied (take n chain) hash ok) -> forall ok, ~ applied chain hash ok.
Proof using Hhonest.
  intros Hb Hl Hmax Hno ok (l' & Hin & Htx).
  rewrite <-(take_drop n chain) in Hin. apply elem_of_app in Hin as [Hin|Hin]; [by apply (Hno ok); exists l'|].
  assert (Hle : l_close l <= l_close l').
  { pose proof (closes_sorted _ _ _ _ Hhonest) as Hs. rewrite <-(take_drop n chain), map_app in Hs.
    apply last_Some in Hl as [pre Hpre]. rewrite Hpre, map_app, <-app_assoc in Hs.
    clear -Hs Hin. induction (map l_close pre) as [|x r IH]; cbn in Hs.
    - apply StronglySorted_inv in Hs as [_ Hs]. rewrite Forall_forall in Hs. apply Hs.
      by apply list_elem_of_fmap_2.
    - apply StronglySorted_inv in Hs as [Hs _]. by apply IH. }
  assert (Hin' : l' ∈ chain) by (rewrite <-(take_drop n chain); apply elem_of_app; by right).
  pose proof (Hb l' ok Hin' Htx). lia.
Qed.

Lemma resolve_spec row (w : World) :
  client_ok (ext w) -> row_bounded row ->
  exists v w', resolve out cfg clock row w = (Ret v, w') /\ db w' = db w /\ ticks w' = ticks w /\
    client_ok (ext w') /\ verdict_true row v.
Proof using Hhonest Hstill.
  intros [Hu Hd] Hb. unfold resolve. destruct (tx_stellar_tx_hash row) as [hash|] eqn:Eh.
  2:{ do 2 eexists. split; [reflexivity|]. split_and!; [done..|]. unfold Reconciler.verdict_true. by rewrite Eh. }
  unfold bind at 1, horizon_call at 1.
  pose proof (ApiHorizon.transaction_by_hash_spec out hash (ext w) Hd) as Ht.
  destruct (transaction_by_hash out hash (ext w)) as [r h1].
  destruct Ht as (Hu1 & Hd1 & res & -> & Hres).
  assert (Hok1 : client_ok h1) by (split; congruence).
  destruct res as [[ok ledger|]|e].
  - destruct Hres as (_ & k & status & rec & Hr & Hs & ->). unfold bind. cbn [ret].
    do 2 eexists. split; [reflexivity|]. split_and!; [done..|].
    assert (Ha : applied chain hash (ApiHorizon.txr_successful rec)).
    { eapply applied_take, (tx_found _ _ _ _ Hhonest); [done|exact Hr|].
      intros ->. by vm_compute in Hs. }
    unfold Reconciler.verdict_true, decide. destruct (ApiHorizon.txr_successful rec); rewrite Eh; [done|by left].
  - destruct Hres as (Hn1 & k & body & Hr).
    pose proof (tx_missing _ _ _ _ Hhonest _ _ _ _ _ Hu Hr) as Hmiss.
    destruct (meta_i64 "max_time" (tx_metadata row)) as [max|] eqn:Em.
    + unfold bind at 1, bind at 1, horizon_call.
      pose proof (ApiHorizon.latest_ledger_spec out h1 ltac:(destruct Hok1; lia)) as Hl. cbn [ext].
      destruct (latest_ledger_close_time out h1) as [r h2].
      destruct Hl as ((Hu2 & Hd2 & _) & res & -> & Hres). cbn [ret].
      do 2 eexists. split; [reflexivity|]. split_and!; [done..| |].
      { split; cbn; [congruence|]. rewrite Hd2. apply Hok1. }
      destruct res as [t|e]; cbn; [|done]. destruct (Z.ltb_spec max t) as [Hlt|]; cbn; [|done]. rewrite Eh.
      right. left. split; [done|].
      destruct Hres as (k' & status & closed & rest & Hl & Ht).
      destruct (newest_ledger _ _ _ _ Hhonest _ _ _ _ _ _ _ (proj1 Hok1) Hl Ht) as (l & Hlast & ->).
      eapply never_applied; [by apply Hb|exact Hlast|done|]. rewrite Hn1 in Hl |- *.
      eapply (Hstill _ k k' hash body status closed rest h1); [apply Hok1| |exact Hl].
      replace (tx_url h1 hash) with (tx_url (ext w) hash); [exact Hr|]. unfold tx_url, ApiHorizon.base. by rewrite Hu, (proj1 Hok1).
    + unfold bind. cbn [ret]. do 2 eexists. split; [reflexivity|]. split_and!; [done..|].
      unfold decide. case_match; [|done]. unfold Reconciler.verdict_true. rewrite Eh. right. right.
      split_and!; [done|done|lia|by eexists].
  - do 2 eexists. split; [reflexivity|]. by split_and!.
Qed.

(** *** What may happen to a row *)

(** The status that a row gets is true of its transaction. *)
Definition status_true (t : Transaction) (status : string) : Prop :=
  exists v ledger reason, outcome_of v = Some (status, ledger, reason) /\ verdict_true t v.

Definition is_withdrawal (t : Transaction) : Prop := tx_direction t = "withdrawal".

(** A withdrawal keeps its transaction, and its status changes only from [pending], to
    a true one. *)
Definition evolves (t t' : Transaction) : Prop :=
  tx_id t' = tx_id t /\ tx_direction t' = tx_direction t /\
  (is_withdrawal t ->
     tx_stellar_tx_hash t' = tx_stellar_tx_hash t /\ tx_created_at t' = tx_created_at t /\
     meta_i64 "max_time" (tx_metadata t') = meta_i64 "max_time" (tx_metadata t) /\
     (tx_status t' = tx_status t \/ tx_status t = "pending" /\ status_true t (tx_status t'))).

Definition swept (s s' : State) : Prop :=
  forall t, t ∈ transactions s -> exists t', t' ∈ transactions s' /\ evolves t t'.

Definition rows_ok (s : State) : Prop :=
  NoDup (map tx_id (transactions s)) /\ Forall (fun t => is_withdrawal t -> row_bounded t) (transactions s).

(** What the other connections may do: anything that keeps the rows well formed and
    treats withdrawals as above. *)
Definition rely (s s' : State) : Prop := (rows_ok s -> rows_ok s') /\ swept s s'.

Lemma status_true_eq t t' status :
  tx_id t' = tx_id t -> tx_stellar_tx_hash t' = tx_stellar_tx_hash t -> tx_created_at t' = tx_created_at t ->
  meta_i64 "max_time" (tx_metadata t') = meta_i64 "max_time" (tx_metadata t) ->
  status_true t' status -> status_true t status.
Proof.
  intros Ei Eh Ec Em (v & ledger & reason & Hv & Ht). exists v, ledger, reason. split; [done|].
  unfold Reconciler.verdict_true in *. by rewrite Ei, Eh, Ec, Em in Ht.
Qed.

Lemma evolves_refl t : evolves t t.
Proof. split_and!; auto. Qed.

Lemma evolves_trans t1 t2 t3 : evolves t1 t2 -> evolves t2 t3 -> evolves t1 t3.
Proof.
  intros (I1 & D1 & H1) (I2 & D2 & H2). split_and!; [congruence..|]. intros Hw.
  destruct (H1 Hw) as (Eh & Ec & Em & Hs). destruct H2 as (Eh' & Ec' & Em' & Hs'); [unfold is_withdrawal in *; congruence|].
  split_and!; [congruence..|]. destruct Hs as [Hs|[Hp Hs]], Hs' as [Hs'|[Hp' Hs']].
  - left. congruence.
  - right. split; [congruence|]. by eapply status_true_eq.
  - right. split; [done|]. by rewrite Hs'.
  - right. split; [done|]. by eapply status_true_eq.
Qed.

Lemma swept_refl s : swept s s.
Proof. intros t Ht. exists t. split; [done|apply evolves_refl]. Qed.

Lemma swept_trans s1 s2 s3 : swept s1 s2 -> swept s2 s3 -> swept s1 s3.
Proof.
  intros H1 H2 t Ht. destruct (H1 t Ht) as (t' & Ht' & E1). destruct (H2 t' Ht') as (t'' & Ht'' & E2).
  exists t''. split; [done|]. by eapply evolves_trans.
Qed.

Lemma json_set_other k k' v m : k' <> k -> meta_i64 k (json_set k' v m) = meta_i64 k m.
Proof.
  intros Hk. unfold meta_i64, json_set.
  assert (Hf : List.find (fun '(k0, _) => bool_decide (k0 = k))
                 (List.filter (fun '(k0, _) => bool_decide (k0 <> k')) m ++ [(k', v)]) =
               List.find (fun '(k0, _) => bool_decide (k0 = k)) m); [|by rewrite Hf].
  induction m as [|[k0 v0] m IH]; cbn.
  - by rewrite bool_decide_eq_false_2.
  - destruct (bool_decide (k0 <> k')) eqn:E; cbn; [by destruct (bool_decide (k0 = k))|].
    apply bool_decide_eq_false, dec_stable in E. subst k0.
    rewrite (bool_decide_eq_false_2 (k' = k)) by done. exact IH.
Qed.

(** The settlement of a row on a true verdict. *)
Lemma settle_evolves row v status ledger reason now s :
  outcome_of v = Some (status, ledger, reason) -> verdict_true row v ->
  rows_ok s -> (exists t, t ∈ transactions s /\ evolves row t) -> is_withdrawal row ->
  let s' := snd (settle_stmt (tx_id row) status ledger reason now s) in
  rows_ok s' /\ swept s s'.
Proof.
  intros Hv Ht [Hnd Hb] (t0 & Hin0 & E0) Hw s'. unfold s', settle_stmt.
  case_match; [split; [done|apply swept_refl]|]. cbn [snd]. clear s'.
  set (p := fun t => _ && _ && _). set (f := fun t => set_outcome status ledger _ t).
  assert (Hf : forall t, tx_id (f t) = tx_id t /\ tx_direction (f t) = tx_direction t /\
    tx_stellar_tx_hash (f t) = tx_stellar_tx_hash t /\ tx_created_at (f t) = tx_created_at t /\ tx_status (f t) = status /\
    meta_i64 "max_time" (tx_metadata (f t)) = meta_i64 "max_time" (tx_metadata t)).
  { intros t. split_and!; [done..|]. cbn. destruct reason; [by apply json_set_other|done]. }
  assert (Hone : forall t, t ∈ transactions s -> p t = true -> status_true t status /\ tx_status t = "pending").
  { intros t Hin Hp. unfold p in Hp. rewrite !andb_true_iff, !bool_decide_eq_true in Hp.
    destruct Hp as [[Hid _] Hpend]. split; [|done]. destruct E0 as (Hid0 & _ & E0).
    assert (t = t0) as ->.
    { apply (Paging.nodup_ids_inj (A := Transaction) (transactions s)); [exact Hnd|done..|]. cbn. congruence. }
    destruct (E0 Hw) as (Eh & Ec & Em & _). eapply (status_true_eq t0 row); [done..|]. by exists v, ledger, reason. }
  assert (Hev : forall t, t ∈ transactions s -> evolves t (if p t then f t else t)).
  { intros t Hin. destruct (p t) eqn:Ep; [|apply evolves_refl].
    destruct (Hone t Hin Ep) as [Hst Hpend]. destruct (Hf t) as (F1 & F2 & F3 & Fc & F4 & F5).
    split_and!; [done..|]. intros _. split_and!; [done..|]. right. by rewrite F4. }
  split.
  - split; cbn; [rewrite update_where_key by (intros; apply Hf); exact Hnd|].
    eapply update_where_Forall; [exact Hb|]. intros t Hin Hbt. destruct (Hf t) as (F1 & F2 & F3 & Fc & F4 & F5).
    destruct (p t); [|done]. intros Hwt hash max. rewrite F3, F5. apply Hbt. unfold is_withdrawal in *. congruence.
  - intros t Hin. exists (if p t then f t else t). split; [|by apply Hev].
    cbn. unfold update_where. apply list_elem_of_fmap. by exists t.
Qed.

Lemma sweep_rely_refl s : rely s s.
Proof. split; [done|apply swept_refl]. Qed.

(** Rows that were listed stay known: the database has their later form. *)
Definition known (s0 : State) (rows : list Transaction) (s : State) : Prop :=
  rows_ok s /\ swept s0 s /\
  Forall (fun row => is_withdrawal row /\ row_bounded row /\
                     exists t, t ∈ transactions s /\ evolves row t) rows.

Lemma known_step s0 rows s s' : known s0 rows s -> rows_ok s' -> swept s s' -> known s0 rows s'.
Proof.
  intros (_ & Hsw & Hrows) Hok Hs. split_and!; [done|by eapply swept_trans|].
  eapply Forall_impl; [exact Hrows|]. intros row (Hw & Hb & t & Ht & E). split_and!; [done..|].
  destruct (Hs t Ht) as (t' & Ht' & E'). exists t'. split; [done|]. by eapply evolves_trans.
Qed.

Lemma known_stable s0 rows : stable rely (known s0 rows).
Proof. intros s s' Hk [Hok Hs]. eapply known_step; [done|apply Hok, Hk|done]. Qed.

Notation triple := (triple (X := Horizon) rely client_ok).

Lemma resolve_triple s0 row rest :
  triple (known s0 (row :: rest)) (resolve out cfg clock row)
    (fun v s => known s0 (row :: rest) s /\ verdict_true row v) (fun _ => False).
Proof using Hhonest Hstill.
  intros w Hk [Ht Hc]. pose proof Hk as (_ & _ & [(_ & Hb & _) _]%Forall_cons).
  destruct (resolve_spec row w Hc Hb) as (v & w' & -> & Hdb & Htk & Hc' & Hv). cbn.
  unfold world_ok. rewrite Hdb, Htk. done.
Qed.

Lemma settle_triple s0 row rest v status ledger reason :
  outcome_of v = Some (status, ledger, reason) -> verdict_true row v ->
  triple (known s0 (row :: rest)) (settle_pending_withdrawal (tx_id row) status ledger reason)
    (fun _ => known s0 rest) (known s0 rest).
Proof.
  intros Hv Ht. assert (Hdrop : forall s, known s0 (row :: rest) s -> known s0 rest s).
  { intros s (H1 & H2 & [_ H3]%Forall_cons). done. }
  assert (Hset : forall now s, known s0 (row :: rest) s ->
    known s0 rest (snd (settle_stmt (tx_id row) status ledger reason now s))).
  { intros now s Hk. pose proof Hk as (Hok & Hsw & [(Hw & _ & Hex) _]%Forall_cons).
    destruct (settle_evolves row v status ledger reason now s Hv Ht Hok Hex Hw) as [H1 H2].
    eapply known_step; [by apply Hdrop|done|done]. }
  eapply triple_bind with (R := fun _ => known s0 rest); [|by intros r; apply triple_ret].
  apply triple_db_call; [apply sweep_rely_refl|apply known_stable| |]; naive_solver.
Qed.

Lemma reconcile_rows_triple s0 rows stats :
  triple (known s0 rows) (reconcile_rows out cfg clock rows stats) (fun _ => swept s0) (swept s0).
Proof using Hhonest Hstill.
  revert stats. induction rows as [|row rest IH]; intros stats; cbn [reconcile_rows].
  { apply triple_ret. by intros s (_ & Hs & _). }
  eapply triple_bind; [eapply triple_conseq; [apply (resolve_triple s0 row rest)|done|done|done]|].
  intros v. cbn. apply triple_pure. intros Hv.
  destruct (outcome_of v) as [[[status ledger] reason]|] eqn:Eo.
  - eapply triple_try with (R := fun _ => known s0 rest); [|intros b; apply IH|by intros e s (_ & Hs & _)].
    eapply triple_conseq; [by eapply settle_triple|done|done|]. by intros s (_ & Hs & _).
  - eapply triple_conseq; [apply IH| |done|done]. intros s (H1 & H2 & [_ H3]%Forall_cons). done.
Qed.

Lemma listed_known s0 limit leb q s :
  rows_ok s -> swept s0 s -> (forall t, q t = true -> is_withdrawal t) ->
  known s0 (take limit (Paging.sort_by leb (List.filter q (transactions s)))) s.
Proof.
  intros Hok Hs Hq. split_and!; [done..|]. apply Forall_take, Forall_forall. intros t Hin.
  rewrite Paging.sort_by_perm in Hin. apply list_elem_of_In, filter_In in Hin as [Hin%list_elem_of_In Hqt].
  apply Hq in Hqt. split; [done|]. destruct Hok as [_ Hb]. rewrite Forall_forall in Hb. split; [by apply Hb|].
  exists t. split; [done|apply evolves_refl].
Qed.

Lemma reconcile_once_triple s0 :
  triple (fun s => s = s0 /\ rows_ok s0) (reconcile_once out cfg clock) (fun _ => swept s0) (swept s0).
Proof using Hhonest Hstill.
  unfold reconcile_once.
  eapply triple_try with (R := fun r s => match r with Ok rows => known s0 rows s | Err _ => swept s0 s end);
    [|intros rows; apply reconcile_rows_triple|done].
  eapply triple_conseq with (P := fun s => rows_ok s /\ swept s0 s) (C := swept s0);
    [|by intros s [-> H]; split; [|apply swept_refl]|intros r s H; exact H|done].
  unfold list_stale_pending_withdrawals.
  eapply triple_bind with (R := fun r s => match r with Ok rows => known s0 rows s | Err _ => swept s0 s end);
    [|by intros [r|e]; apply triple_ret].
  apply triple_query; [apply sweep_rely_refl| | |naive_solver|naive_solver].
  - intros s s' [Hok Hs] [H1 H2]. split; [by apply H1|by eapply swept_trans].
  - intros now s [Hok Hs]. apply listed_known; [done..|]. intros t. rewrite !andb_true_iff, !bool_decide_eq_true.
    by intros [[H _] _].
Qed.

End Soundness.

(** ** Concrete sweeps *)

Definition ex_hash : string := "0123456789abcdef0123456789abcdef0123456789abcdef0123456789abcdef".

(** A pending withdrawal with the time bound 100 and one without a bound. *)
Definition ex_row : Transaction :=
  mkTransaction 3 1 None "withdrawal" "XLM" None 50 None None (Some ex_hash) None None None None "pending"
    None [("max_time", JNum 100)] 0.
Definition ex_state : State := mkState 9 [] [] [ex_row] [] [] [] [].

(** Horizon looks transactions up with [lookup] and reports the last close time as [close]. *)
Definition ex_net (lookup : nat -> ApiHorizon.http_response ApiHorizon.TxRecord)
    (ledger : nat -> ApiHorizon.http_response (list string)) (close : Z) : Outside :=
  ApiHorizon.mkOutside (fun _ _ => Float64.zero) (fun _ _ _ => ApiHorizon.NoResponse)
    (fun _ _ _ => ApiHorizon.NoResponse) (fun _ _ _ _ => ApiHorizon.NoResponse)
    (fun n _ _ => lookup n) (fun n _ _ => ledger n) (fun _ => Some close)
    (fun _ _ => HorizonIngest.mkTiming [] 1 2 3 []) (fun _ => (0, 0)).

Definition ex_world : World := mkWorld ex_state [mkTick NoFault 1000000000 (fun s => s)] (ApiHorizon.Horizon_new "https://h").

Definition expired_net : Outside :=
  ex_net (fun _ => ApiHorizon.Response 404 None) (fun _ => ApiHorizon.Response 200 (Some ["t"])) 200.
Definition expired_chain : list Ledger := [mkLedger 200 []].

Lemma expired_honest : honest expired_net "https://h" expired_chain (fun _ _ => 1%nat).
Proof.
  split.
  - repeat constructor.
  - by intros.
  - intros n k hash body h _ _ ok (l & Hl & Hin). apply list_elem_of_singleton in Hl as ->.
    by apply elem_of_nil in Hin.
  - intros n k status closed rest t h _ [= <- <- <-] [= <-]. by eexists.
Qed.

Lemma expired_still n k k' hash body status closed rest h : ApiHorizon.h_base_url h = "https://h" ->
  ApiHorizon.http_tx expired_net n (tx_url h hash) k = ApiHorizon.Response 404 body ->
  ApiHorizon.http_ledgers expired_net (S n) (ledgers_url h) k' = ApiHorizon.Response status (Some (closed :: rest)) ->
  forall ok, ~ applied (take 1%nat expired_chain) hash ok.
Proof. intros _ _ _ ok (l & Hl & Hin). apply list_elem_of_singleton in Hl as ->. by apply elem_of_nil in Hin. Qed.


(** The condition on the two requests is needed. Horizon has ingested one ledger when it
    is asked for the transaction and answers that it is missing; the transaction is then
    applied, in time; and two more ledgers are in when the reconciler asks for the last
    close time, which is past the bound: the row of a successful withdrawal is settled as
    failed. *)
Definition race_chain : list Ledger :=
  [mkLedger 95 []; mkLedger 98 [(ex_hash, true)]; mkLedger 101 []].
Definition race_net : Outside :=
  ex_net (fun n => match n with O => ApiHorizon.Response 404 None | _ => ApiHorizon.NoResponse end)
    (fun n => match n with O => ApiHorizon.NoResponse | _ => ApiHorizon.Response 200 (Some ["t"]) end) 101.

Example expiry_race :
  honest race_net "https://h" race_chain (fun n _ => match n with O => 1%nat | _ => 3%nat end) /\
  bounded_by race_chain ex_hash 100 /\ applied race_chain ex_hash true /\
  map tx_status (transactions (db (snd (reconcile_once race_net ReconcilerConfig_default (fun _ => 0) ex_world))))
    = ["failed"].
Proof.
  split_and!; [| | |vm_compute; reflexivity].
  - split.
    + repeat constructor; cbn; lia.
    + by intros [|n].
    + intros [|n] k hash body h _; [|done]. intros _ ok (l & Hl & Hin).
      apply list_elem_of_singleton in Hl as ->. by apply elem_of_nil in Hin.
    + intros [|n] k status closed rest t h _; [done|]. intros [= <- <- <-] [= <-]. by eexists.
  - intros l ok Hl Hin. unfold race_chain in Hl.
    repeat (apply elem_of_cons in Hl as [->|Hl]); [by apply elem_of_nil in Hin|cbn; lia|
      by apply elem_of_nil in Hin|by apply elem_of_nil in Hl].
  - exists (mkLedger 98 [(ex_hash, true)]). split; [right; left|left].
Qed.
End Reconciler.
