(* ===== verification/Crypto.v ===== *)
(** * Sealing of the seed at rest

    [crates/crypto/src/lib.rs]: a secret is encrypted with AES-256-GCM under a key that
    HKDF derives from the master key, a salt and a context; the context (with the owning
    account in scheme 2) is authenticated too. AES-GCM and HKDF are third-party code: the
    class [Aead] with the laws of authenticated encryption. The random salt and nonce of
    a seal are arguments. *)

From S2P Require Import Prelude.

Module Crypto.

Definition bytes := list Z.

Inductive CryptoError :=
| InvalidMasterKeyLength (expected actual : Z)
| InvalidNonceLength
| DecryptionFailed
| EncryptionFailed
| AccountIdentityRequired
| UnknownScheme (scheme : Z)
| SelfTestFailed (stage : string).

Definition MASTER_KEY_LEN : nat := 32.
Definition NONCE_LEN : nat := 12.
Definition SALT_LEN : nat := 32.
Definition SCHEME_V1 : Z := 1.
Definition SCHEME_V2 : Z := 2.

(** The nonce and the salt are arrays: a [SealedSeed] of the program is [sized]. *)
Record SealedSeed := mkSealedSeed {
  ciphertext : bytes;
  nonce : bytes;
  salt : bytes;
  scheme : Z
}.

Definition sized (s : SealedSeed) : Prop := length (nonce s) = NONCE_LEN /\ length (salt s) = SALT_LEN.

Definition set_scheme (v : Z) (s : SealedSeed) : SealedSeed :=
  mkSealedSeed (ciphertext s) (nonce s) (salt s) v.

Definition from_parts_with_scheme (ciphertext nonce salt : bytes) (scheme : Z) : result SealedSeed CryptoError :=
  if negb ((scheme =? SCHEME_V1) || (scheme =? SCHEME_V2)) then Err (UnknownScheme scheme) else
  if negb (length nonce =? NONCE_LEN)%nat then Err InvalidNonceLength else
  if negb (length salt =? SALT_LEN)%nat then Err InvalidNonceLength else
  Ok (mkSealedSeed ciphertext nonce salt scheme).

Definition from_parts (ciphertext nonce salt : bytes) : result SealedSeed CryptoError :=
  from_parts_with_scheme ciphertext nonce salt SCHEME_V1.

(** [hkdf_expand salt ikm info] is 32 bytes of output; [aes_encrypt key nonce aad m]. *)
Class Aead := {
  hkdf_expand : bytes -> bytes -> bytes -> option bytes;
  aes_encrypt : bytes -> bytes -> bytes -> bytes -> option bytes;
  aes_decrypt : bytes -> bytes -> bytes -> bytes -> option bytes
}.

(** For one key, nonce and associated data, decryption accepts the encryption of a
    message and nothing else. *)
Class AeadLaws `{Aead} := {
  decrypt_encrypt : forall k n aad m c, aes_encrypt k n aad m = Some c -> aes_decrypt k n aad c = Some m;
  encrypt_decrypt : forall k n aad m c, aes_decrypt k n aad c = Some m -> aes_encrypt k n aad m = Some c
}.

Section Sealing.
Context `{Aead}.

Definition derive_subkey (master_key salt context : bytes) : result bytes CryptoError :=
  ok_or (hkdf_expand salt master_key context) EncryptionFailed.

Definition seal (salt nonce master_key plaintext context : bytes) : result SealedSeed CryptoError :=
  let? subkey := derive_subkey master_key salt context in
  let? ciphertext := ok_or (aes_encrypt subkey nonce context plaintext) EncryptionFailed in
  Ok (mkSealedSeed ciphertext nonce salt SCHEME_V1).

Definition bound_context (context : bytes) (account_id : string) : bytes :=
  context ++ 0 :: bytes_of account_id.

Definition seal_with_account_id (salt nonce master_key plaintext context : bytes) (account_id : string) :
    result SealedSeed CryptoError :=
  if bool_decide (account_id = "") then Err AccountIdentityRequired else
  let? sealed := seal salt nonce master_key plaintext (bound_context context account_id) in
  Ok (set_scheme SCHEME_V2 sealed).

Definition open (master_key : bytes) (sealed : SealedSeed) (context : bytes) : result bytes CryptoError :=
  if scheme sealed =? SCHEME_V1 then
    if negb (length (nonce sealed) =? NONCE_LEN)%nat then Err InvalidNonceLength else
    let? subkey := derive_subkey master_key (salt sealed) context in
    ok_or (aes_decrypt subkey (nonce sealed) context (ciphertext sealed)) DecryptionFailed
  else if scheme sealed =? SCHEME_V2 then Err AccountIdentityRequired
  else Err (UnknownScheme (scheme sealed)).

Definition open_with_account_id (master_key : bytes) (sealed : SealedSeed) (context : bytes)
    (account_id : string) : result bytes CryptoError :=
  if negb (scheme sealed =? SCHEME_V2) then open master_key sealed context else
  if bool_decide (account_id = "") then Err AccountIdentityRequired else
  open master_key (set_scheme SCHEME_V1 sealed) (bound_context context account_id).

(** [new_salt] and [new_nonce] are the random bytes the new seal draws. *)
Definition reseal (new_salt new_nonce old_key new_key : bytes) (sealed : SealedSeed) (context : bytes) :
    result SealedSeed CryptoError :=
  let? plaintext :=
    if scheme sealed =? 0 then open old_key (set_scheme SCHEME_V1 sealed) context
    else open old_key sealed context in
  seal new_salt new_nonce new_key plaintext context.

Definition reseal_with_account_id (new_salt new_nonce old_key new_key : bytes) (sealed : SealedSeed)
    (context : bytes) (account_id : string) : result SealedSeed CryptoError :=
  let? plaintext := open_with_account_id old_key sealed context account_id in
  seal_with_account_id new_salt new_nonce new_key plaintext context account_id.

Definition SELF_TEST_CONTEXT : bytes := bytes_of "octo:self-test".
Definition FOREIGN_CONTEXT : bytes := bytes_of "octo:self-test:foreign".
Definition CANARY_LEN : nat := 32.

Definition all_zero (b : bytes) : bool := forallb (fun x => x =? 0) b.

(** [draws]: the two canaries, unless the entropy source fails. *)
Definition self_test (draws : option (bytes * bytes)) (salt nonce master_key : bytes) : result unit CryptoError :=
  if all_zero master_key then Err (SelfTestFailed "master key is all zero bytes") else
  match draws with
  | None => Err (SelfTestFailed "entropy source unavailable")
  | Some (canary, probe) =>
      if bool_decide (canary = probe) || all_zero canary
      then Err (SelfTestFailed "entropy source returned degenerate output") else
      match seal salt nonce master_key canary SELF_TEST_CONTEXT with
      | Err _ => Err (SelfTestFailed "seal failed")
      | Ok sealed =>
          if (CANARY_LEN <=? length (ciphertext sealed))%nat
             && bool_decide (take CANARY_LEN (ciphertext sealed) = canary)
          then Err (SelfTestFailed "ciphertext equals plaintext") else
          match open master_key sealed SELF_TEST_CONTEXT with
          | Err _ => Err (SelfTestFailed "open failed")
          | Ok opened =>
              if negb (bool_decide (opened = canary)) then Err (SelfTestFailed "round-trip mismatch") else
              match open master_key sealed FOREIGN_CONTEXT with
              | Ok _ => Err (SelfTestFailed "foreign context was accepted")
              | Err _ => Ok tt
              end
          end
      end
  end.

Definition master_key_from_slice (b : bytes) : result bytes CryptoError :=
  if (length b =? MASTER_KEY_LEN)%nat then Ok b
  else Err (InvalidMasterKeyLength (Z.of_nat MASTER_KEY_LEN) (Z.of_nat (length b))).
End Sealing.

(** ** Opening is the inverse of sealing *)

Section Laws.
Context `{AeadLaws}.

Lemma seal_scheme sa no mk m ctx s :
  seal sa no mk m ctx = Ok s -> scheme s = SCHEME_V1 /\ nonce s = no /\ salt s = sa.
Proof.
  unfold seal, derive_subkey. destruct (hkdf_expand sa mk ctx) as [k|]; [|done]. cbn.
  destruct (aes_encrypt k no ctx m) as [c|]; [|done]. cbn. by intros [= <-].
Qed.

Lemma open_spec mk s ctx m :
  sized s -> (open mk s ctx = Ok m <-> seal (salt s) (nonce s) mk m ctx = Ok s).
Proof.
  intros [Hn _]. split.
  - unfold open, seal. destruct (Z.eqb_spec (scheme s) SCHEME_V1) as [Hs|]; [|by case_match].
    rewrite Hn, Nat.eqb_refl. cbn [negb]. unfold derive_subkey.
    destruct (hkdf_expand (salt s) mk ctx) as [k|]; [|done]. cbn.
    destruct (aes_decrypt k (nonce s) ctx (ciphertext s)) as [m'|] eqn:E; [|done]. cbn. intros [= ->].
    rewrite (encrypt_decrypt _ _ _ _ _ E). cbn. by destruct s; cbn in *; subst.
  - intros E. destruct (seal_scheme _ _ _ _ _ _ E) as (Hs & _ & _). revert E.
    unfold open, seal. rewrite Hs, Hn. cbn. unfold derive_subkey.
    destruct (hkdf_expand (salt s) mk ctx) as [k|]; [|done]. cbn.
    destruct (aes_encrypt k (nonce s) ctx m) as [c|] eqn:Ec; [|done]. cbn. intros [= Es].
    rewrite <-Es at 2. cbn. by rewrite (decrypt_encrypt _ _ _ _ _ Ec).
Qed.

Lemma set_scheme_id s v : scheme s = v -> set_scheme v s = s.
Proof. intros <-. by destruct s. Qed.

Lemma set_scheme_twice s v v' : set_scheme v (set_scheme v' s) = set_scheme v s.
Proof. done. Qed.

Lemma seal_with_account_id_spec sa no mk m ctx a s :
  seal_with_account_id sa no mk m ctx a = Ok s <->
  a <> "" /\ scheme s = SCHEME_V2 /\ seal sa no mk m (bound_context ctx a) = Ok (set_scheme SCHEME_V1 s).
Proof.
  unfold seal_with_account_id. case_bool_decide as Ha; [naive_solver|]. split.
  - destruct (seal _ _ _ _ _) as [s0|e] eqn:E; [|done]. cbn. intros [= <-]. split_and!; [done..|].
    rewrite set_scheme_twice. by rewrite set_scheme_id by apply (seal_scheme _ _ _ _ _ _ E).
  - intros (_ & Hs & ->). cbn. by rewrite set_scheme_twice, set_scheme_id.
Qed.

Lemma open_with_account_id_spec mk s ctx a m :
  sized s ->
  (open_with_account_id mk s ctx a = Ok m <->
   seal (salt s) (nonce s) mk m ctx = Ok s \/
   seal_with_account_id (salt s) (nonce s) mk m ctx a = Ok s).
Proof.
  intros Hs. rewrite seal_with_account_id_spec. unfold open_with_account_id.
  destruct (Z.eqb_spec (scheme s) SCHEME_V2) as [H2|H2]; cbn [negb].
  - assert (Hno : seal (salt s) (nonce s) mk m ctx <> Ok s).
    { intros (H1 & _)%seal_scheme. rewrite H1 in H2. done. }
    pose proof (open_spec mk (set_scheme SCHEME_V1 s) (bound_context ctx a) m Hs) as Ho. cbn in Ho.
    case_bool_decide; [naive_solver|]. rewrite Ho. naive_solver.
  - rewrite open_spec by done. naive_solver.
Qed.

(** A record opens to exactly what was sealed into it. With the owner's account at
    hand, a stored record opens to [m] under a master key and a context if and only if
    sealing [m] with the record's salt and nonce, plainly or bound to that account,
    gives the record back byte for byte. *)
Lemma open_exact (master_key : bytes) (s : SealedSeed) (context : bytes) (account_id : string) (m : bytes) :
  sized s ->
  (open_with_account_id master_key s context account_id = Ok m <->
   seal (salt s) (nonce s) master_key m context = Ok s \/
   seal_with_account_id (salt s) (nonce s) master_key m context account_id = Ok s).
Proof. apply open_with_account_id_spec. Qed.

Lemma if_apply_open key s context :
  open key (if scheme s =? 0 then set_scheme SCHEME_V1 s else s) context =
  if scheme s =? 0 then open key (set_scheme SCHEME_V1 s) context else open key s context.
Proof. by case_match. Qed.

(** Key rotation loses nothing. When [reseal] (which also takes records with the old
    scheme tag 0) or [reseal_with_account_id] succeeds, the new record carries the
    fresh salt and nonce and opens under the new key, in the same context and for the
    same account, to what the old record held. *)
Lemma reseal_keeps (new_salt new_nonce old_key new_key : bytes) (s s' : SealedSeed) (context : bytes)
    (account_id : string) :
  length new_nonce = NONCE_LEN -> length new_salt = SALT_LEN ->
  (reseal new_salt new_nonce old_key new_key s context = Ok s' ->
   nonce s' = new_nonce /\ salt s' = new_salt /\ scheme s' = SCHEME_V1 /\
   exists m, open old_key (if scheme s =? 0 then set_scheme SCHEME_V1 s else s) context = Ok m /\
             open new_key s' context = Ok m) /\
  (reseal_with_account_id new_salt new_nonce old_key new_key s context account_id = Ok s' ->
   nonce s' = new_nonce /\ salt s' = new_salt /\ scheme s' = SCHEME_V2 /\
   exists m, open_with_account_id old_key s context account_id = Ok m /\
             open_with_account_id new_key s' context account_id = Ok m).
Proof.
  intros Hn Hsa. split.
  - unfold reseal. rewrite <-(if_apply_open old_key s context).
    destruct (open old_key _ context) as [m|e]; [|done]. cbn. intros E.
    destruct (seal_scheme _ _ _ _ _ _ E) as (H1 & H2 & H3). split_and!; [done..|]. exists m.
    split; [done|]. apply open_spec; [by split; congruence|]. by rewrite H2, H3.
  - unfold reseal_with_account_id. destruct (open_with_account_id old_key s context account_id) as [m|e]; [|done].
    cbn. intros E. pose proof E as (_ & H1 & (_ & H2 & H3)%seal_scheme)%seal_with_account_id_spec.
    cbn in H2, H3. split_and!; [done..|]. exists m. split; [done|].
    apply open_with_account_id_spec; [by split; congruence|]. right. by rewrite H2, H3.
Qed.

(** *** Binding to the context and the account *)

Lemma split_at_zero (c c' r r' : bytes) : 0 ∉ c -> 0 ∉ c' -> c ++ 0 :: r = c' ++ 0 :: r' -> c = c' /\ r = r'.
Proof.
  revert c'. induction c as [|x c IH]; intros [|y c'] Hc Hc' E; cbn in E; simplify_eq.
  - done.
  - exfalso. apply Hc'. by left.
  - exfalso. apply Hc. by left.
  - destruct (IH c') as [-> ->]; [set_solver..|done|done].
Qed.

Lemma bound_context_inj c c' a a' :
  0 ∉ c -> 0 ∉ c' -> bound_context c a = bound_context c' a' -> c = c' /\ a = a'.
Proof.
  intros Hc Hc' E. destruct (split_at_zero _ _ _ _ Hc Hc' E) as [-> Ha]. split; [done|].
  by rewrite <-(str_of_bytes_of a), Ha, str_of_bytes_of.
Qed.

(** Associated data is authenticated: a ciphertext is accepted with no other. *)
Hypothesis authentic : forall k n aad m c k' n' aad' m',
  aes_encrypt k n aad m = Some c -> aes_decrypt k' n' aad' c = Some m' -> aad' = aad.

Lemma seal_open_context sa no mk m ctx s mk' v ctx' m' :
  seal sa no mk m ctx = Ok s -> open mk' (set_scheme v s) ctx' = Ok m' -> v = SCHEME_V1 /\ ctx' = ctx.
Proof using authentic.
  unfold seal, open, derive_subkey. destruct (hkdf_expand sa mk ctx) as [k|]; [|done]. cbn.
  destruct (aes_encrypt k no ctx m) as [c|] eqn:Ec; [|done]. cbn. intros [= <-]. cbn.
  destruct (Z.eqb_spec v SCHEME_V1); [|by case_match]. destruct (negb _); [done|].
  destruct (hkdf_expand sa mk' ctx') as [k'|]; [|done]. cbn.
  destruct (aes_decrypt k' no ctx' c) as [m0|] eqn:Ed; [|done]. intros _. by eauto.
Qed.

(** A record sealed for an account is of no use anywhere else. Whatever key is tried
    and even if the scheme tag of the row is changed, it opens only as scheme 2, in the
    context it was sealed in and for the account it was sealed for (contexts without NUL
    bytes, as those of the networks are). *)
Lemma account_binding (sa no mk m ctx : bytes) (a : string) (s : SealedSeed)
    (mk' : bytes) (v : Z) (ctx' : bytes) (a' : string) (m' : bytes) :
  0 ∉ ctx -> 0 ∉ ctx' ->
  seal_with_account_id sa no mk m ctx a = Ok s ->
  open_with_account_id mk' (set_scheme v s) ctx' a' = Ok m' ->
  v = SCHEME_V2 /\ ctx' = ctx /\ a' = a.
Proof using All.
  intros Hc Hc' (_ & _ & E)%seal_with_account_id_spec. unfold open_with_account_id. cbn [scheme set_scheme].
  destruct (Z.eqb_spec v SCHEME_V2) as [->|Hv]; cbn [negb].
  - case_bool_decide; [done|]. intros (_ & Hb)%(seal_open_context _ _ _ _ _ _ _ _ _ _ E).
    destruct (bound_context_inj _ _ _ _ Hc' Hc Hb) as [-> ->]. done.
  - intros (_ & ->)%(seal_open_context _ _ _ _ _ _ _ _ _ _ E). exfalso. apply Hc'.
    unfold bound_context. set_solver.
Qed.

(** The self-test does not blame the cipher: when the library is sound, neither the round
    trip nor the opening in a foreign context fails it. *)
Lemma self_test_sound canary probe sa no mk :
  length no = NONCE_LEN -> length sa = SALT_LEN ->
  self_test (Some (canary, probe)) sa no mk <> Err (SelfTestFailed "open failed") /\
  self_test (Some (canary, probe)) sa no mk <> Err (SelfTestFailed "round-trip mismatch") /\
  self_test (Some (canary, probe)) sa no mk <> Err (SelfTestFailed "foreign context was accepted").
Proof using All.
  intros Hn Hsa. unfold self_test. destruct (all_zero mk); [by split_and!|].
  destruct (_ || _); [by split_and!|].
  destruct (seal sa no mk canary SELF_TEST_CONTEXT) as [s|] eqn:E; [|by split_and!].
  destruct (_ && _); [by split_and!|]. destruct (seal_scheme _ _ _ _ _ _ E) as (H1 & H2 & H3).
  assert (Ho : open mk s SELF_TEST_CONTEXT = Ok canary).
  { apply open_spec; [by split; congruence|]. by rewrite H2, H3. }
  rewrite Ho, bool_decide_true by done. cbn [negb].
  destruct (open mk s FOREIGN_CONTEXT) as [m'|] eqn:Ef; [|by split_and!]. exfalso.
  rewrite <-(set_scheme_id s SCHEME_V1) in Ef by done.
  by destruct (seal_open_context _ _ _ _ _ _ _ _ _ _ E Ef) as [_ ?].
Qed.
End Laws.

(** ** An instance *)

Module Toy.

#[export] Instance toy_aead : Aead := {|
  hkdf_expand salt ikm info := Some (salt ++ ikm);
  aes_encrypt k n aad m := Some (Z.of_nat (length aad) :: aad ++ m);
  aes_decrypt k n aad c :=
    match c with
    | l :: r =>
        if bool_decide (l = Z.of_nat (length aad)) && bool_decide (take (length aad) r = aad)
        then Some (drop (length aad) r) else None
    | [] => None
    end
|}.

Lemma toy_decrypt k n aad (c m : bytes) :
  aes_decrypt k n aad c = Some m <-> c = Z.of_nat (length aad) :: aad ++ m.
Proof.
  cbn. destruct c as [|l r]; [done|]. split.
  - case_match eqn:E; [|done]. apply andb_prop in E as [->%bool_decide_eq_true Ht%bool_decide_eq_true].
    intros [= <-]. f_equal. rewrite <-(take_drop (length aad) r) at 1. by rewrite Ht.
  - intros [= -> ->]. rewrite take_app_length, drop_app_length, !bool_decide_true; done.
Qed.

#[export] Instance toy_laws : AeadLaws.
Proof.
  split.
  - intros k n aad m c [= <-]. by apply (toy_decrypt k n aad).
  - intros k n aad m c E. apply (toy_decrypt k n aad) in E as ->. done.
Qed.

Lemma toy_authentic (k n aad m c k' n' aad' m' : bytes) :
  aes_encrypt k n aad m = Some c -> aes_decrypt k' n' aad' c = Some m' -> aad' = aad.
Proof.
  intros E0 E. injection E0 as <-. apply (toy_decrypt k' n' aad') in E. injection E as Hl E.
  apply app_inj_1 in E as [-> _]; [done|lia].
Qed.
End Toy.
Import Toy.

Definition ex_salt : bytes := repeat 5 32.
Definition ex_nonce : bytes := repeat 6 12.

Example tampered_account_refused :
  open_with_account_id [7] (mkSealedSeed [3; 99; 0; 71; 42] ex_nonce ex_salt 2) [99] "H" = Err DecryptionFailed.
Proof. vm_compute. reflexivity. Qed.
End Crypto.
