(* ===== verification/Signer.v ===== *)
(** * Signing in wallet-core

    [crates/wallet-core/src/signer.rs] and [derive.rs]: networks, the account key derived
    from a sealed seed, strict decoding of an envelope, its hash, and the fee bump that
    sponsors a user's transaction.

    XDR, base64, SHA-256, ed25519 and SLIP-0010 are third-party code: the class [Codec].
    The types of the decoded envelope have those fields that the code reads. *)

From S2P Require Import Prelude WalletAddress Crypto.

Module Signer.
Import WalletAddress.
Import Crypto (bytes, SealedSeed, Aead).

(** ** The decoded envelope *)

Inductive MuxedAccount :=
| Ed25519 (k : key)
| MuxedEd25519 (id : Z) (k : key).

(** The code of a credit asset is its text, padded with NUL characters. *)
Inductive Asset :=
| Native
| CreditAlphanum4 (asset_code : string) (issuer : key)
| CreditAlphanum12 (asset_code : string) (issuer : key).

Record PaymentOp := mkPaymentOp { p_destination : MuxedAccount; p_asset : Asset; p_amount : Z }.

Inductive OperationBody :=
| CreateAccount | Payment (p : PaymentOp) | PathPaymentStrictReceive (destination : MuxedAccount)
| ManageSellOffer | CreatePassiveSellOffer | SetOptions | ChangeTrust | AllowTrust | AccountMerge
| Inflation | ManageData | BumpSequence | ManageBuyOffer
| PathPaymentStrictSend (destination : MuxedAccount) | CreateClaimableBalance
| ClaimClaimableBalance | BeginSponsoringFutureReserves | EndSponsoringFutureReserves
| RevokeSponsorship | Clawback | ClawbackClaimableBalance | SetTrustLineFlags
| LiquidityPoolDeposit | LiquidityPoolWithdraw | InvokeHostFunction | ExtendFootprintTtl
| RestoreFootprint.

Record Operation := mkOperation { op_source_account : option MuxedAccount; op_body : OperationBody }.

(** Time bounds by their [max_time]. *)
Inductive Preconditions :=
| NoConditions
| Time (max_time : Z)
| V2 (time_bounds : option Z).

Record Transaction := mkTransaction {
  t_source_account : MuxedAccount;
  t_seq_num : Z;
  t_cond : Preconditions;
  t_operations : list Operation
}.

(** A signature with its hint. *)
Record DecoratedSignature := mkDecoratedSignature { ds_hint : bytes; ds_signature : bytes }.

Record TransactionV1Envelope := mkTransactionV1Envelope {
  v1_tx :> Transaction;
  t_signatures : list DecoratedSignature
}.

Record FeeBumpTransaction := mkFeeBumpTransaction {
  fb_fee_source : MuxedAccount;
  fb_fee : Z;
  fb_inner_tx : TransactionV1Envelope
}.

Record FeeBumpTransactionEnvelope := mkFeeBumpTransactionEnvelope {
  fbe_tx : FeeBumpTransaction;
  fbe_signatures : list DecoratedSignature
}.

Inductive TransactionEnvelope :=
| TxV0
| Tx (v1 : TransactionV1Envelope)
| TxFeeBump (e : FeeBumpTransactionEnvelope).

(** What is signed: [TransactionSignaturePayloadTaggedTransaction]. *)
Inductive TaggedTransaction :=
| TagTx (tx : Transaction)
| TagTxFeeBump (tx : FeeBumpTransaction).

#[export] Instance MuxedAccount_eq_dec : EqDecision MuxedAccount.
Proof. solve_decision. Defined.
#[export] Instance Asset_eq_dec : EqDecision Asset.
Proof. solve_decision. Defined.
#[export] Instance PaymentOp_eq_dec : EqDecision PaymentOp.
Proof. solve_decision. Defined.
#[export] Instance OperationBody_eq_dec : EqDecision OperationBody.
Proof. solve_decision. Defined.
#[export] Instance Operation_eq_dec : EqDecision Operation.
Proof. solve_decision. Defined.
#[export] Instance Preconditions_eq_dec : EqDecision Preconditions.
Proof. solve_decision. Defined.
#[export] Instance Transaction_eq_dec : EqDecision Transaction.
Proof. solve_decision. Defined.
#[export] Instance DecoratedSignature_eq_dec : EqDecision DecoratedSignature.
Proof. solve_decision. Defined.
#[export] Instance TransactionV1Envelope_eq_dec : EqDecision TransactionV1Envelope.
Proof. solve_decision. Defined.
#[export] Instance FeeBumpTransaction_eq_dec : EqDecision FeeBumpTransaction.
Proof. solve_decision. Defined.
#[export] Instance FeeBumpTransactionEnvelope_eq_dec : EqDecision FeeBumpTransactionEnvelope.
Proof. solve_decision. Defined.
#[export] Instance TransactionEnvelope_eq_dec : EqDecision TransactionEnvelope.
Proof. solve_decision. Defined.

Inductive StellarNetwork := Public | Testnet | Standalone.

#[export] Instance StellarNetwork_eq_dec : EqDecision StellarNetwork.
Proof. solve_decision. Defined.

(** ** Third-party code *)

Class Codec := {
  (** [TransactionEnvelope::from_xdr_base64] *)
  from_xdr_base64 : string -> option TransactionEnvelope;
  base64_decode : string -> option bytes;
  from_xdr : bytes -> option TransactionEnvelope;
  xdr_bytes : TransactionEnvelope -> option bytes;
  xdr_base64 : TransactionEnvelope -> option string;
  (** the bytes of a [TransactionSignaturePayload] *)
  payload_xdr : bytes -> TaggedTransaction -> option bytes;
  sha256 : bytes -> bytes;
  (** [network.to_base().network_id()] *)
  network_id : StellarNetwork -> bytes;
  verifying_key : bytes -> key;
  ed25519_sign : bytes -> bytes -> bytes;
  ed25519_verify : key -> bytes -> bytes -> bool;
  derive_ed25519_private_key : bytes -> list Z -> bytes
}.

Class CodecLaws `{Codec} := {
  (** what is printed is read back, and leaves no bytes over *)
  xdr_base64_decode : forall e s, xdr_base64 e = Some s ->
    trim s = s /\ exists raw, base64_decode s = Some raw /\ from_xdr raw = Some e /\ xdr_bytes e = Some raw;
  (** the two readers of an envelope agree where both accept *)
  xdr_readers_agree : forall s raw e e', from_xdr_base64 s = Some e -> base64_decode (trim s) = Some raw ->
    from_xdr raw = Some e' -> e = e';
  ed25519_sign_verify : forall sk m, ed25519_verify (verifying_key sk) m (ed25519_sign sk m) = true
}.

(** ** Networks *)

Definition passphrase (n : StellarNetwork) : string :=
  match n with
  | Public => "Public Global Stellar Network ; September 2015"
  | Testnet => "Test SDF Network ; September 2015"
  | Standalone => "Standalone Network ; February 2017"
  end.

Definition crypto_context (n : StellarNetwork) : bytes :=
  bytes_of match n with
           | Public => "octo:mainnet"
           | Testnet => "octo:testnet"
           | Standalone => "octo:standalone"
           end.

Definition as_str (n : StellarNetwork) : string :=
  match n with Public => "mainnet" | Testnet => "testnet" | Standalone => "standalone" end.

Definition parse (s : string) : option StellarNetwork :=
  if bool_decide (s = "mainnet") || bool_decide (s = "public") then Some Public
  else if bool_decide (s = "testnet") || bool_decide (s = "test") then Some Testnet
  else if bool_decide (s = "standalone") then Some Standalone
  else None.

(** ** Keys *)

Definition STELLAR_COIN_TYPE : Z := 148.
Definition BIP44_PURPOSE : Z := 44.
Definition HARDENED : Z := 0x80000000.
Definition BIP39_SEED_LEN : nat := 64.
Definition MIN_BASE_FEE : Z := 100.

Record FeeBumpRequest := mkFeeBumpRequest { inner_xdr : string; max_base_fee_stroops : Z }.

Record SignedPayment := mkSignedPayment { envelope_xdr : string; source_account : string }.

Section Signing.
Context {strkey : Strkey} {codec : Codec} {aead : Aead}.

Definition WalletSeed_from_bytes (b : bytes) : result bytes WalletError :=
  if negb (length b =? BIP39_SEED_LEN)%nat then Err InvalidSeedLength else Ok b.

Definition derivation_path (index : Z) : list Z :=
  [Z.lor BIP44_PURPOSE HARDENED; Z.lor STELLAR_COIN_TYPE HARDENED; Z.lor index HARDENED].

Definition derive_ed25519_secret (seed : bytes) (index : Z) : result bytes WalletError :=
  if HARDENED <=? index then Err InvalidDerivationPath
  else Ok (derive_ed25519_private_key seed (derivation_path index)).

Definition derived_secret_from_sealed (master_key : bytes) (sealed : SealedSeed) (network : StellarNetwork)
    (account_index : Z) : result bytes WalletError :=
  let? seed_bytes := map_err (fun _ => SeedDecryption) (Crypto.open master_key sealed (crypto_context network)) in
  let? seed := WalletSeed_from_bytes seed_bytes in
  derive_ed25519_secret seed account_index.

Definition validate_change_trust (asset_code asset_issuer : string) (limit_stroops : option Z) :
    result unit WalletError :=
  if negb (is_valid_asset_code asset_code) then Err InvalidAssetCode else
  if negb (is_valid_account asset_issuer) then Err InvalidAddress else
  if match limit_stroops with Some l => l <? 0 | None => false end then Err InvalidAmount else
  Ok tt.

(** ** Envelopes *)

Definition decode_envelope_strict (b64 : string) : result TransactionEnvelope WalletError :=
  let? raw := ok_or (base64_decode (trim b64)) InvalidXdr in
  let? env := ok_or (from_xdr raw) InvalidXdr in
  let? encoded := ok_or (xdr_bytes env) InvalidXdr in
  if negb (length encoded =? length raw)%nat then Err InvalidXdr else Ok env.

Definition parse_inner_v1 (inner_xdr : string) : result TransactionV1Envelope WalletError :=
  let? env := decode_envelope_strict inner_xdr in
  match env with Tx v1 => Ok v1 | _ => Err InvalidXdr end.

Definition inner_operation_count (inner_xdr : string) : result Z WalletError :=
  let? v1 := parse_inner_v1 inner_xdr in Ok (Z.of_nat (length (t_operations v1))).

Definition inner_sequence_number (inner_xdr : string) : result Z WalletError :=
  let? v1 := parse_inner_v1 inner_xdr in Ok (t_seq_num v1).

Definition network_hash (network : StellarNetwork) : result bytes WalletError :=
  if (length (network_id network) =? 32)%nat then Ok (network_id network) else Err Signing.

Definition signing_hash (network : StellarNetwork) (tx : TaggedTransaction) : result bytes WalletError :=
  let? network_hash := network_hash network in
  let? payload := ok_or (payload_xdr network_hash tx) Signing in
  Ok (sha256 payload).

Definition compute_inner_tx_hash (inner_xdr : string) (network : StellarNetwork) : result bytes WalletError :=
  let? v1 := parse_inner_v1 inner_xdr in
  signing_hash network (TagTx v1).

(** [pk_bytes[28..32]]; a key is 32 bytes. *)
Definition signature_hint (pk : key) : bytes := drop 28 pk.

Definition sign_fee_bump (master_key : bytes) (sealed : SealedSeed) (network : StellarNetwork)
    (account_index : Z) (req : FeeBumpRequest) : result SignedPayment WalletError :=
  if max_base_fee_stroops req <? MIN_BASE_FEE then Err InvalidAmount else
  let? inner_v1 := parse_inner_v1 (inner_xdr req) in
  let? secret := derived_secret_from_sealed master_key sealed network account_index in
  let pk := verifying_key secret in
  let fee_bump_tx := mkFeeBumpTransaction (Ed25519 pk) (max_base_fee_stroops req) inner_v1 in
  let? hash := signing_hash network (TagTxFeeBump fee_bump_tx) in
  let decorated := mkDecoratedSignature (signature_hint pk) (ed25519_sign secret hash) in
  let? envelope_xdr :=
    ok_or (xdr_base64 (TxFeeBump (mkFeeBumpTransactionEnvelope fee_bump_tx [decorated]))) Signing in
  Ok (mkSignedPayment envelope_xdr (pk_display pk)).
End Signing.

(** [hex::encode] *)
Definition hex_digit (d : Z) : ascii := ascii_of_nat (Z.to_nat (if d <? 10 then 48 + d else 87 + d)).

Fixpoint hex_encode (b : bytes) : string :=
  match b with
  | [] => ""
  | x :: r => String (hex_digit (x / 16)) (String (hex_digit (x mod 16)) (hex_encode r))
  end.

(** ** What a signed fee bump is *)

Section Faithful.
Context {strkey : Strkey} {codec : Codec} {laws : @CodecLaws codec} {aead : Aead}.

Lemma decode_printed e s : xdr_base64 e = Some s -> decode_envelope_strict s = Ok e.
Proof.
  intros Hs. destruct (xdr_base64_decode _ _ Hs) as (Ht & raw & Hb & Hx & He).
  unfold decode_envelope_strict. rewrite Ht, Hb. cbn. rewrite Hx. cbn. rewrite He. cbn.
  by rewrite Nat.eqb_refl.
Qed.

(** Where the validators and the strict reader both accept an envelope, it is the same. *)
Lemma readers_agree s e v1 : from_xdr_base64 s = Some e -> parse_inner_v1 s = Ok v1 -> e = Tx v1.
Proof.
  unfold parse_inner_v1, decode_envelope_strict. intros He.
  destruct (base64_decode (trim s)) as [raw|] eqn:Er; [|done]. cbn.
  destruct (from_xdr raw) as [e'|] eqn:Ee; [|done]. cbn. rewrite (xdr_readers_agree _ _ _ _ He Er Ee).
  destruct (xdr_bytes e'); [|done]. cbn. case_match; [done|]. cbn. destruct e'; try done. congruence.
Qed.

(** The fee bump of [v1] for [fee], signed with [secret] on the network. *)
Definition signed_bump (network : StellarNetwork) (secret : bytes) (fee : Z) (v1 : TransactionV1Envelope)
    (e : FeeBumpTransactionEnvelope) : Prop :=
  fbe_tx e = mkFeeBumpTransaction (Ed25519 (verifying_key secret)) fee v1 /\
  exists hash sig, signing_hash network (TagTxFeeBump (fbe_tx e)) = Ok hash /\ fbe_signatures e = [sig] /\
    ed25519_verify (verifying_key secret) hash (ds_signature sig) = true.

Lemma sign_fee_bump_spec mk sealed network idx req sp :
  sign_fee_bump mk sealed network idx req = Ok sp ->
  MIN_BASE_FEE <= max_base_fee_stroops req /\
  exists v1 secret e, parse_inner_v1 (inner_xdr req) = Ok v1 /\
    derived_secret_from_sealed mk sealed network idx = Ok secret /\
    source_account sp = pk_display (verifying_key secret) /\
    decode_envelope_strict (envelope_xdr sp) = Ok (TxFeeBump e) /\
    signed_bump network secret (max_base_fee_stroops req) v1 e.
Proof.
  unfold sign_fee_bump. destruct (Z.ltb_spec (max_base_fee_stroops req) MIN_BASE_FEE); [done|].
  intros E. split; [done|]. revert E.
  destruct (parse_inner_v1 (inner_xdr req)) as [v1|]; [|done]. cbn [result_bind].
  destruct (derived_secret_from_sealed mk sealed network idx) as [secret|]; [|done]. cbn [result_bind].
  set (tx := mkFeeBumpTransaction _ _ _). destruct (signing_hash network (TagTxFeeBump tx)) as [hash|] eqn:Eh; [|done].
  cbn [result_bind]. destruct (xdr_base64 _) as [text|] eqn:Ex; [|done]. cbn. intros [= <-]. cbn.
  exists v1, secret. eexists. split_and!; [done..|by apply decode_printed|]. split; [done|].
  exists hash. eexists. split_and!; [done..|]. apply ed25519_sign_verify.
Qed.

(** C38: Sponsoring signs the user's transaction as it is, for the agreed fee. A fee bump
    that [sign_fee_bump] produces decodes to an envelope whose inner transaction is the
    user's, signatures included, whose fee is the requested one and at least the
    network's minimum, whose fee source is the key derived from the sealed seed, and
    whose one signature verifies under that key for this network's signing payload. *)
Theorem fee_bump_faithful (mk : bytes) (sealed : SealedSeed) (network : StellarNetwork) (idx : Z)
    (req : FeeBumpRequest) (sp : SignedPayment) :
  sign_fee_bump mk sealed network idx req = Ok sp ->
  MIN_BASE_FEE <= max_base_fee_stroops req /\
  exists v1 secret e, parse_inner_v1 (inner_xdr req) = Ok v1 /\
    derived_secret_from_sealed mk sealed network idx = Ok secret /\
    source_account sp = pk_display (verifying_key secret) /\
    decode_envelope_strict (envelope_xdr sp) = Ok (TxFeeBump e) /\
    signed_bump network secret (max_base_fee_stroops req) v1 e.
Proof. apply sign_fee_bump_spec. Qed.
End Faithful.

(** The contexts of the networks are those [Crypto.account_binding] is about, and differ. *)
Lemma crypto_context_zero_free n : 0 ∉ crypto_context n.
Proof. refine (bool_decide_unpack _ _). destruct n; vm_compute; exact I. Qed.

Lemma crypto_context_inj n n' : crypto_context n = crypto_context n' -> n = n'.
Proof. destruct n, n'; vm_compute; congruence. Qed.

Lemma parse_as_str n : parse (as_str n) = Some n.
Proof. by destruct n. Qed.

(** Different accounts of a seed have different paths. *)
Lemma derivation_path_inj i j :
  0 <= i < HARDENED -> 0 <= j < HARDENED -> derivation_path i = derivation_path j -> i = j.
Proof.
  assert (Hadd : forall k, 0 <= k < HARDENED -> Z.lor k HARDENED = k + HARDENED).
  { intros k Hk. rewrite <-Z.lxor_lor, <-Z.add_nocarry_lxor; try done.
    all: apply (Z.bits_inj' _ 0); intros b Hb; rewrite Z.land_spec, Z.bits_0;
      change HARDENED with (2 ^ 31); rewrite Z.pow2_bits_eqb by lia;
      destruct (Z.eqb_spec 31 b) as [<-|]; [|apply andb_false_r];
      rewrite Z.bits_above_log2; [done|lia|]; change HARDENED with (2 ^ 31) in Hk;
      destruct (Z.eq_dec k 0) as [->|]; [done|]; apply Z.log2_lt_pow2; lia. }
  intros Hi Hj. unfold derivation_path. rewrite !Hadd by done. intros [= E]. lia.
Qed.

(** ** A concrete codec, to evaluate the definitions on

    It knows the envelope of one transaction and its fee bump for 200 stroops. *)
Module Toy.

Definition toy_secret : bytes := repeat 3 32.

Definition toy_bump (v1 : TransactionV1Envelope) : FeeBumpTransactionEnvelope :=
  mkFeeBumpTransactionEnvelope (mkFeeBumpTransaction (Ed25519 toy_secret) 200 v1)
    [mkDecoratedSignature (repeat 3 4) [7]].

Definition toy_text (v1 : TransactionV1Envelope) (e : TransactionEnvelope) : option string :=
  if bool_decide (e = Tx v1) then Some "xdr"
  else if bool_decide (e = TxFeeBump (toy_bump v1)) then Some "bump"
  else None.

Definition toy_read (v1 : TransactionV1Envelope) (raw : bytes) : option TransactionEnvelope :=
  if bool_decide (raw = bytes_of "xdr") then Some (Tx v1)
  else if bool_decide (raw = bytes_of "bump") then Some (TxFeeBump (toy_bump v1))
  else None.

Definition toy_codec (v1 : TransactionV1Envelope) : Codec := {|
  from_xdr_base64 s := toy_read v1 (bytes_of s);
  base64_decode s := Some (bytes_of s);
  from_xdr := toy_read v1;
  xdr_bytes e := option_map bytes_of (toy_text v1 e);
  xdr_base64 := toy_text v1;
  payload_xdr h tx := Some [match tx with TagTx _ => 6 | TagTxFeeBump _ => 7 end];
  sha256 b := b;
  network_id n := repeat 9 32;
  verifying_key sk := sk;
  ed25519_sign sk m := m;
  ed25519_verify pk m sig := bool_decide (sig = m);
  derive_ed25519_private_key seed path := toy_secret
|}.

Lemma toy_read_text v1 s e :
  toy_read v1 (bytes_of s) = Some e -> trim s = s.
Proof.
  assert (Hinj : forall t, bytes_of s = bytes_of t -> s = t).
  { intros t E. by rewrite <-(str_of_bytes_of s), E, str_of_bytes_of. }
  unfold toy_read. case_bool_decide as E1; [by rewrite (Hinj _ E1)|].
  case_bool_decide as E2; [by rewrite (Hinj _ E2)|done].
Qed.

Lemma toy_codec_laws v1 : @CodecLaws (toy_codec v1).
Proof.
  split; cbn.
  - intros e s Hs. assert (Hs' := Hs). unfold toy_text in Hs'.
    assert (toy_read v1 (bytes_of s) = Some e).
    { case_bool_decide; [by simplify_eq|]. case_bool_decide; by simplify_eq. }
    split; [by eapply toy_read_text|]. exists (bytes_of s). by rewrite Hs.
  - intros s raw e e' He [= <-]. rewrite (toy_read_text _ _ _ He), He. congruence.
  - intros sk m. by apply bool_decide_true.
Qed.
End Toy.

Definition ex_v1 : TransactionV1Envelope :=
  mkTransactionV1Envelope (mkTransaction (Ed25519 (repeat 1 32)) 8 (Time 900) []) [mkDecoratedSignature [] [1]].

(** A seed of 64 bytes sealed for the test network by the cipher of [Crypto.Toy]. *)
Definition ex_seed : SealedSeed :=
  Crypto.mkSealedSeed (12 :: crypto_context Testnet ++ repeat 4 64) (repeat 6 12) (repeat 5 32) 1.

Lemma fee_bump_faithful_witness :
  let toy := Toy.toy_codec ex_v1 in
  sign_fee_bump (strkey := WalletAddress.Toy.toy_strkey) (aead := Crypto.Toy.toy_aead) [1] ex_seed Testnet 0
    (mkFeeBumpRequest "xdr" 200) = Ok (mkSignedPayment "bump" (String "G" (str_of (repeat 3 32)))) /\
  exists secret e, decode_envelope_strict "bump" = Ok (TxFeeBump e) /\ signed_bump Testnet secret 200 ex_v1 e.
Proof.
  cbn zeta. set (toy := Toy.toy_codec ex_v1).
  assert (E : sign_fee_bump (strkey := WalletAddress.Toy.toy_strkey) (codec := toy) (aead := Crypto.Toy.toy_aead) [1] ex_seed
    Testnet 0 (mkFeeBumpRequest "xdr" 200) = Ok (mkSignedPayment "bump" (String "G" (str_of (repeat 3 32)))))
    by (vm_compute; reflexivity).
  split; [exact E|].
  destruct (fee_bump_faithful (laws := Toy.toy_codec_laws ex_v1) _ _ _ _ _ _ E) as (_ & v1 & secret & e & Hp & _ & _ & Hd & Hb).
  assert (Hv : Ok (E := WalletError) v1 = Ok ex_v1) by (rewrite <-Hp; vm_compute; reflexivity).
  injection Hv as ->.
  exists secret, e. split; [exact Hd|exact Hb].
Defined.
End Signer.
