(* ===== verification/Submit.v ===== *)
(** * Relaying a client-signed transaction

    [crates/api/src/submit_validation.rs], [crates/api/src/sponsor_validation.rs] and
    [relay_signed_transaction] of [crates/api/src/routes/submit.rs]: the checks on a
    signed envelope before it is relayed or sponsored, the withdrawal allowlist, the
    submission and the history row.

    The reader of envelopes is third-party code, a parameter; their types and the
    transaction hash are those of [Signer]. *)

From S2P Require Import Prelude Float64 Resilience Db WalletAddress Store Sponsorship HorizonIngest ApiHorizon Crypto Signer.

Module Submit.
Import Db WalletAddress Signer.
Import Store (Uuid, Wallet, NewWithdrawalTransaction, mkNewWithdrawalTransaction, w_stellar_account_g, record_withdrawal_stmt).
Import ApiHorizon (ApiError, BadRequest, Forbidden, Internal, Outside, Horizon, SubmitResult, submit_transaction).
Local Open Scope db_scope.

Definition op_type_name (body : OperationBody) : string :=
  match body with
  | CreateAccount => "CreateAccount"
  | Payment _ => "Payment"
  | PathPaymentStrictReceive _ => "PathPaymentStrictReceive"
  | ManageSellOffer => "ManageSellOffer"
  | CreatePassiveSellOffer => "CreatePassiveSellOffer"
  | SetOptions => "SetOptions"
  | ChangeTrust => "ChangeTrust"
  | AllowTrust => "AllowTrust"
  | AccountMerge => "AccountMerge"
  | Inflation => "Inflation"
  | ManageData => "ManageData"
  | BumpSequence => "BumpSequence"
  | ManageBuyOffer => "ManageBuyOffer"
  | PathPaymentStrictSend _ => "PathPaymentStrictSend"
  | CreateClaimableBalance => "CreateClaimableBalance"
  | ClaimClaimableBalance => "ClaimClaimableBalance"
  | BeginSponsoringFutureReserves => "BeginSponsoringFutureReserves"
  | EndSponsoringFutureReserves => "EndSponsoringFutureReserves"
  | RevokeSponsorship => "RevokeSponsorship"
  | Clawback => "Clawback"
  | ClawbackClaimableBalance => "ClawbackClaimableBalance"
  | SetTrustLineFlags => "SetTrustLineFlags"
  | LiquidityPoolDeposit => "LiquidityPoolDeposit"
  | LiquidityPoolWithdraw => "LiquidityPoolWithdraw"
  | InvokeHostFunction => "InvokeHostFunction"
  | ExtendFootprintTtl => "ExtendFootprintTtl"
  | RestoreFootprint => "RestoreFootprint"
  end.

(** [Vec::join(", ")]. *)
Fixpoint join_names (l : list string) : string :=
  match l with
  | [] => ""
  | [a] => a
  | a :: r => a +:+ ", " +:+ join_names r
  end.

(** ** Validation for the submit path *)

Section Validation.
Context {strkey : Strkey} {codec : Codec}.

Record PaymentSummary := mkPaymentSummary {
  ps_destination : string;
  ps_amount_stroops : Z;
  ps_asset_code : string;
  ps_asset_issuer : option string;
  ps_max_time : option Z
}.

Definition SUBMIT_OP_TYPES : list string :=
  ["Payment"; "PathPaymentStrictSend"; "PathPaymentStrictReceive"; "ChangeTrust"].

Definition tx_max_time (cond : Preconditions) : option Z :=
  let* t := match cond with NoConditions => None | Time t => Some t | V2 t => t end in
  if t =? 0 then None else try_i64 t.

Definition source_key (m : MuxedAccount) : key := match m with Ed25519 k | MuxedEd25519 _ k => k end.

Definition source_matches (source : MuxedAccount) (account_g : string) : bool :=
  match pk_from_string account_g with
  | None => false
  | Some pk => bool_decide (source_key source = pk)
  end.

Definition muxed_to_string (m : MuxedAccount) : string :=
  match m with
  | Ed25519 k => pk_display k
  | MuxedEd25519 id k => mux_display k id
  end.

Definition trimmed_code (code : string) : string := HorizonIngest.trim_end_matches "000"%char code.

Definition asset_parts (a : Asset) : string * option string :=
  match a with
  | Native => ("native", None)
  | CreditAlphanum4 code issuer => (trimmed_code code, Some (pk_display issuer))
  | CreditAlphanum12 code issuer => (trimmed_code code, Some (pk_display issuer))
  end.

(** The loop over the operations. *)
Fixpoint scan_ops (wallet_account_g : string) (max_time : option Z) (ops : list Operation)
    (summary : option PaymentSummary) : result (option PaymentSummary) ApiError :=
  match ops with
  | [] => Ok summary
  | op :: rest =>
      if match op_source_account op with
         | Some src => negb (source_matches src wallet_account_g)
         | None => false
         end
      then Err (BadRequest "operation source must be this wallet's account") else
      match op_body op with
      | Payment p =>
          scan_ops wallet_account_g max_time rest
            match summary with
            | Some s => Some s
            | None =>
                let '(asset_code, asset_issuer) := asset_parts (p_asset p) in
                Some (mkPaymentSummary (muxed_to_string (p_destination p)) (p_amount p) asset_code
                        asset_issuer max_time)
            end
      | PathPaymentStrictSend _ | PathPaymentStrictReceive _ | ChangeTrust =>
          scan_ops wallet_account_g max_time rest summary
      | other =>
          Err (BadRequest ("op_not_allowed: operation type '" +:+ op_type_name other
            +:+ "' is not allowed in a client submission; allowed types: " +:+ join_names SUBMIT_OP_TYPES))
      end
  end.

Definition validate_signed_xdr (signed_xdr wallet_account_g : string) :
    result (option PaymentSummary) ApiError :=
  match from_xdr_base64 signed_xdr with
  | None => Err (BadRequest "transaction_xdr is not valid base64 XDR")
  | Some (Tx v1) =>
      if bool_decide (t_signatures v1 = []) then
        Err (BadRequest "transaction_xdr carries no signatures; sign it client-side first") else
      if negb (source_matches (t_source_account v1) wallet_account_g) then
        Err (BadRequest "transaction source must be this wallet's account") else
      scan_ops wallet_account_g (tx_max_time (t_cond v1)) (t_operations v1) None
  | Some _ => Err (BadRequest "transaction_xdr must be a v1 TransactionEnvelope")
  end.

(** ** Validation for sponsorship *)

Definition ALLOWED_OP_TYPES : list string :=
  ["Payment"; "PathPaymentStrictSend"; "PathPaymentStrictReceive"].

Definition is_op_allowed (body : OperationBody) : bool :=
  match body with
  | Payment _ | PathPaymentStrictReceive _ | PathPaymentStrictSend _ => true
  | _ => false
  end.

Definition normalize_wallet_allowlist (requested : list string) : result (list string) ApiError :=
  match requested with
  | [] => Err (BadRequest "allowed_operations must not be empty; disable sponsorship instead")
  | _ =>
      match List.find (fun op => negb (bool_decide (op ∈ ALLOWED_OP_TYPES))) requested with
      | Some bad =>
          Err (BadRequest ("allowed_operations may only narrow the global allowlist; '" +:+ bad
            +:+ "' is not one of: " +:+ join_names ALLOWED_OP_TYPES))
      | None => Ok (List.filter (fun op => bool_decide (op ∈ requested)) ALLOWED_OP_TYPES)
      end
  end.

Fixpoint check_ops (wallet_allowlist : option (list string)) (ops : list Operation) :
    result unit ApiError :=
  match ops with
  | [] => Ok tt
  | op :: rest =>
      let name := op_type_name (op_body op) in
      if negb (is_op_allowed (op_body op)) then
        Err (BadRequest ("op_not_allowed: operation type '" +:+ name
          +:+ "' is not allowed in a sponsored transaction; allowed types: " +:+ join_names ALLOWED_OP_TYPES))
      else match wallet_allowlist with
      | Some allowed =>
          if negb (bool_decide (name ∈ allowed)) then
            Err (BadRequest ("op_not_allowed: operation type '" +:+ name
              +:+ "' is not in this wallet's sponsorship allowlist; allowed types: " +:+ join_names allowed))
          else check_ops wallet_allowlist rest
      | None => check_ops wallet_allowlist rest
      end
  end.

Definition validate_inner_xdr (inner_xdr master_account_g : string)
    (wallet_allowlist : option (list string)) : result unit ApiError :=
  match from_xdr_base64 inner_xdr with
  | None => Err (BadRequest "transaction_xdr is not valid base64 XDR")
  | Some (Tx v1) =>
      if source_matches (t_source_account v1) master_account_g then
        Err (BadRequest "inner transaction source must not be the master account") else
      check_ops wallet_allowlist (t_operations v1)
  | Some _ => Err (BadRequest "transaction_xdr must be a v1 TransactionEnvelope")
  end.
End Validation.

(** ** The relay *)

(** The tables the relay works on: those of [Store] and the allowlist tables. *)
Record DbState := mkDbState { core : Store.State; policies : Sponsorship.State }.

#[export] Instance core_part : Part Store.State DbState := {| part := core; with_part := fun c s => mkDbState c (policies s) |}.
#[export] Instance policies_part : Part Sponsorship.State DbState := {| part := policies; with_part := fun p s => mkDbState (core s) p |}.
Notation policies_of := (part (T := Sponsorship.State)).

(** The Horizon client, the transactions it posted, and the webhook events dispatched,
    each with its wallet, type and data. *)
Record Ext := mkExt {
  x_horizon : Horizon;
  x_posted : list string;
  x_events : list (Uuid * string * json)
}.

Notation M := (M DbState Ext).

(** What it needs of the services: the Horizon client, and the record of its posts. *)
Class Wire (X : Type) := {
  horizon_of : X -> Horizon;
  posted_of : X -> list string;
  with_wire : Horizon -> list string -> X -> X;
  posted_with_wire : forall h l x, posted_of (with_wire h l x) = l
}.

#[export] Instance Ext_wire : Wire Ext := {|
  horizon_of := x_horizon; posted_of := x_posted; with_wire := fun h l x => mkExt h l (x_events x);
  posted_with_wire := fun _ _ _ => eq_refl
|}.

Record SubmitSignedResponse := mkSubmitSignedResponse {
  ssr_status : string;
  ssr_stellar_tx_hash : option string;
  ssr_detail : option string
}.

Record RelayOutcome := mkRelayOutcome {
  ro_response : SubmitSignedResponse;
  ro_destination : option string;
  ro_amount_stroops : option Z;
  ro_asset_code : option string
}.

Definition explain_code (code : string) : string :=
  if bool_decide (code = "op_underfunded") then "Insufficient balance to cover this amount."
  else if bool_decide (code = "op_low_reserve") then
    "Not enough XLM to satisfy the base reserve (each trustline/subentry reserves 0.5 XLM)."
  else if bool_decide (code = "op_no_destination") then
    "The destination account does not exist on this network."
  else if bool_decide (code = "op_no_trust") then
    "The destination has no trustline for this asset — they must add one first."
  else if bool_decide (code = "op_no_issuer") then "The asset issuer does not exist on this network."
  else if bool_decide (code = "op_invalid_limit") then "The trust limit is invalid."
  else if bool_decide (code = "op_line_full") then
    "The destination's trustline limit would be exceeded."
  else if bool_decide (code = "tx_bad_seq") then
    "Stale sequence number — refresh signing info and rebuild the transaction."
  else if bool_decide (code = "tx_bad_auth") then
    "Signature verification failed — the transaction was not signed by this wallet's key."
  else if bool_decide (code = "tx_insufficient_fee") then
    "The network fee was too low; rebuild with a higher fee."
  else "Transaction failed (" +:+ code +:+ ").".

Section Relay.
Context {strkey : Strkey} {codec : Codec}.
Context {S X : Type} {core_tables : Part Store.State S} {policy_tables : Part Sponsorship.State S} {wire : Wire X}.
Notation M := (Db.M S X).
Variables (network : StellarNetwork) (out : Outside).

(** [hex::encode(compute_inner_tx_hash(..))] *)
Definition inner_tx_hash (xdr : string) : result string WalletError :=
  let? hash := compute_inner_tx_hash xdr network in Ok (hex_encode hash).

Definition get_withdrawal_allowlist_config (wallet_id : Uuid) :
    M (result (option Sponsorship.WithdrawalAllowlistConfig) StoreError) :=
  do r <- query (fun _ s => Sponsorship.allowlist_of wallet_id (policies_of s));
  ret (map_err from_sqlx r).

Definition is_address_whitelisted (wallet_id : Uuid) (address : string) : M (result bool StoreError) :=
  do r <- query (fun _ s => Sponsorship.whitelists wallet_id address (policies_of s));
  ret (map_err from_sqlx r).

Definition record_withdrawal (wallet_id : Uuid) (wallet : Wallet) (p : PaymentSummary)
    (tx_hash status : string) (ledger : option Z) : M unit :=
  do _ <- part_call (record_withdrawal_stmt
    (mkNewWithdrawalTransaction wallet_id (ps_asset_code p) (ps_asset_issuer p) (ps_amount_stroops p)
       (w_stellar_account_g wallet) (ps_destination p) (Some tx_hash) status ledger (ps_max_time p)));
  ret tt.

(** A submission; a panic ends the task. *)
Definition submit (xdr : string) : M (result SubmitResult ApiError) := fun w =>
  let '(r, posts, h) := submit_transaction out xdr (horizon_of (ext w)) in
  let w' := mkWorld (db w) (ticks w) (with_wire h (repeat xdr posts ++ posted_of (ext w)) (ext w)) in
  match r with Some r => (Ret r, w') | None => (Crashed, w') end.

(** The allowlist check. *)
Definition allowlist_check (wallet_id : Uuid) (payment : option PaymentSummary) : M (result unit ApiError) :=
  match payment with
  | None => ret (Ok tt)
  | Some p =>
      try config <- get_withdrawal_allowlist_config wallet_id | (fun _ => Internal);
      if negb match config with Some c => Sponsorship.al_enabled c | None => false end then ret (Ok tt) else
      match to_base_account (ps_destination p) with
      | Err _ => ret (Err (BadRequest "destination is not a valid address"))
      | Ok base_destination =>
          try ok <- is_address_whitelisted wallet_id base_destination | (fun _ => Internal);
          ret (if ok : bool then Ok tt
               else Err (Forbidden "destination is not on this wallet's withdrawal allowlist"))
      end
  end.

(** What the submission's result means: the status, the hash, the detail, whether the
    outcome is settled, and the ledger. *)
Definition interpret (precomputed_hash : string) (submit : result SubmitResult ApiError) :
    string * option string * option string * bool * option Z :=
  match submit with
  | Ok r =>
      if ApiHorizon.s_successful r then
        ("confirmed", Some (ApiHorizon.s_hash r), None, true, ApiHorizon.s_ledger r)
      else
        let reason :=
          match List.find (fun c => negb (bool_decide (c = "op_success"))) (ApiHorizon.s_operation_codes r) with
          | Some c => Some (explain_code c)
          | None => option_map explain_code (ApiHorizon.s_transaction_code r)
          end in
        ("failed", Some (ApiHorizon.s_hash r), reason, true, ApiHorizon.s_ledger r)
  | Err (BadRequest msg) => ("failed", Some precomputed_hash, Some msg, true, None)
  | Err _ =>
      ("failed", Some precomputed_hash, Some "Could not reach the Stellar network — try again.", false, None)
  end.

Definition relay_signed_transaction (wallet_id : Uuid) (wallet : Wallet) (signed_xdr : string) :
    M (result RelayOutcome ApiError) :=
  match validate_signed_xdr signed_xdr (w_stellar_account_g wallet) with
  | Err e => ret (Err e)
  | Ok payment =>
      try _ <- allowlist_check wallet_id payment | (fun e => e);
      match inner_tx_hash signed_xdr with
      | Err _ => ret (Err (BadRequest "transaction_xdr could not be hashed"))
      | Ok precomputed_hash =>
          do _ <- match payment with
                  | Some p => record_withdrawal wallet_id wallet p precomputed_hash "pending" None
                  | None => ret tt
                  end;
          do submitted <- submit signed_xdr;
          let '(status, hash, detail, settled, ledger) := interpret precomputed_hash submitted in
          do _ <- match payment, settled with
                  | Some p, true => record_withdrawal wallet_id wallet p precomputed_hash status ledger
                  | _, _ => ret tt
                  end;
          ret (Ok (mkRelayOutcome (mkSubmitSignedResponse status hash detail)
                     (option_map ps_destination payment) (option_map ps_amount_stroops payment)
                     (option_map ps_asset_code payment)))
      end
  end.
End Relay.

(** ** What validation accepts *)

Section Exact.
Context {strkey : Strkey} {codec : Codec}.

(** The account, muxed or not, is that of [account_g]. *)
Definition spends_from (account_g : string) (m : MuxedAccount) : Prop :=
  pk_from_string account_g = Some (source_key m).

Lemma source_matches_spec m g : source_matches m g = true <-> spends_from g m.
Proof.
  unfold source_matches, spends_from. destruct (pk_from_string g) as [k|]; [|done].
  rewrite bool_decide_eq_true. naive_solver.
Qed.

(** An operation that a client may submit for the wallet. *)
Definition submittable (account_g : string) (op : Operation) : Prop :=
  (forall m, op_source_account op = Some m -> spends_from account_g m) /\
  op_type_name (op_body op) ∈ SUBMIT_OP_TYPES.

Definition payment_of (op : Operation) : option PaymentOp :=
  match op_body op with Payment p => Some p | _ => None end.

Definition summary_of (max_time : option Z) (p : PaymentOp) : PaymentSummary :=
  mkPaymentSummary (muxed_to_string (p_destination p)) (p_amount p) (fst (asset_parts (p_asset p)))
    (snd (asset_parts (p_asset p))) max_time.

Definition first_payment (max_time : option Z) (ops : list Operation) : option PaymentSummary :=
  option_map (summary_of max_time) (head (omap payment_of ops)).

Ltac by_membership :=
  match goal with |- ?P => refine (bool_decide_unpack P _) end; vm_compute; exact I.

Lemma scan_ops_spec g mt ops acc r :
  scan_ops g mt ops acc = Ok r <->
  Forall (submittable g) ops /\ r = match acc with Some s => Some s | None => first_payment mt ops end.
Proof.
  revert acc. induction ops as [|op ops IH]; intros acc.
  { cbn. split; [intros [= <-]; split; [constructor|by destruct acc]|intros [_ ->]; by destruct acc]. }
  rewrite Forall_cons. cbn [scan_ops].
  destruct (match op_source_account op with Some src => negb (source_matches src g) | None => false end) eqn:Es.
  { split; [done|]. intros [[[Hs _] _] _]. destruct (op_source_account op) as [m|]; [|done].
    specialize (Hs m eq_refl). apply source_matches_spec in Hs. by rewrite Hs in Es. }
  assert (Hs : forall m, op_source_account op = Some m -> spends_from g m).
  { intros m E. rewrite E in Es. apply source_matches_spec. by apply negb_false_iff in Es. }
  unfold submittable, first_payment. cbn [omap list_omap]. unfold payment_of at 1.
  destruct (op_body op) eqn:Eb; cbn [op_type_name].
  all: try (split; [done|]; intros [[[_ Hn] _] _]; exfalso; revert Hn; by_membership).
  - rewrite IH. destruct acc, (asset_parts (p_asset p)) as [code issuer] eqn:Ea; cbn;
      unfold summary_of; rewrite ?Ea; cbn; (split; [intros [H1 ->]|intros [[_ H1] ->]]); split_and!; auto; by left.
  - rewrite IH. unfold first_payment. (split; [intros [H1 ->]|intros [[_ H1] ->]]); split_and!; auto. by_membership.
  - rewrite IH. unfold first_payment. (split; [intros [H1 ->]|intros [[_ H1] ->]]); split_and!; auto. by_membership.
  - rewrite IH. unfold first_payment. (split; [intros [H1 ->]|intros [[_ H1] ->]]); split_and!; auto. by_membership.
Qed.

Lemma validate_signed_spec xdr g r :
  validate_signed_xdr xdr g = Ok r <->
  exists v1, from_xdr_base64 xdr = Some (Tx v1) /\ t_signatures v1 <> [] /\
    spends_from g (t_source_account v1) /\ Forall (submittable g) (t_operations v1) /\
    r = first_payment (tx_max_time (t_cond v1)) (t_operations v1).
Proof.
  unfold validate_signed_xdr. destruct (from_xdr_base64 xdr) as [[|v1|]|]; try naive_solver.
  case_bool_decide as Esig; [naive_solver|].
  destruct (source_matches (t_source_account v1) g) eqn:Em; cbn [negb].
  - rewrite scan_ops_spec. apply source_matches_spec in Em. naive_solver.
  - split; [done|]. intros (v & [= <-] & _ & Hs & _). apply source_matches_spec in Hs. congruence.
Qed.

(** The submit path accepts exactly the envelopes it should: a version 1 envelope
    with a signature, whose source is the wallet's account (muxed or not), each of
    whose operations has no source or that same account, and is a payment, a path
    payment or a trustline change; and it reports the first payment of the
    transaction, in full. *)
Lemma validate_signed_exact (xdr g : string) (r : option PaymentSummary) :
  validate_signed_xdr xdr g = Ok r <->
  exists v1, from_xdr_base64 xdr = Some (Tx v1) /\ t_signatures v1 <> [] /\
    spends_from g (t_source_account v1) /\ Forall (submittable g) (t_operations v1) /\
    r = first_payment (tx_max_time (t_cond v1)) (t_operations v1).
Proof. apply validate_signed_spec. Qed.

(** *** Sponsorship *)

Lemma is_op_allowed_spec body : is_op_allowed body = true <-> op_type_name body ∈ ALLOWED_OP_TYPES.
Proof.
  destruct body; cbn [is_op_allowed op_type_name]; split; intros H0; try done; try by_membership;
    exfalso; revert H0; by_membership.
Qed.

Lemma check_ops_spec wl ops :
  check_ops wl ops = Ok tt <->
  Forall (fun op => op_type_name (op_body op) ∈ ALLOWED_OP_TYPES /\
                    forall l, wl = Some l -> op_type_name (op_body op) ∈ l) ops.
Proof.
  induction ops as [|op ops IH]; cbn [check_ops]; [done|]. rewrite Forall_cons, <-is_op_allowed_spec.
  destruct (is_op_allowed (op_body op)); cbn [negb]; [|naive_solver].
  destruct wl as [l|]; [|rewrite IH; naive_solver].
  case_bool_decide; cbn [negb]; [rewrite IH|]; naive_solver.
Qed.

Lemma normalize_spec requested l :
  normalize_wallet_allowlist requested = Ok l ->
  requested <> [] /\ NoDup l /\ (forall op, op ∈ l <-> op ∈ requested) /\ (forall op, op ∈ l -> op ∈ ALLOWED_OP_TYPES).
Proof.
  unfold normalize_wallet_allowlist. destruct requested as [|op0 rest]; [done|].
  destruct (List.find _ _) as [bad|] eqn:Ef; [done|]. intros E.
  assert (l = List.filter (fun op => bool_decide (op ∈ op0 :: rest)) ALLOWED_OP_TYPES) as -> by congruence.
  assert (Hsub : forall op, op ∈ op0 :: rest -> op ∈ ALLOWED_OP_TYPES).
  { intros op Hop%list_elem_of_In. pose proof (List.find_none _ _ Ef op Hop) as Hn. cbn in Hn.
    apply negb_false_iff, bool_decide_eq_true in Hn. done. }
  split; [done|]. split_and!.
  - apply NoDup_ListNoDup, List.NoDup_filter, NoDup_ListNoDup. by_membership.
  - intros op. rewrite list_elem_of_In, filter_In, bool_decide_eq_true, <-list_elem_of_In. naive_solver.
  - intros op Hop%list_elem_of_In. apply filter_In in Hop as [Hop _]. by apply list_elem_of_In.
Qed.

(** A wallet can only narrow what is sponsored. When the wallet's requested list of
    operations is accepted, the stored list holds the same operations, once each, all
    of the global list; and a transaction passes the check against it exactly when it
    is a version 1 envelope whose source is not the master account (muxed or not) and
    every operation is of a requested type. *)
Lemma sponsor_validation_exact (requested l : list string) (xdr master : string) :
  normalize_wallet_allowlist requested = Ok l ->
  NoDup l /\ (forall op, op ∈ l <-> op ∈ requested) /\ (forall op, op ∈ l -> op ∈ ALLOWED_OP_TYPES) /\
  (validate_inner_xdr xdr master (Some l) = Ok tt <->
   exists v1, from_xdr_base64 xdr = Some (Tx v1) /\ ~ spends_from master (t_source_account v1) /\
     Forall (fun op => op_type_name (op_body op) ∈ requested) (t_operations v1)).
Proof.
  intros Hn. destruct (normalize_spec requested l Hn) as (_ & Hnd & Heq & Hsub). split_and!; [done..|].
  unfold validate_inner_xdr. destruct (from_xdr_base64 xdr) as [[|v1|]|]; try naive_solver.
  destruct (source_matches (t_source_account v1) master) eqn:Em.
  - apply source_matches_spec in Em. naive_solver.
  - assert (~ spends_from master (t_source_account v1)) by (rewrite <-source_matches_spec; congruence).
    rewrite check_ops_spec. split.
    + intros Hf. exists v1. split_and!; [done..|]. eapply Forall_impl; [exact Hf|]. cbn. naive_solver.
    + intros (v & [= <-] & _ & Hf). eapply Forall_impl; [exact Hf|]. cbn. naive_solver.
Qed.
End Exact.

(** ** The relay posts only what passed the checks *)

Section Gate.
Context {strkey : Strkey} {codec : Codec}.
Context {S X : Type} {core_tables : Part Store.State S} {policy_tables : Part Sponsorship.State S} {wire : Wire X}.
Variables (network : StellarNetwork) (out : Outside).
Notation World := (World S X).
Notation M := (Db.M S X).

(** The other connections leave the policies [pol] alone. *)
Definition steady (pol : Sponsorship.State) (w : World) : Prop :=
  policies_of (db w) = pol /\ Forall (fun t => forall s, policies_of (t_others t s) = policies_of s) (ticks w).

(** A statement that leaves the policies alone: what its caller sees. *)
Lemma steady_call {A} pol (stmt : Z -> S -> result A sqlx_error * S) (w : World) :
  (forall now s, policies_of (snd (stmt now s)) = policies_of s) -> steady pol w ->
  let '(o, w') := db_call stmt w in
  steady pol w' /\ ext w' = ext w /\
  match o with
  | Ret (Ok a) => exists now s, policies_of s = pol /\ fst (stmt now s) = Ok a
  | _ => True
  end.
Proof.
  intros Hstmt [Hp Ht]. unfold db_call. set (t := default quiet_tick (head (ticks w))).
  assert (Hs : policies_of (t_others t (db w)) = pol).
  { unfold t. destruct (ticks w) as [|t0 ts]; [done|]. apply Forall_cons in Ht as [Ht _].
    cbn. by rewrite Ht. }
  assert (Hts : Forall (fun t => forall s, policies_of (t_others t s) = policies_of s) (tail (ticks w))).
  { destruct (ticks w); [done|]. by apply Forall_cons in Ht as [_ Ht]. }
  pose proof (Hstmt (t_now t) (t_others t (db w))) as Hk.
  destruct (stmt (t_now t) (t_others t (db w))) as [r s'] eqn:E. cbn in Hk.
  destruct (t_fault t); (split; [split; cbn; congruence || done|]); (split; [done|]); try done.
  destruct r as [v|]; [|done]. exists (t_now t), (t_others t (db w)). by rewrite E.
Qed.

(** What the allowlist demands of the payment. *)
Definition permitted (pol : Sponsorship.State) (wallet_id : Uuid) (payment : option PaymentSummary) : Prop :=
  forall p c, payment = Some p -> Sponsorship.allowlist_of wallet_id pol = Some c ->
    Sponsorship.al_enabled c = true ->
    exists b, to_base_account (ps_destination p) = Ok b /\ Sponsorship.whitelists wallet_id b pol = true.

Lemma allowlist_check_spec pol wallet_id payment (w : World) :
  steady pol w ->
  let '(o, w') := allowlist_check wallet_id payment w in
  steady pol w' /\ ext w' = ext w /\ (o = Ret (Ok tt) -> permitted pol wallet_id payment).
Proof.
  intros Hw. destruct payment as [p|]; cbn [allowlist_check]; [|by split_and!].
  unfold try_bind at 1, bind at 1, get_withdrawal_allowlist_config, bind at 1, query at 1.
  pose proof (steady_call pol (fun now s => (Ok (Sponsorship.allowlist_of wallet_id (policies_of s)), s)) w
    ltac:(done) Hw) as H1.
  destruct (db_call _ w) as [[[c|e]|] w1]; destruct H1 as (Hw1 & Hx1 & H1); cbn [ret map_err];
    [|by split_and!..].
  destruct H1 as (now & s1 & Hpol & [= <-]). rewrite Hpol.
  destruct (Sponsorship.allowlist_of wallet_id pol) as [c|] eqn:Ec; cbn [negb].
  2:{ split_and!; [done..|]. intros _ p0 c0 _. by rewrite Ec. }
  destruct (Sponsorship.al_enabled c) eqn:Een; cbn [negb].
  2:{ split_and!; [done..|]. intros _ p0 c0 _. rewrite Ec. congruence. }
  destruct (to_base_account (ps_destination p)) as [b|e] eqn:Eb; [|by split_and!].
  unfold try_bind, bind, is_address_whitelisted, bind, query.
  pose proof (steady_call pol (fun now s => (Ok (Sponsorship.whitelists wallet_id b (policies_of s)), s)) w1
    ltac:(done) Hw1) as H2.
  destruct (db_call _ w1) as [[[ok|e]|] w2]; destruct H2 as (Hw2 & Hx2 & H2); cbn [ret map_err];
    (split; [done|]); (split; [congruence|]); try done.
  destruct H2 as (now2 & s2 & Hpol2 & [= <-]). rewrite Hpol2.
  destruct (Sponsorship.whitelists wallet_id b pol) eqn:Ewl; [|done].
  intros _ p0 c0 [= <-] _ _. by exists b.
Qed.

Lemma record_withdrawal_ext wallet_id wallet p h status ledger (w : World) :
  ext (snd (record_withdrawal wallet_id wallet p h status ledger w)) = ext w.
Proof.
  unfold record_withdrawal, bind, part_call, db_call. destruct (on_part _ _ _) as [r s'].
  by destruct (t_fault _).
Qed.

Lemma submit_ext xdr (w : World) :
  0 <= Resilience.max_delay_ms (ApiHorizon.h_retry (horizon_of (ext w))) ->
  posted_of (ext (snd (submit out xdr w))) = posted_of (ext w) \/
  posted_of (ext (snd (submit out xdr w))) = xdr :: posted_of (ext w).
Proof.
  intros Hd. unfold submit. pose proof (ApiHorizon.submission_spec out xdr _ Hd) as Hs.
  destruct (submit_transaction out xdr (horizon_of (ext w))) as [[r posts] h]. destruct Hs as (Hp & res & -> & _).
  cbn. rewrite posted_with_wire. destruct posts as [|[|]]; [by left|by right|lia].
Qed.

(** From the posts [l], at most [xdr] was posted, once. *)
Definition at_most_posts (xdr : string) (l : list string) (x : X) : Prop :=
  posted_of x = l \/ posted_of x = xdr :: l.

Lemma bind_ext {A B} (P : X -> Prop) (m : M A) (f : A -> M B) (w : World) :
  P (ext (snd (m w))) -> (forall a w', ext w' = ext (snd (m w)) -> P (ext (snd (f a w')))) ->
  P (ext (snd (bind m f w))).
Proof. intros H1 H2. unfold bind. destruct (m w) as [[a|] w1]; [by apply H2|done]. Qed.

(** The part of the relay after the checks: at most one post, of this transaction. *)
Lemma relay_tail_ext wallet_id wallet payment hash xdr (w : World) :
  0 <= Resilience.max_delay_ms (ApiHorizon.h_retry (horizon_of (ext w))) ->
  let m :=
    do _ <- match payment with
            | Some p => record_withdrawal wallet_id wallet p hash "pending" None
            | None => ret tt
            end;
    do submitted <- submit out xdr;
    let '(status, hash', detail, settled, ledger) := interpret hash submitted in
    do _ <- match payment, settled with
            | Some p, true => record_withdrawal wallet_id wallet p hash status ledger
            | _, _ => ret tt
            end;
    ret (Ok (E := ApiError) (mkRelayOutcome (mkSubmitSignedResponse status hash' detail)
               (option_map ps_destination payment) (option_map ps_amount_stroops payment)
               (option_map ps_asset_code payment))) in
  at_most_posts xdr (posted_of (ext w)) (ext (snd (m w))).
Proof.
  intros Hd. cbn zeta. set (m0 := match payment with Some _ => _ | None => _ end).
  assert (H0 : ext (snd (m0 w)) = ext w).
  { unfold m0. destruct payment; [apply record_withdrawal_ext|done]. }
  clearbody m0. apply bind_ext; rewrite H0; [by left|]. intros _ w1 H1. rewrite <-H1 in Hd |- *.
  pose proof (submit_ext xdr w1 Hd) as Hs. apply bind_ext; [exact Hs|]. intros r w2 H2. rewrite <-H2 in Hs.
  destruct (interpret hash r) as [[[[status hash'] detail] settled] ledger].
  set (m1 := match payment with Some _ => _ | None => _ end).
  assert (H3 : ext (snd (m1 w2)) = ext w2).
  { unfold m1. destruct payment, settled; try done. apply record_withdrawal_ext. }
  clearbody m1. apply bind_ext; [by rewrite H3|]. intros _ w3 H4. cbn. by rewrite H4, H3.
Qed.

(** C13: Nothing reaches Horizon unchecked, or twice. However the statements fail and
    wherever the process dies, one relay posts nothing but the given envelope, at most
    once; and only when it is a version 1 envelope with a signature that spends from
    the wallet alone by operations of the allowed types, and, if the wallet's
    withdrawal allowlist is on and the transaction has a payment, the base account of
    the first payment's destination is on the list. *)
Theorem relay_gate (wallet_id : Uuid) (wallet : Wallet) (xdr : string) (w : World) (pol : Sponsorship.State) :
  steady pol w -> 0 <= Resilience.max_delay_ms (ApiHorizon.h_retry (horizon_of (ext w))) ->
  let g := w_stellar_account_g wallet in
  let posted := posted_of (ext (snd (relay_signed_transaction network out wallet_id wallet xdr w))) in
  posted = posted_of (ext w) \/
  posted = xdr :: posted_of (ext w) /\
  exists v1, from_xdr_base64 xdr = Some (Tx v1) /\ t_signatures v1 <> [] /\
    spends_from g (t_source_account v1) /\ Forall (submittable g) (t_operations v1) /\
    permitted pol wallet_id (first_payment (tx_max_time (t_cond v1)) (t_operations v1)).
Proof.
  intros Hw Hd g posted. unfold posted. clear posted.
  match goal with |- _ \/ _ /\ ?Q => set (checked := Q) end.
  pattern (ext (snd (relay_signed_transaction network out wallet_id wallet xdr w))).
  match goal with |- ?P _ => set (good := P) end. unfold relay_signed_transaction. fold g.
  destruct (validate_signed_xdr xdr g) as [payment|e] eqn:Ev; [|by left].
  apply validate_signed_spec in Ev as (v1 & Hx & Hsig & Hsrc & Hops & ->).
  set (payment := first_payment _ _). unfold try_bind, bind at 1.
  pose proof (allowlist_check_spec pol wallet_id payment w Hw) as Ha.
  destruct (allowlist_check wallet_id payment w) as [[[[]|e]|] w1]; destruct Ha as (Hw1 & Hx1 & Hperm);
    [|left; cbn; by rewrite Hx1..].
  destruct (inner_tx_hash network xdr) as [hash|]; [|left; cbn; by rewrite Hx1].
  rewrite <-Hx1 in Hd. unfold good. rewrite <-Hx1.
  destruct (relay_tail_ext wallet_id wallet payment hash xdr w1 Hd) as [E|E]; [by left|right].
  split; [exact E|]. exists v1. split_and!; try done. by apply Hperm.
Qed.
End Gate.

(** ** Concrete transactions *)

Import WalletAddress.Toy.

Definition the_key : key := repeat 1 32.
Definition other_key : key := repeat 2 32.
Definition account_of (k : key) : string := String "G"%char (str_of k).

Definition payment_to (k : key) : Operation := mkOperation None (Payment (mkPaymentOp (Ed25519 k) Native 50)).

(** A codec that reads ["xdr"] as a transaction of these operations. *)
Definition reads (ops : list Operation) : Codec :=
  Signer.Toy.toy_codec (mkTransactionV1Envelope (mkTransaction (Ed25519 the_key) 8 (Time 900) ops)
    [mkDecoratedSignature [] [7]]).

Definition the_wallet : Wallet := Store.mkWallet 1 "testnet" (account_of the_key) None None None None 0 None None
  None "client" None None 0 0 None true false None.

(** The wallet's allowlist is on and holds [the_key]'s account alone. *)
Definition listed : Sponsorship.State :=
  Sponsorship.mkState 9 [1] [] [] [Sponsorship.mkWithdrawalAllowlistConfig 1 true 0 0]
    [Sponsorship.mkWhitelistedAddress 5 1 (account_of the_key) None 0].

Definition start : World DbState Ext :=
  mkWorld (mkDbState (Store.mkState 100 [the_wallet] [] [] [] [] [] []) listed) []
    (mkExt (ApiHorizon.Horizon_new "https://h/") [] []).

Lemma relay_gate_witness :
  let r := relay_signed_transaction (codec := reads [payment_to the_key]) Testnet ApiHorizon.silent_net 1 the_wallet "xdr" start in
  x_posted (ext (snd r)) = ["xdr"] /\
  exists v1, from_xdr_base64 (Codec := reads [payment_to the_key]) "xdr" = Some (Tx v1) /\ t_signatures v1 <> [].
Proof.
  cbn zeta.
  assert (E : x_posted (ext (snd (relay_signed_transaction (codec := reads [payment_to the_key]) Testnet ApiHorizon.silent_net 1 the_wallet "xdr" start))) = ["xdr"]) by (vm_compute; reflexivity).
  split; [exact E|].
  destruct (relay_gate (codec := reads [payment_to the_key]) Testnet ApiHorizon.silent_net 1 the_wallet
    "xdr" start listed) as [H|(_ & v1 & H1 & H2 & _)].
  - split; [reflexivity|constructor].
  - cbn. lia.
  - pose proof (eq_trans (eq_sym E) H) as H'. discriminate H'.
  - exists v1. split; assumption.
Defined.

(** Only the first payment is looked up: with the allowlist on, a payment to an account
    that is not on it is posted behind one that is, and so is a path payment. *)
Example allowlist_first_payment_only :
  let posted ops :=
    x_posted (ext (snd (relay_signed_transaction (codec := reads ops) Testnet ApiHorizon.silent_net
                          1 the_wallet "xdr" start))) in
  posted [payment_to other_key] = [] /\
  posted [payment_to the_key; payment_to other_key] = ["xdr"] /\
  posted [mkOperation None (PathPaymentStrictSend (Ed25519 other_key))] = ["xdr"].
Proof. vm_compute. by split_and!. Qed.

(** A gateway timeout whose body is a JSON object counts as a rejection: the history
    row is settled as failed although the transaction may still be applied. *)
Definition timeout_net : Outside :=
  ApiHorizon.mkOutside (fun _ _ => Float64.zero) (fun _ _ _ => ApiHorizon.NoResponse)
    (fun _ _ _ => ApiHorizon.NoResponse)
    (fun _ _ _ _ => ApiHorizon.Response 504 (Some (ApiHorizon.mkSubmitResponse "" false None None)))
    (fun _ _ _ => ApiHorizon.NoResponse) (fun _ _ _ => ApiHorizon.NoResponse)
    (fun _ => None) (fun _ _ => HorizonIngest.mkTiming [] 1 2 3 []) (fun _ => (0, 0)).

Example gateway_timeout_settles :
  List.map Store.tx_status (Store.transactions (core (db (snd (relay_signed_transaction
    (codec := reads [payment_to the_key]) Testnet timeout_net 1 the_wallet "xdr" start))))) = ["failed"].
Proof. vm_compute. reflexivity. Qed.
End Submit.
