(* ===== verification/Sponsor.v ===== *)
(** * Sponsoring a transaction

    [crates/api/src/routes/sponsor.rs]: the checks before a user's transaction is
    sponsored, the dry run that projects them, and the handler that reserves the budget,
    signs a fee bump, submits it and records the outcome.

    A run of a handler begins after the caller is authorised; the per-wallet lock of the
    process, which only spaces runs out, and the audit entry are not modelled. *)

From S2P Require Import Prelude Float64 Resilience Db WalletAddress Store Sponsorship HorizonIngest ApiHorizon Crypto Signer Submit.

Module Sponsor.
Import Db WalletAddress Signer Submit.
Import Crypto (bytes, SealedSeed, Aead, from_parts_with_scheme, SCHEME_V1).
Import Store (Uuid, Wallet, is_archived, w_stellar_account_g, w_sealed_ciphertext, w_sealed_nonce, w_sealed_salt, w_sealed_scheme).
Import Sponsorship (SponsoredTransaction, GasSponsorshipConfig, config_of, reserve_tx, update_status_stmt, projection_stmt).
Import ApiHorizon (ApiError, BadRequest, Forbidden, Internal, NotFound, Outside, Horizon, SubmitResult, account_sequence, from_store_error).
Local Open Scope db_scope.

(** [From<WalletError> for ApiError]; the source does not list [InvalidMemo]. *)
Definition from_wallet_error (e : WalletError) : ApiError :=
  match e with
  | InvalidMnemonic | InvalidChecksum | InvalidAddress | InvalidAssetCode | InvalidAmount
  | InvalidDerivationPath | InvalidXdr | InvalidSignature | InvalidSeedLength | WeakSeed
  | MnemonicAccountMismatch => BadRequest "invalid input"
  | ReservedNativeAssetCode => BadRequest "native asset codes cannot be used as credit asset codes"
  | StaleSequence =>
      ApiHorizon.StaleSequence "Stale sequence number — refresh signing info and rebuild the transaction."
  | KeyDerivation | Signing | SeedDecryption | InvalidMemo => Internal
  end.

(** ** Statements on the sponsorship tables *)

Definition on_policies {A} (stmt : Z -> Sponsorship.State -> result A sqlx_error * Sponsorship.State) (now : Z)
    (s : DbState) : result A sqlx_error * DbState :=
  let '(r, p) := stmt now (policies s) in (r, mkDbState (core s) p).

Definition wallet_of (wallet_id : Uuid) (s : DbState) : option Wallet :=
  List.find (fun w => bool_decide (Store.w_id w = wallet_id)) (Store.wallets (core s)).

Definition get_wallet (wallet_id : Uuid) : M (result Wallet StoreError) :=
  do r <- query (fun _ s => wallet_of wallet_id s);
  ret (let? w := map_err from_sqlx r in ok_or w Db.NotFound).

Definition get_gas_sponsorship_config (wallet_id : Uuid) : M (result (option GasSponsorshipConfig) StoreError) :=
  do r <- query (fun _ s => config_of wallet_id (policies s));
  ret (map_err from_sqlx r).

Definition sponsorship_projection (wallet_id : Uuid) (inner_tx_hash : string) : M (result (Z * bool) StoreError) :=
  do r <- db_call (on_policies (projection_stmt wallet_id inner_tx_hash));
  ret (map_err from_sqlx r).

Definition try_reserve_sponsored_transaction (wallet_id : Uuid) (inner_tx_hash : string) (fee_stroops : Z)
    (daily_budget_stroops : option Z) : M (result SponsoredTransaction StoreError) :=
  do r <- db_call (on_policies (reserve_tx wallet_id inner_tx_hash fee_stroops daily_budget_stroops));
  ret match r with
      | Ok (Some row) => Ok row
      | Ok None => Err BudgetExceeded
      | Err e => Err (from_sqlx_conflict e)
      end.

(** The callers drop the result. *)
Definition finalize_sponsored_transaction (id : Uuid) (status : string) (fee_bump_tx_hash error : option string) :
    M unit :=
  do _ <- db_call (on_policies (update_status_stmt id status fee_bump_tx_hash error));
  ret tt.

(** A Horizon request; a panic ends the task. *)
Definition horizon_call {A} (f : Horizon -> option (result A ApiError) * Horizon) : M (result A ApiError) :=
  fun w =>
    let '(r, h) := f (x_horizon (ext w)) in
    let w' := mkWorld (db w) (ticks w) (mkExt h (x_posted (ext w)) (x_events (ext w))) in
    match r with Some r => (Ret r, w') | None => (Crashed, w') end.

Definition dispatch (wallet_id : Uuid) (event_type : string) (data : json) : M unit := fun w =>
  (Ret tt, mkWorld (db w) (ticks w)
             (mkExt (x_horizon (ext w)) (x_posted (ext w)) ((wallet_id, event_type, data) :: x_events (ext w)))).

(** ** Handlers *)

Record SponsorRequest := mkSponsorRequest {
  sr_transaction_xdr : option string;
  sr_max_base_fee_stroops : option Z
}.

Record SponsorResponse := mkSponsorResponse {
  srs_id : Uuid;
  srs_status : string;
  srs_inner_tx_hash : string;
  srs_fee_bump_tx_hash : option string;
  srs_fee_stroops : Z
}.

Record Preflight := mkPreflight {
  pf_wallet : Wallet;
  pf_config : GasSponsorshipConfig;
  pf_inner_xdr : string;
  pf_max_fee : Z;
  pf_inner_hash_hex : string
}.

Section Handlers.
Context {strkey : Strkey} {codec : Codec} {aead : Aead}.
Variables (network : StellarNetwork) (out : Outside) (opening_keys : list bytes).

Definition required_xdr (req : SponsorRequest) : result string ApiError :=
  match sr_transaction_xdr req with
  | Some x => if bool_decide (x = "") then Err (BadRequest "transaction_xdr is required") else Ok x
  | None => Err (BadRequest "transaction_xdr is required")
  end.

Definition required_fee (req : SponsorRequest) : result Z ApiError :=
  match sr_max_base_fee_stroops req with
  | Some f =>
      if negb (0 <? f) then Err (BadRequest "max_base_fee_stroops must be > 0")
      else if f <? MIN_BASE_FEE then
        Err (BadRequest ("max_base_fee_stroops must be at least " +:+ print_dec MIN_BASE_FEE))
      else Ok f
  | None => Err (BadRequest "max_base_fee_stroops must be > 0")
  end.

Definition require_enabled (config : option GasSponsorshipConfig) : result GasSponsorshipConfig ApiError :=
  match config with
  | Some c =>
      if Sponsorship.g_enabled c then Ok c
      else Err (Forbidden "gas sponsorship is not enabled for this wallet")
  | None => Err (Forbidden "gas sponsorship is not enabled for this wallet")
  end.

Definition check_cap (config : GasSponsorshipConfig) (max_fee : Z) : result unit ApiError :=
  match Sponsorship.g_per_tx_fee_cap_stroops config with
  | Some cap =>
      if cap <? max_fee then
        Err (BadRequest ("max_base_fee_stroops exceeds the per-transaction cap of " +:+ print_int cap))
      else Ok tt
  | None => Ok tt
  end.

(** The three parts of the sealed seed. *)
Definition sealed_parts (wallet : Wallet) : option (bytes * bytes * bytes) :=
  match w_sealed_ciphertext wallet, w_sealed_nonce wallet, w_sealed_salt wallet with
  | Some ciphertext, Some nonce, Some salt => Some (ciphertext, nonce, salt)
  | _, _, _ => None
  end.

Definition not_funded (e : ApiError) : ApiError :=
  match e with
  | NotFound =>
      BadRequest "This wallet is not funded on-chain yet. Fund it with XLM (testnet friendbot) first."
  | other => other
  end.

Definition preflight (wallet_id : Uuid) (req : SponsorRequest) : M (result Preflight ApiError) :=
  try inner_xdr <- ret (required_xdr req) | (fun e => e);
  try max_fee <- ret (required_fee req) | (fun e => e);
  try wallet <- get_wallet wallet_id | from_store_error;
  if is_archived wallet then ret (Err (Forbidden "wallet is archived")) else
  try config <- get_gas_sponsorship_config wallet_id | (fun _ => Internal);
  try config <- ret (require_enabled config) | (fun e => e);
  try _ <- ret (check_cap config max_fee) | (fun e => e);
  try _ <- ret (validate_inner_xdr inner_xdr (w_stellar_account_g wallet)
                  (Sponsorship.g_allowed_operations config)) | (fun e => e);
  if negb (bool_decide (is_Some (sealed_parts wallet))) then
    ret (Err (Forbidden "this wallet is client-custody and has no gas-tank account to pay fees from; provision and fund a gas tank to enable sponsorship"))
  else
  try live_seq <- horizon_call (account_sequence out (w_stellar_account_g wallet)) | not_funded;
  try inner_seq <- ret (inner_sequence_number inner_xdr) | from_wallet_error;
  if inner_seq <=? live_seq then
    ret (Err (ApiHorizon.StaleSequence "Stale sequence number — refresh signing info and rebuild the transaction."))
  else
  try inner_hash <- ret (compute_inner_tx_hash inner_xdr network) | from_wallet_error;
  ret (Ok (mkPreflight wallet config inner_xdr max_fee (hex_encode inner_hash))).

(** The subtractions are those of [i64]. *)
Definition dry_run (wallet_id : Uuid) (req : SponsorRequest) : M (result (Preflight * option Z) ApiError) :=
  try p <- preflight wallet_id req | (fun e => e);
  try projection <- sponsorship_projection wallet_id (pf_inner_hash_hex p) | from_store_error;
  let '(spent_today, already_sponsored) := projection in
  if already_sponsored : bool then ret (Err (from_store_error Db.Conflict)) else
  ret match Sponsorship.g_daily_budget_stroops (pf_config p) with
      | Some budget =>
          let left := wrap_i64 (wrap_i64 (budget - spent_today) - pf_max_fee p) in
          if left <? 0 then Err (from_store_error BudgetExceeded) else Ok (p, Some left)
      | None => Ok (p, None)
      end.

(** The sealed seed of the wallet row; [None] is the unopened scheme or a bad length. *)
Definition sealed_of (wallet : Wallet) (parts : bytes * bytes * bytes) : option SealedSeed :=
  let '(ciphertext, nonce, salt) := parts in
  let scheme := default SCHEME_V1 (w_sealed_scheme wallet) in
  if negb (in_range 0 255 scheme) then None else
  result_ok (from_parts_with_scheme ciphertext nonce salt scheme).

Definition sign_with_any (sealed : SealedSeed) (fb : FeeBumpRequest) : option SignedPayment :=
  head (omap (fun key => result_ok (sign_fee_bump key sealed network 0 fb)) opening_keys).

Definition outcome (submitted : result SubmitResult ApiError) : string * option string :=
  match submitted with
  | Ok r => if ApiHorizon.s_successful r then ("confirmed", Some (ApiHorizon.s_hash r))
            else ("failed", Some (ApiHorizon.s_hash r))
  | Err _ => ("failed", None)
  end.

(** From the signed fee bump on. *)
Definition submit_and_record (wallet_id : Uuid) (p : Preflight) (reserved : SponsoredTransaction)
    (signed : SignedPayment) : M (result SponsorResponse ApiError) :=
  do submitted <- submit out (envelope_xdr signed);
  let '(status, fee_bump_hash) := outcome submitted in
  do _ <- finalize_sponsored_transaction (Sponsorship.s_id reserved) status fee_bump_hash None;
  do _ <- dispatch wallet_id "transaction.sponsored" (JObj [
    ("id", JId (Sponsorship.s_id reserved));
    ("wallet_id", JId wallet_id);
    ("inner_tx_hash", JStr (pf_inner_hash_hex p));
    ("fee_bump_tx_hash", json_opt JStr fee_bump_hash);
    ("fee_stroops", JNum (pf_max_fee p));
    ("status", JStr status)]);
  ret (Ok (mkSponsorResponse (Sponsorship.s_id reserved) status (pf_inner_hash_hex p) fee_bump_hash (pf_max_fee p))).

Definition sponsor (wallet_id : Uuid) (req : SponsorRequest) : M (result SponsorResponse ApiError) :=
  try p <- preflight wallet_id req | (fun e => e);
  try reserved <- try_reserve_sponsored_transaction wallet_id (pf_inner_hash_hex p) (pf_max_fee p)
                    (Sponsorship.g_daily_budget_stroops (pf_config p)) | from_store_error;
  match sealed_parts (pf_wallet p) with
  | None =>
      do _ <- finalize_sponsored_transaction (Sponsorship.s_id reserved) "failed" None (Some "no gas tank");
      ret (Err Internal)
  | Some parts =>
      match sealed_of (pf_wallet p) parts with
      | None => ret (Err Internal)
      | Some sealed =>
          match sign_with_any sealed (mkFeeBumpRequest (pf_inner_xdr p) (pf_max_fee p)) with
          | None =>
              do _ <- finalize_sponsored_transaction (Sponsorship.s_id reserved) "failed" None (Some "signing failed");
              ret (Err Internal)
          | Some signed => submit_and_record wallet_id p reserved signed
          end
      end
  end.
End Handlers.

(** ** Reasoning about one run *)

Section Runs.
Notation World := (World DbState Ext).

(** A run of [m] from [w] ends in [Q], or the process dies in [D]. *)
Definition runs {A} (D : World -> Prop) (m : M A) (Q : A -> World -> Prop) (w : World) : Prop :=
  match m w with (Ret a, w') => Q a w' | (Crashed, w') => D w' end.

Lemma runs_ret {A} D (a : A) (Q : A -> World -> Prop) w : Q a w -> runs D (ret a) Q w.
Proof. done. Qed.

Lemma runs_bind {A B} D (m : M A) (f : A -> M B) Q w :
  runs D m (fun a => runs D (f a) Q) w -> runs D (bind m f) Q w.
Proof. unfold runs, bind. by destruct (m w) as [[a|] w']. Qed.

Lemma runs_try {A B E F} D (m : M (result A E)) (f : E -> F) (k : A -> M (result B F)) Q w :
  runs D m (fun r w' => match r with Ok a => runs D (k a) Q w' | Err e => Q (Err (f e)) w' end) w ->
  runs D (try_bind m f k) Q w.
Proof.
  unfold runs, try_bind, bind. by destruct (m w) as [[[a|e]|] w'].
Qed.

Lemma runs_mono {A} D (m : M A) (Q Q' : A -> World -> Prop) w :
  (forall a w', Q a w' -> Q' a w') -> runs D m Q w -> runs D m Q' w.
Proof. unfold runs. destruct (m w) as [[a|] w']; auto. Qed.

Lemma runs_weaken {A} (D D' : World -> Prop) (m : M A) (Q Q' : A -> World -> Prop) w :
  (forall w', D w' -> D' w') -> (forall a w', Q a w' -> Q' a w') -> runs D m Q w -> runs D' m Q' w.
Proof. unfold runs. destruct (m w) as [[a|] w']; auto. Qed.

(** A statement, when other connections relate states by [keeps] and [P] is stable. *)
Lemma runs_call {A} (keeps : DbState -> DbState -> Prop) (P : DbState -> Prop)
    (stmt : Z -> DbState -> result A sqlx_error * DbState) w :
  (forall s s', keeps s s' -> P s -> P s') ->
  Forall (fun t => forall s, keeps s (t_others t s)) (ticks w) -> P (db w) ->
  (forall now s, P s -> P (snd (stmt now s))) ->
  let after w' := Forall (fun t => forall s, keeps s (t_others t s)) (ticks w') /\ ext w' = ext w /\ P (db w') in
  runs after (db_call stmt)
    (fun r w' => after w' /\
       match r with Ok a => exists now s, P s /\ stmt now s = (Ok a, db w') | Err _ => True end) w.
Proof.
  intros Hst Ht HP Hstmt after. unfold runs, db_call. set (t := default quiet_tick (head (ticks w))).
  assert (Hs : P (t_others t (db w))).
  { unfold t. destruct (ticks w) as [|t0 ts]; [done|]. apply Forall_cons in Ht as [Ht _]. by eapply Hst. }
  assert (Hts : Forall (fun t => forall s, keeps s (t_others t s)) (tail (ticks w))).
  { destruct (ticks w); [done|]. by apply Forall_cons in Ht as [_ Ht]. }
  pose proof (Hstmt (t_now t) _ Hs) as Hk.
  destruct (stmt (t_now t) (t_others t (db w))) as [r s'] eqn:E. cbn in Hk.
  destruct (t_fault t); unfold after; cbn; try (by split_and!).
  split; [by split_and!|]. destruct r; [|done]. exists (t_now t), (t_others t (db w)). by rewrite E.
Qed.
End Runs.

Ltac step := first [apply runs_try | apply runs_bind]; cbn beta.

(** ** What is submitted was approved and reserved *)

Section Gate.
Context {strkey : Strkey} {codec : Codec} {laws : @CodecLaws codec} {aead : Aead}.
Variables (network : StellarNetwork) (out : Outside) (opening_keys : list bytes).
Notation World := (World DbState Ext).

(** The wallet's row and configuration. *)
Variables (wallet_id : Uuid) (wallet : Wallet) (config : GasSponsorshipConfig).

Definition fixed (s : DbState) : Prop :=
  wallet_of wallet_id s = Some wallet /\ config_of wallet_id (policies s) = Some config.

(** A reservation, whatever became of it. *)
Definition reserved (hash : string) (fee : Z) (s : DbState) : Prop :=
  exists r, r ∈ Sponsorship.sponsored (policies s) /\ Sponsorship.s_wallet_id r = wallet_id /\
    Sponsorship.s_inner_tx_hash r = hash /\ Sponsorship.s_fee_stroops r = fee.

(** Other connections leave the row and the configuration alone and delete no
    reservation. *)
Definition keeps (s s' : DbState) : Prop :=
  (fixed s -> fixed s') /\ forall hash fee, reserved hash fee s -> reserved hash fee s'.

Definition undisturbed (w : World) : Prop :=
  Forall (fun t => forall s, keeps s (t_others t s)) (ticks w) /\ fixed (db w) /\
  0 <= Resilience.max_delay_ms (ApiHorizon.h_retry (x_horizon (ext w))).

(** What the checks ask of the request, its envelope and the inner transaction. *)
Definition approved (req : SponsorRequest) (inner_xdr : string) (fee : Z) (v1 : TransactionV1Envelope) : Prop :=
  is_archived wallet = false /\ Sponsorship.g_enabled config = true /\
  sr_transaction_xdr req = Some inner_xdr /\ sr_max_base_fee_stroops req = Some fee /\
  MIN_BASE_FEE <= fee /\
  (forall cap, Sponsorship.g_per_tx_fee_cap_stroops config = Some cap -> fee <= cap) /\
  from_xdr_base64 inner_xdr = Some (Tx v1) /\
  ~ spends_from (w_stellar_account_g wallet) (t_source_account v1) /\
  Forall (fun op => op_type_name (op_body op) ∈ ALLOWED_OP_TYPES /\
            forall l, Sponsorship.g_allowed_operations config = Some l -> op_type_name (op_body op) ∈ l)
    (t_operations v1).

Definition passed (req : SponsorRequest) (p : Preflight) : Prop :=
  pf_wallet p = wallet /\ pf_config p = config /\
  (exists v1, approved req (pf_inner_xdr p) (pf_max_fee p) v1) /\
  exists hash, compute_inner_tx_hash (pf_inner_xdr p) network = Ok hash /\ pf_inner_hash_hex p = hex_encode hash.

Lemma validate_inner_spec xdr master wl :
  validate_inner_xdr xdr master wl = Ok tt ->
  exists v1, from_xdr_base64 xdr = Some (Tx v1) /\ ~ spends_from master (t_source_account v1) /\
    Forall (fun op => op_type_name (op_body op) ∈ ALLOWED_OP_TYPES /\
              forall l, wl = Some l -> op_type_name (op_body op) ∈ l) (t_operations v1).
Proof.
  unfold validate_inner_xdr. destruct (from_xdr_base64 xdr) as [[|v1|]|]; try done.
  destruct (source_matches (t_source_account v1) master) eqn:Em; [done|]. intros Hops%check_ops_spec.
  exists v1. split_and!; [done| |done]. rewrite <-source_matches_spec. congruence.
Qed.

Lemma required_xdr_spec req x : required_xdr req = Ok x -> sr_transaction_xdr req = Some x.
Proof. unfold required_xdr. destruct (sr_transaction_xdr req); [case_bool_decide|]; naive_solver. Qed.

Lemma required_fee_spec req f :
  required_fee req = Ok f -> sr_max_base_fee_stroops req = Some f /\ MIN_BASE_FEE <= f.
Proof.
  unfold required_fee. destruct (sr_max_base_fee_stroops req) as [f'|]; [|done].
  destruct (0 <? f'); [|done]. cbn. destruct (Z.ltb_spec f' MIN_BASE_FEE); [done|]. by intros [= <-].
Qed.

Lemma account_sequence_client g h :
  0 <= Resilience.max_delay_ms (ApiHorizon.h_retry h) ->
  let '(r, h') := account_sequence out g h in
  0 <= Resilience.max_delay_ms (ApiHorizon.h_retry h') /\ is_Some r.
Proof.
  intros Hd. unfold account_sequence, ApiHorizon.account_info.
  match goal with |- context [ApiHorizon.read_call ?o ?c ?http ?url ?dec h] =>
    pose proof (ApiHorizon.read_call_spec o c http url dec h Hd) as Hr;
    destruct (ApiHorizon.read_call o c http url dec h) as [r h'] end.
  destruct Hr as ((_ & Hretry & _) & Hr). rewrite Hretry. split; [done|]. by destruct r.
Qed.

(** From [w] to [w'] nothing was posted. *)
Definition unposted (w w' : World) : Prop := undisturbed w' /\ x_posted (ext w') = x_posted (ext w).

Lemma unposted_trans w w1 w2 : unposted w w1 -> unposted w1 w2 -> unposted w w2.
Proof. intros [_ H1] [H2 H3]. split; [done|congruence]. Qed.

Lemma unposted_refl w : undisturbed w -> unposted w w.
Proof. done. Qed.

Lemma runs_query {A} (q : DbState -> A) w :
  undisturbed w ->
  runs (unposted w) (query (fun _ s => q s))
    (fun r w' => unposted w w' /\ match r with Ok a => exists s, fixed s /\ a = q s | Err _ => True end) w.
Proof.
  intros (Ht & Hf & Hd). unfold query.
  eapply runs_weaken; [| |eapply (runs_call keeps fixed); [|exact Ht|exact Hf|done]].
  - intros w' (H1 & H2 & H3). rewrite <-H2 in Hd. split; [done|congruence].
  - intros r w' ((H1 & H2 & H3) & Hr). rewrite <-H2 in Hd. split; [by split; [|congruence]|].
    destruct r; [|done]. destruct Hr as (now & s & Hs & [= <- _]). eauto.
  - intros s s' [Hk _]. exact Hk.
Qed.

Lemma runs_account_sequence g w :
  undisturbed w ->
  runs (unposted w) (horizon_call (account_sequence out g)) (fun _ w' => unposted w w') w.
Proof.
  intros (Ht & Hf & Hd). unfold runs, horizon_call. pose proof (account_sequence_client g _ Hd) as Ha.
  destruct (account_sequence out g (x_horizon (ext w))) as [r h]. destruct Ha as [Hd' [res ->]].
  by split_and!.
Qed.

Lemma preflight_spec req w :
  undisturbed w ->
  runs (unposted w) (preflight network out wallet_id req)
    (fun r w' => unposted w w' /\ match r with Ok p => passed req p | Err _ => True end) w.
Proof.
  intros Hw. unfold preflight.
  step. apply runs_ret. destruct (required_xdr req) as [xdr|] eqn:Ex; [|done]. apply required_xdr_spec in Ex.
  step. apply runs_ret. destruct (required_fee req) as [fee|] eqn:Ef; [|done]. apply required_fee_spec in Ef as [Ef Hmin].
  step. unfold get_wallet. step. eapply runs_mono; [|by apply runs_query]. intros r w1 [Hw1 Hr]. apply runs_ret.
  destruct r as [ow|e]; [|done]. destruct Hr as (s1 & [Hs1 _] & ->). rewrite Hs1. cbn [map_err result_bind ok_or].
  destruct (is_archived wallet) eqn:Ea; [by apply runs_ret|].
  step. unfold get_gas_sponsorship_config. step.
  eapply runs_weaken; [| |apply runs_query, Hw1]; [intros ?; by apply unposted_trans|].
  intros r w2 [Hw2 Hr]. apply runs_ret. pose proof (unposted_trans _ _ _ Hw1 Hw2) as Hw02.
  destruct r as [oc|e]; [|done]. destruct Hr as (s2 & [_ Hs2] & ->). rewrite Hs2. cbn [map_err].
  step. apply runs_ret. cbn [require_enabled]. destruct (Sponsorship.g_enabled config) eqn:Een; [|done].
  step. apply runs_ret. destruct (check_cap config fee) as [[]|] eqn:Ec; [|done].
  step. apply runs_ret. destruct (validate_inner_xdr _ _ _) as [[]|] eqn:Ev; [|done].
  apply validate_inner_spec in Ev as (v1 & Hv1 & Hsrc & Hops).
  case_bool_decide; cbn [negb]; [|by apply runs_ret].
  step. eapply runs_weaken; [| |apply runs_account_sequence, Hw02]; [intros ?; by apply unposted_trans|].
  intros live w3 Hw3. pose proof (unposted_trans _ _ _ Hw02 Hw3) as Hw03. destruct live as [live|]; [|done].
  step. apply runs_ret. destruct (inner_sequence_number xdr) as [seq|]; [|done].
  destruct (seq <=? live); [by apply runs_ret|].
  step. apply runs_ret. destruct (compute_inner_tx_hash xdr network) as [hash|] eqn:Eh; [|done].
  apply runs_ret. split; [done|]. split_and!; [done..| |by exists hash].
  exists v1. split_and!; try done. intros cap Hcap. unfold check_cap in Ec. rewrite Hcap in Ec.
  cbn. destruct (Z.ltb_spec cap fee); [done|lia].
Qed.

(** *** The reservation and its record *)

Lemma reserve_spec w' h f b now s :
  let '(r, s') := reserve_tx w' h f b now s in
  Sponsorship.configs s' = Sponsorship.configs s /\
  (forall x, x ∈ Sponsorship.sponsored s -> x ∈ Sponsorship.sponsored s') /\
  match r with
  | Ok (Some x) => x ∈ Sponsorship.sponsored s' /\ Sponsorship.s_wallet_id x = w' /\
      Sponsorship.s_inner_tx_hash x = h /\ Sponsorship.s_fee_stroops x = f
  | _ => True
  end.
Proof.
  unfold reserve_tx, Sponsorship.insert_sponsored. repeat case_match; simplify_eq/=; try by split_and!.
  all: split_and!; try done; [intros x Hx; apply elem_of_app; by left|apply elem_of_app; right; by left].
Qed.

Lemma reserve_fixed h f b now s : fixed s -> fixed (snd (on_policies (reserve_tx wallet_id h f b) now s)).
Proof.
  intros [Hw Hc]. unfold on_policies. pose proof (reserve_spec wallet_id h f b now (policies s)) as Hr.
  destruct (reserve_tx wallet_id h f b now (policies s)) as [r p]. destruct Hr as (Hcfg & _).
  split; [done|]. unfold config_of in *. cbn. by rewrite Hcfg.
Qed.

Lemma update_reserved id st h e now s hash fee :
  reserved hash fee s -> reserved hash fee (snd (on_policies (update_status_stmt id st h e) now s)).
Proof.
  unfold on_policies, update_status_stmt.
  destruct (existsb _ _ && _); [by destruct s|]. intros (r & Hr & Hrest). unfold reserved. cbn.
  match goal with |- context [Store.update_where ?q ?g _] => set (p := q); set (upd := g) end.
  exists (if p r then upd r else r). split.
  - unfold Store.update_where. apply list_elem_of_fmap. exists r. by split.
  - by destruct (p r).
Qed.

Lemma update_keeps id st h e now s : keeps s (snd (on_policies (update_status_stmt id st h e) now s)).
Proof.
  split; [|intros; by apply update_reserved]. unfold on_policies, update_status_stmt.
  destruct (existsb _ _ && _); by destruct s.
Qed.

(** What one run may have posted. *)
Definition gated (req : SponsorRequest) (w w' : World) : Prop :=
  x_posted (ext w') = x_posted (ext w) \/
  exists inner_xdr fee v1 hash text e,
    x_posted (ext w') = text :: x_posted (ext w) /\
    approved req inner_xdr fee v1 /\
    decode_envelope_strict text = Ok (TxFeeBump e) /\
    fb_fee (fbe_tx e) = fee /\ fb_inner_tx (fbe_tx e) = v1 /\
    compute_inner_tx_hash inner_xdr network = Ok hash /\ reserved (hex_encode hash) fee (db w').

Lemma unposted_gated req w w' : unposted w w' -> gated req w w'.
Proof. intros [_ H]. by left. Qed.

(** Nothing posted, and the fee reserved. *)
Definition holding (p : Preflight) (w w' : World) : Prop :=
  unposted w w' /\ reserved (pf_inner_hash_hex p) (pf_max_fee p) (db w').

Lemma runs_finalize id st h e (P : DbState -> Prop) (w : World) :
  (forall s s', keeps s s' -> P s -> P s') ->
  Forall (fun t => forall s, keeps s (t_others t s)) (ticks w) -> P (db w) ->
  runs (fun w' => ext w' = ext w /\ P (db w')) (finalize_sponsored_transaction id st h e)
    (fun _ w' => ext w' = ext w /\ P (db w')) w.
Proof.
  intros Hst Ht HP. unfold finalize_sponsored_transaction. step.
  eapply runs_weaken; [| |apply (runs_call keeps P _ w Hst Ht HP)].
  - intros w' (_ & H1 & H2). done.
  - intros r w' ((_ & H1 & H2) & _). by apply runs_ret.
  - intros now s Hs. eapply Hst; [apply update_keeps|done].
Qed.

Lemma runs_reserve p w :
  pf_config p = config -> undisturbed w ->
  runs (unposted w)
    (try_reserve_sponsored_transaction wallet_id (pf_inner_hash_hex p) (pf_max_fee p)
       (Sponsorship.g_daily_budget_stroops (pf_config p)))
    (fun r w' => match r with Ok _ => holding p w w' | Err _ => unposted w w' end) w.
Proof.
  intros Hp (Ht & Hf & Hd). unfold try_reserve_sponsored_transaction. step.
  eapply runs_weaken; [| |apply (runs_call keeps fixed _ w); [by intros s s' [Hk _]|exact Ht|exact Hf|]].
  - intros w' (H1 & H2 & H3). rewrite <-H2 in Hd. split; [done|congruence].
  - intros r w' ((H1 & H2 & H3) & Hr). apply runs_ret.
    assert (Hu : unposted w w') by (rewrite <-H2 in Hd; split; [done|congruence]).
    destruct r as [[row|]|e]; [|done..]. split; [done|]. destruct Hr as (now & s & _ & Hr). revert Hr.
    unfold on_policies. match goal with |- context [reserve_tx ?a ?b ?c ?d ?e ?f] =>
      pose proof (reserve_spec a b c d e f) as Hs; destruct (reserve_tx a b c d e f) as [r0 s0] end.
    intros [= -> Hdb]. destruct Hs as (_ & _ & Hrow). exists row. by rewrite <-Hdb.
  - intros now s. apply reserve_fixed.
Qed.

Lemma runs_submit text w :
  0 <= Resilience.max_delay_ms (ApiHorizon.h_retry (x_horizon (ext w))) ->
  let after w' := db w' = db w /\ ticks w' = ticks w /\ at_most_posts text (x_posted (ext w)) (ext w') in
  runs after (submit out text) (fun _ => after) w.
Proof.
  intros Hd after. pose proof (submit_ext out text w Hd) as Hp. revert Hp. unfold runs, submit, after. cbn [horizon_of posted_of with_wire Ext_wire].
  destruct (ApiHorizon.submit_transaction out text (x_horizon (ext w))) as [[[r|] posts] h]; cbn; intros Hp; by split_and!.
Qed.

(** The envelope a key signed for the request that passed. *)
Lemma sign_with_any_spec req p sealed signed :
  passed req p ->
  sign_with_any network opening_keys sealed (mkFeeBumpRequest (pf_inner_xdr p) (pf_max_fee p)) = Some signed ->
  exists v1 e, approved req (pf_inner_xdr p) (pf_max_fee p) v1 /\
    decode_envelope_strict (envelope_xdr signed) = Ok (TxFeeBump e) /\
    fb_fee (fbe_tx e) = pf_max_fee p /\ fb_inner_tx (fbe_tx e) = v1.
Proof using laws.
  intros (_ & _ & [v1 Ha] & _). unfold sign_with_any. intros Hhd.
  assert (Hin : signed ∈ omap (fun key => result_ok (sign_fee_bump key sealed network 0
    (mkFeeBumpRequest (pf_inner_xdr p) (pf_max_fee p)))) opening_keys).
  { destruct (omap _ opening_keys); [done|]. cbn in Hhd. simplify_eq. by left. }
  apply list_elem_of_omap in Hin as (k & _ & Hk).
  destruct (sign_fee_bump k sealed network 0 _) as [sp|] eqn:Es; [|done]. cbn in Hk. injection Hk as ->.
  destruct (sign_fee_bump_spec _ _ _ _ _ _ Es) as (_ & v & secret & e & Hv & _ & _ & Hd & Hb & _).
  exists v1, e. split_and!; [done..| |]; rewrite Hb; [done|]. cbn.
  destruct Ha as (_ & _ & _ & _ & _ & _ & Hx & _). pose proof (readers_agree _ _ _ Hx Hv). congruence.
Qed.

Lemma submit_and_record_spec req p row signed w w1 :
  passed req p -> holding p w w1 ->
  (exists v1 e, approved req (pf_inner_xdr p) (pf_max_fee p) v1 /\
    decode_envelope_strict (envelope_xdr signed) = Ok (TxFeeBump e) /\
    fb_fee (fbe_tx e) = pf_max_fee p /\ fb_inner_tx (fbe_tx e) = v1) ->
  runs (gated req w) (submit_and_record out wallet_id p row signed) (fun _ => gated req w) w1.
Proof.
  intros (_ & _ & _ & hash & Hh & Hhex) [[(Ht & Hf & Hd) Hpost] Hres] (v1 & e & Ha & He & Hfee & Hin).
  set (P := reserved (pf_inner_hash_hex p) (pf_max_fee p)).
  assert (HP : forall s s', keeps s s' -> P s -> P s') by (intros s s' [_ Hk]; apply Hk).
  assert (Hgate : forall w', at_most_posts (envelope_xdr signed) (x_posted (ext w1)) (ext w') -> P (db w') -> gated req w w').
  { intros w' [E|E] Hr; cbn [posted_of Ext_wire] in E; [left; congruence|right]. exists (pf_inner_xdr p), (pf_max_fee p), v1, hash, (envelope_xdr signed), e.
    split_and!; try done; [congruence|]. by rewrite <-Hhex. }
  unfold submit_and_record. step.
  eapply runs_weaken; [| |apply (runs_submit (envelope_xdr signed) w1 Hd)].
  { intros w' (Hdb & _ & Hp). apply Hgate; [done|]. by rewrite Hdb. }
  intros r w2 (Hdb & Htk & Hp). destruct (outcome r) as [status fbh]. step.
  eapply runs_weaken; [| |apply (runs_finalize _ _ _ _ P w2 HP)]; [| |by rewrite Htk|by rewrite Hdb].
  { intros w' [Hx Hr]. apply Hgate; [by rewrite Hx|done]. }
  intros _ w3 [Hx Hr]. step. unfold runs, dispatch. cbn. apply Hgate; [|done]. unfold at_most_posts. cbn.
  by rewrite Hx.
Qed.

Lemma sponsor_spec req w :
  undisturbed w ->
  runs (gated req w) (sponsor network out opening_keys wallet_id req) (fun _ => gated req w) w.
Proof using laws.
  intros Hw. unfold sponsor. step.
  eapply runs_weaken; [| |by apply preflight_spec]; [apply unposted_gated|].
  intros r w1 [Hw1 Hr]. destruct r as [p|e]; [|by apply unposted_gated]. step.
  eapply runs_weaken; [| |apply (runs_reserve p w1); [apply Hr|apply Hw1]].
  { intros w' Hw'. by eapply unposted_gated, unposted_trans. }
  intros r w2 Hres. destruct r as [row|e]; [|by eapply unposted_gated, unposted_trans].
  assert (Hh : holding p w w2).
  { destruct Hres as [Hu Hrow]. split; [|done]. by eapply unposted_trans. }
  assert (Hfin : forall st h er, runs (gated req w)
    (do _ <- finalize_sponsored_transaction (Sponsorship.s_id row) st h er; ret (Err (A := SponsorResponse) Internal))
    (fun _ => gated req w) w2).
  { intros st h er. destruct Hh as [[(Ht & Hf & _) Hpost] _]. step.
    eapply runs_weaken; [| |apply (runs_finalize _ _ _ _ (fun _ => True) w2); [done|exact Ht|done]].
    - intros w' [Hx _]. left. congruence.
    - intros _ w' [Hx _]. apply runs_ret. left. congruence. }
  destruct (sealed_parts (pf_wallet p)) as [parts|]; [|apply Hfin].
  destruct (sealed_of (pf_wallet p) parts) as [sealed|]; [|apply runs_ret; by apply unposted_gated, Hh].
  destruct (sign_with_any _ _ _ _) as [signed|] eqn:Es; [|apply Hfin].
  apply submit_and_record_spec; [done..|]. by eapply sign_with_any_spec.
Qed.

(** C16: Nothing is sponsored unchecked or unreserved. However statements fail and
    wherever the process dies, one run of the handler submits at most one envelope. If
    it does, that envelope is a fee bump whose fee is the requested one, at least the
    network's minimum and at most the wallet's cap, whose inner transaction is the one
    in the request; the wallet is not archived and has sponsorship enabled; the inner
    transaction's source is not the wallet's own account and every operation is of a
    type that both the global list and the wallet's list allow; and the ledger of
    sponsored transactions holds a reservation of exactly this fee under the inner
    transaction's hash. *)
Theorem sponsor_gate (req : SponsorRequest) (w : World) :
  undisturbed w -> gated req w (snd (sponsor network out opening_keys wallet_id req w)).
Proof using laws.
  intros Hw. pose proof (sponsor_spec req w Hw) as H. unfold runs in H.
  by destruct (sponsor network out opening_keys wallet_id req w) as [[r|] w'].
Qed.
End Gate.

(** ** The dry run *)

Section DryRun.
Context {strkey : Strkey} {codec : Codec} {aead : Aead}.
Variables (network : StellarNetwork) (out : Outside) (opening_keys : list bytes).
Variable wallet_id : Uuid.
Notation World := (World DbState Ext).

(** The next [n] statements run at [now], without faults, and nobody else works on the
    database. *)
Definition calm (now : Z) (n : nat) (w : World) : Prop := ticks w = repeat (mkTick NoFault now (fun s => s)) n.

Definition same_data (w w' : World) : Prop :=
  db w' = db w /\ x_posted (ext w') = x_posted (ext w) /\ x_events (ext w') = x_events (ext w).

Lemma db_call_calm {A} (stmt : Z -> DbState -> result A sqlx_error * DbState) now n w :
  calm now (S n) w ->
  db_call stmt w = let '(r, s') := stmt now (db w) in (Ret r, mkWorld s' (repeat (mkTick NoFault now (fun s => s)) n) (ext w)).
Proof. unfold calm, db_call. intros E. rewrite E. cbn. destruct (stmt now (db w)) as [r s1]. reflexivity. Qed.

Lemma query_calm {A} (q : DbState -> A) now n w :
  calm now (S n) w ->
  runs (fun _ => False) (query (fun _ s => q s)) (fun r w' => r = Ok (q (db w)) /\ calm now n w' /\ same_data w w' /\
    x_horizon (ext w') = x_horizon (ext w)) w.
Proof. intros E. unfold runs, query. rewrite (db_call_calm _ _ _ _ E). by split_and!. Qed.

Lemma preflight_calm req now n w :
  calm now (S (S n)) w -> 0 <= Resilience.max_delay_ms (ApiHorizon.h_retry (x_horizon (ext w))) ->
  runs (fun _ => False) (preflight network out wallet_id req)
    (fun r w' => same_data w w' /\
       match r with
       | Ok p => calm now n w' /\ config_of wallet_id (policies (db w)) = Some (pf_config p) /\
           sr_max_base_fee_stroops req = Some (pf_max_fee p) /\ MIN_BASE_FEE <= pf_max_fee p
       | Err _ => True
       end) w.
Proof.
  intros Hc Hd. unfold preflight.
  step. apply runs_ret. destruct (required_xdr req) as [xdr|]; [|done].
  step. apply runs_ret. destruct (required_fee req) as [fee|] eqn:Ef; [|done]. apply required_fee_spec in Ef.
  step. unfold get_wallet. step. eapply runs_mono; [|eapply query_calm, Hc].
  intros r w1 (-> & Hc1 & Hs1 & Hh1). apply runs_ret. cbn [map_err result_bind].
  destruct (wallet_of wallet_id (db w)) as [wallet|]; cbn [ok_or]; [|done].
  destruct (is_archived wallet); [by apply runs_ret|].
  step. unfold get_gas_sponsorship_config. step. eapply runs_mono; [|eapply query_calm, Hc1].
  intros r w2 (-> & Hc2 & Hs2 & Hh2). apply runs_ret. cbn [map_err].
  assert (Hs02 : same_data w w2) by (unfold same_data in *; intuition congruence).
  step. apply runs_ret. destruct (require_enabled _) as [config|] eqn:Een; [|done].
  assert (Hcfg : config_of wallet_id (policies (db w)) = Some config).
  { destruct Hs1 as (<- & _). unfold require_enabled in Een. repeat case_match; congruence. }
  step. apply runs_ret. destruct (check_cap config fee); [|done].
  step. apply runs_ret. destruct (validate_inner_xdr _ _ _); [|done].
  case_bool_decide; cbn [negb]; [|by apply runs_ret].
  step. unfold runs at 1, horizon_call.
  pose proof (account_sequence_client out (w_stellar_account_g wallet) (x_horizon (ext w2))) as Ha.
  destruct (account_sequence out (w_stellar_account_g wallet) (x_horizon (ext w2))) as [r h].
  destruct Ha as [_ [res ->]]; [by rewrite Hh2, Hh1|]. cbn zeta.
  destruct res as [live|e]; [|done].
  step. apply runs_ret. destruct (inner_sequence_number xdr) as [seq|]; [|done].
  destruct (seq <=? live); [by apply runs_ret|].
  step. apply runs_ret. destruct (compute_inner_tx_hash xdr network); [|done]. apply runs_ret.
  split; [done|]. by split_and!; try apply Ef.
Qed.

(** Today's reserved fees. *)
Definition spent_today (now : Z) (s : DbState) : Z :=
  foldr Z.add 0 (Sponsorship.fees (Sponsorship.reserved_since wallet_id (Sponsorship.day_start now))
                   (Sponsorship.sponsored (policies s))).

(** The reservation, against its projection: within the budget, and not a duplicate. *)
Lemma reserve_projection hash fee budget now (s : DbState) :
  wallet_id ∈ Sponsorship.wallet_ids (policies s) ->
  0 <= fee -> 0 <= spent_today now s -> spent_today now s + fee <= i64_MAX ->
  let duplicate := existsb (fun r => bool_decide (Sponsorship.s_inner_tx_hash r = hash)) (Sponsorship.sponsored (policies s)) in
  projection_stmt wallet_id hash now (policies s) = (Ok (spent_today now s, duplicate), policies s) /\
  let within := match budget with Some b => spent_today now s + fee <=? b | None => true end in
  let '(r, s') := on_policies (reserve_tx wallet_id hash fee budget) now s in
  if negb within then r = Ok None /\ s' = s
  else if duplicate then r = Err (UniqueViolation "idx_sponsored_inner_tx_hash") /\ s' = s
  else exists row, r = Ok (Some row) /\ reserved wallet_id hash fee s'.
Proof.
  intros Hw Hfee H0 Hmax duplicate. set (total := spent_today now s) in *.
  assert (Hsum : Store.sum_bigint (Sponsorship.fees (Sponsorship.reserved_since wallet_id (Sponsorship.day_start now))
    (Sponsorship.sponsored (policies s))) = Some total).
  { apply guard_range_in. fold (spent_today now s). fold total. unfold i64_MIN. lia. }
  split; [unfold projection_stmt; by rewrite Hsum|].
  unfold on_policies. pose proof (reserve_spec wallet_id hash fee budget now (policies s)) as Hr. revert Hr.
  unfold reserve_tx. rewrite Hsum.
  assert (Htry : try_i64 (total + fee) = Some (total + fee)) by (apply guard_range_in; unfold i64_MIN; lia).
  assert (Hins : match Sponsorship.insert_sponsored wallet_id hash fee now (policies s) with
    | (Ok row, _) => duplicate = false
    | (Err e, s') => duplicate = true /\ e = UniqueViolation "idx_sponsored_inner_tx_hash" /\ s' = policies s end).
  { unfold Sponsorship.insert_sponsored. fold duplicate. destruct duplicate; [done|].
    unfold Sponsorship.wallet_fk. by rewrite bool_decide_true. }
  destruct (Sponsorship.insert_sponsored wallet_id hash fee now (policies s)) as [[row|e] s'].
  all: destruct budget as [b|]; rewrite ?Htry; cbn [option_map ok_or]; [destruct (total + fee <=? b)|]; cbn [negb].
  all: try (intros _; by destruct s).
  all: try (destruct Hins as (-> & -> & ->); intros _; by destruct s).
  all: rewrite Hins; intros (_ & _ & Hrow); exists row; (split; [done|]); by exists row.
Qed.

(** A reservation outlives the rest of the run. *)
Definition after_reserve (p : Preflight) (row : SponsoredTransaction) : M (result SponsorResponse ApiError) :=
  match sealed_parts (pf_wallet p) with
  | None =>
      do _ <- finalize_sponsored_transaction (Sponsorship.s_id row) "failed" None (Some "no gas tank");
      ret (Err Internal)
  | Some parts =>
      match sealed_of (pf_wallet p) parts with
      | None => ret (Err Internal)
      | Some sealed =>
          match sign_with_any network opening_keys sealed (mkFeeBumpRequest (pf_inner_xdr p) (pf_max_fee p)) with
          | None =>
              do _ <- finalize_sponsored_transaction (Sponsorship.s_id row) "failed" None (Some "signing failed");
              ret (Err Internal)
          | Some signed => submit_and_record out wallet_id p row signed
          end
      end
  end.

Lemma finalize_reserved id st h e hash fee now n w :
  calm now n w -> reserved wallet_id hash fee (db w) ->
  runs (fun w' => reserved wallet_id hash fee (db w')) (finalize_sponsored_transaction id st h e)
    (fun _ w' => reserved wallet_id hash fee (db w')) w.
Proof.
  intros Hc Hr. unfold runs, finalize_sponsored_transaction, bind, db_call. rewrite Hc.
  pose proof (fun t => update_reserved wallet_id id st h e t (db w) hash fee Hr) as Hk.
  destruct n; cbn; match goal with |- context [on_policies _ ?t _] => specialize (Hk t) end;
    by destruct (on_policies _ _ _) as [r s'].
Qed.

Lemma after_reserve_spec p row hash fee now n w :
  calm now n w -> reserved wallet_id hash fee (db w) ->
  reserved wallet_id hash fee (db (snd (after_reserve p row w))).
Proof.
  intros Hc Hr.
  assert (Hruns : runs (fun w' => reserved wallet_id hash fee (db w')) (after_reserve p row)
    (fun _ w' => reserved wallet_id hash fee (db w')) w).
  { unfold after_reserve. destruct (sealed_parts (pf_wallet p)) as [parts|].
    2:{ step. eapply runs_mono; [|by eapply finalize_reserved]. intros ? w' Hw'. by apply runs_ret. }
    destruct (sealed_of (pf_wallet p) parts) as [sealed|]; [|by apply runs_ret].
    destruct (sign_with_any _ _ _ _) as [signed|].
    2:{ step. eapply runs_mono; [|by eapply finalize_reserved]. intros ? w' Hw'. by apply runs_ret. }
    unfold submit_and_record. step. unfold runs at 1, submit.
    destruct (ApiHorizon.submit_transaction _ _ _) as [[[r|] posts] h0]; [|done]. cbn zeta.
    destruct (outcome r) as [status fbh]. step.
    eapply runs_mono; [|eapply (finalize_reserved _ _ _ _ _ _ now n); [exact Hc|exact Hr]].
    intros ? w' Hw'. step. unfold runs at 1, dispatch. by apply runs_ret. }
  unfold runs in Hruns. by destruct (after_reserve p row w) as [[r|] w'].
Qed.

Lemma sponsor_split req :
  sponsor network out opening_keys wallet_id req =
  try p <- preflight network out wallet_id req | (fun e => e);
  try row <- try_reserve_sponsored_transaction wallet_id (pf_inner_hash_hex p) (pf_max_fee p)
               (Sponsorship.g_daily_budget_stroops (pf_config p)) | from_store_error;
  after_reserve p row.
Proof. done. Qed.

(** What the dry run's answer says of the real call from the same state. *)
Definition foretells (now : Z) (w : World) (r : result (Preflight * option Z) ApiError)
    (real : Db.outcome (result SponsorResponse ApiError) * World) : Prop :=
  match r with
  | Ok (p, remaining) =>
      reserved wallet_id (pf_inner_hash_hex p) (pf_max_fee p) (db (snd real)) /\
      remaining = option_map (fun b => b - (spent_today now (db w) + pf_max_fee p))
               (Sponsorship.g_daily_budget_stroops (pf_config p)) /\
      forall l, remaining = Some l -> 0 <= l
  | Err e =>
      exists e', fst real = Ret (Err e') /\ same_data w (snd real) /\
        (e' = e \/ e = ApiHorizon.Conflict /\ e' = from_store_error BudgetExceeded)
  end.

(** C31: The dry run tells the truth. From one state of the database, and with nothing in
    between, [dry_run] writes nothing and posts nothing. If it accepts, the real call
    makes the reservation, and the budget it reports as left is what is left after it;
    if it refuses, the real call refuses, writes nothing and posts nothing, with the same
    error unless the transaction is both a duplicate and over the budget, when the dry
    run reports the former and the real call the latter. *)
Theorem dry_run_agrees (req : SponsorRequest) (now : Z) (w : World) :
  calm now 4 w -> 0 <= Resilience.max_delay_ms (ApiHorizon.h_retry (x_horizon (ext w))) ->
  wallet_id ∈ Sponsorship.wallet_ids (policies (db w)) ->
  0 <= spent_today now (db w) ->
  (forall fee, sr_max_base_fee_stroops req = Some fee -> spent_today now (db w) + fee <= i64_MAX) ->
  (forall c b, config_of wallet_id (policies (db w)) = Some c ->
     Sponsorship.g_daily_budget_stroops c = Some b -> 0 <= b <= i64_MAX) ->
  exists r w1, dry_run network out wallet_id req w = (Ret r, w1) /\ same_data w w1 /\
    foretells now w r (sponsor network out opening_keys wallet_id req w).
Proof.
  intros Hc Hd Hfk H0 Hmax Hbudget. pose proof (preflight_calm req now 2 w Hc Hd) as Hp.
  rewrite sponsor_split. unfold dry_run, try_bind, bind, runs in *.
  destruct (preflight network out wallet_id req w) as [[[p|e]|] w1]; [| |done]; destruct Hp as [Hs1 Hp].
  2:{ exists (Err e), w1. split_and!; [done..|]. exists e. split_and!; [done..|by left]. }
  destruct Hp as (Hc1 & Hcfg & Hfee & Hmin). specialize (Hmax _ Hfee). specialize (fun b => Hbudget _ b Hcfg) as Hb. clear Hbudget.
  destruct Hs1 as (Hdb & Hpost & Hev). rewrite <-Hdb in Hfk, H0, Hmax.
  pose proof (reserve_projection (pf_inner_hash_hex p) (pf_max_fee p) (Sponsorship.g_daily_budget_stroops (pf_config p))
    now (db w1) Hfk) as Hr.
  specialize (Hr ltac:(unfold MIN_BASE_FEE in Hmin; lia) H0 Hmax). cbn zeta in Hr. destruct Hr as [Hproj Hres].
  unfold sponsorship_projection, try_reserve_sponsored_transaction, bind.
  rewrite !(db_call_calm _ now 1 w1 Hc1). unfold on_policies at 1. rewrite Hproj. cbn [ret map_err].
  destruct (on_policies (reserve_tx _ _ _ _) now (db w1)) as [r s'].
  set (dup := existsb _ _) in *. set (total := spent_today now (db w1)) in *. clearbody dup.
  assert (Hleft : forall b, Sponsorship.g_daily_budget_stroops (pf_config p) = Some b ->
    wrap_i64 (wrap_i64 (b - total) - pf_max_fee p) = b - (total + pf_max_fee p)).
  { intros b Eb. specialize (Hb b Eb). unfold MIN_BASE_FEE in Hmin.
    rewrite (wrap_i64_id (b - total)) by (unfold i64_MIN, i64_MAX in *; lia).
    rewrite wrap_i64_id; unfold i64_MIN, i64_MAX in *; lia. }
  assert (Heta : mkDbState (core (db w1)) (policies (db w1)) = db w1) by (by destruct (db w1)).
  assert (Hsame : forall x, db x = db w1 \/ db x = mkDbState (core (db w1)) (policies (db w1)) ->
    ext x = ext w1 -> same_data w x).
  { intros x E1 E2. unfold same_data. rewrite E2, <-Hdb. rewrite Heta in E1. by destruct E1 as [-> | ->]. }
  assert (Htot : spent_today now (db w) = total) by (unfold total; by rewrite Hdb).
  destruct dup; cbn [negb].
  - do 2 eexists. split; [reflexivity|]. split; [apply Hsame; auto|]. cbn [foretells].
    destruct (negb _) in Hres; destruct Hres as [-> ->]; eexists; (split; [reflexivity|]);
      (split; [apply Hsame; auto|]); [by right|by left].
  - destruct (Sponsorship.g_daily_budget_stroops (pf_config p)) as [b|] eqn:Eb; cbn zeta.
    + rewrite (Hleft b eq_refl). destruct (Z.ltb_spec (b - (total + pf_max_fee p)) 0).
      * do 2 eexists. split; [reflexivity|]. split; [apply Hsame; auto|]. cbn [foretells].
        destruct (Z.leb_spec (total + pf_max_fee p) b); [lia|]. cbn in Hres. destruct Hres as [-> ->].
        eexists. split; [reflexivity|]. split; [apply Hsame; auto|by left].
      * do 2 eexists. split; [reflexivity|]. split; [apply Hsame; auto|]. cbn [foretells].
        destruct (Z.leb_spec (total + pf_max_fee p) b); [|lia]. cbn in Hres. destruct Hres as (row & -> & Hrow).
        split; [by eapply (after_reserve_spec p row _ _ now 1)|]. rewrite Eb, Htot. cbn.
        split; [done|]. intros l [= <-]. lia.
    + do 2 eexists. split; [reflexivity|]. split; [apply Hsame; auto|]. cbn [foretells].
      cbn in Hres. destruct Hres as (row & -> & Hrow).
      split; [by eapply (after_reserve_spec p row _ _ now 1)|]. by rewrite Eb.
Qed.
End DryRun.

(** ** Concrete runs *)

Import WalletAddress.Toy Crypto.Toy.

(** A user's payment with sequence number [seq]. *)
Definition user_tx (seq : Z) : TransactionV1Envelope :=
  mkTransactionV1Envelope (mkTransaction (Ed25519 other_key) seq (Time 900) [payment_to the_key])
    [mkDecoratedSignature [] [7]].

Definition reading (seq : Z) : Codec := Signer.Toy.toy_codec (user_tx seq).

Definition master : Wallet := Store.mkWallet 1 "testnet" (account_of the_key)
  (Some (12 :: crypto_context Testnet ++ repeat 4 64)) (Some (repeat 6 12)) (Some (repeat 5 32)) (Some 1) 0 None None
  None "server" None None 0 0 None true false None.

Definition policy : GasSponsorshipConfig :=
  Sponsorship.mkGasSponsorshipConfig 1 true (Some 500) (Some 1000) 0 0 (Some ["Payment"]).

Definition ex_state (budget : option Z) (rows : list SponsoredTransaction) : DbState :=
  mkDbState (Store.mkState 100 [master] [] [] [] [] [] [])
    (Sponsorship.mkState 9 [1] rows [Sponsorship.mkGasSponsorshipConfig 1 true (Some 500) budget 0 0 (Some ["Payment"])] [] []).

(** The wallet's account has sequence number 5; [answer] is the answer to a submission. *)
Definition net (answer : ApiHorizon.http_response ApiHorizon.SubmitResponse) : Outside :=
  ApiHorizon.mkOutside (fun _ _ => Float64.zero)
    (fun _ _ _ => ApiHorizon.Response 200 (Some (ApiHorizon.mkAccountResponse [] "5" 0 0 0)))
    (fun _ _ _ => ApiHorizon.NoResponse) (fun _ _ _ _ => answer)
    (fun _ _ _ => ApiHorizon.NoResponse) (fun _ _ _ => ApiHorizon.NoResponse)
    (fun _ => None) (fun _ _ => HorizonIngest.mkTiming [] 1 2 3 []) (fun _ => (0, 0)).

Definition accepted : ApiHorizon.http_response ApiHorizon.SubmitResponse :=
  ApiHorizon.Response 200 (Some (ApiHorizon.mkSubmitResponse "h" true (Some 7) None)).

Definition world (n : nat) (s : DbState) : World DbState Ext :=
  mkWorld s (repeat (mkTick NoFault 1000 (fun s => s)) n) (mkExt (ApiHorizon.Horizon_new "https://h/") [] []).

Definition request : SponsorRequest := mkSponsorRequest (Some "xdr") (Some 200).

Definition statuses (r : Db.outcome (result SponsorResponse ApiError) * World DbState Ext) : list (string * Z) :=
  List.map (fun t => (Sponsorship.s_status t, Sponsorship.s_fee_stroops t)) (Sponsorship.sponsored (policies (db (snd r)))).

Example sponsored_run :
  let r := sponsor (codec := reading 8) Testnet (net accepted) [[9]; [1]] 1 request (world 4 (ex_state (Some 1000) [])) in
  x_posted (ext (snd r)) = ["bump"] /\ statuses r = [("confirmed", 200)].
Proof. vm_compute. by split. Qed.

(** A lost answer is recorded as a failure and the budget released, although the fee
    bump may have been applied. *)
Example lost_answer_releases :
  let r := sponsor (codec := reading 8) Testnet (net ApiHorizon.NoResponse) [[1]] 1 request (world 4 (ex_state (Some 1000) [])) in
  x_posted (ext (snd r)) = ["bump"] /\ statuses r = [("failed", 200)].
Proof. vm_compute. by split. Qed.

(** The sequence number of the user's transaction is compared with that of the wallet's
    own account, which is not its source: a valid transaction of a younger account is
    refused. *)
Example foreign_sequence_refused :
  fst (sponsor (codec := reading 4) Testnet (net accepted) [[1]] 1 request (world 4 (ex_state (Some 1000) [])))
  = Ret (Err (ApiHorizon.StaleSequence "Stale sequence number — refresh signing info and rebuild the transaction.")).
Proof. vm_compute. reflexivity. Qed.

(** Both a duplicate and over the budget: the dry run and the real call differ. *)
Example duplicate_over_budget :
  let row := Sponsorship.mkSponsoredTransaction 3 1 "06" None 900 "confirmed" None 500 in
  let w := world 4 (ex_state (Some 1000) [row]) in
  fst (dry_run (codec := reading 8) Testnet (net accepted) 1 request w) = Ret (Err ApiHorizon.Conflict) /\
  fst (sponsor (codec := reading 8) Testnet (net accepted) [[1]] 1 request w)
  = Ret (Err (ApiHorizon.TooManyRequests "daily sponsorship budget exceeded")).
Proof. vm_compute. by split. Qed.

Lemma sponsor_gate_witness :
  let w := world 4 (ex_state (Some 1000) []) in
  let w' := snd (sponsor (codec := reading 8) Testnet (net accepted) [[1]] 1 request w) in
  x_posted (ext w') = ["bump"] /\
  exists inner_xdr fee hash, compute_inner_tx_hash (codec := reading 8) inner_xdr Testnet = Ok hash /\
    MIN_BASE_FEE <= fee /\ reserved 1 (hex_encode hash) fee (db w').
Proof.
  cbn zeta. set (w := world 4 (ex_state (Some 1000) [])).
  assert (E : x_posted (ext (snd (sponsor (codec := reading 8) Testnet (net accepted) [[1]] 1 request w))) = ["bump"])
    by (vm_compute; reflexivity).
  split; [exact E|].
  destruct (sponsor_gate (codec := reading 8) (laws := Signer.Toy.toy_codec_laws (user_tx 8)) Testnet (net accepted)
    [[1]] 1 master policy request w) as [H|(x & fee & v1 & hash & text & e & _ & Ha & _ & _ & _ & Hh & Hr)].
  - split; [|split; [split; reflexivity|cbn; lia]]. cbn. repeat (constructor; [intros s; split; auto|]). constructor.
  - rewrite E in H. discriminate H.
  - exists x, fee, hash. split; [exact Hh|]. split; [apply Ha|exact Hr].
Defined.

Lemma dry_run_agrees_witness :
  let w := world 4 (ex_state (Some 1000) []) in
  exists r w1, dry_run (codec := reading 8) Testnet (net accepted) 1 request w = (Ret r, w1) /\
    foretells 1 1000 w r (sponsor (codec := reading 8) Testnet (net accepted) [[1]] 1 request w) /\ is_ok r = true.
Proof.
  cbn zeta. set (w := world 4 (ex_state (Some 1000) [])).
  destruct (dry_run_agrees (codec := reading 8) Testnet (net accepted) [[1]] 1 request 1000 w) as (r & w1 & H1 & _ & H2).
  - reflexivity.
  - cbn. lia.
  - left.
  - vm_compute. discriminate.
  - intros fee [= <-]. vm_compute. discriminate.
  - intros c b [= <-] [= <-]. split; vm_compute; discriminate.
  - exists r, w1. split; [exact H1|]. split; [exact H2|].
    assert (Hr : fst (dry_run (codec := reading 8) Testnet (net accepted) 1 request w) = Ret r) by (rewrite H1; reflexivity).
    vm_compute in Hr. injection Hr as <-. reflexivity.
Defined.
End Sponsor.
