(* ===== verification/AuditChain.v ===== *)
(** * The audit log's hash chain

    [crates/store/src/audit_chain.rs] and the recorders of [crates/api/src/audit.rs]: every
    entry of a user's audit log carries a MAC over its fields and the previous entry's
    MAC, and a head row pins the newest link. Appending and anonymising run in one
    transaction under a per-user lock, so each is one atomic step; verification reads in
    batches, statement by statement.

    HMAC-SHA256 is third-party code: the class [Hmac]. A [Uuid] is its 128-bit number. *)

From Stdlib Require Import Sorted.
From S2P Require Import Prelude Db Paging Store.

Module AuditChain.
Import Db Paging.
Import Store (Uuid, update_where, count_where).
Local Open Scope db_scope.

Definition bytes := list Z.

(** [to_be_bytes] of a number of [n] bytes. *)
Fixpoint be_bytes (n : nat) (z : Z) : bytes :=
  match n with
  | O => []
  | S n' => be_bytes n' (z / 256) ++ [z mod 256]
  end.

Definition i64_bytes (z : Z) : bytes := be_bytes 8 (z mod 2 ^ 64).
Definition u64_bytes (z : Z) : bytes := be_bytes 8 z.
Definition uuid_bytes (id : Uuid) : bytes := be_bytes 16 id.

Class Hmac := { hmac : bytes -> bytes -> bytes }.
Class HmacLaws `{Hmac} := { hmac_length : forall k m, length (hmac k m) = 32%nat }.

(** ** Rows *)

Definition GENESIS_PREV_HASH : bytes := repeat 0 32.
Definition ROW_DOMAIN : bytes := bytes_of "octo/audit-row/v1".
Definition HEAD_DOMAIN : bytes := bytes_of "octo/audit-head/v1".
Definition VERIFY_BATCH : Z := 1000.

Inductive AuditChainStatus :=
| Intact
| Unchained
| Broken (seq : option Z) (reason : string).

Record AuditChainReport := mkAuditChainReport {
  r_user_id : Uuid;
  r_rows_verified : Z;
  r_unchained_rows : Z;
  r_status : AuditChainStatus
}.

(** The hashed fields; times are in microseconds. *)
Record LinkFields := mkLinkFields {
  f_id : Uuid;
  f_user_id : Uuid;
  f_seq : Z;
  f_action : string;
  f_category : string;
  f_target : option string;
  f_ip_address : option string;
  f_created_at : Z
}.

(** A row of [audit_logs]: legacy when [a_seq] is NULL. *)
Record AuditRow := mkAuditRow {
  a_id : Uuid;
  a_user_id : Uuid;
  a_seq : option Z;
  a_prev_hash : option bytes;
  a_row_hash : option bytes;
  a_action : string;
  a_category : string;
  a_target : option string;
  a_ip_address : option string;
  a_created_at : Z
}.

Record HeadRow := mkHeadRow {
  h_user_id : Uuid;
  h_seq : Z;
  h_row_hash : bytes;
  h_head_mac : bytes
}.

(** [users] with whether [deleted_at] is set. *)
Record State := mkState {
  next_uuid : Uuid;
  users : list (Uuid * bool);
  audit_logs : list AuditRow;
  heads : list HeadRow
}.

Definition set_logs (s : State) (l : list AuditRow) : State := mkState (next_uuid s) (users s) l (heads s).
Definition set_heads (s : State) (h : list HeadRow) : State := mkState (next_uuid s) (users s) (audit_logs s) h.
Definition bump (s : State) : State := mkState (next_uuid s + 1) (users s) (audit_logs s) (heads s).

(** ** Messages *)

Definition put_str (s : string) : bytes := u64_bytes (slen s) ++ bytes_of s.

Definition put_opt (s : option string) : bytes :=
  match s with None => [0] | Some s => 1 :: put_str s end.

Definition row_message (prev_hash : bytes) (f : LinkFields) : bytes :=
  ROW_DOMAIN ++ prev_hash ++ uuid_bytes (f_id f) ++ uuid_bytes (f_user_id f) ++ i64_bytes (f_seq f)
  ++ i64_bytes (f_created_at f) ++ put_str (f_action f) ++ put_str (f_category f)
  ++ put_opt (f_target f) ++ put_opt (f_ip_address f).

Definition head_message (user_id : Uuid) (seq : Z) (row_hash : bytes) : bytes :=
  HEAD_DOMAIN ++ uuid_bytes user_id ++ i64_bytes seq ++ row_hash.

Definition to_hash (b : bytes) : option bytes := if (length b =? 32)%nat then Some b else None.

Section Chain.
Context `{Hmac}.
Variable key : bytes.

Definition row_hash (prev_hash : bytes) (f : LinkFields) : bytes := hmac key (row_message prev_hash f).

Definition head_mac (user_id : Uuid) (seq : Z) (row_hash : bytes) : bytes :=
  hmac key (head_message user_id seq row_hash).

Definition verified (head : HeadRow) (user_id : Uuid) : option (Z * bytes) :=
  let* hash := to_hash (h_row_hash head) in
  if bool_decide (head_mac user_id (h_seq head) hash = h_head_mac head) then Some (h_seq head, hash) else None.

(** ** Queries *)

Definition of_user (user_id : Uuid) (r : AuditRow) : bool := bool_decide (a_user_id r = user_id).

Definition is_legacy (user_id : Uuid) (r : AuditRow) : bool :=
  of_user user_id r && bool_decide (a_seq r = None).

Definition seq_of (r : AuditRow) : Z := default 0 (a_seq r).

Definition after_seq (user_id : Uuid) (last_seq : Z) (r : AuditRow) : bool :=
  of_user user_id r && match a_seq r with Some q => last_seq <? q | None => false end.

(** [ORDER BY seq LIMIT n] *)
Definition chain_rows (user_id : Uuid) (last_seq limit : Z) (s : State) : list AuditRow :=
  sql_limit limit (sort_by (fun a b => seq_of a <=? seq_of b)
                     (List.filter (after_seq user_id last_seq) (audit_logs s))).

Definition head_of (user_id : Uuid) (s : State) : option HeadRow :=
  List.find (fun h => bool_decide (h_user_id h = user_id)) (heads s).

Definition fields_of (r : AuditRow) : LinkFields :=
  mkLinkFields (a_id r) (a_user_id r) (seq_of r) (a_action r) (a_category r) (a_target r) (a_ip_address r)
    (a_created_at r).

Definition links_to (stored : option bytes) (hash : bytes) : bool :=
  bool_decide (option_bind _ _ to_hash stored = Some hash).

(** ** Verification *)

Definition broken (seq : option Z) (reason : string) : AuditChainStatus := Broken seq reason.

(** The body of the inner loop: the hash of the row, or why it breaks the chain. *)
Definition check_row (last_seq : Z) (prev : bytes) (row : AuditRow) : result bytes AuditChainStatus :=
  let expected := last_seq + 1 in
  if negb (seq_of row =? expected) then Err (broken (Some expected) "row missing (sequence gap)") else
  if negb (links_to (a_prev_hash row) prev) then
    Err (broken (Some (seq_of row)) "prev_hash does not link to prior row") else
  let recomputed := row_hash prev (fields_of row) in
  if negb (links_to (a_row_hash row) recomputed) then
    Err (broken (Some (seq_of row)) "row hash mismatch (row was edited)")
  else Ok recomputed.

(** Where the walk is: the last position and hash, and the number of rows verified. *)
Record Walk := mkWalk { w_last_seq : Z; w_prev : bytes; w_verified : Z }.

Definition walk_start : Walk := mkWalk 0 GENESIS_PREV_HASH 0.

Fixpoint walk (rows : list AuditRow) (w : Walk) : result Walk (AuditChainStatus * Z) :=
  match rows with
  | [] => Ok w
  | row :: rest =>
      match check_row (w_last_seq w) (w_prev w) row with
      | Err status => Err (status, w_verified w)
      | Ok hash => walk rest (mkWalk (seq_of row) hash (w_verified w + 1))
      end
  end.

(** What the head row says of the chain that was walked. *)
Definition head_status (user_id : Uuid) (unchained_rows : Z) (head : option HeadRow) (w : Walk) :
    AuditChainStatus :=
  match head with
  | None =>
      if w_last_seq w =? 0 then if 0 <? unchained_rows then Unchained else Intact
      else broken None "chain head missing"
  | Some head =>
      match verified head user_id with
      | None => broken None "chain head MAC invalid"
      | Some (seq, hash) =>
          if w_last_seq w <? seq then broken (Some (w_last_seq w + 1)) "rows deleted from the end of the chain"
          else if (seq <? w_last_seq w) || negb (bool_decide (hash = w_prev w)) then
            broken (Some seq) "chain head does not match the last row"
          else if 0 <? unchained_rows then broken None "unchained rows present after the chain started"
          else Intact
      end
  end.

Section Verify.
Context {X : Type}.
Notation M := (M State X).

(** The loop over the batches; [None] is out of fuel. *)
Fixpoint verify_loop (fuel : nat) (user_id : Uuid) (w : Walk) :
    M (result (option (result Walk (AuditChainStatus * Z))) StoreError) :=
  match fuel with
  | O => ret (Ok None)
  | S f =>
      try rows <- query (fun _ s => chain_rows user_id (w_last_seq w) VERIFY_BATCH s) | from_sqlx;
      match rows with
      | [] => ret (Ok (Some (Ok w)))
      | _ =>
          match walk rows w with
          | Err broken => ret (Ok (Some (Err broken)))
          | Ok w' => verify_loop f user_id w'
          end
      end
  end.

Definition verify_audit_chain (fuel : nat) (user_id : Uuid) : M (result (option AuditChainReport) StoreError) :=
  try unchained_rows <- query (fun _ s => count_where (is_legacy user_id) (audit_logs s)) | from_sqlx;
  try walked <- verify_loop fuel user_id walk_start | (fun e => e);
  match walked with
  | None => ret (Ok None)
  | Some (Err (status, n)) => ret (Ok (Some (mkAuditChainReport user_id n unchained_rows status)))
  | Some (Ok w) =>
      try head <- query (fun _ s => head_of user_id s) | from_sqlx;
      ret (Ok (Some (mkAuditChainReport user_id (w_verified w) unchained_rows
                       (head_status user_id unchained_rows head w))))
  end.

(** [SELECT user_id FROM audit_logs UNION SELECT user_id FROM audit_chain_heads ORDER BY 1] *)
Definition chain_users (s : State) : list Uuid :=
  sort_by Z.leb (remove_dups (List.map a_user_id (audit_logs s) ++ List.map h_user_id (heads s))).

Fixpoint verify_each (fuel : nat) (user_ids : list Uuid) (reports : list AuditChainReport) :
    M (result (option (list AuditChainReport)) StoreError) :=
  match user_ids with
  | [] => ret (Ok (Some reports))
  | user_id :: rest =>
      try report <- verify_audit_chain fuel user_id | (fun e => e);
      match report with
      | None => ret (Ok None)
      | Some r => verify_each fuel rest (reports ++ [r])
      end
  end.

Definition verify_all_audit_chains (fuel : nat) : M (result (option (list AuditChainReport)) StoreError) :=
  try user_ids <- query (fun _ s => chain_users s) | from_sqlx;
  verify_each fuel user_ids [].
End Verify.

(** ** Writing *)

Definition user_exists (user_id : Uuid) (s : State) : bool :=
  existsb (fun '(u, _) => bool_decide (u = user_id)) (users s).

Definition user_deleted (user_id : Uuid) (s : State) : bool :=
  existsb (fun '(u, deleted) => bool_decide (u = user_id) && deleted) (users s).

Definition write_head (user_id : Uuid) (seq : Z) (row_hash : bytes) (s : State) : result State StoreError :=
  let row := mkHeadRow user_id seq row_hash (head_mac user_id seq row_hash) in
  let p h := bool_decide (h_user_id h = user_id) in
  if negb ((1 <=? seq) && (length row_hash =? 32)%nat && (length (h_head_mac row) =? 32)%nat) then Err Database else
  if existsb p (heads s) then Ok (set_heads s (update_where p (fun _ => row) (heads s)))
  else if user_exists user_id s then Ok (set_heads s (heads s ++ [row]))
  else Err Database.

(** [UPDATE audit_logs SET seq, prev_hash, row_hash WHERE id] *)
Definition set_link (id : Uuid) (seq : Z) (prev hash : bytes) (s : State) : State :=
  set_logs s (update_where (fun r => bool_decide (a_id r = id))
    (fun r => mkAuditRow (a_id r) (a_user_id r) (Some seq) (Some prev) (Some hash) (a_action r) (a_category r)
                (a_target r) (a_ip_address r) (a_created_at r)) (audit_logs s)).

(** The loop over the legacy rows. *)
Fixpoint adopt_rows (user_id : Uuid) (rows : list AuditRow) (seq : Z) (prev : bytes) (s : State) :
    Z * bytes * State :=
  match rows with
  | [] => (seq, prev, s)
  | row :: rest =>
      let seq := seq + 1 in
      let hash := row_hash prev (mkLinkFields (a_id row) user_id seq (a_action row) (a_category row)
                                   (a_target row) (a_ip_address row) (a_created_at row)) in
      adopt_rows user_id rest seq hash (set_link (a_id row) seq prev hash s)
  end.

(** [ORDER BY created_at, id] *)
Definition time_leb (a b : AuditRow) : bool :=
  (a_created_at a <? a_created_at b)
  || ((a_created_at a =? a_created_at b) && (a_id a <=? a_id b)).

Definition legacy_rows (user_id : Uuid) (s : State) : list AuditRow :=
  sort_by time_leb (List.filter (is_legacy user_id) (audit_logs s)).

Definition adopt_legacy_rows (user_id : Uuid) (s : State) : Z * bytes * State :=
  adopt_rows user_id (legacy_rows user_id s) 0 GENESIS_PREV_HASH s.

Definition chain_tip (user_id : Uuid) (s : State) : result (Z * bytes * State) StoreError :=
  match head_of user_id s with
  | Some head =>
      let? tip := ok_or (verified head user_id) AuditChainCorrupt in
      Ok (fst tip, snd tip, s)
  | None =>
      if existsb (fun r => of_user user_id r && bool_decide (is_Some (a_seq r))) (audit_logs s)
      then Err AuditChainCorrupt
      else Ok (adopt_legacy_rows user_id s)
  end.

(** The INSERT of a chained row, with its foreign key, CHECK and unique index. *)
Definition insert_row (r : AuditRow) (s : State) : result State StoreError :=
  if negb (user_exists (a_user_id r) s) then Err Database else
  if existsb (fun x => of_user (a_user_id r) x && bool_decide (a_seq x = a_seq r)) (audit_logs s) then Err Database
  else Ok (bump (set_logs s (audit_logs s ++ [r]))).

(** One append; [created_at] is the clock reading of the process. *)
Definition append_link (user_id : Uuid) (action category : string) (target ip_address : option string)
    (created_at : Z) (s : State) : result State StoreError :=
  let? tip := chain_tip user_id s in
  let '(tip_seq, prev, s) := tip in
  let seq := tip_seq + 1 in
  let id := next_uuid s in
  let hash := row_hash prev (mkLinkFields id user_id seq action category target ip_address created_at) in
  let? s := insert_row (mkAuditRow id user_id (Some seq) (Some prev) (Some hash) action category target ip_address
                          created_at) s in
  write_head user_id seq hash s.

(** A transaction commits what it did, or nothing. *)
Definition atomically {A} (f : State -> result (A * State) StoreError) (s : State) :
    result (result A StoreError) sqlx_error * State :=
  match f s with
  | Ok (a, s') => (Ok (Ok a), s')
  | Err e => (Ok (Err e), s)
  end.

Definition record_audit_tx (user_id : Uuid) (action category : string) (target ip_address : option string)
    (created_at : Z) : Z -> State -> result (result unit StoreError) sqlx_error * State :=
  fun _ => atomically (fun s =>
    let? s' := append_link user_id action category target ip_address created_at s in Ok (tt, s')).

Definition record_audit {X} (user_id : Uuid) (action category : string) (target ip_address : option string)
    (created_at : Z) : M State X (result unit StoreError) :=
  do r <- db_call (record_audit_tx user_id action category target ip_address created_at);
  ret match r with Ok r => r | Err e => Err (from_sqlx e) end.

(** ** Anonymisation *)

(** The walk of the anonymisation: the last position, the old and the new hash. *)
Record Relink := mkRelink { l_last_seq : Z; l_old_prev : bytes; l_new_prev : bytes }.

(** [UPDATE audit_logs SET target = NULL, ip_address = NULL, prev_hash, row_hash WHERE id];
    the append-only trigger permits it for a deleted user. *)
Definition scrub_link (id : Uuid) (prev hash : bytes) (s : State) : State :=
  set_logs s (update_where (fun r => bool_decide (a_id r = id))
    (fun r => mkAuditRow (a_id r) (a_user_id r) (a_seq r) (Some prev) (Some hash) (a_action r) (a_category r)
                None None (a_created_at r)) (audit_logs s)).

Definition scrub_fields (f : LinkFields) : LinkFields :=
  mkLinkFields (f_id f) (f_user_id f) (f_seq f) (f_action f) (f_category f) None None (f_created_at f).

Fixpoint relink_rows (rows : list AuditRow) (l : Relink) (s : State) : result (Relink * State) StoreError :=
  match rows with
  | [] => Ok (l, s)
  | row :: rest =>
      if negb (seq_of row =? l_last_seq l + 1) || negb (links_to (a_prev_hash row) (l_old_prev l))
      then Err AuditChainCorrupt else
      let old_hash := row_hash (l_old_prev l) (fields_of row) in
      if negb (links_to (a_row_hash row) old_hash) then Err AuditChainCorrupt else
      let new_hash := row_hash (l_new_prev l) (scrub_fields (fields_of row)) in
      if negb (user_deleted (a_user_id row) s) then Err Database else
      relink_rows rest (mkRelink (seq_of row) old_hash new_hash)
        (scrub_link (a_id row) (l_new_prev l) new_hash s)
  end.

Fixpoint relink_loop (fuel : nat) (user_id : Uuid) (l : Relink) (s : State) :
    option (result (Relink * State) StoreError) :=
  match fuel with
  | O => None
  | S f =>
      match chain_rows user_id (l_last_seq l) VERIFY_BATCH s with
      | [] => Some (Ok (l, s))
      | rows =>
          match relink_rows rows l s with
          | Err e => Some (Err e)
          | Ok (l', s') => relink_loop f user_id l' s'
          end
      end
  end.

Definition has_pii (r : AuditRow) : bool :=
  bool_decide (is_Some (a_target r)) || bool_decide (is_Some (a_ip_address r)).

Definition clear_pii (r : AuditRow) : AuditRow :=
  mkAuditRow (a_id r) (a_user_id r) (a_seq r) (a_prev_hash r) (a_row_hash r) (a_action r) (a_category r)
    None None (a_created_at r).

(** The UPDATE of stray rows without a link; the number of rows. *)
Definition scrub_stray (user_id : Uuid) (s : State) : result (Z * State) StoreError :=
  let p r := is_legacy user_id r && has_pii r in
  let n := count_where p (audit_logs s) in
  if (0 <? n) && negb (user_deleted user_id s) then Err Database
  else Ok (n, set_logs s (update_where p clear_pii (audit_logs s))).

(** The number of rows scrubbed; [None] is out of fuel. *)
Definition anonymise_chain (fuel : nat) (user_id : Uuid) (s : State) : option (result (Z * State) StoreError) :=
  match chain_tip user_id s with
  | Err e => Some (Err e)
  | Ok (tip_seq, tip_hash, s) =>
      match relink_loop fuel user_id (mkRelink 0 GENESIS_PREV_HASH GENESIS_PREV_HASH) s with
      | None => None
      | Some (Err e) => Some (Err e)
      | Some (Ok (l, s)) =>
          if negb (l_last_seq l =? tip_seq) || negb (bool_decide (l_old_prev l = tip_hash))
          then Some (Err AuditChainCorrupt) else
          Some (let? s := if 0 <? l_last_seq l then write_head user_id (l_last_seq l) (l_new_prev l) s else Ok s in
                let? stray := scrub_stray user_id s in
                Ok (Z.max 0 (l_last_seq l) + fst stray, snd stray))
      end
  end.
End Chain.
End AuditChain.
