(* ===== verification/AuditLog.v ===== *)
(** * The audit log and its tamper evidence

    What [AuditChain] promises: each user has one log, appending extends it, anonymising
    clears its personal fields, verification accepts it; and a database edited without the
    key verifies only when it shows a log that the program itself once signed. *)

From Stdlib Require Import Sorted.
From S2P Require Import Prelude Db Paging Store AuditChain.

Module AuditLog.
Import Db Paging AuditChain.
Import Store (Uuid, update_where, count_where).

(** ** Sorting by a key *)

#[local] Instance filter_Permutation {A} (p : A -> bool) : Proper (Permutation ==> Permutation) (List.filter p).
Proof. intros l1 l2. apply filter_perm. Qed.

Lemma StronglySorted_inv_app {A} (R : A -> A -> Prop) l1 l2 :
  StronglySorted R (l1 ++ l2) <->
  StronglySorted R l1 /\ StronglySorted R l2 /\ (forall x y, x ∈ l1 -> y ∈ l2 -> R x y).
Proof.
  induction l1 as [|a l1 IH]; cbn.
  - split; [|naive_solver]. intros H. split_and!; [constructor|done|]. intros x y Hx. by apply not_elem_of_nil in Hx.
  - split.
    + intros [H1 H2]%StronglySorted_inv. apply IH in H1 as (H1 & H3 & H4). apply Forall_app in H2 as [H2 H5].
      split_and!; [by constructor|done|]. intros x y [-> | Hx]%elem_of_cons Hy; [|by apply H4].
      rewrite Forall_forall in H5. by apply H5.
    + intros ([H1 H2]%StronglySorted_inv & H3 & H4). constructor.
      * apply IH. split_and!; [done|done|]. intros x y Hx. apply H4. by right.
      * apply Forall_app. split; [done|]. apply Forall_forall. intros y Hy. apply H4; [by left|done].
Qed.

Section Keyed.
Context {A : Type} (key : A -> Z).

Definition by_key (a b : A) : bool := key a <=? key b.
Definition increasing : list A -> Prop := StronglySorted (fun a b => key a < key b).

Lemma insert_by_increasing a (l : list A) :
  increasing l -> Forall (fun b => key b <> key a) l -> increasing (insert_by by_key a l).
Proof.
  unfold increasing. induction 1 as [|b l Hl IH Hb]; intros Hn; cbn; [repeat constructor|].
  apply Forall_cons in Hn as [Hba Hn]. unfold by_key at 1. destruct (Z.leb_spec (key a) (key b)).
  - constructor; [by constructor|]. constructor; [lia|]. eapply Forall_impl; [exact Hb|]. cbn. lia.
  - constructor; [by apply IH|]. rewrite insert_by_perm. constructor; [lia|done].
Qed.

Lemma sort_by_increasing (l : list A) : NoDup (map key l) -> increasing (sort_by by_key l).
Proof.
  induction l as [|a l IH]; cbn; [constructor|]. intros [Ha Hl]%NoDup_cons.
  apply insert_by_increasing; [by apply IH|]. rewrite sort_by_perm. apply Forall_forall.
  intros b Hb E. apply Ha. rewrite <- E. by apply list_elem_of_fmap_2.
Qed.

Lemma increasing_nodup (l : list A) : increasing l -> NoDup (map key l).
Proof.
  induction 1 as [|a l Hl IH Ha]; cbn; constructor; [|done]. intros (b & E & Hb)%list_elem_of_fmap.
  rewrite Forall_forall in Ha. specialize (Ha b Hb). lia.
Qed.

Lemma increasing_unique (l1 l2 : list A) :
  increasing l1 -> increasing l2 -> Permutation l1 l2 -> l1 = l2.
Proof.
  intros H1. revert l2. induction H1 as [|a l1 Hl1 IH Ha]; intros l2 H2 P.
  - by apply Permutation_nil_l in P.
  - destruct H2 as [|b l2 Hl2 Hb]; [by apply Permutation_nil_r in P|].
    assert (a = b) as <-.
    { rewrite Forall_forall in Ha, Hb.
      assert (Ea : a ∈ b :: l2) by (rewrite <- P; by left). assert (Eb : b ∈ a :: l1) by (rewrite P; by left).
      apply elem_of_cons in Ea as [? | Ea]; [done|]. apply elem_of_cons in Eb as [? | Eb]; [done|].
      specialize (Ha b Eb). specialize (Hb a Ea). lia. }
    f_equal. apply IH; [done|]. by apply Permutation_cons_inv in P.
Qed.

Lemma sort_by_unique (l L : list A) : increasing l -> Permutation L l -> sort_by by_key L = l.
Proof.
  intros Hl P. apply increasing_unique; [|done|by rewrite sort_by_perm].
  apply sort_by_increasing. rewrite P. by apply increasing_nodup.
Qed.

(** The rows after a position of a sorted list. *)
Lemma filter_increasing_app (l1 l2 : list A) q :
  increasing (l1 ++ l2) -> Forall (fun a => key a <= q) l1 -> Forall (fun a => q < key a) l2 ->
  List.filter (fun a => q <? key a) (l1 ++ l2) = l2.
Proof.
  intros _ H1 H2. rewrite List.filter_app, filter_none, filter_all; [done| |].
  - eapply Forall_impl; [exact H2|]. cbn. lia.
  - eapply Forall_impl; [exact H1|]. cbn. lia.
Qed.
End Keyed.

(** ** A user's log *)

(** What an entry records; its position and its links are implied by the log. *)
Record Entry := mkEntry {
  e_id : Uuid;
  e_action : string;
  e_category : string;
  e_target : option string;
  e_ip_address : option string;
  e_created_at : Z
}.

Definition entry_of (r : AuditRow) : Entry :=
  mkEntry (a_id r) (a_action r) (a_category r) (a_target r) (a_ip_address r) (a_created_at r).

Definition scrub (e : Entry) : Entry :=
  mkEntry (e_id e) (e_action e) (e_category e) None None (e_created_at e).

Definition user_rows (u : Uuid) (s : State) : list AuditRow := List.filter (of_user u) (audit_logs s).

(** The constraints of the tables. *)
Record inv (s : State) : Prop := mkInv {
  inv_ids : NoDup (map a_id (audit_logs s));
  inv_fresh : Forall (fun r => a_id r < next_uuid s) (audit_logs s);
  inv_heads : NoDup (map h_user_id (heads s))
}.

(** [s'] shows user [v] what [s] does. *)
Definition same_user (v : Uuid) (s s' : State) : Prop :=
  user_rows v s' = user_rows v s /\ head_of v s' = head_of v s.

Lemma same_user_trans v s1 s2 s3 : same_user v s1 s2 -> same_user v s2 s3 -> same_user v s1 s3.
Proof. unfold same_user. intuition congruence. Qed.

(** [s'] differs from [s] in the rows of [u] only. *)
Definition only_rows (u : Uuid) (s s' : State) : Prop :=
  heads s' = heads s /\ users s' = users s /\ next_uuid s' = next_uuid s /\
  forall v, v <> u -> user_rows v s' = user_rows v s.

Lemma only_rows_refl u s : only_rows u s s.
Proof. by split_and!. Qed.

Lemma only_rows_trans u s1 s2 s3 : only_rows u s1 s2 -> only_rows u s2 s3 -> only_rows u s1 s3.
Proof.
  intros (H1 & H2 & H3 & H4) (H5 & H6 & H7 & H8). split_and!; [congruence..|].
  intros v Hv. by rewrite H8, H4.
Qed.

Lemma only_rows_same u s s' v : only_rows u s s' -> v <> u -> same_user v s s'.
Proof. intros (Hh & _ & _ & Hr) Hv. split; [by apply Hr|]. unfold head_of. by rewrite Hh. Qed.

(** ** One row updated by its id *)

Section UpdateRow.
Variable f : AuditRow -> AuditRow.
Hypothesis f_id : forall r, a_id (f r) = a_id r.
Hypothesis f_user : forall r, a_user_id (f r) = a_user_id r.

Definition with_id (id : Uuid) (r : AuditRow) : bool := bool_decide (a_id r = id).

Lemma user_rows_update v id s :
  user_rows v (set_logs s (update_where (with_id id) f (audit_logs s))) = update_where (with_id id) f (user_rows v s).
Proof using f_user.
  unfold user_rows, update_where. cbn. induction (audit_logs s) as [|r l IH]; cbn; [done|].
  assert (E : of_user v (if with_id id r then f r else r) = of_user v r).
  { unfold of_user. destruct (with_id id r); by rewrite ?f_user. }
  rewrite E. destruct (of_user v r); cbn; by rewrite IH.
Qed.

Lemma update_where_absent id l : id ∉ map a_id l -> update_where (with_id id) f l = l.
Proof.
  unfold update_where. induction l as [|r l IH]; cbn; [done|]. intros [Hr Hl]%not_elem_of_cons.
  rewrite IH by done. unfold with_id. by rewrite bool_decide_false by congruence.
Qed.

Lemma user_rows_ids u s : inv s -> NoDup (map a_id (user_rows u s)).
Proof.
  intros [Hids _ _]. unfold user_rows. revert Hids. generalize (audit_logs s). intros l.
  induction l as [|r l IH]; cbn; [done|]. intros [Hr Hl]%NoDup_cons. destruct (of_user u r); cbn; [|by apply IH].
  constructor; [|by apply IH]. intros (x & E & Hx)%list_elem_of_fmap. apply Hr. rewrite E.
  apply list_elem_of_fmap_2. rewrite list_elem_of_In in *. by apply filter_In in Hx as [Hx _].
Qed.

Lemma user_rows_elem u r s : r ∈ user_rows u s <-> r ∈ audit_logs s /\ a_user_id r = u.
Proof.
  unfold user_rows. rewrite !list_elem_of_In, filter_In. unfold of_user. by rewrite bool_decide_eq_true.
Qed.

Lemma inv_id_unique s r r' : inv s -> r ∈ audit_logs s -> r' ∈ audit_logs s -> a_id r = a_id r' -> r = r'.
Proof.
  intros [Hids _ _]. revert Hids. generalize (audit_logs s). intros l.
  induction l as [|x l IH]; cbn; [by intros _ ?%not_elem_of_nil|]. intros [Hx Hl]%NoDup_cons.
  intros [-> | Hr]%elem_of_cons [-> | Hr']%elem_of_cons E; [done| | |by apply IH].
  - exfalso. apply Hx. rewrite E. by apply list_elem_of_fmap_2.
  - exfalso. apply Hx. rewrite <- E. by apply list_elem_of_fmap_2.
Qed.

Lemma update_row u s r pre post :
  inv s -> Permutation (user_rows u s) (pre ++ r :: post) ->
  let s' := set_logs s (update_where (with_id (a_id r)) f (audit_logs s)) in
  inv s' /\ Permutation (user_rows u s') (pre ++ f r :: post) /\ only_rows u s s'.
Proof using f_id f_user.
  intros Hinv P s'. assert (Hr : r ∈ audit_logs s /\ a_user_id r = u).
  { apply user_rows_elem. rewrite P. set_solver. }
  destruct Hr as [Hr Hu]. split_and!.
  - destruct Hinv as [H1 H2 H3]. constructor; cbn; [|by eapply Store.update_where_Forall; [exact H2|]; cbn;
      intros x _; destruct (with_id _ x); rewrite ?f_id|done].
    by rewrite Store.update_where_key.
  - unfold s'. rewrite user_rows_update.
    assert (N : NoDup (map a_id (pre ++ r :: post))) by (rewrite <- P; by apply user_rows_ids).
    transitivity (update_where (with_id (a_id r)) f (pre ++ r :: post));
      [unfold update_where; by apply Permutation_map|].
    rewrite map_app in N. cbn in N. apply NoDup_app in N as (N1 & N2 & N3). apply NoDup_cons in N3 as [N3 N4].
    unfold update_where. rewrite map_app. cbn. unfold with_id at 2. rewrite bool_decide_true by done.
    fold (update_where (with_id (a_id r)) f pre). fold (update_where (with_id (a_id r)) f post).
    rewrite !update_where_absent; [done|done|]. intros Hin. apply (N2 _ Hin). by left.
  - split_and!; [done..|]. intros v Hv. unfold s'. rewrite user_rows_update. apply update_where_absent.
    intros (x & E & Hx)%list_elem_of_fmap. apply user_rows_elem in Hx as [Hx Ev].
    pose proof (inv_id_unique s r x Hinv Hr Hx E). congruence.
Qed.
End UpdateRow.

Section Log.
Context `{hm : Hmac} `{laws : !HmacLaws}.
Variable key : bytes.

Definition entry_fields (u : Uuid) (seq : Z) (e : Entry) : LinkFields :=
  mkLinkFields (e_id e) u seq (e_action e) (e_category e) (e_target e) (e_ip_address e) (e_created_at e).

Definition link (u : Uuid) (seq : Z) (prev : bytes) (e : Entry) : AuditRow :=
  mkAuditRow (e_id e) u (Some seq) (Some prev) (Some (row_hash key prev (entry_fields u seq e))) (e_action e)
    (e_category e) (e_target e) (e_ip_address e) (e_created_at e).

(** The rows of a log that goes on after position [seq] with hash [prev]. *)
Fixpoint chain (u : Uuid) (seq : Z) (prev : bytes) (log : list Entry) : list AuditRow :=
  match log with
  | [] => []
  | e :: rest => link u (seq + 1) prev e :: chain u (seq + 1) (row_hash key prev (entry_fields u (seq + 1) e)) rest
  end.

Fixpoint tip (u : Uuid) (seq : Z) (prev : bytes) (log : list Entry) : bytes :=
  match log with
  | [] => prev
  | e :: rest => tip u (seq + 1) (row_hash key prev (entry_fields u (seq + 1) e)) rest
  end.

Definition log_tip (u : Uuid) (log : list Entry) : bytes := tip u 0 GENESIS_PREV_HASH log.
Definition log_rows (u : Uuid) (log : list Entry) : list AuditRow := chain u 0 GENESIS_PREV_HASH log.
Definition log_head (u : Uuid) (log : list Entry) : HeadRow :=
  let seq := Z.of_nat (length log) in mkHeadRow u seq (log_tip u log) (head_mac key u seq (log_tip u log)).

(** A chain in the database. *)
Definition chained (u : Uuid) (log : list Entry) (s : State) : Prop :=
  Permutation (user_rows u s) (log_rows u log) /\ log <> [] /\ head_of u s = Some (log_head u log).

(** Rows from before chains. *)
Definition unchained (u : Uuid) (log : list Entry) (s : State) : Prop :=
  Forall (fun r => a_seq r = None) (user_rows u s) /\ log = map entry_of (legacy_rows u s) /\ head_of u s = None.

Definition holds (u : Uuid) (log : list Entry) (s : State) : Prop := chained u log s \/ unchained u log s.

(** The log of every user: what the tables mean. *)
Definition represents (logs : Uuid -> list Entry) (s : State) : Prop := inv s /\ forall u, holds u (logs u) s.

Lemma chain_app u q p l1 l2 :
  chain u q p (l1 ++ l2) = chain u q p l1 ++ chain u (q + Z.of_nat (length l1)) (tip u q p l1) l2.
Proof.
  revert q p. induction l1 as [|e l1 IH]; intros q p; cbn [chain app length tip]; [by rewrite Z.add_0_r|].
  rewrite IH. do 3 f_equal. lia.
Qed.

Lemma tip_app u q p l1 l2 :
  tip u q p (l1 ++ l2) = tip u (q + Z.of_nat (length l1)) (tip u q p l1) l2.
Proof.
  revert q p. induction l1 as [|e l1 IH]; intros q p; cbn [app length tip]; [by rewrite Z.add_0_r|].
  rewrite IH. f_equal. lia.
Qed.

Lemma tip_length u q p log : length p = 32%nat -> length (tip u q p log) = 32%nat.
Proof using laws.
  revert q p. induction log as [|e log IH]; intros q p Hp; cbn; [done|]. apply IH, hmac_length.
Qed.

Lemma log_tip_length u log : length (log_tip u log) = 32%nat.
Proof using laws. by apply tip_length. Qed.

Lemma chain_length u q p log : length (chain u q p log) = length log.
Proof. revert q p. induction log; cbn; auto. Qed.

Lemma chain_users_of u q p log : Forall (fun r => of_user u r = true) (chain u q p log).
Proof. revert q p. induction log; cbn; constructor; auto. by apply bool_decide_true. Qed.

Lemma chain_entries u q p log : map entry_of (chain u q p log) = log.
Proof. revert q p. induction log as [|[] log IH]; intros; cbn; [done|]. by rewrite IH. Qed.

Lemma chain_bounds u q p log :
  Forall (fun r => q < seq_of r <= q + Z.of_nat (length log) /\ a_seq r = Some (seq_of r)) (chain u q p log).
Proof.
  revert q p. induction log as [|e log IH]; intros q p; cbn [chain length]; constructor.
  - cbn. split; [lia|done].
  - eapply Forall_impl; [apply IH|]. cbn. intros r [? ?]. split; [lia|done].
Qed.

Lemma chain_increasing u q p log : increasing seq_of (chain u q p log).
Proof.
  revert q p. induction log as [|e log IH]; intros q p; cbn [chain]; constructor; [apply IH|].
  eapply Forall_impl; [apply chain_bounds|]. cbn. lia.
Qed.

Lemma filter_user_rows u (p : AuditRow -> bool) s :
  List.filter (fun r => of_user u r && p r) (audit_logs s) = List.filter p (user_rows u s).
Proof.
  unfold user_rows. induction (audit_logs s) as [|r l IH]; cbn; [done|]. destruct (of_user u r); cbn; [|done].
  by destruct (p r); [f_equal|].
Qed.

(** A batch of the rows after [q], when the rows up to [q] are [pre]. *)
Lemma chain_rows_batch u q n s pre rest :
  Permutation (user_rows u s) (pre ++ rest) -> increasing seq_of rest ->
  Forall (fun r => seq_of r <= q) pre -> Forall (fun r => q < seq_of r /\ a_seq r = Some (seq_of r)) rest ->
  Forall (fun r => is_Some (a_seq r)) pre ->
  chain_rows u q n s = sql_limit n rest.
Proof.
  intros P Hinc Hpre Hrest Hs. unfold chain_rows. f_equal.
  change (sort_by (by_key seq_of) (List.filter (after_seq u q) (audit_logs s)) = rest).
  apply sort_by_unique; [done|]. unfold after_seq. rewrite filter_user_rows, P, List.filter_app.
  rewrite filter_none, filter_all; [done| |].
  - eapply Forall_impl; [exact Hrest|]. cbn. intros r [Hq ->]. lia.
  - apply Forall_forall. intros r Hr. rewrite Forall_forall in Hpre, Hs. specialize (Hpre r Hr).
    destruct (Hs r Hr) as [z Ez]. unfold seq_of in Hpre. rewrite Ez in *. cbn in Hpre. lia.
Qed.

(** ** Adopting the rows from before chains *)

Lemma adopt_rows_spec u rows pre q p s :
  inv s -> Permutation (user_rows u s) (pre ++ rows) ->
  let '(q', p', s') := adopt_rows key u rows q p s in
  let log := map entry_of rows in
  q' = q + Z.of_nat (length log) /\ p' = tip u q p log /\ inv s' /\ only_rows u s s' /\
  Permutation (user_rows u s') (pre ++ chain u q p log).
Proof.
  revert pre q p s. induction rows as [|r rows IH]; intros pre q p s Hinv P; cbn [adopt_rows map].
  - split_and!; [cbn; lia|done|done|apply only_rows_refl|done].
  - assert (Hr : a_user_id r = u) by (apply (user_rows_elem u r s); rewrite P; set_solver).
    set (hash := row_hash _ _ _).
    assert (H1 : inv (set_link (a_id r) (q + 1) p hash s) /\
      Permutation (user_rows u (set_link (a_id r) (q + 1) p hash s)) (pre ++ link u (q + 1) p (entry_of r) :: rows) /\
      only_rows u s (set_link (a_id r) (q + 1) p hash s)).
    { unfold link. cbn. rewrite <- Hr at 2. exact (update_row (fun r => mkAuditRow (a_id r) (a_user_id r) (Some (q + 1))
        (Some p) (Some hash) (a_action r) (a_category r) (a_target r) (a_ip_address r) (a_created_at r))
        (fun _ => eq_refl) (fun _ => eq_refl) u s r pre rows Hinv P). }
    destruct H1 as (Hinv1 & P1 & Ho1).
    specialize (IH (pre ++ [link u (q + 1) p (entry_of r)]) (q + 1) hash _ Hinv1).
    destruct (adopt_rows key u rows (q + 1) hash (set_link (a_id r) (q + 1) p hash s)) as [[q' p'] s'].
    destruct IH as (-> & -> & Hinv' & Ho' & P').
    { by rewrite P1, <- app_assoc. }
    split_and!; [cbn [length]; lia|done|done|by eapply only_rows_trans|]. rewrite P', <- app_assoc. done.
Qed.

Lemma unchained_rows u s :
  Forall (fun r => a_seq r = None) (user_rows u s) -> Permutation (user_rows u s) (legacy_rows u s).
Proof.
  intros H. unfold legacy_rows. rewrite sort_by_perm. unfold is_legacy. rewrite filter_user_rows, filter_all; [done|].
  eapply Forall_impl; [exact H|]. intros r E. by apply bool_decide_true.
Qed.

(** The log after [chain_tip]: its rows are linked; the head is written later. *)
Lemma chain_tip_spec u log s :
  inv s -> holds u log s ->
  exists s', chain_tip key u s = Ok (Z.of_nat (length log), log_tip u log, s') /\ inv s' /\ only_rows u s s' /\
    Permutation (user_rows u s') (log_rows u log).
Proof using laws.
  intros Hinv [(P & Hne & Hh) | (Hl & -> & Hh)]; unfold chain_tip; rewrite Hh.
  - exists s. unfold verified, log_head. cbn. unfold to_hash. rewrite log_tip_length. cbn.
    rewrite bool_decide_true by done. cbn. split_and!; [done|done|apply only_rows_refl|done].
  - pose proof (unchained_rows u s Hl) as P.
    assert (E : existsb (fun r => of_user u r && bool_decide (is_Some (a_seq r))) (audit_logs s) = false).
    { apply not_true_iff_false. intros (r & Hr & [Hu Hs]%andb_true_iff)%existsb_exists.
      apply bool_decide_eq_true in Hu, Hs. rewrite Forall_forall in Hl. rewrite Hl in Hs; [by destruct Hs|].
      apply user_rows_elem. split; [by apply list_elem_of_In|done]. }
    rewrite E. unfold adopt_legacy_rows.
    pose proof (adopt_rows_spec u (legacy_rows u s) [] 0 GENESIS_PREV_HASH s Hinv P) as H.
    destruct (adopt_rows _ _ _ _ _ _) as [[q' p'] s']. destruct H as (-> & -> & H1 & H2 & H3).
    exists s'. by split_and!.
Qed.

(** ** Appending *)

Lemma head_of_update u row s :
  h_user_id row = u -> existsb (fun h => bool_decide (h_user_id h = u)) (heads s) = true ->
  forall v, head_of v (set_heads s (update_where (fun h => bool_decide (h_user_id h = u)) (fun _ => row) (heads s))) =
    if bool_decide (v = u) then Some row else head_of v s.
Proof.
  intros Hrow Hex v. unfold head_of, update_where. cbn. revert Hex.
  induction (heads s) as [|h l IH]; cbn; [done|]. destruct (decide (h_user_id h = u)) as [Eh|Eh].
  - rewrite (bool_decide_true (h_user_id h = u)) by done. intros _. cbn. rewrite Hrow. destruct (decide (v = u)) as [->|Hv].
    + by rewrite !bool_decide_true.
    + rewrite (bool_decide_false (u = v)), (bool_decide_false (v = u)), (bool_decide_false (h_user_id h = v)) by congruence.
      clear IH. induction l as [|h' l IH]; cbn; [done|]. destruct (decide (h_user_id h' = u)) as [E'|E'].
      * rewrite (bool_decide_true (h_user_id h' = u)) by done. rewrite Hrow.
        by rewrite (bool_decide_false (u = v)), (bool_decide_false (h_user_id h' = v)) by congruence.
      * rewrite (bool_decide_false (h_user_id h' = u)) by done. by case_bool_decide.
  - rewrite (bool_decide_false (h_user_id h = u)) by done. cbn. intros Hex. rewrite IH by done.
    destruct (decide (h_user_id h = v)) as [E'|E'].
    + rewrite (bool_decide_true (h_user_id h = v)), (bool_decide_false (v = u)) by congruence. done.
    + by rewrite (bool_decide_false (h_user_id h = v)).
Qed.

Lemma head_of_push u row s :
  h_user_id row = u -> existsb (fun h => bool_decide (h_user_id h = u)) (heads s) = false ->
  forall v, head_of v (set_heads s (heads s ++ [row])) = if bool_decide (v = u) then Some row else head_of v s.
Proof.
  intros Hrow Hex v. unfold head_of. cbn. revert Hex. induction (heads s) as [|h l IH]; cbn.
  - intros _. rewrite Hrow. repeat case_bool_decide; congruence.
  - intros [Eh Hl]%orb_false_iff. apply bool_decide_eq_false in Eh. rewrite IH by done.
    repeat case_bool_decide; congruence.
Qed.

Lemma write_head_spec u q h s :
  inv s -> user_exists u s = true -> 1 <= q -> length h = 32%nat ->
  exists s', write_head key u q h s = Ok s' /\ inv s' /\ audit_logs s' = audit_logs s /\ users s' = users s /\
    next_uuid s' = next_uuid s /\
    forall v, head_of v s' = if bool_decide (v = u) then Some (mkHeadRow u q h (head_mac key u q h)) else head_of v s.
Proof using laws.
  intros [H1 H2 H3] Hu Hq Hh. unfold write_head. cbn [h_head_mac].
  assert (Em : length (head_mac key u q h) = 32%nat) by apply hmac_length. rewrite Hh, Em.
  rewrite (proj2 (Z.leb_le 1 q) Hq). cbn [Nat.eqb andb negb]. rewrite Hu.
  set (row := mkHeadRow u q h _). destruct (existsb _ (heads s)) eqn:Eh.
  - eexists. split; [done|]. split_and!; [|done|done|done|by apply head_of_update].
    constructor; [done|done|]. cbn. unfold update_where. rewrite map_map.
    erewrite (map_ext _ h_user_id); [done|]. intros x. by case_bool_decide.
  - eexists. split; [done|]. split_and!; [|done|done|done|by apply head_of_push].
    constructor; [done|done|]. cbn. rewrite map_app. apply NoDup_app. split_and!; [done| |apply NoDup_singleton].
    intros v (x & -> & Hx)%list_elem_of_fmap Hv. apply list_elem_of_singleton in Hv.
    apply not_true_iff_false in Eh. apply Eh, existsb_exists. exists x. split; [by apply list_elem_of_In|].
    by apply bool_decide_true.
Qed.

Lemma chained_log_nil u s log : chained u log s -> (1 <= length log)%nat.
Proof. intros (_ & Hne & _). destruct log; [done|cbn; lia]. Qed.

(** One append, on the log of its user. *)
Lemma append_link_spec u log action category target ip created_at s :
  inv s -> holds u log s -> user_exists u s = true ->
  let e := mkEntry (next_uuid s) action category target ip created_at in
  exists s', append_link key u action category target ip created_at s = Ok s' /\ inv s' /\ users s' = users s /\
    chained u (log ++ [e]) s' /\ forall v, v <> u -> same_user v s s'.
Proof using laws.
  intros Hinv Hlog Hu e. destruct (chain_tip_spec u log s Hinv Hlog) as (s1 & E1 & Hinv1 & Ho & P1).
  unfold append_link. rewrite E1. cbn [result_bind]. pose proof Ho as (Hh & Hus & Hn & Hv).
  set (q := Z.of_nat (length log)) in *. rewrite Hn. set (hash := row_hash _ _ _).
  set (row := mkAuditRow _ _ _ _ _ _ _ _ _ _).
  assert (Erow : row = link u (q + 1) (log_tip u log) e) by done.
  unfold insert_row. cbn [a_user_id row]. assert (Hu1 : user_exists u s1 = true) by (unfold user_exists; by rewrite Hus).
  rewrite Hu1. cbn [negb].
  assert (Eex : existsb (fun x => of_user u x && bool_decide (a_seq x = a_seq row)) (audit_logs s1) = false).
  { apply not_true_iff_false. intros (r & Hr & [Hru Hs]%andb_true_iff)%existsb_exists.
    apply bool_decide_eq_true in Hru, Hs. assert (Hin : r ∈ log_rows u log).
    { rewrite <- P1. apply user_rows_elem. split; [by apply list_elem_of_In|done]. }
    pose proof (chain_bounds u 0 GENESIS_PREV_HASH log) as B. rewrite Forall_forall in B.
    destruct (B r Hin) as [B1 B2]. rewrite B2 in Hs. cbn in Hs. simplify_eq. lia. }
  rewrite Eex. cbn [result_bind].
  set (s2 := bump _). assert (Hinv2 : inv s2).
  { destruct Hinv1 as [I1 I2 I3]. constructor; cbn; [| |done].
    - rewrite map_app. apply NoDup_app. split_and!; [done| |apply NoDup_singleton].
      intros i (x & -> & Hx)%list_elem_of_fmap Hi. apply list_elem_of_singleton in Hi.
      rewrite Forall_forall in I2. specialize (I2 x Hx). cbn in Hi. lia.
    - apply Forall_app. split; [eapply Forall_impl; [exact I2|]; cbn; lia|]. constructor; [cbn; lia|done]. }
  assert (Eu : forall v, user_rows v s2 = user_rows v s1 ++ if bool_decide (u = v) then [row] else []).
  { intros v. unfold user_rows, s2. cbn. rewrite List.filter_app. done. }
  destruct (write_head_spec u (q + 1) hash s2) as (s3 & E3 & Hinv3 & El3 & Hu3 & Hn3 & Hh3).
  { done. } { exact Hu1. } { lia. } { apply hmac_length. }
  exists s3. split; [exact E3|]. split_and!; [done|by rewrite Hu3| |].
  - split_and!; [|by destruct log|].
    + unfold user_rows. rewrite El3. fold (user_rows u s2). rewrite Eu, bool_decide_true by done.
      unfold log_rows. rewrite chain_app, P1. cbn [chain]. done.
    + rewrite Hh3, bool_decide_true by done. unfold log_head, log_tip. rewrite length_app, tip_app. cbn [tip length].
      replace (Z.of_nat (length log + 1)) with (q + 1) by lia. done.
  - intros v Hvu. split.
    + unfold user_rows. rewrite El3. fold (user_rows v s2). rewrite Eu, bool_decide_false, app_nil_r by done. by apply Hv.
    + rewrite Hh3, bool_decide_false by done. unfold head_of, s2. cbn. by rewrite Hh.
Qed.

Lemma holds_same v log s s' : same_user v s s' -> holds v log s -> holds v log s'.
Proof.
  intros [Hr Hh]. unfold holds, chained, unchained, legacy_rows, is_legacy.
  rewrite !filter_user_rows, Hr, Hh. done.
Qed.

(** The specification: one log per user, extended at its end. *)
Definition log_append (u : Uuid) (e : Entry) (logs : Uuid -> list Entry) : Uuid -> list Entry :=
  fun v => if bool_decide (v = u) then logs u ++ [e] else logs v.

(** C26: [record_audit] implements the append of the abstract logs: from a database that
    represents the logs of all users (chained, or still unchained) the transaction of a known
    user succeeds, and the new database represents the logs with the entry at the end of that
    user's log and every other log as it was. *)
Theorem record_refines logs u action category target ip created_at now s :
  represents logs s -> user_exists u s = true ->
  let e := mkEntry (next_uuid s) action category target ip created_at in
  exists s', record_audit_tx key u action category target ip created_at now s = (Ok (Ok tt), s') /\
    represents (log_append u e logs) s' /\ users s' = users s.
Proof using laws.
  intros [Hinv Hl] Hu e.
  destruct (append_link_spec u (logs u) action category target ip created_at s Hinv (Hl u) Hu)
    as (s' & E & Hinv' & Hus & Hc & Hv).
  exists s'. unfold record_audit_tx, atomically. rewrite E. cbn. split_and!; [done| |done]. split; [done|].
  intros v. unfold log_append. case_bool_decide as Ev; [subst v; by left|]. eapply holds_same; [by apply Hv|apply Hl].
Qed.

(** ** Verification *)

(** All rows of the chain, and what one pass over them says. *)
Definition rows_after (u : Uuid) (q : Z) (s : State) : list AuditRow :=
  sort_by (by_key seq_of) (List.filter (after_seq u q) (audit_logs s)).

Definition verify_ref (u : Uuid) (s : State) : AuditChainReport :=
  let unchained_rows := count_where (is_legacy u) (audit_logs s) in
  match walk key (rows_after u 0 s) walk_start with
  | Err (status, n) => mkAuditChainReport u n unchained_rows status
  | Ok w => mkAuditChainReport u (w_verified w) unchained_rows (head_status key u unchained_rows (head_of u s) w)
  end.

(** The unique index on [(user_id, seq)]. *)
Definition unique_seq (u : Uuid) (s : State) : Prop := NoDup (omap a_seq (user_rows u s)).

Lemma unique_seq_after u q s : unique_seq u s -> NoDup (map seq_of (List.filter (after_seq u q) (audit_logs s))).
Proof.
  unfold unique_seq, after_seq. rewrite filter_user_rows. induction (user_rows u s) as [|r l IH]; cbn; [done|].
  destruct (a_seq r) as [z|] eqn:Er; cbn; [|done]. intros [Hz Hl]%NoDup_cons. destruct (q <? z); [|by apply IH].
  cbn. constructor; [|by apply IH]. unfold seq_of at 1. rewrite Er. cbn.
  intros (x & E & Hx)%list_elem_of_fmap. apply Hz. apply list_elem_of_omap. exists x.
  rewrite list_elem_of_In in Hx |- *. apply filter_In in Hx as [Hx Eq]. split; [done|].
  unfold seq_of in E. destruct (a_seq x); [|done]. by subst.
Qed.

Lemma rows_after_increasing u q s : unique_seq u s -> increasing seq_of (rows_after u q s).
Proof. intros H. by apply sort_by_increasing, unique_seq_after. Qed.

Lemma rows_after_seq u q s : Forall (fun r => q < seq_of r) (rows_after u q s).
Proof.
  unfold rows_after. rewrite sort_by_perm. apply Forall_forall. intros r. rewrite list_elem_of_In, filter_In.
  unfold after_seq, seq_of. intros [_ [_ H]%andb_true_iff]. destruct (a_seq r); [cbn; lia|done].
Qed.

Lemma increasing_filter (p : AuditRow -> bool) l : increasing seq_of l -> increasing seq_of (List.filter p l).
Proof.
  induction 1 as [|a l Hl IH Ha]; cbn; [constructor|]. destruct (p a); [|done]. constructor; [done|].
  rewrite Forall_forall in *. intros x. rewrite list_elem_of_In, filter_In, <- list_elem_of_In. naive_solver.
Qed.

Lemma rows_after_after u q q' s :
  unique_seq u s -> q <= q' -> rows_after u q' s = List.filter (fun r => q' <? seq_of r) (rows_after u q s).
Proof.
  intros Hu Hq. apply sort_by_unique; [by apply increasing_filter, rows_after_increasing|].
  unfold rows_after. rewrite sort_by_perm. unfold after_seq. rewrite !filter_user_rows, filter_filter.
  erewrite List.filter_ext; [done|]. intros r. cbn. unfold seq_of. destruct (a_seq r) as [z|]; [|done]. cbn. lia.
Qed.

Lemma walk_app l1 l2 w :
  walk key (l1 ++ l2) w = match walk key l1 w with Ok w' => walk key l2 w' | Err e => Err e end.
Proof.
  revert w. induction l1 as [|r l1 IH]; intros w; cbn; [done|]. destruct (check_row _ _ _ _); [apply IH|done].
Qed.

Lemma walk_last rows w w' :
  walk key rows w = Ok w' -> w_last_seq w' = match last rows with Some r => seq_of r | None => w_last_seq w end.
Proof.
  revert w. induction rows as [|r rows IH]; intros w; cbn; [by intros [= ->]|].
  destruct (check_row _ _ _ _); [|done]. intros ->%IH. rewrite last_cons. by destruct (last rows).
Qed.

(** The rows after a batch that was walked. *)
Lemma rows_after_batch u s w w' rows rest :
  unique_seq u s -> rows_after u (w_last_seq w) s = rows ++ rest -> walk key rows w = Ok w' ->
  rows_after u (w_last_seq w') s = rest.
Proof.
  intros Hu E Hw. pose proof (walk_last _ _ _ Hw) as El. destruct rows as [|r0 rows0] eqn:Er.
  { cbn in El, E. by rewrite El. }
  rewrite <- Er in *. destruct (last rows) as [r|] eqn:Elast; [|by rewrite Er, last_cons in Elast; destruct (last rows0)].
  apply last_Some in Elast as [l0 Hl0].
  pose proof (rows_after_increasing u (w_last_seq w) s Hu) as Hinc. pose proof (rows_after_seq u (w_last_seq w) s) as Hq.
  rewrite E in Hinc, Hq. rewrite (rows_after_after u (w_last_seq w)); [|done|].
  - rewrite E, El. apply StronglySorted_inv_app in Hinc as (H1 & H2 & H3). rewrite Hl0 in H1, H3.
    apply StronglySorted_inv_app in H1 as (_ & _ & H1). rewrite Hl0.
    apply (filter_increasing_app seq_of).
    + rewrite <- Hl0, <- E. by apply rows_after_increasing.
    + apply Forall_app. split; [|by constructor]. apply Forall_forall. intros x Hx.
      enough (seq_of x < seq_of r) by lia. apply H1; [done|by left].
    + apply Forall_forall. intros y Hy. apply H3; [set_solver|done].
  - rewrite El. apply Forall_app in Hq as [Hq _]. rewrite Hl0 in Hq. apply Forall_app in Hq as [_ Hq].
    apply Forall_cons in Hq as [Hq _]. lia.
Qed.

(** No writer of this user's log runs meanwhile, and the database answers. *)
Definition quiet_for {X} (u : Uuid) (w : World State X) : Prop :=
  Forall (fun t => t_fault t = NoFault /\ forall s, same_user u s (t_others t s)) (ticks w).

Lemma query_quiet {A X} u (q : State -> A) (w : World State X) :
  quiet_for u w -> (forall s s', same_user u s s' -> q s' = q s) ->
  exists w', query (fun _ s => q s) w = (Ret (Ok (q (db w))), w') /\ quiet_for u w' /\ same_user u (db w) (db w').
Proof.
  intros Hq Hs. unfold query, db_call. destruct w as [s [|t ts] x]; cbn.
  - eexists. split; [done|]. by split_and!.
  - apply Forall_cons in Hq as [[Et Ho] Hts]. rewrite Et. eexists. rewrite (Hs _ _ (Ho s)). by split_and!.
Qed.

Lemma chain_rows_same u q n s s' : same_user u s s' -> chain_rows u q n s' = chain_rows u q n s.
Proof. intros [Hr _]. unfold chain_rows, after_seq. by rewrite !filter_user_rows, Hr. Qed.

Lemma rows_after_same u q s s' : same_user u s s' -> rows_after u q s' = rows_after u q s.
Proof. intros [Hr _]. unfold rows_after, after_seq. by rewrite !filter_user_rows, Hr. Qed.

Lemma unique_seq_same u s s' : same_user u s s' -> unique_seq u s -> unique_seq u s'.
Proof. intros [Hr _]. unfold unique_seq. by rewrite Hr. Qed.

Lemma verify_loop_spec {X} fuel u w (wd : World State X) :
  unique_seq u (db wd) -> quiet_for u wd -> (length (rows_after u (w_last_seq w) (db wd)) < fuel)%nat ->
  exists wd', verify_loop key fuel u w wd = (Ret (Ok (Some (walk key (rows_after u (w_last_seq w) (db wd)) w))), wd') /\
    quiet_for u wd' /\ same_user u (db wd) (db wd').
Proof.
  revert w wd. induction fuel as [|f IH]; intros w wd Hu Hq Hf; [lia|]. cbn [verify_loop].
  destruct (query_quiet u (chain_rows u (w_last_seq w) VERIFY_BATCH) wd Hq) as (wd1 & E & Hq1 & Hs1).
  { intros ? ?. apply chain_rows_same. }
  unfold try_bind, bind. rewrite E.
  change (chain_rows u (w_last_seq w) VERIFY_BATCH (db wd)) with (sql_limit VERIFY_BATCH (rows_after u (w_last_seq w) (db wd))).
  set (R := rows_after _ _ _) in *. unfold sql_limit.
  assert (Ea : walk key R w = walk key (take (Z.to_nat VERIFY_BATCH) R ++ drop (Z.to_nat VERIFY_BATCH) R) w)
    by (by rewrite take_drop).
  rewrite Ea. clear Ea.
  destruct (take (Z.to_nat VERIFY_BATCH) R) as [|r rows] eqn:Et.
  - assert (R = []) as -> by (destruct R; [done|by vm_compute in Et]). exists wd1. by split_and!.
  - rewrite walk_app. destruct (walk key (r :: rows) w) as [w'|[st n]] eqn:Ew; [|exists wd1; by split_and!].
    assert (Er : R = (r :: rows) ++ drop (Z.to_nat VERIFY_BATCH) R) by (rewrite <- Et; by rewrite take_drop).
    pose proof (rows_after_batch u (db wd) w w' _ _ Hu Er Ew) as Ea.
    destruct (IH w' wd1) as (wd2 & E2 & Hq2 & Hs2); [by eapply unique_seq_same|done| |].
    + rewrite (rows_after_same _ _ _ _ Hs1), Ea. apply (f_equal length) in Er. rewrite length_app in Er. cbn in Er. lia.
    + exists wd2. rewrite (rows_after_same _ _ _ _ Hs1), Ea in E2. rewrite E2. split_and!; [done|done|].
      by eapply same_user_trans.
Qed.

Lemma verify_batched_spec {X} fuel u (w : World State X) :
  unique_seq u (db w) -> quiet_for u w -> (length (rows_after u 0 (db w)) < fuel)%nat ->
  exists w', verify_audit_chain key fuel u w = (Ret (Ok (Some (verify_ref u (db w)))), w').
Proof.
  intros Hu Hq Hf. unfold verify_audit_chain, try_bind, bind.
  destruct (query_quiet u (fun s => count_where (is_legacy u) (audit_logs s)) w Hq) as (w1 & E1 & Hq1 & Hs1).
  { intros s s' [Hr _]. unfold count_where, is_legacy. by rewrite !filter_user_rows, Hr. }
  rewrite E1. rewrite <- (rows_after_same _ _ _ _ Hs1) in Hf.
  destruct (verify_loop_spec fuel u walk_start w1) as (w2 & E2 & Hq2 & Hs2); [by eapply unique_seq_same|exact Hq1|exact Hf|].
  rewrite E2. cbn [w_last_seq walk_start]. rewrite (rows_after_same _ _ _ _ Hs1). unfold verify_ref.
  destruct (walk key (rows_after u 0 (db w)) walk_start) as [wk|[st n]]; [|exists w2; reflexivity].
  destruct (query_quiet u (head_of u) w2 Hq2) as (w3 & E3 & _ & _); [by intros ? ? [_ ?]|].
  rewrite E3. exists w3. destruct Hs1 as [_ H1], Hs2 as [_ H2]. by rewrite H2, H1.
Qed.

(** Verifying in batches of a thousand rows terminates and reports exactly what one pass
    over the whole chain would: with more iterations than rows allowed, in a database that
    answers and where nobody writes this user's log meanwhile. *)
Lemma verify_batched {X} fuel u (w : World State X) :
  unique_seq u (db w) -> quiet_for u w -> (length (rows_after u 0 (db w)) < fuel)%nat ->
  exists w', verify_audit_chain key fuel u w = (Ret (Ok (Some (verify_ref u (db w)))), w').
Proof. apply verify_batched_spec. Qed.

(** ** A log of the program verifies *)

Lemma links_to_hash h : length h = 32%nat -> links_to (Some h) h = true.
Proof. intros E. unfold links_to, to_hash. cbn. rewrite E. by apply bool_decide_true. Qed.

Lemma walk_chain u q p n log :
  length p = 32%nat ->
  walk key (chain u q p log) (mkWalk q p n) =
  Ok (mkWalk (q + Z.of_nat (length log)) (tip u q p log) (n + Z.of_nat (length log))).
Proof using laws.
  revert q p n. induction log as [|e log IH]; intros q p n Hp; cbn [walk chain length tip]; [by rewrite !Z.add_0_r|].
  unfold check_row. cbn [w_last_seq w_prev w_verified].
  change (seq_of (link u (q + 1) p e)) with (q + 1). change (a_prev_hash (link u (q + 1) p e)) with (Some p).
  change (fields_of (link u (q + 1) p e)) with (entry_fields u (q + 1) e).
  change (a_row_hash (link u (q + 1) p e)) with (Some (row_hash key p (entry_fields u (q + 1) e))).
  rewrite Z.eqb_refl, !links_to_hash by (done || apply hmac_length). cbn [negb].
  rewrite IH by apply hmac_length. do 2 f_equal; lia.
Qed.

Lemma chained_rows_after u log s : chained u log s -> rows_after u 0 s = log_rows u log.
Proof.
  intros (P & _ & _). apply sort_by_unique; [apply chain_increasing|].
  unfold after_seq. rewrite filter_user_rows, P, filter_all; [done|].
  eapply Forall_impl; [apply chain_bounds|]. cbn. intros r [? ->]. lia.
Qed.

Lemma chained_no_legacy u log s : chained u log s -> count_where (is_legacy u) (audit_logs s) = 0.
Proof.
  intros (P & _ & _). unfold count_where, is_legacy. rewrite filter_user_rows, P, filter_none; [done|].
  eapply Forall_impl; [apply chain_bounds|]. intros r [_ E]. rewrite E. by apply bool_decide_false.
Qed.

Definition honest_report (u : Uuid) (log : list Entry) (is_chained : bool) : AuditChainReport :=
  let n := Z.of_nat (length log) in
  if is_chained then mkAuditChainReport u n 0 Intact
  else mkAuditChainReport u 0 n (if 0 <? n then Unchained else Intact).

Lemma verify_ref_chained u log s : chained u log s -> verify_ref u s = honest_report u log true.
Proof using laws.
  intros H. unfold verify_ref. rewrite (chained_rows_after u log s H), (chained_no_legacy u log s H).
  unfold log_rows, walk_start. rewrite walk_chain by done. destruct H as (_ & _ & ->). cbn [w_verified].
  rewrite !Z.add_0_l. unfold head_status, verified, log_head, to_hash. cbn [h_row_hash h_seq h_head_mac].
  rewrite log_tip_length. cbn [Nat.eqb option_bind w_last_seq w_prev].
  rewrite (bool_decide_true (head_mac _ _ _ _ = _)) by done. rewrite !Z.ltb_irrefl. cbn [orb].
  by rewrite bool_decide_true.
Qed.

Lemma verify_ref_unchained u log s : unchained u log s -> verify_ref u s = honest_report u log false.
Proof.
  intros (Hl & -> & Hh). unfold verify_ref.
  assert (E : rows_after u 0 s = []).
  { unfold rows_after, after_seq. rewrite filter_user_rows, filter_none; [done|].
    eapply Forall_impl; [exact Hl|]. by intros r ->. }
  assert (En : count_where (is_legacy u) (audit_logs s) = Z.of_nat (length (map entry_of (legacy_rows u s)))).
  { unfold count_where, legacy_rows. rewrite length_map. by rewrite sort_by_perm. }
  rewrite E, Hh, En. done.
Qed.

(** What a database that represents a log reports: intact, or unchained as long as nothing was
    recorded since the chains were introduced. *)
Lemma verify_ref_holds u log s :
  holds u log s -> verify_ref u s = honest_report u log (bool_decide (is_Some (head_of u s))).
Proof using laws.
  intros [H | H].
  - rewrite (verify_ref_chained u log s H). destruct H as (_ & _ & ->). by rewrite bool_decide_true by eauto.
  - rewrite (verify_ref_unchained u log s H). destruct H as (_ & _ & ->). rewrite bool_decide_false; [done|].
    by intros [? ?].
Qed.

Lemma chained_unique_seq u log s : chained u log s -> unique_seq u s.
Proof.
  intros (P & _ & _). unfold unique_seq. rewrite P. unfold log_rows.
  assert (E : omap a_seq (chain u 0 GENESIS_PREV_HASH log) = map seq_of (chain u 0 GENESIS_PREV_HASH log)).
  { clear P. generalize 0 GENESIS_PREV_HASH. induction log as [|e log IH]; intros q p; [done|].
    exact (f_equal (cons (q + 1)) (IH _ _)). }
  rewrite E. apply increasing_nodup, chain_increasing.
Qed.
End Log.

(** ** Concrete runs *)

(** A polynomial checksum in the place of the MAC. *)
#[export] Instance checksum : Hmac :=
  {| hmac k m := be_bytes 32 (fold_left (fun a b => (a * 263 + b + 1) mod 2 ^ 256) (k ++ m) 7) |}.

#[export] Instance checksum_laws : HmacLaws.
Proof.
  constructor. intros k m. unfold hmac, checksum. generalize (fold_left (fun a b : Z => (a * 263 + b + 1) mod 2 ^ 256) (k ++ m) 7).
  intros z. reflexivity.
Qed.

(** Two users; the second has a row from before chains. *)
Definition demo0 : State :=
  mkState 10 [(1, false); (2, false)]
    [mkAuditRow 3 2 None None None "login" "auth" None (Some "10.0.0.1") 50] [].

Definition demo_key : bytes := [1; 2; 3].

Definition demo_logs : Uuid -> list Entry :=
  fun u => if bool_decide (u = 2) then [mkEntry 3 "login" "auth" None (Some "10.0.0.1") 50] else [].

Lemma demo0_represents : represents demo_key demo_logs demo0.
Proof.
  split; [constructor|].
  - repeat constructor. by intros ?%not_elem_of_nil.
  - repeat constructor.
  - constructor.
  - intros u. right. unfold unchained, user_rows, legacy_rows, demo_logs. cbn. unfold is_legacy, of_user. cbn.
    destruct (decide (2 = u)) as [<-|Hu]; [|rewrite !bool_decide_false by congruence; by split_and!].
    rewrite !bool_decide_true by done. cbn. split_and!; [by repeat constructor|done|done].
Qed.

(** The second user's next event adopts the old row. *)
Lemma record_refines_witness :
  represents demo_key demo_logs demo0 /\ user_exists 2 demo0 = true /\
  exists s', record_audit_tx demo_key 2 "export" "account" None None 60 60 demo0 = (Ok (Ok tt), s') /\
    represents demo_key (log_append 2 (mkEntry 10 "export" "account" None None 60) demo_logs) s' /\ users s' = users demo0.
Proof.
  split_and!; [apply demo0_represents|done|].
  exact (record_refines demo_key demo_logs 2 "export" "account" None None 60 60 demo0 demo0_represents eq_refl).
Defined.

Definition demo1 : State := snd (record_audit_tx demo_key 2 "export" "account" None None 60 60 demo0).

Example demo1_report : verify_ref demo_key 2 demo1 = mkAuditChainReport 2 2 0 Intact.
Proof. vm_compute. reflexivity. Qed.

(** The statements of one verification are not one snapshot: an entry appended after the last
    batch was read and before the head is read makes the report of an untouched log a broken
    one. *)
Example verify_races_append :
  let append := fun s => snd (record_audit_tx demo_key 2 "login" "auth" None None 70 70 s) in
  let quiet := mkTick NoFault 0 (fun s => s) in
  fst (verify_audit_chain demo_key 3 2 (mkWorld demo1 [quiet; quiet; quiet; mkTick NoFault 0 append] tt)) =
  Ret (Ok (Some (mkAuditChainReport 2 2 0 (Broken (Some 3) "rows deleted from the end of the chain")))).
Proof. vm_compute. reflexivity. Qed.
End AuditLog.
