(* ===== verification/AuditTamper.v ===== *)
(** * Tamper evidence of the audit log

    A database that somebody edited without the MAC key. The messages under the MACs
    determine the fields they were made from; so when no valid MAC in the tables is on a
    message the program did not sign, an intact report means that the rows are a log which
    the program once wrote. *)

From S2P Require Import Prelude Db Paging Store AuditChain AuditLog.

Module AuditTamper.
Import Db Paging AuditChain AuditLog.
Import Store (Uuid, count_where).

(** ** The messages determine their fields *)

Lemma be_bytes_length n z : length (be_bytes n z) = n.
Proof. revert z. induction n as [|n IH]; intros z; cbn; [done|]. rewrite length_app, IH. cbn. lia. Qed.

Lemma be_bytes_inj n a b :
  0 <= a < 256 ^ Z.of_nat n -> 0 <= b < 256 ^ Z.of_nat n -> be_bytes n a = be_bytes n b -> a = b.
Proof.
  revert a b. induction n as [|n IH]; intros a b Ha Hb; cbn [be_bytes]; [cbn in *; lia|].
  rewrite Nat2Z.inj_succ, Z.pow_succ_r in Ha, Hb by lia. intros [E1 E2]%app_inj_2; [|done].
  injection E2 as E2. apply IH in E1.
  - pose proof (Z.div_mod a 256). pose proof (Z.div_mod b 256). lia.
  - split; [apply Z.div_pos; lia|]. apply Z.div_lt_upper_bound; lia.
  - split; [apply Z.div_pos; lia|]. apply Z.div_lt_upper_bound; lia.
Qed.

Lemma be_bytes_app_inj n a b x y :
  0 <= a < 256 ^ Z.of_nat n -> 0 <= b < 256 ^ Z.of_nat n -> be_bytes n a ++ x = be_bytes n b ++ y -> a = b /\ x = y.
Proof.
  intros Ha Hb [E ->]%app_inj_1; [|by rewrite !be_bytes_length]. split; [by apply be_bytes_inj in E|done].
Qed.

Lemma i64_bytes_app_inj a b x y :
  is_i64 a = true -> is_i64 b = true -> i64_bytes a ++ x = i64_bytes b ++ y -> a = b /\ x = y.
Proof.
  intros Ha%in_range_spec Hb%in_range_spec [E ->]%be_bytes_app_inj; [|apply Z.mod_pos_bound; lia..].
  split; [|done]. unfold i64_MIN, i64_MAX in *.
  pose proof (Z.div_mod a (2 ^ 64)). pose proof (Z.div_mod b (2 ^ 64)).
  assert (-1 <= a / 2 ^ 64 < 1) by (split; [apply Z.div_le_lower_bound|apply Z.div_lt_upper_bound]; lia).
  assert (-1 <= b / 2 ^ 64 < 1) by (split; [apply Z.div_le_lower_bound|apply Z.div_lt_upper_bound]; lia).
  lia.
Qed.

Definition short (s : string) : bool := slen s <? 2 ^ 64.
Definition short_opt (s : option string) : bool := match s with Some s => short s | None => true end.
Definition is_uuid (z : Z) : bool := in_range 0 (2 ^ 128 - 1) z.

Lemma uuid_bytes_app_inj a b x y :
  is_uuid a = true -> is_uuid b = true -> uuid_bytes a ++ x = uuid_bytes b ++ y -> a = b /\ x = y.
Proof. intros Ha%in_range_spec Hb%in_range_spec. apply be_bytes_app_inj; cbn in *; lia. Qed.

Lemma bytes_of_length s : length (bytes_of s) = String.length s.
Proof. unfold bytes_of. rewrite length_map. induction s; cbn; auto. Qed.

Lemma bytes_of_inj s t : bytes_of s = bytes_of t -> s = t.
Proof. intros E. rewrite <- (str_of_bytes_of s), <- (str_of_bytes_of t). by rewrite E. Qed.

Lemma put_str_app_inj s t x y :
  short s = true -> short t = true -> put_str s ++ x = put_str t ++ y -> s = t /\ x = y.
Proof.
  unfold short, put_str, u64_bytes. intros Hs%Z.ltb_lt Ht%Z.ltb_lt. rewrite <- !app_assoc.
  intros [El E]%be_bytes_app_inj; [|pose proof (slen_nonneg s); pose proof (slen_nonneg t); cbn in *; lia..].
  apply app_inj_1 in E as [E ->]; [|unfold slen in El; rewrite !bytes_of_length; lia].
  split; [by apply bytes_of_inj|done].
Qed.

Lemma put_opt_app_inj s t x y :
  short_opt s = true -> short_opt t = true -> put_opt s ++ x = put_opt t ++ y -> s = t /\ x = y.
Proof.
  destruct s as [s|], t as [t|]; cbn [put_opt short_opt app]; intros Hs Ht E; try discriminate E.
  - apply (f_equal tail) in E. cbn [tail] in E. by apply put_str_app_inj in E as [-> ->].
  - by injection E as ->.
Qed.

(** The ranges of the columns. *)
Definition fields_ok (f : LinkFields) : bool :=
  is_uuid (f_id f) && is_uuid (f_user_id f) && is_i64 (f_seq f) && is_i64 (f_created_at f)
  && short (f_action f) && short (f_category f) && short_opt (f_target f) && short_opt (f_ip_address f).

Lemma row_message_inj p p' f f' :
  length p = 32%nat -> length p' = 32%nat -> fields_ok f = true -> fields_ok f' = true ->
  row_message p f = row_message p' f' -> p = p' /\ f = f'.
Proof.
  unfold row_message, fields_ok. destruct f, f'; cbn [f_id f_user_id f_seq f_created_at f_action f_category f_target f_ip_address].
  intros Hp Hp'. rewrite !andb_true_iff. intros H1 H2 E. destruct_and!.
  apply app_inv_head in E. apply app_inj_1 in E as [-> E]; [|congruence].
  apply uuid_bytes_app_inj in E as [-> E]; [|done..]. apply uuid_bytes_app_inj in E as [-> E]; [|done..].
  apply i64_bytes_app_inj in E as [-> E]; [|done..]. apply i64_bytes_app_inj in E as [-> E]; [|done..].
  apply put_str_app_inj in E as [-> E]; [|done..]. apply put_str_app_inj in E as [-> E]; [|done..].
  apply put_opt_app_inj in E as [-> E]; [|done..]. apply (f_equal (fun l => l ++ [])) in E.
  apply put_opt_app_inj in E as [-> E]; [|done..]. done.
Qed.

Lemma head_message_inj u v q q' h h' :
  is_uuid u = true -> is_uuid v = true -> is_i64 q = true -> is_i64 q' = true ->
  head_message u q h = head_message v q' h' -> u = v /\ q = q' /\ h = h'.
Proof.
  unfold head_message. intros Hu Hv Hq Hq' E. apply app_inv_head in E.
  apply uuid_bytes_app_inj in E as [-> E]; [|done..]. by apply i64_bytes_app_inj in E as [-> E].
Qed.

(** A row's message is never a head's. *)
Lemma row_head_distinct p f u q h : row_message p f <> head_message u q h.
Proof.
  unfold row_message, head_message. intros E. apply (f_equal (take 12)) in E.
  by vm_compute in E.
Qed.

Section Tamper.
Context `{hm : Hmac} `{laws : !HmacLaws}.
Variable key : bytes.

(** Every log that was ever signed, by its user: the versions of the program's own tables. *)
Variable versions : Uuid -> list (list Entry).

Fixpoint chain_messages (u : Uuid) (seq : Z) (prev : bytes) (log : list Entry) : list bytes :=
  match log with
  | [] => []
  | e :: rest =>
      let m := row_message prev (entry_fields u (seq + 1) e) in
      m :: chain_messages u (seq + 1) (hmac key m) rest
  end.

Definition log_messages (u : Uuid) (log : list Entry) : list bytes := chain_messages u 0 GENESIS_PREV_HASH log.

(** The messages under the MACs the program made. *)
Definition signed (m : bytes) : Prop :=
  exists u log, log ∈ versions u /\
    (m ∈ log_messages u log \/ m = head_message u (Z.of_nat (length log)) (log_tip key u log)).

(** The columns' types and constraints, which an attacker cannot leave. *)
Record typed (s : State) : Prop := mkTyped {
  ty_rows : Forall (fun r => fields_ok (fields_of r) = true) (audit_logs s);
  ty_seq : Forall (fun r => forall q, a_seq r = Some q -> 1 <= q) (audit_logs s);
  ty_heads : Forall (fun h => is_uuid (h_user_id h) = true /\ is_i64 (h_seq h) = true) (heads s);
  ty_unique : forall u, unique_seq u s
}.

Definition log_ok (u : Uuid) (log : list Entry) : Prop :=
  is_uuid u = true /\ is_i64 (Z.of_nat (length log)) = true /\
  forall i e, log !! i = Some e -> fields_ok (entry_fields u (Z.of_nat i + 1) e) = true.

(** Nobody forged a MAC: a valid one in the tables is on a signed message; and no two of the
    signed messages collide. *)
Record unforged (s : State) : Prop := mkUnforged {
  uf_rows : forall r p, r ∈ audit_logs s -> a_prev_hash r = Some p ->
    a_row_hash r = Some (row_hash key p (fields_of r)) -> signed (row_message p (fields_of r));
  uf_heads : forall h, h ∈ heads s -> h_head_mac h = head_mac key (h_user_id h) (h_seq h) (h_row_hash h) ->
    signed (head_message (h_user_id h) (h_seq h) (h_row_hash h));
  uf_collide : forall m m', signed m -> signed m' -> hmac key m = hmac key m' -> m = m'
}.

Lemma chain_messages_app u q p l1 l2 :
  chain_messages u q p (l1 ++ l2) =
  chain_messages u q p l1 ++ chain_messages u (q + Z.of_nat (length l1)) (tip key u q p l1) l2.
Proof.
  revert q p. induction l1 as [|e l1 IH]; intros q p; cbn [chain_messages app length tip]; [by rewrite Z.add_0_r|].
  rewrite IH. do 3 f_equal. lia.
Qed.

Lemma log_ok_prefix u l e : log_ok u (l ++ [e]) -> log_ok u l /\ fields_ok (entry_fields u (Z.of_nat (length l) + 1) e) = true.
Proof.
  intros (Hu & Hl & H). split; [split_and!; [done| |]|].
  - rewrite length_app in Hl. unfold is_i64 in *. rewrite in_range_spec in *. unfold i64_MIN in *. cbn in Hl. lia.
  - intros i e' Hi. apply H. by apply lookup_app_l_Some.
  - apply H. by rewrite lookup_app_r, Nat.sub_diag.
Qed.

(** Signed chains of one length with one tip hold one log. *)
Lemma same_tip u l1 l2 :
  (forall m m', signed m -> signed m' -> hmac key m = hmac key m' -> m = m') ->
  length l1 = length l2 -> log_ok u l1 -> log_ok u l2 ->
  Forall signed (log_messages u l1) -> Forall signed (log_messages u l2) ->
  log_tip key u l1 = log_tip key u l2 -> l1 = l2.
Proof using laws.
  intros Hc. revert l2. induction l1 as [|e1 l1 IH] using rev_ind; intros l2 Hlen Ok1 Ok2 S1 S2 E.
  { by destruct l2. }
  destruct l2 as [|e2 l2 _] using rev_ind; [rewrite length_app in Hlen; cbn in Hlen; lia|].
  rewrite !length_app in Hlen. cbn in Hlen. assert (Hlen' : length l1 = length l2) by lia.
  apply log_ok_prefix in Ok1 as [Ok1 F1], Ok2 as [Ok2 F2].
  unfold log_messages in S1, S2. rewrite chain_messages_app in S1, S2. rewrite Z.add_0_l in S1, S2.
  apply Forall_app in S1 as [S1 M1], S2 as [S2 M2]. apply Forall_cons in M1 as [M1 _], M2 as [M2 _].
  unfold log_tip in E. rewrite !tip_app in E. cbn [tip] in E. rewrite !Z.add_0_l in E.
  apply Hc in E; [|done|done].
  apply row_message_inj in E as [Et Ef]; [|exact (log_tip_length key u l1)|exact (log_tip_length key u l2)|by rewrite ?Z.add_0_l|by rewrite ?Z.add_0_l].
  f_equal; [by apply IH|]. destruct e1, e2. injection Ef as -> _ -> -> -> -> ->. done.
Qed.

(** What a walk to the end has seen is a chain. *)
Lemma links_to_inv o h : links_to o h = true -> o = Some h.
Proof.
  unfold links_to. rewrite bool_decide_eq_true. destruct o as [b|]; cbn; [|done]. unfold to_hash.
  destruct (length b =? 32)%nat; congruence.
Qed.

Lemma walk_inv u rows q p n w :
  Forall (fun r => a_user_id r = u /\ is_Some (a_seq r)) rows -> walk key rows (mkWalk q p n) = Ok w ->
  let log := map entry_of rows in
  rows = chain key u q p log /\ w_last_seq w = q + Z.of_nat (length rows) /\ w_prev w = tip key u q p log.
Proof.
  revert q p n. induction rows as [|r rows IH]; intros q p n Hu; cbn [walk].
  { intros [= <-]. cbn. split_and!; [done|lia|done]. }
  apply Forall_cons in Hu as [[Eu [z Es]] Hu]. unfold check_row. cbn [w_last_seq w_prev w_verified].
  destruct (Z.eqb_spec (seq_of r) (q + 1)) as [Eq|]; [|done]. cbn [negb].
  destruct (links_to (a_prev_hash r) p) eqn:Ep; [|done]. apply links_to_inv in Ep.
  destruct (links_to (a_row_hash r) _) eqn:Eh; [|done]. apply links_to_inv in Eh. cbn [negb].
  intros H. apply IH in H as (H1 & H2 & H3); [|done].
  assert (Ef : fields_of r = entry_fields u (q + 1) (entry_of r)).
  { unfold fields_of, entry_fields. by rewrite Eu, Eq. }
  assert (Er : r = link key u (q + 1) p (entry_of r)).
  { unfold link. rewrite <- Ef, <- Eh, <- Ep, <- Eu. unfold seq_of in Eq. rewrite Es in Eq. cbn in Eq. rewrite <- Eq, <- Es.
    by destruct r. }
  cbn [map chain tip length]. rewrite Eq in *. rewrite Ef in H1, H3. split_and!; [by rewrite <- Er, <- H1|lia|done].
Qed.

(** The messages of a chain in the tables are signed. *)
Lemma chain_signed u q p log s :
  unforged s -> (forall r, r ∈ chain key u q p log -> r ∈ audit_logs s) -> Forall signed (chain_messages u q p log).
Proof.
  intros Huf. revert q p. induction log as [|e log IH]; intros q p H; cbn [chain_messages]; constructor.
  - apply (uf_rows s Huf (link key u (q + 1) p e) p); [|done|done]. apply H. by left.
  - apply IH. intros r Hr. apply H. by right.
Qed.

Lemma walk_err_broken rows w st n : walk key rows w = Err (st, n) -> st <> Intact.
Proof.
  revert w. induction rows as [|r rows IH]; cbn; [done|]. intros w. destruct (check_row _ _ _ _) as [h|st'] eqn:E; [apply IH|].
  intros [= -> _] ->. unfold check_row, broken in E. by repeat case_match.
Qed.

(** No row's message is on a head. *)
Lemma log_messages_not_head u log v q h : head_message v q h ∉ log_messages u log.
Proof.
  unfold log_messages. generalize 0 GENESIS_PREV_HASH. induction log as [|e log IH]; intros q' p; cbn [chain_messages].
  - apply not_elem_of_nil.
  - intros [E | E]%elem_of_cons; [|by eapply IH]. symmetry in E. by apply row_head_distinct in E.
Qed.

Lemma intact_unchained u s : r_status (verify_ref key u s) = Intact -> count_where (is_legacy u) (audit_logs s) = 0.
Proof.
  unfold verify_ref. destruct (walk key _ _) as [w|[st n]] eqn:Ew.
  - cbn. set (n := count_where _ _). assert (0 <= n) by (unfold n, count_where; lia). unfold head_status.
    repeat case_match; try done; bool_to_prop; lia.
  - intros E. cbn in E. by apply walk_err_broken in Ew.
Qed.

Lemma user_rows_after u s :
  typed s -> count_where (is_legacy u) (audit_logs s) = 0 ->
  Permutation (user_rows u s) (rows_after u 0 s) /\
  Forall (fun r => a_user_id r = u /\ is_Some (a_seq r)) (rows_after u 0 s).
Proof.
  intros Hty Hn. unfold count_where, is_legacy in Hn. rewrite filter_user_rows in Hn.
  assert (Hs : Forall (fun r => exists q, a_seq r = Some q /\ 1 <= q) (user_rows u s)).
  { apply Forall_forall. intros r Hr. pose proof (proj1 (user_rows_elem u r s) Hr) as [Hr' _].
    destruct (a_seq r) as [q|] eqn:E.
    - exists q. split; [done|]. pose proof (ty_seq s Hty) as H. rewrite Forall_forall in H. by eapply H.
    - exfalso. assert (Hin : r ∈ List.filter (fun r => bool_decide (a_seq r = None)) (user_rows u s)).
      { rewrite list_elem_of_In, filter_In, <- list_elem_of_In. split; [done|by apply bool_decide_true]. }
      destruct (List.filter _ _); [by apply not_elem_of_nil in Hin|cbn in Hn; lia]. }
  assert (P : Permutation (user_rows u s) (rows_after u 0 s)).
  { unfold rows_after. rewrite sort_by_perm. unfold after_seq. rewrite filter_user_rows, filter_all; [done|].
    eapply Forall_impl; [exact Hs|]. intros r (q & -> & Hq). cbn. lia. }
  split; [done|]. rewrite <- P. apply Forall_forall. intros r Hr. split; [by apply (user_rows_elem u r s)|].
  rewrite Forall_forall in Hs. destruct (Hs r Hr) as (q & -> & _). eauto.
Qed.

Lemma typed_log_ok u s log :
  is_uuid u = true -> typed s -> (forall r, r ∈ log_rows key u log -> r ∈ audit_logs s) ->
  is_i64 (Z.of_nat (length log)) = true -> log_ok u log.
Proof.
  intros Hu Hty Hin Hl. split_and!; [done|done|]. intros i e He. apply list_elem_of_split_length in He as (l1 & l2 & -> & ->).
  pose proof (ty_rows s Hty) as H. rewrite Forall_forall in H.
  set (q := Z.of_nat (length l1)).
  assert (Hr : link key u (q + 1) (log_tip key u l1) e ∈ audit_logs s).
  { apply Hin. unfold log_rows. rewrite chain_app, Z.add_0_l. apply elem_of_app. right. by left. }
  exact (H _ Hr).
Qed.

Lemma tamper_evident_spec u s :
  is_uuid u = true -> typed s -> (forall u log, log ∈ versions u -> log_ok u log) -> unforged s ->
  r_status (verify_ref key u s) = Intact ->
  exists log, (log = [] \/ log ∈ versions u) /\ Permutation (user_rows u s) (log_rows key u log).
Proof using laws.
  intros Hu Hty Hver Huf Hst. pose proof (intact_unchained u s Hst) as Hn.
  destruct (user_rows_after u s Hty Hn) as [P Hrows]. revert Hst. unfold verify_ref. rewrite Hn.
  destruct (walk key (rows_after u 0 s) walk_start) as [w|[st n]] eqn:Ew; cbn [r_status].
  2:{ by apply walk_err_broken in Ew. }
  apply (walk_inv u) in Ew as (Er & El & Et); [|done]. set (L := map entry_of (rows_after u 0 s)) in *.
  rewrite Er in P. unfold head_status. destruct (head_of u s) as [h|] eqn:Eh.
  - destruct (verified key h u) as [[q hash]|] eqn:Ev; [|done]. unfold verified, to_hash in Ev.
    destruct (Nat.eqb_spec (length (h_row_hash h)) 32) as [Hlen|]; [|done]. cbn in Ev.
    case_bool_decide as Em; [|done]. injection Ev as <- <-. rewrite El, Et.
    destruct (Z.ltb_spec (0 + Z.of_nat (length (rows_after u 0 s))) (h_seq h)); [done|].
    destruct (Z.ltb_spec (h_seq h) (0 + Z.of_nat (length (rows_after u 0 s)))); [done|]. cbn [orb].
    case_bool_decide as Eth; [|done]. intros _. apply Store.find_elem in Eh as [Hh Ehu]. apply bool_decide_eq_true in Ehu.
    pose proof (ty_heads s Hty) as Th. rewrite Forall_forall in Th. destruct (Th h Hh) as [Tu Tq].
    assert (HL : length L = length (rows_after u 0 s)) by (unfold L; by rewrite length_map).
    assert (Eq : h_seq h = Z.of_nat (length L)) by lia.
    assert (Hin : forall r, r ∈ log_rows key u L -> r ∈ audit_logs s).
    { intros r Hr. change (r ∈ chain key u 0 GENESIS_PREV_HASH L) in Hr. rewrite <- P in Hr. by apply (user_rows_elem u r s). }
    assert (Sg : signed (head_message (h_user_id h) (h_seq h) (h_row_hash h))).
    { apply (uf_heads s Huf); [done|]. by rewrite Ehu. }
    destruct Sg as (v & log & Hlog & [Hm | Hm]).
    { by apply log_messages_not_head in Hm. }
    destruct (Hver v log Hlog) as (Hv & Hvl & Hvf).
    apply head_message_inj in Hm as (E1 & E2 & E3); [|done..]. rewrite Ehu in E1. subst v.
    exists log. split; [by right|]. rewrite P. fold (log_rows key u L).
    enough (L = log) as -> by done. apply (same_tip u).
    + apply Huf.
    + lia.
    + eapply typed_log_ok; [done|exact Hty|exact Hin|]. by rewrite <- Eq.
    + done.
    + eapply chain_signed; [done|exact Hin].
    + apply Forall_forall. intros m Hm. exists u, log. auto.
    + unfold log_tip at 1. by rewrite <- Eth, E3.
  - rewrite El. destruct (Z.eqb_spec (0 + Z.of_nat (length (rows_after u 0 s))) 0) as [E|]; [|done]. intros _.
    exists []. split; [by left|]. rewrite P. assert (rows_after u 0 s = []) as E0 by (destruct (rows_after u 0 s); [done|cbn in E; lia]).
    unfold L. by rewrite E0.
Qed.

(** C25: the audit log is tamper evident, up to what the chain can see. Whatever the tables hold after
    somebody without the key edited them, when verification reports a user's chain intact then the
    user's rows are exactly (fields, order, links, nothing missing and nothing added) one of the
    versions of the log that the program signed for that user at some time, or there are none at all.
    So an edit, an insertion, a reordering or a deletion within a signed version is found; going back
    as a whole, rows and signed head, to an older version is not, and neither is removing all the rows
    together with the head, as the documentation of the log says under its limits. The hypotheses: no
    MAC was forged, the signed messages do not collide, the columns keep their types, the signed
    versions are logs of that user, nobody writes this user's tables while they are verified, and the
    statements of the verification answer. *)
Theorem tamper_evident {X} fuel u (w : World State X) report w' :
  is_uuid u = true -> typed (db w) -> (forall u log, log ∈ versions u -> log_ok u log) -> unforged (db w) ->
  quiet_for u w -> (length (rows_after u 0 (db w)) < fuel)%nat ->
  verify_audit_chain key fuel u w = (Ret (Ok (Some report)), w') -> r_status report = Intact ->
  exists log, (log = [] \/ log ∈ versions u) /\ Permutation (user_rows u (db w)) (log_rows key u log).
Proof using laws.
  intros Hu Hty Hver Huf Hq Hf Hrun Hst. destruct (verify_batched_spec key fuel u w) as [w2 E]; [by apply ty_unique|done|done|].
  rewrite E in Hrun. injection Hrun as <- _. by apply tamper_evident_spec.
Qed.
End Tamper.

(** The versions of the second user's log in the concrete run: the adopted row with the next
    entry. *)
Definition demo_entries : list Entry :=
  [mkEntry 3 "login" "auth" None (Some "10.0.0.1") 50; mkEntry 10 "export" "account" None None 60].

Definition demo_versions (u : Uuid) : list (list Entry) := if bool_decide (u = 2) then [demo_entries] else [].

Definition demo_messages : list bytes :=
  log_messages demo_key 2 demo_entries ++ [head_message 2 2 (log_tip demo_key 2 demo_entries)].

Lemma demo_signed m : signed demo_key demo_versions m <-> m ∈ demo_messages.
Proof.
  unfold signed, demo_versions, demo_messages. rewrite elem_of_app, list_elem_of_singleton. split.
  - intros (u & log & Hlog & H). case_bool_decide; [|by apply not_elem_of_nil in Hlog].
    apply list_elem_of_singleton in Hlog. by subst.
  - intros H. exists 2, demo_entries. rewrite bool_decide_true by done. split; [by left|exact H].
Qed.

Lemma demo_rows_signed :
  forallb (fun r => match a_prev_hash r with Some p => bool_decide (row_message p (fields_of r) ∈ demo_messages) | None => true end)
    (audit_logs demo1) = true.
Proof. vm_compute. reflexivity. Qed.

Lemma demo_heads_signed :
  forallb (fun h => bool_decide (head_message (h_user_id h) (h_seq h) (h_row_hash h) ∈ demo_messages)) (heads demo1) = true.
Proof. vm_compute. reflexivity. Qed.

Lemma demo_collide :
  forallb (fun a => forallb (fun b => bool_decide (hmac demo_key a = hmac demo_key b -> a = b)) demo_messages) demo_messages = true.
Proof. vm_compute. reflexivity. Qed.

Lemma forallb_elem {A} (p : A -> bool) l x : forallb p l = true -> x ∈ l -> p x = true.
Proof. rewrite forallb_forall, list_elem_of_In. auto. Qed.

Lemma demo_unforged : unforged demo_key demo_versions demo1.
Proof.
  constructor.
  - intros r p Hr Ep _. rewrite demo_signed. pose proof (forallb_elem _ _ _ demo_rows_signed Hr) as H. cbn beta in H.
    rewrite Ep in H. by apply bool_decide_eq_true in H.
  - intros h Hh _. rewrite demo_signed. pose proof (forallb_elem _ _ _ demo_heads_signed Hh) as H.
    by apply bool_decide_eq_true in H.
  - intros m m'. rewrite !demo_signed. intros Hm Hm'.
    pose proof (forallb_elem _ _ _ (forallb_elem _ _ _ demo_collide Hm) Hm') as D. by apply bool_decide_eq_true in D.
Qed.

Lemma demo_types :
  forallb (fun r => fields_ok (fields_of r) && match a_seq r with Some q => 1 <=? q | None => true end
                    && bool_decide (a_user_id r = 2)) (audit_logs demo1)
  && forallb (fun h => is_uuid (h_user_id h) && is_i64 (h_seq h)) (heads demo1)
  && bool_decide (NoDup (omap a_seq (user_rows 2 demo1))) = true.
Proof. vm_compute. reflexivity. Qed.

Lemma demo_typed : typed demo1.
Proof.
  pose proof demo_types as [[H1 H2]%andb_true_iff H3]%andb_true_iff.
  assert (H : forall r, r ∈ audit_logs demo1 -> _) by (intros r; exact (forallb_elem _ _ r H1)). cbn beta in H.
  constructor.
  - apply Forall_forall. intros r [[Hr _]%andb_true_iff _]%H%andb_true_iff. done.
  - apply Forall_forall. intros r [[_ Hr]%andb_true_iff _]%H%andb_true_iff q E. rewrite E in Hr. lia.
  - apply Forall_forall. intros h Hh%(forallb_elem _ _ _ H2). by apply andb_true_iff in Hh.
  - intros u. unfold unique_seq. destruct (decide (2 = u)) as [<-|Hu]; [by apply bool_decide_eq_true in H3|].
    unfold user_rows. rewrite filter_none; [constructor|]. apply Forall_forall.
    intros r [_ Hr]%H%andb_true_iff. apply bool_decide_eq_true in Hr. apply bool_decide_false. congruence.
Qed.

Lemma demo_log_ok u log : log ∈ demo_versions u -> log_ok u log.
Proof.
  unfold demo_versions. case_bool_decide; [|by intros ?%not_elem_of_nil]. subst. intros ->%list_elem_of_singleton.
  split_and!; [done|done|]. intros [|[|i]] e; cbn; [by intros [= <-]..|done].
Qed.

Lemma tamper_evident_witness :
  exists log, (log = [] \/ log ∈ demo_versions 2) /\
    Permutation (user_rows 2 (db (mkWorld (X := unit) demo1 [] tt))) (log_rows demo_key 2 log).
Proof.
  eapply (tamper_evident demo_key demo_versions 3 2 (mkWorld demo1 [] tt)
    (mkAuditChainReport 2 2 0 Intact) (mkWorld demo1 [] tt)).
  - done.
  - apply demo_typed.
  - apply demo_log_ok.
  - apply demo_unforged.
  - constructor.
  - vm_compute. lia.
  - vm_compute. reflexivity.
  - done.
Defined.
End AuditTamper.
