(* ===== verification/AuditErase.v ===== *)
(** * Anonymising the audit log of a deleted account

    [anonymise_chain] rewrites every link of a chain, batch by batch, while it checks the old
    one. On the log it is the map of [AuditLog.scrub]. *)

From S2P Require Import Prelude Db Paging Store AuditChain AuditLog.

Module AuditErase.
Import Db Paging AuditChain AuditLog.
Import Store (Uuid, update_where, count_where).

Section Erase.
Context `{hm : Hmac} `{laws : !HmacLaws}.
Variable key : bytes.

Lemma chain_take u q p n log : take n (chain key u q p log) = chain key u q p (take n log).
Proof. revert q p n. induction log as [|e log IH]; intros q p [|n]; cbn; [done..|]. by rewrite IH. Qed.

Lemma only_rows_deleted u v s s' : only_rows u s s' -> user_deleted v s' = user_deleted v s.
Proof. intros (_ & Hu & _). unfold user_deleted. by rewrite Hu. Qed.

(** One batch: its links are rewritten in place. *)
Lemma relink_rows_spec u log pre post q p p' s :
  inv s -> user_deleted u s = true -> length p = 32%nat ->
  Permutation (user_rows u s) (pre ++ chain key u q p log ++ post) ->
  exists s', relink_rows key (chain key u q p log) (mkRelink q p p') s =
      Ok (mkRelink (q + Z.of_nat (length log)) (tip key u q p log) (tip key u q p' (map scrub log)), s') /\
    inv s' /\ only_rows u s s' /\ Permutation (user_rows u s') (pre ++ chain key u q p' (map scrub log) ++ post).
Proof using laws.
  revert pre q p p' s. induction log as [|e log IH]; intros pre q p p' s Hinv Hd Hp P.
  { exists s. cbn. rewrite Z.add_0_r. split_and!; [done|done|apply only_rows_refl|done]. }
  cbn [chain relink_rows l_last_seq l_old_prev l_new_prev] in *. set (row := link key u (q + 1) p e) in *.
  change (seq_of row) with (q + 1). change (a_prev_hash row) with (Some p).
  change (a_row_hash row) with (Some (row_hash key p (fields_of row))). change (a_user_id row) with u.
  rewrite Z.eqb_refl, !links_to_hash, Hd by (done || apply hmac_length). cbn [negb orb].
  change (scrub_fields (fields_of row)) with (entry_fields u (q + 1) (scrub e)).
  change (fields_of row) with (entry_fields u (q + 1) e). set (old := row_hash key p (entry_fields u (q + 1) e)) in *.
  set (new := row_hash key p' _). set (s1 := scrub_link _ _ _ _).
  destruct (update_row (fun r => mkAuditRow (a_id r) (a_user_id r) (a_seq r) (Some p') (Some new) (a_action r)
    (a_category r) None None (a_created_at r)) (fun _ => eq_refl) (fun _ => eq_refl) u s row pre _ Hinv P)
    as (Hinv1 & P1 & Ho1). change (inv s1) in Hinv1.
  change (Permutation (user_rows u s1) (pre ++ link key u (q + 1) p' (scrub e) :: chain key u (q + 1) old log ++ post)) in P1.
  change (only_rows u s s1) in Ho1.
  destruct (IH (pre ++ [link key u (q + 1) p' (scrub e)]) (q + 1) old new s1) as (s' & E & Hinv' & Ho' & P').
  { done. } { by rewrite (only_rows_deleted _ _ _ _ Ho1). } { apply hmac_length. } { by rewrite P1, <- app_assoc. }
  exists s'. rewrite E. cbn [length map tip]. split_and!.
  - do 3 f_equal. lia.
  - done.
  - by eapply only_rows_trans.
  - rewrite P', <- app_assoc. done.
Qed.

(** The whole loop, from position [q]. *)
Lemma relink_loop_spec fuel u log pre q p p' s :
  inv s -> user_deleted u s = true -> length p = 32%nat -> (length log < fuel)%nat ->
  Forall (fun r => seq_of r <= q /\ is_Some (a_seq r)) pre ->
  Permutation (user_rows u s) (pre ++ chain key u q p log) ->
  exists s', relink_loop key fuel u (mkRelink q p p') s =
      Some (Ok (mkRelink (q + Z.of_nat (length log)) (tip key u q p log) (tip key u q p' (map scrub log)), s')) /\
    inv s' /\ only_rows u s s' /\ Permutation (user_rows u s') (pre ++ chain key u q p' (map scrub log)).
Proof using laws.
  revert log pre q p p' s. induction fuel as [|f IH]; intros log pre q p p' s Hinv Hd Hp Hf Hpre P; [lia|].
  cbn [relink_loop l_last_seq]. rewrite (chain_rows_batch u q VERIFY_BATCH s pre (chain key u q p log));
    [|done|apply chain_increasing| | |].
  2:{ eapply Forall_impl; [exact Hpre|]. by intros r []. }
  2:{ eapply Forall_impl; [apply chain_bounds|]. cbn. intros r [? ?]. split; [lia|done]. }
  2:{ eapply Forall_impl; [exact Hpre|]. by intros r []. }
  unfold sql_limit. rewrite chain_take. set (n := Z.to_nat VERIFY_BATCH).
  assert (Hn : (1 <= n)%nat) by (unfold n, VERIFY_BATCH; lia). clearbody n.
  destruct log as [|e log0] eqn:El.
  { rewrite take_nil. exists s. cbn. rewrite Z.add_0_r. split_and!; [done|done|apply only_rows_refl|done]. }
  rewrite <- El in *. assert (Hlog : log = take n log ++ drop n log) by (by rewrite take_drop).
  assert (Hlen : (1 <= length (take n log))%nat) by (rewrite length_take, El; cbn; lia).
  destruct (relink_rows_spec u (take n log) pre (chain key u (q + Z.of_nat (length (take n log)))
    (tip key u q p (take n log)) (drop n log)) q p p' s) as (s1 & E1 & Hinv1 & Ho1 & P1); [done|done|done| |].
  { rewrite <- chain_app, take_drop. done. }
  destruct (chain key u q p (take n log)) eqn:Ec; [apply (f_equal length) in Ec; rewrite chain_length in Ec; cbn in Ec; lia|].
  rewrite E1. rewrite app_assoc in P1.
  destruct (IH (drop n log) (pre ++ chain key u q p' (map scrub (take n log))) (q + Z.of_nat (length (take n log)))
    (tip key u q p (take n log)) (tip key u q p' (map scrub (take n log))) s1) as (s2 & E2 & Hinv2 & Ho2 & P2).
  { done. } { by rewrite (only_rows_deleted _ _ _ _ Ho1). } { by apply tip_length. }
  { rewrite length_take in Hlen. rewrite length_drop. lia. }
  { apply Forall_app. split; [eapply Forall_impl; [exact Hpre|]; cbn; intros r []; split; [lia|done]|].
    eapply Forall_impl; [apply chain_bounds|]. cbn. rewrite length_map. intros r [? E]. rewrite E. split; [lia|eauto]. }
  { exact P1. }
  exists s2. rewrite E2. split_and!; [|done|by eapply only_rows_trans|].
  - do 4 f_equal; [rewrite <- Z.add_assoc, <- Nat2Z.inj_add, <- length_app, take_drop; done|by rewrite <- tip_app, take_drop|].
    rewrite <- (length_map scrub (take n log)), <- tip_app, <- map_app, take_drop. done.
  - rewrite P2, <- app_assoc, <- (length_map scrub (take n log)), <- chain_app, <- map_app, take_drop. done.
Qed.

Lemma deleted_exists u s : user_deleted u s = true -> user_exists u s = true.
Proof.
  unfold user_deleted, user_exists. rewrite !existsb_exists. intros ([v d] & Hin & H). exists (v, d). split; [done|].
  by apply andb_true_iff in H as [H _].
Qed.

Lemma scrub_stray_none u s :
  Forall (fun r => is_Some (a_seq r)) (user_rows u s) -> scrub_stray u s = Ok (0, s).
Proof.
  intros H. unfold scrub_stray, count_where, is_legacy.
  assert (E : forall r, r ∈ audit_logs s -> (of_user u r && bool_decide (a_seq r = None) && has_pii r) = false).
  { intros r Hr. apply not_true_iff_false. intros [[Hu Hs]%andb_true_iff _]%andb_true_iff.
    apply bool_decide_eq_true in Hu, Hs. rewrite Forall_forall in H. destruct (H r) as [z Ez]; [|congruence].
    by apply user_rows_elem. }
  rewrite filter_none by (by apply Forall_forall). cbn. do 2 f_equal. unfold update_where.
  rewrite (map_ext_in _ (fun r => r)); [rewrite map_id; by destruct s|]. intros r Hr. rewrite E; [done|by apply list_elem_of_In].
Qed.

Lemma chain_scrubbed u q p log : Forall (fun r => has_pii r = false) (chain key u q p (map scrub log)).
Proof. revert q p. induction log as [|e log IH]; intros; cbn; constructor; [done|apply IH]. Qed.

Lemma anonymise_spec logs fuel u s :
  represents key logs s -> user_deleted u s = true -> (length (logs u) < fuel)%nat ->
  exists s', anonymise_chain key fuel u s = Some (Ok (Z.of_nat (length (logs u)), s')) /\
    represents key (fun v => if bool_decide (v = u) then map scrub (logs u) else logs v) s' /\
    Forall (fun r => has_pii r = false) (user_rows u s') /\
    r_status (verify_ref key u s') = Intact /\ users s' = users s.
Proof using laws.
  intros [Hinv Hl] Hd Hf. set (log := logs u) in *. unfold anonymise_chain.
  destruct (chain_tip_spec key u log s Hinv (Hl u)) as (s1 & E1 & Hinv1 & Ho1 & P1). rewrite E1.
  destruct (relink_loop_spec fuel u log [] 0 GENESIS_PREV_HASH GENESIS_PREV_HASH s1) as (s2 & E2 & Hinv2 & Ho2 & P2);
    [done|by rewrite (only_rows_deleted _ _ _ _ Ho1)|done|done|done|done|].
  rewrite E2, Z.add_0_l. cbn [l_last_seq l_old_prev l_new_prev app] in *.
  fold (log_tip key u log). fold (log_tip key u (map scrub log)).
  rewrite Z.eqb_refl, bool_decide_true by done. cbn [negb orb].
  pose proof (only_rows_trans _ _ _ _ Ho1 Ho2) as Ho. pose proof Ho as (Hh & Hus & _ & _).
  assert (Hs2 : Forall (fun r => is_Some (a_seq r)) (user_rows u s2)).
  { rewrite P2. eapply Forall_impl; [apply chain_bounds|]. intros r [_ ->]. eauto. }
  assert (Hp2 : Forall (fun r => has_pii r = false) (user_rows u s2)) by (rewrite P2; apply chain_scrubbed).
  destruct (Z.ltb_spec 0 (Z.of_nat (length log))) as [Hne|He].
  - destruct (write_head_spec key u (Z.of_nat (length log)) (log_tip key u (map scrub log)) s2)
      as (s3 & E3 & Hinv3 & El3 & Hu3 & Hn3 & Hh3).
    { done. } { apply deleted_exists. by rewrite (only_rows_deleted _ _ _ _ Ho). } { lia. } { apply log_tip_length. }
    assert (Er : forall v, user_rows v s3 = user_rows v s2) by (intros v; unfold user_rows; by rewrite El3).
    assert (Hc : chained key u (map scrub log) s3).
    { split_and!; [by rewrite Er|by destruct log|]. rewrite Hh3, bool_decide_true by done. unfold log_head. by rewrite length_map. }
    exists s3. rewrite E3. cbn [result_bind]. rewrite scrub_stray_none by (by rewrite Er). cbn [result_bind fst snd].
    split_and!; [do 3 f_equal; lia| |by rewrite Er|by rewrite (verify_ref_chained key u (map scrub log))|by rewrite Hu3].
    split; [done|]. intros v. case_bool_decide as Ev; [subst v; by left|]. eapply holds_same; [|apply Hl].
    eapply same_user_trans; [by eapply only_rows_same|]. split; [apply Er|]. by rewrite Hh3, bool_decide_false.
  - assert (El : log = []) by (destruct log; [done|cbn in He; lia]). exists s2. cbn [result_bind].
    rewrite scrub_stray_none by done. cbn [result_bind fst snd]. rewrite El in *. cbn in P2.
    assert (Hu2 : unchained u [] s2).
    { assert (En : user_rows u s2 = []) by (by apply Permutation_nil_r). split_and!.
      - by rewrite En.
      - unfold legacy_rows, is_legacy. by rewrite filter_user_rows, En.
      - destruct (Hl u) as [(_ & Hne & _) | (_ & _ & Hn)]; [by fold log in Hne; rewrite El in Hne|].
        unfold head_of in *. by rewrite Hh. }
    split_and!; [done| |done|by rewrite (verify_ref_unchained key u [])|done]. split; [done|].
    intros v. case_bool_decide as Ev; [subst v; by right|]. eapply holds_same; [by eapply only_rows_same|apply Hl].
Qed.
(** Erasing a deleted account. Anonymisation of a deleted user's log terminates and
    succeeds, reports as many rows as the log has, and afterwards the tables represent the same
    log with the targets and addresses cleared (so that no personal field of the user is left
    and the chain verifies), and every other user's log as before. *)
Lemma anonymise_erases logs fuel u s :
  represents key logs s -> user_deleted u s = true -> (length (logs u) < fuel)%nat ->
  exists s', anonymise_chain key fuel u s = Some (Ok (Z.of_nat (length (logs u)), s')) /\
    represents key (fun v => if bool_decide (v = u) then map scrub (logs u) else logs v) s' /\
    Forall (fun r => has_pii r = false) (user_rows u s') /\
    r_status (verify_ref key u s') = Intact /\ users s' = users s.
Proof using laws. apply anonymise_spec. Qed.
End Erase.

Definition demo_deleted : State := mkState (next_uuid demo0) [(1, false); (2, true)] (audit_logs demo0) (heads demo0).

Lemma demo_deleted_represents : represents demo_key demo_logs demo_deleted.
Proof. destruct demo0_represents as [[H1 H2 H3] H]. split; [constructor; done|exact H]. Qed.

End AuditErase.
