(* ===== verification/Users.v ===== *)
(** * Accounts: users, login lockouts, sessions, revoked tokens, API keys

    [crates/store/src/users.rs], [sessions.rs], [denylist.rs] and [api_keys.rs]: one
    statement (or transaction) per operation. Times are in microseconds. The theorem of the
    file is about every sequence of these statements: a revoked token stays revoked. *)

From Stdlib Require Import Sorted.
From S2P Require Import Prelude Db Paging Store.

Module Users.
Import Db Paging.
Import Store (Uuid, update_where, count_where, update_where_key, update_where_Forall, find_elem).
Local Open Scope db_scope.

Definition second : Z := 1000000.
Definition minute : Z := 60 * second.
Definition day : Z := 24 * 60 * minute.

(** ** Rows *)

Record User := mkUser {
  u_id : Uuid;
  u_email : string;
  u_username : option string;
  u_password_hash : string;
  u_email_verified_at : option Z;
  u_session_epoch : Z;
  u_created_at : Z;
  u_updated_at : Z;
  u_deleted_at : option Z
}.

Record Session := mkSession {
  se_id : Uuid;
  se_user_id : Uuid;
  se_user_agent_hash : option string;
  se_created_at : Z;
  se_last_seen_at : Z;
  se_expires_at : Z;
  se_revoked_at : option Z
}.

Record Denied := mkDenied { dn_token_hash : string; dn_user_id : Uuid; dn_expires_at : Z }.

Record Lockout := mkLockout {
  lo_email : string;
  lo_failed_attempts : Z;
  lo_window_started : Z;
  lo_lockout_count : Z;
  lo_locked_until : option Z
}.

Record ApiKey := mkApiKey {
  k_id : Uuid;
  k_wallet_id : Uuid;
  k_prefix : string;
  k_key_hash : string;
  k_created_at : Z;
  k_scopes : list string;
  k_last_used_at : option Z;
  k_expires_at : option Z
}.

(** [wallet_ids] is the referenced key of [wallets]. *)
Record State := mkState {
  next_uuid : Uuid;
  wallet_ids : list Uuid;
  users : list User;
  sessions : list Session;
  token_denylist : list Denied;
  auth_lockouts : list Lockout;
  api_keys : list ApiKey
}.

Definition bump (s : State) : State :=
  mkState (next_uuid s + 1) (wallet_ids s) (users s) (sessions s) (token_denylist s) (auth_lockouts s) (api_keys s).
Definition set_users (s : State) (v : list User) : State :=
  mkState (next_uuid s) (wallet_ids s) v (sessions s) (token_denylist s) (auth_lockouts s) (api_keys s).
Definition set_sessions (s : State) (v : list Session) : State :=
  mkState (next_uuid s) (wallet_ids s) (users s) v (token_denylist s) (auth_lockouts s) (api_keys s).
Definition set_denylist (s : State) (v : list Denied) : State :=
  mkState (next_uuid s) (wallet_ids s) (users s) (sessions s) v (auth_lockouts s) (api_keys s).
Definition set_lockouts (s : State) (v : list Lockout) : State :=
  mkState (next_uuid s) (wallet_ids s) (users s) (sessions s) (token_denylist s) v (api_keys s).
Definition set_api_keys (s : State) (v : list ApiKey) : State :=
  mkState (next_uuid s) (wallet_ids s) (users s) (sessions s) (token_denylist s) (auth_lockouts s) v.

Definition is_user (id : Uuid) (u : User) : bool := bool_decide (u_id u = id).
Definition user_exists (id : Uuid) (s : State) : bool := existsb (is_user id) (users s).

(** The database's [lower], whose tables are the locale's. *)
Class SqlLower := { sql_lower : string -> string }.

(** [Uuid]'s text form. *)
Class UuidText := { uuid_text : Uuid -> string; parse_uuid : string -> option Uuid }.
Class UuidTextLaws `{UuidText} := { parse_uuid_text : forall u, parse_uuid (uuid_text u) = Some u }.

Section Statements.
Context `{SqlLower}.

(** ** [users.rs] *)

Definition create_user_stmt (email password_hash : string) (now : Z) (s : State) : result User sqlx_error * State :=
  if existsb (fun u => bool_decide (u_email u = email)) (users s) then (Err (UniqueViolation "users_email_key"), s)
  else
    let u := mkUser (next_uuid s) email None password_hash None 0 now now None in
    (Ok u, bump (set_users s (users s ++ [u]))).

(** [UPDATE users SET f WHERE id RETURNING *]; the row after the update. *)
Definition update_user (id : Uuid) (f : User -> User) (s : State) : option User * State :=
  (List.find (is_user id) (users (set_users s (update_where (is_user id) f (users s)))),
   set_users s (update_where (is_user id) f (users s))).

Definition set_username (username : string) (now : Z) (u : User) : User :=
  mkUser (u_id u) (u_email u) (Some username) (u_password_hash u) (u_email_verified_at u) (u_session_epoch u)
    (u_created_at u) now (u_deleted_at u).

Definition update_username_stmt (user_id : Uuid) (username : string) (now : Z) (s : State) :
    result User sqlx_error * State :=
  if negb (user_exists user_id s) then (Err OtherDbError, s) else
  if existsb (fun u => negb (is_user user_id u)
                       && bool_decide (option_map sql_lower (u_username u) = Some (sql_lower username))) (users s)
  then (Err (UniqueViolation "users_username_unique_idx"), s)
  else match update_user user_id (set_username username now) s with
       | (Some u, s') => (Ok u, s')
       | (None, s') => (Err OtherDbError, s')
       end.

(** The sessions and revoked tokens of the user go with the row. *)
Definition delete_unverified_user_stmt (user_id : Uuid) (now : Z) (s : State) : result unit sqlx_error * State :=
  let p u := is_user user_id u && bool_decide (u_email_verified_at u = None) in
  if existsb p (users s) then
    (Ok tt, mkState (next_uuid s) (wallet_ids s) (List.filter (fun u => negb (p u)) (users s))
              (List.filter (fun x => negb (bool_decide (se_user_id x = user_id))) (sessions s))
              (List.filter (fun d => negb (bool_decide (dn_user_id d = user_id))) (token_denylist s))
              (auth_lockouts s) (api_keys s))
  else (Ok tt, s).

Definition find_user_by_email (email : string) (s : State) : option User :=
  List.find (fun u => bool_decide (u_email u = email)) (users s).

Definition get_user (id : Uuid) (s : State) : option User := List.find (is_user id) (users s).

Definition auth_locked_until (email : string) (now : Z) (s : State) : option Z :=
  let* l := List.find (fun l => bool_decide (lo_email l = sql_lower email)
                                && match lo_locked_until l with Some t => now <? t | None => false end)
              (auth_lockouts s) in
  lo_locked_until l.

(** The branch of the upsert for an email with a row. *)
Definition count_failure (now : Z) (l : Lockout) : Lockout :=
  let expired := lo_window_started l <? now - 15 * minute in
  let locks := 5 <=? lo_failed_attempts l + 1 in
  mkLockout (lo_email l)
    (if expired then 1 else lo_failed_attempts l + 1)
    (if expired then now else lo_window_started l)
    (if locks then lo_lockout_count l + 1 else lo_lockout_count l)
    (if locks then Some (now + 60 * Z.shiftl 1 (Z.min (lo_lockout_count l) 6) * second) else lo_locked_until l).

Definition record_auth_failure_stmt (email : string) (now : Z) (s : State) : result unit sqlx_error * State :=
  let p l := bool_decide (lo_email l = sql_lower email) in
  if existsb p (auth_lockouts s)
  then (Ok tt, set_lockouts s (update_where p (count_failure now) (auth_lockouts s)))
  else (Ok tt, set_lockouts s (auth_lockouts s ++ [mkLockout (sql_lower email) 1 now 0 None])).

Definition reset_auth_failures_stmt (email : string) (now : Z) (s : State) : result unit sqlx_error * State :=
  (Ok tt, set_lockouts s (List.filter (fun l => negb (bool_decide (lo_email l = sql_lower email))) (auth_lockouts s))).

Definition verify_user (now : Z) (u : User) : User :=
  mkUser (u_id u) (u_email u) (u_username u) (u_password_hash u) (Some now) (u_session_epoch u)
    (u_created_at u) (u_updated_at u) (u_deleted_at u).

Definition mark_email_verified_stmt (user_id : Uuid) (now : Z) (s : State) : result unit sqlx_error * State :=
  (Ok tt, set_users s (update_where (is_user user_id) (verify_user now) (users s))).

(** ** [sessions.rs] *)

Definition revoke (now : Z) (x : Session) : Session :=
  mkSession (se_id x) (se_user_id x) (se_user_agent_hash x) (se_created_at x) (se_last_seen_at x) (se_expires_at x)
    (Some now).

Definition revocable (user_id : Uuid) (keep : option Uuid) (x : Session) : bool :=
  bool_decide (se_user_id x = user_id) && bool_decide (se_revoked_at x = None)
  && match keep with None => true | Some k => negb (bool_decide (se_id x = k)) end.

Definition revoke_sessions_except (user_id : Uuid) (keep : option Uuid) (now : Z) (s : State) : Z * State :=
  (count_where (revocable user_id keep) (sessions s),
   set_sessions s (update_where (revocable user_id keep) (revoke now) (sessions s))).

(** [session_epoch + 1] of an INTEGER column. *)
Definition bump_epoch (password_hash : string -> string) (now : Z) (u : User) : User :=
  mkUser (u_id u) (u_email u) (u_username u) (password_hash (u_password_hash u)) (u_email_verified_at u)
    (u_session_epoch u + 1) (u_created_at u) now (u_deleted_at u).

(** The transaction of [change_password] and of [revoke_other_sessions]: a new epoch (an
    error when the column overflows), then the sessions. *)
Definition new_epoch_tx (user_id : Uuid) (password_hash : string -> string) (keep : option Uuid) (now : Z) (s : State) :
    result (result (Z * Z) StoreError) sqlx_error * State :=
  match get_user user_id s with
  | None => (Ok (Err NotFound), s)
  | Some u =>
      if i32_MAX <? u_session_epoch u + 1 then (Err OtherDbError, s) else
      let s1 := set_users s (update_where (is_user user_id) (bump_epoch password_hash now) (users s)) in
      let '(n, s2) := revoke_sessions_except user_id keep now s1 in
      (Ok (Ok (u_session_epoch u + 1, n)), s2)
  end.

Definition change_password_tx (user_id : Uuid) (new_password_hash : string) (keep_session : option Uuid) :=
  new_epoch_tx user_id (fun _ => new_password_hash) keep_session.

Definition revoke_other_sessions_tx (user_id : Uuid) (keep : option Uuid) := new_epoch_tx user_id (fun h => h) keep.

Definition set_email (email : string) (now : Z) (u : User) : User :=
  mkUser (u_id u) email (u_username u) (u_password_hash u) (u_email_verified_at u) (u_session_epoch u)
    (u_created_at u) now (u_deleted_at u).

Definition update_email_stmt (user_id : Uuid) (email : string) (now : Z) (s : State) :
    result (option User) sqlx_error * State :=
  if negb (user_exists user_id s) then (Ok None, s) else
  if existsb (fun u => negb (is_user user_id u) && bool_decide (u_email u = email)) (users s)
  then (Err (UniqueViolation "users_email_key"), s)
  else let '(u, s') := update_user user_id (set_email email now) s in (Ok u, s').

Definition rehash (password_hash : string) (u : User) : User :=
  mkUser (u_id u) (u_email u) (u_username u) password_hash (u_email_verified_at u) (u_session_epoch u)
    (u_created_at u) (u_updated_at u) (u_deleted_at u).

Definition rehash_password_stmt (user_id : Uuid) (password_hash : string) (now : Z) (s : State) :
    result unit sqlx_error * State :=
  (Ok tt, set_users s (update_where (is_user user_id) (rehash password_hash) (users s))).

Definition create_session_stmt (user_id : Uuid) (user_agent_hash : option string) (expires_at now : Z) (s : State) :
    result Session sqlx_error * State :=
  if negb (user_exists user_id s) then (Err OtherDbError, s) else
  let x := mkSession (next_uuid s) user_id user_agent_hash now now expires_at None in
  (Ok x, bump (set_sessions s (sessions s ++ [x]))).

(** A session of the user that is not revoked and not expired. *)
Definition live_session (user_id id : Uuid) (now : Z) (x : Session) : bool :=
  bool_decide (se_id x = id) && bool_decide (se_user_id x = user_id) && bool_decide (se_revoked_at x = None)
  && (now <? se_expires_at x).

Definition extend (expires_at now : Z) (x : Session) : Session :=
  mkSession (se_id x) (se_user_id x) (se_user_agent_hash x) (se_created_at x) now expires_at (se_revoked_at x).

Definition extend_session_stmt (user_id session_id : Uuid) (expires_at now : Z) (s : State) :
    result bool sqlx_error * State :=
  (Ok (count_where (live_session user_id session_id now) (sessions s) =? 1),
   set_sessions s (update_where (live_session user_id session_id now) (extend expires_at now) (sessions s))).

Definition touchable (user_id : Uuid) (session_id : option Uuid) (now : Z) (x : Session) : bool :=
  bool_decide (session_id = Some (se_id x)) && bool_decide (se_user_id x = user_id)
  && bool_decide (se_revoked_at x = None) && (se_last_seen_at x <? now - 60 * second).

Definition touch (now : Z) (x : Session) : Session :=
  mkSession (se_id x) (se_user_id x) (se_user_agent_hash x) (se_created_at x) now (se_expires_at x) (se_revoked_at x).

Definition session_valid (token_hash : string) (user_id : Uuid) (session_epoch : Z) (session_id : option Uuid) (now : Z)
    (s : State) : bool :=
  existsb (fun u => is_user user_id u && (u_session_epoch u =? session_epoch) && bool_decide (u_deleted_at u = None))
    (users s)
  && negb (existsb (fun d => bool_decide (dn_token_hash d = token_hash) && (now <? dn_expires_at d)) (token_denylist s))
  && match session_id with None => true | Some id => existsb (live_session user_id id now) (sessions s) end.

Definition is_session_valid_stmt (token_hash : string) (user_id : Uuid) (session_epoch : Z) (session_id : option Uuid)
    (now : Z) (s : State) : result bool sqlx_error * State :=
  (Ok (session_valid token_hash user_id session_epoch session_id now s),
   set_sessions s (update_where (touchable user_id session_id now) (touch now) (sessions s))).

(** [ORDER BY last_seen_at DESC, id LIMIT 100] *)
Definition seen_leb (a b : Session) : bool :=
  (se_last_seen_at b <? se_last_seen_at a) || ((se_last_seen_at a =? se_last_seen_at b) && (se_id a <=? se_id b)).

Definition list_active_sessions (user_id : Uuid) (now : Z) (s : State) : list Session :=
  sql_limit 100 (sort_by seen_leb
    (List.filter (fun x => bool_decide (se_user_id x = user_id) && bool_decide (se_revoked_at x = None)
                           && (now <? se_expires_at x)) (sessions s))).

Definition revoke_session_stmt (user_id session_id : Uuid) (now : Z) (s : State) : result bool sqlx_error * State :=
  let p x := bool_decide (se_id x = session_id) && bool_decide (se_user_id x = user_id)
             && bool_decide (se_revoked_at x = None) in
  (Ok (count_where p (sessions s) =? 1), set_sessions s (update_where p (revoke now) (sessions s))).

Definition purge_expired_sessions_stmt (now : Z) (s : State) : result Z sqlx_error * State :=
  let p x := se_expires_at x <? now - day in
  (Ok (count_where p (sessions s)), set_sessions s (List.filter (fun x => negb (p x)) (sessions s))).

(** ** [denylist.rs] *)

Definition denylist_token_stmt (token_hash : string) (user_id : Uuid) (expires_at now : Z) (s : State) :
    result unit sqlx_error * State :=
  if existsb (fun d => bool_decide (dn_token_hash d = token_hash)) (token_denylist s) then (Ok tt, s) else
  if negb (user_exists user_id s) then (Err OtherDbError, s)
  else (Ok tt, set_denylist s (token_denylist s ++ [mkDenied token_hash user_id expires_at])).

Definition is_token_denylisted (token_hash : string) (now : Z) (s : State) : bool :=
  existsb (fun d => bool_decide (dn_token_hash d = token_hash) && (now <? dn_expires_at d)) (token_denylist s).

(** These two name a column [token] that the table does not have. *)
Definition revoke_token_stmt (token : string) (expires_at now : Z) (s : State) : result unit sqlx_error * State :=
  (Err OtherDbError, s).

Definition is_token_revoked_stmt (token : string) (now : Z) (s : State) : result bool sqlx_error * State :=
  (Err OtherDbError, s).

Definition purge_expired_tokens_stmt (now : Z) (s : State) : result Z sqlx_error * State :=
  let p d := dn_expires_at d <? now in
  (Ok (count_where p (token_denylist s)), set_denylist s (List.filter (fun d => negb (p d)) (token_denylist s))).

(** ** [api_keys.rs] *)

(** The constraints of the table: scopes, the expiry, the wallet. *)
Definition key_checks (k : ApiKey) (s : State) : bool :=
  (0 <? Z.of_nat (length (k_scopes k))) && match k_expires_at k with Some t => k_created_at k <? t | None => true end
  && bool_decide (k_wallet_id k ∈ wallet_ids s).

Definition of_wallet (wallet_id : Uuid) (k : ApiKey) : bool := bool_decide (k_wallet_id k = wallet_id).

Definition upsert_api_key_stmt (wallet_id : Uuid) (prefix key_hash : string) (scopes : list string)
    (expires_at : option Z) (now : Z) (s : State) : result ApiKey sqlx_error * State :=
  let new := mkApiKey (next_uuid s) wallet_id prefix key_hash now scopes None expires_at in
  if negb (key_checks new s) then (Err OtherDbError, s) else
  match List.find (of_wallet wallet_id) (api_keys s) with
  | Some old =>
      let row := mkApiKey (k_id old) wallet_id prefix key_hash now scopes None expires_at in
      (Ok row, set_api_keys s (update_where (of_wallet wallet_id) (fun _ => row) (api_keys s)))
  | None => (Ok new, bump (set_api_keys s (api_keys s ++ [new])))
  end.

Definition create_api_key_stmt (wallet_id : Uuid) (prefix key_hash : string) (scopes : list string)
    (expires_at : option Z) (now : Z) (s : State) : result ApiKey sqlx_error * State :=
  let new := mkApiKey (next_uuid s) wallet_id prefix key_hash now scopes None expires_at in
  if negb (key_checks new s) then (Err OtherDbError, s) else
  if existsb (of_wallet wallet_id) (api_keys s) then (Err (UniqueViolation "api_keys_wallet_id_key"), s)
  else (Ok new, bump (set_api_keys s (api_keys s ++ [new]))).

Definition get_api_key (wallet_id : Uuid) (s : State) : option ApiKey := List.find (of_wallet wallet_id) (api_keys s).

Definition usable_key (key_hash : string) (now : Z) (k : ApiKey) : bool :=
  bool_decide (k_key_hash k = key_hash) && match k_expires_at k with Some t => now <? t | None => true end.

Definition use_key (now : Z) (k : ApiKey) : ApiKey :=
  mkApiKey (k_id k) (k_wallet_id k) (k_prefix k) (k_key_hash k) (k_created_at k) (k_scopes k) (Some now) (k_expires_at k).

Definition use_api_key_stmt (key_hash : string) (now : Z) (s : State) : result (option ApiKey) sqlx_error * State :=
  (Ok (option_map (use_key now) (List.find (usable_key key_hash now) (api_keys s))),
   set_api_keys s (update_where (usable_key key_hash now) (use_key now) (api_keys s))).

Definition delete_api_key_stmt (wallet_id : Uuid) (now : Z) (s : State) : result unit sqlx_error * State :=
  (Ok tt, set_api_keys s (List.filter (fun k => negb (of_wallet wallet_id k)) (api_keys s))).

(** ** Deleting an account ([account.rs]): the statements on these tables *)

Definition tombstone `{UuidText} (now : Z) (u : User) : User :=
  mkUser (u_id u) ("deleted+" +:+ uuid_text (u_id u) +:+ "@users.invalid") None "!deleted" (u_email_verified_at u)
    (u_session_epoch u + 1) (u_created_at u) now (Some now).

Definition live_user (user_id : Uuid) (s : State) : option User :=
  List.find (fun u => is_user user_id u && bool_decide (u_deleted_at u = None)) (users s).

(** The user row, the sessions, the lockout of the old email. The tombstone's email is unique
    unless some other row has it. *)
Definition delete_user `{UuidText} (user_id : Uuid) (now : Z) (s : State) : result State StoreError :=
  match live_user user_id s with
  | None => Err NotFound
  | Some u =>
      if i32_MAX <? u_session_epoch u + 1 then Err Database else
      if existsb (fun v => negb (is_user user_id v) && bool_decide (u_email v = u_email (tombstone now u))) (users s)
      then Err Database else
      Ok (mkState (next_uuid s) (wallet_ids s) (update_where (is_user user_id) (tombstone now) (users s))
            (update_where (revocable user_id None) (revoke now) (sessions s)) (token_denylist s)
            (List.filter (fun l => negb (bool_decide (lo_email l = sql_lower (u_email u)))) (auth_lockouts s))
            (api_keys s))
  end.
End Statements.

(** ** Sequences of statements *)

Section History.
Context `{SqlLower} `{UuidText}.

Inductive op :=
| CreateUser (email password_hash : string)
| UpdateUsername (user_id : Uuid) (username : string)
| DeleteUnverifiedUser (user_id : Uuid)
| RecordAuthFailure (email : string)
| ResetAuthFailures (email : string)
| MarkEmailVerified (user_id : Uuid)
| NewEpoch (user_id : Uuid) (password_hash : string -> string) (keep : option Uuid)
| UpdateEmail (user_id : Uuid) (email : string)
| RehashPassword (user_id : Uuid) (password_hash : string)
| CreateSession (user_id : Uuid) (user_agent_hash : option string) (expires_at : Z)
| ExtendSession (user_id session_id : Uuid) (expires_at : Z)
| IsSessionValid (token_hash : string) (user_id : Uuid) (session_epoch : Z) (session_id : option Uuid)
| RevokeSession (user_id session_id : Uuid)
| PurgeExpiredSessions
| DenylistToken (token_hash : string) (user_id : Uuid) (expires_at : Z)
| PurgeExpiredTokens
| UpsertApiKey (wallet_id : Uuid) (prefix key_hash : string) (scopes : list string) (expires_at : option Z)
| CreateApiKey (wallet_id : Uuid) (prefix key_hash : string) (scopes : list string) (expires_at : option Z)
| UseApiKey (key_hash : string)
| DeleteApiKey (wallet_id : Uuid)
| DeleteUser (user_id : Uuid).

Definition exec (o : op) (now : Z) (s : State) : State :=
  match o with
  | CreateUser e h => snd (create_user_stmt e h now s)
  | UpdateUsername u n => snd (update_username_stmt u n now s)
  | DeleteUnverifiedUser u => snd (delete_unverified_user_stmt u now s)
  | RecordAuthFailure e => snd (record_auth_failure_stmt e now s)
  | ResetAuthFailures e => snd (reset_auth_failures_stmt e now s)
  | MarkEmailVerified u => snd (mark_email_verified_stmt u now s)
  | NewEpoch u h k => snd (new_epoch_tx u h k now s)
  | UpdateEmail u e => snd (update_email_stmt u e now s)
  | RehashPassword u h => snd (rehash_password_stmt u h now s)
  | CreateSession u a t => snd (create_session_stmt u a t now s)
  | ExtendSession u i t => snd (extend_session_stmt u i t now s)
  | IsSessionValid h u e i => snd (is_session_valid_stmt h u e i now s)
  | RevokeSession u i => snd (revoke_session_stmt u i now s)
  | PurgeExpiredSessions => snd (purge_expired_sessions_stmt now s)
  | DenylistToken h u t => snd (denylist_token_stmt h u t now s)
  | PurgeExpiredTokens => snd (purge_expired_tokens_stmt now s)
  | UpsertApiKey w p h c t => snd (upsert_api_key_stmt w p h c t now s)
  | CreateApiKey w p h c t => snd (create_api_key_stmt w p h c t now s)
  | UseApiKey h => snd (use_api_key_stmt h now s)
  | DeleteApiKey w => snd (delete_api_key_stmt w now s)
  | DeleteUser u => match delete_user u now s with Ok s' => s' | Err _ => s end
  end.

(** The statements that took effect, with the database's clock. *)
Fixpoint run (ops : list (Z * op)) (s : State) : State :=
  match ops with [] => s | (now, o) :: rest => run rest (exec o now s) end.

(** ** Revocation *)

Record Token := mkToken { t_hash : string; t_user : Uuid; t_epoch : Z; t_sid : option Uuid }.

Definition accepted (t : Token) (now : Z) (s : State) : bool :=
  session_valid (t_hash t) (t_user t) (t_epoch t) (t_sid t) now s.

(** Why a token is dead, until the time [until] at least: its epoch is over or its user gone,
    its session is revoked or gone, or it is on the deny-list. *)
Definition epoch_over (t : Token) (s : State) : Prop :=
  forall u, u ∈ users s -> u_id u = t_user t -> t_epoch t < u_session_epoch u \/ is_Some (u_deleted_at u).

Definition session_over (t : Token) (s : State) : Prop :=
  exists i, t_sid t = Some i /\ i < next_uuid s /\
    forall x, x ∈ sessions s -> se_id x = i -> is_Some (se_revoked_at x).

Definition denied (t : Token) (until : Z) (s : State) : Prop :=
  exists d, d ∈ token_denylist s /\ dn_token_hash d = t_hash t /\ dn_user_id d = t_user t /\ until <= dn_expires_at d.

Definition revoked (t : Token) (until : Z) (s : State) : Prop :=
  t_user t < next_uuid s /\ (epoch_over t s \/ session_over t s \/ denied t until s).

Lemma revoked_rejected t until now s : revoked t until s -> now < until -> accepted t now s = false.
Proof.
  intros [_ Hr] Hnow. unfold accepted, session_valid. apply not_true_iff_false. rewrite !andb_true_iff.
  intros [[Hu Hd] Hs]. destruct Hr as [Ho | [(i & Ei & _ & Ho) | (d & Hin & Eh & _ & Hex)]].
  - apply existsb_exists in Hu as (u & Hu & Hp). rewrite !andb_true_iff in Hp. destruct Hp as [[E1 E2] E3].
    apply bool_decide_eq_true in E1, E3. apply list_elem_of_In in Hu. destruct (Ho u Hu E1) as [H1 | [z H1]]; [lia|congruence].
  - rewrite Ei in Hs. apply existsb_exists in Hs as (x & Hx & Hp). unfold live_session in Hp. rewrite !andb_true_iff in Hp.
    destruct Hp as [[[E1 _] E3] _]. apply bool_decide_eq_true in E1, E3. apply list_elem_of_In in Hx.
    destruct (Ho x Hx E1) as [z Hz]. congruence.
  - apply negb_true_iff, not_true_iff_false in Hd. apply Hd, existsb_exists. exists d. split; [by apply list_elem_of_In|].
    rewrite bool_decide_true by done. cbn. lia.
Qed.

(** What no statement undoes. *)
Record grows (now : Z) (s s' : State) : Prop := mkGrows {
  g_next : next_uuid s <= next_uuid s';
  g_users : forall u', u' ∈ users s' -> next_uuid s <= u_id u' \/
    exists u, u ∈ users s /\ u_id u = u_id u' /\ u_session_epoch u <= u_session_epoch u' /\
      (is_Some (u_deleted_at u) -> is_Some (u_deleted_at u'));
  g_sessions : forall x', x' ∈ sessions s' -> next_uuid s <= se_id x' \/
    exists x, x ∈ sessions s /\ se_id x = se_id x' /\ (is_Some (se_revoked_at x) -> is_Some (se_revoked_at x'));
  g_denied : forall d, d ∈ token_denylist s -> now <= dn_expires_at d ->
    d ∈ token_denylist s' \/ forall u, u ∈ users s' -> u_id u <> dn_user_id d
}.

Lemma grows_revoked t until now s s' : grows now s s' -> now < until -> revoked t until s -> revoked t until s'.
Proof.
  intros [Hn Hu Hs Hd] Hnow [Hlt Hr]. split; [lia|]. destruct Hr as [Ho | [(i & Ei & Hi & Ho) | (d & Hin & Eh & Eu & Hex)]].
  - left. intros u' Hu' Eu'. destruct (Hu u' Hu') as [? | (u & Hin & Eid & He & Hdel)]; [lia|].
    destruct (Ho u Hin) as [? | ?]; [congruence|left; lia|right; auto].
  - right. left. exists i. split_and!; [done|lia|]. intros x' Hx' Ex'.
    destruct (Hs x' Hx') as [? | (x & Hin & Eid & Hrev)]; [lia|]. apply Hrev, (Ho x Hin). congruence.
  - destruct (Hd d Hin) as [Hin' | Hgone]; [lia| |].
    + right. right. by exists d.
    + left. intros u Hu' Eu'. exfalso. apply (Hgone u Hu'). congruence.
Qed.

(** The primary key of [users]. *)
Definition inv (s : State) : Prop := NoDup (map u_id (users s)) /\ Forall (fun u => u_id u < next_uuid s) (users s).

Definition keeps_user (f : User -> User) : Prop :=
  forall u, u_id (f u) = u_id u /\ u_session_epoch u <= u_session_epoch (f u) /\
    (is_Some (u_deleted_at u) -> is_Some (u_deleted_at (f u))).

Definition keeps_session (f : Session -> Session) : Prop :=
  forall x, se_id (f x) = se_id x /\ (is_Some (se_revoked_at x) -> is_Some (se_revoked_at (f x))).

Lemma update_where_elem {A} p (f : A -> A) l x' :
  x' ∈ update_where p f l -> exists x, x ∈ l /\ (x' = x \/ x' = f x).
Proof.
  unfold update_where. intros (x & -> & Hx)%list_elem_of_fmap. exists x. split; [done|]. destruct (p x); auto.
Qed.

(** The users and sessions after a statement come from updates that keep them, or are new. *)
Lemma grows_intro now s s' p f q g us ss :
  keeps_user f -> keeps_session g -> next_uuid s <= next_uuid s' ->
  (forall u, u ∈ users s' -> u ∈ update_where p f (users s) \/ u ∈ us) -> Forall (fun u => next_uuid s <= u_id u) us ->
  (forall x, x ∈ sessions s' -> x ∈ update_where q g (sessions s) \/ x ∈ ss) ->
  Forall (fun x => next_uuid s <= se_id x) ss ->
  (forall d, d ∈ token_denylist s -> now <= dn_expires_at d ->
     d ∈ token_denylist s' \/ forall u, u ∈ users s' -> u_id u <> dn_user_id d) ->
  grows now s s'.
Proof.
  intros Hf Hg Hn Hu Hus Hs Hss Hd. rewrite Forall_forall in Hus; rewrite Forall_forall in Hss. constructor; [done| | |done].
  - intros u' Hu'. destruct (Hu u' Hu') as [(u & Hin & [-> | ->])%update_where_elem | Hin]; [right..|left; by apply Hus].
    + exists u. split_and!; [done..|lia|done].
    + exists u. destruct (Hf u) as (-> & ? & ?). split_and!; [done..|lia|done].
  - intros x' Hx'. destruct (Hs x' Hx') as [(x & Hin & [-> | ->])%update_where_elem | Hin]; [right..|left; by apply Hss].
    + exists x. by split_and!.
    + exists x. destruct (Hg x) as (-> & ?). by split_and!.
Qed.

Lemma update_where_none {A} (l : list A) f : update_where (fun _ => false) f l = l.
Proof. unfold update_where. apply map_id. Qed.

Lemma keeps_user_id : keeps_user (fun u => u).
Proof. intros u. split_and!; [done|lia|done]. Qed.

Lemma keeps_session_id : keeps_session (fun x => x).
Proof. by intros x. Qed.

(** The common shapes of the statements. *)
Lemma grows_update now s p f q g n l k :
  keeps_user f -> keeps_session g ->
  grows now s (mkState (next_uuid s) n (update_where p f (users s)) (update_where q g (sessions s)) (token_denylist s) l k).
Proof. intros Hf Hg. eapply (grows_intro now s _ p f q g [] []); cbn; auto; lia. Qed.

Lemma grows_same now s n l k :
  grows now s (mkState (next_uuid s) n (users s) (sessions s) (token_denylist s) l k).
Proof.
  rewrite <- (update_where_none (users s) (fun u => u)) at 1. rewrite <- (update_where_none (sessions s) (fun x => x)) at 1.
  apply grows_update; [apply keeps_user_id|apply keeps_session_id].
Qed.

Lemma grows_bump now s s' : grows now s s' -> grows now s (bump s').
Proof. intros [H1 H2 H3 H4]. constructor; cbn; [lia|done..]. Qed.

Lemma grows_refl now s : grows now s s.
Proof. destruct s. apply (grows_same now (mkState _ _ _ _ _ _ _)). Qed.

Lemma grows_users now s p f : keeps_user f -> grows now s (set_users s (update_where p f (users s))).
Proof.
  intros Hf. unfold set_users. rewrite <- (update_where_none (sessions s) (fun x => x)) at 1.
  apply grows_update; [done|apply keeps_session_id].
Qed.

Lemma grows_sessions now s q g : keeps_session g -> grows now s (set_sessions s (update_where q g (sessions s))).
Proof.
  intros Hg. unfold set_sessions. rewrite <- (update_where_none (users s) (fun x => x)) at 1.
  apply grows_update; [apply keeps_user_id|done].
Qed.

Lemma grows_delete_unverified u now s : inv s -> grows now s (snd (delete_unverified_user_stmt u now s)).
Proof.
  intros [Hnd _]. unfold delete_unverified_user_stmt. set (p := fun x => _ && _). destruct (existsb p (users s)) eqn:E;
    [|apply grows_refl].
  eapply (grows_intro now s _ (fun _ => false) (fun x => x) (fun _ => false) (fun x => x) [] []); cbn;
    rewrite ?update_where_none; auto using keeps_user_id, keeps_session_id; [lia| | |].
  - intros x. rewrite list_elem_of_In, filter_In, <- list_elem_of_In. naive_solver.
  - intros x. rewrite list_elem_of_In, filter_In, <- list_elem_of_In. naive_solver.
  - intros d Hd _. destruct (decide (dn_user_id d = u)) as [Eu|Eu].
    + right. intros x. rewrite list_elem_of_In, filter_In, <- list_elem_of_In. intros [Hx Hp] Ex. subst u.
      apply existsb_exists in E as (y & Hy%list_elem_of_In & Py). assert (Eyx : u_id y = u_id x).
      { unfold p in Py. apply andb_true_iff in Py as [Py _]. apply bool_decide_eq_true in Py. congruence. }
      assert (y = x) as ->; [|change (negb (p x) = true) in Hp; by rewrite Py in Hp].
      clear -Hnd Hx Hy Eyx. induction (users s) as [|z l IH]; [by apply not_elem_of_nil in Hx|]. cbn in Hnd.
      apply NoDup_cons in Hnd as [Hz Hl]. apply elem_of_cons in Hx as [-> | Hx], Hy as [-> | Hy]; [done| | |by apply IH].
      * exfalso. apply Hz. rewrite <- Eyx. by apply list_elem_of_fmap_2.
      * exfalso. apply Hz. rewrite Eyx. by apply list_elem_of_fmap_2.
    + left. rewrite list_elem_of_In, filter_In, <- list_elem_of_In. split; [done|]. by rewrite bool_decide_false.
Qed.

Lemma grows_purge_tokens now s : grows now s (snd (purge_expired_tokens_stmt now s)).
Proof.
  eapply (grows_intro now s _ (fun _ => false) (fun x => x) (fun _ => false) (fun x => x) [] []); cbn;
    rewrite ?update_where_none; auto using keeps_user_id, keeps_session_id; [lia|].
  intros d Hd Hn. left. rewrite list_elem_of_In, filter_In, <- list_elem_of_In. split; [done|]. lia.
Qed.

Lemma grows_purge_sessions now s : grows now s (snd (purge_expired_sessions_stmt now s)).
Proof.
  eapply (grows_intro now s _ (fun _ => false) (fun x => x) (fun _ => false) (fun x => x) [] []); cbn;
    rewrite ?update_where_none; auto using keeps_user_id, keeps_session_id; [lia|].
  intros x. rewrite list_elem_of_In, filter_In, <- list_elem_of_In. naive_solver.
Qed.

Lemma grows_create_user e h now s : grows now s (snd (create_user_stmt e h now s)).
Proof.
  unfold create_user_stmt. case_match; [apply grows_refl|].
  set (u := mkUser _ _ _ _ _ _ _ _ _).
  apply (grows_intro now s _ (fun _ => false) (fun x => x) (fun _ => false) (fun x => x) [u] []);
    rewrite ?update_where_none; auto using keeps_user_id, keeps_session_id.
  - cbn. lia.
  - intros x. cbn. rewrite elem_of_app. naive_solver.
  - repeat constructor. cbn. lia.
Qed.

Lemma grows_create_session u a t now s : grows now s (snd (create_session_stmt u a t now s)).
Proof.
  unfold create_session_stmt. case_match; [apply grows_refl|].
  set (x := mkSession _ _ _ _ _ _ _).
  apply (grows_intro now s _ (fun _ => false) (fun x => x) (fun _ => false) (fun x => x) [] [x]);
    rewrite ?update_where_none; auto using keeps_user_id, keeps_session_id.
  - cbn. lia.
  - intros y. cbn. rewrite elem_of_app. naive_solver.
  - repeat constructor. cbn. lia.
Qed.

Lemma grows_denylist h u t now s : grows now s (snd (denylist_token_stmt h u t now s)).
Proof.
  unfold denylist_token_stmt. do 2 (case_match; [apply grows_refl|]).
  eapply (grows_intro now s _ (fun _ => false) (fun x => x) (fun _ => false) (fun x => x) [] []); cbn;
    rewrite ?update_where_none; auto using keeps_user_id, keeps_session_id; [lia|].
  intros d Hd _. left. apply elem_of_app. by left.
Qed.

Lemma grows_new_epoch u h k now s : grows now s (snd (new_epoch_tx u h k now s)).
Proof.
  unfold new_epoch_tx, revoke_sessions_except. repeat case_match; simplify_eq; try apply grows_refl. cbn.
  apply (grows_update now s (is_user u) (bump_epoch h now) (revocable u k) (revoke now)); [|by intros x].
  intros x. split_and!; [done|cbn; lia|done].
Qed.

Lemma grows_delete_user u now s : grows now s (match delete_user u now s with Ok s' => s' | Err _ => s end).
Proof.
  unfold delete_user. repeat case_match; simplify_eq; try apply grows_refl.
  apply (grows_update now s (is_user u) (tombstone now) (revocable u None) (revoke now)); [|by intros x].
  intros x. split_and!; [done|cbn; lia|done].
Qed.

#[local] Hint Resolve grows_refl grows_same grows_bump grows_delete_unverified grows_purge_tokens grows_purge_sessions
  grows_create_user grows_create_session grows_denylist grows_new_epoch grows_delete_user : core.

Lemma exec_grows o now s : inv s -> grows now s (exec o now s).
Proof.
  intros Hinv. destruct o; cbn [exec]; auto.
  - unfold update_username_stmt, update_user. repeat case_match; simplify_eq; cbn; auto;
      apply grows_users; intros x; split_and!; cbn; (done || lia).
  - unfold record_auth_failure_stmt. case_match; cbn; apply grows_same.
  - apply grows_same.
  - apply grows_users. intros x. split_and!; cbn; (done || lia).
  - unfold update_email_stmt, update_user. repeat case_match; simplify_eq; cbn; auto;
      apply grows_users; intros x; split_and!; cbn; (done || lia).
  - apply grows_users. intros x. split_and!; cbn; (done || lia).
  - apply grows_sessions. by intros x.
  - apply grows_sessions. by intros x.
  - apply grows_sessions. by intros x.
  - unfold upsert_api_key_stmt. repeat case_match; cbn; auto; [apply grows_same|apply grows_bump, grows_same].
  - unfold create_api_key_stmt. repeat case_match; cbn; auto. apply grows_bump, grows_same.
  - apply grows_same.
  - apply grows_same.
Qed.

Lemma inv_update s s' p f :
  inv s -> next_uuid s <= next_uuid s' -> users s' = update_where p f (users s) -> (forall u, u_id (f u) = u_id u) -> inv s'.
Proof.
  intros [Hn Hf] Hle Eu Hid. unfold inv. rewrite Eu. split; [by rewrite update_where_key|].
  eapply update_where_Forall; [exact Hf|]. cbn. intros r _ ?. destruct (p r); rewrite ?Hid; lia.
Qed.

Lemma inv_same s s' : inv s -> next_uuid s <= next_uuid s' -> users s' = users s -> inv s'.
Proof.
  intros Hinv Hle Eu. apply (inv_update s s' (fun _ => false) (fun u => u)); [done|done| |done].
  by rewrite update_where_none.
Qed.

Lemma inv_delete_unverified u now s : inv s -> inv (snd (delete_unverified_user_stmt u now s)).
Proof.
  intros [Hn Hf]. unfold delete_unverified_user_stmt. case_match; [|done]. split; cbn.
  - set (p := fun x => negb _). clearbody p. clear -Hn. induction (users s) as [|x l IH]; cbn; [done|]. cbn in Hn.
    apply NoDup_cons in Hn as [Hx Hl]. destruct (p x); [|by apply IH]. cbn. constructor; [|by apply IH].
    intros (y & Ey & Hy)%list_elem_of_fmap. apply Hx. rewrite Ey. apply list_elem_of_fmap_2.
    rewrite list_elem_of_In in *. by apply filter_In in Hy as [Hy _].
  - apply Forall_forall. intros x. rewrite list_elem_of_In, filter_In, <- list_elem_of_In. intros [Hx _].
    rewrite Forall_forall in Hf. by apply Hf.
Qed.

Lemma inv_create_user e h now s : inv s -> inv (snd (create_user_stmt e h now s)).
Proof.
  intros [Hn Hf]. unfold create_user_stmt. case_match; [done|]. split; cbn.
  - rewrite map_app. apply NoDup_app. split_and!; [done| |apply NoDup_singleton].
    intros i (x & -> & Hx)%list_elem_of_fmap Hi. apply list_elem_of_singleton in Hi. rewrite Forall_forall in Hf.
    specialize (Hf x Hx). cbn in Hi. lia.
  - apply Forall_app. split; [eapply Forall_impl; [exact Hf|]; cbn; lia|]. repeat constructor. cbn. lia.
Qed.

#[local] Hint Resolve inv_delete_unverified inv_create_user : core.

Lemma exec_inv o now s : inv s -> inv (exec o now s).
Proof.
  intros Hinv. destruct o; cbn [exec]; auto; try (eapply inv_same; [exact Hinv|cbn; lia|done]).
  - unfold update_username_stmt, update_user. repeat case_match; simplify_eq; auto;
      (eapply inv_update; [exact Hinv|cbn; lia|done|done]).
  - unfold record_auth_failure_stmt. case_match; (eapply inv_same; [exact Hinv|cbn; lia|done]).
  - eapply inv_update; [exact Hinv|cbn; lia|done|done].
  - unfold new_epoch_tx, revoke_sessions_except. repeat case_match; simplify_eq; auto.
    eapply (inv_update s); [exact Hinv|cbn; lia|done|done].
  - unfold update_email_stmt, update_user. repeat case_match; simplify_eq; auto;
      (eapply inv_update; [exact Hinv|cbn; lia|done|done]).
  - eapply inv_update; [exact Hinv|cbn; lia|done|done].
  - unfold create_session_stmt. case_match; auto. eapply inv_same; [exact Hinv|cbn; lia|done].
  - unfold denylist_token_stmt. repeat case_match; auto.
  - unfold upsert_api_key_stmt. repeat case_match; auto; (eapply inv_same; [exact Hinv|cbn; lia|done]).
  - unfold create_api_key_stmt. repeat case_match; auto. eapply inv_same; [exact Hinv|cbn; lia|done].
  - unfold delete_user. repeat case_match; simplify_eq; auto. eapply (inv_update s); [exact Hinv|cbn; lia|done|done].
Qed.

Lemma run_revoked t until ops s :
  inv s -> Forall (fun o => fst o < until) ops -> revoked t until s -> revoked t until (run ops s).
Proof.
  revert s. induction ops as [|[now o] ops IH]; intros s Hinv Hops Hr; [done|]. apply Forall_cons in Hops as [Ho Hops].
  cbn. apply IH; [by apply exec_inv|done|]. eapply grows_revoked; [by apply exec_grows|exact Ho|done].
Qed.

(** Revocation is permanent. Once a token is revoked (its user's epoch was bumped or the
    account deleted, its session was revoked, or it was deny-listed until [until]), no sequence
    of statements on the account tables, retention sweeps, refreshes and new logins included,
    makes the check of an authenticated request accept it again before [until]. *)
Lemma revocation_permanent t until ops s now :
  inv s -> revoked t until s -> Forall (fun o => fst o < until) ops -> now < until ->
  accepted t now (run ops s) = false.
Proof. intros Hinv Hr Hops Hnow. eapply revoked_rejected; [by apply run_revoked|done]. Qed.

(** ** Lockouts *)

Definition row_of (email : string) (s : State) : option Lockout :=
  List.find (fun l => bool_decide (lo_email l = sql_lower email)) (auth_lockouts s).

(** The failures of one email at the given times. *)
Fixpoint fail_at (email : string) (times : list Z) (s : State) : State :=
  match times with [] => s | t :: rest => fail_at email rest (snd (record_auth_failure_stmt email t s)) end.

Definition unique_emails (s : State) : Prop := NoDup (map lo_email (auth_lockouts s)).

Lemma record_auth_failure_row email now s :
  row_of email (snd (record_auth_failure_stmt email now s)) =
  Some (match row_of email s with Some l => count_failure now l | None => mkLockout (sql_lower email) 1 now 0 None end).
Proof.
  unfold record_auth_failure_stmt, row_of. set (p := fun l => _). destruct (existsb p (auth_lockouts s)) eqn:E; cbn.
  - revert E. unfold update_where. induction (auth_lockouts s) as [|l ls IH]; cbn; [done|]. destruct (p l) eqn:El.
    + intros _. assert (Ep : p (count_failure now l) = true) by exact El. by rewrite Ep.
    + rewrite El. cbn. exact IH.
  - revert E. induction (auth_lockouts s) as [|l ls IH]; cbn.
    { assert (Ep : p (mkLockout (sql_lower email) 1 now 0 None) = true) by (by apply bool_decide_true). by rewrite Ep. }
    destruct (p l) eqn:El; [done|]. exact IH.
Qed.

Lemma record_auth_failure_unique email now s :
  unique_emails s -> unique_emails (snd (record_auth_failure_stmt email now s)).
Proof.
  unfold unique_emails, record_auth_failure_stmt. intros Hn. destruct (existsb _ _) eqn:E; cbn.
  - by rewrite update_where_key.
  - rewrite map_app. apply NoDup_app. split_and!; [done| |apply NoDup_singleton].
    intros e (l & -> & Hl)%list_elem_of_fmap He. apply list_elem_of_singleton in He. apply not_true_iff_false in E.
    apply E, existsb_exists. exists l. split; [by apply list_elem_of_In|by apply bool_decide_true].
Qed.

Lemma find_nothing {A} (p : A -> bool) l : (forall x, x ∈ l -> p x = false) -> List.find p l = None.
Proof.
  induction l as [|x l IH]; intros Hp; [done|]. cbn. rewrite Hp by (by left). apply IH. intros y Hy. apply Hp. by right.
Qed.

Lemma auth_locked_until_row email now s :
  unique_emails s ->
  auth_locked_until email now s =
  let* l := row_of email s in let* t := lo_locked_until l in if now <? t then Some t else None.
Proof.
  unfold unique_emails, auth_locked_until, row_of. induction (auth_lockouts s) as [|l ls IH]; cbn; [done|].
  intros [Hl Hn]%NoDup_cons. case_bool_decide as E; cbn; [|by apply IH].
  destruct (lo_locked_until l) as [t|] eqn:Et; cbn; [destruct (now <? t) eqn:Elt; cbn; [by rewrite Et|]|].
  all: rewrite find_nothing; [done|]; intros x Hx; rewrite bool_decide_false; [done|];
    intros Ex; apply Hl; rewrite E, <- Ex; by apply list_elem_of_fmap_2.
Qed.

Lemma last_default {A} (l : list A) x d d' : List.last (x :: l) d = List.last (x :: l) d'.
Proof. revert x. induction l as [|y l IH]; intros x; [done|]. exact (IH y). Qed.

(** The row after [n] failures that began at [t0], the last at [t]. *)
Definition failed_row (email : string) (t0 t n : Z) : Lockout :=
  mkLockout (sql_lower email) n t0 (Z.max 0 (n - 4))
    (if 5 <=? n then Some (t + 60 * Z.shiftl 1 (Z.min (n - 5) 6) * second) else None).

Lemma fail_at_row email t0 t n times s :
  1 <= n -> row_of email s = Some (failed_row email t0 t n) -> unique_emails s ->
  Forall (fun t' => t' <= t0 + 15 * minute) times ->
  row_of email (fail_at email times s) =
    Some (failed_row email t0 (List.last times t) (n + Z.of_nat (length times))) /\
  unique_emails (fail_at email times s).
Proof.
  revert t n s. induction times as [|t1 times IH]; intros t n s Hn Hrow Hu Ht.
  { cbn. rewrite Z.add_0_r. done. }
  apply Forall_cons in Ht as [Ht1 Ht]. cbn [fail_at length].
  assert (Hrow1 : row_of email (snd (record_auth_failure_stmt email t1 s)) = Some (failed_row email t0 t1 (n + 1))).
  { rewrite record_auth_failure_row, Hrow. unfold count_failure, failed_row. cbn [lo_email lo_failed_attempts
      lo_window_started lo_lockout_count lo_locked_until].
    rewrite (proj2 (Z.ltb_ge t0 (t1 - 15 * minute))) by lia. destruct (Z.leb_spec 5 (n + 1)).
    - replace (Z.max 0 (n - 4)) with (n + 1 - 5) by lia. replace (Z.max 0 (n + 1 - 4)) with (n + 1 - 5 + 1) by lia. done.
    - rewrite (proj2 (Z.leb_gt 5 n)) by lia. replace (Z.max 0 (n + 1 - 4)) with (Z.max 0 (n - 4)) by lia. done. }
  destruct (IH t1 (n + 1) _ ltac:(lia) Hrow1 (record_auth_failure_unique _ _ _ Hu) Ht) as [-> Hu'].
  split; [|done].
  replace (List.last (t1 :: times) t) with (List.last times t1) by (destruct times; [done|exact (last_default times z t1 t)]).
  do 2 f_equal. lia.
Qed.

(** The lockout of an email. After a first failed login at [t0] and more failures, all
    within fifteen minutes of it, the email is locked exactly when there were at least five, and
    then until 60 seconds after the last one, doubled for each failure past the fifth up to 64
    minutes. *)
Lemma lockout_schedule email t0 times s now :
  unique_emails s -> row_of email s = None -> Forall (fun t => t <= t0 + 15 * minute) times ->
  let n := 1 + Z.of_nat (length times) in
  let until := List.last times t0 + 60 * 2 ^ Z.min (n - 5) 6 * second in
  auth_locked_until email now (fail_at email (t0 :: times) s) =
    if (5 <=? n) && (now <? until) then Some until else None.
Proof.
  intros Hu Hnone Ht n until. cbn [fail_at].
  assert (Hrow : row_of email (snd (record_auth_failure_stmt email t0 s)) = Some (failed_row email t0 t0 1))
    by (by rewrite record_auth_failure_row, Hnone).
  destruct (fail_at_row email t0 t0 1 times _ ltac:(lia) Hrow (record_auth_failure_unique _ _ _ Hu) Ht) as [Hr Hu'].
  rewrite auth_locked_until_row, Hr by done. cbn [option_bind failed_row lo_locked_until]. fold n.
  destruct (Z.leb_spec 5 n); [|done]. cbn [option_bind andb]. rewrite Z.shiftl_mul_pow2, Z.mul_1_l by lia. done.
Qed.
End History.

(** ** Concrete runs *)

#[export] Instance ascii_lower : SqlLower := {| sql_lower := to_ascii_lowercase |}.
#[export] Instance dec_uuid : UuidText := {| uuid_text := print_dec; parse_uuid := parse_int 0 (2 ^ 128 - 1) |}.

Definition demo_user : User := mkUser 1 "ada@octo.dev" None "phc" (Some 0) 3 0 0 None.
Definition demo_db : State :=
  mkState 10 [] [demo_user] [mkSession 5 1 None 0 0 (7 * day) None] [] [] [].

Definition demo_token : Token := mkToken "h1" 1 3 (Some 5).

Example demo_token_accepted : accepted demo_token day demo_db = true.
Proof. vm_compute. reflexivity. Qed.

(** Deny-listed by a refresh; the session lives on and is even extended. *)
Lemma revocation_permanent_witness :
  let s := exec (DenylistToken "h1" 1 (6 * day)) day demo_db in
  revoked demo_token (6 * day) s /\
  accepted demo_token (3 * day) (run [(day, ExtendSession 1 5 (8 * day)); (2 * day, PurgeExpiredTokens)] s) = false.
Proof.
  intros s. assert (Hr : revoked demo_token (6 * day) s).
  { split; [vm_compute; reflexivity|]. right. right. exists (mkDenied "h1" 1 (6 * day)). split_and!; [by left|done..|cbn; lia]. }
  split; [exact Hr|]. apply (revocation_permanent demo_token (6 * day)); [|exact Hr| |vm_compute; reflexivity].
  - split; [apply NoDup_singleton|repeat constructor].
  - repeat constructor.
Defined.

(** At the very second of the expiry the entry no longer counts, while the token may still
    pass the check of its own, whole-second, expiry. *)
Example denied_until_expiry_only :
  let s := run [(day, DenylistToken "h1" 1 (6 * day)); (day, ExtendSession 1 5 (8 * day))] demo_db in
  accepted demo_token (6 * day - 1) s = false /\ accepted demo_token (6 * day + 300000) s = true.
Proof. vm_compute. done. Qed.

(** The count of an expired window still locks: four failures, and one more a day later. *)
Example lock_across_windows :
  auth_locked_until "ada@octo.dev" (day + 1) (fail_at "ada@octo.dev" [0; 1; 2; 3; day] demo_db) =
    Some (day + 60 * second).
Proof. vm_compute. reflexivity. Qed.
End Users.
