(* ===== verification/WebhookStore.v ===== *)
(** * Webhook endpoints and the delivery log

    [crates/store/src/webhooks.rs]: endpoints (soft-deleted, and disabled after a streak of dead
    deliveries), the append-only log of deliveries and its retention sweep. *)

From Stdlib Require Import Sorted.
From S2P Require Import Prelude Db Paging Store.

Module WebhookStore.
Import Db Paging.
Import Store (Uuid, update_where, count_where, update_where_key, find_elem).

Record WebhookEndpoint := mkEndpoint {
  we_id : Uuid;
  we_wallet_id : Uuid;
  we_url : string;
  we_secret : string;
  we_active : bool;
  we_created_at : Z;
  we_deleted_at : option Z;
  we_consecutive_dead_deliveries : Z;
  we_auto_disabled_at : option Z
}.

Record WebhookDelivery := mkDelivery {
  wd_id : Uuid;
  wd_endpoint_id : Uuid;
  wd_event_type : string;
  wd_payload : json;
  wd_status : string;
  wd_attempts : Z;
  wd_response_code : option Z;
  wd_response_body_snippet : option string;
  wd_created_at : Z;
  wd_updated_at : Z
}.

(** [wallet_ids] is the referenced key of [wallets]. *)
Record State := mkState {
  next_uuid : Uuid;
  wallet_ids : list Uuid;
  endpoints : list WebhookEndpoint;
  deliveries : list WebhookDelivery
}.

Definition set_endpoints (s : State) (v : list WebhookEndpoint) : State :=
  mkState (next_uuid s) (wallet_ids s) v (deliveries s).
Definition set_deliveries (s : State) (v : list WebhookDelivery) : State :=
  mkState (next_uuid s) (wallet_ids s) (endpoints s) v.

#[export] Instance delivery_row : Paging.Row WebhookDelivery := {| row_created_at := wd_created_at; row_id := wd_id |}.

(** ** Endpoints *)

Definition create_webhook_endpoint_stmt (wallet_id : Uuid) (url secret : string) (now : Z) (s : State) :
    result WebhookEndpoint sqlx_error * State :=
  if negb (bool_decide (wallet_id ∈ wallet_ids s)) then (Err OtherDbError, s) else
  let e := mkEndpoint (next_uuid s) wallet_id url secret true now None 0 None in
  (Ok e, mkState (next_uuid s + 1) (wallet_ids s) (endpoints s ++ [e]) (deliveries s)).

Definition is_live (e : WebhookEndpoint) : bool := we_active e && bool_decide (we_deleted_at e = None).

Definition active_webhook_endpoints (wallet_id : Uuid) (s : State) : list WebhookEndpoint :=
  List.filter (fun e => bool_decide (we_wallet_id e = wallet_id) && is_live e) (endpoints s).

Definition is_endpoint (id : Uuid) (e : WebhookEndpoint) : bool := bool_decide (we_id e = id).

Definition set_active (active : bool) (deleted_at : option Z) (e : WebhookEndpoint) : WebhookEndpoint :=
  mkEndpoint (we_id e) (we_wallet_id e) (we_url e) (we_secret e) active (we_created_at e) deleted_at
    (we_consecutive_dead_deliveries e) (we_auto_disabled_at e).

Definition delete_webhook_stmt (id : Uuid) (now : Z) (s : State) : result unit sqlx_error * State :=
  (Ok tt, set_endpoints s (update_where (is_endpoint id) (set_active false (Some now)) (endpoints s))).

Definition created_leb (a b : WebhookEndpoint) : bool := we_created_at a <=? we_created_at b.

Definition list_webhooks (wallet_id : Uuid) (include_deleted : bool) (s : State) : list WebhookEndpoint :=
  sort_by created_leb
    (List.filter (fun e => bool_decide (we_wallet_id e = wallet_id)
                           && (include_deleted || bool_decide (we_deleted_at e = None))) (endpoints s)).

Definition deactivate_webhook_endpoint_stmt (id : Uuid) (now : Z) (s : State) : result unit sqlx_error * State :=
  (Ok tt, set_endpoints s (update_where (is_endpoint id) (fun e => set_active false (we_deleted_at e) e) (endpoints s))).

Definition get_webhook_endpoint (id : Uuid) (s : State) : result WebhookEndpoint StoreError :=
  ok_or (List.find (is_endpoint id) (endpoints s)) NotFound.

(** *** The streak of dead deliveries *)

Definition set_streak (n : Z) (e : WebhookEndpoint) : WebhookEndpoint :=
  mkEndpoint (we_id e) (we_wallet_id e) (we_url e) (we_secret e) (we_active e) (we_created_at e) (we_deleted_at e)
    n (we_auto_disabled_at e).

Definition trips (auto_disable_after : option Z) (e : WebhookEndpoint) : bool :=
  match auto_disable_after with Some n => n <=? we_consecutive_dead_deliveries e + 1 | None => false end.

Definition count_dead (auto_disable_after : option Z) (now : Z) (e : WebhookEndpoint) : WebhookEndpoint :=
  let t := trips auto_disable_after e in
  mkEndpoint (we_id e) (we_wallet_id e) (we_url e) (we_secret e) (if t then false else we_active e) (we_created_at e)
    (we_deleted_at e) (we_consecutive_dead_deliveries e + 1)
    (if t && we_active e then Some now else we_auto_disabled_at e).

(** True on the call that disabled the endpoint. An INTEGER streak past its range is an error. *)
Definition record_outcome_stmt (endpoint_id : Uuid) (dead : bool) (auto_disable_after : option Z) (now : Z) (s : State) :
    result bool sqlx_error * State :=
  if negb dead then
    (Ok false, set_endpoints s (update_where (fun e => is_endpoint endpoint_id e
                                                       && negb (we_consecutive_dead_deliveries e =? 0))
                                  (set_streak 0) (endpoints s)))
  else match List.find (is_endpoint endpoint_id) (endpoints s) with
       | None => (Ok false, s)
       | Some e =>
           if i32_MAX <? we_consecutive_dead_deliveries e + 1 then (Err OtherDbError, s) else
           (Ok (trips auto_disable_after e && we_active e),
            set_endpoints s (update_where (is_endpoint endpoint_id) (count_dead auto_disable_after now) (endpoints s)))
       end.

(** ** Deliveries *)

Definition of_endpoint (endpoint_id : Uuid) (d : WebhookDelivery) : bool := bool_decide (wd_endpoint_id d = endpoint_id).

Definition list_webhook_deliveries (endpoint_id : Uuid) (limit : Z) (s : State) : list WebhookDelivery :=
  sql_limit limit (sort_by desc_leb (List.filter (of_endpoint endpoint_id) (deliveries s))).

Definition list_webhook_deliveries_with_status (endpoint_id : Uuid) (status : string) (limit : Z) (s : State) :
    list WebhookDelivery :=
  sql_limit limit (sort_by desc_leb
    (List.filter (fun d => of_endpoint endpoint_id d && bool_decide (wd_status d = status)) (deliveries s))).

Definition get_webhook_delivery (endpoint_id id : Uuid) (s : State) : result WebhookDelivery StoreError :=
  ok_or (List.find (fun d => bool_decide (wd_id d = id) && of_endpoint endpoint_id d) (deliveries s)) NotFound.

Definition delivery_status_ok (status : string) : bool :=
  bool_decide (status ∈ ["pending"; "delivered"; "failed"; "dead"]).

Definition log_webhook_delivery_stmt (endpoint_id : Uuid) (event_type : string) (payload : json) (status : string)
    (attempts : Z) (response_code : option Z) (now : Z) (s : State) : result Uuid sqlx_error * State :=
  if negb (delivery_status_ok status) || negb (existsb (is_endpoint endpoint_id) (endpoints s))
  then (Err OtherDbError, s) else
  let d := mkDelivery (next_uuid s) endpoint_id event_type payload status attempts response_code None now now in
  (Ok (wd_id d), mkState (next_uuid s + 1) (wallet_ids s) (endpoints s) (deliveries s ++ [d])).

(** [row_number() OVER (PARTITION BY endpoint_id ORDER BY created_at DESC, id DESC)] *)
Definition row_number (d : WebhookDelivery) (s : State) : Z :=
  count_where (fun d' => of_endpoint (wd_endpoint_id d) d' && desc_leb d' d) (deliveries s).

Definition purgeable (older_than keep_per_endpoint now : Z) (s : State) (d : WebhookDelivery) : bool :=
  (keep_per_endpoint <? row_number d s) && (wd_created_at d <? now - older_than).

Definition purge_old_webhook_deliveries_stmt (older_than keep_per_endpoint now : Z) (s : State) :
    result Z sqlx_error * State :=
  (Ok (count_where (purgeable older_than keep_per_endpoint now s) (deliveries s)),
   set_deliveries s (List.filter (fun d => negb (purgeable older_than keep_per_endpoint now s d)) (deliveries s))).

(** ** The streak *)

(** The outcomes of an endpoint's deliveries, oldest first; true when the call disabled it. *)
Fixpoint outcomes (id : Uuid) (auto_disable_after : option Z) (l : list (Z * bool)) (s : State) : list bool * State :=
  match l with
  | [] => ([], s)
  | (now, dead) :: rest =>
      let '(r, s1) := record_outcome_stmt id dead auto_disable_after now s in
      let '(rs, s2) := outcomes id auto_disable_after rest s1 in
      ((match r with Ok b => b | Err _ => false end) :: rs, s2)
  end.

(** The dead deliveries since the last delivered one. *)
Fixpoint streak (acc : Z) (l : list bool) : Z :=
  match l with [] => acc | dead :: rest => streak (if dead then acc + 1 else 0) rest end.

(** Some prefix of the outcomes ends in [n] dead deliveries in a row. *)
Fixpoint reaches (n acc : Z) (l : list bool) : bool :=
  match l with
  | [] => false
  | dead :: rest => let acc := if dead then acc + 1 else 0 in (dead && (n <=? acc)) || reaches n acc rest
  end.

Lemma find_update (id : Uuid) p (f : WebhookEndpoint -> WebhookEndpoint) (l : list WebhookEndpoint) e :
  (forall x, we_id (f x) = we_id x) -> List.find (is_endpoint id) l = Some e ->
  List.find (is_endpoint id) (update_where p f l) = Some (if p e then f e else e).
Proof.
  intros Hf. unfold update_where. induction l as [|x l IH]; cbn; [done|]. destruct (is_endpoint id x) eqn:E.
  - intros [= <-]. assert (E' : is_endpoint id (if p x then f x else x) = true).
    { unfold is_endpoint in *. destruct (p x); by rewrite ?Hf. }
    by rewrite E'.
  - intros H. assert (E' : is_endpoint id (if p x then f x else x) = false).
    { unfold is_endpoint in *. destruct (p x); by rewrite ?Hf. }
    rewrite E'. by apply IH.
Qed.

Lemma find_is_endpoint id l e : List.find (is_endpoint id) l = Some e -> is_endpoint id e = true.
Proof. by intros [_ H]%find_elem. Qed.

(** One outcome, on the row of its endpoint. *)
Lemma record_outcome_row id dead n now s e :
  List.find (is_endpoint id) (endpoints s) = Some e -> we_consecutive_dead_deliveries e < i32_MAX ->
  let '(r, s') := record_outcome_stmt id dead n now s in
  r = Ok (dead && trips n e && we_active e) /\
  List.find (is_endpoint id) (endpoints s') = Some (if dead then count_dead n now e
    else if we_consecutive_dead_deliveries e =? 0 then e else set_streak 0 e).
Proof.
  intros Hf Hb. unfold record_outcome_stmt. destruct dead; cbn [negb].
  - rewrite Hf, (proj2 (Z.ltb_ge i32_MAX _)) by lia. split; [done|]. cbn.
    rewrite (find_update id _ (count_dead n now) _ e) by done. by rewrite (find_is_endpoint _ _ _ Hf).
  - split; [done|]. cbn. rewrite (find_update id _ (set_streak 0) _ e) by done. rewrite (find_is_endpoint _ _ _ Hf). cbn.
    by destruct (we_consecutive_dead_deliveries e =? 0).
Qed.

Lemma outcomes_spec id n l s e :
  List.find (is_endpoint id) (endpoints s) = Some e ->
  0 <= we_consecutive_dead_deliveries e -> we_consecutive_dead_deliveries e + Z.of_nat (length l) <= i32_MAX ->
  exists e', List.find (is_endpoint id) (endpoints (snd (outcomes id (Some n) l s))) = Some e' /\
    we_consecutive_dead_deliveries e' = streak (we_consecutive_dead_deliveries e) (map snd l) /\
    we_active e' = we_active e && negb (reaches n (we_consecutive_dead_deliveries e) (map snd l)) /\
    count_where (fun b => b) (fst (outcomes id (Some n) l s)) =
      (if we_active e && reaches n (we_consecutive_dead_deliveries e) (map snd l) then 1 else 0).
Proof.
  revert s e. induction l as [|[now dead] l IH]; intros s e Hf H0 Hb; cbn [outcomes map snd streak reaches].
  { exists e. split_and!; [done|done|by rewrite andb_true_r|by rewrite andb_false_r]. }
  cbn [length] in Hb. pose proof (record_outcome_row id dead (Some n) now s e Hf ltac:(lia)) as Hr.
  destruct (record_outcome_stmt id dead (Some n) now s) as [r s1]. destruct Hr as [-> Hf1].
  set (e1 := if dead then _ else _) in Hf1.
  assert (Es : we_consecutive_dead_deliveries e1 = if dead then we_consecutive_dead_deliveries e + 1 else 0).
  { unfold e1. destruct dead; [done|]. by destruct (Z.eqb_spec (we_consecutive_dead_deliveries e) 0). }
  assert (Ea : we_active e1 = we_active e && negb (dead && trips (Some n) e)).
  { unfold e1. destruct dead; cbn; [by destruct (n <=? _), (we_active e)|].
    destruct (we_consecutive_dead_deliveries e =? 0); cbn; by rewrite andb_true_r. }
  destruct (IH s1 e1 Hf1) as (e' & Hf' & Hs' & Ha' & Hc'); [rewrite Es; destruct dead; lia..|].
  destruct (outcomes id (Some n) l s1) as [rs s2]. exists e'. cbn [fst snd] in *. rewrite Es in Hs', Ha', Hc'.
  split_and!; [done|done| |].
  - rewrite Ha', Ea. cbn [trips]. destruct dead; cbn; destruct (we_active e), (n <=? we_consecutive_dead_deliveries e + 1);
      cbn; by rewrite ?orb_false_r, ?andb_true_r.
  - rewrite Store.count_where_cons, Hc', Ea. cbn [trips].
    destruct dead; cbn; destruct (we_active e), (n <=? we_consecutive_dead_deliveries e + 1); cbn; try done.
    all: by destruct (reaches _ _ _).
Qed.

(** Automatic disabling. For an active endpoint with no open streak, over any sequence of
    delivery outcomes: the stored streak is the number of dead deliveries since the last
    delivered one, the endpoint is disabled exactly if at some point [n] deliveries in a row were
    dead, and exactly one call (at most) reports having disabled it. *)
Lemma auto_disable_exact id n l s e :
  List.find (is_endpoint id) (endpoints s) = Some e -> we_active e = true -> we_consecutive_dead_deliveries e = 0 ->
  Z.of_nat (length l) <= i32_MAX ->
  exists e', List.find (is_endpoint id) (endpoints (snd (outcomes id (Some n) l s))) = Some e' /\
    we_consecutive_dead_deliveries e' = streak 0 (map snd l) /\ we_active e' = negb (reaches n 0 (map snd l)) /\
    count_where (fun b => b) (fst (outcomes id (Some n) l s)) = if reaches n 0 (map snd l) then 1 else 0.
Proof.
  intros Hf Ha H0 Hl. destruct (outcomes_spec id n l s e Hf ltac:(lia) ltac:(lia)) as (e' & H1 & H2 & H3 & H4).
  rewrite H0, Ha in *. by exists e'.
Qed.

Definition demo_endpoint : WebhookEndpoint := mkEndpoint 1 7 "https://a.b/c" "s" true 0 None 0 None.

(** ** Retention *)

(** The sweep keeps every delivery among the newest [keep] of its endpoint. *)
Lemma purge_keeps_newest older_than keep now s d :
  d ∈ deliveries s ->
  (d ∈ deliveries (snd (purge_old_webhook_deliveries_stmt older_than keep now s)) <->
   row_number d s <= keep \/ now - older_than <= wd_created_at d).
Proof.
  intros Hd. cbn. rewrite list_elem_of_In, filter_In, <- list_elem_of_In. unfold purgeable.
  rewrite negb_true_iff, andb_false_iff, Z.ltb_ge, Z.ltb_ge. tauto.
Qed.
End WebhookStore.
