(* ===== verification/Account.v ===== *)
(** * The account: one database, export and deletion

    The tables that belong to a user's account, put together: users and credentials
    ([Users]), one-time codes ([Otp]), the audit log ([AuditChain]), wallets with their
    addresses and payment links ([Store]), policies ([Sponsorship]) and webhooks
    ([WebhookStore]). [crates/store/src/account.rs] reads all of it for an export and retires
    all of it, in one transaction, when the account is deleted; the views of
    [crates/api/src/routes/account.rs] are what leaves the server. *)

From stdpp Require sorting.
From S2P Require Import Prelude Db Paging Store PaymentLinks Otp Sponsorship Idempotency AuditChain AuditLog AuditErase Users WebhookStore.

Module Account.
Import Db Paging.
Import Store (Uuid, update_where, count_where).
Local Open Scope db_scope.

Record Db := mkDb {
  d_users : Users.State;
  d_otp : Otp.State;
  d_audit : AuditChain.State;
  d_core : Store.State;
  d_policies : Sponsorship.State;
  d_hooks : WebhookStore.State;
  d_idem : Idempotency.State
}.

Definition set_users (d : Db) (v : Users.State) : Db := mkDb v (d_otp d) (d_audit d) (d_core d) (d_policies d) (d_hooks d) (d_idem d).
Definition set_otp (d : Db) (v : Otp.State) : Db := mkDb (d_users d) v (d_audit d) (d_core d) (d_policies d) (d_hooks d) (d_idem d).
Definition set_audit (d : Db) (v : AuditChain.State) : Db := mkDb (d_users d) (d_otp d) v (d_core d) (d_policies d) (d_hooks d) (d_idem d).
Definition set_core (d : Db) (v : Store.State) : Db := mkDb (d_users d) (d_otp d) (d_audit d) v (d_policies d) (d_hooks d) (d_idem d).
Definition set_policies (d : Db) (v : Sponsorship.State) : Db := mkDb (d_users d) (d_otp d) (d_audit d) (d_core d) v (d_hooks d) (d_idem d).
Definition set_hooks (d : Db) (v : WebhookStore.State) : Db := mkDb (d_users d) (d_otp d) (d_audit d) (d_core d) (d_policies d) v (d_idem d).
Definition set_idem (d : Db) (v : Idempotency.State) : Db := mkDb (d_users d) (d_otp d) (d_audit d) (d_core d) (d_policies d) (d_hooks d) v.

(** What each component sees of the tables it refers to. *)
Definition users_view (d : Db) : Users.State :=
  let s := d_users d in
  Users.mkState (Users.next_uuid s) (map Store.w_id (Store.wallets (d_core d))) (Users.users s) (Users.sessions s)
    (Users.token_denylist s) (Users.auth_lockouts s) (Users.api_keys s).

Definition otp_view (d : Db) : Otp.State :=
  Otp.mkState (Otp.next_uuid (d_otp d)) (map Users.u_id (Users.users (d_users d))) (Otp.otps (d_otp d)).

Definition audit_view (d : Db) : AuditChain.State :=
  AuditChain.mkState (AuditChain.next_uuid (d_audit d))
    (map (fun u => (Users.u_id u, bool_decide (is_Some (Users.u_deleted_at u)))) (Users.users (d_users d)))
    (AuditChain.audit_logs (d_audit d)) (AuditChain.heads (d_audit d)).

Definition wallet_ids (d : Db) : list Uuid := map Store.w_id (Store.wallets (d_core d)).

Definition policies_view (d : Db) : Sponsorship.State :=
  let s := d_policies d in
  Sponsorship.mkState (Sponsorship.next_uuid s) (wallet_ids d) (Sponsorship.sponsored s) (Sponsorship.configs s)
    (Sponsorship.allowlists s) (Sponsorship.whitelisted s).

Definition hooks_view (d : Db) : WebhookStore.State :=
  let s := d_hooks d in
  WebhookStore.mkState (WebhookStore.next_uuid s) (wallet_ids d) (WebhookStore.endpoints s) (WebhookStore.deliveries s).

Definition idem_view (d : Db) : Idempotency.State := Idempotency.mkState (wallet_ids d) (Idempotency.rows (d_idem d)).

#[export] Instance core_part : Part Store.State Db := {| part := d_core; with_part := fun v d => set_core d v |}.
#[export] Instance policies_part : Part Sponsorship.State Db := {| part := policies_view; with_part := fun v d => set_policies d v |}.
#[export] Instance hooks_part : Part WebhookStore.State Db := {| part := hooks_view; with_part := fun v d => set_hooks d v |}.
#[export] Instance idem_part : Part Idempotency.State Db := {| part := idem_view; with_part := fun v d => set_idem d v |}.

(** A statement of a component, on the whole database. *)
Definition on_users {A} (stmt : Z -> Users.State -> result A sqlx_error * Users.State) (now : Z) (d : Db) :
    result A sqlx_error * Db :=
  let '(r, s) := stmt now (users_view d) in (r, set_users d s).

Definition on_otp {A} (stmt : Z -> Otp.State -> result A sqlx_error * Otp.State) (now : Z) (d : Db) :
    result A sqlx_error * Db :=
  let '(r, s) := stmt now (otp_view d) in (r, set_otp d s).

Definition on_audit {A} (stmt : Z -> AuditChain.State -> result A sqlx_error * AuditChain.State) (now : Z) (d : Db) :
    result A sqlx_error * Db :=
  let '(r, s) := stmt now (audit_view d) in (r, set_audit d s).

(** [DELETE FROM users]: codes and audit rows of the user go too, wallets lose their owner. *)
Definition disown (w : Store.Wallet) : Store.Wallet :=
  Store.mkWallet (Store.w_id w) (Store.w_network w) (Store.w_stellar_account_g w) (Store.w_sealed_ciphertext w)
    (Store.w_sealed_nonce w) (Store.w_sealed_salt w) (Store.w_sealed_scheme w) (Store.w_next_muxed_id w) (Store.w_label w)
    None (Store.w_description w) (Store.w_custody w) (Store.w_encrypted_backup w) (Store.w_gas_tank_account_g w)
    (Store.w_created_at w) (Store.w_updated_at w) (Store.w_archived_at w) (Store.w_ingest_streaming w)
    (Store.w_ingest_paused w) (Store.w_ingest_paused_at w).

Definition owned_by (user_id : Uuid) (w : Store.Wallet) : bool := bool_decide (Store.w_user_id w = Some user_id).

Definition delete_unverified_user_stmt (user_id : Uuid) (now : Z) (d : Db) : result unit sqlx_error * Db :=
  let '(r, s) := Users.delete_unverified_user_stmt user_id now (users_view d) in
  if existsb (Users.is_user user_id) (Users.users s) then (r, set_users d s) else
  (r, mkDb s
        (Otp.set_otps (d_otp d) (List.filter (fun o => negb (bool_decide (Otp.o_user_id o = user_id))) (Otp.otps (d_otp d))))
        (AuditChain.mkState (AuditChain.next_uuid (d_audit d)) (AuditChain.users (d_audit d))
           (List.filter (fun a => negb (AuditChain.of_user user_id a)) (AuditChain.audit_logs (d_audit d)))
           (List.filter (fun h => negb (bool_decide (AuditChain.h_user_id h = user_id))) (AuditChain.heads (d_audit d))))
        (Store.set_wallets (d_core d) (update_where (owned_by user_id) disown (Store.wallets (d_core d))))
        (d_policies d) (d_hooks d) (d_idem d)).

(** ** Deletion *)

Record AccountDeletion := mkAccountDeletion { wallets_archived : Z; audit_rows_anonymised : Z }.

Definition wallet_ids_of (user_id : Uuid) (d : Db) : list Uuid :=
  map Store.w_id (List.filter (owned_by user_id) (Store.wallets (d_core d))).

(** [wallet_id IN (SELECT id FROM wallets WHERE user_id)] *)
Definition in_wallets (ids : list Uuid) (wallet_id : Uuid) : bool := bool_decide (wallet_id ∈ ids).

Definition retire_wallet (now : Z) (w : Store.Wallet) : Store.Wallet :=
  Store.mkWallet (Store.w_id w) (Store.w_network w) (Store.w_stellar_account_g w) (Store.w_sealed_ciphertext w)
    (Store.w_sealed_nonce w) (Store.w_sealed_salt w) (Store.w_sealed_scheme w) (Store.w_next_muxed_id w) None
    (Store.w_user_id w) None (Store.w_custody w) None (Store.w_gas_tank_account_g w)
    (Store.w_created_at w) now (Some (default now (Store.w_archived_at w))) (Store.w_ingest_streaming w)
    (Store.w_ingest_paused w) (Store.w_ingest_paused_at w).

Definition scrub_address (a : Store.Address) : Store.Address :=
  Store.mkAddress (Store.a_id a) (Store.a_wallet_id a) (Store.a_muxed_id a) (Store.a_muxed_address a) None (JObj [])
    (Store.a_created_at a).

(** The statements on wallets and what hangs on them. *)
Definition retire_core (user_id : Uuid) (ids : list Uuid) (now : Z) (s : Store.State) : Store.State :=
  let retired := PaymentLinks.retire_links ids now s in
  Store.mkState (Store.next_uuid s)
    (update_where (owned_by user_id) (retire_wallet now) (Store.wallets s))
    (update_where (fun a => in_wallets ids (Store.a_wallet_id a)) scrub_address (Store.addresses s))
    (Store.transactions s) (Store.ingest_cursor s)
    (Store.payment_links retired) (Store.payment_link_payments retired)
    (Store.withdrawals s).

Definition retire_policies (ids : list Uuid) (s : Sponsorship.State) : Sponsorship.State :=
  Sponsorship.mkState (Sponsorship.next_uuid s) (Sponsorship.wallet_ids s) (Sponsorship.sponsored s)
    (Sponsorship.configs s) (Sponsorship.allowlists s)
    (List.filter (fun a => negb (in_wallets ids (Sponsorship.wl_wallet_id a))) (Sponsorship.whitelisted s)).

Definition retire_endpoint (now : Z) (e : WebhookStore.WebhookEndpoint) : WebhookStore.WebhookEndpoint :=
  WebhookStore.set_active false (Some (default now (WebhookStore.we_deleted_at e))) e.

Definition retire_hooks (ids : list Uuid) (now : Z) (s : WebhookStore.State) : WebhookStore.State :=
  WebhookStore.set_endpoints s
    (update_where (fun e => in_wallets ids (WebhookStore.we_wallet_id e)) (retire_endpoint now) (WebhookStore.endpoints s)).

Definition retire_keys (ids : list Uuid) (s : Users.State) : Users.State :=
  Users.set_api_keys s (List.filter (fun k => negb (in_wallets ids (Users.k_wallet_id k))) (Users.api_keys s)).

Section Delete.
Context `{AuditChain.Hmac} `{Users.SqlLower} `{Users.UuidText}.
Variable key : AuditChain.bytes.

(** The transaction; [fuel] bounds the batches of the anonymisation and [None] is out of fuel;
    [created_at] is the process's clock for the last audit entry. *)
Definition delete_account (fuel : nat) (user_id : Uuid) (checked_wallets : list Uuid) (created_at now : Z) (d : Db) :
    option (result (AccountDeletion * Db) StoreError) :=
  match Users.live_user user_id (users_view d) with
  | None => Some (Err NotFound)
  | Some _ =>
      let ids := wallet_ids_of user_id d in
      if negb (bool_decide (sort_by Z.leb ids = sort_by Z.leb checked_wallets)) then Some (Err Conflict) else
      match Users.delete_user user_id now (users_view d) with
      | Err e => Some (Err e)
      | Ok us =>
          let otp := Otp.set_otps (d_otp d)
                       (List.filter (fun o => negb (bool_decide (Otp.o_user_id o = user_id))) (Otp.otps (d_otp d))) in
          let d1 := mkDb (retire_keys ids us) otp (d_audit d) (retire_core user_id ids now (d_core d))
                      (retire_policies ids (d_policies d)) (retire_hooks ids now (d_hooks d)) (d_idem d) in
          match AuditChain.anonymise_chain key fuel user_id (audit_view d1) with
          | None => None
          | Some (Err e) => Some (Err e)
          | Some (Ok (n, a)) =>
              Some (let? a' := AuditChain.append_link key user_id "deleted their account" "authentication" None None
                                 created_at a in
                    Ok (mkAccountDeletion (count_where (owned_by user_id) (Store.wallets (d_core d))) n, set_audit d1 a'))
          end
      end
  end.

(** The transaction as one statement. *)
Definition delete_account_tx (fuel : nat) (user_id : Uuid) (checked_wallets : list Uuid) (created_at now : Z) (d : Db) :
    result (option (result AccountDeletion StoreError)) sqlx_error * Db :=
  match delete_account fuel user_id checked_wallets created_at now d with
  | None => (Ok None, d)
  | Some (Err e) => (Ok (Some (Err e)), d)
  | Some (Ok (r, d')) => (Ok (Some (Ok r)), d')
  end.
End Delete.

(** ** What deletion leaves *)

(** The address that takes the place of a deleted user's. *)
Definition deleted_email `{Users.UuidText} (u : Uuid) : string := "deleted+" +:+ Users.uuid_text u +:+ "@users.invalid".

(** No credential of the user is left; the email is the one of a deleted account, and the user name, the
    labels, descriptions and backups of the wallets, the customers' references and metadata and the
    payers' names and emails are cleared. *)
Record erased `{Users.UuidText} (u : Uuid) (ids : list Uuid) (d : Db) : Prop := mkErased {
  er_user : forall x, x ∈ Users.users (d_users d) -> Users.u_id x = u ->
    is_Some (Users.u_deleted_at x) /\ Users.u_email x = deleted_email u /\ Users.u_username x = None /\ Users.u_password_hash x = "!deleted";
  er_sessions : forall x, x ∈ Users.sessions (d_users d) -> Users.se_user_id x = u -> is_Some (Users.se_revoked_at x);
  er_otps : forall o, o ∈ Otp.otps (d_otp d) -> Otp.o_user_id o <> u;
  er_keys : forall k, k ∈ Users.api_keys (d_users d) -> Users.k_wallet_id k ∉ ids;
  er_wallets : forall w, w ∈ Store.wallets (d_core d) -> Store.w_user_id w = Some u ->
    Store.is_archived w = true /\ Store.w_label w = None /\ Store.w_description w = None /\ Store.w_encrypted_backup w = None;
  er_hooks : forall e, e ∈ WebhookStore.endpoints (d_hooks d) -> WebhookStore.we_wallet_id e ∈ ids ->
    WebhookStore.is_live e = false;
  er_allowlist : forall a, a ∈ Sponsorship.whitelisted (d_policies d) -> Sponsorship.wl_wallet_id a ∉ ids;
  er_addresses : forall a, a ∈ Store.addresses (d_core d) -> Store.a_wallet_id a ∈ ids ->
    Store.a_customer_ref a = None /\ Store.a_metadata a = JObj [];
  er_links : forall l, l ∈ Store.payment_links (d_core d) -> Store.pl_wallet_id l ∈ ids -> Store.pl_active l = false;
  er_payers : forall l p, l ∈ Store.payment_links (d_core d) -> Store.pl_wallet_id l ∈ ids ->
    p ∈ Store.payment_link_payments (d_core d) -> Store.p_payment_link_id p = Store.pl_id l ->
    Store.p_payer_name p = None /\ Store.p_payer_email p = None
}.

(** Rows after an update that keeps what its condition reads. *)
Lemma updated {A} (p : A -> bool) (f : A -> A) (l : list A) y :
  (forall x, p (f x) = p x) -> y ∈ update_where p f l -> p y = true -> exists x, y = f x.
Proof.
  intros Hf. unfold update_where. intros (x & -> & _)%list_elem_of_fmap. destruct (p x) eqn:E; [by exists x|congruence].
Qed.

Lemma filtered {A} (p : A -> bool) (l : list A) y : y ∈ List.filter (fun x => negb (p x)) l -> p y = false.
Proof. rewrite list_elem_of_In, filter_In. intros [_ H]. by apply negb_true_iff. Qed.

Lemma retire_core_links u ids now s :
  map Store.pl_id (List.filter (fun l => in_wallets ids (Store.pl_wallet_id l)) (Store.payment_links (retire_core u ids now s))) =
  map Store.pl_id (List.filter (fun l => in_wallets ids (Store.pl_wallet_id l)) (Store.payment_links s)).
Proof.
  cbn. unfold update_where. induction (Store.payment_links s) as [|l ls IH]; cbn; [done|].
  unfold in_wallets in *. destruct (bool_decide (Store.pl_wallet_id l ∈ ids)) eqn:E; cbn; rewrite E; cbn; by rewrite IH.
Qed.

Section Erased.
Context `{hm : AuditChain.Hmac} `{laws : !AuditChain.HmacLaws} `{lower : Users.SqlLower} `{text : Users.UuidText}.
Variable key : AuditChain.bytes.

Lemma delete_user_spec u now s us :
  Users.delete_user u now s = Ok us ->
  (forall x, x ∈ Users.users us -> Users.u_id x = u -> exists y, x = Users.tombstone now y) /\
  (forall x, x ∈ Users.sessions us -> Users.se_user_id x = u -> is_Some (Users.se_revoked_at x)) /\
  Users.api_keys us = Users.api_keys s /\ Users.next_uuid us = Users.next_uuid s /\
  (Users.live_user u s <> None -> exists x, x ∈ Users.users us /\ Users.u_id x = u) /\
  (forall v l, Users.live_user u s = Some v -> l ∈ Users.auth_lockouts us -> Users.lo_email l <> Users.sql_lower (Users.u_email v)).
Proof.
  unfold Users.delete_user. destruct (Users.live_user u s) as [v|] eqn:El; [|done]. do 2 (case_match; [done|]).
  intros [= <-]. cbn. split_and!; [| |done|done| |].
  - intros x Hx Eu. eapply (updated (Users.is_user u)); [|exact Hx|by apply bool_decide_true]. done.
  - intros x Hx Eu. unfold update_where in Hx. apply list_elem_of_fmap in Hx as (y & -> & Hy).
    unfold Users.revocable in *. destruct (bool_decide (Users.se_user_id y = u) && _ && true) eqn:E; [by eexists|].
    rewrite andb_true_r, (bool_decide_true (Users.se_user_id y = u)) in E by done. cbn in E.
    apply bool_decide_eq_false in E. destruct (Users.se_revoked_at y); [by eexists|done].
  - intros _. apply Store.find_elem in El as [Hin [Hu _]%andb_true_iff]. exists (Users.tombstone now v).
    split; [|by apply bool_decide_eq_true in Hu]. unfold update_where. apply list_elem_of_fmap. exists v. by rewrite Hu.
  - intros v' l [= <-] Hl. apply filtered in Hl. by apply bool_decide_eq_false in Hl.
Qed.

Lemma delete_account_erases fuel u checked created_at now d r d' :
  delete_account key fuel u checked created_at now d = Some (Ok (r, d')) ->
  erased u (wallet_ids_of u d) d' /\
  Store.transactions (d_core d') = Store.transactions (d_core d) /\ Store.withdrawals (d_core d') = Store.withdrawals (d_core d).
Proof.
  unfold delete_account. destruct (Users.live_user u (users_view d)) as [v|]; [|done]. case_match; [done|].
  destruct (Users.delete_user u now (users_view d)) as [us|] eqn:Eu; [|done].
  apply delete_user_spec in Eu as (Hu & Hs & Hk & _).
  destruct (AuditChain.anonymise_chain _ _ _ _) as [[[n a]|]|]; [|done..].
  destruct (AuditChain.append_link _ _ _ _ _ _ _ _) as [a'|]; [|done]. cbn [result_bind]. intros [= <- <-].
  set (ids := wallet_ids_of u d). split; [|done]. constructor; cbn.
  - intros x Hx Eu. destruct (Hu x Hx Eu) as [y ->]. cbn in Eu. subst u. by split; [eexists|].
  - exact Hs.
  - intros o Ho. apply filtered in Ho. by apply bool_decide_eq_false in Ho.
  - intros k Hk'. rewrite Hk in Hk'. apply filtered in Hk'. by apply bool_decide_eq_false in Hk'.
  - intros w Hw Eu. eapply (updated (owned_by u)) in Hw as [x ->]; [|done|by apply bool_decide_true].
    split_and!; [|done..]. unfold Store.is_archived. apply bool_decide_true. cbn. by eexists.
  - intros e He Ei. eapply updated in He as [x ->]; [|done|by apply bool_decide_true]. done.
  - intros x Hx. apply filtered in Hx. by apply bool_decide_eq_false in Hx.
  - intros x Hx Ei. eapply updated in Hx as [y ->]; [|done|by apply bool_decide_true]. done.
  - intros l Hl Ei. eapply updated in Hl as [y ->]; [|done|by apply bool_decide_true]. done.
  - intros l p Hl Ei Hp Ep. eapply updated in Hp as [y ->]; [done|done|].
    apply bool_decide_true. pose proof (retire_core_links u ids now (d_core d)) as Elinks. unfold in_wallets in Elinks.
    rewrite Ep, <- Elinks. apply list_elem_of_fmap_2.
    rewrite list_elem_of_In, filter_In, <- list_elem_of_In. split; [exact Hl|by apply bool_decide_true].
Qed.

Lemma represents_view logs d d1 :
  d_audit d1 = d_audit d -> AuditLog.represents key logs (audit_view d) -> AuditLog.represents key logs (audit_view d1).
Proof.
  intros E [[H1 H2 H3] H]. unfold audit_view in *. rewrite E. split; [by constructor|exact H].
Qed.

Lemma audit_users_deleted u d :
  (forall x, x ∈ Users.users (d_users d) -> Users.u_id x = u -> is_Some (Users.u_deleted_at x)) ->
  (exists x, x ∈ Users.users (d_users d) /\ Users.u_id x = u) -> AuditChain.user_deleted u (audit_view d) = true.
Proof.
  intros Hd (x & Hx & Eu). unfold AuditChain.user_deleted. apply existsb_exists.
  exists (Users.u_id x, bool_decide (is_Some (Users.u_deleted_at x))). split.
  - unfold audit_view. cbn. apply in_map_iff. exists x. split; [reflexivity|by apply list_elem_of_In].
  - rewrite !bool_decide_true; [done|by apply Hd|done].
Qed.

Lemma sort_Z_perm (l1 l2 : list Z) : sort_by Z.leb l1 = sort_by Z.leb l2 <-> Permutation l1 l2.
Proof.
  split; [intros E; by rewrite <- (sort_by_perm Z.leb l1), E, sort_by_perm|]. intros P.
  assert (AntiSymm (=) (fun x y => Z.leb x y = true)) by (intros x y; lia).
  apply (sorting.StronglySorted_unique (fun x y => Z.leb x y = true)).
  - apply sort_by_sorted; intros; lia.
  - apply sort_by_sorted; intros; lia.
  - by rewrite !sort_by_perm.
Qed.

Lemma erased_rejected u ids d t now : erased u ids d -> Users.t_user t = u -> Users.accepted t now (d_users d) = false.
Proof.
  intros He Et. apply not_true_iff_false. unfold Users.accepted, Users.session_valid. rewrite !andb_true_iff.
  intros [[(x & Hx%list_elem_of_In & Hp)%existsb_exists _] _]. rewrite !andb_true_iff in Hp. destruct Hp as [[E1 _] E2].
  apply bool_decide_eq_true in E1, E2. destruct (er_user _ _ _ He x Hx) as ([z Hz] & _); congruence.
Qed.

(** The log of a deleted account. *)
Definition log_delete (u : Uuid) (e : AuditLog.Entry) (logs : Uuid -> list AuditLog.Entry) : Uuid -> list AuditLog.Entry :=
  fun v => if bool_decide (v = u) then map AuditLog.scrub (logs u) ++ [e] else logs v.

Lemma anonymise_append logs fuel u created_at a :
  AuditLog.represents key logs a -> AuditChain.user_deleted u a = true -> (length (logs u) < fuel)%nat ->
  exists a1 a2 e, AuditChain.anonymise_chain key fuel u a = Some (Ok (Z.of_nat (length (logs u)), a1)) /\
    AuditChain.append_link key u "deleted their account" "authentication" None None created_at a1 = Ok a2 /\
    AuditLog.represents key (log_delete u e logs) a2 /\ AuditLog.e_action e = "deleted their account" /\
    AuditChain.users a2 = AuditChain.users a.
Proof using laws.
  intros Hr Hd Hf. destruct (AuditErase.anonymise_spec key logs fuel u a Hr Hd Hf) as (a1 & E1 & [Hi1 Hl1] & _ & _ & Hu1).
  assert (He1 : AuditChain.user_exists u a1 = true).
  { apply AuditErase.deleted_exists. unfold AuditChain.user_deleted in *. by rewrite Hu1. }
  destruct (AuditLog.append_link_spec key u _ "deleted their account" "authentication" None None created_at a1 Hi1 (Hl1 u) He1)
    as (a2 & E2 & Hi2 & Hu2 & Hc2 & Hv2).
  exists a1, a2, (AuditLog.mkEntry (AuditChain.next_uuid a1) "deleted their account" "authentication" None None created_at).
  split_and!; [exact E1|exact E2| |reflexivity|by rewrite Hu2, Hu1].
  split; [done|]. intros v. unfold log_delete. destruct (decide (v = u)) as [->|Ev].
  - rewrite bool_decide_true in Hc2 |- * by done. by left.
  - rewrite bool_decide_false by done. eapply AuditLog.holds_same; [by apply Hv2|]. specialize (Hl1 v).
    by rewrite bool_decide_false in Hl1 by done.
Qed.

End Erased.

(** ** A concrete account *)

#[local] Existing Instances AuditLog.checksum AuditLog.checksum_laws Users.ascii_lower Users.dec_uuid.

Definition demo_wallet : Store.Wallet :=
  Store.mkWallet 7 "testnet" "GA" None None None None 1 (Some "shop") (Some 2) None "client" (Some "blob") None 0 0 None
    false false None.

Definition demo_account : Db :=
  mkDb
    (Users.mkState 20 [] [Users.mkUser 2 "ada@octo.dev" (Some "ada") "phc" (Some 0) 0 0 0 None]
       [Users.mkSession 5 2 None 0 0 (7 * Users.day) None] [] []
       [Users.mkApiKey 6 7 "octo_sk_test_ab12" "h" 0 ["read"] None None])
    (Otp.mkState 20 [] [Otp.mkRow 8 2 "account_delete" "c" None 0 None Users.day 0])
    AuditLog.demo0
    (Store.mkState 20 [demo_wallet] [] [] [] [] [] [])
    (Sponsorship.mkState 20 [] [] [] [] [Sponsorship.mkWhitelistedAddress 9 7 "GB" None 0])
    (WebhookStore.mkState 20 [] [WebhookStore.mkEndpoint 11 7 "https://a.b" "s" true 0 None 0 None] [])
    (Idempotency.mkState [] []).

Lemma demo_account_represents : AuditLog.represents AuditLog.demo_key AuditLog.demo_logs (audit_view demo_account).
Proof. destruct AuditLog.demo0_represents as [[H1 H2 H3] H]. split; [by constructor|exact H]. Qed.

End Account.
