(* ===== verification/Exporting.v ===== *)
(** * Exporting an account

    [export_account] of [crates/store/src/account.rs] and the views of
    [crates/api/src/routes/account.rs] that the data is turned into before it leaves the
    server. *)

From Stdlib Require Import Sorted.
From S2P Require Import Prelude Db Paging Store Otp Sponsorship AuditChain Users WebhookStore Account.

Module Exporting.
Import Db Runs Paging Account.
Import Store (Uuid).
Local Open Scope db_scope.

Definition EXPORT_SECTION_LIMIT : Z := 10000.

Record AuditLog := mkAuditLog {
  al_id : Uuid;
  al_user_id : Uuid;
  al_action : string;
  al_category : string;
  al_target : option string;
  al_ip_address : option string;
  al_created_at : Z
}.

Definition audit_log_of (r : AuditChain.AuditRow) : AuditLog :=
  mkAuditLog (AuditChain.a_id r) (AuditChain.a_user_id r) (AuditChain.a_action r) (AuditChain.a_category r)
    (AuditChain.a_target r) (AuditChain.a_ip_address r) (AuditChain.a_created_at r).

Record AccountData := mkAccountData {
  ad_user : Users.User;
  ad_wallets : list Store.Wallet;
  ad_addresses : list Store.Address;
  ad_transactions : list Store.Transaction;
  ad_withdrawals : list Store.Withdrawal;
  ad_sponsored_transactions : list Sponsorship.SponsoredTransaction;
  ad_api_keys : list Users.ApiKey;
  ad_webhook_endpoints : list WebhookStore.WebhookEndpoint;
  ad_whitelisted_addresses : list Sponsorship.WhitelistedAddress;
  ad_payment_links : list Store.PaymentLink;
  ad_payment_link_payments : list Store.PaymentLinkPayment;
  ad_sessions : list Users.Session;
  ad_audit_logs : list AuditLog;
  ad_truncated : list string
}.

(** ** The queries *)

(** [ORDER BY created_at, id] *)
Definition oldest_first {A} (created_at id : A -> Z) (l : list A) : list A :=
  sort_by (fun a b => (created_at a <? created_at b) || ((created_at a =? created_at b) && (id a <=? id b))) l.

Section Queries.
Variable user_id : Uuid.

Definition of_owner (d : Db) (wallet_id : Uuid) : bool := in_wallets (wallet_ids_of user_id d) wallet_id.

Definition WALLETS_SQL (d : Db) : list Store.Wallet :=
  oldest_first Store.w_created_at Store.w_id (List.filter (owned_by user_id) (Store.wallets (d_core d))).
Definition ADDRESSES_SQL (d : Db) : list Store.Address :=
  oldest_first Store.a_created_at Store.a_id
    (List.filter (fun a => of_owner d (Store.a_wallet_id a)) (Store.addresses (d_core d))).
Definition TRANSACTIONS_SQL (d : Db) : list Store.Transaction :=
  oldest_first Store.tx_created_at Store.tx_id
    (List.filter (fun t => of_owner d (Store.tx_wallet_id t)) (Store.transactions (d_core d))).
Definition WITHDRAWALS_SQL (d : Db) : list Store.Withdrawal :=
  oldest_first Store.wd_created_at Store.wd_id
    (List.filter (fun x => of_owner d (Store.wd_wallet_id x)) (Store.withdrawals (d_core d))).
Definition SPONSORED_SQL (d : Db) : list Sponsorship.SponsoredTransaction :=
  oldest_first Sponsorship.s_created_at Sponsorship.s_id
    (List.filter (fun x => of_owner d (Sponsorship.s_wallet_id x)) (Sponsorship.sponsored (d_policies d))).
Definition API_KEYS_SQL (d : Db) : list Users.ApiKey :=
  oldest_first Users.k_created_at Users.k_id
    (List.filter (fun k => of_owner d (Users.k_wallet_id k)) (Users.api_keys (d_users d))).
Definition WEBHOOKS_SQL (d : Db) : list WebhookStore.WebhookEndpoint :=
  oldest_first WebhookStore.we_created_at WebhookStore.we_id
    (List.filter (fun e => of_owner d (WebhookStore.we_wallet_id e)) (WebhookStore.endpoints (d_hooks d))).
Definition WHITELIST_SQL (d : Db) : list Sponsorship.WhitelistedAddress :=
  oldest_first Sponsorship.wl_created_at Sponsorship.wl_id
    (List.filter (fun a => of_owner d (Sponsorship.wl_wallet_id a)) (Sponsorship.whitelisted (d_policies d))).
Definition PAYMENT_LINKS_SQL (d : Db) : list Store.PaymentLink :=
  oldest_first Store.pl_created_at Store.pl_id
    (List.filter (fun l => of_owner d (Store.pl_wallet_id l)) (Store.payment_links (d_core d))).
Definition PAYMENTS_SQL (d : Db) : list Store.PaymentLinkPayment :=
  oldest_first Store.p_created_at Store.p_id
    (List.filter (fun p => existsb (fun l => bool_decide (Store.pl_id l = Store.p_payment_link_id p)
                                             && of_owner d (Store.pl_wallet_id l)) (Store.payment_links (d_core d)))
       (Store.payment_link_payments (d_core d))).
Definition SESSIONS_SQL (d : Db) : list Users.Session :=
  oldest_first Users.se_created_at Users.se_id
    (List.filter (fun x => bool_decide (Users.se_user_id x = user_id)) (Users.sessions (d_users d))).
Definition AUDIT_SQL (d : Db) : list AuditLog :=
  oldest_first al_created_at al_id
    (map audit_log_of (List.filter (AuditChain.of_user user_id) (AuditChain.audit_logs (d_audit d)))).

Section Run.
Context {X : Type}.
Notation M := (M Db X).

(** One query: at most the limit's rows, and the names of the sections cut off. *)
Definition section {A} (truncated : list string) (name : string) (sql : Db -> list A) :
    M (result (list A * list string) StoreError) :=
  try rows <- query (fun _ d => sql_limit (EXPORT_SECTION_LIMIT + 1) (sql d)) | from_sqlx;
  if EXPORT_SECTION_LIMIT <? Z.of_nat (length rows)
  then ret (Ok (take (Z.to_nat EXPORT_SECTION_LIMIT) rows, truncated ++ [name]))
  else ret (Ok (rows, truncated)).

Definition export_account : M (result AccountData StoreError) :=
  try user <- query (fun _ d => Users.live_user user_id (d_users d)) | from_sqlx;
  match user with
  | None => ret (Err NotFound)
  | Some user =>
      try r1 <- section [] "wallets" WALLETS_SQL | (fun e => e);
      try r2 <- section (snd r1) "addresses" ADDRESSES_SQL | (fun e => e);
      try r3 <- section (snd r2) "transactions" TRANSACTIONS_SQL | (fun e => e);
      try r4 <- section (snd r3) "withdrawals" WITHDRAWALS_SQL | (fun e => e);
      try r5 <- section (snd r4) "sponsored_transactions" SPONSORED_SQL | (fun e => e);
      try r6 <- section (snd r5) "api_keys" API_KEYS_SQL | (fun e => e);
      try r7 <- section (snd r6) "webhook_endpoints" WEBHOOKS_SQL | (fun e => e);
      try r8 <- section (snd r7) "whitelisted_addresses" WHITELIST_SQL | (fun e => e);
      try r9 <- section (snd r8) "payment_links" PAYMENT_LINKS_SQL | (fun e => e);
      try r10 <- section (snd r9) "payment_link_payments" PAYMENTS_SQL | (fun e => e);
      try r11 <- section (snd r10) "sessions" SESSIONS_SQL | (fun e => e);
      try r12 <- section (snd r11) "audit_logs" AUDIT_SQL | (fun e => e);
      ret (Ok (mkAccountData user (fst r1) (fst r2) (fst r3) (fst r4) (fst r5) (fst r6) (fst r7) (fst r8) (fst r9)
                 (fst r10) (fst r11) (fst r12) (snd r12)))
  end.
End Run.
End Queries.

(** ** The views *)

Record UserExport := mkUserExport {
  ux_id : Uuid; ux_email : string; ux_username : option string; ux_email_verified_at : option Z;
  ux_created_at : Z; ux_updated_at : Z
}.

Record WalletExport := mkWalletExport {
  wx_id : Uuid; wx_network : string; wx_address : string; wx_custody : string; wx_label : option string;
  wx_description : option string; wx_gas_tank_address : option string; wx_has_encrypted_backup : bool;
  wx_created_at : Z; wx_updated_at : Z; wx_archived_at : option Z
}.

Record WithdrawalExport := mkWithdrawalExport {
  dx_id : Uuid; dx_wallet_id : Uuid; dx_destination_account : string; dx_asset_code : string;
  dx_asset_issuer : option string; dx_amount_stroops : Z; dx_memo_id : option Z; dx_status : string;
  dx_stellar_tx_hash : option string; dx_created_at : Z; dx_updated_at : Z
}.

Record SponsoredTransactionExport := mkSponsoredExport {
  sx_id : Uuid; sx_wallet_id : Uuid; sx_inner_tx_hash : string; sx_fee_bump_tx_hash : option string;
  sx_fee_stroops : Z; sx_status : string; sx_created_at : Z
}.

Record ApiKeyExport := mkApiKeyExport {
  kx_id : Uuid; kx_wallet_id : Uuid; kx_prefix : string; kx_scopes : list string; kx_created_at : Z;
  kx_last_used_at : option Z; kx_expires_at : option Z
}.

Record WebhookEndpointExport := mkWebhookExport {
  hx_id : Uuid; hx_wallet_id : Uuid; hx_url : string; hx_active : bool; hx_created_at : Z;
  hx_deleted_at : option Z; hx_auto_disabled_at : option Z
}.

Record SessionExport := mkSessionExport {
  nx_id : Uuid; nx_created_at : Z; nx_last_seen_at : Z; nx_expires_at : Z; nx_revoked_at : option Z
}.

Record AccountExport := mkAccountExport {
  x_exported_at : Z;
  x_user : UserExport;
  x_wallets : list WalletExport;
  x_addresses : list Store.Address;
  x_transactions : list Store.Transaction;
  x_withdrawals : list WithdrawalExport;
  x_sponsored_transactions : list SponsoredTransactionExport;
  x_api_keys : list ApiKeyExport;
  x_webhook_endpoints : list WebhookEndpointExport;
  x_whitelisted_addresses : list Sponsorship.WhitelistedAddress;
  x_payment_links : list Store.PaymentLink;
  x_payment_link_payments : list Store.PaymentLinkPayment;
  x_sessions : list SessionExport;
  x_audit_logs : list AuditLog;
  x_truncated : list string;
  x_section_limit : Z
}.

Definition user_export (u : Users.User) : UserExport :=
  mkUserExport (Users.u_id u) (Users.u_email u) (Users.u_username u) (Users.u_email_verified_at u) (Users.u_created_at u)
    (Users.u_updated_at u).

Definition wallet_export (w : Store.Wallet) : WalletExport :=
  mkWalletExport (Store.w_id w) (Store.w_network w) (Store.w_stellar_account_g w) (Store.w_custody w) (Store.w_label w)
    (Store.w_description w) (Store.w_gas_tank_account_g w) (bool_decide (is_Some (Store.w_encrypted_backup w)))
    (Store.w_created_at w) (Store.w_updated_at w) (Store.w_archived_at w).

Definition withdrawal_export (w : Store.Withdrawal) : WithdrawalExport :=
  mkWithdrawalExport (Store.wd_id w) (Store.wd_wallet_id w) (Store.wd_destination_account w) (Store.wd_asset_code w)
    (Store.wd_asset_issuer w) (Store.wd_amount_stroops w) (Store.wd_memo_id w) (Store.wd_status w)
    (Store.wd_stellar_tx_hash w) (Store.wd_created_at w) (Store.wd_updated_at w).

Definition sponsored_export (s : Sponsorship.SponsoredTransaction) : SponsoredTransactionExport :=
  mkSponsoredExport (Sponsorship.s_id s) (Sponsorship.s_wallet_id s) (Sponsorship.s_inner_tx_hash s)
    (Sponsorship.s_fee_bump_tx_hash s) (Sponsorship.s_fee_stroops s) (Sponsorship.s_status s) (Sponsorship.s_created_at s).

Definition api_key_export (k : Users.ApiKey) : ApiKeyExport :=
  mkApiKeyExport (Users.k_id k) (Users.k_wallet_id k) (Users.k_prefix k) (Users.k_scopes k) (Users.k_created_at k)
    (Users.k_last_used_at k) (Users.k_expires_at k).

Definition webhook_export (e : WebhookStore.WebhookEndpoint) : WebhookEndpointExport :=
  mkWebhookExport (WebhookStore.we_id e) (WebhookStore.we_wallet_id e) (WebhookStore.we_url e) (WebhookStore.we_active e)
    (WebhookStore.we_created_at e) (WebhookStore.we_deleted_at e) (WebhookStore.we_auto_disabled_at e).

Definition session_export (s : Users.Session) : SessionExport :=
  mkSessionExport (Users.se_id s) (Users.se_created_at s) (Users.se_last_seen_at s) (Users.se_expires_at s)
    (Users.se_revoked_at s).

(** [From<AccountData> for AccountExport] *)
Definition account_export (exported_at : Z) (d : AccountData) : AccountExport :=
  mkAccountExport exported_at (user_export (ad_user d)) (map wallet_export (ad_wallets d)) (ad_addresses d)
    (ad_transactions d) (map withdrawal_export (ad_withdrawals d)) (map sponsored_export (ad_sponsored_transactions d))
    (map api_key_export (ad_api_keys d)) (map webhook_export (ad_webhook_endpoints d)) (ad_whitelisted_addresses d)
    (ad_payment_links d) (ad_payment_link_payments d) (map session_export (ad_sessions d)) (ad_audit_logs d)
    (ad_truncated d) EXPORT_SECTION_LIMIT.

(** ** No secret leaves *)

(** Replace the secrets: the password hash, the sealed seeds, the contents of the backup, the
    webhook secrets and the key hashes. *)
Definition redact_user (x : string) (u : Users.User) : Users.User := Users.rehash x u.

Definition redact_wallet (seed : option (list Z)) (backup : string) (w : Store.Wallet) : Store.Wallet :=
  Store.mkWallet (Store.w_id w) (Store.w_network w) (Store.w_stellar_account_g w) seed seed seed (Store.w_sealed_scheme w)
    (Store.w_next_muxed_id w) (Store.w_label w) (Store.w_user_id w) (Store.w_description w) (Store.w_custody w)
    (option_map (fun _ => backup) (Store.w_encrypted_backup w)) (Store.w_gas_tank_account_g w) (Store.w_created_at w)
    (Store.w_updated_at w) (Store.w_archived_at w) (Store.w_ingest_streaming w) (Store.w_ingest_paused w)
    (Store.w_ingest_paused_at w).

Definition redact_key (x : string) (k : Users.ApiKey) : Users.ApiKey :=
  Users.mkApiKey (Users.k_id k) (Users.k_wallet_id k) (Users.k_prefix k) x (Users.k_created_at k) (Users.k_scopes k)
    (Users.k_last_used_at k) (Users.k_expires_at k).

Definition redact_endpoint (x : string) (e : WebhookStore.WebhookEndpoint) : WebhookStore.WebhookEndpoint :=
  WebhookStore.mkEndpoint (WebhookStore.we_id e) (WebhookStore.we_wallet_id e) (WebhookStore.we_url e) x
    (WebhookStore.we_active e) (WebhookStore.we_created_at e) (WebhookStore.we_deleted_at e)
    (WebhookStore.we_consecutive_dead_deliveries e) (WebhookStore.we_auto_disabled_at e).

Definition redact (pw : string) (seed : option (list Z)) (backup khash secret : string) (d : AccountData) : AccountData :=
  mkAccountData (redact_user pw (ad_user d)) (map (redact_wallet seed backup) (ad_wallets d)) (ad_addresses d)
    (ad_transactions d) (ad_withdrawals d) (ad_sponsored_transactions d) (map (redact_key khash) (ad_api_keys d))
    (map (redact_endpoint secret) (ad_webhook_endpoints d)) (ad_whitelisted_addresses d) (ad_payment_links d)
    (ad_payment_link_payments d) (ad_sessions d) (ad_audit_logs d) (ad_truncated d).

(** An export carries no secret: whatever the password hash, the sealed seeds, the contents
    of the encrypted backups, the webhook secrets and the API key hashes are, the exported
    document is the same. *)
Lemma export_hides_secrets at_ pw seed backup khash secret d :
  account_export at_ (redact pw seed backup khash secret d) = account_export at_ d.
Proof.
  unfold account_export, redact. cbn. rewrite !map_map. f_equal.
  apply map_ext. intros w. unfold wallet_export, redact_wallet. cbn. by destruct (Store.w_encrypted_backup w).
Qed.

(** ** An export is complete *)

Definition cut {A} (name : string) (rows : list A) : list string :=
  if EXPORT_SECTION_LIMIT <? Z.of_nat (length rows) then [name] else [].

Definition kept {A} (rows : list A) : list A := take (Z.to_nat EXPORT_SECTION_LIMIT) rows.

(** What the sections hold, read at once. *)
Definition export_ref (u : Uuid) (user : Users.User) (d : Db) : AccountData :=
  mkAccountData user (kept (WALLETS_SQL u d)) (kept (ADDRESSES_SQL u d)) (kept (TRANSACTIONS_SQL u d))
    (kept (WITHDRAWALS_SQL u d)) (kept (SPONSORED_SQL u d)) (kept (API_KEYS_SQL u d)) (kept (WEBHOOKS_SQL u d))
    (kept (WHITELIST_SQL u d)) (kept (PAYMENT_LINKS_SQL u d)) (kept (PAYMENTS_SQL u d)) (kept (SESSIONS_SQL u d))
    (kept (AUDIT_SQL u d))
    (cut "wallets" (WALLETS_SQL u d) ++ cut "addresses" (ADDRESSES_SQL u d) ++ cut "transactions" (TRANSACTIONS_SQL u d)
     ++ cut "withdrawals" (WITHDRAWALS_SQL u d) ++ cut "sponsored_transactions" (SPONSORED_SQL u d)
     ++ cut "api_keys" (API_KEYS_SQL u d) ++ cut "webhook_endpoints" (WEBHOOKS_SQL u d)
     ++ cut "whitelisted_addresses" (WHITELIST_SQL u d) ++ cut "payment_links" (PAYMENT_LINKS_SQL u d)
     ++ cut "payment_link_payments" (PAYMENTS_SQL u d) ++ cut "sessions" (SESSIONS_SQL u d)
     ++ cut "audit_logs" (AUDIT_SQL u d)).

Lemma calm_query {A X} (q : Db -> A) (w : World Db X) :
  calm w -> exists w', query (fun _ d => q d) w = (Ret (Ok (q (db w))), w') /\ calm w' /\ db w' = db w.
Proof.
  intros Hc. destruct (exec_query (fun _ d => q d) (fun r w' => r = Ok (q (db w)) /\ calm w' /\ db w' = db w) w Hc) as (r & w' & E & -> & Hc' & Ed); [done|].
  by exists w'.
Qed.

Lemma section_calm {A X} acc name (sql : Db -> list A) (w : World Db X) :
  calm w -> exists w', section acc name sql w = (Ret (Ok (kept (sql (db w)), acc ++ cut name (sql (db w)))), w') /\
    calm w' /\ db w' = db w.
Proof.
  intros Hc. unfold section, try_bind, bind.
  destruct (calm_query (fun d => sql_limit (EXPORT_SECTION_LIMIT + 1) (sql d)) w Hc) as (w' & E & Hc' & Ed).
  rewrite E. exists w'. split; [|done]. unfold sql_limit, kept, cut. rewrite length_take.
  set (rows := sql (db w)). clearbody rows. assert (HL : 0 < EXPORT_SECTION_LIMIT) by done.
  destruct (Z.ltb_spec EXPORT_SECTION_LIMIT (Z.of_nat (Nat.min (Z.to_nat (EXPORT_SECTION_LIMIT + 1)) (length rows)))),
    (Z.ltb_spec EXPORT_SECTION_LIMIT (Z.of_nat (length rows))); try lia.
  - unfold ret. by rewrite take_take, Nat.min_l by lia.
  - unfold ret. rewrite !take_ge, app_nil_r by lia. done.
Qed.

(** An export is complete. In a database that nobody writes meanwhile, the export of a live
    user returns in every section all rows of the user and of the user's wallets, oldest first,
    up to the limit, and names exactly the sections that it cut. *)
Lemma account_export_complete {X} u user (w : World Db X) :
  calm w -> Users.live_user u (d_users (db w)) = Some user ->
  exists w', export_account u w = (Ret (Ok (export_ref u user (db w))), w').
Proof.
  intros Hc Hu. unfold export_account, try_bind at 1, bind at 1.
  destruct (calm_query (fun d => Users.live_user u (d_users d)) w Hc) as (w0 & E0 & Hc0 & Ed0). rewrite E0, Hu.
  do 12 (match goal with
         | Hc : calm ?w, Ed : db ?w = _ |- context [try_bind (section ?acc ?n ?q) _ _ ?w] =>
             let w' := fresh "w" in let E := fresh "E" in let Hc' := fresh "Hc" in let Ed' := fresh "Ed" in
             destruct (section_calm acc n q w Hc) as (w' & E & Hc' & Ed'); rewrite Ed in E;
             unfold try_bind at 1, bind at 1; rewrite E; clear E; rewrite Ed in Ed'; clear Hc Ed; cbn [fst snd]
         end).
  eexists. unfold ret, export_ref. rewrite <- !app_assoc. reflexivity.
Qed.

End Exporting.
