(* ===== verification/Net.v ===== *)
(** * Internet addresses

    What the program uses of [std::net]: the text form of addresses and their classes; and its
    own checks on them: the client's address behind proxies
    ([crates/api/src/rate_limit.rs], [crates/api/src/audit.rs]) and the targets a webhook may
    reach ([crates/webhooks/src/lib.rs]). *)

From S2P Require Import Prelude.

Module Net.

(** ** [std::net] *)

(** An IPv4 address as its 32-bit number, an IPv6 address as its eight 16-bit segments. *)
Inductive IpAddr := V4 (a : Z) | V6 (segments : list Z).

#[export] Instance IpAddr_eq_dec : EqDecision IpAddr.
Proof. solve_decision. Defined.

Definition v4 (a b c d : Z) : Z := Z.shiftl a 24 + Z.shiftl b 16 + Z.shiftl c 8 + d.
Definition octet (i : Z) (a : Z) : Z := Z.land (Z.shiftr a (8 * (3 - i))) 255.
Definition segments_u128 (l : list Z) : Z := fold_left (fun acc s => acc * 65536 + s) l 0.

(** *** The parser *)

Definition to_digit (radix : Z) (c : ascii) : option Z :=
  let b := byte_val c in
  let d := if in_range 48 57 b then b - 48 else if in_range 97 102 b then b - 87 else if in_range 65 70 b then b - 55 else 99 in
  if d <? radix then Some d else None.

Definition read_char (c : ascii) (s : string) : option string :=
  match s with String c' r => if ascii_dec c' c then Some r else None | EmptyString => None end.

(** The digits at the front: their number, their value, the rest. *)
Fixpoint read_digits (radix acc count : Z) (s : string) : Z * Z * string :=
  match s with
  | EmptyString => (count, acc, s)
  | String c r => match to_digit radix c with
                  | Some d => read_digits radix (acc * radix + d) (count + 1) r
                  | None => (count, acc, s)
                  end
  end.

Definition read_number (radix max_digits max : Z) (allow_zero_prefix : bool) (s : string) : option (Z * string) :=
  let '(count, v, r) := read_digits radix 0 0 s in
  if (count =? 0) || (max_digits <? count) || (max <? v)
     || (negb allow_zero_prefix && starts_with "0" s && (1 <? count))
  then None else Some (v, r).

Definition read_sep (sep : ascii) (i : nat) (s : string) : option string :=
  match i with O => Some s | _ => read_char sep s end.

Definition read_ipv4 (s : string) : option (Z * string) :=
  let octet i s := let* s := read_sep "." i s in read_number 10 3 255 false s in
  let* p := octet 0%nat s in let '(a, s) := p in
  let* p := octet 1%nat s in let '(b, s) := p in
  let* p := octet 2%nat s in let '(c, s) := p in
  let* p := octet 3%nat s in let '(d, s) := p in
  Some (v4 a b c d, s).

(** At most [limit] groups from the [i]-th on: the groups, whether an IPv4 address ended them. *)
Fixpoint read_groups (limit : nat) (i : nat) (s : string) : list Z * bool * string :=
  match limit with
  | O => ([], false, s)
  | S l =>
      let v4_here := if (1 <=? l)%nat then let* s := read_sep ":" i s in read_ipv4 s else None in
      match v4_here with
      | Some (a, r) => ([Z.shiftr a 16; Z.land a 65535], true, r)
      | None =>
          match (let* s := read_sep ":" i s in read_number 16 4 65535 true s) with
          | None => ([], false, s)
          | Some (g, r) => let '(gs, b, r) := read_groups l (S i) r in (g :: gs, b, r)
          end
      end
  end.

Definition read_ipv6 (s : string) : option (list Z * string) :=
  let '(head, head_ipv4, r) := read_groups 8 0 s in
  if (length head =? 8)%nat then Some (head, r) else
  if head_ipv4 then None else
  let* r := read_char ":" r in
  let* r := read_char ":" r in
  let '(tail, _, r) := read_groups (8 - (length head + 1)) 0 r in
  Some (head ++ repeat 0 (8 - length head - length tail) ++ tail, r).

Definition parse_ip (s : string) : option IpAddr :=
  match read_ipv4 s with
  | Some (a, r) => if is_empty r then Some (V4 a) else None
  | None => let* p := read_ipv6 s in if is_empty (snd p) then Some (V6 (fst p)) else None
  end.

(** *** The printer *)

Definition ipv4_string (a : Z) : string :=
  print_dec (octet 0 a) +:+ "." +:+ print_dec (octet 1 a) +:+ "." +:+ print_dec (octet 2 a) +:+ "." +:+ print_dec (octet 3 a).

Definition hex_char (d : Z) : ascii := ascii_of_N (Z.to_N (if d <? 10 then 48 + d else 87 + d)).

(** [{:x}] of a 16-bit number *)
Definition hex_u16 (n : Z) : string :=
  let ds := [Z.shiftr n 12; Z.land (Z.shiftr n 8) 15; Z.land (Z.shiftr n 4) 15; Z.land n 15] in
  let fix strip (l : list Z) := match l with [d] => [d] | 0 :: r => strip r | l => l end in
  string_of_list_ascii (map hex_char (strip ds)).

Definition segment (i : nat) (l : list Z) : Z := nth i l 0.
Definition zeroes (n : nat) (l : list Z) : bool := forallb (fun s => s =? 0) (take n l).
Definition low_32 (l : list Z) : Z := segment 6 l * 65536 + segment 7 l.

(** [::ffff:a.b.c.d] *)
Definition to_ipv4_mapped (l : list Z) : option Z :=
  if zeroes 5 l && (segment 5 l =? 65535) then Some (low_32 l) else None.

Definition join_hex (l : list Z) : string :=
  match l with [] => "" | x :: r => fold_left (fun acc s => acc +:+ ":" +:+ hex_u16 s) r (hex_u16 x) end.

(** The first longest run of zero segments: where it starts and its length. *)
Fixpoint zero_run (i : nat) (l : list Z) (longest current : nat * nat) : nat * nat :=
  match l with
  | [] => longest
  | s :: r =>
      if s =? 0 then
        let start := if (snd current =? 0)%nat then i else fst current in
        let current := (start, S (snd current)) in
        zero_run (S i) r (if (snd longest <? snd current)%nat then current else longest) current
      else zero_run (S i) r longest (O, O)
  end.

Definition ipv6_string (l : list Z) : string :=
  match to_ipv4_mapped l with
  | Some a => "::ffff:" +:+ ipv4_string a
  | None =>
      let '(start, len) := zero_run 0 l (O, O) (O, O) in
      if (1 <? len)%nat then join_hex (take start l) +:+ "::" +:+ join_hex (drop (start + len) l) else join_hex l
  end.

Definition ip_string (ip : IpAddr) : string := match ip with V4 a => ipv4_string a | V6 l => ipv6_string l end.

Definition valid_v4 (a : Z) : bool := in_range 0 u32_MAX a.
Definition valid_ip (ip : IpAddr) : bool :=
  match ip with V4 a => valid_v4 a | V6 l => (length l =? 8)%nat && forallb (in_range 0 65535) l end.

(** *** Classes *)

Definition is_loopback_v4 (a : Z) : bool := octet 0 a =? 127.
Definition is_private_v4 (a : Z) : bool :=
  (octet 0 a =? 10) || ((octet 0 a =? 172) && in_range 16 31 (octet 1 a)) || ((octet 0 a =? 192) && (octet 1 a =? 168)).
Definition is_link_local_v4 (a : Z) : bool := (octet 0 a =? 169) && (octet 1 a =? 254).
Definition is_broadcast_v4 (a : Z) : bool := a =? u32_MAX.
Definition is_multicast_v4 (a : Z) : bool := in_range 224 239 (octet 0 a).

Definition is_unspecified_v6 (l : list Z) : bool := segments_u128 l =? 0.
Definition is_loopback_v6 (l : list Z) : bool := segments_u128 l =? 1.
Definition is_multicast_v6 (l : list Z) : bool := Z.land (segment 0 l) 65280 =? 65280.

(** The embedded address of [::a.b.c.d] and [::ffff:a.b.c.d]. *)
Definition to_ipv4 (l : list Z) : option Z :=
  if zeroes 5 l && ((segment 5 l =? 0) || (segment 5 l =? 65535)) then Some (low_32 l) else None.

(** ** The client's address *)

Fixpoint split_all (c : ascii) (fuel : nat) (s : string) : list string :=
  match fuel with
  | O => [s]
  | S f => match split_once c s with Some (a, b) => a :: split_all c f b | None => [s] end
  end.

(** [str::split] with a character: as many parts as separators and one. *)
Definition split (c : ascii) (s : string) : list string := split_all c (String.length s) s.

Definition mask (width prefix : Z) : Z := if prefix =? 0 then 0 else Z.land (Z.shiftl (2 ^ width - 1) (width - prefix)) (2 ^ width - 1).

Definition ip_in_cidr (ip : IpAddr) (cidr : string) : bool :=
  match split_once "/" (trim cidr) with
  | None => bool_decide (parse_ip (trim cidr) = Some ip)
  | Some (network, prefix) =>
      match parse_u32 prefix with
      | None => false
      | Some prefix =>
          match ip, parse_ip network with
          | V4 ip, Some (V4 network) =>
              (prefix <=? 32) && (Z.land ip (mask 32 prefix) =? Z.land network (mask 32 prefix))
          | V6 ip, Some (V6 network) =>
              (prefix <=? 128)
              && (Z.land (segments_u128 ip) (mask 128 prefix) =? Z.land (segments_u128 network) (mask 128 prefix))
          | _, _ => false
          end
      end
  end.

Section Client.
(** [TRUSTED_PROXY_CIDRS] *)
Variable trusted_proxy_cidrs : option string.

Definition is_trusted_proxy (ip : IpAddr) : bool :=
  match trusted_proxy_cidrs with Some value => existsb (ip_in_cidr ip) (split "," value) | None => false end.

Fixpoint parse_all (l : list string) : option (list IpAddr) :=
  match l with
  | [] => Some []
  | s :: r => let* ip := parse_ip (trim s) in let* ips := parse_all r in Some (ip :: ips)
  end.

(** [xff] is the header [X-Forwarded-For] when it is readable text. *)
Definition client_ip (xff : option string) (peer : option IpAddr) : string :=
  match peer with
  | None => "unknown"
  | Some peer_ip =>
      if negb (is_trusted_proxy peer_ip) then ip_string peer_ip else
      match xff with
      | None => ip_string peer_ip
      | Some xff =>
          match parse_all (split "," xff) with
          | None => ip_string peer_ip
          | Some forwarded => ip_string (default peer_ip (List.find (fun ip => negb (is_trusted_proxy ip)) (rev forwarded)))
          end
      end
  end.
End Client.

(** The audit log's, best effort, address. *)
Definition audit_client_ip (xff real_ip : option string) : option string :=
  match xff with
  | Some s => option_map trim (head (split "," s))
  | None => option_map trim real_ip
  end.

(** ** Webhook targets *)

Definition is_public_ipv4 (a : Z) : bool :=
  negb ((octet 0 a =? 0) || is_loopback_v4 a || is_private_v4 a || is_link_local_v4 a
        || ((octet 0 a =? 100) && in_range 64 127 (octet 1 a)) || is_broadcast_v4 a || is_multicast_v4 a).

Definition is_public_ipv6 (l : list Z) : bool :=
  match to_ipv4_mapped l with
  | Some a => is_public_ipv4 a
  | None =>
      if zeroes 6 l then match to_ipv4 l with Some a => is_public_ipv4 a | None => false end
      else negb (is_unspecified_v6 l || is_loopback_v6 l || (Z.land (segment 0 l) 65472 =? 65152)
                 || (Z.land (segment 0 l) 65024 =? 64512) || is_multicast_v6 l)
  end.

Fixpoint trim_end_dots (l : list ascii) : list ascii :=
  match l with [] => [] | c :: r => if ascii_dec c "." then trim_end_dots r else l end.

(** [host.trim_end_matches('.')] *)
Definition trim_dots (s : string) : string := string_of_list_ascii (rev (trim_end_dots (rev (list_ascii_of_string s)))).

Definition ends_with (suffix s : string) : bool :=
  starts_with (string_of_list_ascii (rev (list_ascii_of_string suffix))) (string_of_list_ascii (rev (list_ascii_of_string s))).

Definition is_public_hostname (host : string) : bool :=
  let host := trim_dots host in
  negb (is_empty host || bool_decide (host = "localhost") || ends_with ".localhost" host || ends_with ".local" host).

(** [reqwest::Url]: the host of an absolute URL in its normal form, and its port. *)
Class UrlParser := { url_host : string -> option (option string); url_port : string -> option Z }.

Fixpoint drop_prefix_chars (c : ascii) (l : list ascii) : list ascii :=
  match l with [] => [] | c' :: r => if ascii_dec c' c then drop_prefix_chars c r else l end.

(** [host.trim_start_matches('\[').trim_end_matches('\]')] *)
Definition strip_brackets (s : string) : string :=
  let l := drop_prefix_chars "[" (list_ascii_of_string s) in
  string_of_list_ascii (rev (drop_prefix_chars "]" (rev l))).

Definition is_public_ip (ip : IpAddr) : bool := match ip with V4 a => is_public_ipv4 a | V6 l => is_public_ipv6 l end.

(** [allow_local] is [OCTO_ALLOW_LOCAL_WEBHOOKS = 1]. *)
Definition is_safe_url `{UrlParser} (allow_local : bool) (url : string) : bool :=
  let lower := to_ascii_lowercase url in
  if negb (starts_with "http://" lower || starts_with "https://" lower) then false else
  if allow_local then true else
  match url_host url with
  | Some (Some host) =>
      match parse_ip (strip_brackets host) with
      | Some ip => is_public_ip ip
      | None => is_public_hostname host
      end
  | _ => false
  end.

(** [host.trim_matches(\['\[', '\]'\])] *)
Fixpoint drop_brackets (l : list ascii) : list ascii :=
  match l with [] => [] | c :: r => if ascii_dec c "[" then drop_brackets r else if ascii_dec c "]" then drop_brackets r else l end.

Definition trim_brackets (s : string) : string :=
  string_of_list_ascii (rev (drop_brackets (rev (drop_brackets (list_ascii_of_string s))))).

(** [lookup] is the resolver's answer for the host and port; [None] an error. *)
Definition is_safe_delivery_url `{UrlParser} (allow_local : bool) (lookup : string -> Z -> option (list IpAddr)) (url : string) :
    bool :=
  if negb (is_safe_url allow_local url) then false else
  if allow_local then true else
  match url_host url with
  | Some (Some host) =>
      match parse_ip (trim_brackets host) with
      | Some _ => true
      | None =>
          match lookup host (default 443 (url_port url)) with
          | Some addresses => negb (bool_decide (addresses = [])) && forallb is_public_ip addresses
          | None => false
          end
      end
  | _ => false
  end.

(** ** Examples *)

Example parse_ips :
  map parse_ip ["127.0.0.1"; "10.0.0.256"; "01.2.3.4"; "1.2.3"; "::1"; "::ffff:7f00:1"; "2001:db8::cafe"; "::ffff:8.8.8.8";
                "1:2:3:4:5:6:7"; "fe80::1%eth0"; "::"] =
  [Some (V4 (v4 127 0 0 1)); None; None; None; Some (V6 [0; 0; 0; 0; 0; 0; 0; 1]); Some (V6 [0; 0; 0; 0; 0; 65535; 32512; 1]);
   Some (V6 [8193; 3512; 0; 0; 0; 0; 0; 51966]); Some (V6 [0; 0; 0; 0; 0; 65535; 2056; 2056]); None; None;
   Some (V6 [0; 0; 0; 0; 0; 0; 0; 0])].
Proof. vm_compute. reflexivity. Qed.

Example print_ips :
  map ip_string [V4 (v4 203 0 113 5); V6 [0; 0; 0; 0; 0; 0; 0; 1]; V6 [8193; 3512; 0; 0; 0; 0; 0; 51966]; V6 [1; 2; 3; 4; 5; 6; 7; 8];
                 V6 [0; 0; 0; 0; 0; 65535; 2056; 2056]] =
  ["203.0.113.5"; "::1"; "2001:db8::cafe"; "1:2:3:4:5:6:7:8"; "::ffff:8.8.8.8"].
Proof. vm_compute. reflexivity. Qed.

(** ** Octets *)

Lemma shiftr_div a n : 0 <= n -> Z.shiftr a n = a / 2 ^ n.
Proof. apply Z.shiftr_div_pow2. Qed.

Lemma octet_div i a : 0 <= i <= 3 -> octet i a = (a / 2 ^ (8 * (3 - i))) mod 256.
Proof. intros H. unfold octet. rewrite shiftr_div by lia. exact (Z.land_ones _ 8 ltac:(lia)). Qed.

Lemma octets_spec a :
  0 <= a <= u32_MAX ->
  exists w x y z, a = w * 2 ^ 24 + x * 2 ^ 16 + y * 2 ^ 8 + z /\ 0 <= w < 256 /\ 0 <= x < 256 /\ 0 <= y < 256 /\ 0 <= z < 256 /\
    octet 0 a = w /\ octet 1 a = x /\ octet 2 a = y /\ octet 3 a = z.
Proof.
  intros Ha. unfold u32_MAX in Ha. exists (octet 0 a), (octet 1 a), (octet 2 a), (octet 3 a).
  rewrite !octet_div by lia.
  change (2 ^ (8 * (3 - 0))) with 16777216. change (2 ^ (8 * (3 - 1))) with 65536. change (2 ^ (8 * (3 - 2))) with 256.
  change (2 ^ (8 * (3 - 3))) with 1. change (2 ^ 24) with 16777216. change (2 ^ 16) with 65536. change (2 ^ 8) with 256.
  change (2 ^ 32 - 1) with 4294967295 in Ha. rewrite Z.div_1_r.
  pose proof (Z.div_mod a 256 ltac:(lia)). pose proof (Z.div_mod (a / 256) 256 ltac:(lia)).
  pose proof (Z.div_mod (a / 65536) 256 ltac:(lia)).
  assert (E1 : a / 65536 = a / 256 / 256) by (rewrite Z.div_div by lia; reflexivity).
  assert (E2 : a / 16777216 = a / 65536 / 256) by (rewrite Z.div_div by lia; reflexivity).
  assert (0 <= a / 16777216 < 256) by (split; [apply Z.div_pos; lia|apply Z.div_lt_upper_bound; lia]).
  rewrite (Z.mod_small (a / 16777216)) by done.
  split_and!; try (apply Z.mod_pos_bound; lia); try done; lia.
Qed.

(** ** What counts as internal *)

(** Blocks, by network and length of the prefix. *)
Definition internal_blocks : list (Z * Z) :=
  [(v4 0 0 0 0, 8); (v4 10 0 0 0, 8); (v4 127 0 0 0, 8); (v4 169 254 0 0, 16); (v4 172 16 0 0, 12); (v4 192 168 0 0, 16);
   (v4 100 64 0 0, 10); (v4 224 0 0 0, 4); (v4 255 255 255 255, 32)].

Definition in_block (a : Z) (b : Z * Z) : bool := Z.shiftr a (32 - snd b) =? Z.shiftr (fst b) (32 - snd b).

Lemma is_public_ipv4_blocks a :
  0 <= a <= u32_MAX -> is_public_ipv4 a = negb (existsb (in_block a) internal_blocks).
Proof.
  intros Ha. destruct (octets_spec a Ha) as (w & x & y & z & Ea & Hw & Hx & Hy & Hz & O0 & O1 & O2 & O3).
  unfold is_public_ipv4, is_loopback_v4, is_private_v4, is_link_local_v4, is_broadcast_v4, is_multicast_v4.
  rewrite O0, O1. f_equal. apply eq_true_iff_eq. unfold internal_blocks, in_block. cbn [existsb fst snd].
  rewrite !shiftr_div by lia. unfold in_range.
  rewrite !orb_true_iff, !andb_true_iff, !Z.eqb_eq, !Z.leb_le. unfold u32_MAX.
  change (2 ^ 24) with 16777216 in Ea. change (2 ^ 16) with 65536 in Ea. change (2 ^ 8) with 256 in Ea.
  change (2 ^ (32 - 8)) with 16777216. change (2 ^ (32 - 16)) with 65536. change (2 ^ (32 - 12)) with 1048576.
  change (2 ^ (32 - 10)) with 4194304. change (2 ^ (32 - 4)) with 268435456. change (2 ^ (32 - 32)) with 1.
  assert (D24 : a / 16777216 = w) by (symmetry; apply (Z.div_unique a 16777216 w (x * 65536 + y * 256 + z)); lia).
  assert (D16 : a / 65536 = w * 256 + x) by (symmetry; apply (Z.div_unique a 65536 (w * 256 + x) (y * 256 + z)); lia).
  assert (D20 : a / 1048576 = (w * 256 + x) / 16) by (rewrite <- D16, Z.div_div by lia; done).
  assert (D22 : a / 4194304 = (w * 256 + x) / 64) by (rewrite <- D16, Z.div_div by lia; done).
  assert (D28 : a / 268435456 = w / 16) by (rewrite <- D24, Z.div_div by lia; done).
  rewrite D24, D16, D20, D22, D28, !Z.div_1_r.
  repeat match goal with |- context [v4 ?p ?q ?r ?t / ?n] => let e := eval vm_compute in (v4 p q r t / n) in
    change (v4 p q r t / n) with e end.
  change (v4 255 255 255 255) with 4294967295. change (2 ^ 32 - 1) with 4294967295.
  pose proof (Z.div_mod (w * 256 + x) 16 ltac:(lia)). pose proof (Z.mod_pos_bound (w * 256 + x) 16 ltac:(lia)).
  pose proof (Z.div_mod (w * 256 + x) 64 ltac:(lia)). pose proof (Z.mod_pos_bound (w * 256 + x) 64 ltac:(lia)).
  pose proof (Z.div_mod w 16 ltac:(lia)). pose proof (Z.mod_pos_bound w 16 ltac:(lia)).
  lia.
Qed.

(** *** IPv6 *)

(** [::/128], [::1/128], [fe80::/10], [fc00::/7], [ff00::/8] *)
Definition internal_blocks_v6 : list (Z * Z) :=
  [(0, 128); (1, 128); (Z.shiftl 65152 112, 10); (Z.shiftl 64512 112, 7); (Z.shiftl 65280 112, 8)].

Definition in_block_v6 (a : Z) (b : Z * Z) : bool := Z.shiftr a (128 - snd b) =? Z.shiftr (fst b) (128 - snd b).

(** The address a socket reaches is internal: an embedded IPv4 address stands for itself. *)
Definition internal (ip : IpAddr) : bool :=
  match ip with
  | V4 a => existsb (in_block a) internal_blocks
  | V6 l =>
      match to_ipv4 l with
      | Some a => existsb (in_block a) internal_blocks
      | None => existsb (in_block_v6 (segments_u128 l)) internal_blocks_v6
      end
  end.

Lemma land_prefix s k m :
  0 <= s < 65536 -> 0 <= k <= 16 -> (Z.land s (65536 - 2 ^ k) =? m * 2 ^ k) = (s / 2 ^ k =? m).
Proof.
  intros Hs Hk. assert (E : Z.land s (65536 - 2 ^ k) = s / 2 ^ k * 2 ^ k).
  { rewrite <- (Z.shiftr_div_pow2 s k), <- (Z.shiftl_mul_pow2 _ k) by lia. apply Z.bits_inj'. intros n Hn.
    rewrite Z.land_spec. replace (65536 - 2 ^ k) with (Z.shiftl (Z.ones (16 - k)) k).
    2:{ rewrite Z.shiftl_mul_pow2, Z.ones_equiv by lia. rewrite Z.mul_comm.
        assert (2 ^ k * 2 ^ (16 - k) = 65536) by (rewrite <- Z.pow_add_r by lia; by replace (k + (16 - k)) with 16 by lia). lia. }
    rewrite !Z.shiftl_spec by lia. destruct (Z.ltb_spec n k).
    - rewrite (Z.testbit_neg_r _ (n - k)), (Z.testbit_neg_r _ (n - k)) by lia. apply andb_false_r.
    - rewrite Z.shiftr_spec by lia. replace (n - k + k) with n by lia. destruct (Z.ltb_spec (n - k) (16 - k)).
      + rewrite Z.ones_spec_low by lia. apply andb_true_r.
      + rewrite Z.ones_spec_high by lia. rewrite andb_false_r. symmetry. destruct (Z.eq_dec s 0) as [->|]; [apply Z.bits_0|].
        apply Z.bits_above_log2; [lia|]. enough (Z.log2 s < 16) by lia. apply Z.log2_lt_pow2; lia. }
  rewrite E. assert (0 < 2 ^ k) by (apply Z.pow_pos_nonneg; lia).
  destruct (Z.eqb_spec (s / 2 ^ k) m) as [->|Hne]; [apply Z.eqb_refl|]. apply Z.eqb_neq. nia.
Qed.

Lemma segments_top s0 s1 s2 s3 s4 s5 s6 s7 :
  forallb (in_range 0 65535) [s0; s1; s2; s3; s4; s5; s6; s7] = true ->
  exists r, segments_u128 [s0; s1; s2; s3; s4; s5; s6; s7] = s0 * 2 ^ 112 + r /\ 0 <= r < 2 ^ 112.
Proof.
  cbn [forallb]. rewrite !andb_true_iff, !in_range_spec. intros H. destruct_and!.
  exists (segments_u128 [s1; s2; s3; s4; s5; s6; s7]). unfold segments_u128. cbn [fold_left].
  change (2 ^ 112) with 5192296858534827628530496329220096. split; lia.
Qed.

Lemma shiftr_top s r k :
  0 <= r < 2 ^ 112 -> 0 <= k <= 16 -> Z.shiftr (s * 2 ^ 112 + r) (112 + k) = s / 2 ^ k.
Proof.
  intros Hr Hk. rewrite shiftr_div, Z.pow_add_r, <- Z.div_div by lia.
  rewrite Z.div_add_l, (Z.div_small r) by lia. by rewrite Z.add_0_r.
Qed.

Lemma is_public_ipv6_blocks l :
  valid_ip (V6 l) = true -> is_public_ipv6 l = negb (internal (V6 l)).
Proof.
  cbn [valid_ip]. rewrite andb_true_iff, Nat.eqb_eq. intros [Hl Hr].
  do 8 (destruct l as [|? l]; [done|]). destruct l; [|done]. rename z into s0, z0 into s1, z1 into s2, z2 into s3, z3 into s4,
    z4 into s5, z5 into s6, z6 into s7. pose proof (segments_top s0 s1 s2 s3 s4 s5 s6 s7 Hr) as (r & Eu & Hrr).
  cbn [forallb] in Hr. rewrite !andb_true_iff, !in_range_spec in Hr. destruct_and!. set (l := [s0; s1; s2; s3; s4; s5; s6; s7]) in *.
  assert (Hpub : is_public_ipv4 (low_32 l) = negb (existsb (in_block (low_32 l)) internal_blocks)).
  { apply is_public_ipv4_blocks. unfold low_32, u32_MAX. cbn. lia. }
  unfold is_public_ipv6, internal, to_ipv4_mapped, to_ipv4. assert (E6 : zeroes 6 l = zeroes 5 l && (segment 5 l =? 0)).
  { unfold zeroes. cbn. by rewrite !andb_true_r, !andb_assoc. }
  rewrite E6. destruct (zeroes 5 l); cbn [andb]; [destruct (segment 5 l =? 65535), (segment 5 l =? 0); cbn [orb]; try exact Hpub|].
  all: f_equal; unfold is_unspecified_v6, is_loopback_v6, is_multicast_v6, internal_blocks_v6, in_block_v6; cbn [existsb fst snd];
    rewrite Eu; change (segment 0 l) with s0; change (128 - 128) with 0; change (128 - 10) with (112 + 6);
    change (128 - 7) with (112 + 9); change (128 - 8) with (112 + 8); rewrite !Z.shiftr_0_r, !shiftr_top by lia;
    change (Z.land s0 65472 =? 65152) with (Z.land s0 (65536 - 2 ^ 6) =? 1018 * 2 ^ 6);
    change (Z.land s0 65024 =? 64512) with (Z.land s0 (65536 - 2 ^ 9) =? 126 * 2 ^ 9);
    change (Z.land s0 65280 =? 65280) with (Z.land s0 (65536 - 2 ^ 8) =? 255 * 2 ^ 8);
    rewrite !land_prefix by lia;
    change (Z.shiftr (Z.shiftl 65152 112) (112 + 6)) with 1018; change (Z.shiftr (Z.shiftl 64512 112) (112 + 9)) with 126;
    change (Z.shiftr (Z.shiftl 65280 112) (112 + 8)) with 255; by rewrite orb_false_r, !orb_assoc.
Qed.

Lemma is_public_ip_exact ip : valid_ip ip = true -> is_public_ip ip = negb (internal ip).
Proof.
  destruct ip as [a|l]; [|apply is_public_ipv6_blocks]. cbn [valid_ip is_public_ip internal]. intros Ha%in_range_spec.
  by apply is_public_ipv4_blocks.
Qed.

(** *** Parsed addresses are in range *)

Lemma to_digit_bounds radix c d : to_digit radix c = Some d -> 0 <= d < radix.
Proof.
  unfold to_digit, in_range. destruct ((48 <=? byte_val c) && (byte_val c <=? 57)) eqn:E1;
    [|destruct ((97 <=? byte_val c) && (byte_val c <=? 102)) eqn:E2; [|destruct ((65 <=? byte_val c) && (byte_val c <=? 70)) eqn:E3]];
    cbn zeta; case_match; intros [= <-]; lia.
Qed.

Lemma read_digits_nonneg radix acc count s n v r :
  0 <= acc -> read_digits radix acc count s = (n, v, r) -> 0 <= v.
Proof.
  revert acc count. induction s as [|c s IH]; intros acc count Ha; cbn; [by intros [= <- <- <-]|].
  destruct (to_digit radix c) as [d|] eqn:E; [|by intros [= <- <- <-]]. apply to_digit_bounds in E. apply IH. nia.
Qed.

Lemma read_number_bounds radix md mx z s v r : read_number radix md mx z s = Some (v, r) -> 0 <= v <= mx.
Proof.
  unfold read_number. destruct (read_digits radix 0 0 s) as [[n v'] r'] eqn:E. case_match eqn:Eb; [done|]. intros [= <- <-].
  apply read_digits_nonneg in E; [|lia]. rewrite !orb_false_iff in Eb. destruct Eb as [[[_ _] Eb] _]. lia.
Qed.

Lemma v4_bounds a b c d :
  0 <= a <= 255 -> 0 <= b <= 255 -> 0 <= c <= 255 -> 0 <= d <= 255 -> 0 <= v4 a b c d <= u32_MAX.
Proof. intros. unfold v4, u32_MAX. rewrite !Z.shiftl_mul_pow2 by lia. lia. Qed.

Lemma read_ipv4_bounds s a r : read_ipv4 s = Some (a, r) -> 0 <= a <= u32_MAX.
Proof.
  unfold read_ipv4. cbn [read_sep option_bind].
  destruct (read_number 10 3 255 false s) as [[o0 s0]|] eqn:E0; [|done]. cbn [option_bind].
  destruct (read_char "." s0) as [s0'|]; [|done]. cbn [option_bind].
  destruct (read_number 10 3 255 false s0') as [[o1 s1]|] eqn:E1; [|done]. cbn [option_bind].
  destruct (read_char "." s1) as [s1'|]; [|done]. cbn [option_bind].
  destruct (read_number 10 3 255 false s1') as [[o2 s2]|] eqn:E2; [|done]. cbn [option_bind].
  destruct (read_char "." s2) as [s2'|]; [|done]. cbn [option_bind].
  destruct (read_number 10 3 255 false s2') as [[o3 s3]|] eqn:E3; [|done]. cbn [option_bind]. intros [= <- <-].
  apply v4_bounds; eapply read_number_bounds; eassumption.
Qed.

Lemma read_groups_bounds limit i s gs b r :
  read_groups limit i s = (gs, b, r) -> (length gs <= limit)%nat /\ Forall (fun g => 0 <= g <= 65535) gs.
Proof.
  revert i s gs b r. induction limit as [|l IH]; intros i s gs b r; cbn [read_groups]; [by intros [= <- <- <-]|].
  destruct (if (1 <=? l)%nat then _ else None) as [[a r']|] eqn:E4.
  - destruct (1 <=? l)%nat eqn:El; [|done]. apply Nat.leb_le in El. intros [= <- <- <-].
    destruct (read_sep ":" i s) as [s'|]; [|done]. cbn in E4. apply read_ipv4_bounds in E4. unfold u32_MAX in E4.
    split; [cbn; lia|]. constructor; [|constructor; [|done]].
    + rewrite shiftr_div by lia. split; [apply Z.div_pos; lia|]. enough (a / 2 ^ 16 < 65536) by lia.
      apply Z.div_lt_upper_bound; lia.
    + assert (E : Z.land a 65535 = a mod 2 ^ 16) by exact (Z.land_ones a 16 ltac:(lia)). rewrite E. pose proof (Z.mod_pos_bound a (2 ^ 16) ltac:(lia)). lia.
  - destruct (let* s0 := read_sep ":" i s in read_number 16 4 65535 true s0) as [[g r']|] eqn:Eg;
      [|intros [= <- <- <-]; split; [cbn; lia|done]].
    destruct (read_groups l (S i) r') as [[gs' b'] r''] eqn:Er. intros [= <- <- <-]. apply IH in Er as [Hl Hf].
    split; [cbn; lia|]. constructor; [|done]. destruct (read_sep ":" i s) as [s'|]; [|done]. cbn in Eg.
    by apply read_number_bounds in Eg.
Qed.

Lemma parse_ip_valid s ip : parse_ip s = Some ip -> valid_ip ip = true.
Proof.
  unfold parse_ip. destruct (read_ipv4 s) as [[a r]|] eqn:E4.
  - case_match; [|done]. intros [= <-]. apply read_ipv4_bounds in E4. by apply in_range_spec.
  - destruct (read_ipv6 s) as [[l r]|] eqn:E6; [|done]. cbn. case_match; [|done]. intros [= <-]. cbn [valid_ip].
    enough (length l = 8%nat /\ Forall (fun g => 0 <= g <= 65535) l) as [Hl Hf].
    { rewrite Hl. cbn [Nat.eqb andb]. apply forallb_forall. intros g Hg%list_elem_of_In. rewrite Forall_forall in Hf.
      apply in_range_spec, Hf, Hg. }
    unfold read_ipv6 in E6. destruct (read_groups 8 0 s) as [[hd b] r1] eqn:E1. apply read_groups_bounds in E1 as [Hl1 Hf1].
    destruct (Nat.eqb_spec (length hd) 8); [by injection E6 as <- <-|]. destruct b; [done|].
    destruct (read_char ":" r1) as [r2|]; [|done]. cbn in E6. destruct (read_char ":" r2) as [r3|]; [|done]. cbn [option_bind] in E6.
    destruct (read_groups (8 - (length hd + 1)) 0 r3) as [[tl b2] r4] eqn:E2. apply read_groups_bounds in E2 as [Hl2 Hf2].
    injection E6 as <- <-. split.
    + rewrite !length_app, repeat_length. lia.
    + apply Forall_app. split; [done|]. apply Forall_app. split; [|done]. apply Forall_forall. intros g Hg.
      apply list_elem_of_In, repeat_spec in Hg. lia.
Qed.

(** ** Webhook targets are public *)

(** A host in its normal form has brackets only around an IPv6 address. *)
Class UrlLaws `{UrlParser} := {
  host_brackets : forall url host, url_host url = Some (Some host) -> strip_brackets host = trim_brackets host
}.

(** The addresses that the check looks at: the literal one, or those that the name resolves to at that
    moment. *)
Definition targets `{UrlParser} (lookup : string -> Z -> option (list IpAddr)) (url host : string) : option (list IpAddr) :=
  match parse_ip (strip_brackets host) with
  | Some ip => Some [ip]
  | None => lookup host (default 443 (url_port url))
  end.

Definition http_scheme (url : string) : bool :=
  starts_with "http://" (to_ascii_lowercase url) || starts_with "https://" (to_ascii_lowercase url).

(** Without local webhooks. *)
Lemma checked_targets `{up : UrlParser} `{ul : !UrlLaws} lookup url :
  (forall h p l, lookup h p = Some l -> Forall (fun ip => valid_ip ip = true) l) ->
  is_safe_delivery_url false lookup url = true <->
  http_scheme url = true /\ exists host ips, url_host url = Some (Some host) /\ targets lookup url host = Some ips /\
    ips <> [] /\ Forall (fun ip => internal ip = false) ips /\
    (parse_ip (strip_brackets host) = None -> is_public_hostname host = true).
Proof.
  intros Hlook. unfold is_safe_delivery_url, is_safe_url, targets. fold (http_scheme url).
  destruct (http_scheme url); cbn [negb]; [|split; [done|by intros [? _]]].
  destruct (url_host url) as [[host|]|] eqn:Eh; cbn [negb]; [|split; [done|]; intros (_ & h & ips & ? & _); congruence..].
  rewrite <- (host_brackets url host Eh). destruct (parse_ip (strip_brackets host)) as [ip|] eqn:Ep.
  - rewrite (is_public_ip_exact ip) by (by eapply parse_ip_valid). split.
    + destruct (internal ip) eqn:Ei; cbn; [done|]. intros _. split; [done|]. exists host, [ip]. rewrite Ep.
      split_and!; [done|done|done|by constructor|done].
    + intros (_ & h & ips & E & Et & _ & Hf & _). injection E as <-. rewrite Ep in Et. injection Et as <-.
      apply Forall_cons in Hf as [-> _]. done.
  - destruct (is_public_hostname host) eqn:Eph; cbn [negb].
    + destruct (lookup host _) as [ips|] eqn:El.
      * assert (Efor : forallb is_public_ip ips = true <-> Forall (fun ip => internal ip = false) ips).
        { pose proof (Hlook _ _ _ El) as Hv. rewrite forallb_forall, Forall_forall. rewrite Forall_forall in Hv. split.
          - intros H ip Hip. specialize (H ip ltac:(by apply list_elem_of_In)). rewrite (is_public_ip_exact ip (Hv ip Hip)) in H.
            by apply negb_true_iff in H.
          - intros H ip Hip%list_elem_of_In. rewrite (is_public_ip_exact ip (Hv ip Hip)). by rewrite H. }
        rewrite andb_true_iff, negb_true_iff, bool_decide_eq_false, Efor. split.
        -- intros [Hne Hf]. split; [done|]. exists host, ips. rewrite Ep. by split_and!.
        -- intros (_ & h & ips' & E & Et & Hne & Hf & _). injection E as <-. rewrite Ep, El in Et. injection Et as <-. done.
      * split; [done|]. intros (_ & h & ips & E & Et & _). injection E as <-. rewrite Ep, El in Et. done.
    + split; [done|]. intros (_ & h & ips & E & _ & _ & _ & Hh). injection E as <-. by rewrite (Hh Ep) in Eph.
Qed.

(** C36: what a webhook delivery is checked for. The check before each delivery attempt accepts a URL
    exactly when its scheme is HTTP(S) and, unless local webhooks are allowed by the environment, its
    host is an address or a name that is not blocked as local, and every address that the check looks
    at (the literal one, or all that the resolver gives for it, at least one) lies outside the internal
    blocks: this-network, loopback, private, shared, link-local, multicast, broadcast, their IPv6
    counterparts, and IPv6 forms that embed one of the IPv4 blocks. The connection resolves the name
    once more: that it reaches one of the addresses checked is not part of the claim. *)
Theorem delivery_target_public `{up : UrlParser} `{ul : !UrlLaws} allow_local lookup url :
  (forall h p l, lookup h p = Some l -> Forall (fun ip => valid_ip ip = true) l) ->
  is_safe_delivery_url allow_local lookup url = true <->
  http_scheme url = true /\
  (allow_local = true \/
   exists host ips, url_host url = Some (Some host) /\ targets lookup url host = Some ips /\
     ips <> [] /\ Forall (fun ip => internal ip = false) ips /\
     (parse_ip (strip_brackets host) = None -> is_public_hostname host = true)).
Proof.
  intros Hlook. destruct allow_local; cycle 1.
  { rewrite (checked_targets lookup url Hlook). split; [intros [H1 H2]; auto|by intros [H1 [|H2]]]. }
  unfold is_safe_delivery_url, is_safe_url. fold (http_scheme url). destruct (http_scheme url); cbn [negb]; split; intuition discriminate.
Qed.

(** ** The client behind proxies *)

Lemma find_rev_app {A} (p : A -> bool) l1 x l2 :
  p x = true -> Forall (fun y => p y = false) l2 -> List.find p (rev (l1 ++ x :: l2)) = Some x.
Proof.
  intros Hx H2. rewrite rev_app_distr. cbn. rewrite <- app_assoc. cbn.
  assert (H2' : Forall (fun y => p y = false) (rev l2)) by (by rewrite <- Permutation_rev).
  induction (rev l2) as [|y l IH]; cbn; [by rewrite Hx|]. apply Forall_cons in H2' as [-> H2']. by apply IH.
Qed.

(** The client's address cannot be forged. Behind trusted proxies the result is the last
    forwarded address that is not itself a trusted proxy, whatever addresses the client put in
    front of it; a request from an untrusted peer is attributed to the peer, whatever its
    headers say. *)
Lemma client_ip_unspoofable cidrs xff peer forged client hops :
  (is_trusted_proxy cidrs peer = false -> client_ip cidrs xff (Some peer) = ip_string peer) /\
  (is_trusted_proxy cidrs peer = true -> is_trusted_proxy cidrs client = false ->
   Forall (fun ip => is_trusted_proxy cidrs ip = true) hops ->
   (exists s, xff = Some s /\ parse_all (split "," s) = Some (forged ++ client :: hops)) ->
   client_ip cidrs xff (Some peer) = ip_string client).
Proof.
  split.
  - intros Hp. unfold client_ip. by rewrite Hp.
  - intros Hp Hc Hh (s & -> & Es). unfold client_ip. rewrite Hp, Es. cbn [negb].
    rewrite (find_rev_app _ forged client hops); [done|by rewrite Hc|].
    eapply Forall_impl; [exact Hh|]. by intros ip ->.
Qed.

(** ** Networks *)

Lemma to_digit_dec c : is_ascii_digit c = true -> to_digit 10 c = Some (byte_val c - 48).
Proof. unfold is_ascii_digit, to_digit. intros H. rewrite H. apply in_range_spec in H. by rewrite (proj2 (Z.ltb_lt _ _)) by lia. Qed.

Lemma read_digits_app s rest acc count :
  all_digits s = true -> match rest with EmptyString => True | String c _ => to_digit 10 c = None end ->
  read_digits 10 acc count (s +:+ rest) = (count + slen s, dec_acc acc s, rest).
Proof.
  intros Hs Hr. revert acc count. induction s as [|c s IH]; intros acc count.
  - cbn. rewrite Z.add_0_r. destruct rest as [|c r]; cbn; [done|]. by rewrite Hr.
  - cbn in Hs. apply andb_true_iff in Hs as [Hc Hs]. cbn. rewrite (to_digit_dec c Hc), IH by done.
    rewrite slen_cons. f_equal. f_equal. lia.
Qed.

Lemma octet_text n : 0 <= n <= 255 ->
  slen (print_dec n) <= 3 /\ (starts_with "0" (print_dec n) && (1 <? slen (print_dec n))) = false.
Proof.
  intros Hn. assert (H : forallb (fun n => (slen (print_dec n) <=? 3) && negb (starts_with "0" (print_dec n) && (1 <? slen (print_dec n))))
    (map Z.of_nat (seq 0 256)) = true) by (vm_compute; reflexivity).
  rewrite forallb_forall in H. specialize (H n). rewrite andb_true_iff, negb_true_iff, Z.leb_le in H. apply H.
  apply in_map_iff. exists (Z.to_nat n). split; [lia|]. apply in_seq. lia.
Qed.

Lemma starts_with_app c s t : s <> "" -> starts_with (String c "") (s +:+ t) = starts_with (String c "") s.
Proof. destruct s as [|d s]; [done|]. intros _. unfold starts_with. cbn. by case_bool_decide. Qed.

Lemma read_octet n rest :
  0 <= n <= 255 -> match rest with EmptyString => True | String c _ => to_digit 10 c = None end ->
  read_number 10 3 255 false (print_dec n +:+ rest) = Some (n, rest).
Proof.
  intros Hn Hr. unfold read_number. rewrite read_digits_app by (done || apply all_digits_print_dec).
  fold (dec_val (print_dec n)). rewrite dec_val_print_dec, starts_with_app by (lia || apply print_dec_nonempty).
  destruct (octet_text n Hn) as [Hl Hz]. pose proof (print_dec_nonempty n).
  assert (slen (print_dec n) <> 0) by (destruct (print_dec n); [done|rewrite slen_cons; pose proof (slen_nonneg s); lia]).
  rewrite (proj2 (Z.eqb_neq _ 0)), (proj2 (Z.ltb_ge 3 _)), (proj2 (Z.ltb_ge 255 n)) by lia. cbn [negb andb orb].
  by rewrite Z.add_0_l, Hz.
Qed.

Lemma v4_octets a : 0 <= a <= u32_MAX -> v4 (octet 0 a) (octet 1 a) (octet 2 a) (octet 3 a) = a.
Proof.
  intros Ha. destruct (octets_spec a Ha) as (w & x & y & z & Ea & Hw & Hx & Hy & Hz & -> & -> & -> & ->).
  unfold v4. rewrite !Z.shiftl_mul_pow2 by lia. lia.
Qed.

Lemma read_ipv4_string a rest :
  0 <= a <= u32_MAX -> match rest with EmptyString => True | String c _ => to_digit 10 c = None end ->
  read_ipv4 (ipv4_string a +:+ rest) = Some (a, rest).
Proof.
  intros Ha Hr. destruct (octets_spec a Ha) as (w & x & y & z & Ea & Hw & Hx & Hy & Hz & O0 & O1 & O2 & O3).
  unfold read_ipv4, ipv4_string. rewrite O0, O1, O2, O3, <- !str_app_assoc. cbn [read_sep option_bind].
  rewrite read_octet by (lia || done). cbn [option_bind append read_char]. destruct (ascii_dec "." "."); [|done]. cbn [option_bind].
  rewrite read_octet by (lia || done). cbn [option_bind append read_char]. destruct (ascii_dec "." "."); [|done]. cbn [option_bind].
  rewrite read_octet by (lia || done). cbn [option_bind append read_char]. destruct (ascii_dec "." "."); [|done]. cbn [option_bind].
  rewrite read_octet by (lia || done). cbn [option_bind]. do 2 f_equal. rewrite <- O0, <- O1, <- O2, <- O3. by apply v4_octets.
Qed.

Lemma parse_ipv4_string a : 0 <= a <= u32_MAX -> parse_ip (ipv4_string a) = Some (V4 a).
Proof.
  intros Ha. unfold parse_ip. rewrite <- (str_app_empty_r (ipv4_string a)). by rewrite (read_ipv4_string a "" Ha I).
Qed.

Lemma land_mask a p :
  0 <= a <= u32_MAX -> 0 <= p <= 32 -> Z.land a (mask 32 p) = Z.shiftl (Z.shiftr a (32 - p)) (32 - p).
Proof.
  intros Ha Hp. unfold mask. destruct (Z.eqb_spec p 0) as [->|Hne].
  - rewrite Z.land_0_r. unfold u32_MAX in Ha. rewrite (shiftr_div a), Z.div_small by lia. by rewrite Z.shiftl_0_l.
  - apply Z.bits_inj'. intros n Hn. change (2 ^ 32 - 1) with (Z.ones 32). rewrite !Z.land_spec, !Z.shiftl_spec by lia.
    destruct (Z.ltb_spec n (32 - p)).
    + rewrite (Z.testbit_neg_r (Z.ones 32)), (Z.testbit_neg_r (Z.shiftr _ _)) by lia. apply andb_false_r.
    + rewrite Z.shiftr_spec by lia. replace (n - (32 - p) + (32 - p)) with n by lia. destruct (Z.ltb_spec n 32).
      * rewrite !Z.ones_spec_low by lia. by rewrite andb_true_r.
      * rewrite (Z.ones_spec_high 32 n), andb_false_r, andb_false_r by lia. symmetry. destruct (Z.eq_dec a 0) as [->|]; [apply Z.bits_0|].
        apply Z.bits_above_log2; [lia|]. unfold u32_MAX in Ha. enough (Z.log2 a < 32) by lia. apply Z.log2_lt_pow2; lia.
Qed.

Lemma shiftl_inj a b n : 0 <= n -> Z.shiftl a n = Z.shiftl b n -> a = b.
Proof. intros Hn. rewrite !Z.shiftl_mul_pow2 by lia. assert (0 < 2 ^ n) by (apply Z.pow_pos_nonneg; lia). nia. Qed.

Lemma digits_ends s :
  all_digits s = true -> s <> "" ->
  (exists c t, s = String c t /\ plain_byte (byte_val c) = true) /\
  (exists u d, s = u +:+ String d "" /\ plain_byte (byte_val d) = true).
Proof.
  assert (Hp : forall c, is_ascii_digit c = true -> plain_byte (byte_val c) = true).
  { intros c. unfold is_ascii_digit, plain_byte. rewrite !in_range_spec. lia. }
  induction s as [|c s IH]; [done|]. cbn. intros [Hc Hs]%andb_true_iff _. split; [by exists c, s; auto|].
  destruct s as [|c' s']; [exists "", c; auto|]. destruct IH as [_ (u & d & E & Hd)]; [done|done|].
  exists (String c u), d. cbn. by rewrite E.
Qed.

Lemma no_slash_ipv4 a : str_forall (fun d => bool_decide ("/"%char <> d)) (ipv4_string a) = true.
Proof.
  assert (H : forall n, str_forall (fun d => bool_decide ("/"%char <> d)) (print_dec n) = true).
  { intros n. eapply str_forall_impl; [|apply all_digits_print_dec]. intros c Hc. apply bool_decide_true. intros <-.
    by vm_compute in Hc. }
  unfold ipv4_string. rewrite !str_forall_app, !H. done.
Qed.

(** A network in the list of trusted proxies, written [a.b.c.d/p], contains exactly the IPv4
    addresses that agree with it on the first [p] bits. *)
Lemma cidr_exact a net p :
  0 <= a <= u32_MAX -> 0 <= net <= u32_MAX -> 0 <= p <= 32 ->
  ip_in_cidr (V4 a) (ipv4_string net +:+ "/" +:+ print_dec p) = (Z.shiftr a (32 - p) =? Z.shiftr net (32 - p)).
Proof.
  intros Ha Hn Hp. set (s := ipv4_string net +:+ "/" +:+ print_dec p). assert (Et : trim s = s).
  { destruct (digits_ends (print_dec (octet 0 net))) as [(c & t & Ec & Hc) _]; [apply all_digits_print_dec|apply print_dec_nonempty|].
    destruct (digits_ends (print_dec p)) as [_ (u & d & Ed & Hd)]; [apply all_digits_print_dec|apply print_dec_nonempty|].
    unfold s, ipv4_string. rewrite Ec, Ed. eapply trim_plain; [reflexivity| |exact Hc|exact Hd].
    rewrite !str_app_assoc. reflexivity. }
  assert (Esp : split_once "/" s = Some (ipv4_string net, print_dec p)).
  { apply split_once_Some. split; [done|apply no_slash_ipv4]. }
  unfold ip_in_cidr. rewrite Et, Esp. unfold parse_u32. rewrite parse_int_print_dec by (unfold u32_MAX; lia).
  rewrite parse_ipv4_string by done. rewrite (proj2 (Z.leb_le p 32)) by lia. cbn [andb]. rewrite !land_mask by done.
  destruct (Z.eqb_spec (Z.shiftr a (32 - p)) (Z.shiftr net (32 - p))) as [->|Hne]; [apply Z.eqb_refl|].
  apply Z.eqb_neq. intros E. apply Hne. by apply shiftl_inj in E; [|lia].
Qed.

(** ** Witnesses *)

(** A parser of URLs that knows two. *)
#[local] Instance sample_parser : UrlParser := {|
  url_host url :=
    if String.eqb url "https://hooks.example.com/octo" then Some (Some "hooks.example.com")
    else if String.eqb url "http://[::1]/" then Some (Some "[::1]") else None;
  url_port _ := None
|}.

#[local] Instance sample_laws : UrlLaws.
Proof.
  constructor. intros url host. cbn. destruct (String.eqb url _); [intros [= <-]; reflexivity|].
  destruct (String.eqb url _); [intros [= <-]; reflexivity|done].
Qed.

Definition sample_lookup (h : string) (p : Z) : option (list IpAddr) :=
  if String.eqb h "hooks.example.com" then Some [V4 (v4 203 0 113 5); V6 [8193; 3512; 0; 0; 0; 0; 0; 51966]] else None.

Lemma delivery_target_public_witness :
  (is_safe_delivery_url false sample_lookup "https://hooks.example.com/octo" = true /\
   exists ips, targets sample_lookup "https://hooks.example.com/octo" "hooks.example.com" = Some ips /\
     Forall (fun ip => internal ip = false) ips) /\
  is_safe_delivery_url false sample_lookup "http://[::1]/" = false.
Proof.
  assert (Hl : forall h p l, sample_lookup h p = Some l -> Forall (fun ip => valid_ip ip = true) l).
  { intros h p l. unfold sample_lookup. destruct (String.eqb h _); [intros [= <-]; repeat constructor|done]. }
  split.
  - assert (E : is_safe_delivery_url false sample_lookup "https://hooks.example.com/octo" = true) by (vm_compute; reflexivity).
    split; [exact E|].
    destruct (proj1 (delivery_target_public false sample_lookup "https://hooks.example.com/octo" Hl) E)
      as (_ & [Ha|(host & ips & Eh & Et & _ & Hf & _)]); [discriminate Ha|].
    injection Eh as <-. exists ips. split; assumption.
  - vm_compute. reflexivity.
Defined.

End Net.
