(* ===== verification/Email.v ===== *)
(** * Transactional email

    [crates/email]: one-time codes and their digests, the message templates with the escaping
    of untrusted values, and delivery through Resend under the resilience executor.

    In the templates below a backquote stands for the double quote of HTML attributes. *)

From S2P Require Import Prelude Float64 Resilience.

Module Email.
Import Resilience Float64.

(** ** One-time codes *)

(** [format!("{n:06}")] of the random number below one million. *)
Definition generate_otp (n : Z) : string := print_fixed 6 n.

(** [hex::encode] of SHA-256. *)
Class Digest := { sha256 : list Z -> list Z; hex_encode : list Z -> string }.

Definition hash_otp `{Digest} (code : string) : string := hex_encode (sha256 (bytes_of code)).

(** ** Templates *)

Record Body := mkBody { html : string; text : string }.

Definition dquote : ascii := ascii_of_N 34.
Definition quoted (s : string) : string := str_map (fun c => if ascii_dec c "`" then dquote else c) s.

Definition BURGUNDY : string := "#7b1733".
Definition BURGUNDY_BRIGHT : string := "#b81f4d".
Definition INK : string := "#0a0506".
Definition LOGO_URL : string :=
  "https://res.cloudinary.com/h9jpvcxe/image/upload/v1786115234/octopus_burgundy_black_bg_wrx0sf.png".
Definition ICON_BASE : string := "https://octohq.org/email".

Inductive Icon := Key | Wave | Check | Warn.

Definition icon_url (icon : Icon) : string :=
  match icon with
  | Key => "icon-key.png"
  | Wave => "icon-wave.png"
  | Check => "icon-check.png"
  | Warn => "icon-warn.png"
  end.

Definition social_icon (icon href label : string) : string :=
  quoted "<a href=`" +:+ href +:+ quoted "` style=`display:inline-block;margin:0 6px;text-decoration:none;` aria-label=`" +:+ label
  +:+ quoted "`><img src=`" +:+ ICON_BASE +:+ "/social-" +:+ icon +:+ quoted ".png` width=`32` height=`32` alt=`" +:+ label
  +:+ quoted "` style=`display:block;border:0;`/></a>".

Definition socials : string :=
  social_icon "x" "https://x.com/Octo_Hq" "X (Twitter)"
  +:+ social_icon "instagram" "https://instagram.com/OctoHQ" "Instagram"
  +:+ social_icon "linkedin" "https://linkedin.com/company/OctoHQ" "LinkedIn"
  +:+ social_icon "github" "https://github.com/Octo-Protocol-org" "GitHub"
  +:+ social_icon "telegram" "https://t.me/OctoHQ" "Telegram".

(** A map of characters to texts; the characters it changes are ASCII, so that it works on the
    bytes of the UTF-8 text. *)
Fixpoint escape_with (f : ascii -> string) (s : string) : string :=
  match s with EmptyString => EmptyString | String c r => f c +:+ escape_with f r end.

Definition html_escape (s : string) : string :=
  escape_with (fun c =>
    if ascii_dec c "&" then "&amp;"
    else if ascii_dec c "<" then "&lt;"
    else if ascii_dec c ">" then "&gt;"
    else if ascii_dec c dquote then "&quot;"
    else if ascii_dec c "'" then "&#x27;"
    else String c "") s.

(** [char::is_control]: U+0000 to U+001F and U+007F, which are one byte, and U+0080 to
    U+009F, which are C2 and a byte from 80 to 9F. *)
Definition is_control (c : ascii) : bool := (byte_val c <? 32) || (byte_val c =? 127).

Fixpoint text_clean (s : string) : string :=
  match s with
  | EmptyString => EmptyString
  | String c r =>
      if is_control c then String " " (text_clean r)
      else match r with
           | String c' r' => if (byte_val c =? 194) && in_range 128 159 (byte_val c') then String " " (text_clean r')
                             else String c (text_clean r)
           | EmptyString => String c (text_clean r)
           end
  end.

Definition newline : ascii := ascii_of_N 10.
Definition nl : string := String newline "".

Fixpoint join_lines (lines : list string) : string :=
  match lines with [] => "" | [l] => l | l :: r => l +:+ nl +:+ join_lines r end.

Definition text_shell (lines : list string) : string :=
  "Octo" +:+ nl +:+ nl +:+ join_lines lines +:+ nl +:+ nl +:+ "--" +:+ nl
  +:+ "Octo · Stellar-native wallet infrastructure" +:+ nl.

Section Templates.
(** The current year. *)
Variable year : string.

Definition shell_head (icon : Icon) : string :=
  quoted "<div style=`font-family:-apple-system,Helvetica,Arial,sans-serif;background:#f5f5f5;padding:32px 0;`>"
  +:+ quoted "<div style=`max-width:480px;margin:0 auto;background:#fff;border-radius:16px;overflow:hidden;border:1px solid #eee;`>"
  +:+ quoted "<div style=`text-align:center;padding:28px 32px 20px;`>"
  +:+ quoted "<img src=`" +:+ LOGO_URL +:+ quoted "` width=`40` height=`40` alt=`Octo` style=`display:inline-block;border-radius:10px;`/>"
  +:+ quoted "<div style=`margin-top:10px;font-size:16px;font-weight:700;color:" +:+ INK +:+ quoted ";letter-spacing:-0.02em;`>Octo</div>"
  +:+ "</div>"
  +:+ quoted "<div style=`height:1px;background:#eee;`></div>"
  +:+ quoted "<div style=`padding:32px;color:#222;font-size:14px;line-height:1.6;text-align:center;`>"
  +:+ quoted "<div style=`text-align:center;margin-bottom:20px;`><img src=`" +:+ ICON_BASE +:+ "/" +:+ icon_url icon
  +:+ quoted "` width=`40` height=`40` alt=`` style=`display:inline-block;`/></div>".

Definition shell_foot : string :=
  "</div>"
  +:+ quoted "<div style=`background:" +:+ BURGUNDY +:+ quoted ";padding:22px 32px;text-align:center;`>"
  +:+ socials
  +:+ quoted "<p style=`margin:14px 0 0;color:rgba(255,255,255,0.7);font-size:11px;`>© " +:+ year
  +:+ " Octo · Stellar-native wallet infrastructure</p>"
  +:+ "</div>" +:+ "</div>" +:+ "</div>".

Definition shell (body : string) (icon : Icon) : string := shell_head icon +:+ body +:+ shell_foot.

Definition otp_action (purpose : string) : string :=
  if bool_decide (purpose = "withdrawal") then "confirm a withdrawal"
  else if bool_decide (purpose = "password_reset") then "reset your password"
  else if bool_decide (purpose = "email_change") then "confirm your new email address"
  else if bool_decide (purpose = "account_export") then "export your account data"
  else if bool_decide (purpose = "account_delete") then "permanently delete your account"
  else "verify your email".

Definition title (t : string) : string :=
  quoted "<p style=`margin:0 0 4px;font-size:18px;font-weight:700;color:#111;`>" +:+ t +:+ "</p>".

Definition otp_email (code purpose : string) : Body :=
  let action := otp_action purpose in
  mkBody
    (shell (title "Your verification code"
            +:+ quoted "<p style=`margin:0 0 20px;color:#666;`>Use this code to " +:+ action +:+ ".</p>"
            +:+ quoted "<div style=`display:inline-block;background:" +:+ BURGUNDY_BRIGHT +:+ quoted ";border-radius:10px;padding:14px 28px;`>"
            +:+ quoted "<span style=`font-size:30px;font-weight:700;letter-spacing:6px;color:#fff;`>" +:+ code +:+ "</span>"
            +:+ "</div>"
            +:+ quoted "<p style=`margin:20px 0 0;color:#999;font-size:12px;`>This code expires in 10 minutes. If you didn't request it, you can ignore this email.</p>")
       Key)
    (text_shell
       ["Your verification code: " +:+ code;
        "Use this code to " +:+ action +:+ ".";
        "This code expires in 10 minutes. If you didn't request it, you can ignore this email."]).

(** [str::find]: what follows the first occurrence. *)
Fixpoint after_first (marker s : string) : option string :=
  match strip_prefix marker s with
  | Some rest => Some rest
  | None => match s with EmptyString => None | String _ r => after_first marker r end
  end.

Fixpoint take_str (n : nat) (s : string) : option string :=
  match n, s with
  | O, _ => Some ""
  | S n, String c r => option_map (String c) (take_str n r)
  | S _, EmptyString => None
  end.

(** A slice that ends inside a character is not all digits either. *)
Definition extract_otp (html : string) : option string :=
  let* rest := after_first (quoted "letter-spacing:6px;color:#fff;`>") html in
  let* code := take_str 6 rest in
  if all_digits code then Some code else None.

(** [str::replace] of one character. *)
Definition replace (c : ascii) (r s : string) : string := escape_with (fun d => if ascii_dec d c then r else String d "") s.

Definition escape_html (input : string) : string :=
  replace "'" "&#39;" (replace dquote "&quot;" (replace ">" "&gt;" (replace "<" "&lt;" (replace "&" "&amp;" input)))).

Definition email_changed_email (new_email : string) : Body :=
  let raw := text_clean new_email in
  let new_email := escape_html new_email in
  mkBody
    (shell (title "Your login email was changed"
            +:+ quoted "<p style=`margin:0;color:#666;`>This account's email is now " +:+ new_email
            +:+ ". If this wasn't you, reset your password right away.</p>") Warn)
    (text_shell
       ["Your login email was changed";
        "This account's email is now " +:+ raw +:+ ". If this wasn't you, reset your password right away."]).

Definition account_deleted_email : string :=
  shell (title "Your Octo account was deleted"
         +:+ quoted "<p style=`margin:0;color:#666;`>Your profile, sessions and API keys have been removed. If this wasn't you, contact support immediately.</p>")
    Warn.

Definition welcome_email (email : string) : Body :=
  let raw := text_clean email in
  let email := html_escape email in
  mkBody
    (shell (title "Welcome to Octo 🎉"
            +:+ quoted "<p style=`margin:0 0 20px;color:#666;`>" +:+ email +:+ " is verified and ready to go.</p>"
            +:+ quoted "<a href=`https://octohq.org/dashboard` style=`display:inline-block;background:" +:+ BURGUNDY_BRIGHT
            +:+ quoted ";border-radius:10px;padding:12px 28px;color:#fff;font-weight:600;text-decoration:none;font-size:14px;`>Go to dashboard</a>")
       Wave)
    (text_shell
       ["Welcome to Octo"; raw +:+ " is verified and ready to go."; "Go to dashboard: https://octohq.org/dashboard"]).

Definition fact (style name value : string) : string :=
  quoted "<p style=`" +:+ style +:+ quoted "`><strong>" +:+ name +:+ ":</strong> " +:+ value +:+ "</p>".

Definition fact_box (rows : string) : string :=
  quoted "<div style=`text-align:left;background:#fafafa;border-radius:10px;padding:16px 20px;font-size:13px;`>" +:+ rows +:+ "</div>".

Definition withdrawal_success_email (amount asset destination tx_hash : string) : Body :=
  let raw_asset := text_clean asset in
  let raw_destination := text_clean destination in
  let raw_hash := text_clean tx_hash in
  let asset := html_escape asset in
  let destination := html_escape destination in
  let tx_hash := html_escape tx_hash in
  mkBody
    (shell (title "Withdrawal confirmed"
            +:+ quoted "<p style=`margin:0 0 20px;color:#666;`>Your withdrawal has been confirmed on-chain.</p>"
            +:+ fact_box (fact "margin:0 0 8px;" "Amount" (amount +:+ " " +:+ asset)
                          +:+ fact "margin:0 0 8px;word-break:break-all;" "Destination" destination
                          +:+ fact "margin:0;word-break:break-all;" "Transaction" tx_hash)) Check)
    (text_shell
       ["Withdrawal confirmed"; "Your withdrawal has been confirmed on-chain.";
        "Amount: " +:+ amount +:+ " " +:+ raw_asset; "Destination: " +:+ raw_destination; "Transaction: " +:+ raw_hash]).

Definition withdrawal_failed_email (amount asset destination reason : string) : Body :=
  let raw_asset := text_clean asset in
  let raw_destination := text_clean destination in
  let raw_reason := text_clean reason in
  let asset := html_escape asset in
  let destination := html_escape destination in
  let reason := html_escape reason in
  mkBody
    (shell (title "Withdrawal attempt failed"
            +:+ quoted "<p style=`margin:0 0 20px;color:#666;`>A withdrawal attempt on your account did not complete.</p>"
            +:+ fact_box (fact "margin:0 0 8px;" "Amount" (amount +:+ " " +:+ asset)
                          +:+ fact "margin:0 0 8px;word-break:break-all;" "Destination" destination
                          +:+ fact "margin:0;" "Reason" reason)
            +:+ quoted "<p style=`margin:20px 0 0;color:#999;font-size:12px;`>If this wasn't you, secure your account and contact support.</p>")
       Warn)
    (text_shell
       ["Withdrawal attempt failed"; "A withdrawal attempt on your account did not complete.";
        "Amount: " +:+ amount +:+ " " +:+ raw_asset; "Destination: " +:+ raw_destination; "Reason: " +:+ raw_reason;
        "If this wasn't you, secure your account and contact support."]).
End Templates.

(** ** Delivery *)

Record Mail := mkMail { to_ : string; subject : string; mail_html : string; mail_text : string }.

(** [Request] carries whether the error is a timeout or a failed connection. *)
Inductive EmailError := Request (transient : bool) | Rejected (detail : string) | Unavailable (detail : string) | DeadlineExceeded.

#[export] Instance Retriable_EmailError : Retriable EmailError := fun e =>
  match e with Request transient => transient | Unavailable _ => true | Rejected _ | DeadlineExceeded => false end.

(** What Resend answers to one POST. *)
Inductive answer := NoAnswer (transient : bool) | Answer (status : Z) (detail : string).

Definition post_once (a : answer) : result unit EmailError :=
  match a with
  | NoAnswer transient => Err (Request transient)
  | Answer status detail =>
      if in_range 200 299 status then Ok tt
      else if in_range 500 599 status || (status =? 429) then Err (Unavailable detail)
      else Err (Rejected detail)
  end.

Definition SEND_DEADLINE : Z := 25.
Definition ResendTransport_circuit : CircuitBreaker := CircuitBreaker_new 20 10.

(** [deliver] of the Resend transport: [answers] are what the POSTs got, with the clock around
    them; [in_time] tells whether the attempts ended before the deadline. *)
Definition deliver (powi : f64 -> Z -> f64) (rounds : nat -> Round unit EmailError) (in_time : bool) (circuit : CircuitBreaker)
    (t1 t2 : Z) : option (result unit EmailError) :=
  if negb in_time then Some (Err DeadlineExceeded) else
  option_map (fun r => match r with
                       | Ok tt => Ok tt
                       | Err (Exhausted e) => Err e
                       | Err Circuit => Err (Unavailable "circuit breaker open")
                       end)
    (returned (execute powi RetryPolicy_default rounds ReadOnly circuit t1 t2)).

(** The other transports, with the messages they keep. *)
Inductive EmailTransport := Capture (messages : list Mail) | LogOnly | Failing.

Definition deliver_fake (t : EmailTransport) (email : Mail) : result unit EmailError * EmailTransport :=
  match t with
  | Capture messages => (Ok tt, Capture (messages ++ [email]))
  | LogOnly => (Ok tt, LogOnly)
  | Failing => (Err (Rejected "simulated failure"), Failing)
  end.

Definition sent (t : EmailTransport) : list Mail := match t with Capture messages => messages | _ => [] end.

Definition send (t : EmailTransport) (to_ subject : string) (body : Body) : result unit EmailError * EmailTransport :=
  deliver_fake t (mkMail to_ subject (html body) (text body)).

Definition send_otp (year : string) (t : EmailTransport) (to_ purpose code : string) : result unit EmailError * EmailTransport :=
  send t to_ "Your Octo verification code" (otp_email year code purpose).

Definition last_otp_for (t : EmailTransport) (to' : string) : option string :=
  List.fold_left (fun acc m => match acc with
                               | Some _ => acc
                               | None => if bool_decide (to_ m = to') then extract_otp (mail_html m) else None
                               end) (rev (sent t)) None.
(** ** Untrusted values are inert *)

Definition is_markup (c : ascii) : bool := bool_decide (c = "<"%char) || bool_decide (c = ">"%char) || bool_decide (c = dquote).

(** The characters that make markup, in order; the line breaks. *)
Definition tags (s : string) : list ascii := List.filter is_markup (list_ascii_of_string s).
Definition breaks (s : string) : list ascii := List.filter (fun c => bool_decide (c = newline)) (list_ascii_of_string s).

Lemma list_ascii_app (s t : string) : list_ascii_of_string (s +:+ t) = list_ascii_of_string s ++ list_ascii_of_string t.
Proof. induction s as [|c s IH]; cbn; [done|by rewrite IH]. Qed.

Lemma tags_app s t : tags (s +:+ t) = tags s ++ tags t.
Proof. unfold tags. by rewrite list_ascii_app, List.filter_app. Qed.

Lemma breaks_app s t : breaks (s +:+ t) = breaks s ++ breaks t.
Proof. unfold breaks. by rewrite list_ascii_app, List.filter_app. Qed.

Lemma escape_with_tags f s : (forall c, tags (f c) = []) -> tags (escape_with f s) = [].
Proof. intros Hf. induction s as [|c s IH]; [done|]. cbn [escape_with]. by rewrite tags_app, Hf, IH. Qed.

Lemma html_escape_tags s : tags (html_escape s) = [].
Proof.
  apply escape_with_tags. intros c. repeat (destruct (ascii_dec c _); [reflexivity|]). unfold tags. cbn.
  unfold is_markup. by rewrite !bool_decide_eq_false_2.
Qed.

Lemma replace_other c r d s : d <> c -> replace c r (String d s) = String d (replace c r s).
Proof. intros H. unfold replace. cbn. by destruct (ascii_dec d c). Qed.

Lemma replace_same c r s : replace c r (String c s) = r +:+ replace c r s.
Proof. unfold replace. cbn. by destruct (ascii_dec c c). Qed.

Lemma escape_html_cons d s : exists p, escape_html (String d s) = p +:+ escape_html s /\ tags p = [].
Proof.
  unfold escape_html. destruct (ascii_dec d "&") as [->|H1]; [exists "&amp;"; by split|].
  rewrite (replace_other "&") by done. destruct (ascii_dec d "<") as [->|H2]; [exists "&lt;"; by split|].
  rewrite (replace_other "<") by done. destruct (ascii_dec d ">") as [->|H3]; [exists "&gt;"; by split|].
  rewrite (replace_other ">") by done. destruct (ascii_dec d dquote) as [->|H4]; [exists "&quot;"; by split|].
  rewrite (replace_other dquote) by done. destruct (ascii_dec d "'") as [->|H5]; [exists "&#39;"; by split|].
  rewrite replace_other by done. exists (String d ""). split; [done|]. unfold tags. cbn. unfold is_markup.
  by rewrite !bool_decide_eq_false_2.
Qed.

Lemma escape_html_tags s : tags (escape_html s) = [].
Proof. induction s as [|d s IH]; [done|]. destruct (escape_html_cons d s) as (p & -> & Hp). by rewrite tags_app, Hp. Qed.

Lemma breaks_cons c s : breaks (String c s) = (if bool_decide (c = newline) then [c] else []) ++ breaks s.
Proof. unfold breaks. cbn. by case_bool_decide. Qed.

Lemma text_clean_breaks s : breaks (text_clean s) = [].
Proof.
  enough (H : forall n s, (String.length s <= n)%nat -> breaks (text_clean s) = []) by by eapply H.
  clear s. induction n as [|n IH]; intros [|c s] Hn; try done; cbn in Hn; [lia|]. cbn [text_clean].
  destruct (is_control c) eqn:Ec; [rewrite breaks_cons; cbn; apply IH; lia|].
  assert (Hc : bool_decide (c = newline) = false).
  { apply bool_decide_eq_false_2. intros ->. by vm_compute in Ec. }
  destruct s as [|c' s']; [rewrite breaks_cons, Hc; done|]. cbn in Hn.
  destruct (_ && _); rewrite breaks_cons; [cbn; apply IH; lia|]. rewrite Hc. apply IH. cbn. lia.
Qed.

Lemma join_lines_cons l l' r : join_lines (l :: l' :: r) = l +:+ nl +:+ join_lines (l' :: r).
Proof. done. Qed.

Ltac inert :=
  cbn [html text]; unfold shell, text_shell, fact_box, fact; rewrite ?join_lines_cons; cbn [join_lines];
  rewrite ?tags_app, ?breaks_app, ?html_escape_tags, ?escape_html_tags, ?text_clean_breaks; reflexivity.

(** No injection through mail. Whatever the untrusted values in a message are (addresses,
    asset codes, destinations, hashes, reasons), the markup of the HTML part and the lines of the
    text part are those of the same message with empty values. *)
Lemma templates_inert year amount v1 v2 v3 :
  let same a b := tags (html a) = tags (html b) /\ breaks (text a) = breaks (text b) in
  same (welcome_email year v1) (welcome_email year "") /\
  same (email_changed_email year v1) (email_changed_email year "") /\
  same (withdrawal_success_email year amount v1 v2 v3) (withdrawal_success_email year amount "" "" "") /\
  same (withdrawal_failed_email year amount v1 v2 v3) (withdrawal_failed_email year amount "" "" "").
Proof.
  intros same. unfold same, welcome_email, email_changed_email, withdrawal_success_email, withdrawal_failed_email.
  split_and!; inert.
Qed.

(** ** The code in the mail *)

Lemma strip_prefix_grow m s t r : strip_prefix m s = Some r -> strip_prefix m (s +:+ t) = Some (r +:+ t).
Proof.
  revert s. induction m as [|c m IH]; intros s; cbn; [by intros [= ->]|]. destruct s as [|d s]; cbn; [done|].
  destruct (bool_decide _); [apply IH|done].
Qed.

Lemma strip_prefix_short m s t :
  (String.length m <= String.length s)%nat -> strip_prefix m s = None -> strip_prefix m (s +:+ t) = None.
Proof.
  revert s. induction m as [|c m IH]; intros s; cbn; [done|]. destruct s as [|d s]; cbn; [lia|].
  intros Hl. destruct (bool_decide _); [apply IH; lia|done].
Qed.

Lemma after_first_length m s r : after_first m s = Some r -> (String.length m <= String.length s)%nat.
Proof.
  assert (Hp : forall m s r, strip_prefix m s = Some r -> (String.length m <= String.length s)%nat).
  { clear. induction m as [|c m IH]; intros s r; cbn; [lia|]. destruct s as [|d s]; cbn; [done|].
    destruct (bool_decide _); [intros H; apply IH in H; lia|done]. }
  induction s as [|c s IH]; cbn; (destruct (strip_prefix m _) eqn:E; [intros _; by apply Hp in E|]); [done|].
  intros H. apply IH in H. lia.
Qed.

Lemma after_first_grow m s t r : after_first m s = Some r -> after_first m (s +:+ t) = Some (r +:+ t).
Proof.
  induction s as [|c s IH]; intros H.
  - cbn in H. destruct (strip_prefix m "") eqn:E; [injection H as ->|done]. cbn. apply (strip_prefix_grow _ _ t) in E. cbn in E.
    destruct t; cbn; by rewrite E.
  - pose proof (after_first_length _ _ _ H) as Hl. cbn [after_first] in H. change (String c s +:+ t) with (String c (s +:+ t)).
    cbn [after_first]. destruct (strip_prefix m (String c s)) eqn:E.
    + injection H as ->. apply (strip_prefix_grow _ _ t) in E. cbn [append] in E. by rewrite E.
    + apply (strip_prefix_short _ _ t) in E; [|done]. cbn [append] in E. rewrite E. by apply IH.
Qed.

(** The mail up to the code. *)
Definition otp_prefix (action : string) : string :=
  shell_head Key +:+ title "Your verification code"
  +:+ quoted "<p style=`margin:0 0 20px;color:#666;`>Use this code to " +:+ action +:+ ".</p>"
  +:+ quoted "<div style=`display:inline-block;background:" +:+ BURGUNDY_BRIGHT +:+ quoted ";border-radius:10px;padding:14px 28px;`>"
  +:+ quoted "<span style=`font-size:30px;font-weight:700;letter-spacing:6px;color:#fff;`>".

Lemma otp_prefix_marker purpose : after_first (quoted "letter-spacing:6px;color:#fff;`>") (otp_prefix (otp_action purpose)) = Some "".
Proof. unfold otp_action. repeat case_bool_decide; vm_compute; reflexivity. Qed.

Lemma otp_email_split year code purpose : exists rest, html (otp_email year code purpose) = otp_prefix (otp_action purpose) +:+ code +:+ rest.
Proof.
  eexists. cbn [html otp_email]. unfold otp_prefix, shell. rewrite <- !str_app_assoc. reflexivity.
Qed.

Lemma take_str_app s t : take_str (String.length s) (s +:+ t) = Some s.
Proof. induction s as [|c s IH]; cbn; [by destruct t|by rewrite IH]. Qed.

(** The code reaches the reader. Every code the generator can draw is the six digits that
    are read back from the mail sent for it, whatever the purpose. *)
Lemma otp_mail_roundtrip year purpose n :
  extract_otp (html (otp_email year (generate_otp n) purpose)) = Some (generate_otp n).
Proof.
  destruct (otp_email_split year (generate_otp n) purpose) as [rest ->]. unfold extract_otp.
  rewrite (after_first_grow _ _ _ _ (otp_prefix_marker purpose)). cbn [option_bind append].
  assert (Hl : String.length (generate_otp n) = 6%nat) by (pose proof (slen_print_fixed 6 n); unfold slen, generate_otp in *; lia).
  rewrite <- Hl, take_str_app. cbn [option_bind]. unfold generate_otp. by rewrite all_digits_print_fixed.
Qed.
End Email.
