(* ===== verification/Token.v ===== *)
(** * Credentials: session tokens, API keys, passwords

    The parts of [crates/api/src/auth.rs] and [crates/api/src/routes/apikeys.rs] that work on
    text: the HS256 tokens with their rotation of secrets, the API keys with their checksum, the
    validation of emails, passwords and user names, and the use of Argon2. SHA-256 and hex,
    HMAC-SHA-256, base64, JSON and Argon2 are parameters. *)

From S2P Require Import Prelude Store AuditChain AuditLog Users ApiHorizon Net Email.

Module Token.
Import Store (Uuid).
Import Users (UuidText, uuid_text, parse_uuid, UuidTextLaws, parse_uuid_text).
Import ApiHorizon (ApiError(..)).
Import Email (Digest, sha256, hex_encode).

Definition TOKEN_TTL_SECS : Z := 7 * 24 * 60 * 60.

(** The environment variables the module reads. *)
Record Config := mkConfig {
  JWT_SECRET_PREVIOUS : option string;
  JWT_ISSUER : option string;
  JWT_AUDIENCE : option string;
  ARGON2_MEMORY_KIB : option string;
  ARGON2_ITERATIONS : option string;
  ARGON2_PARALLELISM : option string
}.

Record Claims := mkClaims {
  sub : string;
  exp : Z;
  jti : string;
  epoch : Z;
  iss : string;
  aud : string;
  sid : option Uuid
}.

Record JwtHeader := mkJwtHeader { alg : string; typ : string; kid : string }.

#[export] Instance Claims_eq_dec : EqDecision Claims.
Proof. solve_decision. Defined.

(** ** The libraries *)

(** [URL_SAFE_NO_PAD] of the base64 crate. *)
Class Base64Url := { b64 : list Z -> string; b64_decode : string -> option (list Z) }.

(** [serde_json] on the two structures. *)
Class JwtJson := {
  header_to_vec : JwtHeader -> option (list Z);
  header_from_slice : list Z -> option JwtHeader;
  claims_to_vec : Claims -> option (list Z);
  claims_from_slice : list Z -> option Claims
}.

(** Argon2id, version 0x13: parameters, hashing with a salt to a PHC string, parsing a PHC
    string, verification of a password against it. *)
Class Argon2 := {
  argon2_params : Z -> Z -> Z -> bool;
  argon2_hash : Z * Z * Z -> string -> string -> option string;
  phc_parses : string -> bool;
  argon2_verify : Z * Z * Z -> string -> string -> bool
}.

(** [str::to_lowercase], whose tables are Unicode's. *)
Class Lowercase := { to_lowercase : string -> string }.

(** ** Validation *)

Definition str_exists (p : ascii -> bool) (s : string) : bool := negb (str_forall (fun c => negb (p c)) s).

Definition opt_filter {A} (p : A -> bool) (o : option A) : option A :=
  match o with Some a => if p a then Some a else None | None => None end.

Section Validation.
Context `{Lowercase}.

Definition normalize_email (email : option string) : result string ApiError :=
  ok_or (opt_filter (fun e => str_exists (fun c => bool_decide (c = "@"%char)) e && (3 <=? slen e))
           (option_map (fun e => to_lowercase (trim e)) email))
    (BadRequest "a valid email is required").

Record Credentials := mkCredentials { c_email : option string; c_password : option string }.

Definition validate (creds : Credentials) : result (string * string) ApiError :=
  let? email := normalize_email (c_email creds) in
  let? password := ok_or (opt_filter (fun p => in_range 8 128 (slen p)) (c_password creds))
                     (BadRequest "password must be 8-128 bytes") in
  Ok (email, password).
End Validation.

Definition RESERVED_USERNAMES : list string := ["admin"; "root"; "support"; "official"; "octo"; "system"; "me"; "api"].

Definition is_ascii_alphanumeric (c : ascii) : bool :=
  let b := byte_val c in in_range 48 57 b || in_range 65 90 b || in_range 97 122 b.

(** [chars().all]: a character outside ASCII is no letter, and neither is any of its bytes. *)
Definition validate_username (input : option string) : result string ApiError :=
  let? username := ok_or (opt_filter (fun u => negb (is_empty u)) (option_map trim input)) (BadRequest "username is required") in
  if (slen username <? 3) || (20 <? slen username) then Err (BadRequest "username must be 3-20 characters") else
  if negb (str_forall (fun c => is_ascii_alphanumeric c || bool_decide (c = "_"%char) || bool_decide (c = "-"%char)) username)
  then Err (BadRequest "username may only contain letters, numbers, underscores, and hyphens") else
  if existsb (fun reserved => eq_ignore_ascii_case reserved username) RESERVED_USERNAMES
  then Err (BadRequest "this username is not available")
  else Ok username.

(** The error is the message. *)
Definition validate_jwt_secret (secret : list Z) : result unit string :=
  if Z.of_nat (length secret) <? 32
  then Err ("JWT_SECRET must be at least 32 bytes, got " +:+ print_dec (Z.of_nat (length secret)))
  else Ok tt.

(** ** Passwords *)

Section Passwords.
Context `{Argon2}.
Variable cfg : Config.

Definition env_u32 (value : option string) (default_ : Z) : Z := default default_ (let* v := value in parse_u32 v).

Definition configured_argon2 : result (Z * Z * Z) ApiError :=
  let m := env_u32 (ARGON2_MEMORY_KIB cfg) 65536 in
  let t := env_u32 (ARGON2_ITERATIONS cfg) 3 in
  let p := env_u32 (ARGON2_PARALLELISM cfg) 1 in
  if argon2_params m t p then Ok (m, t, p) else Err Internal.

Definition hash_password (salt password : string) : result string ApiError :=
  let? params := configured_argon2 in ok_or (argon2_hash params salt password) Internal.

Definition verify_password (password phc : string) : result unit unit :=
  if negb (phc_parses phc) then Err tt else
  match configured_argon2 with
  | Err _ => Err tt
  | Ok params => if argon2_verify params password phc then Ok tt else Err tt
  end.

Fixpoint contains (pattern s : string) : bool :=
  starts_with pattern s || match s with EmptyString => false | String _ r => contains pattern r end.

Definition password_hash_needs_upgrade (phc : string) : bool :=
  let memory := default "65536" (ARGON2_MEMORY_KIB cfg) in
  let iterations := default "3" (ARGON2_ITERATIONS cfg) in
  let parallelism := default "1" (ARGON2_PARALLELISM cfg) in
  negb (contains ("m=" +:+ memory +:+ ",t=" +:+ iterations +:+ ",p=" +:+ parallelism) phc).
End Passwords.

(** ** Session tokens *)

Section Jwt.
Context `{Digest} `{AuditChain.Hmac} `{Base64Url} `{JwtJson} `{UuidText}.
Variable cfg : Config.

Definition jwt_key_id (secret : list Z) : string := hex_encode (take 8 (sha256 secret)).
Definition jwt_issuer : string := default "octo-api" (JWT_ISSUER cfg).
Definition jwt_audience : string := default "octo-clients" (JWT_AUDIENCE cfg).

Definition sign_hs256 (secret input : list Z) : string := b64 (AuditChain.hmac secret input).

Definition verify_hs256 (secret input : list Z) (signature_b64 : string) : bool :=
  match b64_decode signature_b64 with
  | Some sig => bool_decide (sig = AuditChain.hmac secret input)
  | None => false
  end.

(** [now] is the process's clock in seconds and [token_id] the random identifier. *)
Definition issue_token (secret : list Z) (now : Z) (token_id user_id : Uuid) (session_epoch : Z) (session_id : option Uuid) :
    result string ApiError :=
  let claims := mkClaims (uuid_text user_id) (now + TOKEN_TTL_SECS) (uuid_text token_id) session_epoch jwt_issuer jwt_audience
                  session_id in
  let? header := ok_or (header_to_vec (mkJwtHeader "HS256" "JWT" (jwt_key_id secret))) Internal in
  let? payload := ok_or (claims_to_vec claims) Internal in
  let signing_input := b64 header +:+ "." +:+ b64 payload in
  Ok (signing_input +:+ "." +:+ sign_hs256 secret (bytes_of signing_input)).

(** The secret the header names: the current one, or the previous one. *)
Definition verification_secret (secret : list Z) (kid : string) : option (list Z) :=
  if bool_decide (kid = jwt_key_id secret) then Some secret
  else opt_filter (fun previous => bool_decide (kid = jwt_key_id previous)) (option_map bytes_of (JWT_SECRET_PREVIOUS cfg)).

Definition verify_token (secret : list Z) (now : Z) (token : string) : option Claims :=
  match Net.split "." token with
  | [header; payload; signature] =>
      let* header_bytes := b64_decode header in
      let* header_data := header_from_slice header_bytes in
      if negb (bool_decide (alg header_data = "HS256")) || negb (bool_decide (typ header_data = "JWT")) then None else
      let* verification_secret := verification_secret secret (kid header_data) in
      if negb (verify_hs256 verification_secret (bytes_of (header +:+ "." +:+ payload)) signature) then None else
      let* payload_bytes := b64_decode payload in
      let* claims := claims_from_slice payload_bytes in
      if (exp claims <? now) || negb (bool_decide (iss claims = jwt_issuer)) || negb (bool_decide (aud claims = jwt_audience))
      then None else Some claims
  | _ => None
  end.

Definition hash_token (token : string) : string := hex_encode (sha256 (bytes_of token)).

(** ** API keys *)

Definition API_KEY_PREFIX : string := "octo_sk_".

Definition hash_api_key (key : string) : string := hex_encode (sha256 (bytes_of key)).
Definition hash_key (key : string) : string := hex_encode (sha256 (bytes_of key)).

(** [str::rsplit_once]: around the last occurrence. *)
Fixpoint rsplit_once (c : ascii) (s : string) : option (string * string) :=
  match s with
  | EmptyString => None
  | String d r =>
      match rsplit_once c r with
      | Some (a, b) => Some (String d a, b)
      | None => if ascii_dec d c then Some (EmptyString, r) else None
      end
  end.

Definition has_valid_api_key_checksum (key : string) : bool :=
  match rsplit_once "_" key with
  | Some (body, supplied) => (slen supplied =? 8) && starts_with supplied (hash_api_key body)
  | None => false
  end.

(** [hash_key(value)\[..8\]]: a digest has 64 characters. *)
Definition checksum (value : string) : string := String.substring 0 8 (hash_key value).

(** The key, with its display prefix, from the random bytes. *)
Definition new_api_key (network : string) (raw : list Z) : string * string :=
  let net := if bool_decide (network = "mainnet") then "live" else "test" in
  let key_body := "octo_sk_" +:+ net +:+ "_" +:+ hex_encode raw in
  (key_body +:+ "_" +:+ checksum key_body, "octo_sk_" +:+ net +:+ "_" +:+ String.substring 0 4 (hex_encode raw)).
End Jwt.

(** ** Headers *)

(** A header that is not visible ASCII text is [None] where the code asks for text. *)
Record HeaderMap := mkHeaderMap {
  authorization : option string;
  user_agent : option (list Z);
  x_forwarded_for : option string;
  x_real_ip : option string
}.

Definition bearer (headers : HeaderMap) : option string := let* v := authorization headers in strip_prefix "Bearer " v.

Definition user_agent_hash `{Digest} (headers : HeaderMap) : option string :=
  option_map (fun ua => hex_encode (sha256 (take 512 ua))) (user_agent headers).

(** Laws of the libraries. *)
Class DigestLaws `{Digest} := {
  sha256_length : forall m, length (sha256 m) = 32%nat;
  hex_length : forall l, String.length (hex_encode l) = (2 * length l)%nat;
  hex_digits : forall l, str_forall is_ascii_hexdigit (hex_encode l) = true
}.

Class Base64Laws `{Base64Url} := {
  b64_roundtrip : forall l, b64_decode (b64 l) = Some l;
  b64_alphabet : forall l, str_forall (fun c => is_ascii_alphanumeric c || bool_decide (c = "-"%char) || bool_decide (c = "_"%char)) (b64 l) = true
}.

Class JwtJsonLaws `{JwtJson} := {
  header_roundtrip : forall h, exists b, header_to_vec h = Some b /\ header_from_slice b = Some h;
  claims_roundtrip : forall c, exists b, claims_to_vec c = Some b /\ claims_from_slice b = Some c
}.
(** ** Tokens are read back *)

Lemma split_three (a b c : string) :
  str_forall (fun d => bool_decide ("."%char <> d)) a = true -> str_forall (fun d => bool_decide ("."%char <> d)) b = true ->
  str_forall (fun d => bool_decide ("."%char <> d)) c = true ->
  Net.split "." ((a +:+ "." +:+ b) +:+ "." +:+ c) = [a; b; c].
Proof.
  intros Ha Hb Hc. unfold Net.split. rewrite <- str_app_assoc.
  change ("." +:+ b) with (String "." b). change ("." +:+ c) with (String "." c).
  set (s := a +:+ (String "." b +:+ String "." c)).
  assert (Hlen : exists n, String.length s = S (S n)).
  { assert (2 <= slen s) by (unfold s; rewrite slen_app; cbn [append]; rewrite slen_cons, slen_app, slen_cons;
      pose proof (slen_nonneg a); pose proof (slen_nonneg b); pose proof (slen_nonneg c); lia).
    unfold slen in *. exists (String.length s - 2)%nat. lia. }
  destruct Hlen as [n ->]. cbn [Net.split_all].
  rewrite (proj2 (split_once_Some "." s a (b +:+ String "." c))) by done.
  rewrite (proj2 (split_once_Some "." _ b c)) by done.
  destruct n; cbn [Net.split_all]; [done|]. by rewrite (proj2 (split_once_None "." c) Hc).
Qed.

Section Tokens.
Context `{DL : DigestLaws} `{HM : AuditChain.Hmac} `{BL : Base64Laws} `{JL : JwtJsonLaws} `{UT : UuidText}.

Lemma b64_no_dot l : str_forall (fun d => bool_decide ("."%char <> d)) (b64 l) = true.
Proof.
  eapply str_forall_impl; [|apply b64_alphabet]. intros c Hc. apply bool_decide_eq_true_2. intros <-. by vm_compute in Hc.
Qed.

(** What a token says. *)
Definition token_claims (cfg : Config) (now : Z) (token_id user_id : Uuid) (session_epoch : Z) (session_id : option Uuid) : Claims :=
  mkClaims (uuid_text user_id) (now + TOKEN_TTL_SECS) (uuid_text token_id) session_epoch (jwt_issuer cfg) (jwt_audience cfg) session_id.

Lemma issue_token_shape cfg secret now token_id u e s :
  exists hb pb, header_from_slice hb = Some (mkJwtHeader "HS256" "JWT" (jwt_key_id secret)) /\
    claims_from_slice pb = Some (token_claims cfg now token_id u e s) /\
    issue_token cfg secret now token_id u e s =
      Ok ((b64 hb +:+ "." +:+ b64 pb) +:+ "." +:+ sign_hs256 secret (bytes_of (b64 hb +:+ "." +:+ b64 pb))).
Proof.
  destruct (header_roundtrip (mkJwtHeader "HS256" "JWT" (jwt_key_id secret))) as (hb & Eh & Rh).
  destruct (claims_roundtrip (token_claims cfg now token_id u e s)) as (pb & Ep & Rp).
  exists hb, pb. split_and!; [done|done|]. unfold issue_token. fold (token_claims cfg now token_id u e s). by rewrite Eh, Ep.
Qed.

Lemma verify_issued cfg secret now token_id u e s tok cfg' secret' now' :
  issue_token cfg secret now token_id u e s = Ok tok ->
  jwt_issuer cfg' = jwt_issuer cfg -> jwt_audience cfg' = jwt_audience cfg ->
  verification_secret cfg' secret' (jwt_key_id secret) = Some secret ->
  verify_token cfg' secret' now' tok =
    if now' <=? now + TOKEN_TTL_SECS then Some (token_claims cfg now token_id u e s) else None.
Proof.
  destruct (issue_token_shape cfg secret now token_id u e s) as (hb & pb & Rh & Rp & ->). intros Et Ei Ea Es.
  assert (tok = (b64 hb +:+ "." +:+ b64 pb) +:+ "." +:+ sign_hs256 secret (bytes_of (b64 hb +:+ "." +:+ b64 pb))) as -> by congruence.
  clear Et. unfold verify_token. rewrite split_three by (apply b64_no_dot). rewrite !b64_roundtrip. cbn [option_bind].
  rewrite Rh. cbn [option_bind alg typ kid]. rewrite !bool_decide_eq_true_2 by done. cbn [negb orb]. rewrite Es. cbn [option_bind].
  unfold verify_hs256, sign_hs256. rewrite b64_roundtrip, bool_decide_eq_true_2 by done. cbn [negb].
  rewrite Rp. cbn [option_bind]. cbn [token_claims exp iss aud].
  rewrite Ei, Ea, !bool_decide_eq_true_2 by done. cbn [negb]. rewrite !orb_false_r.
  destruct (Z.ltb_spec (now + TOKEN_TTL_SECS) now'), (Z.leb_spec now' (now + TOKEN_TTL_SECS)); (lia || done).
Qed.

Lemma current_secret cfg secret : verification_secret cfg secret (jwt_key_id secret) = Some secret.
Proof. unfold verification_secret. by rewrite bool_decide_eq_true_2. Qed.

(** Session tokens. Issuing never fails, and the token says who, which session, which
    epoch and when it ends. It verifies, to exactly these claims, until its last second and never
    after it: under the secret it was issued with, and after a rotation of secrets under the new
    one while the old one is configured as the previous one. Under secrets whose key identifiers
    are both different it never verifies. *)
Lemma token_roundtrip cfg secret now token_id u e s :
  exists tok, issue_token cfg secret now token_id u e s = Ok tok /\
    forall cfg' secret' now',
      jwt_issuer cfg' = jwt_issuer cfg -> jwt_audience cfg' = jwt_audience cfg ->
      let answer := if now' <=? now + TOKEN_TTL_SECS then Some (token_claims cfg now token_id u e s) else None in
      (secret' = secret -> verify_token cfg' secret' now' tok = answer) /\
      (option_map bytes_of (JWT_SECRET_PREVIOUS cfg') = Some secret -> jwt_key_id secret' <> jwt_key_id secret ->
       verify_token cfg' secret' now' tok = answer) /\
      (jwt_key_id secret' <> jwt_key_id secret ->
       (forall p, JWT_SECRET_PREVIOUS cfg' = Some p -> jwt_key_id (bytes_of p) <> jwt_key_id secret) ->
       verify_token cfg' secret' now' tok = None).
Proof.
  destruct (issue_token_shape cfg secret now token_id u e s) as (hb & pb & Rh & Rp & E). eexists. split; [exact E|].
  intros cfg' secret' now' Ei Ea answer. split_and!.
  - intros ->. eapply verify_issued; [exact E|done|done|apply current_secret].
  - intros Ep Hk. eapply verify_issued; [exact E|done|done|]. unfold verification_secret.
    rewrite bool_decide_eq_false_2 by (intros Hx; by apply Hk). rewrite Ep. cbn. by rewrite bool_decide_eq_true_2.
  - intros Hk Hp. unfold verify_token. rewrite split_three by (apply b64_no_dot). rewrite !b64_roundtrip. cbn [option_bind].
    rewrite Rh. cbn [option_bind alg typ kid]. rewrite !bool_decide_eq_true_2 by done. cbn [negb orb]. unfold verification_secret.
    rewrite bool_decide_eq_false_2 by (intros Hx; by apply Hk). destruct (JWT_SECRET_PREVIOUS cfg') as [p|]; [|done]. cbn.
    rewrite bool_decide_eq_false_2; [done|]. intros Hx. by apply (Hp p).
Qed.

(** ** API keys pass their own checksum *)

Lemma rsplit_once_spec c a b :
  str_forall (fun d => bool_decide (c <> d)) b = true -> rsplit_once c (a +:+ String c b) = Some (a, b).
Proof.
  intros Hb. assert (Hn : rsplit_once c b = None).
  { induction b as [|d b IH]; [done|]. cbn in Hb |- *. apply andb_true_iff in Hb as [Hd Hb]. apply bool_decide_eq_true in Hd.
    rewrite IH by done. by destruct (ascii_dec d c). }
  induction a as [|d a IH]; cbn; [|by rewrite IH]. rewrite Hn. by destruct (ascii_dec c c).
Qed.

Lemma substring_prefix n s : strip_prefix (String.substring 0 n s) s <> None.
Proof.
  revert n. induction s as [|c s IH]; intros n; destruct n; cbn; try done. rewrite bool_decide_eq_true_2 by done. apply IH.
Qed.

Lemma substring_length n s : (n <= String.length s)%nat -> String.length (String.substring 0 n s) = n.
Proof. revert n. induction s as [|c s IH]; intros n; destruct n; cbn; [done|lia|done|]. intros Hx. rewrite IH; lia. Qed.

Lemma substring_forall p n s : str_forall p s = true -> str_forall p (String.substring 0 n s) = true.
Proof.
  revert n. induction s as [|c s IH]; intros n; destruct n; cbn; try done. rewrite !andb_true_iff. intros [Hx Hy]. auto.
Qed.

Lemma new_api_key_valid network raw :
  has_valid_api_key_checksum (fst (new_api_key network raw)) = true /\ starts_with API_KEY_PREFIX (fst (new_api_key network raw)) = true.
Proof using DL.
  split; [|unfold new_api_key; by case_bool_decide]. unfold new_api_key. cbn [fst]. set (body := "octo_sk_" +:+ _).
  change (body +:+ "_" +:+ checksum body) with (body +:+ String "_" (checksum body)).
  unfold has_valid_api_key_checksum. rewrite rsplit_once_spec.
  - unfold checksum, hash_api_key, hash_key. rewrite andb_true_iff. split.
    + apply Z.eqb_eq. unfold slen. rewrite substring_length; [done|]. rewrite hex_length, sha256_length. lia.
    + unfold starts_with. pose proof (substring_prefix 8 (hex_encode (sha256 (bytes_of body)))). by destruct (strip_prefix _ _).
  - unfold checksum, hash_key. apply substring_forall. eapply str_forall_impl; [|apply hex_digits]. intros c Hc.
    apply bool_decide_eq_true_2. intros <-. by vm_compute in Hc.
Qed.
End Tokens.

(** ** A concrete set of libraries

    A digest that pads, a decimal base64 and a length-prefixed JSON: they satisfy the laws and can be
    run. *)

Module Sample.
#[export] Instance digest : Digest := {|
  sha256 m := take 32 (m ++ repeat 0 32);
  hex_encode l := string_of_list_ascii (flat_map (fun z => [Net.hex_char (Z.land (Z.shiftr z 4) 15); Net.hex_char (Z.land z 15)]) l)
|}.

Lemma hex_char_digit d : 0 <= d < 16 -> is_ascii_hexdigit (Net.hex_char d) = true.
Proof.
  intros Hd. assert (Ht : forallb (fun d => is_ascii_hexdigit (Net.hex_char d)) (map Z.of_nat (seq 0 16)) = true)
    by (vm_compute; reflexivity).
  rewrite forallb_forall in Ht. apply Ht, in_map_iff. exists (Z.to_nat d). split; [lia|]. apply in_seq. lia.
Qed.

#[export] Instance digest_laws : DigestLaws.
Proof.
  constructor.
  - intros m. change (length (take 32 (m ++ repeat 0 32)) = 32%nat). rewrite length_take, length_app, repeat_length. lia.
  - intros l. cbn. induction l as [|z l IH]; cbn; [done|]. rewrite IH. lia.
  - intros l. cbn. induction l as [|z l IH]; cbn; [done|].
    assert (H15 : forall a, 0 <= Z.land a 15 < 16) by (intros a; change 15 with (Z.ones 4); rewrite Z.land_ones by lia; apply Z.mod_pos_bound; lia).
    by rewrite !hex_char_digit, IH by apply H15.
Qed.

(** Each number as its sign and its decimal digits; read from the right with the weight of the
    next digit. *)
Definition digits (n : Z) : string := print_fixed (Z.to_nat (Z.log2 n + 1)) n.

Lemma digits_val n : 0 <= n -> dec_val (digits n) = n.
Proof.
  intros Hn. unfold digits. pose proof (Z.log2_nonneg n). rewrite dec_val_print_fixed, Z2Nat.id by lia. apply Z.mod_small.
  split; [done|]. apply Z.lt_le_trans with (2 ^ (Z.log2 n + 1)); [|apply Z.pow_le_mono_l; lia].
  destruct (Z.eq_dec n 0) as [->|]; [done|]. pose proof (Z.log2_spec n ltac:(lia)). unfold Z.succ in *. lia.
Qed.

Fixpoint decimals (l : list Z) : string :=
  match l with [] => "" | z :: l => String (if z <? 0 then "n" else "p") (digits (Z.abs z) +:+ decimals l) end.

Fixpoint decimals_read (s : string) : option (Z * Z * list Z) :=
  match s with
  | EmptyString => Some (0, 1, [])
  | String c r =>
      let* p := decimals_read r in let '(n, w, l) := p in
      if is_ascii_digit c then Some (n + (byte_val c - 48) * w, w * 10, l)
      else if ascii_dec c "p" then Some (0, 1, n :: l)
      else if ascii_dec c "n" then Some (0, 1, - n :: l) else None
  end.

Lemma decimals_read_digits s t l :
  all_digits s = true -> decimals_read t = Some (0, 1, l) -> decimals_read (s +:+ t) = Some (dec_val s, 10 ^ slen s, l).
Proof.
  intros Hs Ht. induction s as [|c s IH]; [exact Ht|]. cbn in Hs. apply andb_true_iff in Hs as [Hc Hs]. cbn [append decimals_read].
  rewrite IH by done. cbn [option_bind]. rewrite Hc. change (String c s) with (String c "" +:+ s).
  rewrite dec_val_app, slen_app. change (slen (String c "")) with 1. pose proof (slen_nonneg s).
  do 3 f_equal; [|rewrite Z.pow_add_r by lia; lia].
  assert (Ev : dec_val (String c "") = byte_val c - 48) by (unfold dec_val; cbn; lia). rewrite Ev. lia.
Qed.

Lemma decimals_roundtrip l : decimals_read (decimals l) = Some (0, 1, l).
Proof.
  induction l as [|z l IH]; [done|]. cbn [decimals decimals_read].
  rewrite (decimals_read_digits _ _ l) by (done || apply all_digits_print_fixed). cbn [option_bind].
  rewrite digits_val by lia. destruct (Z.ltb_spec z 0); cbn; do 3 f_equal; lia.
Qed.

#[export] Instance base64 : Base64Url := {|
  b64 := decimals;
  b64_decode s := match decimals_read s with Some (0, 1, l) => Some l | _ => None end
|}.

#[export] Instance base64_laws : Base64Laws.
Proof.
  constructor; intros l; cbn.
  - by rewrite decimals_roundtrip.
  - assert (Hd : forall n, str_forall (fun c => is_ascii_alphanumeric c || bool_decide (c = "-"%char) || bool_decide (c = "_"%char)) (digits n) = true).
    { intros n. eapply str_forall_impl; [|apply all_digits_print_fixed]. intros c Hc. unfold is_ascii_alphanumeric.
      unfold is_ascii_digit in Hc. by rewrite Hc. }
    induction l as [|z l IH]; [done|]. cbn [decimals str_forall]. rewrite str_forall_app, Hd, IH. by destruct (z <? 0).
Qed.

(** Fields with their length in front. *)
Definition put (s : string) : list Z := Z.of_nat (length (bytes_of s)) :: bytes_of s.
Definition get (l : list Z) : option (string * list Z) :=
  match l with [] => None | n :: r => Some (str_of (take (Z.to_nat n) r), drop (Z.to_nat n) r) end.

Lemma get_put s r : get (put s ++ r) = Some (s, r).
Proof.
  unfold get, put. cbn. rewrite Nat2Z.id, take_app_length, drop_app_length. by rewrite str_of_bytes_of.
Qed.

#[export] Instance json : JwtJson := {|
  header_to_vec h := Some (put (alg h) ++ put (typ h) ++ put (kid h));
  header_from_slice l :=
    let* p := get l in let '(a, l) := p in let* p := get l in let '(t, l) := p in let* p := get l in let '(k, l) := p in
    Some (mkJwtHeader a t k);
  claims_to_vec c := Some (put (sub c) ++ put (jti c) ++ put (iss c) ++ put (aud c)
                            ++ exp c :: epoch c :: match sid c with None => [] | Some u => [u] end);
  claims_from_slice l :=
    let* p := get l in let '(s, l) := p in let* p := get l in let '(j, l) := p in
    let* p := get l in let '(i, l) := p in let* p := get l in let '(a, l) := p in
    match l with
    | [x; e] => Some (mkClaims s x j e i a None)
    | [x; e; u] => Some (mkClaims s x j e i a (Some u))
    | _ => None
    end
|}.

#[export] Instance json_laws : JwtJsonLaws.
Proof.
  constructor.
  - intros [a t k]. eexists. split; [reflexivity|]. cbn [header_from_slice json alg typ kid]. rewrite get_put. cbn [option_bind].
    rewrite get_put. cbn [option_bind]. rewrite <- (app_nil_r (put k)), get_put. done.
  - intros [s x j e i a [u|]]; (eexists; split; [reflexivity|]; cbn [claims_from_slice json sub jti iss aud exp epoch sid];
      do 4 (rewrite get_put; cbn [option_bind]); done).
Qed.

Definition config : Config := mkConfig None None None None None None.
Definition secret : list Z := repeat 7 32.
End Sample.

#[local] Existing Instances AuditLog.checksum Users.dec_uuid Sample.digest Sample.digest_laws Sample.base64 Sample.base64_laws
  Sample.json Sample.json_laws.

Lemma token_roundtrip_witness :
  exists tok, issue_token Sample.config Sample.secret 1000 8 2 0 (Some 5) = Ok tok /\
    verify_token Sample.config Sample.secret 605800 tok =
      Some (mkClaims "2" 605800 "8" 0 "octo-api" "octo-clients" (Some 5)) /\
    verify_token Sample.config Sample.secret 605801 tok = None.
Proof.
  destruct (token_roundtrip Sample.config Sample.secret 1000 8 2 0 (Some 5)) as (tok & E & Hv). exists tok.
  split; [exact E|]. split.
  - exact (proj1 (Hv Sample.config Sample.secret 605800 eq_refl eq_refl) eq_refl).
  - exact (proj1 (Hv Sample.config Sample.secret 605801 eq_refl eq_refl) eq_refl).
Defined.
End Token.
