(* ===== verification/Auth.v ===== *)
(** * Authentication: the handlers

    [crates/api/src/auth.rs], [routes/sessions.rs], [routes/apikeys.rs] and the audit helpers
    of [audit.rs], over the whole database of an account ([Account.Db]). Everything outside the
    database (the clock, randomness, the rate limiter, the mail provider) is a service of the
    class [Env]. *)

From S2P Require Import Prelude Db Store Otp AuditChain AuditLog Users Account ApiHorizon RateLimit Net Email Token.

Module Auth.
Import Db.
Import Store (Uuid).
Import Users (SqlLower, UuidText, uuid_text, parse_uuid).
Import ApiHorizon (ApiError(..), from_store_error).
Import Email (Digest, Body, EmailError).
Import Token.
Local Open Scope db_scope.

(** ** Services *)

Class Env (X : Type) := {
  (** The process's clock, in microseconds since the epoch. *)
  utc_now : X -> Z * X;
  (** [RateLimiter::check] with key, class, limit and window in seconds. *)
  rate_check : string -> string -> Z -> Z -> X -> bool * X;
  (** [OsRng]: a number below the bound, a salt, bytes, an identifier. *)
  gen_range : Z -> X -> Z * X;
  gen_salt : X -> string * X;
  fill_bytes : nat -> X -> list Z * X;
  new_v4 : X -> Uuid * X;
  (** [EmailSender::send]: recipient, subject, message. *)
  send_mail : string -> string -> Body -> X -> result unit EmailError * X
}.

(** [AppState], as far as the handlers read it, and the environment variables. *)
Record AppState := mkAppState {
  jwt_secret : list Z;
  audit_chain_key : list Z;
  config : Config;
  TRUSTED_PROXY_CIDRS : option string;
  current_year : string
}.

(** A request's body: empty, a value of the expected type, or something else. *)
Inductive Payload (T : Type) := Empty | Json (value : T) | Malformed.
Arguments Empty {T}.
Arguments Json {T} value.
Arguments Malformed {T}.

Definition parse_optional {T} (default_ : T) (body : Payload T) : result T ApiError :=
  match body with Empty => Ok default_ | Json v => Ok v | Malformed => Err (BadRequest "invalid JSON body") end.

Definition internal {E} (e : E) : ApiError := Internal.
Definition same (e : ApiError) : ApiError := e.

Section Handlers.
Context `{Digest} `{AuditChain.Hmac} `{Base64Url} `{JwtJson} `{Argon2} `{Lowercase} `{UuidText} `{SqlLower}.
Context {X : Type} `{Env X}.
Variable rank : Otp.Row -> Z.
Variable state : AppState.
Notation M := (M Account.Db X).

(** ** Store methods *)

Definition get_user (id : Uuid) : M (result (option Users.User) StoreError) :=
  do r <- query (fun _ d => Users.get_user id (Account.d_users d)); ret (map_err from_sqlx r).

Definition find_user_by_email (email : string) : M (result (option Users.User) StoreError) :=
  do r <- query (fun _ d => Users.find_user_by_email email (Account.d_users d)); ret (map_err from_sqlx r).

Definition auth_locked_until (email : string) : M (result (option Z) StoreError) :=
  do r <- query (fun now d => Users.auth_locked_until email now (Account.d_users d)); ret (map_err from_sqlx r).

Definition users_call {A} (conv : sqlx_error -> StoreError) (stmt : Z -> Users.State -> result A sqlx_error * Users.State) :
    M (result A StoreError) :=
  do r <- db_call (Account.on_users stmt); ret (map_err conv r).

Definition create_user (email hash : string) := users_call from_sqlx_conflict (Users.create_user_stmt email hash).
Definition set_username (user_id : Uuid) (username : string) :=
  users_call from_sqlx_conflict (Users.update_username_stmt user_id username).
Definition record_auth_failure (email : string) := users_call from_sqlx (Users.record_auth_failure_stmt email).
Definition reset_auth_failures (email : string) := users_call from_sqlx (Users.reset_auth_failures_stmt email).
Definition rehash_password (user_id : Uuid) (hash : string) := users_call from_sqlx (Users.rehash_password_stmt user_id hash).
Definition mark_email_verified (user_id : Uuid) := users_call from_sqlx (Users.mark_email_verified_stmt user_id).
Definition create_session (user_id : Uuid) (ua : option string) (expires_at : Z) :=
  users_call from_sqlx (Users.create_session_stmt user_id ua expires_at).
Definition extend_session (user_id sid : Uuid) (expires_at : Z) :=
  users_call from_sqlx (Users.extend_session_stmt user_id sid expires_at).
Definition is_session_valid (hash : string) (user_id : Uuid) (e : Z) (sid : option Uuid) :=
  users_call from_sqlx (Users.is_session_valid_stmt hash user_id e sid).
Definition revoke_session_row (user_id sid : Uuid) := users_call from_sqlx (Users.revoke_session_stmt user_id sid).
Definition denylist_token (hash : string) (user_id : Uuid) (expires_at : Z) :=
  users_call from_sqlx (Users.denylist_token_stmt hash user_id expires_at).
Definition use_api_key (hash : string) := users_call from_sqlx (Users.use_api_key_stmt hash).

Definition flatten {A} (m : M (result (result A StoreError) StoreError)) : M (result A StoreError) :=
  do r <- m; ret match r with Ok r => r | Err e => Err e end.

Definition store_change_password (user_id : Uuid) (hash : string) (keep : option Uuid) : M (result (Z * Z) StoreError) :=
  flatten (users_call from_sqlx (Users.change_password_tx user_id hash keep)).

Definition store_revoke_others (user_id : Uuid) (keep : option Uuid) : M (result (Z * Z) StoreError) :=
  flatten (users_call from_sqlx (Users.revoke_other_sessions_tx user_id keep)).

Definition update_email (user_id : Uuid) (email : string) : M (result Users.User StoreError) :=
  do r <- users_call from_sqlx_conflict (Users.update_email_stmt user_id email);
  ret match r with Ok (Some u) => Ok u | Ok None => Err Db.NotFound | Err e => Err e end.

Definition delete_unverified_user (user_id : Uuid) : M (result unit StoreError) :=
  do r <- db_call (Account.delete_unverified_user_stmt user_id); ret (map_err from_sqlx r).

Definition create_otp (user_id : Uuid) (purpose code_hash : string) (bound_to : option string) (ttl : Z) :
    M (result Uuid StoreError) :=
  do r <- db_call (Account.on_otp (Otp.create_stmt user_id purpose code_hash bound_to ttl)); ret (map_err from_sqlx r).

Definition verify_and_consume_otp (user_id : Uuid) (purpose code_hash : string) (bound_to : option string) :
    M (result unit StoreError) :=
  try claimed <- db_call (Account.on_otp (Otp.claim_stmt rank user_id purpose)) | from_sqlx;
  match claimed with
  | None => ret (Err InvalidOtp)
  | Some r =>
      if negb (Otp.accepts code_hash bound_to r) then ret (Err InvalidOtp) else
      try affected <- db_call (Account.on_otp (Otp.consume_stmt (Otp.o_id r))) | from_sqlx;
      if negb (affected =? 1) then ret (Err InvalidOtp) else ret (Ok tt)
  end.

Definition get_wallet (wallet_id : Uuid) : M (result Store.Wallet StoreError) :=
  do r <- query (fun _ d => List.find (fun w => bool_decide (Store.w_id w = wallet_id)) (Store.wallets (Account.d_core d)));
  ret match r with Ok (Some w) => Ok w | Ok None => Err Db.NotFound | Err e => Err (from_sqlx e) end.

(** ** [audit.rs] *)

Definition AUTH : string := "authentication".
Definition CREDENTIALS : string := "credentials".

Definition record_audit (user_id : Uuid) (action category : string) (target ip : option string) : M (result unit StoreError) :=
  do created_at <- ext_call utc_now;
  flatten (do r <- db_call (Account.on_audit
                     (AuditChain.record_audit_tx (audit_chain_key state) user_id action category target ip created_at));
           ret (map_err from_sqlx r)).

Definition client_ip (headers : HeaderMap) : option string := Net.audit_client_ip (x_forwarded_for headers) (x_real_ip headers).

Definition record (user_id : Uuid) (action category : string) (target : option string) (headers : HeaderMap) : M unit :=
  do _ <- record_audit user_id action category target (client_ip headers); ret tt.

Definition record_strict (user_id : Uuid) (action category : string) (target : option string) (headers : HeaderMap) :
    M (result unit ApiError) :=
  do r <- record_audit user_id action category target (client_ip headers); ret (map_err internal r).

(** ** Tokens and sessions *)

Record AuthenticatedSession := mkAuthenticatedSession { user_id : Uuid; session_id : option Uuid; expires_at : Z }.

Definition second : Z := 1000000.

(** [now_secs]: zero before the epoch. *)
Definition now_secs : M Z := do now <- ext_call utc_now; ret (if now <? 0 then 0 else now / second).

Definition session_expiry : M Z := do now <- ext_call utc_now; ret (now + TOKEN_TTL_SECS * second).

Definition issue (user : Uuid) (session_epoch : Z) (sid : option Uuid) : M (result string ApiError) :=
  do now <- now_secs;
  do token_id <- ext_call new_v4;
  ret (issue_token (config state) (jwt_secret state) now token_id user session_epoch sid).

Definition start_session (user : Uuid) (session_epoch : Z) (headers : HeaderMap) : M (result string ApiError) :=
  do until <- session_expiry;
  try session <- create_session user (user_agent_hash headers) until | internal;
  issue user session_epoch (Some (Users.se_id session)).

Definition continue_session (session : AuthenticatedSession) (session_epoch : Z) (headers : HeaderMap) :
    M (result string ApiError) :=
  match session_id session with
  | None => start_session (user_id session) session_epoch headers
  | Some sid =>
      do until <- session_expiry;
      try extended <- extend_session (user_id session) sid until | internal;
      if negb extended then ret (Err Unauthorized)
      else issue (user_id session) session_epoch (Some sid)
  end.

(** [DateTime::from_timestamp(secs, 0)]: the years -262143 to 262142. *)
Definition from_timestamp (secs : Z) : option Z :=
  if in_range (-8334601228800) 8210266876799 secs then Some (secs * second) else None.

Definition denylist (token : string) (session : AuthenticatedSession) : M (result unit ApiError) :=
  do until <- match from_timestamp (expires_at session) with
              | Some t => ret t
              | None => ext_call utc_now
              end;
  do r <- denylist_token (hash_token token) (user_id session) until;
  ret (map_err internal r).

Definition verify (token : string) : M (option Claims) :=
  do now <- now_secs; ret (verify_token (config state) (jwt_secret state) now token).

(** Signature, expiry and subject of the bearer token. *)
Definition bearer_claims (headers : HeaderMap) : M (result (string * Uuid * Claims) ApiError) :=
  match bearer headers with
  | None => ret (Err Unauthorized)
  | Some token =>
      do claims <- verify token;
      ret match claims with
          | None => Err Unauthorized
          | Some claims => match parse_uuid (sub claims) with
                           | None => Err Unauthorized
                           | Some user => Ok (token, user, claims)
                           end
          end
  end.

Definition authenticate_session (headers : HeaderMap) : M (result AuthenticatedSession ApiError) :=
  try p <- bearer_claims headers | same; let '(token, user, claims) := p in
  try valid <- is_session_valid (hash_token token) user (epoch claims) (sid claims) | internal;
  if negb valid then ret (Err Unauthorized)
  else ret (Ok (mkAuthenticatedSession user (sid claims) (exp claims))).

Definition authenticate (headers : HeaderMap) : M (result Uuid ApiError) :=
  try s <- authenticate_session headers | same; ret (Ok (user_id s)).

Definition require_login_session (headers : HeaderMap) : M (result AuthenticatedSession ApiError) :=
  match bearer headers with
  | Some tok => if starts_with API_KEY_PREFIX tok then ret (Err Unauthorized) else authenticate_session headers
  | None => authenticate_session headers
  end.

Definition require_login (headers : HeaderMap) : M (result Uuid ApiError) :=
  try s <- require_login_session headers | same; ret (Ok (user_id s)).

Definition authorize_wallet_scope (headers : HeaderMap) (wallet_id : Uuid) (required_scope : string) :
    M (result unit ApiError) :=
  match bearer headers with
  | None => ret (Err Unauthorized)
  | Some token =>
      if starts_with API_KEY_PREFIX token then
        if negb (has_valid_api_key_checksum token) then ret (Err Unauthorized) else
        try key <- use_api_key (hash_api_key token) | internal;
        match key with
        | None => ret (Err Unauthorized)
        | Some key =>
            if negb (bool_decide (Users.k_wallet_id key = wallet_id)) then ret (Err NotFound) else
            if negb (existsb (fun scope => bool_decide (scope = required_scope)) (Users.k_scopes key))
            then ret (Err (Forbidden "API key lacks the required scope"))
            else ret (Ok tt)
        end
      else
        try user <- authenticate headers | same;
        try wallet <- get_wallet wallet_id | from_store_error;
        if negb (bool_decide (Store.w_user_id wallet = Some user)) then ret (Err NotFound) else ret (Ok tt)
  end.

Definition authorize_wallet (headers : HeaderMap) (wallet_id : Uuid) := authorize_wallet_scope headers wallet_id "read".

(** ** Rate limits and codes *)

Definition rate_limited (key class : string) (limit window : Z) (message : string) : M (result unit ApiError) :=
  do allowed <- ext_call (rate_check key class limit window);
  ret (if allowed then Ok tt else Err (TooManyRequests message)).

Definition peer_ip (headers : HeaderMap) (peer : option Net.IpAddr) : string :=
  Net.client_ip (TRUSTED_PROXY_CIDRS state) (x_forwarded_for headers) peer.

Definition check_auth_rate_limit (headers : HeaderMap) (peer : option Net.IpAddr) : M (result unit ApiError) :=
  rate_limited (peer_ip headers peer) "auth" 10 60 "too many attempts — wait a minute and try again".

Definition OTP_TTL : Z := 10 * 60 * second.

Definition issue_otp (user : Uuid) (purpose to_ : string) (bound_to : option string) : M (result unit ApiError) :=
  do n <- ext_call (gen_range 1000000);
  let code := Email.generate_otp n in
  try _ <- create_otp user purpose (Email.hash_otp code) bound_to OTP_TTL | internal;
  do sent <- ext_call (send_mail to_ "Your Octo verification code" (Email.otp_email (current_year state) code purpose));
  ret (map_err internal sent).

Definition issue_signup_otp (user : Uuid) (email : string) : M (result unit ApiError) := issue_otp user "signup" email None.

(** ** Handlers of [auth.rs] *)

Record UserView := mkUserView { v_id : Uuid; v_email : string; v_username : option string }.
Record AuthResponse := mkAuthResponse { r_token : string; r_user : UserView }.
Record VerificationRequiredResponse := mkVerificationRequired { r_user_id : Uuid; email_verification_required : bool }.

Definition view (u : Users.User) : UserView := mkUserView (Users.u_id u) (Users.u_email u) (Users.u_username u).

Definition hash_new_password (password : string) : M (result string ApiError) :=
  do salt <- ext_call gen_salt; ret (hash_password (config state) salt password).

Definition signup (peer : option Net.IpAddr) (headers : HeaderMap) (body : Payload Credentials) :
    M (result VerificationRequiredResponse ApiError) :=
  try _ <- check_auth_rate_limit headers peer | same;
  try creds <- ret (parse_optional (mkCredentials None None) body) | same;
  try p <- ret (validate creds) | same; let '(email, password) := p in
  try hash <- hash_new_password password | same;
  do made <- create_user email hash;
  try p <- match made with
           | Ok user => ret (Ok (user, true))
           | Err Db.Conflict =>
               try found <- find_user_by_email email | internal;
               ret match found with Some user => Ok (user, false) | None => Err Internal end
           | Err _ => ret (Err Internal)
           end | same;
  let '(user, created) := p in
  do _ <- (if created : bool then record (Users.u_id user) "created an account" AUTH None headers else ret tt);
  do sent <- issue_signup_otp (Users.u_id user) (Users.u_email user);
  match sent with
  | Err e =>
      do _ <- (if created : bool then (do _ <- delete_unverified_user (Users.u_id user); ret tt) else ret tt);
      ret (Err e)
  | Ok _ => ret (Ok (mkVerificationRequired (Users.u_id user) true))
  end.

Definition code_of (code : option string) : result string ApiError :=
  ok_or (opt_filter (fun c => negb (is_empty c)) code) (BadRequest "code is required").

Record VerifyEmailRequest := mkVerifyEmailRequest { ve_user_id : option Uuid; ve_code : option string }.

Definition invalid_code {E} (e : E) : ApiError := BadRequest "invalid or expired code".

Definition verify_email (headers : HeaderMap) (body : Payload VerifyEmailRequest) : M (result AuthResponse ApiError) :=
  try req <- ret (parse_optional (mkVerifyEmailRequest None None) body) | same;
  try user_id <- ret (ok_or (ve_user_id req) (BadRequest "user_id is required")) | same;
  try code <- ret (code_of (ve_code req)) | same;
  try _ <- verify_and_consume_otp user_id "signup" (Email.hash_otp code) None | invalid_code;
  try found <- get_user user_id | internal;
  match found with
  | None => ret (Err NotFound)
  | Some user =>
      try _ <- mark_email_verified user_id | internal;
      do _ <- ext_call (send_mail (Users.u_email user) "Welcome to Octo"
                          (Email.welcome_email (current_year state) (Users.u_email user)));
      try token <- start_session (Users.u_id user) (Users.u_session_epoch user) headers | same;
      ret (Ok (mkAuthResponse token (view user)))
  end.

Definition resend_otp (peer : option Net.IpAddr) (headers : HeaderMap) (body : Payload (option Uuid)) : M (result json ApiError) :=
  try _ <- check_auth_rate_limit headers peer | same;
  try req <- ret (parse_optional None body) | same;
  try user_id <- ret (ok_or req (BadRequest "user_id is required")) | same;
  let wait := "too many resend attempts — wait a while and try again" in
  try _ <- rate_limited ("otp:" +:+ uuid_text user_id) "otp_resend" 3 3600 wait | same;
  try _ <- rate_limited (peer_ip headers peer) "otp_resend_ip" 10 3600 wait | same;
  try found <- get_user user_id | internal;
  match found with
  | None => ret (Err NotFound)
  | Some user =>
      try _ <- issue_signup_otp (Users.u_id user) (Users.u_email user) | same;
      ret (Ok (JObj [("sent", JBool true)]))
  end.

Inductive LoginResponse := Unverified (r : VerificationRequiredResponse) | SignedIn (r : AuthResponse).

Definition invalid_credentials : ApiError := BadRequest "invalid email or password".

(** The comparison with the hash of a dummy password, whose result is dropped, is left out. *)
Definition login (peer : option Net.IpAddr) (headers : HeaderMap) (body : Payload Credentials) : M (result LoginResponse ApiError) :=
  try _ <- check_auth_rate_limit headers peer | same;
  try creds <- ret (parse_optional (mkCredentials None None) body) | same;
  try p <- ret (validate creds) | same; let '(email, password) := p in
  try locked <- auth_locked_until email | internal;
  if bool_decide (is_Some locked) then ret (Err invalid_credentials) else
  try found <- find_user_by_email email | internal;
  match found with
  | None => try _ <- record_auth_failure email | internal; ret (Err invalid_credentials)
  | Some user =>
      if negb (is_ok (verify_password (config state) password (Users.u_password_hash user))) then
        try _ <- record_auth_failure email | internal; ret (Err invalid_credentials)
      else
        try _ <- reset_auth_failures email | internal;
        try _ <- (if password_hash_needs_upgrade (config state) (Users.u_password_hash user) then
                    try upgraded <- hash_new_password password | same;
                    do r <- rehash_password (Users.u_id user) upgraded;
                    ret (map_err internal r)
                  else ret (Ok tt)) | same;
        if bool_decide (Users.u_email_verified_at user = None) then
          try _ <- issue_signup_otp (Users.u_id user) (Users.u_email user) | same;
          ret (Ok (Unverified (mkVerificationRequired (Users.u_id user) true)))
        else
          do _ <- record (Users.u_id user) "signed in" AUTH None headers;
          try token <- start_session (Users.u_id user) (Users.u_session_epoch user) headers | same;
          ret (Ok (SignedIn (mkAuthResponse token (view user))))
  end.

Definition refresh (headers : HeaderMap) : M (result AuthResponse ApiError) :=
  try session <- authenticate_session headers | same;
  try found <- get_user (user_id session) | internal;
  match found with
  | None => ret (Err NotFound)
  | Some user =>
      try _ <- match bearer headers with
               | Some old_token => denylist old_token session
               | None => ret (Ok tt)
               end | same;
      do _ <- record (Users.u_id user) "refreshed session token" AUTH None headers;
      try token <- continue_session session (Users.u_session_epoch user) headers | same;
      ret (Ok (mkAuthResponse token (view user)))
  end.

Definition CHANGE_PASSWORD_ATTEMPTS : Z := 5.

Record ChangePasswordRequest := mkChangePassword { current_password : option string; new_password : option string }.

(** A password to be checked: not empty, at most 128 bytes. *)
Definition given_password (field : string) (p : option string) : result string ApiError :=
  ok_or (opt_filter (fun p => negb (is_empty p) && (slen p <=? 128)) p) (BadRequest (field +:+ " is required")).

Definition change_password (peer : option Net.IpAddr) (headers : HeaderMap) (body : Payload ChangePasswordRequest) :
    M (result AuthResponse ApiError) :=
  try _ <- check_auth_rate_limit headers peer | same;
  try session <- require_login_session headers | same;
  try _ <- rate_limited (uuid_text (user_id session)) "change_password" CHANGE_PASSWORD_ATTEMPTS (15 * 60)
             "too many attempts — wait a while and try again" | same;
  try req <- ret (parse_optional (mkChangePassword None None) body) | same;
  try current <- ret (given_password "current_password" (current_password req)) | same;
  try new <- ret (ok_or (opt_filter (fun p => in_range 8 128 (slen p)) (new_password req))
                    (BadRequest "new_password must be 8-128 bytes")) | same;
  if bool_decide (new = current) then ret (Err (BadRequest "new_password must differ from the current password")) else
  try found <- get_user (user_id session) | internal;
  match found with
  | None => ret (Err Unauthorized)
  | Some user =>
      if negb (is_ok (verify_password (config state) current (Users.u_password_hash user)))
      then ret (Err (BadRequest "current password is incorrect")) else
      try hash <- hash_new_password new | same;
      try changed <- store_change_password (user_id session) hash (session_id session) | internal;
      do _ <- record (user_id session) "changed password" AUTH None headers;
      try token <- continue_session session (fst changed) headers | same;
      ret (Ok (mkAuthResponse token (view user)))
  end.

Definition me (headers : HeaderMap) : M (result UserView ApiError) :=
  try user_id <- authenticate headers | same;
  try found <- get_user user_id | internal;
  match found with None => ret (Err NotFound) | Some user => ret (Ok (view user)) end.

Definition update_username (headers : HeaderMap) (body : Payload (option string)) : M (result UserView ApiError) :=
  try user_id <- authenticate headers | same;
  try req <- ret (parse_optional None body) | same;
  try username <- ret (validate_username req) | same;
  try user <- set_username user_id username
    | (fun e => match e with Db.Conflict => BadRequest "username already taken" | _ => Internal end);
  ret (Ok (view user)).

Definition send_password_reset_otp (email : string) : M (result unit ApiError) :=
  try found <- find_user_by_email email | internal;
  match found with
  | None => ret (Ok tt)
  | Some user =>
      if bool_decide (Users.u_email_verified_at user = None) then ret (Ok tt) else
      do allowed <- ext_call (rate_check ("pwreset:" +:+ uuid_text (Users.u_id user)) "pw_reset_send" 3 (60 * 60));
      if negb allowed then ret (Ok tt)
      else issue_otp (Users.u_id user) "password_reset" (Users.u_email user) None
  end.

(** The response, and the email for which [send_password_reset_otp] runs in the background. *)
Definition request_password_reset (peer : option Net.IpAddr) (headers : HeaderMap) (body : Payload (option string)) :
    M (result (json * string) ApiError) :=
  try _ <- check_auth_rate_limit headers peer | same;
  try req <- ret (parse_optional None body) | same;
  try email <- ret (normalize_email req) | same;
  ret (Ok (JObj [("sent", JBool true)], email)).

Record ConfirmPasswordResetRequest := mkConfirmReset { cr_email : option string; cr_code : option string; cr_new_password : option string }.

Definition confirm_password_reset (peer : option Net.IpAddr) (headers : HeaderMap) (body : Payload ConfirmPasswordResetRequest) :
    M (result json ApiError) :=
  try _ <- check_auth_rate_limit headers peer | same;
  try req <- ret (parse_optional (mkConfirmReset None None None) body) | same;
  try p <- ret (validate (mkCredentials (cr_email req) (cr_new_password req))) | same; let '(email, password) := p in
  try code <- ret (code_of (cr_code req)) | same;
  try found <- find_user_by_email email | internal;
  match found with
  | None => ret (Err (invalid_code tt))
  | Some user =>
      try _ <- verify_and_consume_otp (Users.u_id user) "password_reset" (Email.hash_otp code) None | invalid_code;
      try hash <- hash_new_password password | same;
      try _ <- store_change_password (Users.u_id user) hash None | internal;
      do _ <- record (Users.u_id user) "reset their password" AUTH None headers;
      ret (Ok (JObj [("reset", JBool true)]))
  end.

Record RequestEmailChangeRequest := mkRequestEmailChange { re_new_email : option string; re_password : option string }.

Definition taken : ApiError := BadRequest "email already registered".

Definition request_email_change (peer : option Net.IpAddr) (headers : HeaderMap) (body : Payload RequestEmailChangeRequest) :
    M (result json ApiError) :=
  try _ <- check_auth_rate_limit headers peer | same;
  try user_id <- require_login headers | same;
  try req <- ret (parse_optional (mkRequestEmailChange None None) body) | same;
  try new_email <- ret (normalize_email (re_new_email req)) | same;
  try password <- ret (given_password "password" (re_password req)) | same;
  try _ <- rate_limited ("emailchange:" +:+ uuid_text user_id) "email_change_request" 5 (60 * 60)
             "too many attempts — wait a while and try again" | same;
  try found <- get_user user_id | internal;
  match found with
  | None => ret (Err Unauthorized)
  | Some user =>
      if negb (is_ok (verify_password (config state) password (Users.u_password_hash user)))
      then ret (Err (BadRequest "incorrect password")) else
      if bool_decide (new_email = Users.u_email user) then ret (Err taken) else
      try other <- find_user_by_email new_email | internal;
      if bool_decide (is_Some other) then ret (Err taken) else
      try _ <- issue_otp (Users.u_id user) "email_change" new_email (Some new_email) | same;
      ret (Ok (JObj [("sent", JBool true)]))
  end.

Record ConfirmEmailChangeRequest := mkConfirmEmailChange { ce_new_email : option string; ce_code : option string }.

Definition confirm_email_change (peer : option Net.IpAddr) (headers : HeaderMap) (body : Payload ConfirmEmailChangeRequest) :
    M (result UserView ApiError) :=
  try _ <- check_auth_rate_limit headers peer | same;
  try user_id <- require_login headers | same;
  try req <- ret (parse_optional (mkConfirmEmailChange None None) body) | same;
  try new_email <- ret (normalize_email (ce_new_email req)) | same;
  try code <- ret (code_of (ce_code req)) | same;
  try found <- get_user user_id | internal;
  match found with
  | None => ret (Err Unauthorized)
  | Some old =>
      try _ <- verify_and_consume_otp user_id "email_change" (Email.hash_otp code) (Some new_email) | invalid_code;
      try user <- update_email user_id new_email | (fun e => match e with Db.Conflict => taken | _ => Internal end);
      do _ <- record user_id "changed their email" AUTH (Some new_email) headers;
      do _ <- ext_call (send_mail (Users.u_email old) "Your Octo login email was changed"
                          (Email.email_changed_email (current_year state) new_email));
      ret (Ok (view user))
  end.

Definition logout (headers : HeaderMap) : M (result json ApiError) :=
  try p <- bearer_claims headers | same; let '(token, user, claims) := p in
  let session := mkAuthenticatedSession user (sid claims) (exp claims) in
  try _ <- denylist token session | same;
  try _ <- match session_id session with
           | Some sid => (do r <- revoke_session_row user sid; ret (map_err internal r))
           | None => ret (Ok false)
           end | same;
  do _ <- record user "logged out" AUTH None headers;
  ret (Ok (JObj [("message", JStr "logged out")])).

(** ** [routes/sessions.rs] *)

Record SessionView := mkSessionView {
  sv_id : Uuid;
  sv_created_at : Z;
  sv_last_seen_at : Z;
  sv_expires_at : Z;
  sv_user_agent_hash : option string;
  sv_current : bool
}.

Definition list_sessions (headers : HeaderMap) : M (result (list SessionView) ApiError) :=
  try caller <- require_login_session headers | same;
  try rows <- query (fun now d => Users.list_active_sessions (user_id caller) now (Account.d_users d)) | internal;
  ret (Ok (map (fun s => mkSessionView (Users.se_id s) (Users.se_created_at s) (Users.se_last_seen_at s) (Users.se_expires_at s)
                           (Users.se_user_agent_hash s) (bool_decide (session_id caller = Some (Users.se_id s)))) rows)).

Definition revoke_session (headers : HeaderMap) (sid : Uuid) : M (result json ApiError) :=
  try caller <- require_login_session headers | same;
  try revoked <- revoke_session_row (user_id caller) sid | internal;
  if negb revoked then ret (Err NotFound) else
  do _ <- record (user_id caller) "revoked a session" AUTH (Some (uuid_text sid)) headers;
  ret (Ok (JObj [("revoked", JBool true)])).

Definition revoke_other_sessions (headers : HeaderMap) : M (result (string * Z) ApiError) :=
  try caller <- require_login_session headers | same;
  try p <- store_revoke_others (user_id caller) (session_id caller) | internal; let '(new_epoch, revoked) := p in
  try token <- continue_session caller new_epoch headers | same;
  do _ <- record (user_id caller) "revoked all other sessions" AUTH (Some (print_int revoked +:+ " sessions")) headers;
  ret (Ok (token, revoked)).

(** ** [routes/apikeys.rs] *)

Record GenerateKeyRequest := mkGenerateKey { confirm : option bool; scopes : option (list string); expires_in_days : option Z }.
Record GeneratedKey := mkGeneratedKey { g_wallet_id : Uuid; g_api_key : string; g_prefix : string }.
Record ApiKeyInfo := mkApiKeyInfo {
  i_wallet_id : Uuid;
  i_configured : bool;
  i_prefix : option string;
  i_scopes : list string;
  i_last_used_at : option Z;
  i_expires_at : option Z
}.

Definition owned_wallet (headers : HeaderMap) (wallet_id : Uuid) : M (result Store.Wallet ApiError) :=
  try user <- authenticate headers | same;
  try wallet <- get_wallet wallet_id | from_store_error;
  if negb (bool_decide (Store.w_user_id wallet = Some user)) then ret (Err NotFound) else ret (Ok wallet).

Definition is_scope (scope : string) : bool :=
  bool_decide (scope = "read") || bool_decide (scope = "write") || bool_decide (scope = "sponsor").

Definition record_owner (wallet : Store.Wallet) (action : string) (headers : HeaderMap) : M unit :=
  match Store.w_user_id wallet with
  | Some uid => record uid action CREDENTIALS (Store.w_label wallet) headers
  | None => ret tt
  end.

Definition generate_key (wallet_id : Uuid) (headers : HeaderMap) (body : Payload GenerateKeyRequest) : M (result GeneratedKey ApiError) :=
  try wallet <- owned_wallet headers wallet_id | same;
  try req <- ret (parse_optional (mkGenerateKey None None None) body) | same;
  let rotate := bool_decide (confirm req = Some true) in
  let scopes := default ["read"; "write"; "sponsor"] (scopes req) in
  if bool_decide (scopes = []) || existsb (fun scope => negb (is_scope scope)) scopes
  then ret (Err (BadRequest "invalid API key scopes")) else
  do until <- match expires_in_days req with
              | Some days => (do now <- ext_call utc_now; ret (Some (now + clampZ 1 365 days * Users.day)))
              | None => ret None
              end;
  do raw <- ext_call (fill_bytes 16);
  let '(api_key, prefix) := new_api_key (Store.w_network wallet) raw in
  do stored <- users_call from_sqlx
                 (if rotate then Users.upsert_api_key_stmt wallet_id prefix (hash_key api_key) scopes until
                  else Users.create_api_key_stmt wallet_id prefix (hash_key api_key) scopes until);
  match stored with
  | Err Db.Conflict => ret (Err (ConflictWith "an API key already exists; pass confirm=true to rotate it"))
  | Err _ => ret (Err Internal)
  | Ok _ =>
      do _ <- record_owner wallet (if rotate then "rotated an API key" else "generated an API key") headers;
      ret (Ok (mkGeneratedKey wallet_id api_key prefix))
  end.

Definition delete_key (wallet_id : Uuid) (headers : HeaderMap) : M (result string ApiError) :=
  try wallet <- owned_wallet headers wallet_id | same;
  try _ <- users_call from_sqlx (Users.delete_api_key_stmt wallet_id) | internal;
  do _ <- record_owner wallet "revoked API key" headers;
  ret (Ok "api key revoked").

Definition get_key (wallet_id : Uuid) (headers : HeaderMap) : M (result ApiKeyInfo ApiError) :=
  try _ <- owned_wallet headers wallet_id | same;
  try key <- query (fun _ d => Users.get_api_key wallet_id (Account.d_users d)) | internal;
  ret (Ok (mkApiKeyInfo wallet_id (bool_decide (is_Some key)) (option_map Users.k_prefix key)
             (match key with Some k => Users.k_scopes k | None => [] end)
             (let* k := key in Users.k_last_used_at k) (let* k := key in Users.k_expires_at k))).
End Handlers.

(** ** A concrete set of services

    The clock stands at its number of microseconds and ticks with each identifier drawn; every
    request is allowed and every mail arrives; a password hash is the password after its parameters. *)

Module Sample.
#[export] Instance env : Env Z := {|
  utc_now x := (x, x);
  rate_check _ _ _ _ x := (true, x);
  gen_range n x := (x mod n, x + 1);
  gen_salt x := ("salt", x);
  fill_bytes n x := (repeat 171 n, x);
  new_v4 x := (x, x + 1);
  send_mail _ _ _ x := (Ok tt, x)
|}.

Definition phc (password : string) : string := "$argon2id$v=19$m=65536,t=3,p=1$" +:+ password.

#[export] Instance argon2 : Argon2 := {|
  argon2_params m t p := true;
  argon2_hash params salt password := Some (phc password);
  phc_parses s := starts_with "$argon2id$" s;
  argon2_verify params password hash := bool_decide (hash = phc password)
|}.

#[export] Instance lowercase : Lowercase := {| to_lowercase := to_ascii_lowercase |}.

Definition app : AppState := mkAppState Token.Sample.secret AuditLog.demo_key Token.Sample.config None "2026".

(** The account of [Account.demo_account], with a password. *)
Definition db : Account.Db :=
  Account.set_users Account.demo_account
    (Users.mkState 20 [7] [Users.mkUser 2 "ada@octo.dev" (Some "ada") (phc "old password") (Some 0) 0 0 0 None]
       [Users.mkSession 5 2 None 0 0 (14 * Users.day) None; Users.mkSession 6 2 None 0 0 (14 * Users.day) None] [] [] []).

Definition header (token : string) : HeaderMap := mkHeaderMap (Some ("Bearer " +:+ token)) (Some [79; 99; 116; 111]) None None.
End Sample.
End Auth.
