(* ===== verification/AuthSafe.v ===== *)
(** * What authentication guarantees

    Theorems about the handlers of [Auth], whatever other requests, failures and crashes come
    between their statements: what a handler does to the tables is what the statements of [Users]
    do, so that credentials only ever expire. *)

From S2P Require Import Prelude Db Store Otp AuditChain AuditLog Users Account ApiHorizon Net Email Token Auth.

Module AuthSafe.
Import Db.
Import Store (Uuid).
Import Users (SqlLower, UuidText, uuid_text, parse_uuid).
Import ApiHorizon (ApiError(..)).
Import Email (Digest).
Import Token Auth.
Local Open Scope db_scope.

Section Safe.
Context `{dg : Digest} `{hm : AuditChain.Hmac} `{bu : Base64Url} `{jj : JwtJson} `{ar : Argon2} `{lc : Lowercase} `{ut : UuidText} `{sl : SqlLower}.
Context {X : Type} `{env : Env X}.
Variable rank : Otp.Row -> Z.
Variable state : AppState.

(** ** How the account tables evolve *)

(** What every statement does: the keys stay, epochs grow, revocations stay. *)
Definition evolves (d d' : Account.Db) : Prop :=
  Users.inv (Account.d_users d) -> Users.inv (Account.d_users d') /\ exists now, Users.grows now (Account.d_users d) (Account.d_users d').

Lemma account_evolves_refl d : evolves d d.
Proof. intros Hi. split; [done|]. exists 0. apply Users.grows_refl. Qed.

Lemma evolves_op o now d : evolves d (Account.set_users d (Users.exec o now (Account.users_view d))).
Proof.
  intros Hi. assert (Hv : Users.inv (Account.users_view d)) by exact Hi. split; [by apply Users.exec_inv|].
  exists now. destruct (Users.exec_grows o now _ Hv) as [H1 H2 H3 H4]. by constructor.
Qed.

Lemma evolves_users {A} o (stmt : Z -> Users.State -> result A sqlx_error * Users.State) :
  (forall now s, snd (stmt now s) = Users.exec o now s) -> forall now d, evolves d (snd (Account.on_users stmt now d)).
Proof.
  intros Ho now d. unfold Account.on_users. specialize (Ho now (Account.users_view d)). destruct (stmt _ _) as [r s]. cbn in *.
  subst s. apply evolves_op.
Qed.

Lemma evolves_same d d' : Account.d_users d' = Account.d_users d -> evolves d d'.
Proof. intros E Hi. rewrite E. by apply account_evolves_refl. Qed.

Lemma evolves_otp {A} (stmt : Z -> Otp.State -> result A sqlx_error * Otp.State) now d : evolves d (snd (Account.on_otp stmt now d)).
Proof. apply evolves_same. unfold Account.on_otp. by destruct (stmt _ _). Qed.

Lemma evolves_audit {A} (stmt : Z -> AuditChain.State -> result A sqlx_error * AuditChain.State) now d :
  evolves d (snd (Account.on_audit stmt now d)).
Proof. apply evolves_same. unfold Account.on_audit. by destruct (stmt _ _). Qed.

(** ** Computations that keep a stable predicate *)

Notation triple := (triple evolves (fun _ : X => True)).
Notation preserves := (preserves evolves (fun _ : X => True)).
Notation stable := (stable evolves).

Section Keeps.
Variable P : Account.Db -> Prop.
Hypothesis Pst : stable P.

Lemma keeps_call {A} (stmt : Z -> Account.Db -> result A sqlx_error * Account.Db) :
  (forall now d, evolves d (snd (stmt now d))) -> preserves P (db_call stmt).
Proof using Pst. intros Hs. apply preserves_db_call; [apply account_evolves_refl|done|]. intros now d Hd. eapply Pst; [exact Hd|apply Hs]. Qed.

Lemma keeps_users {A} conv o (stmt : Z -> Users.State -> result A sqlx_error * Users.State) :
  (forall now s, snd (stmt now s) = Users.exec o now s) -> preserves P (users_call (X := X) conv stmt).
Proof using Pst.
  intros Hs. apply preserves_bind; [|intros r; apply preserves_ret]. apply keeps_call. by apply (evolves_users o).
Qed.

Lemma keeps_query {A} (q : Z -> Account.Db -> A) : preserves P (query q).
Proof using Pst. apply preserves_query; [apply account_evolves_refl|done]. Qed.

Lemma keeps_ext {A} (f : X -> A * X) : preserves P (ext_call f).
Proof. by apply triple_ext_call. Qed.

Lemma keeps_try {A B E F} (m : M Account.Db X (result A E)) (f : E -> F) (k : A -> M Account.Db X (result B F)) :
  preserves P m -> (forall a, preserves P (k a)) -> preserves P (try_bind m f k).
Proof. intros Hm Hk. eapply triple_try; [exact Hm|exact Hk|done]. Qed.
End Keeps.

Lemma keeps_create_session P u a t : stable P -> preserves P (create_session (X := X) u a t).
Proof. intros HP. by apply (keeps_users P HP _ (Users.CreateSession u a t)). Qed.

Lemma keeps_extend_session P u i t : stable P -> preserves P (extend_session (X := X) u i t).
Proof. intros HP. by apply (keeps_users P HP _ (Users.ExtendSession u i t)). Qed.

Lemma keeps_is_session_valid P h u e i : stable P -> preserves P (is_session_valid (X := X) h u e i).
Proof. intros HP. by apply (keeps_users P HP _ (Users.IsSessionValid h u e i)). Qed.

Lemma keeps_denylist_token P h u t : stable P -> preserves P (denylist_token (X := X) h u t).
Proof. intros HP. by apply (keeps_users P HP _ (Users.DenylistToken h u t)). Qed.

Lemma keeps_record P u a c t hs : stable P -> preserves P (record state u a c t hs).
Proof.
  intros HP. unfold record, record_audit, flatten. repeat (apply preserves_bind; [|intros ?]); try apply preserves_ret.
  - by apply keeps_ext.
  - apply keeps_call; [done|]. intros now d. apply evolves_audit.
Qed.

(** ** Tokens before and after a revocation *)

(** The token belongs to a user of the table and is not of a later epoch. *)
Definition issued (t : Users.Token) (d : Account.Db) : Prop :=
  Users.inv (Account.d_users d) /\ Users.t_user t < Users.next_uuid (Account.d_users d) /\
  forall x, x ∈ Users.users (Account.d_users d) -> Users.u_id x = Users.t_user t -> Users.t_epoch t <= Users.u_session_epoch x.

(** It is refused for good: its epoch or its session is over. *)
Definition dead (t : Users.Token) (d : Account.Db) : Prop :=
  Users.inv (Account.d_users d) /\ Users.t_user t < Users.next_uuid (Account.d_users d) /\
  (Users.epoch_over t (Account.d_users d) \/ Users.session_over t (Account.d_users d)).

Lemma issued_stable t : stable (issued t).
Proof.
  intros d d' (Hi & Hu & Hx) He. destruct (He Hi) as [Hi' [now [Hn Hus _ _]]]. split_and!; [done|lia|].
  intros x' Hx' Ex'. destruct (Hus x' Hx') as [?|(x & Hin & Eid & Hep & _)]; [lia|]. specialize (Hx x Hin ltac:(congruence)). lia.
Qed.

Lemma dead_stable t : stable (dead t).
Proof.
  intros d d' (Hi & Hu & Hx) He. destruct (He Hi) as [Hi' [now [Hn Hus Hss _]]]. split_and!; [done|lia|].
  destruct Hx as [Ho|(i & Ei & Hlt & Ho)].
  - left. intros x' Hx' Ex'. destruct (Hus x' Hx') as [?|(x & Hin & Eid & Hep & Hdel)]; [lia|].
    destruct (Ho x Hin ltac:(congruence)) as [?|?]; [left; lia|right; auto].
  - right. exists i. split_and!; [done|lia|]. intros x' Hx' Ex'. destruct (Hss x' Hx') as [?|(x & Hin & Eid & Hrev)]; [lia|].
    apply Hrev, (Ho x Hin). congruence.
Qed.

Lemma inv_stable : stable (fun d => Users.inv (Account.d_users d)).
Proof. intros d d' Hi He. by apply He. Qed.

#[local] Hint Resolve issued_stable dead_stable inv_stable : core.

Lemma dead_rejected t d now : dead t d -> Users.accepted t now (Account.users_view d) = false.
Proof.
  intros (_ & Hu & Hx). apply (Users.revoked_rejected t (now + 1)); [|lia]. split; [done|]. destruct Hx; [by left|by right; left].
Qed.

Lemma weaken {A} P (m : M Account.Db X A) : preserves P m -> triple P m (fun _ => P) (fun _ => True).
Proof. intros Hm. by eapply triple_conseq. Qed.

(** The token text carries the data of [t]. *)
Definition carries (tok : string) (t : Users.Token) : Prop :=
  hash_token tok = Users.t_hash t /\
  forall now c, verify_token (config state) (jwt_secret state) now tok = Some c ->
    parse_uuid (sub c) = Some (Users.t_user t) /\ epoch c = Users.t_epoch t /\ sid c = Users.t_sid t.

(** A dead token is refused by every authenticated request. *)
Lemma dead_refused headers tok t :
  bearer headers = Some tok -> carries tok t ->
  triple (dead t) (authenticate_session state headers) (fun r _ => is_ok r = false) (fun _ => True).
Proof.
  intros Hb [Hh Hc]. unfold authenticate_session. eapply (triple_try _ _ _ _ _ _
    (fun r d => dead t d /\ forall p, r = Ok p -> fst (fst p) = tok /\ snd (fst p) = Users.t_user t /\
                 epoch (snd p) = Users.t_epoch t /\ sid (snd p) = Users.t_sid t)).
  - unfold bearer_claims. rewrite Hb.
    apply (triple_bind _ _ _ _ _ (fun c d => dead t d /\ exists now, c = verify_token (config state) (jwt_secret state) now tok)).
    + unfold verify, now_secs. repeat (eapply triple_bind; [|intros ?]);
        [apply weaken, keeps_ext|apply (triple_ret _ _ _ _ (fun _ => dead t)); auto|apply triple_ret; eauto].
    + intros c. apply triple_ret. intros d [Hd [now Ec]]. split; [done|]. intros p. destruct c as [c|]; [|done].
      destruct (Hc now c) as (Hu & He & Hs); [done|]. rewrite Hu. intros [= <-]. by cbn.
  - intros [[tok' user] claims]. apply triple_pure. intros Hp. destruct (Hp _ eq_refl) as (Et & Eu & Ee & Es). cbn in Et, Eu, Ee, Es.
    eapply (triple_try _ _ _ _ _ _ (fun r _ => forall v, r = Ok v -> v = false)).
    + unfold is_session_valid, users_call. eapply triple_bind.
      * apply (triple_db_call _ _ _ _ (fun r _ => forall v, r = Ok v -> v = false)); [apply account_evolves_refl|auto| |].
        -- intros now d Hd. split_and!; [|done|done]. unfold Account.on_users. cbn. intros v [= <-].
           rewrite Et, Hh, Eu, Ee, Es. by apply dead_rejected.
        -- done.
      * intros r. apply triple_ret. intros d Hr v. destruct r as [v'|]; cbn; [|done]. intros [= ->]. by apply Hr.
    + intros v. destruct v; cbn [negb]; apply triple_ret; [|done]. intros d Hv. by specialize (Hv true eq_refl).
    + done.
  - done.
Qed.

(** ** Changing the password ends every older token *)

Lemma keeps_ret {A} P (a : A) : preserves P (ret a).
Proof. apply preserves_ret. Qed.

Create HintDb keeps.
#[local] Hint Resolve keeps_ext keeps_query keeps_create_session keeps_extend_session keeps_is_session_valid keeps_denylist_token
  keeps_record keeps_ret : keeps.

(** One step of a computation that keeps a stable predicate. *)
Ltac keeps :=
  repeat first
    [ solve [eauto 2 with keeps]
    | apply preserves_bind; [|intros ?]
    | apply keeps_try; [|intros ?]
    | progress case_match ].

Lemma keeps_rate_limited P k c l w m : preserves P (rate_limited k c l w m).
Proof. unfold rate_limited. keeps. Qed.

Lemma keeps_hash_new_password P p : preserves P (hash_new_password state p).
Proof. unfold hash_new_password. keeps. Qed.

Lemma keeps_get_user P u : stable P -> preserves P (get_user u).
Proof. intros HP. unfold get_user. keeps. Qed.

#[local] Hint Resolve keeps_rate_limited keeps_hash_new_password keeps_get_user : keeps.

Lemma keeps_issue P u e i : preserves P (issue state u e i).
Proof. unfold issue, now_secs. keeps. Qed.

Lemma keeps_start_session P u e hs : stable P -> preserves P (start_session state u e hs).
Proof. intros HP. unfold start_session, session_expiry. keeps. Qed.

Lemma keeps_continue_session P x e hs : stable P -> preserves P (continue_session state x e hs).
Proof. intros HP. unfold continue_session, session_expiry. keeps. Qed.

Lemma keeps_authenticate_session P hs : stable P -> preserves P (authenticate_session state hs).
Proof. intros HP. unfold authenticate_session, bearer_claims, verify, now_secs. keeps. Qed.

#[local] Hint Resolve keeps_issue keeps_start_session keeps_continue_session keeps_authenticate_session : keeps.

Lemma keeps_require_login_session P hs : stable P -> preserves P (require_login_session state hs).
Proof. intros HP. unfold require_login_session. keeps. Qed.

#[local] Hint Resolve keeps_require_login_session : keeps.

Lemma triple_pre {A} (P P' : Account.Db -> Prop) (m : M Account.Db X A) Q C :
  triple P m Q C -> (forall d, P' d -> P d) -> triple P' m Q C.
Proof. intros Hm HP. by eapply triple_conseq. Qed.

Lemma try_keep {A B E F} P (m : M Account.Db X (result A E)) (f : E -> F) (k : A -> M Account.Db X (result B F)) Q :
  preserves P m -> (forall a, triple P (k a) Q (fun _ => True)) -> (forall e s, P s -> Q (Err (f e)) s) ->
  triple P (try_bind m f k) Q (fun _ => True).
Proof. intros Hm Hk He. eapply (triple_try _ _ _ _ _ _ (fun _ => P)); [by apply weaken|done|done]. Qed.

Lemma new_epoch_dead t h keep now d :
  issued t d -> is_ok (fst (Users.new_epoch_tx (Users.t_user t) h keep now (Account.users_view d))) = true ->
  (forall p, fst (Users.new_epoch_tx (Users.t_user t) h keep now (Account.users_view d)) = Ok (Ok p) ->
   dead t (Account.set_users d (snd (Users.new_epoch_tx (Users.t_user t) h keep now (Account.users_view d))))).
Proof.
  intros (Hi & Hu & Hx) _ p Ep. pose proof (evolves_op (Users.NewEpoch (Users.t_user t) h keep) now d Hi) as [Hi' [now' Hg]].
  cbn [Users.exec] in Hi', Hg. split; [exact Hi'|]. split; [destruct Hg; cbn in *; lia|]. left. cbn [Account.d_users Account.set_users].
  revert Ep. unfold Users.new_epoch_tx. destruct (Users.get_user _ _); [|done]. destruct (_ <? _); [done|]. cbn. intros _.
  intros x' (x & -> & Hin)%list_elem_of_fmap Ex'. destruct (Users.is_user (Users.t_user t) x) eqn:Eis.
  - left. apply bool_decide_eq_true in Eis. specialize (Hx x Hin Eis). cbn. lia.
  - apply bool_decide_eq_false in Eis. congruence.
Qed.

(** The old tokens of the user whose password was changed are dead. *)
Definition ended (t : Users.Token) (u : Uuid) (d : Account.Db) : Prop :=
  Users.inv (Account.d_users d) /\ (u = Users.t_user t -> dead t d).

Lemma ended_stable t u : stable (ended t u).
Proof. intros d d' [Hi Hd] He. split; [by apply He|]. intros E. eapply dead_stable; [by apply Hd|done]. Qed.

#[local] Hint Resolve ended_stable : core.

Lemma change_password_ends peer headers body t :
  triple (issued t) (change_password state peer headers body)
    (fun r d => match r with Ok resp => ended t (v_id (r_user resp)) d | Err _ => True end) (fun _ => True).
Proof.
  unfold change_password. apply try_keep; [keeps|intros _|done]. apply try_keep; [keeps|intros session|done].
  apply try_keep; [keeps|intros _|done]. do 3 (apply try_keep; [keeps|intros ?|done]).
  case_bool_decide; [by apply triple_ret|].
  apply (triple_try _ _ _ _ _ _ (fun r d => issued t d /\ forall u, r = Ok (Some u) -> Users.u_id u = user_id session)).
  - unfold get_user. eapply triple_bind; [|intros r; apply triple_ret; intros d Hd; exact Hd]. cbn beta.
    apply triple_query; [apply account_evolves_refl|auto| | |done].
    + intros now d Hd. split; [done|]. cbn. intros u [= Eu]. apply List.find_some in Eu as [_ Eu].
      by apply bool_decide_eq_true in Eu.
    + intros d Hd. by split.
  - intros [user|]; apply triple_pure; intros Hu; [|by apply triple_ret]. specialize (Hu user eq_refl).
    destruct (negb _); [by apply triple_ret|]. apply try_keep; [keeps|intros hash|done].
    apply (triple_try _ _ _ _ _ _ (fun r d => is_ok r = true -> ended t (user_id session) d)).
    + unfold store_change_password, flatten, users_call. repeat (eapply triple_bind; [|intros r; apply triple_ret; intros d Hd; exact Hd]).
      cbn beta. apply triple_db_call; [apply account_evolves_refl|auto| |done]. intros now d Hd. split_and!; [|done|done].
      intros Hok. split.
      { apply (evolves_users (Users.NewEpoch (user_id session) (fun _ => hash) (session_id session))); [done|apply Hd]. }
      intros Eu. unfold Account.on_users, Users.change_password_tx in *. rewrite Eu in *.
      pose proof (new_epoch_dead t (fun _ => hash) (session_id session) now d Hd) as Hn. revert Hok Hn.
      destruct (Users.new_epoch_tx _ _ _ _ _) as [[[p|]|] s]; cbn; [|done|done]. intros _ Hn. by eapply Hn.
    + intros changed. apply (triple_pre (ended t (user_id session))).
      * eapply triple_bind; [apply weaken; keeps|intros ?]. apply try_keep; [keeps|intros token|done].
        apply triple_ret. intros d Hd. cbn. by rewrite Hu.
      * intros d Hd. by apply Hd.
    + done.
  - done.
Qed.

(** C20: a password change ends every older token. Whatever other requests, failures and
    crashes come in between: if [change_password] succeeds for a user, then a later request with a
    token that the user got before, in whatever session, is refused. *)
Theorem password_change_ends_tokens peer headers body old tok t :
  bearer old = Some tok -> carries tok t ->
  triple (issued t)
    (do changed <- change_password state peer headers body;
     do later <- authenticate_session state old;
     ret (changed, later))
    (fun p _ => match fst p with
                | Ok resp => v_id (r_user resp) = Users.t_user t -> is_ok (snd p) = false
                | Err _ => True
                end) (fun _ => True).
Proof.
  intros Hb Hc. eapply triple_bind; [apply change_password_ends|]. intros changed. cbn beta.
  assert (Hany : forall Q : _ -> Account.Db -> Prop, (forall later d, Q (changed, later) d) ->
    triple (fun _ => True) (do later <- authenticate_session state old; ret (changed, later)) Q (fun _ => True)).
  { intros Q HQ. apply (triple_bind _ _ _ _ _ (fun _ _ => True)); [|intros later; by apply triple_ret].
    by apply (weaken (fun _ => True)), keeps_authenticate_session. }
  destruct changed as [resp|e]; [|by apply (triple_pre (fun _ => True)); [apply Hany|]].
  destruct (decide (v_id (r_user resp) = Users.t_user t)) as [E|E].
  - eapply triple_bind; [|intros later; apply triple_ret; intros d Hd _; exact Hd]. cbn beta.
    eapply triple_pre; [apply (dead_refused old tok t Hb Hc)|]. intros d [_ Hd]. by apply Hd.
  - apply (triple_pre (fun _ => True)); [|done]. apply Hany. cbn. congruence.
Qed.

(** A token that the server issued carries what it was issued for. *)
Lemma issued_carries `{dl : !DigestLaws} `{bl : !Base64Laws} `{jl : !JwtJsonLaws} now token_id u e i tok :
  issue_token (config state) (jwt_secret state) now token_id u e i = Ok tok -> parse_uuid (uuid_text u) = Some u ->
  carries tok (Users.mkToken (hash_token tok) u e i).
Proof.
  intros Ei Hu. split; [done|]. intros now' c Hv.
  rewrite (verify_issued _ _ _ _ _ _ _ _ _ _ now' Ei eq_refl eq_refl (current_secret _ _)) in Hv.
  destruct (now' <=? _); [|done]. injection Hv as <-. by cbn.
Qed.
End Safe.

#[local] Existing Instances AuditLog.checksum Users.dec_uuid Users.ascii_lower Token.Sample.digest Token.Sample.digest_laws
  Token.Sample.base64 Token.Sample.base64_laws Token.Sample.json Token.Sample.json_laws
  Auth.Sample.env Auth.Sample.argon2 Auth.Sample.lowercase.

(** Two tokens of the user, in two sessions. *)
Definition demo_token (i : Uuid) : string :=
  match issue_token Token.Sample.config Token.Sample.secret 0 8 2 0 (Some i) with Ok tok => tok | Err _ => "" end.

Definition demo_world : World Account.Db Z := mkWorld Auth.Sample.db [] 2000.

Lemma password_change_ends_tokens_witness :
  exists changed later w',
    (do changed <- change_password Auth.Sample.app None (Auth.Sample.header (demo_token 5))
                     (Json (mkChangePassword (Some "old password") (Some "new password")));
     do later <- authenticate_session Auth.Sample.app (Auth.Sample.header (demo_token 6));
     ret (changed, later)) demo_world = (Ret (changed, later), w') /\
    is_ok changed = true /\ is_ok later = false.
Proof.
  assert (Ei : issue_token Token.Sample.config Token.Sample.secret 0 8 2 0 (Some 6) = Ok (demo_token 6)) by (vm_compute; reflexivity).
  assert (Eb : bearer (Auth.Sample.header (demo_token 6)) = Some (demo_token 6)) by (vm_compute; reflexivity).
  pose proof (password_change_ends_tokens Auth.Sample.app None (Auth.Sample.header (demo_token 5))
    (Json (mkChangePassword (Some "old password") (Some "new password"))) (Auth.Sample.header (demo_token 6)) (demo_token 6)
    (Users.mkToken (hash_token (demo_token 6)) 2 0 (Some 6)) Eb
    (issued_carries Auth.Sample.app 0 8 2 0 (Some 6) (demo_token 6) Ei eq_refl) demo_world) as Ht.
  destruct Ht as [_ Ht].
  - split_and!.
    + split; [apply NoDup_singleton|apply Forall_singleton; reflexivity].
    + reflexivity.
    + cbn. intros x [->|[]%not_elem_of_nil]%elem_of_cons _. cbn. lia.
  - split; [constructor|done].
  - assert (Hr : match (do changed <- change_password Auth.Sample.app None (Auth.Sample.header (demo_token 5))
                            (Json (mkChangePassword (Some "old password") (Some "new password")));
                       do later <- authenticate_session Auth.Sample.app (Auth.Sample.header (demo_token 6));
                       ret (changed, later)) demo_world with
                 | (Ret (Ok resp, _), _) => v_id (r_user resp) =? 2
                 | _ => false
                 end = true) by (vm_compute; reflexivity).
    destruct (bind _ _ demo_world) as [[[[resp|] later]|] w']; try discriminate Hr. exists (Ok resp), later, w'.
    split_and!; [reflexivity|reflexivity|]. apply Ht. apply Z.eqb_eq, Hr.
Defined.
End AuthSafe.
