(* ===== verification/AuthExact.v ===== *)
(** * Authentication without interference

    What the handlers of [Auth] do when the database answers and no other request runs between
    their statements: logging in, authorizing a request for a wallet, and the life of an API key. *)

From S2P Require Import Prelude Db Store Otp AuditChain AuditLog Users Account Exporting ApiHorizon Net Email Token Auth AuthSafe.

Module AuthExact.
Import Db.
Import Store (Uuid).
Import Users (SqlLower, UuidText, uuid_text, parse_uuid).
Import ApiHorizon (ApiError(..)).
Import Runs.
Import Email (Digest).
Import Token Auth.
Local Open Scope db_scope.

Section Exact.
Context `{dg : Digest} `{hm : AuditChain.Hmac} `{bu : Base64Url} `{jj : JwtJson} `{ar : Argon2} `{lc : Lowercase} `{ut : UuidText} `{sl : SqlLower}.
Context {X : Type} `{env : Env X}.
Variable rank : Otp.Row -> Z.
Variable state : AppState.
Notation World := (World Account.Db X).

Lemma exec_users {A} conv (stmt : Z -> Users.State -> result A sqlx_error * Users.State) Q (w : World) :
  calm w ->
  (forall w', calm w' -> db w' = Account.set_users (db w) (snd (stmt (tick_now w) (Account.users_view (db w)))) -> ext w' = ext w ->
     Q (map_err conv (fst (stmt (tick_now w) (Account.users_view (db w))))) w') ->
  runs (users_call conv stmt) Q w.
Proof.
  intros Hc HQ. unfold users_call. exec. apply exec_call; [done|]. intros w' Hc' Ed Ee. apply exec_ret.
  unfold Account.on_users in *. destruct (stmt (tick_now w) _) as [r s]. cbn in *. by apply HQ.
Qed.

(** An audit entry leaves the account's other tables alone. *)
Lemma exec_record u a c t hs Q (w : World) :
  calm w -> (forall w', calm w' -> Account.d_users (db w') = Account.d_users (db w) -> Account.d_core (db w') = Account.d_core (db w) ->
    Q tt w') -> runs (record state u a c t hs) Q w.
Proof.
  intros Hc HQ. unfold record, record_audit, flatten. exec. exec. apply exec_ext; [done|]. intros w1 Hc1 E1 _ _. exec. exec.
  apply exec_call; [done|]. intros w2 Hc2 E2 _. do 3 apply exec_ret.
  unfold Account.on_audit in E2. destruct (AuditChain.record_audit_tx _ _ _ _ _ _ _ _ _) as [r s].
  apply HQ; [done|rewrite E2; cbn; by rewrite E1..].
Qed.

(** Sending a code never changes users, sessions or lockouts. *)
Lemma exec_issue_otp u p t b (w : World) :
  calm w -> runs (issue_otp state u p t b)
    (fun r w' => (r = Ok tt \/ r = Err Internal) /\ Account.d_users (db w') = Account.d_users (db w)) w.
Proof.
  intros Hc. unfold issue_otp. exec. apply exec_ext; [done|]. intros w1 Hc1 E1 _ _. exec. unfold create_otp. exec.
  apply exec_call; [done|]. intros w2 Hc2 E2 _. apply exec_ret.
  assert (Eu : Account.d_users (db w2) = Account.d_users (db w)).
  { rewrite E2. unfold Account.on_otp. destruct (Otp.create_stmt _ _ _ _ _ _ _). cbn. by rewrite E1. }
  match goal with |- context [map_err from_sqlx ?r] => destruct r as [id|e] end; cbn [map_err]; [|by split; [right|]]. exec. apply exec_ext; [done|].
  intros w3 Hc3 E3 _ _. apply exec_ret. rewrite E3. split; [|done]. match goal with |- context [map_err internal ?r] => destruct r as [[]|] end; cbn; auto.
Qed.

Lemma find_none_intro {A} (p : A -> bool) l : (forall x, In x l -> p x = false) -> List.find p l = None.
Proof.
  induction l as [|x l IH]; cbn; [done|]. intros Hl. rewrite (Hl x) by auto. apply IH. auto.
Qed.

(** ** Logging in *)

Section Login.
Context `{dl : !DigestLaws} `{bl : !Base64Laws} `{jl : !JwtJsonLaws}.

(** The token is one that was issued for the user and a live session of the table. *)
Definition session_token (u : Uuid) (e : Z) (tok : string) (d : Account.Db) : Prop :=
  exists now token_id x, issue_token (config state) (jwt_secret state) now token_id u e (Some (Users.se_id x)) = Ok tok /\
    x ∈ Users.sessions (Account.d_users d) /\ Users.se_user_id x = u /\ Users.se_revoked_at x = None.

Lemma exec_start_session u e hs Q (w : World) :
  calm w -> Users.user_exists u (Account.d_users (db w)) = true ->
  (forall w' tok, calm w' -> Users.auth_lockouts (Account.d_users (db w')) = Users.auth_lockouts (Account.d_users (db w)) ->
     session_token u e tok (db w') -> Q (Ok tok) w') ->
  runs (start_session state u e hs) Q w.
Proof.
  intros Hc Hu HQ. unfold start_session, session_expiry, create_session. exec. exec. apply exec_ext; [done|]. intros w1 Hc1 E1 _ _.
  apply exec_ret. exec. apply exec_users; [done|]. intros w2 Hc2 E2 _. unfold Users.create_session_stmt in *. rewrite E1 in *.
  assert (Hv : Users.user_exists u (Account.users_view (db w)) = true) by exact Hu. rewrite Hv in *. cbn in E2 |- *.
  unfold issue, now_secs. exec. exec. apply exec_ext; [done|]. intros w3 Hc3 E3 _ _. apply exec_ret. exec.
  apply exec_ext; [done|]. intros w4 Hc4 E4 _ _. apply exec_ret.
  set (x := Users.mkSession _ _ _ _ _ _ _) in *. set (t := if _ <? 0 then 0 else _). set (id := fst (new_v4 _)).
  destruct (issue_token_shape (config state) (jwt_secret state) t id u e (Some (Users.next_uuid (Account.d_users (db w)))))
    as (hb & pb & _ & _ & Et).
  rewrite Et. apply HQ; [done|by rewrite E4, E3, E2|]. exists t, id, x. split_and!; [exact Et| |done|done].
  rewrite E4, E3, E2. cbn. apply elem_of_app. right. apply list_elem_of_singleton. reflexivity.
Qed.

Lemma user_exists_found email d user :
  Users.find_user_by_email email d = Some user -> Users.user_exists (Users.u_id user) d = true.
Proof.
  intros [Hin _]%List.find_some. apply existsb_exists. exists user. split; [done|]. by apply bool_decide_eq_true_2.
Qed.

Lemma user_exists_update p f u (l : list Users.User) :
  (forall x, Users.u_id (f x) = Users.u_id x) ->
  existsb (Users.is_user u) (Store.update_where p f l) = existsb (Users.is_user u) l.
Proof.
  intros Hf. unfold Store.update_where, Users.is_user. induction l as [|x l IH]; cbn; [done|]. rewrite IH. destruct (p x); by rewrite ?Hf.
Qed.

(** The failed attempt is counted, nothing else changes. *)
Definition refused (email : string) (d d' : Account.Db) : Prop :=
  exists now, d' = Account.set_users d (snd (Users.record_auth_failure_stmt email now (Account.users_view d))).

Lemma exec_refuse {A} email Q (w : World) :
  calm w -> (forall w', refused email (db w) (db w') -> Q (Err invalid_credentials) w') ->
  runs (try _ <- record_auth_failure email | internal; ret (Err invalid_credentials) : M Account.Db X (result A ApiError)) Q w.
Proof.
  intros Hc HQ. exec. unfold record_auth_failure. apply exec_users; [done|]. intros w' Hc' Ed _.
  assert (E : exists r, fst (Users.record_auth_failure_stmt email (tick_now w) (Account.users_view (db w))) = Ok r).
  { unfold Users.record_auth_failure_stmt. case_match; by eexists. }
  destruct E as [r ->]. cbn. apply exec_ret, HQ. by exists (tick_now w).
Qed.

(** What a login with this email and password leads to, from the database [d] at the time [now]. *)
Definition login_outcome (email password : string) (now : Z) (d : Account.Db) (r : result LoginResponse ApiError) (d' : Account.Db) : Prop :=
  match Users.auth_locked_until email now (Account.d_users d), Users.find_user_by_email email (Account.d_users d) with
  | Some _, _ => r = Err invalid_credentials /\ d' = d
  | None, None => r = Err invalid_credentials /\ refused email d d'
  | None, Some user =>
      if is_ok (verify_password (config state) password (Users.u_password_hash user)) then
        Users.row_of email (Account.d_users d') = None /\
        (password_hash_needs_upgrade (config state) (Users.u_password_hash user) = true /\
         (exists salt, is_ok (hash_password (config state) salt password) = false) /\ is_ok r = false \/
         match Users.u_email_verified_at user with
         | Some _ => exists tok, r = Ok (SignedIn (mkAuthResponse tok (view user))) /\
                       session_token (Users.u_id user) (Users.u_session_epoch user) tok d'
         | None => r = Ok (Unverified (mkVerificationRequired (Users.u_id user) true)) \/ r = Err Internal
         end)
      else r = Err invalid_credentials /\ refused email d d'
  end.


(** ** Authorizing a request for a wallet *)

(** The process's clock, in seconds. *)
Definition secs (x : X) : Z := let now := fst (utc_now x) in if now <? 0 then 0 else now / second.

(** A session that is good at the database's time [now]: the user is there, not deleted and has the
    epoch; no deny-list entry of the token is in force, which an entry is before its own expiry; and the
    session, if the token names one, is the user's, not revoked and not over. *)
Definition session_good (token_hash : string) (user : Uuid) (epoch : Z) (session : option Uuid) (now : Z) (s : Users.State) : Prop :=
  (exists u, u ∈ Users.users s /\ Users.u_id u = user /\ Users.u_session_epoch u = epoch /\ Users.u_deleted_at u = None) /\
  (forall d, d ∈ Users.token_denylist s -> Users.dn_token_hash d = token_hash -> Users.dn_expires_at d <= now) /\
  (forall id, session = Some id -> exists x, x ∈ Users.sessions s /\ Users.se_id x = id /\ Users.se_user_id x = user /\
     Users.se_revoked_at x = None /\ now < Users.se_expires_at x).

Lemma session_valid_good h u e i now s : Users.session_valid h u e i now s = true <-> session_good h u e i now s.
Proof.
  unfold Users.session_valid, session_good. rewrite !andb_true_iff, negb_true_iff.
  match goal with |- (?a /\ ?b) /\ ?c <-> ?d /\ ?e /\ ?f => enough (Ha : a <-> d); [enough (Hb : b <-> e); [enough (Hc : c <-> f); [tauto|]|]|] end.
  - destruct i as [id|]; [|done]. rewrite existsb_exists. unfold Users.live_session. split.
    + intros (x & Hx & Hl) id' [= <-]. rewrite !andb_true_iff, !bool_decide_eq_true, Z.ltb_lt in Hl.
      apply list_elem_of_In in Hx. exists x. tauto.
    + intros H. destruct (H id eq_refl) as (x & Hx & H1 & H2 & H3 & H4). apply list_elem_of_In in Hx. exists x.
      rewrite !andb_true_iff, !bool_decide_eq_true, Z.ltb_lt. tauto.
  - rewrite <- not_true_iff_false, existsb_exists. split.
    + intros H d Hd%list_elem_of_In Eh. destruct (Z.leb_spec (Users.dn_expires_at d) now); [done|]. destruct H. exists d.
      rewrite andb_true_iff, bool_decide_eq_true, Z.ltb_lt. by split_and!.
    + intros H (d & Hd%list_elem_of_In & Hp). rewrite andb_true_iff, bool_decide_eq_true, Z.ltb_lt in Hp. specialize (H d Hd (proj1 Hp)). lia.
  - rewrite existsb_exists. unfold Users.is_user. split; intros (x & Hx%list_elem_of_In & Hp); exists x;
      rewrite !andb_true_iff, !bool_decide_eq_true, Z.eqb_eq in *; tauto.
Qed.

(** The key of this text, before its expiry. *)
Definition unexpired_key (tok : string) (now : Z) (k : Users.ApiKey) : Prop :=
  Users.k_key_hash k = hash_api_key tok /\ forall t, Users.k_expires_at k = Some t -> now < t.

Lemma usable_unexpired tok now l k : List.find (Users.usable_key (hash_api_key tok) now) l = Some k -> unexpired_key tok now k.
Proof.
  intros [_ Hu]%List.find_some. unfold Users.usable_key in Hu. apply andb_true_iff in Hu as [Eh%bool_decide_eq_true He]. split; [done|].
  intros t Et. rewrite Et in He. lia.
Qed.

(** What the credential [tok] grants at the database's time [now]: an unexpired API key of this
    wallet with the scope, or a token whose session is valid and whose user owns the wallet. *)
Definition granted (tok : string) (wallet_id : Uuid) (scope : string) (clock now : Z) (d : Account.Db) : Prop :=
  if starts_with API_KEY_PREFIX tok then
    has_valid_api_key_checksum tok = true /\
    exists k, List.find (Users.usable_key (hash_api_key tok) now) (Users.api_keys (Account.d_users d)) = Some k /\
      Users.k_wallet_id k = wallet_id /\ scope ∈ Users.k_scopes k /\ unexpired_key tok now k
  else
    exists claims user wallet, verify_token (config state) (jwt_secret state) clock tok = Some claims /\
      parse_uuid (sub claims) = Some user /\
      session_good (hash_token tok) user (epoch claims) (sid claims) now (Account.d_users d) /\
      List.find (fun w => bool_decide (Store.w_id w = wallet_id)) (Store.wallets (Account.d_core d)) = Some wallet /\
      Store.w_user_id wallet = Some user.

Lemma scope_in (scope : string) (l : list string) : existsb (fun s => bool_decide (s = scope)) l = true <-> scope ∈ l.
Proof.
  rewrite existsb_exists, list_elem_of_In. split.
  - intros (s & Hs & E%bool_decide_eq_true). by subst.
  - intros Hs. exists scope. split; [done|]. by apply bool_decide_eq_true_2.
Qed.

Lemma exec_authenticate_session hs Q (w : World) :
  calm w ->
  (forall r w', calm w' -> Account.d_core (db w') = Account.d_core (db w) ->
     Users.api_keys (Account.d_users (db w')) = Users.api_keys (Account.d_users (db w)) ->
     (forall s, r = Ok s <-> exists tok claims, bearer hs = Some tok /\
        verify_token (config state) (jwt_secret state) (secs (ext w)) tok = Some claims /\
        parse_uuid (sub claims) = Some (user_id s) /\
        Users.session_valid (hash_token tok) (user_id s) (epoch claims) (sid claims) (tick_now w) (Account.d_users (db w)) = true /\
        s = mkAuthenticatedSession (user_id s) (sid claims) (exp claims)) -> Q r w') ->
  runs (authenticate_session state hs) Q w.
Proof.
  intros Hc HQ. unfold authenticate_session, bearer_claims. exec.
  destruct (bearer hs) as [tok|] eqn:Eb; [|apply exec_ret; apply HQ; [done|done|done|]; intros s; split; [done|]; naive_solver].
  exec. unfold verify, now_secs. exec. exec. apply exec_ext; [done|]. intros w1 Hc1 E1 T1 _. apply exec_ret. apply exec_ret.
  apply exec_ret. fold (secs (ext w)).
  destruct (verify_token _ _ (secs (ext w)) tok) as [claims|] eqn:Ev;
    [|apply HQ; [done|by rewrite E1|by rewrite E1|]; intros s; split; [done|]; naive_solver].
  destruct (parse_uuid (sub claims)) as [u|] eqn:Eu;
    [|apply HQ; [done|by rewrite E1|by rewrite E1|]; intros s; split; [done|]; naive_solver].
  exec. unfold is_session_valid. apply exec_users; [done|]. intros w2 Hc2 E2 _. cbn [map_err Users.is_session_valid_stmt fst].
  assert (Et : tick_now w1 = tick_now w) by (unfold tick_now; by rewrite T1). rewrite Et, E1 in *.
  change (Users.session_valid (hash_token tok) u (epoch claims) (sid claims) (tick_now w) (Account.users_view (db w)))
    with (Users.session_valid (hash_token tok) u (epoch claims) (sid claims) (tick_now w) (Account.d_users (db w))).
  destruct (Users.session_valid _ _ _ _ _ _) eqn:Es; cbn [negb]; apply exec_ret; (apply HQ; [done|by rewrite E2|by rewrite E2|]); intros s; split;
    try done; [intros [= <-]; naive_solver|..]; intros (tok' & claims' & E' & Ev' & Eu' & Es' & Er); simplify_eq; congruence.
Qed.

Lemma authorize_spec headers wallet_id scope (w : World) :
  calm w ->
  runs (authorize_wallet_scope state headers wallet_id scope)
    (fun r _ => r = Ok tt <->
       exists tok, bearer headers = Some tok /\ granted tok wallet_id scope (secs (ext w)) (tick_now w) (db w)) w.
Proof.
  intros Hc. unfold authorize_wallet_scope, granted.
  destruct (bearer headers) as [tok|] eqn:Eb; [|apply exec_ret; split; [done|]; naive_solver].
  destruct (starts_with API_KEY_PREFIX tok) eqn:Ep.
  - destruct (has_valid_api_key_checksum tok) eqn:Ec; cbn [negb];
      [|apply exec_ret; split; [done|]; intros (t & [= <-] & Hg); rewrite Ep in Hg; destruct Hg; congruence].
    exec. unfold use_api_key. apply exec_users; [done|]. intros w1 Hc1 E1 _. cbn [map_err Users.use_api_key_stmt fst].
    change (Users.api_keys (Account.users_view (db w))) with (Users.api_keys (Account.d_users (db w))).
    destruct (List.find _ (Users.api_keys _)) as [k|] eqn:Ef; cbn [option_map];
      [|apply exec_ret; split; [done|]; intros (t & [= <-] & Hg); rewrite Ep in Hg; destruct Hg as (_ & k & ? & _); congruence].
    cbn [Users.use_key Users.k_wallet_id Users.k_scopes].
    case_bool_decide as Ew; cbn [negb]; [|apply exec_ret; split; [done|]; intros (t & [= <-] & Hg); rewrite Ep in Hg;
      destruct Hg as (_ & k' & ? & ? & _); congruence].
    destruct (existsb _ _) eqn:Es; cbn [negb]; apply exec_ret; split; try done.
    + intros _. exists tok. split; [done|]. rewrite Ep. split; [done|]. exists k. split; [done|]. split; [done|]. split; [by apply scope_in|by eapply usable_unexpired].
    + intros (t & [= <-] & Hg). rewrite Ep in Hg. destruct Hg as (_ & k' & ? & ? & Hs & _). simplify_eq. apply scope_in in Hs. congruence.
  - exec. unfold authenticate. exec. apply exec_authenticate_session; [done|]. intros r w1 Hc1 Ecore _ Hr.
    destruct r as [s|e].
    + destruct (proj1 (Hr s) eq_refl) as (t & claims & [= <-]%(eq_trans (eq_sym Eb)) & Ev & Eu & Es & _). apply exec_ret.
      exec. unfold get_wallet. exec. apply exec_query; [done|]. intros w2 Hc2 E2 _. apply exec_ret. rewrite Ecore.
      destruct (List.find _ _) as [wallet|] eqn:Ef; cycle 1.
      { split; [done|]. intros (t & [= <-] & Hg). rewrite Ep in Hg. naive_solver. }
      case_bool_decide as Eo; cbn [negb]; apply exec_ret; split; try done.
      * intros _. exists tok. split; [done|]. rewrite Ep. exists claims, (user_id s), wallet. apply session_valid_good in Es. by split_and!.
      * intros (t & [= <-] & Hg). rewrite Ep in Hg. destruct Hg as (claims' & user & wallet' & Ev' & Eu' & _ & Ef' & Eo').
        simplify_eq.
    + split; [done|]. intros (t & [= <-] & Hg). rewrite Ep in Hg.
      destruct Hg as (claims & user & wallet & Ev & Eu & Es & _). exfalso.
      assert (Hx : Err e = Ok (mkAuthenticatedSession user (sid claims) (exp claims)) :> result _ ApiError); [|done].
      apply Hr. apply session_valid_good in Es. exists tok, claims. by split_and!.
Qed.

(** C17: who may act on a wallet. When the database answers every statement and no other connection
    writes between them, a request for a wallet is authorized exactly when its bearer credential grants
    it: an API key of this very wallet, with a matching checksum, not expired and with the scope; or a
    token that verifies, of a user who is not deleted, has the token's epoch and owns the wallet, with a
    session that is the user's, not revoked and not over, and without a deny-list entry that is still in
    force. An entry is in force until the token's [exp], the token verifies until the second after it:
    so a revoked token is let through in its last second, which the comments of the code exclude. *)
Theorem authorize_exact headers wallet_id scope (w : World) :
  calm w ->
  runs (authorize_wallet_scope state headers wallet_id scope)
    (fun r _ => r = Ok tt <->
       exists tok, bearer headers = Some tok /\ granted tok wallet_id scope (secs (ext w)) (tick_now w) (db w)) w.
Proof. apply authorize_spec. Qed.

(** ** The life of an API key *)

(** [row] is the only key with its digest. *)
Definition sole_key (row : Users.ApiKey) (l : list Users.ApiKey) : Prop :=
  row ∈ l /\ forall k, k ∈ l -> Users.k_key_hash k = Users.k_key_hash row -> k = row.

Lemma find_sole row l now : sole_key row l ->
  List.find (Users.usable_key (Users.k_key_hash row) now) l =
    if Users.usable_key (Users.k_key_hash row) now row then Some row else None.
Proof.
  intros [Hin Hone]. destruct (List.find _ l) as [k|] eqn:E.
  - apply List.find_some in E as [Hk Hu]. assert (k = row) as ->.
    { apply Hone; [by apply list_elem_of_In|]. unfold Users.usable_key in Hu. apply andb_true_iff in Hu as [Hu _].
      by apply bool_decide_eq_true in Hu. }
    by rewrite Hu.
  - destruct (Users.usable_key _ _ row) eqn:Eu; [|done]. apply list_elem_of_In in Hin.
    by rewrite (List.find_none _ _ E row Hin) in Eu.
Qed.

(** What a stored key is like: its row is the wallet's only one. *)
Lemma stored_key (rotate : bool) wallet_id prefix hash scopes until now s row s' :
  (if rotate then Users.upsert_api_key_stmt wallet_id prefix hash scopes until
   else Users.create_api_key_stmt wallet_id prefix hash scopes until) now s = (Ok row, s') ->
  (forall k, k ∈ Users.api_keys s -> Users.k_wallet_id k <> wallet_id -> Users.k_key_hash k <> hash) ->
  sole_key row (Users.api_keys s') /\ Users.k_wallet_id row = wallet_id /\ Users.k_key_hash row = hash /\
  Users.k_scopes row = scopes /\ Users.k_expires_at row = until /\
  forall k, k ∈ Users.api_keys s' -> Users.k_wallet_id k = wallet_id -> k = row.
Proof.
  intros Hs Hfresh.
  assert (Hnew : forall row, Users.k_wallet_id row = wallet_id -> Users.k_key_hash row = hash ->
    (forall k, k ∈ Users.api_keys s -> Users.k_wallet_id k <> wallet_id) ->
    sole_key row (Users.api_keys s ++ [row]) /\ forall k, k ∈ Users.api_keys s ++ [row] -> Users.k_wallet_id k = wallet_id -> k = row).
  { intros r Ew Eh Hno. split; [split; [apply elem_of_app; right; by apply list_elem_of_singleton|]|];
      (intros k [Hk|Hk%list_elem_of_singleton]%elem_of_app; [|done]); intros E; exfalso.
    - apply (Hfresh k Hk); [by apply Hno|congruence].
    - by apply (Hno k Hk). }
  destruct rotate; [unfold Users.upsert_api_key_stmt in Hs|unfold Users.create_api_key_stmt in Hs];
    (destruct (negb (Users.key_checks _ _)); [done|]).
  - destruct (List.find _ _) as [old|] eqn:Ef; injection Hs as <- <-.
    + apply List.find_some in Ef as [Hold Eold]. cbn. split_and!; try done.
      * split; [apply list_elem_of_fmap; exists old; split; [by rewrite Eold|by apply list_elem_of_In]|].
        cbn. intros k (x & -> & Hx)%list_elem_of_fmap. destruct (Users.of_wallet wallet_id x) eqn:Ex; [done|].
        intros Eh. exfalso. apply (Hfresh x Hx); [|done]. by apply bool_decide_eq_false in Ex.
      * intros k (x & -> & Hx)%list_elem_of_fmap. destruct (Users.of_wallet wallet_id x) eqn:Ex; [done|].
        by apply bool_decide_eq_false in Ex.
    + cbn. destruct (Hnew (Users.mkApiKey (Users.next_uuid s) wallet_id prefix hash now scopes None until)) as [H1 H2]; [done|done| |].
      { intros k Hk E. pose proof (List.find_none _ _ Ef k ltac:(by apply list_elem_of_In)) as Hn.
        by apply bool_decide_eq_false in Hn. }
      by split_and!.
  - destruct (existsb _ _) eqn:Ex; [done|]. injection Hs as <- <-. cbn.
    destruct (Hnew (Users.mkApiKey (Users.next_uuid s) wallet_id prefix hash now scopes None until)) as [H1 H2]; [done|done| |].
    { intros k Hk E. assert (Ht : existsb (Users.of_wallet wallet_id) (Users.api_keys s) = true); [|congruence].
      apply existsb_exists. exists k. split; [by apply list_elem_of_In|by apply bool_decide_eq_true_2]. }
    by split_and!.
Qed.

Definition key_header (api_key : string) : HeaderMap := mkHeaderMap (Some ("Bearer " +:+ api_key)) None None None.

(** An API key works, for what it was made. When [generate_key] answers with a key (new or
    rotated, and with a digest no other wallet's key has), then a request with this key on the
    database it left is authorized for a wallet and a scope exactly when the wallet is the key's, the
    scope is one of the requested ones and, if a lifetime was requested, the key has not expired;
    and no other key of the wallet is left. *)
Lemma api_key_works wallet_id headers req (w : World) :
  calm w ->
  runs (generate_key state wallet_id headers (Json req))
    (fun r w' => forall g, r = Ok g ->
       (forall k, k ∈ Users.api_keys (Account.d_users (db w)) -> Users.k_wallet_id k <> wallet_id ->
          Users.k_key_hash k <> hash_api_key (g_api_key g)) ->
       exists row, Users.k_wallet_id row = wallet_id /\
         (forall k, k ∈ Users.api_keys (Account.d_users (db w')) -> Users.k_wallet_id k = wallet_id -> k = row) /\
         (Users.k_expires_at row = None <-> expires_in_days req = None) /\
         forall other scope w2, calm w2 -> db w2 = db w' ->
           runs (authorize_wallet_scope state (key_header (g_api_key g)) other scope)
             (fun a _ => a = Ok tt <->
                other = wallet_id /\ scope ∈ default ["read"; "write"; "sponsor"] (scopes req) /\
                match Users.k_expires_at row with Some until => tick_now w2 < until | None => True end) w2) w.
Proof.
  intros Hc. unfold generate_key, owned_wallet, authenticate. exec. exec. exec. apply exec_authenticate_session; [done|].
  intros [s|e] w1 Hc1 Ecore1 Ekeys1 _; [|done]. apply exec_ret. exec. unfold get_wallet. exec. apply exec_query; [done|].
  intros w2 Hc2 E2 _. apply exec_ret. destruct (List.find _ _) as [wallet|]; [|done].
  case_bool_decide; cbn [negb]; apply exec_ret; [|done]. exec. apply exec_ret. cbn [parse_optional].
  destruct (_ || _); [by apply exec_ret|]. exec.
  apply (exec_mono _ (fun until w' => calm w' /\ db w' = db w2 /\ (until = None <-> expires_in_days req = None))); cycle 1.
  { destruct (expires_in_days req); [exec; apply exec_ext; [done|]; intros w3 Hc3 E3 _ _|]; by apply exec_ret. }
  intros stop w3 (Hc3 & E3 & Huntil). exec. apply exec_ext; [done|]. intros w4 Hc4 E4 _ _.
  set (raw := fst _). pose proof (new_api_key_valid (Store.w_network wallet) raw) as [Hvalid Hprefix].
  destruct (new_api_key (Store.w_network wallet) raw) as [api_key prefix]. cbn [fst] in Hvalid, Hprefix. exec.
  apply exec_users; [done|]. intros w5 Hc5 E5 _.
  match type of E5 with _ = Account.set_users _ (snd ?x) => destruct x as [[row|e] s'] eqn:Es end; cbn [fst snd map_err] in E5 |- *;
    [|destruct e; by apply exec_ret].
  exec. apply (exec_mono _ (fun _ w' => calm w' /\ Account.d_users (db w') = s')); cycle 1.
  { unfold record_owner. destruct (Store.w_user_id wallet); [|apply exec_ret; by rewrite E5].
    apply exec_record; [done|]. intros w6 Hc6 Eu _. split; [done|]. by rewrite Eu, E5. }
  intros [] w6 [Hc6 E6]. apply exec_ret. intros g [= <-] Hfresh. cbn [g_api_key] in *. exists row.
  destruct (stored_key _ _ _ _ _ _ _ _ _ _ Es) as (Hsole & Ew & Eh & Esc & Eu & Hw).
  { intros k Hk. apply Hfresh. revert Hk. cbn. by rewrite E4, E3, E2, Ekeys1. }
  split_and!; [done|by rewrite E6|by rewrite Eu|]. intros other scope w7 Hc7 E7.
  eapply exec_mono; [|by apply authorize_spec]. cbn beta. intros a w8 ->.
  assert (Eb : bearer (key_header api_key) = Some api_key) by reflexivity. rewrite Eb. unfold granted. rewrite E7, E6.
  assert (Eh' : hash_api_key api_key = Users.k_key_hash row) by (by symmetry). split.
  - intros (t & [= <-] & Hg). rewrite Hprefix in Hg. destruct Hg as (_ & k & Ef & Eo & Hscope & _). rewrite Eh', (find_sole row) in Ef by done.
    destruct (Users.usable_key _ _ row) eqn:Euse; [|done]. injection Ef as <-. split_and!; [congruence|by rewrite <- Esc|].
    unfold Users.usable_key in Euse. apply andb_true_iff in Euse as [_ Euse]. destruct (Users.k_expires_at row); [lia|done].
  - intros (-> & Hscope & Hexp). exists api_key. split; [done|]. rewrite Hprefix. split; [done|]. exists row.
    rewrite Eh', (find_sole row) by done. split; [|split; [done|split; [by rewrite Esc|split; [done|]]]]; cycle 1.
    { intros t Et. by rewrite Et in Hexp. }
    unfold Users.usable_key. rewrite bool_decide_eq_true_2 by done. destruct (Users.k_expires_at row) as [t|]; [|done].
    cbn. by rewrite (proj2 (Z.ltb_lt _ t)).
Qed.
End Login.
End Exact.

#[local] Existing Instances AuditLog.checksum Users.dec_uuid Users.ascii_lower Token.Sample.digest Token.Sample.digest_laws
  Token.Sample.base64 Token.Sample.base64_laws Token.Sample.json Token.Sample.json_laws
  Auth.Sample.env Auth.Sample.argon2 Auth.Sample.lowercase.
Import AuthSafe (demo_token, demo_world).

Lemma demo_calm : calm demo_world.
Proof. constructor. Qed.

Definition demo_creds : Credentials := mkCredentials (Some " Ada@Octo.dev ") (Some "old password").


Lemma authorize_exact_witness :
  exists tok, bearer (Auth.Sample.header (demo_token 5)) = Some tok /\
    granted Auth.Sample.app tok 7 "read" (secs (ext demo_world)) (tick_now demo_world) (db demo_world).
Proof.
  destruct (authorize_exact Auth.Sample.app (Auth.Sample.header (demo_token 5)) 7 "read" demo_world demo_calm) as (r & w' & E & Hq).
  apply Hq. assert (Er : fst (authorize_wallet_scope Auth.Sample.app (Auth.Sample.header (demo_token 5)) 7 "read" demo_world) = Ret (Ok tt))
    by (vm_compute; reflexivity).
  rewrite E in Er. injection Er as ->. reflexivity.
Defined.

Definition demo_key_request : GenerateKeyRequest := mkGenerateKey None (Some ["read"]) (Some 30).

Lemma api_key_works_witness :
  exists g w', generate_key Auth.Sample.app 7 (Auth.Sample.header (demo_token 5)) (Json demo_key_request) demo_world = (Ret (Ok g), w') /\
    runs (authorize_wallet_scope Auth.Sample.app (key_header (g_api_key g)) 7 "read") (fun a _ => a = Ok tt) w' /\
    runs (authorize_wallet_scope Auth.Sample.app (key_header (g_api_key g)) 7 "write") (fun a _ => a <> Ok tt) w'.
Proof.
  destruct (api_key_works Auth.Sample.app 7 (Auth.Sample.header (demo_token 5)) demo_key_request demo_world demo_calm) as (r & w' & E & Hq).
  assert (Er : match generate_key Auth.Sample.app 7 (Auth.Sample.header (demo_token 5)) (Json demo_key_request) demo_world with
               | (Ret (Ok g), w') =>
                   match Users.api_keys (Account.d_users (db w')), ticks w' with
                   | [k], [] => bool_decide (Users.k_expires_at k = Some (2000 + 30 * Users.day)) && (Users.k_wallet_id k =? 7)
                   | _, _ => false
                   end
               | _ => false
               end = true) by (vm_compute; reflexivity).
  rewrite E in Er. destruct r as [g|e]; [|discriminate Er]. exists g, w'. split; [exact E|].
  assert (Hn : Users.api_keys (Account.d_users (db demo_world)) = []) by reflexivity.
  destruct (Hq g eq_refl) as (row & Ew & Hrow & _ & Hauth); [intros k Hk; rewrite Hn in Hk; destruct (not_elem_of_nil _ Hk)|].
  destruct (Users.api_keys (Account.d_users (db w'))) as [|k [|]]; try discriminate Er.
  destruct (ticks w') eqn:Et; [|discriminate Er]. apply andb_true_iff in Er as [Ex%bool_decide_eq_true Ek%Z.eqb_eq].
  assert (Hc : calm w') by (unfold calm; rewrite Et; constructor). assert (k = row) as -> by (apply Hrow; [apply elem_of_cons; by left|done]).
  split; (eapply exec_mono; [|apply (Hauth 7 _ w' Hc eq_refl)]); cbn beta; intros a w2 Ha.
  - apply Ha. rewrite Ex. split_and!; [done|apply elem_of_cons; by left|]. unfold tick_now. rewrite Et. reflexivity.
  - intros H. apply Ha in H as (_ & Hs & _). cbn in Hs. by apply list_elem_of_singleton in Hs.
Defined.
End AuthExact.
