(* ===== verification/Wallets.v ===== *)
(** * Wallets

    [crates/store/src/wallets.rs]: creation, gas tanks, listings, the polling schedule,
    streaming and pausing, and the sealed seed; [crates/store/src/config.rs]: the pool's
    settings. Times are in microseconds, intervals in seconds. *)

From Stdlib Require Import Sorted.
From S2P Require Import Prelude Db Paging Store.

Module Wallets.
Import Db Paging Store.
Local Open Scope db_scope.

#[export] Instance Wallet_row : Row Wallet := {| row_created_at := w_created_at; row_id := w_id |}.

Record NewWallet := mkNewWallet {
  nw_network : string;
  nw_stellar_account_g : string;
  nw_sealed_ciphertext : list Z;
  nw_sealed_nonce : list Z;
  nw_sealed_salt : list Z;
  nw_sealed_scheme : Z;
  nw_label : option string;
  nw_user_id : option Uuid;
  nw_description : option string
}.

Record NewClientWallet := mkNewClientWallet {
  nc_network : string;
  nc_stellar_account_g : string;
  nc_encrypted_backup : option string;
  nc_label : option string;
  nc_user_id : option Uuid;
  nc_description : option string
}.

Definition is_wallet (id : Uuid) (w : Wallet) : bool := bool_decide (w_id w = id).

(** The constraints of the table: the networks, the owner's row, the unique account. *)
Definition insert_wallet (known_user : Uuid -> bool) (w : Wallet) (s : State) : result Wallet sqlx_error * State :=
  if negb (bool_decide (w_network w = "mainnet") || bool_decide (w_network w = "testnet"))
     || match w_user_id w with Some u => negb (known_user u) | None => false end
  then (Err OtherDbError, s) else
  if existsb (fun x => bool_decide (w_stellar_account_g x = w_stellar_account_g w)) (wallets s)
  then (Err (UniqueViolation "wallets_stellar_account_g_key"), s)
  else (Ok w, bump (set_wallets s (wallets s ++ [w]))).

Definition create_wallet_stmt (known_user : Uuid -> bool) (new : NewWallet) (now : Z) (s : State) :
    result Wallet sqlx_error * State :=
  insert_wallet known_user
    (mkWallet (next_uuid s) (nw_network new) (nw_stellar_account_g new) (Some (nw_sealed_ciphertext new))
       (Some (nw_sealed_nonce new)) (Some (nw_sealed_salt new)) (Some (nw_sealed_scheme new)) 1 (nw_label new) (nw_user_id new)
       (nw_description new) "server" None None now now None false false None) s.

Definition create_client_wallet_stmt (known_user : Uuid -> bool) (new : NewClientWallet) (now : Z) (s : State) :
    result Wallet sqlx_error * State :=
  insert_wallet known_user
    (mkWallet (next_uuid s) (nc_network new) (nc_stellar_account_g new) None None None None 1 (nc_label new) (nc_user_id new)
       (nc_description new) "client" (nc_encrypted_backup new) None now now None false false None) s.

(** The sealed seed, the gas tank and the time of a row replaced. *)
Definition set_seed (ciphertext nonce salt : list Z) (scheme : Z) (tank : option string) (now : Z) (w : Wallet) : Wallet :=
  mkWallet (w_id w) (w_network w) (w_stellar_account_g w) (Some ciphertext) (Some nonce) (Some salt) (Some scheme)
    (w_next_muxed_id w) (w_label w) (w_user_id w) (w_description w) (w_custody w) (w_encrypted_backup w) tank
    (w_created_at w) now (w_archived_at w) (w_ingest_streaming w) (w_ingest_paused w) (w_ingest_paused_at w).

(** [UPDATE wallets SET f WHERE p RETURNING *] for a condition on one row. *)
Definition update_wallet (p : Wallet -> bool) (f : Wallet -> Wallet) (s : State) : result (option Wallet) sqlx_error * State :=
  (Ok (option_map f (List.find p (wallets s))), set_wallets s (update_where p f (wallets s))).

Definition set_gas_tank_stmt (wallet_id : Uuid) (gas_tank_account_g : string) (ciphertext nonce salt : list Z) (scheme now : Z)
    (s : State) : result (option Wallet) sqlx_error * State :=
  update_wallet (fun w => is_wallet wallet_id w && bool_decide (w_custody w = "client") && bool_decide (w_gas_tank_account_g w = None))
    (set_seed ciphertext nonce salt scheme (Some gas_tank_account_g) now) s.

(** Both listings of a user's wallets are this query. *)
Definition list_wallets_for_user_page (user_id : Uuid) (limit : Z) (before_id : option Uuid) (s : State) : list Wallet :=
  page (fun _ => true) (fun w => bool_decide (w_user_id w = Some user_id)) limit before_id (wallets s).

(** [ORDER BY created_at]; [tie] orders equal times. *)
Definition list_wallets (tie : Wallet -> Z) (s : State) : list Wallet :=
  sort_by (fun a b => (w_created_at a <? w_created_at b) || ((w_created_at a =? w_created_at b) && (tie a <=? tie b))) (wallets s).

(** ** The polling schedule *)

Definition id_leb (a b : Wallet) : bool := w_id a <=? w_id b.

(** [WHERE p AND ($after IS NULL OR id > $after) ORDER BY id LIMIT n]; no limit for [None]. *)
Definition page_after (p : Wallet -> bool) (limit : option Z) (after_id : option Uuid) (l : list Wallet) : list Wallet :=
  let rows := sort_by id_leb (List.filter (fun w => p w && match after_id with Some a => a <? w_id w | None => true end) l) in
  match limit with Some n => sql_limit n rows | None => rows end.

(** How long after the last poll the wallet rests, in seconds. *)
Definition poll_interval (active_after idle_interval dormant_after dormant_interval updated_at now : Z) : Z :=
  if now - active_after * 1000000 <? updated_at then 0
  else if updated_at <=? now - dormant_after * 1000000 then dormant_interval
  else idle_interval.

Definition cursor_of (id : Uuid) (s : State) : option IngestCursor :=
  List.find (fun c => bool_decide (ic_wallet_id c = id)) (ingest_cursor s).

Definition is_due (network : string) (active_after idle_interval dormant_after dormant_interval now : Z) (s : State) (w : Wallet) :
    bool :=
  bool_decide (w_network w = network) && negb (w_ingest_paused w)
  && match cursor_of (w_id w) s with
     | None => true
     | Some c =>
         match ic_last_polled_at c with
         | None => true
         | Some polled =>
             polled <? now - poll_interval active_after idle_interval dormant_after dormant_interval (ic_updated_at c) now * 1000000
         end
     end.

Definition wallets_due_for_poll_page (network : string) (active_after idle_interval dormant_after dormant_interval : Z)
    (limit : option Z) (after_id : option Uuid) (now : Z) (s : State) : list Wallet :=
  page_after (is_due network active_after idle_interval dormant_after dormant_interval now s) limit after_id (wallets s).

Definition wallets_due_for_poll (network : string) (active_after idle_interval dormant_after dormant_interval now : Z) (s : State) :
    list Wallet :=
  wallets_due_for_poll_page network active_after idle_interval dormant_after dormant_interval None None now s.

(** ** Details and switches *)

Definition set_details (label description : option (option string)) (now : Z) (w : Wallet) : Wallet :=
  mkWallet (w_id w) (w_network w) (w_stellar_account_g w) (w_sealed_ciphertext w) (w_sealed_nonce w) (w_sealed_salt w)
    (w_sealed_scheme w) (w_next_muxed_id w) (default (w_label w) label) (w_user_id w) (default (w_description w) description)
    (w_custody w) (w_encrypted_backup w) (w_gas_tank_account_g w) (w_created_at w) now (w_archived_at w) (w_ingest_streaming w)
    (w_ingest_paused w) (w_ingest_paused_at w).

Definition update_details_stmt (id : Uuid) (label description : option (option string)) (now : Z) (s : State) :
    result (option Wallet) sqlx_error * State :=
  update_wallet (fun w => is_wallet id w && bool_decide (w_archived_at w = None)) (set_details label description now) s.

Definition get_wallet_row (id : Uuid) (s : State) : option Wallet := List.find (is_wallet id) (wallets s).

Definition set_switches (streaming paused : bool) (paused_at : option Z) (now : Z) (w : Wallet) : Wallet :=
  mkWallet (w_id w) (w_network w) (w_stellar_account_g w) (w_sealed_ciphertext w) (w_sealed_nonce w) (w_sealed_salt w)
    (w_sealed_scheme w) (w_next_muxed_id w) (w_label w) (w_user_id w) (w_description w) (w_custody w) (w_encrypted_backup w)
    (w_gas_tank_account_g w) (w_created_at w) now (w_archived_at w) streaming paused paused_at.

Definition streaming_wallets (network : string) (limit : Z) (s : State) : list Wallet :=
  page_after (fun w => bool_decide (w_network w = network) && w_ingest_streaming w && negb (w_ingest_paused w)
                       && bool_decide (w_archived_at w = None)) (Some limit) None (wallets s).

Definition set_ingest_streaming_stmt (wallet_id : Uuid) (enabled : bool) (now : Z) (s : State) : result Z sqlx_error * State :=
  (Ok (count_where (is_wallet wallet_id) (wallets s)),
   set_wallets s (update_where (is_wallet wallet_id)
     (fun w => set_switches enabled (w_ingest_paused w) (w_ingest_paused_at w) now w) (wallets s))).

Definition set_ingest_paused_stmt (wallet_id : Uuid) (paused : bool) (now : Z) (s : State) : result (option Wallet) sqlx_error * State :=
  update_wallet (is_wallet wallet_id)
    (fun w => set_switches (w_ingest_streaming w) paused
                (if paused then Some (default now (w_ingest_paused_at w)) else None) now w) s.

(** ** The sealed seed *)

Definition latest_sealed_wallet (tie : Wallet -> Z) (network : string) (s : State) : option Wallet :=
  head (sort_by (fun a b => (w_created_at b <? w_created_at a) || ((w_created_at a =? w_created_at b) && (tie a <=? tie b)))
         (List.filter (fun w => bool_decide (w_network w = network) && bool_decide (is_Some (w_sealed_ciphertext w))) (wallets s))).

Definition has_scheme (scheme : Z) (w : Wallet) : bool := bool_decide (w_sealed_scheme w = Some scheme).

Definition reseal_wallet_stmt (wallet_id : Uuid) (ciphertext nonce salt : list Z) (new_scheme expected_old_scheme now : Z)
    (s : State) : result bool sqlx_error * State :=
  let p w := is_wallet wallet_id w && has_scheme expected_old_scheme w in
  (Ok (0 <? count_where p (wallets s)),
   set_wallets s (update_where p (fun w => set_seed ciphertext nonce salt new_scheme (w_gas_tank_account_g w) now w) (wallets s))).

(** [sealed_scheme <> target] is NULL, not true, for a row without a scheme. *)
Definition needs_reseal (target_scheme : Z) (w : Wallet) : bool :=
  match w_sealed_scheme w with Some v => negb (v =? target_scheme) | None => false end.

Definition list_wallets_needing_reseal (target_scheme batch_size : Z) (after_id : option Uuid) (s : State) : list Wallet :=
  page_after (needs_reseal target_scheme) (Some batch_size) after_id (wallets s).

(** ** Store methods *)

Section Methods.
Context {D X : Type} {tables : Part State D}.
Notation M := (M D X).

Definition found (o : option Wallet) (e : StoreError) : result Wallet StoreError := ok_or o e.

Definition create_wallet (known_user : Uuid -> bool) (new : NewWallet) : M (result Wallet StoreError) :=
  do r <- part_call (create_wallet_stmt known_user new); ret (map_err from_sqlx_conflict r).

Definition create_client_wallet (known_user : Uuid -> bool) (new : NewClientWallet) : M (result Wallet StoreError) :=
  do r <- part_call (create_client_wallet_stmt known_user new); ret (map_err from_sqlx_conflict r).

Definition set_gas_tank (wallet_id : Uuid) (tank : string) (ciphertext nonce salt : list Z) (scheme : Z) : M (result Wallet StoreError) :=
  try w <- part_call (set_gas_tank_stmt wallet_id tank ciphertext nonce salt scheme) | from_sqlx; ret (found w Conflict).

Definition get_wallet (id : Uuid) : M (result Wallet StoreError) :=
  try w <- part_query (fun _ s => get_wallet_row id s) | from_sqlx; ret (found w NotFound).

Definition update_wallet_details (id : Uuid) (label description : option (option string)) : M (result Wallet StoreError) :=
  try updated <- part_call (update_details_stmt id label description) | from_sqlx;
  match updated with
  | Some w => ret (Ok w)
  | None =>
      try w <- get_wallet id | (fun e => e);
      ret (match w_archived_at w with Some _ => Err WalletArchived | None => Err NotFound end)
  end.

Definition set_ingest_streaming (wallet_id : Uuid) (enabled : bool) : M (result unit StoreError) :=
  try n <- part_call (set_ingest_streaming_stmt wallet_id enabled) | from_sqlx;
  ret (if n =? 0 then Err NotFound else Ok tt).

Definition set_ingest_paused (wallet_id : Uuid) (paused : bool) : M (result Wallet StoreError) :=
  try w <- part_call (set_ingest_paused_stmt wallet_id paused) | from_sqlx; ret (found w NotFound).

End Methods.

Definition reseal_wallet {X} (wallet_id : Uuid) (ciphertext nonce salt : list Z) (new_scheme expected_old_scheme : Z) :
    Db.M State X (result bool StoreError) :=
  do r <- db_call (reseal_wallet_stmt wallet_id ciphertext nonce salt new_scheme expected_old_scheme); ret (map_err from_sqlx r).

(** ** [config.rs] *)

Record StoreConfig := mkStoreConfig {
  max_connections : Z;
  acquire_timeout : Z;
  idle_timeout : Z;
  statement_timeout : Z
}.

Record StoreConfigError := mkStoreConfigError { var : string; expected : string; value : string }.

Definition StoreConfig_default : StoreConfig := mkStoreConfig 10 30 600 30.
Definition MAX_POOL_SIZE : Z := 1000.

Definition parse_env (parse : string -> option Z) (env : string -> option string) (name : string) (default_ : Z) (expected : string)
    (valid : Z -> bool) : result Z StoreConfigError :=
  match env name with
  | None => Ok default_
  | Some raw =>
      match parse (trim raw) with
      | Some v => if valid v then Ok v else Err (mkStoreConfigError name expected raw)
      | None => Err (mkStoreConfigError name expected raw)
      end
  end.

Definition from_env (env : string -> option string) : result StoreConfig StoreConfigError :=
  let d := StoreConfig_default in
  let? n := parse_env parse_u32 env "DB_MAX_CONNECTIONS" (max_connections d) "an integer between 1 and 1000" (in_range 1 MAX_POOL_SIZE) in
  let? a := parse_env parse_u64 env "DB_ACQUIRE_TIMEOUT_SECS" (acquire_timeout d) "a whole number of seconds >= 1" (fun s => 1 <=? s) in
  let? i := parse_env parse_u64 env "DB_IDLE_TIMEOUT_SECS" (idle_timeout d) "a whole number of seconds >= 1" (fun s => 1 <=? s) in
  let? t := parse_env parse_u64 env "DB_STATEMENT_TIMEOUT_SECS" (statement_timeout d) "a whole number of seconds (0 disables)" (fun _ => true) in
  Ok (mkStoreConfig n a i t).

(** ** Walking the pages *)

Lemma id_leb_total a b : id_leb a b = true \/ id_leb b a = true.
Proof. unfold id_leb. destruct (Z.leb_spec (w_id a) (w_id b)), (Z.leb_spec (w_id b) (w_id a)); auto; lia. Qed.

Lemma id_leb_trans a b c : id_leb a b = true -> id_leb b c = true -> id_leb a c = true.
Proof. unfold id_leb. rewrite !Z.leb_le. lia. Qed.

Lemma filter_insert_by q a l :
  StronglySorted (fun x y => id_leb x y = true) l ->
  List.filter q (insert_by id_leb a l) = if q a then insert_by id_leb a (List.filter q l) else List.filter q l.
Proof.
  induction 1 as [|b l Hl IH Hb]; cbn; [done|]. destruct (id_leb a b) eqn:E.
  - cbn [List.filter]. destruct (q a); [|done]. destruct (q b); cbn; [by rewrite E|].
    assert (Hf : Forall (fun y => id_leb a y = true) (List.filter q l)).
    { apply Forall_forall. intros y Hy. apply list_elem_of_In, filter_In in Hy as [Hy _]. rewrite Forall_forall in Hb.
      eapply id_leb_trans; [exact E|]. apply Hb. by apply list_elem_of_In. }
    destruct (List.filter q l) as [|c r]; cbn; [done|]. apply Forall_cons in Hf as [-> _]. done.
  - cbn [List.filter]. rewrite IH. destruct (q a), (q b); cbn; by rewrite ?E.
Qed.

(** Sorting and selecting commute. *)
Lemma sort_filter q l : sort_by id_leb (List.filter q l) = List.filter q (sort_by id_leb l).
Proof.
  induction l as [|a l IH]; cbn; [done|]. rewrite filter_insert_by by (apply sort_by_sorted; [apply id_leb_total|apply id_leb_trans]).
  destruct (q a); cbn; by rewrite IH.
Qed.

(** The rows after [after_id] in a list. *)
Definition rest_after (after_id : option Uuid) (l : list Wallet) : list Wallet :=
  List.filter (fun w => match after_id with Some a => a <? w_id w | None => true end) l.

Lemma rest_after_None l : rest_after None l = l.
Proof. unfold rest_after. induction l as [|x l IH]; cbn; [done|by rewrite IH]. Qed.

Lemma filter_both {A} (p q : A -> bool) l : List.filter (fun x => p x && q x) l = List.filter q (List.filter p l).
Proof. induction l as [|x l IH]; cbn; [done|]. destruct (p x); cbn; [destruct (q x)|]; by rewrite IH. Qed.

Lemma page_after_rest p limit after l :
  page_after p limit after l =
  let rows := rest_after after (sort_by id_leb (List.filter p l)) in match limit with Some n => sql_limit n rows | None => rows end.
Proof. unfold page_after. by rewrite filter_both, sort_filter. Qed.

(** Rows in increasing order of their ids. *)
Definition ascending (l : list Wallet) : Prop := StronglySorted (fun x y => w_id x < w_id y) l.

Lemma sorted_ascending l : NoDup (map w_id l) -> ascending (sort_by id_leb l).
Proof.
  intros Hn. assert (Hs : StronglySorted (fun x y => id_leb x y = true) (sort_by id_leb l))
    by (apply sort_by_sorted; [apply id_leb_total|apply id_leb_trans]).
  assert (Hn' : NoDup (map w_id (sort_by id_leb l))) by (by rewrite sort_by_perm). clear Hn. unfold ascending.
  induction Hs as [|x r Hr IH Hx]; [constructor|]. cbn in Hn'. apply NoDup_cons in Hn' as [Hx' Hn']. constructor; [by apply IH|].
  rewrite Forall_forall in Hx |- *. intros y Hy. specialize (Hx y Hy). apply Z.leb_le in Hx.
  assert (w_id x <> w_id y); [|lia]. intros E. apply Hx'. rewrite E. by apply list_elem_of_fmap_2.
Qed.

Lemma ascending_app l1 l2 : ascending (l1 ++ l2) -> ascending l1 /\ ascending l2 /\ forall x y, x ∈ l1 -> y ∈ l2 -> w_id x < w_id y.
Proof.
  unfold ascending. induction l1 as [|a l1 IH]; cbn; intros Hs; [split_and!; [constructor|done|by intros x y ?%not_elem_of_nil]|].
  apply StronglySorted_inv in Hs as [Hs Ha]. apply IH in Hs as (H1 & H2 & H3). apply Forall_app in Ha as [Ha1 Ha2].
  split_and!; [by constructor|done|]. intros x y [->|Hx]%elem_of_cons Hy; [|by apply H3]. rewrite Forall_forall in Ha2. by apply Ha2.
Qed.

Lemma rest_after_split pre x post : ascending (pre ++ x :: post) -> rest_after (Some (w_id x)) (pre ++ x :: post) = post.
Proof.
  intros (_ & Hpost & Hpre)%ascending_app. apply StronglySorted_inv in Hpost as [_ Hx]. unfold rest_after.
  rewrite List.filter_app. cbn. rewrite Z.ltb_irrefl.
  assert (E1 : List.filter (fun w => w_id x <? w_id w) pre = []).
  { clear -Hpre. induction pre as [|y pre IH]; cbn; [done|]. specialize (Hpre y x) as Hy.
    rewrite (proj2 (Z.ltb_ge _ _)) by (assert (w_id y < w_id x) by (apply Hy; apply elem_of_cons; by left); lia).
    apply IH. intros a b Ha. apply Hpre. apply elem_of_cons. by right. }
  rewrite E1. cbn. clear -Hx. induction post as [|y post IH]; cbn; [done|]. apply Forall_cons in Hx as [Hy Hx].
  rewrite (proj2 (Z.ltb_lt _ _)) by done. by rewrite IH.
Qed.

Lemma filter_ids_unique p l : NoDup (map w_id l) -> NoDup (map w_id (List.filter p l)).
Proof. exact (nodup_ids_filter (H := Wallet_row) p l). Qed.

(** What the supervisor does in one pass: ask for the next page with the last id it got. *)
Fixpoint walk_pages (fuel : nat) (fetch : option Uuid -> list Wallet) (after_id : option Uuid) : option (list Wallet) :=
  match fuel with
  | O => None
  | S f =>
      let rows := fetch after_id in
      match last rows with
      | Some w => let* rest := walk_pages f fetch (Some (w_id w)) in Some (rows ++ rest)
      | None => Some rows
      end
  end.

Lemma walk_pages_from p n l : NoDup (map w_id l) -> 1 <= n ->
  forall fuel pre post after, sort_by id_leb (List.filter p l) = pre ++ post ->
    rest_after after (pre ++ post) = post -> (length post < fuel)%nat ->
    walk_pages fuel (fun a => page_after p (Some n) a l) after = Some post.
Proof.
  intros Hnd Hn. assert (Ha : ascending (sort_by id_leb (List.filter p l))) by (by apply sorted_ascending, filter_ids_unique).
  induction fuel as [|fuel IH]; intros pre post after Es Er Hf; [lia|]. cbn [walk_pages].
  assert (Ep : page_after p (Some n) after l = take (Z.to_nat n) post) by (rewrite page_after_rest, Es; cbn; by rewrite Er).
  rewrite Ep. destruct (last (take (Z.to_nat n) post)) as [x|] eqn:El.
  - pose proof El as Ex. apply last_Some in Ex as [mid Emid]. pose proof (take_drop (Z.to_nat n) post) as Etd. rewrite Emid in Etd.
    rewrite (IH (pre ++ mid ++ [x]) (drop (Z.to_nat n) post)).
    + cbn. by rewrite take_drop.
    + rewrite Es, <- Etd at 1. by rewrite <- !app_assoc.
    + rewrite <- Etd in Es. rewrite Es in Ha. rewrite <- !app_assoc in Ha. rewrite <- !app_assoc. cbn [app] in Ha |- *.
      rewrite (app_assoc pre mid) in Ha |- *. by apply rest_after_split.
    + assert (length post <> 0%nat) by (intros E0; destruct post; [by rewrite take_nil in El|done]). rewrite length_drop. lia.
  - apply last_None in El. rewrite El. destruct post as [|y post]; [done|]. destruct (Z.to_nat n) eqn:En; [lia|done].
Qed.

(** No wallet is skipped. Whatever the page size, one pass over the pages of the polling
    schedule ends and yields every wallet that is due, each once, in the order of their ids: the
    same as the query without a limit. *)
Lemma poll_pass_complete network active idle dormant rest n now s :
  NoDup (map w_id (wallets s)) -> 1 <= n ->
  walk_pages (S (length (wallets s))) (fun a => wallets_due_for_poll_page network active idle dormant rest (Some n) a now s) None =
    Some (wallets_due_for_poll network active idle dormant rest now s) /\
  NoDup (map w_id (wallets_due_for_poll network active idle dormant rest now s)) /\
  forall w, w ∈ wallets_due_for_poll network active idle dormant rest now s <->
    w ∈ wallets s /\ is_due network active idle dormant rest now s w = true.
Proof.
  intros Hnd Hn. set (p := is_due _ _ _ _ _ _ _).
  assert (Ep : wallets_due_for_poll network active idle dormant rest now s = sort_by id_leb (List.filter p (wallets s))).
  { unfold wallets_due_for_poll, wallets_due_for_poll_page. rewrite page_after_rest. apply rest_after_None. }
  rewrite Ep. split_and!.
  - apply (walk_pages_from p n (wallets s) Hnd Hn _ []); [done| |].
    + apply rest_after_None.
    + rewrite (Permutation_length (sort_by_perm _ _)). pose proof (filter_length_le p (wallets s)). lia.
  - rewrite sort_by_perm. by apply filter_ids_unique.
  - intros w. rewrite (sort_by_perm _ _), list_elem_of_In, filter_In, list_elem_of_In. done.
Qed.

Definition demo (id : Uuid) (network : string) (paused : bool) : Wallet :=
  mkWallet id network "G" None None None None 1 None None None "client" None None 0 0 None false paused None.

Definition demo_state : State :=
  mkState 10 [demo 4 "testnet" false; demo 2 "testnet" false; demo 3 "testnet" true; demo 1 "mainnet" false; demo 5 "testnet" false]
    [] [] [mkIngestCursor 2 None 0 (Some 1000000)] [] [] [].

End Wallets.
