(* ===== verification/MigrateKeys.v ===== *)
(** * Rotating the master key

    [bin/migrate-keys/src/main.rs]: the tool that re-seals wallet seeds from the old master key to
    the new one, page by page, with a checkpoint file to resume from. The random salts and nonces
    are a stream; the checkpoint file is part of the world outside the database. *)

From S2P Require Import Prelude Db Paging Store Wallets Crypto Email Users Token.

Module MigrateKeys.
Import Db Runs Paging.
Import Store (Uuid, State, Wallet, update_where).
Import Wallets.
Import Crypto.
Import Email (Digest, sha256, hex_encode).
Import Users (UuidText, uuid_text, parse_uuid).
Local Open Scope db_scope.

(** The errors name what failed, with the wallet where there is one. *)
Inductive MigrateError := DatabaseError | Malformed | OtherKeyPair | InvalidCursor | SchemeRange (id : Uuid) | BadParts (id : Uuid)
  | CannotReseal (id : Uuid) | FileError.

(** What the tool keeps outside the database: the checkpoint file and the random bytes. *)
Record Outside := mkOutside { checkpoint_file : option string; draws : list (list Z * list Z) }.

(** [checkpoint_path] names the file [checkpoint_file]. *)
Record Config := mkConfig {
  old_key : list Z;
  new_key : list Z;
  batch_size : Z;
  dry_run : bool
}.

Definition DEFAULT_BATCH_SIZE : Z := 100.

(** [--batch-size N]: the argument after the first [--batch-size]. *)
Fixpoint skip_to (flag : string) (args : list string) : list string :=
  match args with [] => [] | a :: r => if bool_decide (a = flag) then args else skip_to flag r end.

Definition parse_batch_size (args : list string) : option Z :=
  let n := default DEFAULT_BATCH_SIZE (let* v := nth_error (skip_to "--batch-size" args) 1 in parse_i64 v) in
  if n <=? 0 then None else Some n.

(** What is wrong with the environment, by the name of the variable. *)
Inductive ConfigError := Required (var : string) | NotBase64 (var : string) | WrongLength (var : string) | BatchSizeNotPositive.

(** [base64::engine::general_purpose::STANDARD.decode]. *)
Definition Base64Decode := string -> option (list Z).

Definition decode_key (b64 : Base64Decode) (env : string -> option string) (env_var : string) : result (list Z) ConfigError :=
  let? text := ok_or (env env_var) (Required env_var) in
  let? raw := ok_or (b64 (trim text)) (NotBase64 env_var) in
  map_err (fun _ => WrongLength env_var) (master_key_from_slice raw).

Definition config_from_env (b64 : Base64Decode) (env : string -> option string) (args : list string) : result Config ConfigError :=
  let? _ := ok_or (env "DATABASE_URL") (Required "DATABASE_URL") in
  let? old := decode_key b64 env "MASTER_KEY" in
  let? new := match env "MASTER_KEY_NEXT" with Some _ => decode_key b64 env "MASTER_KEY_NEXT" | None => Ok old end in
  let? size := ok_or (parse_batch_size args) BatchSizeNotPositive in
  Ok (mkConfig old new size (existsb (String.eqb "--dry-run") args)).

(** A configuration is fit for [rotation_resumes]: full keys and a page size that advances. *)
Lemma config_fit b64 env args cfg :
  config_from_env b64 env args = Ok cfg ->
  length (old_key cfg) = MASTER_KEY_LEN /\ length (new_key cfg) = MASTER_KEY_LEN /\ 1 <= batch_size cfg /\
  (env "MASTER_KEY_NEXT" = None -> new_key cfg = old_key cfg).
Proof.
  assert (Hk : forall v k, decode_key b64 env v = Ok k -> length k = MASTER_KEY_LEN).
  { intros v k. unfold decode_key. destruct (env v) as [t|]; [|done]. cbn. destruct (b64 (trim t)) as [r|]; [|done]. cbn.
    unfold master_key_from_slice. destruct (Nat.eqb_spec (length r) MASTER_KEY_LEN); [by intros [= <-]|done]. }
  unfold config_from_env. destruct (env "DATABASE_URL"); [|done]. cbn [ok_or result_bind].
  destruct (decode_key b64 env "MASTER_KEY") as [old|] eqn:Eo; [|done]. cbn [result_bind].
  destruct (match env "MASTER_KEY_NEXT" with Some _ => _ | None => _ end) as [new|] eqn:En; [|done]. cbn [result_bind].
  destruct (parse_batch_size args) as [size|] eqn:Es; [|done]. unfold parse_batch_size in Es. cbn [ok_or result_bind].
  destruct (Z.leb_spec (default DEFAULT_BATCH_SIZE (let* v := nth_error (skip_to "--batch-size" args) 1 in parse_i64 v)) 0) as [|Hs]; [done|].
  injection Es as <-. intros [= <-]. cbn [old_key new_key batch_size]. split_and!; [by eapply Hk| |by apply (Z.le_succ_l 0)|].
  - destruct (env "MASTER_KEY_NEXT"); [by eapply Hk|]. injection En as <-. by eapply Hk.
  - intros E. rewrite E in En. congruence.
Qed.

Section Tool.
Context `{Aead} `{Digest} `{UuidText}.

(** ** The checkpoint *)

Definition key_pair_fingerprint (old new : list Z) : string :=
  hex_encode (sha256 (bytes_of "octo-migrate-keys/checkpoint/v1" ++ old ++ new)).

Definition newline : ascii := ascii_of_N 10.

(** [str::lines], for a text without carriage returns. *)
Fixpoint lines (fuel : nat) (s : string) : list string :=
  match fuel with
  | O => []
  | S f => if is_empty s then [] else
           match split_once newline s with Some (a, b) => a :: lines f b | None => [s] end
  end.

Definition field (name : string) (acc : option string) (line : string) : option string :=
  match split_once "=" line with
  | Some (k, v) => if bool_decide (k = name) then Some (trim v) else acc
  | None => acc
  end.

Definition read_checkpoint (file : option string) (fingerprint : string) : result (option Uuid) MigrateError :=
  match file with
  | None => Ok None
  | Some contents =>
      let ls := lines (S (String.length contents)) contents in
      match fold_left (field "fingerprint") ls None, fold_left (field "after_id") ls None with
      | Some stored_fingerprint, Some stored_after_id =>
          if negb (bool_decide (stored_fingerprint = fingerprint)) then Err OtherKeyPair else
          match parse_uuid stored_after_id with Some id => Ok (Some id) | None => Err InvalidCursor end
      | _, _ => Err Malformed
      end
  end.

Definition checkpoint_text (fingerprint : string) (after_id : Uuid) : string :=
  "fingerprint=" +:+ fingerprint +:+ String newline ("after_id=" +:+ uuid_text after_id +:+ String newline "").

(** ** One wallet *)

Notation M := (M State Outside).

(** The salt and the nonce of a seal; an exhausted stream repeats zeros. *)
Definition next_draw (x : Outside) : (list Z * list Z) * Outside :=
  match draws x with
  | d :: r => (d, mkOutside (checkpoint_file x) r)
  | [] => ((repeat 0 SALT_LEN, repeat 0 NONCE_LEN), x)
  end.

Definition draw : M (list Z * list Z) := ext_call next_draw.

Definition set_checkpoint (file : option string) : M unit := ext_call (fun x => (tt, mkOutside file (draws x))).

Definition context_of (w : Wallet) : list Z := bytes_of ("octo:" +:+ Store.w_network w).
Definition account_of (w : Wallet) : string := default (Store.w_stellar_account_g w) (Store.w_gas_tank_account_g w).

(** [u8::try_from] of a 16-bit number. *)
Definition try_u8 (n : Z) : option Z := if in_range 0 255 n then Some n else None.

Definition sealed_of (ciphertext nonce salt : list Z) (scheme : Z) (id : Uuid) : result SealedSeed MigrateError :=
  let? v := ok_or (try_u8 scheme) (SchemeRange id) in
  map_err (fun _ => BadParts id) (from_parts_with_scheme ciphertext nonce salt v).

Record Totals := mkTotals { migrated : Z; skipped : Z }.

Definition migrate_wallet (cfg : Config) (w : Wallet) (t : Totals) : M (result Totals MigrateError) :=
  match Store.w_sealed_ciphertext w, Store.w_sealed_nonce w, Store.w_sealed_salt w, Store.w_sealed_scheme w with
  | Some ciphertext, Some nonce_, Some salt_, Some scheme_ =>
      try sealed <- ret (sealed_of ciphertext nonce_ salt_ scheme_ (Store.w_id w)) | (fun e => e);
      do fresh <- draw; let '(new_salt, new_nonce) := fresh in
      try new_sealed <- ret (reseal_with_account_id new_salt new_nonce (old_key cfg) (new_key cfg) sealed (context_of w) (account_of w))
        | (fun _ => CannotReseal (Store.w_id w));
      if dry_run cfg then ret (Ok (mkTotals (migrated t) (skipped t + 1))) else
      try updated <- reseal_wallet (Store.w_id w) (Crypto.ciphertext new_sealed) (nonce new_sealed) (salt new_sealed) SCHEME_V2 scheme_
        | (fun _ => DatabaseError);
      ret (Ok (if updated : bool then mkTotals (migrated t + 1) (skipped t) else mkTotals (migrated t) (skipped t + 1)))
  | _, _, _, _ => ret (Ok t)
  end.

Fixpoint migrate_batch (cfg : Config) (batch : list Wallet) (t : Totals) : M (result Totals MigrateError) :=
  match batch with
  | [] => ret (Ok t)
  | w :: rest => try t <- migrate_wallet cfg w t | (fun e => e); migrate_batch cfg rest t
  end.

(** The loop over the pages; [None] is out of fuel. *)
Fixpoint migrate_loop (fuel : nat) (cfg : Config) (fingerprint : string) (after_id : option Uuid) (t : Totals) :
    M (result (option Totals) MigrateError) :=
  match fuel with
  | O => ret (Ok None)
  | S f =>
      try batch <- query (fun _ s => list_wallets_needing_reseal SCHEME_V2 (batch_size cfg) after_id s) | (fun _ => DatabaseError);
      match last batch with
      | None => ret (Ok (Some t))
      | Some w =>
          try t <- migrate_batch cfg batch t | (fun e => e);
          do _ <- (if dry_run cfg then ret tt else set_checkpoint (Some (checkpoint_text fingerprint (Store.w_id w))));
          migrate_loop f cfg fingerprint (Some (Store.w_id w)) t
      end
  end.

(** The checkpoint is read before anything else and removed after a clean run. *)
Definition main (fuel : nat) (cfg : Config) : M (result (option Totals) MigrateError) :=
  let fingerprint := key_pair_fingerprint (old_key cfg) (new_key cfg) in
  do file <- ext_call (fun x => (checkpoint_file x, x));
  try after_id <- ret (read_checkpoint file fingerprint) | (fun e => e);
  try t <- migrate_loop fuel cfg fingerprint after_id (mkTotals 0 0) | (fun e => e);
  do _ <- (if dry_run cfg then ret tt else match t with Some _ => set_checkpoint None | None => ret tt end);
  ret (Ok t).
End Tool.

(** ** The checkpoint reads back *)

Definition plain_char (c : ascii) : bool := plain_byte (byte_val c).

Lemma str_last c s : exists u d, String c s = u +:+ String d "" /\ (forall p, str_forall p (String c s) = true -> p d = true).
Proof.
  revert c. induction s as [|c' s IH]; intros c.
  - exists "", c. split; [done|]. intros p. cbn. by intros [? _]%andb_prop.
  - destruct (IH c') as (u & d & E & Hd). exists (String c u), d. split; [cbn; by rewrite E|]. intros p. cbn [str_forall].
    intros [_ Hp]%andb_prop. by apply Hd.
Qed.

Lemma trim_plain_text s : str_forall plain_char s = true -> trim s = s.
Proof.
  destruct s as [|c s]; [done|]. intros Hp. destruct (str_last c s) as (u & d & E & Hd).
  eapply (trim_plain _ c d s u); [done|done| |by apply (Hd plain_char)]. cbn in Hp. by apply andb_prop in Hp as [Hp _].
Qed.

Lemma lines_cons fuel a b :
  a <> "" -> str_forall (fun d => bool_decide (newline <> d)) a = true -> lines (S fuel) (a +:+ String newline b) = a :: lines fuel b.
Proof.
  intros Ha Hn. cbn [lines]. assert (E : split_once newline (a +:+ String newline b) = Some (a, b)) by (by apply split_once_Some).
  rewrite E. by destruct a.
Qed.

Lemma plain_no c s : plain_char c = false -> str_forall plain_char s = true -> str_forall (fun d => bool_decide (c <> d)) s = true.
Proof. intros Hc. apply str_forall_impl. intros d Hd. apply bool_decide_eq_true_2. intros <-. congruence. Qed.

Lemma field_other name acc k v : str_forall (fun d => bool_decide ("="%char <> d)) k = true -> k <> name -> field name acc (k +:+ String "=" v) = acc.
Proof.
  intros Hk Hn. unfold field. assert (E : split_once "=" (k +:+ String "=" v) = Some (k, v)) by (by apply split_once_Some).
  by rewrite E, bool_decide_false.
Qed.

Lemma field_found name acc v : str_forall (fun d => bool_decide ("="%char <> d)) name = true -> str_forall plain_char v = true ->
  field name acc (name +:+ String "=" v) = Some v.
Proof.
  intros Hn Hv. unfold field. assert (E : split_once "=" (name +:+ String "=" v) = Some (name, v)) by (by apply split_once_Some).
  by rewrite E, bool_decide_true, trim_plain_text.
Qed.

(** A UUID is printed without white space. *)
Class PlainUuid `{UuidText} := uuid_plain : forall u, str_forall plain_char (uuid_text u) = true.

Section Checkpoint.
Context `{dg : Digest} `{ut : UuidText} `{ul : !Users.UuidTextLaws} `{up : !PlainUuid}.

Lemma checkpoint_roundtrip fp id : str_forall plain_char fp = true -> read_checkpoint (Some (checkpoint_text fp id)) fp = Ok (Some id).
Proof using ul up.
  intros Hfp. unfold read_checkpoint.
  assert (Et : checkpoint_text fp id = ("fingerprint" +:+ String "=" fp) +:+ String newline (("after_id" +:+ String "=" (uuid_text id)) +:+ String newline ""))
    by reflexivity.
  assert (El : exists f, String.length (checkpoint_text fp id) = S (S f)) by (unfold checkpoint_text; cbn; by eexists). destruct El as [f El].
  rewrite El, Et. pose proof (uuid_plain id) as Hu. 
  assert (Hnl : forall k v, str_forall plain_char k = true -> str_forall plain_char v = true ->
    str_forall (fun d => bool_decide (newline <> d)) (k +:+ String "=" v) = true).
  { intros k v Hk Hv. rewrite str_forall_app. cbn [str_forall]. rewrite !plain_no by done. done. }
  rewrite lines_cons; [|discriminate|by apply Hnl]. rewrite lines_cons; [|discriminate|by apply Hnl].
  change (lines (S f) "") with (@nil string). cbn [fold_left].
  rewrite (field_found "fingerprint"), (field_other "fingerprint"), (field_other "after_id" None "fingerprint"), (field_found "after_id") by done.
  by rewrite bool_decide_true, Users.parse_uuid_text.
Qed.

Lemma fingerprint_plain `{dl : !Token.DigestLaws} old new : str_forall plain_char (key_pair_fingerprint old new) = true.
Proof.
  eapply str_forall_impl; [|apply Token.hex_digits]. intros c Hc. unfold plain_char, plain_byte. apply in_range_spec.
  unfold is_ascii_hexdigit in Hc. rewrite !orb_true_iff, !in_range_spec in Hc. lia.
Qed.
End Checkpoint.

(** ** What a row holds *)

Section Rotation.
Context `{ae : Aead} `{al : !AeadLaws} `{dg : Digest} `{ut : UuidText}.
Variable cfg : Config.
Notation World := (World State Outside).

(** The sealed columns are filled and of another scheme. *)
Definition pending (w : Wallet) : bool :=
  match Store.w_sealed_ciphertext w, Store.w_sealed_nonce w, Store.w_sealed_salt w with
  | Some _, Some _, Some _ => needs_reseal SCHEME_V2 w
  | _, _, _ => false
  end.

Definition seed_row (w : Wallet) : result SealedSeed MigrateError :=
  match Store.w_sealed_ciphertext w, Store.w_sealed_nonce w, Store.w_sealed_salt w, Store.w_sealed_scheme w with
  | Some c, Some n, Some sa, Some v => sealed_of c n sa v (Store.w_id w)
  | _, _, _, _ => Err (BadParts (Store.w_id w))
  end.

(** The seed that a key opens the row to. *)
Definition opens (key : list Z) (w : Wallet) : option (list Z) :=
  match seed_row w with
  | Ok s => match open_with_account_id key s (context_of w) (account_of w) with Ok m => Some m | Err _ => None end
  | Err _ => None
  end.

Definition sized_draw (d : list Z * list Z) : Prop := length d.1 = SALT_LEN /\ length d.2 = NONCE_LEN.
Definition sized_draws (x : Outside) : Prop := Forall sized_draw (draws x).

Lemma draw_sized x : sized_draws x ->
  sized_draw (fst (next_draw x)) /\ sized_draws (snd (next_draw x)) /\ checkpoint_file (snd (next_draw x)) = checkpoint_file x.
Proof.
  unfold sized_draws, next_draw. destruct (draws x) as [|d r] eqn:E; cbn; [|by intros [Hd Hr]%Forall_cons].
  intros _. rewrite E. split_and!; [|done..]. split; cbn; [apply (repeat_length 0 SALT_LEN)|apply (repeat_length 0 NONCE_LEN)].
Qed.

Lemma sealed_of_fresh new id :
  scheme new = SCHEME_V2 -> length (nonce new) = NONCE_LEN -> length (salt new) = SALT_LEN ->
  sealed_of (ciphertext new) (nonce new) (salt new) SCHEME_V2 id = Ok new.
Proof.
  destruct new as [c n sa v]. cbn. intros -> Hn Hs. unfold sealed_of, from_parts_with_scheme. by rewrite Hn, Hs.
Qed.

(** The row as the tool writes it. *)
Definition resealed (new : SealedSeed) (now : Z) (w : Wallet) : Wallet :=
  set_seed (ciphertext new) (nonce new) (salt new) SCHEME_V2 (Store.w_gas_tank_account_g w) now w.

(** The new row opens under the new key to what the row held when it was read. *)
Lemma reseal_opens w sealed fresh new w' now :
  seed_row w = Ok sealed -> sized_draw fresh ->
  reseal_with_account_id fresh.1 fresh.2 (old_key cfg) (new_key cfg) sealed (context_of w) (account_of w) = Ok new ->
  context_of w' = context_of w -> account_of w' = account_of w ->
  exists m, opens (old_key cfg) w = Some m /\ opens (new_key cfg) (resealed new now w') = Some m.
Proof using al.
  intros Eo [Hs Hn] Er Ec Ea.
  destruct (proj2 (reseal_keeps fresh.1 fresh.2 (old_key cfg) (new_key cfg) sealed new (context_of w) (account_of w) Hn Hs) Er)
    as (E1 & E2 & E3 & m & H1 & H2).
  exists m. unfold opens. rewrite Eo, H1. split; [done|].
  assert (Er' : seed_row (resealed new now w') = Ok new) by (unfold seed_row; cbn -[SCHEME_V2 sealed_of]; apply sealed_of_fresh; congruence).
  rewrite Er'. change (context_of (resealed _ _ w')) with (context_of w'). change (account_of (resealed _ _ w')) with (account_of w').
  by rewrite Ec, Ea, H2.
Qed.

(** ** No seed is lost *)

Section Safe.
Variables (id : Uuid) (network account : string) (m : list Z).

(** The wallet's row gives the seed [m] to a server that has both keys. *)
Definition row_safe (w : Wallet) : Prop :=
  Store.w_network w = network /\ account_of w = account /\
  (Store.w_sealed_scheme w = Some SCHEME_V2 -> opens (new_key cfg) w = Some m \/ opens (old_key cfg) w = Some m) /\
  (Store.w_sealed_scheme w <> Some SCHEME_V2 -> opens (old_key cfg) w = Some m).

Definition seed_safe (s : State) : Prop :=
  (exists w, w ∈ Store.wallets s /\ Store.w_id w = id) /\ forall w, w ∈ Store.wallets s -> Store.w_id w = id -> row_safe w.

(** Other connections may do what keeps the seed. *)
Definition keeps_seed (s s' : State) : Prop := seed_safe s -> seed_safe s'.

Lemma reseal_safe y sealed fresh new v now s :
  (Store.w_id y = id -> row_safe y) -> Store.w_sealed_scheme y <> Some SCHEME_V2 -> seed_row y = Ok sealed -> sized_draw fresh ->
  reseal_with_account_id fresh.1 fresh.2 (old_key cfg) (new_key cfg) sealed (context_of y) (account_of y) = Ok new ->
  seed_safe s ->
  seed_safe (snd (reseal_wallet_stmt (Store.w_id y) (ciphertext new) (nonce new) (salt new) SCHEME_V2 v now s)).
Proof using al.
  intros Hy Hv Er Hd En [[w [Hw Ew]] Hs]. cbn.
  set (p := fun w => is_wallet (Store.w_id y) w && has_scheme v w). split.
  - exists (if p w then resealed new now w else w). split; [|by destruct (p w)].
    unfold update_where. apply list_elem_of_In, in_map_iff. exists w. split; [done|]. by apply list_elem_of_In.
  - intros w' Hw' Ew'. apply list_elem_of_In, in_map_iff in Hw' as (w0 & <- & Hw0). apply list_elem_of_In in Hw0. fold (p w0) in Ew' |- *.
    destruct (p w0) eqn:Ep; [|by apply Hs].
    apply andb_prop in Ep as [E1 _]. unfold is_wallet in E1. apply bool_decide_eq_true in E1. cbn in Ew'.
    specialize (Hs w0 Hw0 Ew') as (Hn & Ha & _). specialize (Hy ltac:(congruence)) as (Hn' & Ha' & _ & Ho). specialize (Ho Hv).
    destruct (reseal_opens y sealed fresh new w0 now Er Hd En) as (m' & H1 & H2);
      [unfold context_of; congruence|congruence|].
    split_and!; [done|done|intros _; left; change (opens (new_key cfg) (resealed new now w0) = Some m); congruence|done].
Qed.

Notation triple := (triple keeps_seed sized_draws).
Notation preserves := (preserves keeps_seed sized_draws).

Lemma seed_safe_stable : stable keeps_seed seed_safe.
Proof. intros s s' Hs Hr. by apply Hr. Qed.

Lemma keeps_refl s : keeps_seed s s.
Proof. by intros Hs. Qed.

Lemma preserves_try_ret {A B E F} (r : result A E) (f : E -> F) (k : A -> M State Outside (result B F)) :
  (forall a, r = Ok a -> preserves seed_safe (k a)) -> preserves seed_safe (try_bind (ret r) f k).
Proof. intros Hk. destruct r as [a|e]; [by apply Hk|apply preserves_ret]. Qed.

Lemma draw_triple : triple seed_safe draw (fun d s => seed_safe s /\ sized_draw d) seed_safe.
Proof. apply triple_ext_call; [intros x Hx; by apply draw_sized|]. intros x s Hx Hs. split; [done|by apply draw_sized]. Qed.

Lemma set_checkpoint_keeps file : preserves seed_safe (set_checkpoint file).
Proof. by apply triple_ext_call. Qed.

(** Rows as the listing gave them. *)
Definition row_read (w : Wallet) : Prop := (Store.w_id w = id -> row_safe w) /\ Store.w_sealed_scheme w <> Some SCHEME_V2.

Lemma migrate_wallet_keeps w t : row_read w -> preserves seed_safe (migrate_wallet cfg w t).
Proof using al.
  intros [Hs Hv]. unfold migrate_wallet.
  destruct (Store.w_sealed_ciphertext w) as [c|] eqn:Ec, (Store.w_sealed_nonce w) as [n|] eqn:En,
    (Store.w_sealed_salt w) as [sa|] eqn:Esa, (Store.w_sealed_scheme w) as [v|] eqn:Ev; try apply preserves_ret.
  apply preserves_try_ret. intros sealed Eo.
  assert (Er : seed_row w = Ok sealed) by (unfold seed_row; by rewrite Ec, En, Esa, Ev).
  eapply triple_bind; [apply draw_triple|]. intros [fs fn]. apply triple_pure. intros Hd. apply preserves_try_ret. intros new Enew.
  destruct (dry_run cfg); [apply preserves_ret|]. apply preserves_try; [|intros u; apply preserves_ret].
  apply preserves_bind; [|intros r; apply preserves_ret]. apply preserves_db_call; [apply keeps_refl|apply seed_safe_stable|].
  rewrite <- Ev in Hv. intros now s. by apply (reseal_safe w sealed (fs, fn) new).
Qed.

Lemma migrate_batch_keeps batch t : Forall row_read batch -> preserves seed_safe (migrate_batch cfg batch t).
Proof using al.
  intros Hb. revert t. induction Hb as [|w batch Hw Hb IH]; intros t; cbn; [apply preserves_ret|].
  apply preserves_try; [by apply migrate_wallet_keeps|apply IH].
Qed.

Lemma listed_read n after s : seed_safe s -> Forall row_read (list_wallets_needing_reseal SCHEME_V2 n after s).
Proof.
  intros [_ Hs]. apply Forall_forall. intros w Hw. unfold list_wallets_needing_reseal, page_after in Hw.
  apply elem_of_take in Hw as (i & Hw%list_elem_of_lookup_2 & _). rewrite sort_by_perm in Hw. apply list_elem_of_In, filter_In in Hw as [Hw Hp].
  apply andb_prop in Hp as [Hp _]. split; [apply Hs; by apply list_elem_of_In|].
  unfold needs_reseal in Hp. intros E. rewrite E in Hp. done.
Qed.

Lemma migrate_loop_keeps fuel fp after t : preserves seed_safe (migrate_loop fuel cfg fp after t).
Proof using al.
  revert after t. induction fuel as [|fuel IH]; intros after t; cbn; [apply preserves_ret|].
  eapply (triple_try _ _ _ _ _ _ (fun r s => seed_safe s /\ match r with Ok batch => Forall row_read batch | Err _ => True end)).
  - apply triple_query; [apply keeps_refl|apply seed_safe_stable| |by intros s Hs|done]. intros now s Hs. split; [done|]. by apply listed_read.
  - intros batch. apply triple_pure. intros Hb. destruct (last batch) as [w|]; [|apply preserves_ret].
    apply preserves_try; [by apply migrate_batch_keeps|]. intros t'.
    apply preserves_bind; [destruct (dry_run cfg); [apply preserves_ret|apply set_checkpoint_keeps]|intros _; apply IH].
  - by intros e s [Hs _].
Qed.

Lemma main_keeps fuel : preserves seed_safe (main fuel cfg).
Proof using al.
  unfold main. apply preserves_bind; [by apply triple_ext_call|]. intros file. apply preserves_try; [apply preserves_ret|]. intros after.
  apply preserves_try; [apply migrate_loop_keeps|]. intros t. apply preserves_bind; [|intros u; apply preserves_ret].
  destruct (dry_run cfg); [apply preserves_ret|]. destruct t; [apply set_checkpoint_keeps|apply preserves_ret].
Qed.
End Safe.

(** C28: rotating the master key loses no seed. Whatever fails, wherever the process dies and
    whatever else keeps the seed runs meanwhile, a run of the tool leaves every wallet's row
    openable: with the new key where the row was re-sealed, with the old one elsewhere, to the
    same seed as before. *)
Theorem rotation_keeps_seeds id network account m fuel (w : World) :
  ticks_ok (keeps_seed id network account m) (ticks w) -> sized_draws (ext w) ->
  seed_safe id network account m (db w) -> seed_safe id network account m (db (snd (main fuel cfg w))).
Proof using al.
  intros Ht Hx Hs. destruct (main_keeps id network account m fuel w Hs (conj Ht Hx)) as [_ Hr]. by destruct (fst (main fuel cfg w)).
Qed.

(** ** A run that is left alone *)

Section Complete.
Variable W0 : list Wallet.
Hypothesis ids_unique : NoDup (map Store.w_id W0).

(** The row opens under the old key, and the libraries seal it again. *)
Definition can_reseal (w : Wallet) : Prop :=
  exists sealed, seed_row w = Ok sealed /\ forall fresh, sized_draw fresh ->
    exists new, reseal_with_account_id fresh.1 fresh.2 (old_key cfg) (new_key cfg) sealed (context_of w) (account_of w) = Ok new.

Hypothesis all_open : forall w, w ∈ W0 -> pending w = true -> can_reseal w.
Hypothesis writes : dry_run cfg = false.
Hypothesis pages : 1 <= batch_size cfg.

(** The same row with its seed sealed anew. *)
Definition rotated (w w' : Wallet) : Prop :=
  exists new now m, w' = resealed new now w /\ opens (old_key cfg) w = Some m /\ opens (new_key cfg) w' = Some m.

(** The rows of [d] are done. *)
Definition progress (d : Uuid -> bool) (w w' : Wallet) : Prop :=
  if pending w && d (Store.w_id w) then rotated w w' else w' = w.

Definition done_with (d : Uuid -> bool) (x : Wallet) (i : Uuid) : bool := d i || (i =? Store.w_id x).

Lemma same_row x y : x ∈ W0 -> y ∈ W0 -> Store.w_id x = Store.w_id y -> x = y.
Proof using ids_unique.
  intros Hx Hy E. apply list_elem_of_lookup in Hx as [i Hi], Hy as [j Hj].
  assert (Hij : i = j); [|congruence]. eapply (NoDup_lookup _ _ _ _ ids_unique); [by rewrite list_lookup_fmap, Hi|].
  by rewrite list_lookup_fmap, Hj, E.
Qed.

(** The statement moves the row of [x] on and no other. *)
Lemma reseal_progress d x v new now s :
  x ∈ W0 -> pending x = true -> d (Store.w_id x) = false -> Store.w_sealed_scheme x = Some v ->
  rotated x (resealed new now x) -> Forall2 (progress d) W0 (Store.wallets s) ->
  reseal_wallet_stmt (Store.w_id x) (ciphertext new) (nonce new) (salt new) SCHEME_V2 v now s =
    (Ok true, Store.set_wallets s (update_where (fun w => is_wallet (Store.w_id x) w && has_scheme v w) (resealed new now) (Store.wallets s))) /\
  Forall2 (progress (done_with d x)) W0
    (update_where (fun w => is_wallet (Store.w_id x) w && has_scheme v w) (resealed new now) (Store.wallets s)).
Proof using ids_unique.
  intros Hx Hpx Hd Hv Hr Hp. set (p := fun w => is_wallet (Store.w_id x) w && has_scheme v w).
  assert (Hself : p x = true) by (unfold p, is_wallet, has_scheme; by rewrite !bool_decide_true).
  assert (Hin : x ∈ Store.wallets s).
  { apply list_elem_of_lookup in Hx as [i Hi]. destruct (Forall2_lookup_l _ _ _ _ _ Hp Hi) as (y & Hy & Hxy).
    unfold progress in Hxy. rewrite Hd, andb_false_r in Hxy. subst y. by apply list_elem_of_lookup_2 in Hy. }
  split.
  - unfold reseal_wallet_stmt. fold p. f_equal. f_equal. apply Z.ltb_lt. unfold Store.count_where.
    apply list_elem_of_In in Hin. clear -Hin Hself. assert (Hf : In x (List.filter p (Store.wallets s))) by (by apply filter_In).
    destruct (List.filter p (Store.wallets s)); cbn in *; [done|lia].
  - unfold update_where. apply Forall2_fmap_r. apply Forall2_same_length_lookup_2; [by apply (Forall2_length _ _ _ Hp)|].
    intros i a b Ha Hb. pose proof (Forall2_lookup_lr _ _ _ _ _ _ Hp Ha Hb) as Hab.
    assert (Haw : a ∈ W0) by (by apply list_elem_of_lookup_2 in Ha). unfold compose.
    destruct (decide (Store.w_id a = Store.w_id x)) as [E|E].
    + apply same_row in E; [|done..]. subst a. unfold progress in Hab. rewrite Hd, andb_false_r in Hab. subst b. rewrite Hself.
      unfold progress, done_with. rewrite Z.eqb_refl, orb_true_r, andb_true_r, Hpx. done.
    + assert (Hpb : p b = false).
      { unfold p, is_wallet. apply andb_false_iff. left. apply bool_decide_eq_false. intros Eb. apply E.
        unfold progress in Hab. destruct (pending a && d (Store.w_id a)); [destruct Hab as (? & ? & ? & -> & _); exact Eb|by subst b]. }
      rewrite Hpb. unfold progress, done_with in *. rewrite (proj2 (Z.eqb_neq _ _) E), orb_false_r. done.
Qed.

(** What holds between two rows. *)
Definition at_row (d : Uuid -> bool) (file : option string) (w : World) : Prop :=
  calm w /\ sized_draws (ext w) /\ checkpoint_file (ext w) = file /\ Forall2 (progress d) W0 (Store.wallets (db w)).

Definition counted (x : Wallet) : Z := if pending x then 1 else 0.

Lemma progress_skip d x s : x ∈ W0 -> pending x = false -> Forall2 (progress d) W0 s -> Forall2 (progress (done_with d x)) W0 s.
Proof using ids_unique.
  intros Hx Hp Hs. apply Forall2_same_length_lookup_2; [by apply (Forall2_length _ _ _ Hs)|]. intros i a b Ha Hb.
  pose proof (Forall2_lookup_lr _ _ _ _ _ _ Hs Ha Hb) as Hab. apply list_elem_of_lookup_2 in Ha.
  unfold progress, done_with in *. destruct (pending a) eqn:Epa; cbn in *; [|done].
  destruct (Z.eqb_spec (Store.w_id a) (Store.w_id x)) as [E|E]; [apply same_row in E; [by rewrite E, Hp in Epa|done..]|by rewrite orb_false_r].
Qed.

Lemma exec_migrate_wallet d file x t (w : World) :
  x ∈ W0 -> d (Store.w_id x) = false -> needs_reseal SCHEME_V2 x = true -> at_row d file w ->
  runs (migrate_wallet cfg x t)
    (fun r w' => r = Ok (mkTotals (migrated t + counted x) (skipped t)) /\ at_row (done_with d x) file w') w.
Proof using all_open ids_unique writes al.
  intros Hx Hd Hn (Hc & Hz & Hf & Hp). unfold migrate_wallet, counted.
  destruct (pending x) eqn:Ep.
  - destruct (all_open x Hx Ep) as (sealed & Er & Hre). pose proof Er as Er'. unfold seed_row in Er'.
    destruct (Store.w_sealed_ciphertext x) as [c|], (Store.w_sealed_nonce x) as [n|], (Store.w_sealed_salt x) as [sa|],
      (Store.w_sealed_scheme x) as [v|] eqn:Ev; try done.
    exec. apply exec_ret. rewrite Er'. exec. apply exec_ext; [done|]. intros w1 Hc1 E1 _ Ex1.
    destruct (draw_sized _ Hz) as (Hd1 & Hz1 & Hf1). rewrite <- Ex1 in Hz1, Hf1.
    destruct (next_draw (ext w)) as [fresh x1] eqn:Enx. cbn [fst] in *. destruct (Hre fresh Hd1) as (new & Enew). destruct fresh as [fs fn].
    exec. apply exec_ret. cbn [fst snd] in Enew. rewrite Enew. rewrite writes. exec. exec. apply exec_call; [done|]. intros w2 Hc2 E2 Ex2.
    apply exec_ret. rewrite E1 in E2 |- *.
    assert (Hro : rotated x (resealed new (tick_now w1) x)).
    { destruct (reseal_opens x sealed (fs, fn) new x (tick_now w1) Er Hd1 Enew) as (m & H1 & H2); [done..|]. by exists new, (tick_now w1), m. }
    destruct (reseal_progress d x v new (tick_now w1) (db w) Hx Ep Hd Ev Hro Hp) as [E3 Hp'].
    rewrite E3 in E2 |- *. cbn [fst snd map_err] in *. apply exec_ret. split; [done|]. split_and!; [done|congruence|congruence|].
    rewrite E2. exact Hp'.
  - assert (Hnone : Store.w_sealed_ciphertext x = None \/ Store.w_sealed_nonce x = None \/ Store.w_sealed_salt x = None).
    { unfold pending in Ep. destruct (Store.w_sealed_ciphertext x); [|auto]. destruct (Store.w_sealed_nonce x); [|auto].
      destruct (Store.w_sealed_salt x); [|auto]. congruence. }
    assert (Em : exists t', t' = mkTotals (migrated t + 0) (skipped t) /\ t' = t) by (exists t; destruct t; by rewrite Z.add_0_r).
    destruct Em as (t' & <- & ->).
    destruct (Store.w_sealed_ciphertext x), (Store.w_sealed_nonce x), (Store.w_sealed_salt x); try (destruct Hnone as [?|[?|?]]; done);
      (apply exec_ret; split; [done|]; split_and!; [done..|]; by apply progress_skip).
Qed.

Definition count_pending (l : list Wallet) : Z := Store.count_where pending l.

Lemma exec_migrate_batch file batch d t (w : World) :
  Forall (fun x => x ∈ W0 /\ d (Store.w_id x) = false /\ needs_reseal SCHEME_V2 x = true) batch -> NoDup (map Store.w_id batch) ->
  at_row d file w ->
  runs (migrate_batch cfg batch t)
    (fun r w' => r = Ok (mkTotals (migrated t + count_pending batch) (skipped t)) /\ at_row (fold_left done_with batch d) file w') w.
Proof using all_open ids_unique writes al.
  revert d t w. induction batch as [|x batch IH]; intros d t w Hb Hnd Hw; cbn [migrate_batch fold_left].
  - apply exec_ret. split; [|done]. destruct t. by rewrite Z.add_0_r.
  - apply Forall_cons in Hb as [(Hx & Hd & Hn) Hb]. cbn in Hnd. apply NoDup_cons in Hnd as [Hx' Hnd].
    exec. eapply exec_mono; [|by apply (exec_migrate_wallet d file)]. intros r w1 [-> Hw1].
    eapply exec_mono; [|apply (IH (done_with d x)); [|done|done]].
    + intros r w2 [-> Hw2]. split; [|done]. cbn [migrated skipped]. unfold count_pending. rewrite Store.count_where_cons.
      unfold counted. do 2 f_equal. lia.
    + rewrite Forall_forall in Hb |- *. intros y Hy. destruct (Hb y Hy) as (H1 & H2 & H3). split_and!; [done| |done].
      unfold done_with. rewrite H2. cbn. apply Z.eqb_neq. intros E. apply Hx'. rewrite <- E. by apply list_elem_of_fmap_2.
Qed.

Lemma done_with_all batch d i : fold_left done_with batch d i = d i || bool_decide (i ∈ map Store.w_id batch).
Proof.
  revert d. induction batch as [|x batch IH]; intros d; cbn [fold_left map].
  - rewrite bool_decide_false by apply not_elem_of_nil. by rewrite orb_false_r.
  - rewrite IH. unfold done_with. rewrite <- orb_assoc. f_equal. destruct (Z.eqb_spec i (Store.w_id x)) as [->|E]; cbn.
    + symmetry. apply bool_decide_eq_true_2. by left.
    + apply bool_decide_ext. rewrite elem_of_cons. naive_solver.
Qed.

Definition due : list Wallet := sort_by id_leb (List.filter (needs_reseal SCHEME_V2) W0).
Definition among (l : list Wallet) (i : Uuid) : bool := bool_decide (i ∈ map Store.w_id l).

Lemma progress_ext d d' l l' : (forall i, d i = d' i) -> Forall2 (progress d) l l' -> Forall2 (progress d') l l'.
Proof. intros E Hl. eapply Forall2_impl; [exact Hl|]. intros x y. unfold progress. by rewrite E. Qed.

(** The rows after the cursor are listed as they were at the start. *)
Lemma listed_due pre post after n s :
  due = pre ++ post -> rest_after after (pre ++ post) = post -> ascending (pre ++ post) ->
  Forall2 (progress (among pre)) W0 (Store.wallets s) ->
  list_wallets_needing_reseal SCHEME_V2 n after s = take (Z.to_nat n) post.
Proof.
  intros Ed Er Ha Hp. unfold list_wallets_needing_reseal.
  assert (Ef : page_after (needs_reseal SCHEME_V2) (Some n) after (Store.wallets s) = page_after (needs_reseal SCHEME_V2) (Some n) after W0).
  { unfold page_after. do 2 f_equal.
    assert (Hpre : forall i, among pre i = true -> match after with Some a => a <? i | None => true end = false).
    { intros i Hi. apply bool_decide_eq_true, list_elem_of_fmap in Hi as (y & -> & Hy).
      destruct (match after with Some a => _ | None => true end) eqn:E; [exfalso|done].
      assert (Hy' : y ∈ rest_after after (pre ++ post)).
      { unfold rest_after. apply list_elem_of_In, filter_In. split; [|exact E]. apply in_or_app. left. by apply list_elem_of_In. }
      rewrite Er in Hy'. destruct (ascending_app _ _ Ha) as (_ & _ & Hlt). specialize (Hlt y y Hy Hy'). lia. }
    clear -Hp Hpre. induction Hp as [|x y l l' Hxy Hl IH]; cbn; [done|]. rewrite IH. unfold progress in Hxy.
    destruct (pending x && among pre (Store.w_id x)) eqn:E; [|by subst y].
    apply andb_prop in E as [_ E]. destruct Hxy as (new & now & m & -> & _). cbn [resealed set_seed Store.w_id]. rewrite (Hpre _ E).
    by rewrite !andb_false_r. }
  rewrite Ef, page_after_rest. fold due. rewrite Ed. cbn. by rewrite Er.
Qed.

Lemma due_ascending : ascending due.
Proof using ids_unique. by apply sorted_ascending, filter_ids_unique. Qed.

Lemma due_elem x : x ∈ due <-> x ∈ W0 /\ needs_reseal SCHEME_V2 x = true.
Proof. unfold due. by rewrite (sort_by_perm _ _), list_elem_of_In, filter_In, list_elem_of_In. Qed.

Lemma ascending_ids l : ascending l -> NoDup (map Store.w_id l).
Proof.
  induction 1 as [|x l Hl IH Hx]; cbn; constructor; [|done]. intros (y & E & Hy)%list_elem_of_fmap. rewrite Forall_forall in Hx.
  specialize (Hx y Hy). lia.
Qed.

(** The loop from a page boundary: it ends with the rows of [post] done and counted. *)
Lemma exec_migrate_loop fp fuel pre post after file t (w : World) :
  due = pre ++ post -> rest_after after (pre ++ post) = post -> (length post < fuel)%nat -> at_row (among pre) file w ->
  runs (migrate_loop fuel cfg fp after t)
    (fun r w' => r = Ok (Some (mkTotals (migrated t + count_pending post) (skipped t))) /\
       exists file', at_row (among due) file' w') w.
Proof using All.
  revert pre post after file t w. induction fuel as [|fuel IH]; intros pre post after file t w Ed Er Hf Hw; [lia|]. cbn [migrate_loop].
  pose proof due_ascending as Ha. rewrite Ed in Ha.
  pose proof Hw as (Hc & Hz & Hfi & Hp). exec. apply exec_query; [done|]. intros w1 Hc1 E1 Ex1.
  rewrite (listed_due pre post after (batch_size cfg) (db w) Ed Er Ha Hp).
  set (n := Z.to_nat (batch_size cfg)). destruct (last (take n post)) as [x|] eqn:El.
  - pose proof El as Ex. apply last_Some in Ex as [mid Emid]. pose proof (take_drop n post) as Etd. rewrite Emid in Etd.
    assert (Hb : Forall (fun y => y ∈ W0 /\ among pre (Store.w_id y) = false /\ needs_reseal SCHEME_V2 y = true) (take n post)).
    { apply Forall_forall. intros y Hy. assert (Hyp : y ∈ post) by (rewrite <- (take_drop n post); apply elem_of_app; by left).
      assert (Hd : y ∈ due) by (rewrite Ed; apply elem_of_app; by right). apply due_elem in Hd as [H1 H2]. split_and!; [done| |done].
      apply bool_decide_eq_false. intros (z & E & Hz')%list_elem_of_fmap. destruct (ascending_app _ _ Ha) as (_ & _ & Hlt).
      specialize (Hlt z y Hz' Hyp). lia. }
    assert (Hnd : NoDup (map Store.w_id (take n post))).
    { apply ascending_ids. destruct (ascending_app _ _ Ha) as (_ & Hap & _). rewrite <- (take_drop n post) in Hap.
      by apply ascending_app in Hap as [Hap _]. }
    exec. eapply exec_mono; [|apply (exec_migrate_batch file (take n post) (among pre) t w1 Hb Hnd)]; [|by split_and!; congruence].
    intros r w2 [-> (Hc2 & Hz2 & Hf2 & Hp2)]. rewrite writes. exec. apply exec_ext; [done|]. intros w3 Hc3 E3 _ Ex3.
    eapply exec_mono; [|apply (IH (pre ++ mid ++ [x]) (drop n post) _ (Some (checkpoint_text fp (Store.w_id x))))].
    + intros r w4 [-> Hw4]. split; [|done]. cbn [migrated skipped]. do 3 f_equal. unfold count_pending.
      rewrite <- (take_drop n post) at 3. unfold Store.count_where. rewrite List.filter_app, length_app. lia.
    + rewrite Ed, <- Etd at 1. by rewrite <- !app_assoc.
    + assert (Eq : (pre ++ mid ++ [x]) ++ drop n post = (pre ++ mid) ++ x :: drop n post) by (by rewrite <- !app_assoc).
      rewrite <- Etd, app_assoc, Eq in Ha. rewrite Eq. by apply rest_after_split.
    + assert (length post <> 0%nat) by (intros E0; destruct post; [by rewrite take_nil in El|done]). rewrite length_drop. lia.
    + split_and!; [done|by rewrite Ex3|by rewrite Ex3|]. rewrite E3. eapply progress_ext; [|exact Hp2]. intros i. rewrite done_with_all, Emid.
      unfold among. rewrite (map_app _ pre), <- bool_decide_or. apply bool_decide_ext. by rewrite elem_of_app.
  - apply exec_ret. apply last_None in El. destruct post as [|y post]; [|destruct n eqn:En; [lia|done]]. rewrite app_nil_r in Ed.
    split; [by destruct t; rewrite Z.add_0_r|]. exists file. rewrite Ed. split_and!; congruence.
Qed.

(** The cursor of the checkpoint has passed no row that is still to be done. *)
Definition resumable (after : option Uuid) : Prop :=
  forall x, x ∈ W0 -> pending x = true -> match after with Some a => a < Store.w_id x | None => True end.

Definition all_rotated (l : list Wallet) : Prop :=
  Forall2 (fun w w' => if pending w then rotated w w' else w' = w) W0 l.

Definition past (after : option Uuid) (x : Wallet) : bool := match after with Some a => a <? Store.w_id x | None => true end.

Lemma split_at_cursor after l : ascending l -> l = List.filter (fun x => negb (past after x)) l ++ rest_after after l.
Proof.
  unfold rest_after. fold (past after). induction 1 as [|x l Hl IH Hx]; cbn; [done|]. destruct (past after x) eqn:E; cbn; [|by rewrite <- IH].
  assert (Hall : forall y, y ∈ l -> past after y = true).
  { intros y Hy. rewrite Forall_forall in Hx. specialize (Hx y Hy). destruct after as [a|]; [|done]. cbn in *. lia. }
  assert (E1 : List.filter (fun x => negb (past after x)) l = []).
  { clear -Hall. induction l as [|y l IH]; cbn; [done|]. rewrite (Hall y) by (by left). cbn. apply IH. intros z Hz. apply Hall. by right. }
  rewrite E1 in IH |- *. cbn in IH |- *. by rewrite <- IH.
Qed.

Lemma pending_needs x : pending x = true -> needs_reseal SCHEME_V2 x = true.
Proof. unfold pending. by destruct (Store.w_sealed_ciphertext x), (Store.w_sealed_nonce x), (Store.w_sealed_salt x). Qed.

Lemma count_pending_due : count_pending due = count_pending W0.
Proof.
  unfold count_pending, Store.count_where, due. rewrite sort_filter, <- filter_both.
  assert (E : List.filter (fun x => needs_reseal SCHEME_V2 x && pending x) (sort_by id_leb W0) = List.filter pending (sort_by id_leb W0)).
  { apply List.filter_ext. intros x. destruct (pending x) eqn:Ep; [by rewrite pending_needs|by rewrite andb_false_r]. }
  rewrite E, <- sort_filter. by rewrite (sort_by_perm _ _).
Qed.

Lemma count_pending_none l : (forall x, x ∈ l -> pending x = false) -> count_pending l = 0.
Proof.
  intros Hl. unfold count_pending. induction l as [|x l IH]; [done|]. rewrite Store.count_where_cons, (Hl x) by (by left).
  rewrite IH; [done|]. intros y Hy. apply Hl. by right.
Qed.

Lemma done_not_pending after x : resumable after -> x ∈ List.filter (fun x => negb (past after x)) due -> pending x = false.
Proof.
  intros Hre Hx. apply list_elem_of_In, filter_In in Hx as [Hx Hp]. apply list_elem_of_In, due_elem in Hx as [Hx _].
  destruct (pending x) eqn:Ep; [|done]. specialize (Hre x Hx Ep). destruct after as [a|]; cbn in *; [lia|done].
Qed.

Lemma start_progress after : resumable after -> Forall2 (progress (among (List.filter (fun x => negb (past after x)) due))) W0 W0.
Proof using ids_unique.
  intros Hre. apply Forall2_same_length_lookup_2; [done|]. intros i a b Ha Hb. assert (b = a) as -> by congruence.
  unfold progress. destruct (pending a) eqn:Ep, (among _ (Store.w_id a)) eqn:Ea; try done. exfalso.
  apply bool_decide_eq_true, list_elem_of_fmap in Ea as (y & Ey & Hy). assert (Hin : y ∈ W0).
  { apply list_elem_of_In, filter_In in Hy as [Hy _]. by apply list_elem_of_In, due_elem in Hy as [Hy _]. }
  apply list_elem_of_lookup_2 in Ha. apply same_row in Ey; [|done..]. subst y. apply (done_not_pending after a Hre) in Hy. by rewrite Ep in Hy.
Qed.

Lemma exec_main fuel after (w : World) :
  Store.wallets (db w) = W0 -> (length W0 < fuel)%nat -> calm w -> sized_draws (ext w) ->
  read_checkpoint (checkpoint_file (ext w)) (key_pair_fingerprint (old_key cfg) (new_key cfg)) = Ok after -> resumable after ->
  runs (main fuel cfg)
    (fun r w' => r = Ok (Some (mkTotals (count_pending W0) 0)) /\ checkpoint_file (ext w') = None /\ all_rotated (Store.wallets (db w'))) w.
Proof using All.
  intros Ew Hf Hc Hz Hcp Hre. unfold main. apply exec_bind. apply exec_ext; [done|]. intros w1 Hc1 E1 _ Ex1. cbn [fst snd] in *. rewrite Hcp.
  exec. apply exec_ret. exec. pose proof (split_at_cursor after due due_ascending) as Hsplit.
  set (post := rest_after after due) in *. set (pre := List.filter _ due) in Hsplit.
  eapply exec_mono; [|apply (exec_migrate_loop _ fuel pre post after (checkpoint_file (ext w)))].
  - intros r w2 [-> (file' & Hc2 & Hz2 & Hf2 & Hp2)]. cbn [migrated skipped]. rewrite writes. exec. apply exec_ext; [done|].
    intros w3 Hc3 E3 _ Ex3. apply exec_ret. rewrite Ex3, E3. cbn [snd checkpoint_file]. split_and!; [|done|].
    + do 3 f_equal. rewrite <- count_pending_due, Hsplit. unfold count_pending, Store.count_where. rewrite List.filter_app, length_app.
      pose proof (count_pending_none pre (fun x => done_not_pending after x Hre)) as H0. unfold count_pending, Store.count_where in H0. lia.
    + eapply Forall2_same_length_lookup_2; [by apply (Forall2_length _ _ _ Hp2)|]. intros i a b Ha Hb.
      pose proof (Forall2_lookup_lr _ _ _ _ _ _ Hp2 Ha Hb) as Hab. apply list_elem_of_lookup_2 in Ha. unfold progress in Hab.
      destruct (pending a) eqn:Ep; [|done]. unfold among in Hab. rewrite bool_decide_true in Hab; [done|].
      apply list_elem_of_fmap_2, due_elem. split; [done|by apply pending_needs].
  - done.
  - by rewrite <- Hsplit.
  - assert (length due <= length W0)%nat; [|rewrite Hsplit, length_app in H; lia]. unfold due.
    rewrite (Permutation_length (sort_by_perm _ _)). apply filter_length_le.
  - split_and!; [done|by rewrite Ex1|by rewrite Ex1|]. rewrite E1, Ew. by apply start_progress.
Qed.
End Complete.

(** ** Interrupted runs *)

Section Resume.
Context `{dl : !Token.DigestLaws} `{ul : !Users.UuidTextLaws} `{up : !PlainUuid}.
Notation fingerprint := (key_pair_fingerprint (old_key cfg) (new_key cfg)).

Definition unique_ids (s : State) : Prop := NoDup (map Store.w_id (Store.wallets s)).

(** Other connections add no row of an old scheme: every row to be done was to be done before. *)
Definition only_done (s s' : State) : Prop :=
  (unique_ids s -> unique_ids s') /\
  forall x', x' ∈ Store.wallets s' -> pending x' = true ->
    exists x, x ∈ Store.wallets s /\ pending x = true /\ Store.w_id x = Store.w_id x' /\ Store.w_sealed_scheme x = Store.w_sealed_scheme x'.

(** A row to be done is after the cursor or in the list. *)
Definition covered (after : option Uuid) (todo : list Wallet) (s : State) : Prop :=
  unique_ids s /\ forall x, x ∈ Store.wallets s -> pending x = true ->
    past after x = true \/ exists y, y ∈ todo /\ pending y = true /\ Store.w_id y = Store.w_id x /\ Store.w_sealed_scheme y = Store.w_sealed_scheme x.

(** The checkpoint file has passed no row that is still to be done. *)
Definition checkpoint_valid (w : World) : Prop :=
  exists after, read_checkpoint (checkpoint_file (ext w)) fingerprint = Ok after /\ covered after [] (db w).

(** From [P], [m] ends with a value in [Q] or dead with a valid checkpoint. *)
Definition leads {A} (P : World -> Prop) (m : M State Outside A) (Q : A -> World -> Prop) : Prop :=
  forall w, ticks_ok only_done (ticks w) -> P w ->
    ticks_ok only_done (ticks (snd (m w))) /\ match fst (m w) with Ret a => Q a (snd (m w)) | Crashed => checkpoint_valid (snd (m w)) end.

Lemma leads_ret {A} (a : A) (P : World -> Prop) (Q : A -> World -> Prop) : (forall w, P w -> Q a w) -> leads P (ret a) Q.
Proof. intros HQ w Ht Hw. cbn. auto. Qed.

Lemma leads_bind {A B} (m : M State Outside A) (k : A -> M State Outside B) P R Q :
  leads P m R -> (forall a, leads (R a) (k a) Q) -> leads P (bind m k) Q.
Proof.
  intros Hm Hk w Ht Hw. specialize (Hm w Ht Hw) as [Ht' Hm]. unfold bind. destruct (m w) as [[a|] w']; cbn in *; [by apply Hk|done].
Qed.

Lemma leads_try {A B E F} (m : M State Outside (result A E)) (f : E -> F) (k : A -> M State Outside (result B F)) P R (Q : result B F -> World -> Prop) :
  leads P m R -> (forall a, leads (R (Ok a)) (k a) Q) -> (forall e w, R (Err e) w -> Q (Err (f e)) w) -> leads P (try_bind m f k) Q.
Proof. intros Hm Hk He. eapply leads_bind; [exact Hm|]. intros [a|e]; [apply Hk|]. apply leads_ret. auto. Qed.

Lemma leads_conseq {A} (m : M State Outside A) (P P' : World -> Prop) (Q Q' : A -> World -> Prop) :
  leads P m Q -> (forall w, P' w -> P w) -> (forall a w, Q a w -> Q' a w) -> leads P' m Q'.
Proof. intros Hm HP HQ w Ht Hw. destruct (Hm w Ht (HP _ Hw)) as [Ht' Hr]. split; [done|]. destruct (fst (m w)); auto. Qed.

Lemma leads_ext {A} (f : Outside -> A * Outside) (P : World -> Prop) (Q : A -> World -> Prop) :
  (forall w, P w -> Q (fst (f (ext w))) (mkWorld (db w) (ticks w) (snd (f (ext w))))) -> leads P (ext_call f) Q.
Proof. intros HQ w Ht Hw. specialize (HQ w Hw). unfold ext_call. destruct (f (ext w)) as [a x]. done. Qed.

(** The file is [file] and the database in [P]. *)
Definition with_file (file : option string) (P : State -> Prop) (w : World) : Prop := checkpoint_file (ext w) = file /\ P (db w).

Lemma leads_call {A} (stmt : Z -> State -> result A sqlx_error * State) file P (Q : result A sqlx_error -> State -> Prop) :
  (forall s s', P s -> only_done s s' -> P s') ->
  (forall now s, P s -> Q (fst (stmt now s)) (snd (stmt now s)) /\ Q (Err OtherDbError) (snd (stmt now s))) ->
  (forall s, P s -> Q (Err OtherDbError) s) ->
  (forall w, with_file file (Q (Err OtherDbError)) w -> checkpoint_valid w) ->
  leads (with_file file P) (db_call stmt) (fun r => with_file file (Q r)).
Proof.
  intros HP Hstmt Hfail Hc w Ht [Hf Hw]. unfold db_call. set (t := default quiet_tick (head (ticks w))).
  assert (Hrest : ticks_ok only_done (tail (ticks w))) by (destruct (ticks w); [done|]; by apply Forall_cons in Ht as [_ Ht]).
  assert (Hs : P (t_others t (db w))).
  { unfold t. destruct (ticks w) as [|t' r]; [done|]. apply Forall_cons in Ht as [Ht _]. eapply HP; [exact Hw|apply Ht]. }
  specialize (Hstmt (t_now t) _ Hs) as [H1 H2]. specialize (Hfail _ Hs). destruct (stmt (t_now t) (t_others t (db w))) as [r s']. cbn in *.
  destruct (t_fault t); cbn; (split; [done|]); try (by split); apply Hc; by split.
Qed.

Lemma covered_stable after todo s s' : covered after todo s -> only_done s s' -> covered after todo s'.
Proof.
  intros [Hu Hc] [Hu' Hd]. split; [by apply Hu'|]. intros x' Hx' Hp'. destruct (Hd x' Hx' Hp') as (x & Hx & Hp & Ei & Ev).
  destruct (Hc x Hx Hp) as [H|(y & Hy & Hpy & Eyi & Eyv)].
  - left. unfold past in *. by rewrite <- Ei.
  - right. exists y. split_and!; [done|done|congruence|congruence].
Qed.

(** The update takes its row off the list and touches no other. *)
Lemma reseal_effect id c n sa v now s x' :
  x' ∈ Store.wallets (snd (reseal_wallet_stmt id c n sa SCHEME_V2 v now s)) -> pending x' = true ->
  x' ∈ Store.wallets s /\ ~ (Store.w_id x' = id /\ Store.w_sealed_scheme x' = Some v).
Proof.
  cbn. intros Hx Hp. apply list_elem_of_In, in_map_iff in Hx as (x & E & Hx). apply list_elem_of_In in Hx.
  destruct (is_wallet id x && has_scheme v x) eqn:Ex; [by rewrite <- E in Hp|]. subst x'. split; [done|]. intros [E1 E2].
  unfold is_wallet, has_scheme in Ex. rewrite !bool_decide_true in Ex; done.
Qed.

Lemma reseal_only_done id c n sa v now s : only_done s (snd (reseal_wallet_stmt id c n sa SCHEME_V2 v now s)).
Proof.
  split.
  - unfold unique_ids. cbn. rewrite Store.update_where_key; [done|]. done.
  - intros x' Hx' Hp'. destruct (reseal_effect _ _ _ _ _ _ _ _ Hx' Hp') as [Hx _]. by exists x'.
Qed.

Lemma reseal_covers after x v todo c n sa now s :
  Store.w_sealed_scheme x = Some v -> covered after (x :: todo) s ->
  covered after todo (snd (reseal_wallet_stmt (Store.w_id x) c n sa SCHEME_V2 v now s)).
Proof.
  intros Ev [Hu Hc]. split; [by apply reseal_only_done|]. intros x' Hx' Hp'. destruct (reseal_effect _ _ _ _ _ _ _ _ Hx' Hp') as [Hx Hn].
  destruct (Hc x' Hx Hp') as [H|(y & [->|Hy]%elem_of_cons & Hpy & Ei & Es)]; [by left| |right; by exists y].
  exfalso. apply Hn. split; congruence.
Qed.

Lemma covered_skip after x todo s : pending x = false -> covered after (x :: todo) s -> covered after todo s.
Proof.
  intros Hp [Hu Hc]. split; [done|]. intros z Hz Hpz. destruct (Hc z Hz Hpz) as [H|(y & [->|Hy]%elem_of_cons & Hpy & Ei & Es)]; [by left|congruence|].
  right. by exists y.
Qed.

Section Batch.
Variables (file : option string) (after : option Uuid).
Hypothesis reads : read_checkpoint file fingerprint = Ok after.
Hypothesis writes : dry_run cfg = false.

(** The checkpoint is good, and so is the cursor [last] once the list is worked off. *)
Definition halfway (last : option Uuid) (todo : list Wallet) (s : State) : Prop := covered after [] s /\ covered last todo s.
Definition after_row {A} (last : option Uuid) (todo : list Wallet) (r : result A MigrateError) (s : State) : Prop :=
  match r with Ok _ => halfway last todo s | Err _ => covered after [] s end.

Lemma file_valid w : with_file file (covered after []) w -> checkpoint_valid w.
Proof using reads. intros [Hf Hc]. exists after. by rewrite Hf. Qed.

Lemma halfway_stable last todo s s' : halfway last todo s -> only_done s s' -> halfway last todo s'.
Proof. intros [H1 H2] Hd. split; by eapply covered_stable. Qed.

Lemma leads_migrate_wallet last x todo t :
  leads (with_file file (halfway last (x :: todo))) (migrate_wallet cfg x t) (fun r => with_file file (after_row last todo r)).
Proof using reads writes.
  unfold migrate_wallet.
  assert (Hskip : pending x = false -> leads (with_file file (halfway last (x :: todo))) (ret (Ok t)) (fun r => with_file file (after_row last todo r))).
  { intros Hp. apply leads_ret. intros w [Hf [H1 H2]]. split; [done|]. split; [done|]. by apply (covered_skip _ x). }
  unfold pending, needs_reseal in Hskip. destruct (Store.w_sealed_ciphertext x) as [c|], (Store.w_sealed_nonce x) as [n|],
    (Store.w_sealed_salt x) as [sa|]; try (by apply Hskip). destruct (Store.w_sealed_scheme x) as [v|] eqn:Ev; [|by apply Hskip].
  clear Hskip. assert (Herr : forall (e : MigrateError) w, with_file file (halfway last (x :: todo)) w -> with_file file (after_row (A := Totals) last todo (Err e)) w).
  { intros e w [Hf [H1 _]]. by split. }
  eapply (leads_try _ _ _ _ (fun r => with_file file (halfway last (x :: todo)))); [by apply leads_ret| |intros e; apply Herr]. intros sealed.
  eapply (leads_bind _ _ _ (fun r => with_file file (halfway last (x :: todo)))).
  { apply leads_ext. intros w [Hf Hw]. split; [|done]. cbn. unfold next_draw. by destruct (draws (ext w)). }
  intros [fs fn]. eapply (leads_try _ _ _ _ (fun r => with_file file (halfway last (x :: todo)))); [by apply leads_ret| |intros e; apply Herr].
  intros new. rewrite writes. unfold reseal_wallet.
  eapply (leads_try _ _ _ _ (fun r => with_file file (match r with Ok _ => halfway last todo | Err _ => covered after [] end)));
    [|intros b; apply leads_ret; intros w Hw; by destruct b|by intros e w Hw].
  eapply (leads_bind _ _ _ (fun r => with_file file (match r with Ok _ => halfway last todo | Err _ => covered after [] end)));
    [|intros [b|e]; by apply leads_ret].
  apply (leads_call _ file _ (fun r => match r with Ok _ => halfway last todo | Err _ => covered after [] end)).
  - apply halfway_stable.
  - intros now s [H1 H2]. cbn [fst snd reseal_wallet_stmt]. split.
    + split; [eapply covered_stable; [exact H1|apply (reseal_only_done (Store.w_id x) _ _ _ v now)]|by apply (reseal_covers last x v)].
    + eapply covered_stable; [exact H1|apply (reseal_only_done (Store.w_id x) _ _ _ v now)].
  - by intros s [H1 _].
  - apply file_valid.
Qed.

Lemma leads_migrate_batch last batch t :
  leads (with_file file (halfway last batch)) (migrate_batch cfg batch t) (fun r => with_file file (after_row last [] r)).
Proof using reads writes.
  revert t. induction batch as [|x batch IH]; intros t; cbn; [by apply leads_ret|].
  eapply leads_try; [apply leads_migrate_wallet| |by intros e w Hw]. intros t'. apply IH.
Qed.
End Batch.

(** The cursor behind a page has passed nothing but the rows of the page. *)
Lemma page_covers n after x s :
  covered after [] s -> last (list_wallets_needing_reseal SCHEME_V2 n after s) = Some x ->
  covered (Some (Store.w_id x)) (list_wallets_needing_reseal SCHEME_V2 n after s) s.
Proof.
  intros [Hu Hc] Hl. split; [done|]. intros z Hz Hp. unfold list_wallets_needing_reseal, page_after in *.
  set (l := List.filter _ _) in Hl |- *. assert (Hzl : z ∈ sort_by id_leb l).
  { rewrite (sort_by_perm _ _). apply list_elem_of_In, filter_In. split; [by apply list_elem_of_In|].
    rewrite (pending_needs z Hp). destruct (Hc z Hz Hp) as [H|(y & Hy & _)]; [exact H|by apply not_elem_of_nil in Hy]. }
  unfold sql_limit in *. assert (Ha : ascending (sort_by id_leb l)) by (by apply sorted_ascending, filter_ids_unique).
  rewrite <- (take_drop (Z.to_nat n) (sort_by id_leb l)) in Hzl, Ha. apply elem_of_app in Hzl as [Hin|Hin]; [right; by exists z|]. left.
  destruct (ascending_app _ _ Ha) as (_ & _ & Hlt). apply last_Some in Hl as [mid Hl]. cbn. apply Z.ltb_lt, Hlt; [|done].
  rewrite Hl. apply elem_of_app. right. by left.
Qed.

Lemma leads_migrate_loop fuel file after t :
  dry_run cfg = false -> read_checkpoint file fingerprint = Ok after ->
  leads (with_file file (covered after [])) (migrate_loop fuel cfg fingerprint after t) (fun _ => checkpoint_valid).
Proof using dl ul up.
  intros Hw. revert file after t. induction fuel as [|fuel IH]; intros file after t Hr; cbn [migrate_loop].
  { apply leads_ret. by apply file_valid. }
  eapply (leads_try _ _ _ _ (fun r => with_file file (fun s => covered after [] s /\ match r with
    | Ok batch => match last batch with Some x => covered (Some (Store.w_id x)) batch s | None => True end | Err _ => True end))).
  - apply (leads_call _ file (covered after []) (fun r s => covered after [] s /\ match r with
      | Ok batch => match last batch with Some x => covered (Some (Store.w_id x)) batch s | None => True end | Err _ => True end)).
    + intros s s'. apply covered_stable.
    + intros now s Hs. cbn [fst snd]. split; [|done]. split; [done|]. destruct (last _) as [x|] eqn:El; [|done]. by apply page_covers.
    + done.
    + intros w [Hf [Hs _]]. by apply (file_valid file after Hr).
  - intros batch. destruct (last batch) as [x|].
    2:{ apply leads_ret. intros w [Hf [Hs _]]. by apply (file_valid file after Hr). }
    eapply leads_try; [apply (leads_migrate_batch file after Hr Hw (Some (Store.w_id x)))| |].
    + intros t'. rewrite Hw. eapply (leads_bind _ _ _ (fun _ => with_file (Some (checkpoint_text fingerprint (Store.w_id x))) (covered (Some (Store.w_id x)) [])));
        [|intros []; apply IH; apply checkpoint_roundtrip, fingerprint_plain].
      apply leads_ext. intros w [Hf [_ Hs]]. by split.
    + intros e w [Hf Hs]. by apply (file_valid file after Hr).
  - intros e w [Hf [Hs _]]. by apply (file_valid file after Hr).
Qed.

Lemma leads_main fuel :
  dry_run cfg = false -> leads checkpoint_valid (main fuel cfg) (fun _ => checkpoint_valid).
Proof using dl ul up.
  intros Hw w Ht (after & Hr & Hc). revert w Ht Hr Hc. intros w Ht Hr Hc. set (file := checkpoint_file (ext w)) in Hr.
  assert (Hl : leads (with_file file (covered after [])) (main fuel cfg) (fun _ => checkpoint_valid)).
  { unfold main. eapply (leads_bind _ _ _ (fun f w => f = file /\ with_file file (covered after []) w)).
    - apply leads_ext. intros w' [Hf Hs]. cbn. by split_and!.
    - intros f. eapply (leads_try _ _ _ _ (fun r w => r = Ok after /\ with_file file (covered after []) w)).
      + apply leads_ret. intros w' [-> Hs]. done.
      + intros a. apply (leads_conseq _ (fun w' => a = after /\ with_file file (covered after []) w') _ (fun _ => checkpoint_valid) _); [|naive_solver|done].
        eapply (leads_try _ _ _ _ (fun _ => checkpoint_valid)); [|intros o|by intros e w' Hs].
        * intros w' Ht' [-> Hs]. by apply (leads_migrate_loop fuel file after (mkTotals 0 0) Hw Hr).
        * rewrite Hw. eapply (leads_bind _ _ _ (fun _ => checkpoint_valid)); [|intros []; by apply leads_ret].
          destruct o; [|by apply leads_ret]. apply leads_ext. intros w' (a' & _ & Hu & _). exists None. split; [done|]. split; [done|].
          intros y _ _. by left.
      + intros e w' [? _]. done. }
  by apply Hl.
Qed.

(** Runs of the tool one after the other, each with its own fuel, schedule and random bytes. *)
Fixpoint attempts (l : list (nat * list (tick State) * list (list Z * list Z))) (w : World) : World :=
  match l with
  | [] => w
  | (fuel, ts, ds) :: r => attempts r (snd (main fuel cfg (mkWorld (db w) ts (mkOutside (checkpoint_file (ext w)) ds))))
  end.

Lemma attempts_valid l w :
  dry_run cfg = false -> Forall (fun a => ticks_ok only_done a.1.2) l -> checkpoint_valid w -> checkpoint_valid (attempts l w).
Proof using dl ul up.
  intros Hw Hl. revert w. induction Hl as [|[[fuel ts] ds] l Ht Hl IH]; intros w Hv; cbn; [done|]. apply IH.
  destruct (leads_main fuel Hw (mkWorld (db w) ts (mkOutside (checkpoint_file (ext w)) ds)) Ht) as [_ Hr]; [exact Hv|].
  by destruct (fst (main fuel cfg _)).
Qed.

(** C27: a rotation that was interrupted is resumed without a gap. Start the tool, not as a dry run and
    without a checkpoint, and let any number of runs fail or die at any statement, while other
    connections add no row of an old scheme. Then leave a run alone, when every row that is still to be
    done opens under the old key (a single row that does not ends every run at that row). That run
    ends; every row that was still to be done is re-sealed with scheme 2 and opens under the new key to
    what it held under the old one, the counters are exact and the checkpoint is gone. A row is to be
    done when it holds a seed whose scheme is not 2: every other row is untouched, and so a seed that
    was sealed with scheme 2 under the old key stays under the old key, although the tool is described
    as re-sealing the seed of every wallet. *)
Theorem rotation_resumes l (w : World) fuel ts ds :
  dry_run cfg = false -> 1 <= batch_size cfg ->
  checkpoint_file (ext w) = None -> unique_ids (db w) -> Forall (fun a => ticks_ok only_done a.1.2) l ->
  let w1 := attempts l w in
  let start := mkWorld (db w1) ts (mkOutside (checkpoint_file (ext w1)) ds) in
  calm start -> Forall sized_draw ds -> (length (Store.wallets (db w1)) < fuel)%nat ->
  (forall x, x ∈ Store.wallets (db w1) -> pending x = true -> can_reseal x) ->
  exists w', main fuel cfg start = (Ret (Ok (Some (mkTotals (count_pending (Store.wallets (db w1))) 0))), w') /\
    checkpoint_file (ext w') = None /\
    Forall2 (fun x x' => if pending x then rotated x x' else x' = x) (Store.wallets (db w1)) (Store.wallets (db w')).
Proof using All.
  intros Hw Hb Hf Hu Hl w1 start Hc Hd Hfuel Hre.
  assert (Hv : checkpoint_valid w1).
  { apply attempts_valid; [done|done|]. exists None. rewrite Hf. split; [done|]. split; [done|]. intros x _ _. by left. }
  destruct Hv as (after & Hr & Hu1 & Hcov).
  destruct (exec_main (Store.wallets (db w1)) Hu1 Hre Hw Hb fuel after start) as (r & w' & E & -> & H1 & H2); [done..| |by exists w'].
  intros x Hx Hp. destruct (Hcov x Hx Hp) as [H|(y & Hy & _)]; [|by apply not_elem_of_nil in Hy]. destruct after; [|done]. cbn in H. lia.
Qed.
End Resume.
End Rotation.

(** ** A rotation *)

#[local] Instance sample_uuid : UuidText := {|
  uuid_text u := Token.Sample.decimals [u];
  parse_uuid s := match Token.Sample.decimals_read s with Some (0, 1, [u]) => Some u | _ => None end
|}.

#[local] Instance sample_uuid_laws : Users.UuidTextLaws.
Proof. constructor. intros u. change (match Token.Sample.decimals_read (Token.Sample.decimals [u]) with Some (0, 1, [u]) => Some u | _ => None end = Some u).
  by rewrite Token.Sample.decimals_roundtrip. Qed.

#[local] Instance sample_uuid_plain : PlainUuid.
Proof.
  intros u. change (uuid_text u) with (Token.Sample.decimals [u]). cbn [Token.Sample.decimals str_forall]. rewrite str_forall_app.
  assert (Hd : str_forall plain_char (Token.Sample.digits (Z.abs u)) = true).
  { eapply str_forall_impl; [|apply all_digits_print_fixed]. intros c Hc. unfold plain_char, plain_byte, is_ascii_digit in *.
    apply in_range_spec. apply in_range_spec in Hc. lia. }
  rewrite Hd. by destruct (u <? 0).
Qed.

#[local] Existing Instances Toy.toy_aead Toy.toy_laws Token.Sample.digest Token.Sample.digest_laws.

Definition demo_cfg : Config := mkConfig (repeat 1 32) (repeat 2 32) 1 false.
Definition demo_row (id : Uuid) (account : string) (seed : option (list Z * Z)) : Wallet :=
  Store.mkWallet id "testnet" account (option_map fst seed) (option_map (fun _ => ex_nonce) seed) (option_map (fun _ => ex_salt) seed)
    (option_map snd seed) 1 None None None "server" None None 0 0 None false false None.

(** The toy cipher of [m] in the context of the test network. *)
Definition demo_cipher (m : list Z) : list Z := 12 :: bytes_of "octo:testnet" ++ m.
Definition demo_rows : State :=
  Store.mkState 10 [demo_row 3 "GC" (Some (demo_cipher [33], 1)); demo_row 1 "GA" (Some (demo_cipher [11], 1)); demo_row 2 "GB" None] [] [] [] [] [] [].

(** The first run dies after its first update. *)
Definition demo_ticks : list (tick State) := [mkTick NoFault 5 (fun s => s); mkTick CrashAfter 6 (fun s => s)].

Lemma rotation_keeps_seeds_witness :
  seed_safe demo_cfg 1 "testnet" "GA" [11] (db (snd (main 5 demo_cfg (mkWorld demo_rows demo_ticks (mkOutside None []))))) /\
  map Store.w_sealed_scheme (Store.wallets (db (snd (main 5 demo_cfg (mkWorld demo_rows demo_ticks (mkOutside None [])))))) = [Some 1; Some 2; None].
Proof.
  split; [|vm_compute; reflexivity].
  apply (rotation_keeps_seeds demo_cfg 1 "testnet" "GA" [11] 5 (mkWorld demo_rows demo_ticks (mkOutside None []))).
  - apply List.Forall_cons; [intros s Hs; exact Hs|]. apply List.Forall_cons; [intros s Hs; exact Hs|]. apply List.Forall_nil.
  - apply List.Forall_nil.
  - split; [exists (demo_row 1 "GA" (Some (demo_cipher [11], 1))); split; [right; left|reflexivity]|].
    intros w Hw Ew. cbn in Hw. rewrite !elem_of_cons in Hw. destruct Hw as [->|[->|[->|Hw]]]; [discriminate Ew| |discriminate Ew|by apply not_elem_of_nil in Hw].
    split_and!; [reflexivity|reflexivity|discriminate|intros _; vm_compute; reflexivity].
Defined.

Lemma rotation_resumes_witness :
  let w1 := attempts demo_cfg [(5%nat, demo_ticks, [])] (mkWorld demo_rows [] (mkOutside None [])) in
  map pending (Store.wallets (db w1)) = [true; false; false] /\ count_pending (Store.wallets (db w1)) = 1 /\
  exists w', main 5 demo_cfg (mkWorld (db w1) [] (mkOutside (checkpoint_file (ext w1)) [])) = (Ret (Ok (Some (mkTotals (count_pending (Store.wallets (db w1))) 0))), w') /\
    checkpoint_file (ext w') = None /\
    Forall2 (fun x x' => if pending x then rotated demo_cfg x x' else x' = x) (Store.wallets (db w1)) (Store.wallets (db w')).
Proof.
  cbn zeta. split; [vm_compute; reflexivity|]. split; [vm_compute; reflexivity|].
  apply (rotation_resumes demo_cfg [(5%nat, demo_ticks, [])] (mkWorld demo_rows [] (mkOutside None [])) 5 [] []).
  - reflexivity.
  - cbn. lia.
  - reflexivity.
  - cbn. repeat (apply NoDup_cons; split; [rewrite list_elem_of_In; cbn; lia|]). apply NoDup_nil. exact I.
  - assert (Hsame : forall s, only_done s s) by (intros s; split; [done|]; intros x Hx Hp; by exists x).
    apply List.Forall_cons; [|apply List.Forall_nil]. apply List.Forall_cons; [apply Hsame|]. apply List.Forall_cons; [apply Hsame|]. apply List.Forall_nil.
  - constructor.
  - constructor.
  - vm_compute. lia.
  - assert (E : Store.wallets (db (attempts demo_cfg [(5%nat, demo_ticks, [])] (mkWorld demo_rows [] (mkOutside None [])))) =
      [demo_row 3 "GC" (Some (demo_cipher [33], 1));
       resealed (mkSealedSeed (15 :: bytes_of "octo:testnet" ++ [0; 71; 65; 11]) (repeat 0 12) (repeat 0 32) 2) 6 (demo_row 1 "GA" (Some (demo_cipher [11], 1)));
       demo_row 2 "GB" None]) by (vm_compute; reflexivity).
    rewrite E. intros x Hx Hp. rewrite !elem_of_cons in Hx. destruct Hx as [->|[->|[->|Hx]]]; [|discriminate Hp|discriminate Hp|by apply not_elem_of_nil in Hx].
    exists (mkSealedSeed (demo_cipher [33]) ex_nonce ex_salt 1). split; [vm_compute; reflexivity|]. intros [fs fn] _. eexists. vm_compute. reflexivity.
Defined.
End MigrateKeys.
