(* ===== verification/AccountRoutes.v ===== *)
(** * Account export and deletion

    The handlers of [crates/api/src/routes/account.rs] over the database of [Account]: both are
    confirmed by the password and a code sent by mail, and an account is deleted only while none
    of its Stellar accounts holds a balance. The balances come from the service [Ledger]. *)

From S2P Require Import Prelude Db Paging Store Otp AuditChain AuditLog Users Account Exporting ApiHorizon Net Email Token Auth AuthSafe Wallets.

Module AccountRoutes.
Import Db Runs.
Import Store (Uuid, Wallet).
Import Users (SqlLower, UuidText, uuid_text, parse_uuid).
Import ApiHorizon (ApiError(..), from_store_error, Balance, b_balance).
Import Email (Digest).
Import Token Auth.
Local Open Scope db_scope.

(** [HorizonClient::balances]: the balance lines of an account. *)
Class Ledger (X : Type) := { balances : string -> X -> result (list Balance) ApiError * X }.

Record AccountOtpRequest := mkAccountOtpRequest { or_password : option string }.
Record AccountConfirmRequest := mkAccountConfirmRequest { cr_password : option string; cr_code : option string }.

(** A request's body as each of the two types reads it. *)
Record AccountBody := mkAccountBody { otp_request : Payload AccountOtpRequest; confirm_request : Payload AccountConfirmRequest }.

Definition EXPORT_PURPOSE : string := "account_export".
Definition DELETE_PURPOSE : string := "account_delete".
Definition ACCOUNT_ACTION_LIMIT : Z := 5.
Definition ACCOUNT_ACTION_WINDOW : Z := 60 * 60.
Definition WALLET_PAGE : Z := 100.

(** Any non-zero digit. *)
Definition is_nonzero (balance : string) : bool := str_exists (fun c => in_range 49 57 (byte_val c)) balance.

Fixpoint join (sep : string) (l : list string) : string :=
  match l with [] => "" | [s] => s | s :: r => s +:+ sep +:+ join sep r end.

Definition accounts (w : Wallet) : list string :=
  Store.w_stellar_account_g w :: match Store.w_gas_tank_account_g w with Some g => [g] | None => [] end.

Definition unavailable : ApiError := ServiceUnavailable "could not confirm wallet balances; try again later".

Section Handlers.
Context `{Digest} `{AuditChain.Hmac} `{Base64Url} `{JwtJson} `{Argon2} `{Lowercase} `{UuidText} `{SqlLower}.
Context {X : Type} `{Env X} `{Ledger X}.
Variable rank : Otp.Row -> Z.
Variable state : AppState.
(** [state.network().as_str()] *)
Variable network : string.
Notation M := (M Account.Db X).

Definition authorize (headers : HeaderMap) (peer : option Net.IpAddr) (body : AccountBody) : M (result Users.User ApiError) :=
  try _ <- check_auth_rate_limit state headers peer | same;
  try user_id <- require_login state headers | same;
  try _ <- rate_limited ("account:" +:+ uuid_text user_id) "account_action" ACCOUNT_ACTION_LIMIT ACCOUNT_ACTION_WINDOW
             "too many attempts — wait a while and try again" | same;
  try req <- ret (parse_optional (mkAccountOtpRequest None) (otp_request body)) | same;
  try password <- ret (ok_or (opt_filter (fun p => negb (is_empty p) && (slen p <=? 128)) (or_password req))
                             (BadRequest "password is required")) | same;
  try found <- get_user user_id | internal;
  try user <- ret (ok_or (opt_filter (fun u => bool_decide (Users.u_deleted_at u = None)) found) Unauthorized) | same;
  try _ <- ret (verify_password (config state) password (Users.u_password_hash user)) | (fun _ => BadRequest "incorrect password");
  ret (Ok user).

Definition redeem_otp (user_id : Uuid) (purpose : string) (body : AccountBody) : M (result unit ApiError) :=
  try req <- ret (parse_optional (mkAccountConfirmRequest None None) (confirm_request body)) | same;
  try code <- ret (code_of (cr_code req)) | same;
  do r <- verify_and_consume_otp rank user_id purpose (Email.hash_otp code) None; ret (map_err invalid_code r).

(** The loop over the pages; [None] is out of fuel. *)
Fixpoint owned_wallets (fuel : nat) (user_id : Uuid) (before : option Uuid) (wallets : list Wallet) :
    M (result (option (list Wallet)) ApiError) :=
  match fuel with
  | O => ret (Ok None)
  | S f =>
      try page <- query (fun _ d => Wallets.list_wallets_for_user_page user_id WALLET_PAGE before (Account.d_core d)) | internal;
      let all := wallets ++ page in
      if Z.of_nat (length page) <? WALLET_PAGE then ret (Ok (Some all))
      else owned_wallets f user_id (option_map Store.w_id (last page)) all
  end.

(** Whether one of the accounts holds a balance. *)
Fixpoint holds_funds (accounts : list string) : M (result bool ApiError) :=
  match accounts with
  | [] => ret (Ok false)
  | account :: rest =>
      do r <- ext_call (balances account);
      match r with
      | Ok lines => if existsb (fun l => is_nonzero (b_balance l)) lines then ret (Ok true) else holds_funds rest
      | Err NotFound => holds_funds rest
      | Err _ => ret (Err unavailable)
      end
  end.

Fixpoint funded_wallets (wallets : list Wallet) (funded : list string) : M (result (list string) ApiError) :=
  match wallets with
  | [] => ret (Ok funded)
  | w :: rest =>
      if negb (bool_decide (Store.w_network w = network)) then ret (Err unavailable) else
      try b <- holds_funds (accounts w) | same;
      funded_wallets rest (if b : bool then funded ++ [uuid_text (Store.w_id w)] else funded)
  end.

Definition ensure_no_funds (wallets : list Wallet) : M (result unit ApiError) :=
  try funded <- funded_wallets wallets [] | same;
  ret match funded with
      | [] => Ok tt
      | _ => Err (ConflictWith ("account still holds funds; withdraw or merge these wallets first: " +:+ join ", " funded))
      end.

(** Out of fuel is not an answer of the code; the theorems give enough. *)
Definition all_wallets (fuel : nat) (user_id : Uuid) : M (result (list Wallet) ApiError) :=
  try ws <- owned_wallets fuel user_id None [] | same; ret (ok_or ws Internal).

Definition export_request_otp (headers : HeaderMap) (peer : option Net.IpAddr) (body : AccountBody) : M (result bool ApiError) :=
  try user <- authorize headers peer body | same;
  try _ <- issue_otp state (Users.u_id user) EXPORT_PURPOSE (Users.u_email user) None | same;
  ret (Ok true).

Definition export_account (headers : HeaderMap) (peer : option Net.IpAddr) (body : AccountBody) :
    M (result Exporting.AccountExport ApiError) :=
  try user <- authorize headers peer body | same;
  try _ <- redeem_otp (Users.u_id user) EXPORT_PURPOSE body | same;
  try _ <- record_strict state (Users.u_id user) "exported account data" AUTH None headers | same;
  try data <- Exporting.export_account (Users.u_id user) | from_store_error;
  do now <- ext_call utc_now;
  ret (Ok (Exporting.account_export now data)).

Definition delete_request_otp (fuel : nat) (headers : HeaderMap) (peer : option Net.IpAddr) (body : AccountBody) : M (result bool ApiError) :=
  try user <- authorize headers peer body | same;
  try wallets <- all_wallets fuel (Users.u_id user) | same;
  try _ <- ensure_no_funds wallets | same;
  try _ <- issue_otp state (Users.u_id user) DELETE_PURPOSE (Users.u_email user) None | same;
  ret (Ok true).

Definition deletion_error (e : StoreError) : ApiError :=
  match e with
  | Db.Conflict => ConflictWith "your wallets changed during deletion; try again"
  | AuditChainCorrupt => ConflictWith "account deletion is unavailable; contact support"
  | other => from_store_error other
  end.

(** The transaction of the store; its batches are bounded by the rows of the log. *)
Definition delete_account_row (user_id : Uuid) (checked : list Uuid) : M (result Account.AccountDeletion StoreError) :=
  do created_at <- ext_call utc_now;
  do r <- db_call (fun now d => Account.delete_account_tx (audit_chain_key state) (S (length (AuditChain.audit_logs (Account.d_audit d))))
                                  user_id checked created_at now d);
  ret match r with
      | Ok (Some (Ok deletion)) => Ok deletion
      | Ok (Some (Err e)) => Err e
      | Ok None => Err Database
      | Err e => Err (from_sqlx e)
      end.

(** The template is a bare HTML text, where the sender takes both parts. *)
Definition notice : Email.Body := Email.mkBody (Email.account_deleted_email (current_year state)) "".

Definition delete_account (fuel : nat) (headers : HeaderMap) (peer : option Net.IpAddr) (body : AccountBody) : M (result bool ApiError) :=
  try user <- authorize headers peer body | same;
  try wallets <- all_wallets fuel (Users.u_id user) | same;
  try _ <- ensure_no_funds wallets | same;
  try _ <- redeem_otp (Users.u_id user) DELETE_PURPOSE body | same;
  try _ <- delete_account_row (Users.u_id user) (map Store.w_id wallets) | deletion_error;
  do _ <- ext_call (send_mail (Users.u_email user) "Your Octo account was deleted" notice);
  ret (Ok true).
End Handlers.

(** ** What a deletion has checked *)

#[local] Existing Instance Wallets.Wallet_row.

Section Gate.
Context `{dg : Digest} `{hm : AuditChain.Hmac} `{bu : Base64Url} `{jj : JwtJson} `{ar : Argon2} `{lc : Lowercase} `{ut : UuidText} `{sl : SqlLower}.
Context {X : Type} `{env : Env X} `{ld : !Ledger X}.
Variable rank : Otp.Row -> Z.
Variable state : AppState.
Variable network : string.
Notation World := (World Account.Db X).

(** The ledger answered that the account holds nothing or does not exist. *)
Definition reported_empty (g : string) : Prop :=
  exists x, fst (balances g x) = Err NotFound \/
    exists lines, fst (balances g x) = Ok lines /\ Forall (fun l => is_nonzero (b_balance l) = false) lines.

Definition checked (w : Wallet) : Prop := Store.w_network w = network /\ Forall reported_empty (accounts w).

Lemma holds_funds_empty l (w w' : World) : holds_funds l w = (Ret (Ok false), w') -> Forall reported_empty l.
Proof.
  revert w. induction l as [|g l IH]; intros w Hm; [constructor|]. cbn [holds_funds] in Hm.
  apply bind_returns in Hm as (r & w1 & E & Hm). unfold ext_call in E. destruct (balances g (ext w)) as [r' x] eqn:Eb. injection E as -> <-.
  destruct r as [lines|e].
  - destruct (existsb _ lines) eqn:Ez; [done|]. constructor; [|by eapply IH]. exists (ext w). right. exists lines. rewrite Eb. split; [done|].
    apply Forall_forall. intros x' Hx'. apply list_elem_of_In in Hx'. destruct (is_nonzero (b_balance x')) eqn:En; [|done].
    assert (Ht : existsb (fun l => is_nonzero (b_balance l)) lines = true) by (apply existsb_exists; by exists x'). congruence.
  - destruct e; try done. constructor; [|by eapply IH]. exists (ext w). left. by rewrite Eb.
Qed.

Lemma funded_wallets_empty ws funded (w w' : World) :
  funded_wallets network ws funded w = (Ret (Ok []), w') -> funded = [] /\ Forall checked ws.
Proof.
  revert funded w. induction ws as [|x ws IH]; intros funded w Hm; cbn [funded_wallets] in Hm; [by injection Hm as -> _|].
  case_bool_decide as En; [|done]. cbn [negb] in Hm. apply try_returns in Hm as (b & w1 & E & Hm). destruct b.
  - apply IH in Hm as [Hf _]. by destruct funded.
  - apply IH in Hm as [-> Hf]. split; [done|]. constructor; [|done]. split; [done|]. by eapply holds_funds_empty.
Qed.

Lemma ensure_no_funds_checked ws (w w' : World) b : ensure_no_funds network ws w = (Ret (Ok b), w') -> Forall checked ws.
Proof.
  intros Hm. unfold ensure_no_funds in Hm. apply try_returns in Hm as (funded & w1 & E & Hm). destruct funded; [|done].
  by apply funded_wallets_empty in E as [_ E].
Qed.

(** The password of the request opens the hash of a live user. *)
Definition knows_password (body : AccountBody) (user : Users.User) : Prop :=
  exists req password, otp_request body = Json req /\ or_password req = Some password /\ Users.u_deleted_at user = None /\
    verify_password (config state) password (Users.u_password_hash user) = Ok tt.

Lemma authorize_password headers peer body (w w' : World) user :
  authorize state headers peer body w = (Ret (Ok user), w') -> knows_password body user.
Proof.
  intros Hm. unfold authorize in Hm. steps Hm. injection Hm as <- _.
  match goal with H : parse_optional _ _ = Ok ?r |- _ => rename r into req; rename H into Ereq end.
  match goal with H : ok_or (opt_filter _ (or_password _)) _ = Ok ?p |- _ => rename p into password; rename H into Epw end.
  match goal with H : ok_or (opt_filter _ ?f) Unauthorized = Ok ?u |- _ => rename u into user; rename H into Eu; destruct f as [u'|]; [|done] end.
  cbn in Eu. case_bool_decide as Ed; [|done]. injection Eu as <-.
  match goal with H : verify_password _ _ _ = Ok ?t |- _ => rename H into Ev; destruct t end.
  destruct (otp_request body) as [|req'|] eqn:Eb; cbn in Ereq; [|injection Ereq as ->|done]; [by injection Ereq as <-|].
  exists req, password. unfold opt_filter in Epw. destruct (or_password req) as [p|]; [|done].
  destruct (negb (is_empty p) && _); [|done]. cbn in Epw. by injection Epw as ->.
Qed.

(** The store handed out a row for the purpose that is good for the code of the request. *)
Definition has_code (purpose : string) (user_id : Uuid) (body : AccountBody) : Prop :=
  exists req code now s o, confirm_request body = Json req /\ cr_code req = Some code /\
    fst (Otp.claim_stmt rank user_id purpose now s) = Ok (Some o) /\ Otp.accepts (Email.hash_otp code) None o = true.

Lemma redeem_otp_code user_id purpose body (w w' : World) b :
  redeem_otp rank user_id purpose body w = (Ret (Ok b), w') -> has_code purpose user_id body.
Proof.
  intros Hm. unfold redeem_otp in Hm. apply try_ret_returns in Hm as (req & Ereq & Hm). apply try_ret_returns in Hm as (code & Ecode & Hm).
  apply bind_returns in Hm as (r & w1 & E & Hm). destruct r as [t|]; [|done]. unfold verify_and_consume_otp in E.
  apply try_returns in E as (o & w2 & E1 & E). destruct o as [o|]; [|done]. destruct (Otp.accepts _ None o) eqn:Ea; [|done].
  apply call_returns in E1 as (now & d & E1). unfold Account.on_otp in E1.
  destruct (Otp.claim_stmt rank user_id purpose now _) as [r s] eqn:Ec. injection E1 as -> _.
  destruct (confirm_request body) as [|req'|] eqn:Eb; cbn in Ereq; [|injection Ereq as ->|done]; [by injection Ereq as <-|].
  exists req, code. eexists now, _, o. rewrite Ec. split_and!; [done| |done|done].
  unfold code_of, opt_filter in Ecode. destruct (cr_code req) as [c|]; [|done]. destruct (negb (is_empty c)); [|done]. cbn in Ecode. congruence.
Qed.

Lemma update_keeps_ids (p q : Wallet -> bool) f l :
  (forall x, p (f x) = p x) -> (forall x, Store.w_id (f x) = Store.w_id x) ->
  map Store.w_id (List.filter p (Store.update_where q f l)) = map Store.w_id (List.filter p l).
Proof.
  intros Hp Hi. unfold Store.update_where. induction l as [|x l IH]; cbn; [done|].
  destruct (q x); rewrite ?Hp; destruct (p x); cbn; by rewrite ?Hi, ?IH.
Qed.

Lemma wallet_ids_kept fuel u ids created_at now d r d' :
  Account.delete_account (audit_chain_key state) fuel u ids created_at now d = Some (Ok (r, d')) ->
  Permutation (Account.wallet_ids_of u d) ids /\ Account.wallet_ids_of u d' = Account.wallet_ids_of u d.
Proof.
  unfold Account.delete_account. destruct (Users.live_user u _); [|done]. case_bool_decide as Es; [|done]. cbn [negb].
  destruct (Users.delete_user u now _); [|done]. destruct (AuditChain.anonymise_chain _ _ _ _) as [[[cnt au]|]|]; [|done..].
  destruct (AuditChain.append_link _ _ _ _ _ _ _ _); [|done]. cbn [result_bind]. intros [= <- <-].
  split; [by apply Account.sort_Z_perm|]. unfold Account.wallet_ids_of. cbn. by apply update_keeps_ids.
Qed.

(** An account is deleted only when nothing is lost. Whatever other requests do meanwhile: when
    the handler answers that the account is deleted, the request carried the password of a live
    user and a code of the deletion purpose; the ledger reported every Stellar account and gas tank
    of the wallets it read as empty, all on the server's network; these wallets were all the
    wallets the user owned when the deletion committed, and the account is erased. *)
Lemma deletion_gate fuel headers peer body (w w' : World) b :
  delete_account rank state network fuel headers peer body w = (Ret (Ok b), w') ->
  exists user ws, knows_password body user /\ has_code DELETE_PURPOSE (Users.u_id user) body /\ Forall checked ws /\
    Permutation (Account.wallet_ids_of (Users.u_id user) (db w')) (map Store.w_id ws) /\
    Account.erased (Users.u_id user) (Account.wallet_ids_of (Users.u_id user) (db w')) (db w').
Proof.
  intros Hm. unfold delete_account in Hm.
  apply try_returns in Hm as (user & w1 & E1 & Hm). apply try_returns in Hm as (ws & w2 & E2 & Hm).
  apply try_returns in Hm as (t1 & w3 & E3 & Hm). apply try_returns in Hm as (t2 & w4 & E4 & Hm).
  apply try_returns in Hm as (del & w5 & E5 & Hm). apply bind_returns in Hm as (t3 & w6 & E6 & Hm). injection Hm as _ <-.
  assert (Ed : db w6 = db w5) by (unfold ext_call in E6; destruct (send_mail _ _ _ _) as [? ?]; by injection E6 as _ <-). rewrite Ed.
  exists user, ws. apply authorize_password in E1. apply ensure_no_funds_checked in E3. apply redeem_otp_code in E4.
  unfold delete_account_row in E5. apply bind_returns in E5 as (c & w7 & _ & E5). apply bind_returns in E5 as (r & w8 & E7 & E5).
  destruct r as [[[r|]|]|]; try done. injection E5 as _ <-. apply call_returns in E7 as (now & d & E7).
  unfold Account.delete_account_tx in E7. destruct (Account.delete_account _ _ _ _ _ _ _) as [[[r' d']|]|] eqn:E8; [|done..].
  injection E7 as _ Ed'. rewrite <- Ed'. destruct (wallet_ids_kept _ _ _ _ _ _ _ _ E8) as [HP HE].
  destruct (Account.delete_account_erases _ _ _ _ _ _ _ _ _ E8) as [Her _]. rewrite HE. by split_and!.
Qed.

(** The loop over the pages finds every wallet of the user. *)
Lemma exec_owned_wallets user_id fuel pre post before acc (w : World) :
  calm w -> let table := Store.wallets (Account.d_core (db w)) in
  NoDup (map Store.w_id table) -> Paging.full (Account.owned_by user_id) table = pre ++ post ->
  match before with None => pre = [] | Some i => exists pre' r, pre = pre' ++ [r] /\ i = Store.w_id r end -> (length post < fuel)%nat ->
  runs (owned_wallets fuel user_id before acc) (fun r w' => r = Ok (Some (acc ++ post)) /\ calm w' /\ db w' = db w /\ ext w' = ext w) w.
Proof.
  revert pre post before acc w. induction fuel as [|fuel IH]; intros pre post before acc w Hc table Hnd Hf Hb Hl; [lia|]. cbn [owned_wallets].
  assert (Hpage : Wallets.list_wallets_for_user_page user_id WALLET_PAGE before (Account.d_core (db w)) = take 100 post).
  { unfold Wallets.list_wallets_for_user_page. destruct before as [i|].
    - destruct Hb as (pre' & r & -> & ->). apply (Paging.page_segment (H := Wallets.Wallet_row) (fun _ => true) _ table Hnd (fun _ _ => eq_refl) WALLET_PAGE pre' r post).
      rewrite <- app_assoc in Hf. exact Hf.
    - subst pre. rewrite Paging.page_first. unfold Account.owned_by in Hf. fold table. by rewrite Hf. }
  exec. apply exec_query; [done|]. intros w1 Hc1 E1 Ex1. rewrite Hpage. cbv zeta.
  destruct (Z.ltb_spec (Z.of_nat (length (take 100 post))) WALLET_PAGE) as [Hs|Hs]; unfold WALLET_PAGE in Hs; rewrite length_take in Hs.
  - apply exec_ret. rewrite take_ge by lia. split_and!; [done|done|congruence|congruence].
  - destruct (last (take 100 post)) as [x|] eqn:El; [|apply last_None in El; by destruct post].
    pose proof El as [mid Hmid]%last_Some. pose proof (take_drop 100 post) as Htd.
    eapply exec_mono; [|apply (IH (pre ++ mid ++ [x]) (drop 100 post) (Some (Store.w_id x)) _ w1 Hc1)].
    + intros r w2 (-> & Hc2 & E2 & Ex2). rewrite <- app_assoc, Htd. split_and!; [done|done|congruence|congruence].
    + by rewrite E1.
    + rewrite E1. fold table. rewrite Hf, <- Htd, Hmid at 1. by rewrite <- !app_assoc.
    + exists (pre ++ mid), x. by rewrite app_assoc.
    + rewrite length_drop. lia.
Qed.

Lemma owned_wallets_complete user_id (w : World) :
  calm w -> NoDup (map Store.w_id (Store.wallets (Account.d_core (db w)))) ->
  runs (all_wallets (S (length (Store.wallets (Account.d_core (db w))))) user_id)
    (fun r w' => exists ws, r = Ok ws /\ Permutation ws (List.filter (Account.owned_by user_id) (Store.wallets (Account.d_core (db w)))) /\
       db w' = db w) w.
Proof.
  intros Hc Hnd. unfold all_wallets. exec.
  eapply exec_mono; [|apply (exec_owned_wallets user_id _ [] _ None [] w Hc Hnd eq_refl eq_refl)].
  - intros r w1 (-> & Hc1 & E1 & Ex1). apply exec_ret. eexists. split; [reflexivity|]. split; [|done].
    unfold Paging.full. by rewrite (Paging.sort_by_perm _ _).
  - unfold Paging.full. rewrite (Permutation_length (Paging.sort_by_perm _ _)).
    pose proof (List.filter_length_le (Account.owned_by user_id) (Store.wallets (Account.d_core (db w)))). lia.
Qed.
End Gate.

(** ** A deletion *)

#[local] Instance empty_ledger : Ledger Z := {| balances g x := (Ok [ApiHorizon.mkBalance "0.0000000" "native" None None], x) |}.

#[local] Existing Instances AuditLog.checksum Users.ascii_lower Users.dec_uuid Token.Sample.digest Token.Sample.base64 Token.Sample.json
  Auth.Sample.env Auth.Sample.argon2 Auth.Sample.lowercase.

Definition demo_rank (o : Otp.Row) : Z := Otp.o_id o.
Definition demo_body : AccountBody :=
  mkAccountBody (Json (mkAccountOtpRequest (Some "old password"))) (Json (mkAccountConfirmRequest (Some "old password") (Some "123456"))).
Definition demo_start : World Account.Db Z :=
  mkWorld (Account.set_otp Auth.Sample.db
    (Otp.mkState 20 [] [Otp.mkRow 8 2 "account_delete" (Email.hash_otp "123456") None 0 None Users.day 0])) [] 2000.
#[local] Notation demo_run := (delete_account demo_rank Auth.Sample.app "testnet" 5 (Auth.Sample.header (AuthSafe.demo_token 5)) None demo_body demo_start).

Lemma deletion_gate_witness :
  exists w' user ws, demo_run = (Ret (Ok true), w') /\ knows_password Auth.Sample.app demo_body user /\
    has_code demo_rank DELETE_PURPOSE (Users.u_id user) demo_body /\ Forall (checked "testnet") ws /\
    Permutation (Account.wallet_ids_of (Users.u_id user) (db w')) (map Store.w_id ws) /\
    Account.erased (Users.u_id user) (Account.wallet_ids_of (Users.u_id user) (db w')) (db w').
Proof.
  assert (Hr : match demo_run with (Ret (Ok b), _) => b | _ => false end = true) by (vm_compute; reflexivity).
  destruct demo_run as [[[[|]|]|] w'] eqn:E; try discriminate Hr. exists w'.
  destruct (deletion_gate demo_rank Auth.Sample.app "testnet" 5 (Auth.Sample.header (AuthSafe.demo_token 5)) None demo_body demo_start w' true E)
    as (user & ws & H). exists user, ws. split; [reflexivity|exact H].
Defined.
End AccountRoutes.
