(* ===== verification/Retention.v ===== *)
(** * The retention sweep

    [crates/store/src/retention.rs]: one pass that deletes what is past its time from the
    short-lived tables: codes, deny-list entries, sessions, idempotency keys, rate-limit windows
    and webhook deliveries. Times are in microseconds. *)

From stdpp Require Import gmap.
From S2P Require Import Prelude Db Store Otp AuditChain Users Sponsorship Idempotency RateLimit WebhookStore Account.

Module Retention.
Import Db Runs.
Local Open Scope db_scope.

(** The tables of an account and the table that belongs to no account. *)
Record Tables := mkTables {
  account : Account.Db;
  buckets : RateLimit.PostgresRateLimitStore
}.

Definition set_account (t : Tables) (v : Account.Db) : Tables := mkTables v (buckets t).
Definition idempotency (t : Tables) : Idempotency.State := Account.d_idem (account t).
Definition set_idempotency (t : Tables) (v : Idempotency.State) : Tables := set_account t (Account.set_idem (account t) v).
Definition set_buckets (t : Tables) (v : RateLimit.PostgresRateLimitStore) : Tables := mkTables (account t) v.

(** Durations in microseconds; the three windows that the sweep does not read are kept. *)
Record RetentionConfig := mkRetentionConfig {
  otp_grace : Z;
  denylist_grace : Z;
  session_grace : Z;
  idempotency_grace : Z;
  webhook_deliveries_keep_per_endpoint : Z;
  webhook_deliveries_min_age : Z
}.

Definition RetentionConfig_default : RetentionConfig :=
  mkRetentionConfig (7 * Users.day) 0 Users.day 0 100 (30 * Users.day).

Record RetentionReport := mkRetentionReport {
  otps_deleted : Z;
  denylist_deleted : Z;
  sessions_deleted : Z;
  idempotency_keys_deleted : Z;
  rate_limit_buckets_deleted : Z;
  webhook_deliveries_deleted : Z
}.

Definition total_deleted (r : RetentionReport) : Z :=
  otps_deleted r + denylist_deleted r + sessions_deleted r + idempotency_keys_deleted r + rate_limit_buckets_deleted r
  + webhook_deliveries_deleted r.

(** [chrono::Duration::from_std]: at most [i64::MAX] milliseconds. *)
Definition from_std (d default_ : Z) : Z := if d <=? i64_MAX * 1000 then d else default_.

Section Sweep.
Context {X : Type}.
Notation M := (M Tables X).

(** A statement on one of the tables. *)
Definition on_account {A} (stmt : Z -> Account.Db -> result A sqlx_error * Account.Db) (now : Z) (t : Tables) :
    result A sqlx_error * Tables :=
  let '(r, s) := stmt now (account t) in (r, set_account t s).
Definition on_hooks (stmt : Z -> WebhookStore.State -> result Z sqlx_error * WebhookStore.State) (now : Z) (d : Account.Db) :
    result Z sqlx_error * Account.Db :=
  let '(r, s) := stmt now (Account.d_hooks d) in (r, Account.set_hooks d s).
Definition on_idempotency {A} (stmt : Z -> Idempotency.State -> result A sqlx_error * Idempotency.State) (now : Z) (t : Tables) :
    result A sqlx_error * Tables :=
  let '(r, s) := stmt now (idempotency t) in (r, set_idempotency t s).
Definition on_buckets {A} (stmt : Z -> RateLimit.PostgresRateLimitStore -> result A sqlx_error * RateLimit.PostgresRateLimitStore)
    (now : Z) (t : Tables) : result A sqlx_error * Tables :=
  let '(r, s) := stmt now (buckets t) in (r, set_buckets t s).

Definition run_retention_sweep (cfg : RetentionConfig) : M (result RetentionReport StoreError) :=
  let otp_grace := from_std (otp_grace cfg) (7 * Users.day) in
  let webhook_min_age := from_std (webhook_deliveries_min_age cfg) (30 * Users.day) in
  try otps <- db_call (on_account (Account.on_otp (Otp.purge_stmt otp_grace))) | from_sqlx;
  try denied <- db_call (on_account (Account.on_users Users.purge_expired_tokens_stmt)) | from_sqlx;
  try sessions <- db_call (on_account (Account.on_users Users.purge_expired_sessions_stmt)) | from_sqlx;
  try keys <- db_call (on_idempotency Idempotency.purge_stmt) | from_sqlx;
  try windows <- db_call (on_buckets RateLimit.prune_stmt) | from_sqlx;
  try sent <- db_call (on_account (on_hooks (WebhookStore.purge_old_webhook_deliveries_stmt webhook_min_age
                                              (webhook_deliveries_keep_per_endpoint cfg)))) | from_sqlx;
  ret (Ok (mkRetentionReport otps denied sessions keys windows sent)).
End Sweep.

(** ** The sweep cannot be noticed *)

(** From time [since] on, the two databases answer the same: about tokens, codes, idempotency keys
    and rate limits. *)
Definition same_answers (since : Z) (t t' : Tables) : Prop :=
  forall now, since <= now ->
    (forall tok, Users.accepted tok now (Account.d_users (account t')) = Users.accepted tok now (Account.d_users (account t))) /\
    List.filter (Otp.redeemable now) (Otp.otps (Account.d_otp (account t'))) =
      List.filter (Otp.redeemable now) (Otp.otps (Account.d_otp (account t))) /\
    List.filter (fun r => now <? Idempotency.i_expires_at r) (Idempotency.rows (idempotency t')) =
      List.filter (fun r => now <? Idempotency.i_expires_at r) (Idempotency.rows (idempotency t)) /\
    (forall k window, fst (RateLimit.rate_limit_hit_stmt k window now (buckets t')) = fst (RateLimit.rate_limit_hit_stmt k window now (buckets t))).

#[local] Instance same_answers_preorder since : PreOrder (same_answers since).
Proof.
  split; [by intros t now Hn|]. intros t1 t2 t3 H1 H2 now Hn. destruct (H1 now Hn) as (A1 & A2 & A3 & A4), (H2 now Hn) as (B1 & B2 & B3 & B4).
  split_and!; [intros tok; by rewrite B1|by rewrite B2|by rewrite B3|intros k window; by rewrite B4].
Qed.

Lemma filter_swallow {A} (p q : A -> bool) l : (forall x, p x = true -> q x = true) -> List.filter p (List.filter q l) = List.filter p l.
Proof.
  intros Hpq. induction l as [|x l IH]; cbn; [done|]. destruct (q x) eqn:E; cbn; [by rewrite IH|].
  destruct (p x) eqn:Ep; [rewrite (Hpq x Ep) in E; done|exact IH].
Qed.

Lemma existsb_swallow {A} (p q : A -> bool) l : (forall x, p x = true -> q x = true) -> existsb p (List.filter q l) = existsb p l.
Proof.
  intros Hpq. induction l as [|x l IH]; cbn; [done|]. destruct (q x) eqn:E; cbn; [by rewrite IH|].
  destruct (p x) eqn:Ep; [rewrite (Hpq x Ep) in E; done|exact IH].
Qed.

Section Unseen.
Variables (since now : Z).
Hypothesis past : now <= since.

Lemma purge_otps_unseen grace t : 0 <= grace -> same_answers since t (snd (on_account (Account.on_otp (Otp.purge_stmt grace)) now t)).
Proof using past.
  intros Hg now' Hn. cbn. split_and!; [done| |done|done]. apply filter_swallow. intros r Hr. unfold Otp.redeemable in Hr.
  rewrite !andb_true_iff, bool_decide_eq_true, Z.ltb_lt in Hr. destruct Hr as [[Hc _] He]. unfold Otp.purgeable. rewrite Hc, orb_false_r.
  apply negb_true_iff, Z.ltb_ge. lia.
Qed.

Lemma purge_tokens_unseen t : same_answers since t (snd (on_account (Account.on_users Users.purge_expired_tokens_stmt) now t)).
Proof using past.
  intros now' Hn. cbn. split_and!; [|done..]. intros tok. unfold Users.accepted, Users.session_valid. cbn. do 2 f_equal.
  f_equal. apply existsb_swallow. intros x Hx. apply andb_true_iff in Hx as [_ Hx]. rewrite negb_true_iff. lia.
Qed.

Lemma purge_sessions_unseen t : same_answers since t (snd (on_account (Account.on_users Users.purge_expired_sessions_stmt) now t)).
Proof using past.
  intros now' Hn. cbn. split_and!; [|done..]. intros tok. unfold Users.accepted, Users.session_valid. cbn. f_equal.
  destruct (Users.t_sid tok) as [i|]; [|done]. apply existsb_swallow. intros x Hx. unfold Users.live_session in Hx.
  rewrite !andb_true_iff in Hx. assert (0 <= Users.day) by done. rewrite negb_true_iff. lia.
Qed.

Lemma purge_keys_unseen t : same_answers since t (snd (on_idempotency Idempotency.purge_stmt now t)).
Proof using past.
  intros now' Hn. cbn. split_and!; [done|done| |done]. apply filter_swallow. intros r Hr. rewrite negb_true_iff. lia.
Qed.

Lemma prune_unseen t : same_answers since t (snd (on_buckets RateLimit.prune_stmt now t)).
Proof using past.
  intros now' Hn. cbn. split_and!; [done..|]. intros k window. unfold RateLimit.rate_limit_hit_stmt. cbn. rewrite map_lookup_filter.
  destruct (RateLimit.rate_limit_buckets (buckets t) !! k) as [[e h]|]; cbn; [|done].
  case_guard as Hg; cbn in Hg |- *; [by repeat case_match|]. rewrite (proj2 (Z.leb_le e now')) by lia. done.
Qed.

Lemma purge_deliveries_unseen age keep t :
  same_answers since t (snd (on_account (on_hooks (WebhookStore.purge_old_webhook_deliveries_stmt age keep)) now t)).
Proof. intros now' Hn. by cbn. Qed.
End Unseen.

Section Invisible.
Context {X : Type}.
Variable since : Z.
Hypothesis since_pos : 0 <= since.
Notation World := (World Tables X).

(** No other connection writes, and no clock is past [since]; statements may fail and the process
    may die. *)
Definition before_since (ts : list (tick Tables)) : Prop := Forall (fun t => t_now t <= since /\ forall s, t_others t s = s) ts.

(** [m] answers at all and then leaves what [same_answers] leaves. *)
Definition unseen {A} (m : M Tables X A) : Prop :=
  forall w, before_since (ticks w) -> before_since (ticks (snd (m w))) /\ same_answers since (db w) (db (snd (m w))).

Lemma unseen_ret {A} (a : A) : unseen (ret a).
Proof. intros w Hw. split; [done|]. cbn. reflexivity. Qed.

Lemma unseen_try {A B E F} (m : M Tables X (result A E)) (f : E -> F) (k : A -> M Tables X (result B F)) :
  unseen m -> (forall a, unseen (k a)) -> unseen (try_bind m f k).
Proof.
  intros Hm Hk w Hw. unfold try_bind, bind. destruct (Hm w Hw) as [Hw1 Hs1]. destruct (m w) as [[[a|e]|] w1]; cbn in *; [|done..].
  destruct (Hk a w1 Hw1) as [Hw2 Hs2]. split; [done|]. by etrans.
Qed.

Lemma unseen_call {A} (stmt : Z -> Tables -> result A sqlx_error * Tables) :
  (forall now t, now <= since -> same_answers since t (snd (stmt now t))) -> unseen (db_call stmt).
Proof using since_pos.
  intros Hs w Hw. unfold db_call. set (t := default quiet_tick (head (ticks w))).
  assert (Ht : t_now t <= since /\ (forall s, t_others t s = s) /\ before_since (tail (ticks w))).
  { unfold t. destruct (ticks w) as [|t0 r]; [done|]. apply Forall_cons in Hw as [[H1 H2] Hr]. done. }
  destruct Ht as (H1 & H2 & H3). rewrite H2. specialize (Hs (t_now t) (db w) H1). destruct (stmt (t_now t) (db w)) as [r s']. cbn in Hs.
  destruct (t_fault t); cbn; (split; [done|]); first [done|reflexivity].
Qed.

(** The sweep cannot be noticed. However far a sweep gets before a statement fails or the
    process dies, from its time on the database answers as if it had not run: the same tokens are
    accepted, the same codes can be redeemed, the same idempotency keys are held, and every
    rate-limited request is counted the same. *)
Lemma sweep_invisible cfg (w : World) :
  0 <= otp_grace cfg -> before_since (ticks w) -> same_answers since (db w) (db (snd (run_retention_sweep cfg w))).
Proof using since_pos.
  intros Hg Hw. assert (Hu : unseen (run_retention_sweep (X := X) cfg)); [|by apply Hu].
  unfold run_retention_sweep. cbv zeta.
  assert (Hg' : 0 <= from_std (otp_grace cfg) (7 * Users.day)) by (unfold from_std; case_match; [done|]; by vm_compute).
  repeat (apply unseen_try; [apply unseen_call; intros now t Hn|intros ?]); [..|apply unseen_ret].
  - by apply purge_otps_unseen.
  - by apply purge_tokens_unseen.
  - by apply purge_sessions_unseen.
  - by apply purge_keys_unseen.
  - by apply prune_unseen.
  - by apply purge_deliveries_unseen.
Qed.
End Invisible.

(** A user with a live and a long expired session, two windows and an old code. *)
Definition demo_tables : Tables :=
  mkTables (Account.mkDb
      (Users.mkState 20 [] [Users.mkUser 2 "ada@octo.dev" None "phc" (Some 0) 0 0 0 None]
         [Users.mkSession 5 2 None 0 0 (20 * Users.day) None; Users.mkSession 6 2 None 0 0 Users.day None]
         [Users.mkDenied "t1" 2 (2 * Users.day)] [] [])
      (Otp.mkState 20 [] [Otp.mkRow 8 2 "signup" "c" None 0 None 60 0]) (AuditChain.mkState 20 [] [] []) (Store.mkState 20 [] [] [] [] [] [] [])
      (Sponsorship.mkState 20 [] [] [] [] []) (WebhookStore.mkState 20 [] [] [])
      (Idempotency.mkState [] [Idempotency.mkRow 1 "s" "k" "h" None None 0 Users.day]))
    (RateLimit.mkPg (<[("a", "auth") := (Users.day, 3)]> ∅)).

Definition demo_schedule : list (tick Tables) :=
  repeat (mkTick NoFault (10 * Users.day) (fun s => s)) 5 ++ [mkTick CrashBefore (10 * Users.day) (fun s => s)].

End Retention.
