(* ===== verification/Redact.v ===== *)
(** * What is kept of an endpoint's answer

    [response_snippet] of [crates/webhooks/src/lib.rs], with the functions of the standard library
    it uses: [String::from_utf8_lossy], [str::replace] and truncation at a character boundary.
    Texts are lists of bytes. *)

From S2P Require Import Prelude Token.

Module Redact.

Notation bytes := (list Z).

Definition RESPONSE_SNIPPET_MAX_BYTES : nat := 1024.
Definition REDACTION_SLACK_BYTES : nat := 1024.

(** ** [String::from_utf8_lossy] *)

Definition is_cont (b : Z) : bool := in_range 128 191 b.

(** How many bytes the first character has, or how many the invalid sequence at the front has. *)
Inductive Chunk := Valid (n : nat) | Invalid (n : nat).

Definition byte_at (l : bytes) (i : nat) : Z := default 0 (l !! i).

Definition first_chunk (l : bytes) : Chunk :=
  let b := byte_at l 0 in let b1 := byte_at l 1 in
  if b <? 128 then Valid 1
  else if in_range 194 223 b then if is_cont b1 then Valid 2 else Invalid 1
  else if in_range 224 239 b then
    if negb (if b =? 224 then in_range 160 191 b1 else if b =? 237 then in_range 128 159 b1 else is_cont b1) then Invalid 1
    else if is_cont (byte_at l 2) then Valid 3 else Invalid 2
  else if in_range 240 244 b then
    if negb (if b =? 240 then in_range 144 191 b1 else if b =? 244 then in_range 128 143 b1 else is_cont b1) then Invalid 1
    else if negb (is_cont (byte_at l 2)) then Invalid 2
    else if is_cont (byte_at l 3) then Valid 4 else Invalid 3
  else Invalid 1.

(** U+FFFD *)
Definition REPLACEMENT : bytes := [239; 191; 189].

Fixpoint lossy (fuel : nat) (l : bytes) : bytes :=
  match fuel, l with
  | S f, _ :: _ =>
      match first_chunk l with
      | Valid n => take n l ++ lossy f (drop n l)
      | Invalid n => REPLACEMENT ++ lossy f (drop n l)
      end
  | _, _ => []
  end.

Definition from_utf8_lossy (l : bytes) : bytes := lossy (length l) l.

(** ** [str::replace] *)

Fixpoint is_prefix (p l : bytes) : bool :=
  match p, l with
  | [], _ => true
  | x :: p', y :: l' => (x =? y) && is_prefix p' l'
  | _ :: _, [] => false
  end.

(** The text between the matches of a pattern, which are found from the left. *)
Fixpoint segments (fuel : nat) (p l : bytes) : list bytes :=
  match fuel, l with
  | S f, x :: r =>
      if is_prefix p l then [] :: segments f p (drop (length p) l)
      else match segments f p r with h :: t => (x :: h) :: t | [] => [[x]] end
  | _, _ => [[]]
  end.

Fixpoint join (sep : bytes) (l : list bytes) : bytes :=
  match l with [] => [] | [s] => s | s :: r => s ++ sep ++ join sep r end.

Definition replace (p by_ l : bytes) : bytes := join by_ (segments (length l) p l).

(** ** Truncation *)

Definition is_char_boundary (i : nat) (l : bytes) : bool :=
  (i =? 0)%nat || match l !! i with Some b => negb (is_cont b) | None => (i =? length l)%nat end.

Fixpoint boundary_below (cut : nat) (l : bytes) : nat :=
  if is_char_boundary cut l then cut else match cut with O => O | S c => boundary_below c l end.

(** ** [response_snippet] *)

Definition MARK : bytes := bytes_of "[redacted]".

Definition redact (secrets : list bytes) (text : bytes) : bytes :=
  fold_left (fun t secret => replace secret MARK t) (List.filter (fun s => negb (bool_decide (s = []))) secrets) text.

Definition response_snippet (raw : bytes) (secrets : list bytes) : option bytes :=
  match raw with
  | [] => None
  | _ =>
      let text := redact secrets (from_utf8_lossy raw) in
      Some (take (boundary_below (Nat.min (length text) RESPONSE_SNIPPET_MAX_BYTES) text) text)
  end.

(** ** No secret is kept *)

(** [p] appears in [l]. *)
Definition occurs (p l : bytes) : Prop := exists a b, l = a ++ p ++ b.

Lemma occurs_app_l p l1 l2 : occurs p l1 -> occurs p (l1 ++ l2).
Proof. intros (a & b & ->). exists a, (b ++ l2). by rewrite !app_assoc. Qed.

Lemma occurs_app_r p l1 l2 : occurs p l2 -> occurs p (l1 ++ l2).
Proof. intros (a & b & ->). exists (l1 ++ a), b. by rewrite !app_assoc. Qed.

Lemma occurs_take p n l : occurs p (take n l) -> occurs p l.
Proof. intros Ho. rewrite <- (take_drop n l). by apply occurs_app_l. Qed.

Lemma is_prefix_spec p l : is_prefix p l = true <-> exists r, l = p ++ r.
Proof.
  revert l. induction p as [|x p IH]; intros l; cbn; [split; [by exists l|done]|].
  destruct l as [|y l]; [split; [done|by intros [r ?]]|]. rewrite andb_true_iff, Z.eqb_eq, IH. split.
  - intros [-> [r ->]]. by exists r.
  - intros [r [= -> ->]]. split; [done|by exists r].
Qed.

Lemma segments_cons fuel p l : exists h t, segments fuel p l = h :: t.
Proof.
  destruct fuel as [|f], l as [|x r]; cbn; [by eexists _, _..|]. destruct (is_prefix p (x :: r)); [by eexists _, _|].
  destruct (segments f p r); by eexists _, _.
Qed.

(** The matches put back give the text, and no match is left between them. *)
Lemma segments_spec p fuel l :
  p <> [] -> (length l <= fuel)%nat -> join p (segments fuel p l) = l /\ Forall (fun s => ~ occurs p s) (segments fuel p l).
Proof.
  intros Hp. revert l. induction fuel as [|f IH]; intros l Hl.
  { destruct l; [|cbn in Hl; lia]. cbn. split; [done|]. repeat constructor. intros (a & b & E). by destruct a, p. }
  destruct l as [|x r]; [cbn; split; [done|]; repeat constructor; intros (a & b & E); by destruct a, p|].
  cbn [segments]. destruct (is_prefix p (x :: r)) eqn:Ep.
  - apply is_prefix_spec in Ep as [t Et]. rewrite Et, drop_app_length.
    destruct (IH t) as [Hj Hn].
    { assert (length (x :: r) = length (p ++ t)) by (by rewrite Et). rewrite length_app in *. destruct p; [done|]. cbn in *. lia. }
    destruct (segments_cons f p t) as (h & s & E). rewrite E in *. split.
    + change (p ++ join p (h :: s) = p ++ t). by rewrite Hj.
    + constructor; [|done]. intros (a & b & E'). by destruct a, p.
  - destruct (IH r) as [Hj Hn]; [cbn in Hl; lia|]. destruct (segments_cons f p r) as (h & s & E). rewrite E in *. split.
    + destruct s; cbn [join] in *; cbn; by rewrite Hj.
    + apply Forall_cons in Hn as [Hh Hs]. constructor; [|done]. intros (a & b & Eo). destruct a as [|y a]; cbn in Eo.
      * assert (is_prefix p (x :: r) = true); [|congruence]. apply is_prefix_spec.
        destruct s as [|s0 s]; cbn [join] in Hj; rewrite <- Hj.
        -- by exists b.
        -- exists (b ++ p ++ join p (s0 :: s)). rewrite app_comm_cons, Eo. by rewrite <- !app_assoc.
      * apply Hh. injection Eo as _ ->. by exists a, b.
Qed.

(** A text that neither contains a bracket nor is part of the word between them. *)
Definition unmarked (p : bytes) : Prop := p <> [] /\ 91 ∉ p /\ 93 ∉ p /\ ~ occurs p (bytes_of "redacted").

Lemma elem_of_lookup_app (x : Z) (a p b : bytes) i : (length a <= i < length a + length p)%nat -> (a ++ p ++ b) !! i = Some x -> x ∈ p.
Proof.
  intros Hi E. rewrite lookup_app_r in E by lia. rewrite lookup_app_l in E by lia. by apply list_elem_of_lookup_2 in E.
Qed.

Lemma occurs_mark p s rest : unmarked p -> occurs p (s ++ MARK ++ rest) -> occurs p s \/ occurs p rest.
Proof.
  intros (Hne & H91 & H93 & Hred) (a & b & E).
  assert (Hp : (0 < length p)%nat) by (destruct p; cbn; [done|lia]).
  assert (Hm : length MARK = 10%nat) by reflexivity.
  assert (Hat : forall i x, MARK !! i = Some x -> (a ++ p ++ b) !! (length s + i)%nat = Some x).
  { intros i x Hi. rewrite <- E. rewrite lookup_app_r by lia. rewrite Nat.add_comm, Nat.add_sub. by rewrite lookup_app_l by (apply lookup_lt_Some in Hi; lia). }
  destruct (decide (length a + length p <= length s)%nat) as [H1|H1].
  { left. exists a, (take (length s - length a - length p) b).
    assert (Es : take (length s) (a ++ p ++ b) = s) by (rewrite <- E; apply take_app_length).
    rewrite <- Es at 1. rewrite take_app_ge by lia. by rewrite take_app_ge by lia. }
  destruct (decide (length s + 10 <= length a)%nat) as [H2|H2].
  { right. exists (drop (length s + 10) a), b.
    assert (Er : rest = drop (length s + 10) (s ++ MARK ++ rest)).
    { rewrite app_assoc. rewrite drop_app_ge by (rewrite length_app; lia). by rewrite length_app, Hm, Nat.sub_diag. }
    rewrite Er, E at 1. by rewrite drop_app_le by lia. }
  exfalso. destruct (decide (length a <= length s)%nat) as [H3|H3].
  { apply H91. apply (elem_of_lookup_app 91 a p b (length s + 0)); [lia|]. by apply Hat. }
  destruct (decide (length s + 10 <= length a + length p)%nat) as [H4|H4].
  { apply H93. apply (elem_of_lookup_app 93 a p b (length s + 9)); [lia|]. by apply Hat. }
  apply Hred. exists (drop (length s + 1) a), (take (8 - (length a - (length s + 1)) - length p) b).
  assert (Ew : bytes_of "redacted" = take 8 (drop (length s + 1) (s ++ MARK ++ rest))).
  { rewrite drop_app_ge by lia. rewrite Nat.add_comm, Nat.add_sub. reflexivity. }
  rewrite Ew, E, drop_app_le by lia. rewrite take_app_ge by (rewrite length_drop; lia). rewrite length_drop, take_app_ge by lia. done.
Qed.

Lemma join_unmarked p l : unmarked p -> Forall (fun s => ~ occurs p s) l -> ~ occurs p (join MARK l).
Proof.
  intros Hp. induction 1 as [|s l Hs Hl IH]; [intros (a & b & E); by destruct a, p, Hp|]. destruct l as [|s' l]; [done|].
  change (join MARK (s :: s' :: l)) with (s ++ MARK ++ join MARK (s' :: l)). intros [Ho|Ho]%occurs_mark; done.
Qed.

Lemma replace_removes p l : unmarked p -> ~ occurs p (replace p MARK l).
Proof. intros Hp. apply join_unmarked; [done|]. apply segments_spec; [apply Hp|lia]. Qed.

Lemma join_segment q p l s : ~ occurs q (join p l) -> s ∈ l -> ~ occurs q s.
Proof.
  induction l as [|s0 l IH]; intros Hj Hs; [by apply not_elem_of_nil in Hs|]. destruct l as [|s1 l].
  - apply list_elem_of_singleton in Hs as ->. exact Hj.
  - change (join p (s0 :: s1 :: l)) with (s0 ++ p ++ join p (s1 :: l)) in Hj. apply elem_of_cons in Hs as [->|Hs].
    + intros Ho. by apply Hj, occurs_app_l.
    + apply IH; [|done]. intros Ho. by apply Hj, occurs_app_r, occurs_app_r.
Qed.

Lemma replace_keeps_absent q p l : unmarked q -> p <> [] -> ~ occurs q l -> ~ occurs q (replace p MARK l).
Proof.
  intros Hq Hp Hl. destruct (segments_spec p (length l) l Hp (Nat.le_refl _)) as [Hj _]. apply join_unmarked; [done|].
  apply Forall_forall. intros s Hs. eapply join_segment; [|exact Hs]. by rewrite Hj.
Qed.

Lemma redact_removes secrets text p : p ∈ secrets -> unmarked p -> ~ occurs p (redact secrets text).
Proof.
  intros Hin Hp. unfold redact. assert (Hin' : p ∈ List.filter (fun s => negb (bool_decide (s = []))) secrets).
  { apply list_elem_of_In, filter_In. split; [by apply list_elem_of_In|]. by rewrite bool_decide_false by apply Hp. }
  assert (Hne : Forall (fun s => s <> []) (List.filter (fun s => negb (bool_decide (s = []))) secrets)).
  { apply Forall_forall. intros s Hs. apply list_elem_of_In, filter_In in Hs as [_ Hs]. case_bool_decide; done. }
  clear Hin. set (l := List.filter _ _) in *. clearbody l. revert text Hin'.
  induction Hne as [|s l Hs Hl IH]; intros text Hin; [by apply not_elem_of_nil in Hin|]. cbn.
  apply elem_of_cons in Hin as [<-|Hin]; [|by apply IH].
  assert (Hkeep : forall t, ~ occurs p t -> ~ occurs p (fold_left (fun t secret => replace secret MARK t) l t)).
  { clear IH. induction Hl as [|s' l Hs' Hl IH]; intros t Ht; cbn; [done|]. apply IH. by apply replace_keeps_absent. }
  apply Hkeep. by apply replace_removes.
Qed.

(** An endpoint cannot plant our secrets in the log. Whatever bytes it answers with, however
    they are encoded and wherever the text is cut: what is kept of the answer is at most 1024
    bytes long and contains none of the redacted values (given as texts without brackets that are
    no part of the replacement's word, as the hexadecimal signature is). *)
Lemma snippet_redacted raw secrets snippet :
  response_snippet raw secrets = Some snippet ->
  (length snippet <= RESPONSE_SNIPPET_MAX_BYTES)%nat /\ forall p, p ∈ secrets -> unmarked p -> ~ occurs p snippet.
Proof.
  unfold response_snippet. destruct raw as [|x raw]; [done|]. intros [= <-]. set (text := redact _ _).
  assert (Hb : forall c, (boundary_below c text <= c)%nat).
  { induction c as [|c IH]; cbn [boundary_below]; destruct (is_char_boundary _ text); lia. }
  split.
  - rewrite length_take. specialize (Hb (Nat.min (length text) RESPONSE_SNIPPET_MAX_BYTES)). lia.
  - intros p Hp Hu Ho. apply occurs_take in Ho. by apply (redact_removes secrets _ p Hp Hu) in Ho.
Qed.

Definition demo_signature : bytes := bytes_of "00112233445566778899aabbccddeeff00112233445566778899aabbccddeeff".

(** The bytes read past the cap do not cover an answer that repeats the signature: the redactions
    shorten the text, and all but the last digit of a signature cut off by the read limit is kept. *)
Example straddling_signature_kept :
  let echo := 120 :: concat (repeat demo_signature 31) ++ take 63 demo_signature in
  length echo = (RESPONSE_SNIPPET_MAX_BYTES + REDACTION_SLACK_BYTES)%nat /\
  response_snippet echo [demo_signature] = Some (120 :: concat (repeat MARK 31) ++ take 63 demo_signature).
Proof. vm_compute. done. Qed.
End Redact.
