(* ===== verification/Webhooks.v ===== *)
(** * Webhook delivery

    [crates/webhooks/src/lib.rs] and [sign.rs]: signing, sending with retries under a deadline, and
    the log of deliveries and dead streaks of [WebhookStore]. The HTTP client, name resolution and
    the clock around a delivery are a [Plan]; JSON printing, HMAC and hexadecimal are libraries. *)

From S2P Require Import Prelude Db Float64 Resilience Store WebhookStore AuditChain AuditLog Net Email Token Redact.

Module Webhooks.
Import Resilience.
Import Db Runs.
Import Store (Uuid).
Import WebhookStore.
Import Email (Digest, hex_encode).
Import Net (IpAddr, UrlParser, is_safe_url, is_safe_delivery_url).
Import Token (opt_filter).
Import Float64.
Local Open Scope db_scope.

(** ** [sign.rs] *)

(** [hex::decode]. *)
Class HexDecode := { hex_decode : string -> option (list Z) }.
Class HexLaws `{Digest} `{HexDecode} := { hex_decode_encode : forall l, hex_decode (hex_encode l) = Some l }.

(** [serde_json::to_vec]. *)
Class JsonBytes := { to_vec : json -> list Z }.

Definition sign `{Digest} `{AuditChain.Hmac} (secret body : list Z) : string := hex_encode (AuditChain.hmac secret body).

Definition verify `{HexDecode} `{AuditChain.Hmac} (secret body : list Z) (signature_hex : string) : bool :=
  match hex_decode signature_hex with Some sig => bool_decide (sig = AuditChain.hmac secret body) | None => false end.

(** ** Data *)

Record Event := mkEvent { event_type : string; data : json }.

(** [status]: the HTTP status, or [None] for a connection error or a timeout. *)
Record AttemptOutcome := mkOutcome { status : option Z; body_snippet : option (list Z) }.
Definition no_answer : AttemptOutcome := mkOutcome None None.

Definition is_success (o : AttemptOutcome) : bool := match status o with Some s => in_range 200 299 s | None => false end.

#[export] Instance Retriable_AttemptOutcome : Retriable AttemptOutcome :=
  fun o => match status o with Some s => 500 <=? s | None => true end.

Definition DELIVERED : string := "delivered".
Definition FAILED : string := "failed".
Definition DEAD : string := "dead".
Definition PING_EVENT : string := "ping".

Record DeliveryResult := mkDeliveryResult {
  delivery_id : option Uuid;
  r_status : string;
  r_attempts : Z;
  r_response_code : option Z
}.

Definition is_delivered (r : DeliveryResult) : bool := bool_decide (r_status r = DELIVERED).

Inductive SendKind := SendEvent | SendPing.

Record WebhookSender := mkWebhookSender { retry_policy : RetryPolicy; auto_disable_after : option Z }.

Definition default_retry_policy : RetryPolicy :=
  let d := Resilience.RetryPolicy_default in
  Resilience.mkRetryPolicy 3 1000 4000 (multiplier d) (jitter_factor d).

Definition with_auto_disable_after (n : option Z) (s : WebhookSender) : WebhookSender :=
  mkWebhookSender (retry_policy s) (opt_filter (fun n => 0 <? n) n).

Definition parse_auto_disable_after (raw : option string) : option Z :=
  opt_filter (fun n => 0 <? n) (let* v := raw in parse_i32 (trim v)).

(** ** One delivery *)

(** What the network and the clock do around the attempts of one delivery. [answer n] is the
    response to the [n]-th POST, its body in chunks ([None] is an error while reading).
    [deadline]: the overall timeout fired when so many attempts were over, and whether another one
    was under way. *)
Record Plan := mkPlan {
  lookup : nat -> string -> Z -> option (list IpAddr);
  answer : nat -> option (Z * list (option (list Z)));
  t_start : Z * Z;
  clock : nat -> Z * Z * Z;
  deadline : option (nat * bool)
}.

Record Request := mkRequest { q_url : string; q_signature : string; q_body : list Z }.

(** The response is read up to a limit. *)
Fixpoint read_prefix (limit : nat) (chunks : list (option (list Z))) (raw : list Z) : list Z :=
  if (length raw <? limit)%nat then
    match chunks with
    | Some chunk :: rest => read_prefix limit rest (raw ++ take (limit - length raw) chunk)
    | _ => raw
    end
  else raw.

Section Delivery.
Context `{Digest} `{AuditChain.Hmac} `{JsonBytes} `{UrlParser}.
Variable powi : f64 -> Z -> f64.
(** [OCTO_ALLOW_LOCAL_WEBHOOKS=1] *)
Variable allow_local : bool.
Variable sender : WebhookSender.

Definition signature_of (ep : WebhookEndpoint) (body_bytes : list Z) : string := sign (bytes_of (we_secret ep)) body_bytes.

Definition attempt_once (plan : Plan) (ep : WebhookEndpoint) (signature : string) (n : nat) : AttemptOutcome :=
  if negb (is_safe_delivery_url allow_local (lookup plan n) (we_url ep)) then no_answer else
  match answer plan n with
  | None => no_answer
  | Some (code, chunks) =>
      let raw := read_prefix (Redact.RESPONSE_SNIPPET_MAX_BYTES + Redact.REDACTION_SLACK_BYTES) chunks [] in
      mkOutcome (Some code) (Redact.response_snippet raw [bytes_of signature; bytes_of (we_secret ep)])
  end.

Definition policy_of (kind : SendKind) : RetryPolicy :=
  match kind with
  | SendEvent => retry_policy sender
  | SendPing => let p := retry_policy sender in
      Resilience.mkRetryPolicy 1 (base_delay_ms p) (max_delay_ms p) (multiplier p) (jitter_factor p)
  end.

Definition failed_status (kind : SendKind) : string := match kind with SendEvent => DEAD | SendPing => FAILED end.

Definition round (plan : Plan) (ep : WebhookEndpoint) (signature : string) (n : nat) : Round AttemptOutcome AttemptOutcome :=
  let o := attempt_once plan ep signature n in let '(t1, t2, t3) := clock plan n in
  Resilience.mkRound [] (if is_success o then Ok o else Err o) t1 t2 t3 [].

(** A breaker of its own, which never trips. *)
Definition executed (plan : Plan) (ep : WebhookEndpoint) (signature : string) (kind : SendKind) : Executed AttemptOutcome AttemptOutcome :=
  execute powi (policy_of kind) (round plan ep signature) ReadOnly (CircuitBreaker_new u32_MAX 0) (fst (t_start plan)) (snd (t_start plan)).

(** The mutex: the outcome of the last attempt that ended. *)
Definition take_last (plan : Plan) (ep : WebhookEndpoint) (signature : string) (ended : nat) : AttemptOutcome :=
  match ended with O => no_answer | S n => attempt_once plan ep signature n end.

(** Whether it was delivered, the outcome that is logged, and the attempts that were started. *)
Definition run_attempts (plan : Plan) (ep : WebhookEndpoint) (signature : string) (kind : SendKind) : bool * AttemptOutcome * nat :=
  let x := executed plan ep signature kind in
  match deadline plan with
  | Some (ended, another) => (false, take_last plan ep signature ended, (ended + if another : bool then 1 else 0)%nat)
  | None =>
      match returned x with
      | Some (Ok outcome) => (true, outcome, calls x)
      | Some (Err (Exhausted outcome)) => (false, outcome, calls x)
      | Some (Err Circuit) => (false, take_last plan ep signature (calls x), calls x)
      | None => (false, no_answer, calls x) (* [execute] does not panic: [Resilience.execute_spec] *)
      end
  end.

(** The requests that go out. *)
Definition posted (plan : Plan) (ep : WebhookEndpoint) (body_bytes : list Z) (kind : SendKind) : list Request :=
  let signature := signature_of ep body_bytes in
  map (fun _ => mkRequest (we_url ep) signature body_bytes)
    (List.filter (fun n => is_safe_delivery_url allow_local (lookup plan n) (we_url ep)) (seq 0 (snd (run_attempts plan ep signature kind)))).

(** [as i32] *)
Definition as_i32 (n : Z) : Z := let m := n mod 2 ^ 32 in if m <=? i32_MAX then m else m - 2 ^ 32.

(** ** The sender *)

(** [wire] plans the next delivery; [emit] takes its requests. *)
Class Wire (X : Type) := { wire : X -> Plan * X; emit : list Request -> X -> X; unix_now : X -> Z * X }.

Context {D X : Type} {tables : Part State D} `{Wire X}.
Notation M := (M D X).

(** The snippet has no parameter in the store's method. *)
Definition log_webhook_delivery (ep : WebhookEndpoint) (event_type : string) (body : json) (status : string) (attempts : Z) (code : option Z) :
    M (option Uuid) :=
  do r <- part_call (log_webhook_delivery_stmt (we_id ep) event_type body status attempts code);
  ret match r with Ok id => Some id | Err _ => None end.

Definition deliver_with_retry (ep : WebhookEndpoint) (event_type : string) (body : json) (kind : SendKind) : M DeliveryResult :=
  let body_bytes := to_vec body in
  do plan <- ext_call (fun x => let '(plan, x') := wire x in (plan, emit (posted plan ep body_bytes kind) x'));
  let '(delivered, outcome, started) := run_attempts plan ep (signature_of ep body_bytes) kind in
  let final := if delivered : bool then DELIVERED else failed_status kind in
  let attempts := as_i32 (Z.max (Z.of_nat started) 1) in
  do id <- log_webhook_delivery ep event_type body final attempts (status outcome);
  ret (mkDeliveryResult id final attempts (status outcome)).

Definition send (ep : WebhookEndpoint) (event_type : string) (body : json) (kind : SendKind) : M DeliveryResult :=
  if negb (is_safe_url allow_local (we_url ep)) then
    do id <- log_webhook_delivery ep event_type body FAILED 0 None;
    ret (mkDeliveryResult id FAILED 0 None)
  else
    do result <- deliver_with_retry ep event_type body kind;
    do _ <- match kind with
            | SendEvent => do _ <- part_call (record_outcome_stmt (we_id ep) (negb (is_delivered result)) (auto_disable_after sender)); ret tt
            | SendPing => ret tt
            end;
    ret result.

Definition envelope (event_type : string) (data : json) : json := JObj [("event", JStr event_type); ("data", data)].

Fixpoint send_all (eps : list WebhookEndpoint) (ev : Event) (delivered : Z) : M Z :=
  match eps with
  | [] => ret delivered
  | ep :: rest =>
      do result <- send ep (event_type ev) (envelope (event_type ev) (data ev)) SendEvent;
      send_all rest ev (if is_delivered result then delivered + 1 else delivered)
  end.

Definition dispatch (wallet_id : Uuid) (ev : Event) : M Z :=
  do endpoints <- part_query (fun _ s => active_webhook_endpoints wallet_id s);
  match endpoints with Ok eps => send_all eps ev 0 | Err _ => ret 0 end.

Definition send_ping (ep : WebhookEndpoint) : M DeliveryResult :=
  do now <- ext_call unix_now;
  send ep PING_EVENT (envelope PING_EVENT (JObj [("endpoint_id", JId (we_id ep)); ("sent_at", JNum now)])) SendPing.

(** [payload.get("data")] *)
Definition get_data (payload : json) : json :=
  match payload with
  | JObj fields => match List.find (fun f => bool_decide (f.1 = "data")) fields with Some f => f.2 | None => JNull end
  | _ => JNull
  end.

Definition redeliver (ep : WebhookEndpoint) (original : WebhookDelivery) : M DeliveryResult :=
  do now <- ext_call unix_now;
  send ep (wd_event_type original)
    (JObj [("event", JStr (wd_event_type original)); ("data", get_data (wd_payload original));
           ("redelivery_of", JId (wd_id original)); ("redelivered_at", JNum now)]) SendEvent.
End Delivery.

(** ** What an attempt sequence does *)

Section Attempts.
Context `{dg : Digest} `{hm : AuditChain.Hmac} `{jb : JsonBytes} `{up : UrlParser}.
Variable powi : f64 -> Z -> f64.
Variable allow_local : bool.
Variable sender : WebhookSender.
Hypothesis policy_ok : 0 <= max_delay_ms (retry_policy sender).

Lemma never_open b t1 t2 : reset_timeout b = 0 -> exists b', check b t1 t2 = (Ok tt, b') /\ reset_timeout b' = 0.
Proof.
  intros E. unfold check. destruct (Resilience.state (inner b)); [by exists b|..]; rewrite E, (proj2 (Z.leb_le 0 _)) by lia;
    by eexists.
Qed.

Lemma failure_keeps_timeout b t : reset_timeout (on_failure b t) = reset_timeout b.
Proof. unfold on_failure. by repeat case_match. Qed.

Section Loop.
Variable at_ : nat -> AttemptOutcome.

(** The plain loop: stop at a success, at a final answer or at the last attempt. *)
Fixpoint retry_loop (left n : nat) : bool * nat :=
  if is_success (at_ n) then (true, n) else
  match left with
  | S l => if is_retriable (at_ n) then retry_loop l (S n) else (false, n)
  | O => (false, n)
  end.

Lemma retry_loop_spec left n : let '(ok, last) := retry_loop left n in
  (n <= last <= n + left)%nat /\ is_success (at_ last) = ok /\
  (forall k, (n <= k < last)%nat -> is_success (at_ k) = false /\ is_retriable (at_ k) = true) /\
  (ok = false -> is_retriable (at_ last) = true -> last = (n + left)%nat).
Proof.
  revert n. induction left as [|left IH]; intros n; cbn [retry_loop].
  - destruct (is_success (at_ n)) eqn:E; split_and!; try done; try lia; intros; try lia.
  - destruct (is_success (at_ n)) eqn:E; [split_and!; try done; try lia; intros; lia|].
    destruct (is_retriable (at_ n)) eqn:Er; [|split_and!; try done; try lia; intros; first [lia|congruence]].
    specialize (IH (S n)). destruct (retry_loop left (S n)) as [ok last]. destruct IH as (H1 & H2 & H3 & H4).
    split_and!; [lia|lia|done| |intros; rewrite H4 by done; lia].
    intros k Hk. destruct (decide (k = n)) as [->|]; [done|]. apply H3. lia.
Qed.
End Loop.

Definition limit_of (kind : SendKind) : nat := attempt_limit (policy_of sender kind) ReadOnly.

Lemma limit_of_value kind : limit_of kind = match kind with SendEvent => Z.to_nat (Z.max (max_attempts (retry_policy sender)) 1) | SendPing => 1%nat end.
Proof. by destruct kind. Qed.

(** [execute] with a breaker that never trips is the plain loop. *)
Lemma attempts_loop env at_ policy left n last_ slept b :
  0 <= max_delay_ms policy -> reset_timeout b = 0 ->
  (forall k, response (env k) = if is_success (at_ k) then Ok (at_ k) else Err (at_ k)) -> (forall k, during_call (env k) = []) ->
  (forall k, during_sleep (env k) = []) ->
  let x := Resilience.attempts (T := AttemptOutcome) (E := AttemptOutcome) powi policy env (S left) n last_ slept b in
  let '(ok, k) := retry_loop at_ left n in
  returned x = Some (if ok then Ok (at_ k) else Err (Exhausted (at_ k))) /\ calls x = S k.
Proof.
  intros Hd Hb Hr Hdc Hds. cbn zeta. revert n last_ slept b Hb. induction left as [|left IH]; intros n last_ slept b Hb; cbn [retry_loop].
  - cbn [Resilience.attempts]. rewrite Hr, Hdc. destruct (is_success (at_ n)) eqn:E; [done|].
    destruct (is_retriable (at_ n)) eqn:Er; cbn [negb]; [|done].
    destruct (never_open (on_failure (run b []) (t_fail (env n))) (t_check (env n)) (t_probe (env n))) as (b' & -> & _); [by rewrite failure_keeps_timeout|].
    done.
  - remember (S left) as left' eqn:El. cbn [Resilience.attempts]. rewrite Hr, Hdc. destruct (is_success (at_ n)) eqn:E; [done|].
    destruct (is_retriable (at_ n)) eqn:Er; cbn [negb]; [|done].
    destruct (never_open (on_failure (run b []) (t_fail (env n))) (t_check (env n)) (t_probe (env n))) as (b' & -> & Hb'); [by rewrite failure_keeps_timeout|].
    subst left'. destruct (delay_for_Some powi policy (Z.of_nat n) Hd) as (dl & -> & _). rewrite Hds. by apply IH.
Qed.

Lemma executed_loop plan ep sig kind :
  let '(ok, k) := retry_loop (attempt_once allow_local plan ep sig) (pred (limit_of kind)) 0 in
  let x := executed powi allow_local sender plan ep sig kind in
  returned x = Some (if ok then Ok (attempt_once allow_local plan ep sig k) else Err (Exhausted (attempt_once allow_local plan ep sig k))) /\
  calls x = S k.
Proof using policy_ok.
  pose proof (attempts_loop (round allow_local plan ep sig) (attempt_once allow_local plan ep sig) (policy_of sender kind) (pred (limit_of kind)) 0 None []
    (CircuitBreaker_new u32_MAX 0)) as Hl.
  destruct (retry_loop _ _ 0) as [ok k]. unfold executed, execute. cbn [check CircuitBreaker_new Resilience.state inner].
  assert (El : attempt_limit (policy_of sender kind) ReadOnly = S (pred (limit_of kind))).
  { pose proof (attempt_limit_pos (policy_of sender kind) ReadOnly). unfold limit_of. lia. }
  rewrite El. apply Hl; [by destruct kind|done| | |]; intros n; unfold round; by destruct (clock plan n) as [[? ?] ?].
Qed.

(** The deadline fires while an attempt or a pause is under way. *)
Definition deadline_ok (plan : Plan) (ep : WebhookEndpoint) (body : list Z) (kind : SendKind) : Prop :=
  match deadline plan with
  | Some (ended, another) => (ended < calls (executed powi allow_local sender plan ep (signature_of ep body) kind))%nat /\ (ended <> 0%nat \/ another = true)
  | None => True
  end.

(** What is reported when the deadline fires after [ended] attempts, perhaps during another: the last
    attempt that ended, which was a transient failure, or no answer at all. *)
Definition cut_off (at_ : nat -> AttemptOutcome) (ended : nat) (another : bool) (delivered : bool) (outcome : AttemptOutcome) (started : nat) : Prop :=
  delivered = false /\ started = (ended + if another then 1 else 0)%nat /\
  match ended with
  | O => outcome = no_answer
  | S n => outcome = at_ n /\ is_success outcome = false /\ is_retriable outcome = true
  end.

Lemma run_attempts_spec plan ep body kind :
  deadline_ok plan ep body kind ->
  let sig := signature_of ep body in
  let at_ n := attempt_once allow_local plan ep sig n in
  let '(delivered, outcome, started) := run_attempts powi allow_local sender plan ep sig kind in
  (1 <= started <= limit_of kind)%nat /\
  (forall n, (S n < started)%nat -> is_success (at_ n) = false /\ is_retriable (at_ n) = true) /\
  (deadline plan = None -> exists n, started = S n /\ outcome = at_ n /\ delivered = is_success outcome /\
     (delivered = false -> is_retriable outcome = true -> started = limit_of kind)) /\
  (forall ended another, deadline plan = Some (ended, another) -> cut_off at_ ended another delivered outcome started).
Proof using policy_ok.
  intros Hdl. cbn zeta. unfold deadline_ok in Hdl. set (sig := signature_of ep body) in *. pose proof (executed_loop plan ep sig kind) as Hx.
  pose proof (retry_loop_spec (attempt_once allow_local plan ep sig) (pred (limit_of kind)) 0) as Hs.
  pose proof (attempt_limit_pos (policy_of sender kind) ReadOnly) as Hpos. fold (limit_of kind) in Hpos.
  destruct (retry_loop _ _ 0) as [ok k]. destruct Hx as [Hret Hcalls], Hs as (H1 & H2 & H3 & H4). unfold run_attempts in *.
  destruct (deadline plan) as [[ended another]|].
  - rewrite Hcalls in Hdl. destruct Hdl as [Hlt Hone]. split_and!; [destruct another; lia..| |done|].
    + intros n Hn. apply H3. destruct another; lia.
    + intros e a [= <- <-]. split; [done|]. split; [done|]. destruct ended as [|n]; [done|]. split; [done|]. cbn [take_last]. apply H3. lia.
  - rewrite Hret, Hcalls. destruct ok; cbn -[is_success]; (split_and!; [lia|lia|intros n Hn; apply H3; lia| |done]); intros _; exists k.
    + split_and!; [done|done|by rewrite H2|done].
    + split_and!; [done|done|by rewrite H2|]. intros _ Hr. rewrite (H4 eq_refl Hr). lia.
Qed.

(** C40: a delivery, under its overall deadline (20 seconds by default). Whatever the network does: it
    makes between one attempt and the policy's limit (one for a ping), and goes on only after transient
    failures. When the deadline does not fire, the outcome it reports is that of its last attempt, it
    counts as delivered exactly when that was a 2xx answer, and it gives up on a transient failure only
    at the limit. When the deadline fires, the attempt under way is given up and not reported, even if
    the receiver accepted it: the delivery counts as not delivered, and what is reported is the last
    attempt that had ended, a transient failure, or no answer when none had. Every request carries the
    body and a signature that verifies under the endpoint's secret. *)
Theorem delivery_exact `{hd : HexDecode} `{hl : !HexLaws} plan ep body kind :
  deadline_ok plan ep body kind ->
  let sig := signature_of ep body in
  let at_ n := attempt_once allow_local plan ep sig n in
  let '(delivered, outcome, started) := run_attempts powi allow_local sender plan ep sig kind in
  (1 <= started <= match kind with SendEvent => Z.to_nat (Z.max (max_attempts (retry_policy sender)) 1) | SendPing => 1 end)%nat /\
  (forall n, (S n < started)%nat -> is_success (at_ n) = false /\ is_retriable (at_ n) = true) /\
  (deadline plan = None -> exists n, started = S n /\ outcome = at_ n /\ delivered = is_success outcome /\
     (delivered = false -> is_retriable outcome = true -> started = limit_of kind)) /\
  (forall ended another, deadline plan = Some (ended, another) -> cut_off at_ ended another delivered outcome started) /\
  Forall (fun q => q_url q = we_url ep /\ q_body q = body /\ verify (bytes_of (we_secret ep)) body (q_signature q) = true)
    (posted powi allow_local sender plan ep body kind).
Proof using policy_ok.
  intros Hdl. cbn zeta. pose proof (run_attempts_spec plan ep body kind Hdl) as Hs. cbn zeta in Hs.
  assert (Hq : Forall (fun q => q_url q = we_url ep /\ q_body q = body /\ verify (bytes_of (we_secret ep)) body (q_signature q) = true)
    (posted powi allow_local sender plan ep body kind)).
  { unfold posted. apply Forall_forall. intros q (n & -> & _)%list_elem_of_fmap. split_and!; [done|done|].
    unfold verify, signature_of, sign. cbn. rewrite hex_decode_encode. by apply bool_decide_true. }
  destruct (run_attempts _ _ _ _ _ _ _) as [[d o] st]. destruct Hs as (H1 & H2 & H3 & H4). rewrite <- limit_of_value.
  split; [exact H1|]. split; [exact H2|]. split; [exact H3|]. split; [exact H4|exact Hq].
Qed.

(** ** The log *)

Section Log.
Context {X : Type} `{wi : !Wire X}.
Notation World := (World State X).

(** The row tells what happened to the event at the endpoint. *)
Definition logged (event_type : string) (body : json) (ep : WebhookEndpoint) (row : WebhookDelivery) : Prop :=
  wd_endpoint_id row = we_id ep /\ wd_event_type row = event_type /\ wd_payload row = body /\
  if is_safe_url allow_local (we_url ep) then
    exists plan, let '(delivered, outcome, started) := run_attempts powi allow_local sender plan ep (signature_of ep (to_vec body)) SendEvent in
      wd_status row = (if delivered then DELIVERED else DEAD) /\ wd_attempts row = as_i32 (Z.max (Z.of_nat started) 1) /\
      wd_response_code row = status outcome
  else wd_status row = FAILED /\ wd_attempts row = 0 /\ wd_response_code row = None.

Definition row_delivered (row : WebhookDelivery) : bool := bool_decide (wd_status row = DELIVERED).

Lemma exec_log ep et body st n code (w : World) :
  calm w -> we_id ep ∈ map we_id (endpoints (db w)) -> delivery_status_ok st = true ->
  runs (log_webhook_delivery ep et body st n code)
    (fun r w' => calm w' /\ exists row, deliveries (db w') = deliveries (db w) ++ [row] /\ endpoints (db w') = endpoints (db w) /\
       wd_endpoint_id row = we_id ep /\ wd_event_type row = et /\ wd_payload row = body /\ wd_status row = st /\ wd_attempts row = n /\
       wd_response_code row = code) w.
Proof.
  intros Hc He Hs. unfold log_webhook_delivery. apply exec_bind, exec_call; [done|]. intros w1 Hc1 E1 _. apply exec_ret. split; [done|].
  unfold on_part, log_webhook_delivery_stmt in E1. cbn [part with_part Part_self] in E1. rewrite Hs in E1. cbn [negb orb] in E1.
  assert (Hx : existsb (is_endpoint (we_id ep)) (endpoints (db w)) = true).
  { apply list_elem_of_fmap in He as (e & Ee & He). apply existsb_exists. exists e. split; [by apply list_elem_of_In|].
    unfold is_endpoint. by apply bool_decide_true. }
  rewrite Hx in E1. cbn [negb snd] in E1. rewrite E1. cbn. eexists. split_and!; reflexivity.
Qed.

Lemma exec_send ep et body (w : World) :
  calm w -> we_id ep ∈ map we_id (endpoints (db w)) ->
  runs (send powi allow_local sender ep et body SendEvent)
    (fun r w' => calm w' /\ map we_id (endpoints (db w')) = map we_id (endpoints (db w)) /\
       exists row, deliveries (db w') = deliveries (db w) ++ [row] /\ logged et body ep row /\ is_delivered r = row_delivered row) w.
Proof.
  intros Hc He. unfold send. destruct (is_safe_url allow_local (we_url ep)) eqn:Eu; cbn [negb].
  - apply exec_bind. unfold deliver_with_retry. cbv zeta. apply exec_bind, exec_ext; [done|]. intros w1 Hc1 E1 _ _.
    destruct (wire (ext w)) as [plan x1]. cbn [fst].
    destruct (run_attempts powi allow_local sender plan ep (signature_of ep (to_vec body)) SendEvent) as [[d o] st] eqn:Er.
    apply exec_bind. eapply exec_mono; [|apply exec_log; [done|by rewrite E1|by destruct d]].
    intros id w2 (Hc2 & row & H1 & H2 & H3 & H4 & H5 & H6 & H7 & H8). apply exec_ret.
    apply exec_bind, exec_bind, exec_call; [done|]. intros w3 Hc3 E3 _. do 2 apply exec_ret. split; [done|].
    assert (Ho : map we_id (endpoints (db w3)) = map we_id (endpoints (db w2)) /\ deliveries (db w3) = deliveries (db w2)).
    { rewrite E3. unfold on_part, record_outcome_stmt. cbn [part with_part Part_self]. destruct (negb (negb _)); cbn.
      - split; [|done]. by apply Store.update_where_key.
      - destruct (List.find _ _); [|done]. destruct (i32_MAX <? _); [done|]. cbn. split; [|done]. by apply Store.update_where_key. }
    destruct Ho as [-> ->]. rewrite H2, H1, E1. split; [done|]. exists row. split; [done|]. split.
    + unfold logged. rewrite Eu. split_and!; [done..|]. exists plan. rewrite Er. rewrite H6. by split_and!.
    + unfold is_delivered, row_delivered. cbn. by rewrite H6.
  - apply exec_bind. eapply exec_mono; [|apply exec_log; [done|done|done]].
    intros id w2 (Hc2 & row & H1 & H2 & H3 & H4 & H5 & H6 & H7 & H8). apply exec_ret. rewrite H1, H2. split_and!; [done|done|].
    exists row. split_and!; [done| |by unfold is_delivered, row_delivered; cbn; rewrite H6]. unfold logged. rewrite Eu. by split_and!.
Qed.

Lemma exec_send_all eps ev n (w : World) :
  calm w -> (forall ep, ep ∈ eps -> we_id ep ∈ map we_id (endpoints (db w))) ->
  runs (send_all powi allow_local sender eps ev n)
    (fun r w' => exists rows, deliveries (db w') = deliveries (db w) ++ rows /\
       Forall2 (logged (event_type ev) (envelope (event_type ev) (data ev))) eps rows /\
       r = n + Store.count_where row_delivered rows) w.
Proof.
  revert n w. induction eps as [|ep eps IH]; intros n w Hc He; cbn [send_all].
  { apply exec_ret. exists []. rewrite app_nil_r. split_and!; [done|constructor|]. by rewrite Z.add_0_r. }
  apply exec_bind. eapply exec_mono; [|apply exec_send; [done|apply He; by left]].
  intros r w1 (Hc1 & Hi & row & H1 & H2 & H3). eapply exec_mono; [|apply IH; [done|intros e Hin; rewrite Hi; apply He; by right]].
  intros m w2 (rows & E1 & E2 & E3). exists (row :: rows). split_and!.
  - by rewrite E1, H1, <- app_assoc.
  - by constructor.
  - rewrite E3, Store.count_where_cons, H3. destruct (row_delivered row); lia.
Qed.

(** Every event is accounted for. Dispatching an event ends, and logs exactly one row for each
    live endpoint of the wallet, in order, with the event and its payload; the row has the status,
    the number of attempts and the answer of that delivery (no attempt for a target that is not
    allowed); the number returned is the number of deliveries that succeeded. *)
Lemma dispatch_logged wallet_id ev (w : World) :
  calm w ->
  runs (dispatch powi allow_local sender wallet_id ev)
    (fun n w' => exists rows, deliveries (db w') = deliveries (db w) ++ rows /\
       Forall2 (logged (event_type ev) (envelope (event_type ev) (data ev))) (active_webhook_endpoints wallet_id (db w)) rows /\
       n = Store.count_where row_delivered rows) w.
Proof.
  intros Hc. unfold dispatch. apply exec_bind, exec_query; [done|]. intros w1 Hc1 E1 _.
  eapply exec_mono; [|apply exec_send_all; [done|]].
  - intros n w2 (rows & H1 & H2 & H3). exists rows. rewrite H1, E1. by split_and!.
  - intros ep Hep. rewrite E1. apply list_elem_of_fmap_2. unfold active_webhook_endpoints in Hep.
    apply list_elem_of_In, filter_In in Hep as [Hep _]. by apply list_elem_of_In.
Qed.
End Log.
End Attempts.

(** ** A delivery *)

#[local] Instance plain_digest : Digest := {| Email.sha256 m := m; hex_encode := Token.Sample.decimals |}.
#[local] Instance plain_hex : HexDecode :=
  {| hex_decode s := match Token.Sample.decimals_read s with Some (0, 1, l) => Some l | _ => None end |}.
#[local] Instance plain_hex_laws : HexLaws.
Proof. constructor. intros l. cbn. by rewrite Token.Sample.decimals_roundtrip. Qed.
#[local] Instance plain_json : JsonBytes := {| to_vec _ := [123; 125] |}.
#[local] Existing Instances AuditLog.checksum Net.sample_parser.

Definition demo_sender : WebhookSender := mkWebhookSender default_retry_policy (Some 2).
Definition demo_target : WebhookEndpoint := mkEndpoint 1 7 "https://hooks.example.com/octo" "whsec_1" true 0 None 0 None.
Definition demo_powi (x : f64) (n : Z) : f64 := x.

(** Busy, then accepted. *)
Definition demo_plan : Plan :=
  mkPlan (fun _ => Net.sample_lookup) (fun n => match n with O => Some (503, []) | _ => Some (204, [Some [111; 107]]) end) (0, 0)
    (fun _ => (0, 0, 0)) None.

(** The same, with a deadline that fires during the second attempt. *)
Definition demo_late : Plan := mkPlan (lookup demo_plan) (answer demo_plan) (0, 0) (fun _ => (0, 0, 0)) (Some (1%nat, true)).

Lemma delivery_exact_witness :
  run_attempts demo_powi false demo_sender demo_plan demo_target (signature_of demo_target [123; 125]) SendEvent =
    (true, mkOutcome (Some 204) (Some [111; 107]), 2%nat) /\
  length (posted demo_powi false demo_sender demo_plan demo_target [123; 125] SendEvent) = 2%nat /\
  (forall d o n, run_attempts demo_powi false demo_sender demo_late demo_target (signature_of demo_target [123; 125]) SendEvent = (d, o, n) ->
     d = false /\ n = 2%nat /\ o = attempt_once false demo_late demo_target (signature_of demo_target [123; 125]) 0) /\
  Forall (fun q => q_url q = we_url demo_target /\ q_body q = [123; 125] /\
                   verify (bytes_of (we_secret demo_target)) [123; 125] (q_signature q) = true)
    (posted demo_powi false demo_sender demo_plan demo_target [123; 125] SendEvent).
Proof.
  assert (E : run_attempts demo_powi false demo_sender demo_plan demo_target (signature_of demo_target [123; 125]) SendEvent =
    (true, mkOutcome (Some 204) (Some [111; 107]), 2%nat)) by (vm_compute; reflexivity).
  split; [exact E|]. split; [vm_compute; reflexivity|]. split.
  { assert (Hdl : deadline_ok demo_powi false demo_sender demo_late demo_target [123; 125] SendEvent).
    { split; [apply Nat.ltb_lt; vm_compute; reflexivity|left; discriminate]. }
    pose proof (delivery_exact demo_powi false demo_sender ltac:(vm_compute; discriminate) demo_late demo_target [123; 125] SendEvent Hdl) as H.
    intros d o n En. cbn zeta in H. rewrite En in H. destruct H as (_ & _ & _ & H & _).
    destruct (H 1%nat true eq_refl) as (Hd & Hn & Ho & _). split; [exact Hd|]. split; [exact Hn|exact Ho]. }
  pose proof (delivery_exact demo_powi false demo_sender ltac:(vm_compute; discriminate) demo_plan demo_target [123; 125] SendEvent I) as H.
  cbn zeta in H. rewrite E in H. apply H.
Defined.

#[local] Instance demo_wire : Wire (list Request) := {| wire x := (demo_plan, x); emit l x := x ++ l; unix_now x := (0, x) |}.

Definition demo_hooks : State :=
  mkState 10 [7] [demo_target; mkEndpoint 2 7 "http://[::1]/" "whsec_2" true 0 None 0 None; mkEndpoint 3 7 "https://hooks.example.com/octo" "s" false 0 None 0 None] [].

Lemma dispatch_logged_witness :
  exists n w' rows, dispatch demo_powi false demo_sender 7 (mkEvent "deposit.created" JNull) (mkWorld demo_hooks [] []) = (Ret n, w') /\
    deliveries (db w') = rows /\ map wd_status rows = ["delivered"; "failed"] /\ n = Store.count_where row_delivered rows.
Proof.
  destruct (dispatch_logged demo_powi false demo_sender 7 (mkEvent "deposit.created" JNull) (mkWorld demo_hooks [] [])) as (n & w' & E & rows & H1 & H2 & H3).
  { constructor. }
  exists n, w', rows. split_and!; [exact E|exact H1| |exact H3].
  assert (Hw : match dispatch demo_powi false demo_sender 7 (mkEvent "deposit.created" JNull) (mkWorld demo_hooks [] []) with
               | (Ret _, w') => map wd_status (deliveries (db w')) = ["delivered"; "failed"] | _ => False end) by (vm_compute; reflexivity).
  rewrite E in Hw. change (deliveries (db (mkWorld demo_hooks [] []))) with (@nil WebhookDelivery) in H1. cbn in H1. by rewrite H1 in Hw.
Defined.
End Webhooks.
