(* ===== verification/RouteCommon.v ===== *)
(** * What the routes share

    The checks on free text of [crates/api/src/validation.rs], the pagination that every list
    endpoint of [crates/api/src/routes] does in the same words ([validated_limit] of
    [routes/wallets.rs], one row more than asked for, the cursor of the last row kept), and the
    derivation of a muxed address that allocations are given. *)

From Stdlib Require Import Sorted.
From S2P Require Import Prelude Db Paging Store WalletAddress ApiHorizon.

Module RouteCommon.
Import Paging.
Import Store (Uuid).
Import WalletAddress (Strkey, encode_muxed).
Import ApiHorizon (ApiError(..)).

(** ** Free text *)

Definition WALLET_LABEL_MAX : Z := 64.
Definition WALLET_DESCRIPTION_MAX : Z := 500.
Definition CUSTOMER_REF_MAX : Z := 128.

(** [str::chars] of a UTF-8 text: the code points. *)
Fixpoint chars (l : list Z) : list Z :=
  match l with
  | [] => []
  | a :: r =>
      if a <? 128 then a :: chars r
      else if a <? 224 then match r with b :: r' => (a - 192) * 64 + (b - 128) :: chars r' | _ => [] end
      else if a <? 240 then
        match r with b :: c :: r' => (a - 224) * 4096 + (b - 128) * 64 + (c - 128) :: chars r' | _ => [] end
      else
        match r with
        | b :: c :: d :: r' => (a - 240) * 262144 + (b - 128) * 4096 + (c - 128) * 64 + (d - 128) :: chars r'
        | _ => []
        end
  end.

(** [char::is_control]: the general category Cc. *)
Definition is_control (c : Z) : bool := (c <? 32) || in_range 127 159 c.

Definition is_spoofing_char (c : Z) : bool :=
  in_range 8203 8207 c || in_range 8234 8238 c || in_range 8288 8292 c || in_range 8294 8297 c || (c =? 65279).

Definition clean_text (field value : string) (max_chars : Z) : result (option string) ApiError :=
  let trimmed := trim value in
  if is_empty trimmed then Ok None else
  let cs := chars (bytes_of trimmed) in
  if max_chars <? Z.of_nat (length cs) then
    Err (BadRequest (field +:+ " must be at most " +:+ print_dec max_chars +:+ " characters")) else
  if existsb (fun c => is_control c || is_spoofing_char c) cs then
    Err (BadRequest (field +:+ " must not contain control or invisible formatting characters")) else
  Ok (Some trimmed).

Definition clean_optional (field : string) (value : option string) (max_chars : Z) : result (option string) ApiError :=
  match value with None => Ok None | Some v => clean_text field v max_chars end.

Definition clean_patch_field (field : string) (value : option (option string)) (max_chars : Z) :
    result (option (option string)) ApiError :=
  match value with
  | None => Ok None
  | Some v => let? r := clean_optional field v max_chars in Ok (Some r)
  end.

(** ** Pages *)

Record ListParams := mkListParams { lp_limit : option Z; lp_before : option Uuid }.

Definition validated_limit (limit : option Z) : result Z ApiError :=
  let l := default 50 limit in
  if 200 <? l then Err (BadRequest "limit must not exceed 200") else
  if l <? 1 then Err (BadRequest "limit must be at least 1") else Ok l.

(** The page out of the rows of a query for one row more, and the cursor of the next page. *)
Definition paginate {A} `{Row A} (limit : Z) (rows : list A) : list A * option Z :=
  let has_more := limit <? Z.of_nat (length rows) in
  let items := if has_more then take (Z.to_nat limit) rows else rows in
  (items, if has_more then option_map row_id (last items) else None).

(** The answer of a list endpoint on a table: its query asks for one row more than the page. *)
Definition list_page {A} `{Row A} (scope p : A -> bool) (table : list A) (limit : Z) (before : option Z) : list A * option Z :=
  paginate limit (page scope p (limit + 1) before table).

(** [map.get(&id).copied().unwrap_or(0)], for a map that was collected from the pairs. *)
Definition total_of (totals : list (Uuid * Z)) (id : Uuid) : Z :=
  match List.find (fun p => bool_decide (fst p = id)) totals with Some p => snd p | None => 0 end.

(** The closure that derives the address of an id from the wallet's account. *)
Definition muxed_for `{Strkey} (base : string) (id : Z) : result string unit :=
  if id <? 0 then Err tt else map_err (fun _ => tt) (encode_muxed base id).

(** ** What is accepted *)

(** A text that passed is not empty, within its limit and free of the refused characters. *)
Definition displayable (max_chars : Z) (s : string) : Prop :=
  s <> "" /\ Z.of_nat (length (chars (bytes_of s))) <= max_chars /\
  Forall (fun c => is_control c = false /\ is_spoofing_char c = false) (chars (bytes_of s)).

Lemma clean_text_spec field value n s :
  clean_text field value n = Ok (Some s) <-> s = trim value /\ displayable n s.
Proof.
  unfold clean_text, displayable. destruct (is_empty (trim value)) eqn:Ee.
  { split; [done|]. intros (-> & Hne & _). destruct (trim value); [by destruct Hne|done]. }
  apply is_empty_false in Ee. set (cs := chars (bytes_of (trim value))).
  destruct (Z.ltb_spec n (Z.of_nat (length cs))) as [Hl|Hl].
  { split; [done|]. intros (-> & _ & Hb & _). fold cs in Hb. lia. }
  destruct (existsb _ cs) eqn:Ex.
  - split; [done|]. intros (-> & _ & _ & Hf). fold cs in Hf. apply existsb_exists in Ex as (c & Hc & Hb).
    rewrite Forall_forall in Hf. apply list_elem_of_In in Hc. destruct (Hf c Hc) as [E1 E2]. by rewrite E1, E2 in Hb.
  - split; [intros [= <-]|by intros [-> _]]. split_and!; [done..|]. fold cs. apply Forall_forall. intros c Hc.
    destruct (is_control c || is_spoofing_char c) eqn:Eb; [|by apply orb_false_iff in Eb].
    assert (Ht : existsb (fun c => is_control c || is_spoofing_char c) cs = true); [|congruence].
    apply existsb_exists. exists c. split; [by apply list_elem_of_In|done].
Qed.

(** ** A client that follows the cursors gets every row *)

(** Ask for the next page with the cursor of the last answer, until there is none. *)
Fixpoint follow {A} (fuel : nat) (fetch : option Z -> list A * option Z) (before : option Z) : option (list A) :=
  match fuel with
  | O => None
  | S f =>
      let '(items, next) := fetch before in
      match next with
      | None => Some items
      | Some c => option_map (app items) (follow f fetch (Some c))
      end
  end.

Section Complete.
Context {A : Type} `{Row A}.
Variables (scope p : A -> bool) (table : list A) (limit : Z).
Hypothesis ids_unique : NoDup (map row_id table).
Hypothesis p_in_scope : forall a, p a = true -> scope a = true.
Hypothesis limit_pos : 1 <= limit.

(** A page of the rows that are left is a first part of them, and its cursor its last row. *)
Lemma paginate_rest (rest : list A) :
  paginate limit (sql_limit (limit + 1) rest) = (rest, None) /\ (length rest <= Z.to_nat limit)%nat \/
  exists mid x post, rest = (mid ++ [x]) ++ post /\ paginate limit (sql_limit (limit + 1) rest) = (mid ++ [x], Some (row_id x)).
Proof using limit_pos.
  unfold paginate, sql_limit. rewrite length_take. destruct (Z.ltb_spec limit (Z.of_nat (Z.to_nat (limit + 1) `min` length rest))) as [Hl|Hl].
  - right. rewrite take_take. replace (Z.to_nat limit `min` Z.to_nat (limit + 1))%nat with (Z.to_nat limit) by lia.
    destruct (last (take (Z.to_nat limit) rest)) as [x|] eqn:El.
    + apply last_Some in El as [mid Emid]. exists mid, x, (drop (Z.to_nat limit) rest).
      by rewrite <- Emid, take_drop.
    + apply last_None in El. apply (f_equal length) in El. rewrite length_take in El. cbn in El. lia.
  - left. rewrite take_ge by lia. split; [done|lia].
Qed.

Lemma follow_rest fuel pre r post :
  full p table = pre ++ r :: post -> (length post < fuel)%nat -> follow fuel (list_page scope p table limit) (Some (row_id r)) = Some post.
Proof using ids_unique p_in_scope limit_pos.
  revert pre r post. induction fuel as [|fuel IH]; intros pre r post Hf Hl; [lia|]. cbn [follow].
  unfold list_page at 1. rewrite (page_segment scope p table ids_unique p_in_scope _ _ _ _ Hf).
  destruct (paginate_rest post) as [[E _]|(mid & x & post' & -> & E)]; rewrite E; [done|]. cbv iota beta.
  rewrite (IH (pre ++ r :: mid) x post').
  - done.
  - rewrite Hf. cbn. by rewrite <- !app_assoc.
  - rewrite !length_app in Hl. cbn in Hl. lia.
Qed.

Lemma follow_full : follow (S (length table)) (list_page scope p table limit) None = Some (full p table).
Proof using ids_unique p_in_scope limit_pos.
  remember (length table) as n eqn:En. cbn [follow]. unfold list_page at 1. rewrite page_first.
  destruct (paginate_rest (full p table)) as [[E _]|(mid & x & post & Ef & E)]; rewrite E; [done|]. cbv iota beta.
  rewrite (follow_rest n mid x post).
  - by rewrite Ef.
  - rewrite Ef. by rewrite <- app_assoc.
  - assert (Hl : (length (full p table) <= n)%nat).
    { subst n. unfold full. rewrite (Permutation_length (sort_by_perm desc_leb _)). apply List.filter_length_le. }
    rewrite Ef, !length_app in Hl. cbn in Hl. lia.
Qed.
End Complete.

(** A client that follows the cursors sees everything. For every list endpoint, every limit that
    the check accepts and a table that does not change meanwhile: asking for the first page and then
    for the page after each answer's cursor ends, within one request per row and one more, and the
    pages together are exactly the rows of the list, each once, the newest first. *)
Lemma listing_complete {A} `{Row A} (scope p : A -> bool) (table : list A) (asked : option Z) (limit : Z) :
  NoDup (map row_id table) -> (forall a, p a = true -> scope a = true) -> validated_limit asked = Ok limit ->
  exists l, follow (S (length table)) (list_page scope p table limit) None = Some l /\
    NoDup (map row_id l) /\ (forall a, a ∈ l <-> p a = true /\ a ∈ table) /\
    StronglySorted (fun a b => key_ltb a b = false) l.
Proof.
  intros Hnd Hp Hl. unfold validated_limit in Hl. destruct (200 <? _); [done|]. destruct (Z.ltb_spec (default 50 asked) 1); [done|].
  injection Hl as <-. exists (full p table). rewrite (follow_full scope p table (default 50 asked)) by done.
  split_and!; [done|by apply full_nodup|intros a; apply full_elem|].
  induction (full_sorted p table) as [|a l _ IH Ha]; constructor; [done|]. eapply Forall_impl; [exact Ha|].
  intros b. unfold desc_leb. by rewrite negb_true_iff.
Qed.

#[local] Existing Instance Store.Address_row.

(** Three addresses of one time, one of another wallet, in pages of one. *)
Definition demo_rows : list Store.Address :=
  [Store.mkAddress 4 1 1 "M1" None (JObj []) 10; Store.mkAddress 6 1 2 "M2" None (JObj []) 10;
   Store.mkAddress 5 2 1 "M3" None (JObj []) 10; Store.mkAddress 7 1 3 "M4" None (JObj []) 10].

Lemma listing_complete_witness :
  exists l, follow 5 (list_page (fun _ => true) (fun a => Store.a_wallet_id a =? 1) demo_rows 1) None = Some l /\
    map Store.a_id l = [7; 6; 4] /\ NoDup (map row_id l).
Proof.
  destruct (listing_complete (fun _ => true) (fun a => Store.a_wallet_id a =? 1) demo_rows (Some 1) 1) as (l & E & Hnd & _).
  - apply (bool_decide_unpack (NoDup (map row_id demo_rows))). vm_compute. exact I.
  - intros a _. reflexivity.
  - reflexivity.
  - exists l. split; [exact E|]. split; [|exact Hnd].
    assert (E' : option_map (map Store.a_id) (follow 5 (list_page (fun _ => true) (fun a => Store.a_wallet_id a =? 1) demo_rows 1) None)
                 = Some [7; 6; 4]) by (vm_compute; reflexivity).
    assert (Es : Some (map Store.a_id l) = Some [7; 6; 4]) by exact (eq_trans (eq_sym (f_equal (option_map (map Store.a_id)) E)) E').
    injection Es as Es. exact Es.
Defined.
End RouteCommon.
