(* ===== verification/AmountText.v ===== *)
(** * Amounts in messages

    [format_amount] of [crates/api/src/routes/submit.rs]: the amount of a withdrawal as the mails show
    it. It goes through a double; [amount_shown_exact] says for which amounts that loses nothing. *)

From S2P Require Import Prelude Float64 Amount HorizonIngest Email.

Module AmountText.
Import HorizonIngest (trim_end_matches, trim_end_matches_rev).
Import Email (list_ascii_app).

Definition format_amount (stroops : Z) : string :=
  let s := Float64.format_fixed 7 (Float64.div (Float64.of_Z stroops) (Float64.of_Z 10000000)) in
  trim_end_matches "."%char (trim_end_matches "0"%char s).

(** ** Trimming *)

Lemma trim_rev_prefix c l : exists k, l = repeat c k ++ trim_end_matches_rev c l.
Proof.
  induction l as [|a l [k IH]]; [by exists 0%nat|]. cbn. case_bool_decide as E; [|by exists 0%nat].
  exists (S k). cbn. congruence.
Qed.

Lemma trim_rev_stop c l a r : a <> c -> trim_end_matches_rev c (l ++ a :: r) = trim_end_matches_rev c l ++ a :: r.
Proof.
  intros Ha. induction l as [|b l IH]; cbn; [by rewrite bool_decide_eq_false_2|]. by case_bool_decide.
Qed.

Lemma str_of_list_app l k : string_of_list_ascii (l ++ k) = string_of_list_ascii l +:+ string_of_list_ascii k.
Proof. induction l as [|a l IH]; cbn; [done|]. by rewrite IH. Qed.

(** A character other than [c] is never trimmed. *)
Lemma trim_end_stop c s a t : a <> c -> trim_end_matches c (s +:+ String a t) = s +:+ String a (trim_end_matches c t).
Proof.
  intros Ha. unfold trim_end_matches. rewrite list_ascii_app. cbn [list_ascii_of_string]. rewrite rev_app_distr. cbn [rev].
  rewrite <- app_assoc. cbn [app]. rewrite trim_rev_stop by done. rewrite rev_app_distr. cbn [rev]. rewrite rev_involutive, <- app_assoc.
  cbn [app]. rewrite str_of_list_app. cbn. by rewrite string_of_list_ascii_of_string.
Qed.

Lemma trim_end_prefix c s : exists k, s = trim_end_matches c s +:+ string_of_list_ascii (repeat c k).
Proof.
  destruct (trim_rev_prefix c (rev (list_ascii_of_string s))) as [k E]. exists k. unfold trim_end_matches.
  rewrite <- str_of_list_app. rewrite <- (string_of_list_ascii_of_string s) at 1. f_equal.
  rewrite <- (rev_involutive (list_ascii_of_string s)) at 1. rewrite E at 1. rewrite rev_app_distr. f_equal.
  clear. induction k as [|k IH]; [done|]. cbn [repeat rev]. rewrite IH. clear. induction k as [|k IH]; [done|]. cbn. by rewrite IH.
Qed.

Lemma dec_val_zeros k : dec_val (string_of_list_ascii (repeat "0"%char k)) = 0.
Proof. unfold dec_val. induction k as [|k IH]; [done|]. cbn. exact IH. Qed.

Lemma slen_repeat c k : slen (string_of_list_ascii (repeat c k)) = Z.of_nat k.
Proof. induction k as [|k IH]; [done|]. cbn [repeat string_of_list_ascii]. rewrite slen_cons. lia. Qed.

Lemma digits_end s : all_digits s = true -> s <> "" -> exists u d, s = u +:+ String d "" /\ is_ascii_digit d = true.
Proof.
  induction s as [|c s IH]; [done|]. cbn [all_digits str_forall]. intros H _. apply andb_true_iff in H as [Hc Hs].
  destruct s as [|c' s']; [by exists "", c|]. destruct (IH Hs) as (u & d & E & Hd); [done|]. exists (String c u), d. cbn. by rewrite E.
Qed.

Lemma trim_point_digits s : all_digits s = true -> trim_end_matches "."%char s = s.
Proof.
  intros Hs. destruct (decide (s = "")) as [->|Hne]; [done|]. destruct (digits_end s Hs Hne) as (u & d & -> & Hd).
  rewrite trim_end_stop by (intros ->; by vm_compute in Hd). done.
Qed.

(** What is left of [i.f]. *)
Lemma trim_number i f :
  all_digits i = true -> i <> "" -> all_digits f = true ->
  exists f' k, f = f' +:+ string_of_list_ascii (repeat "0"%char k) /\ all_digits f' = true /\
    trim_end_matches "."%char (trim_end_matches "0"%char (i +:+ String "." f)) = if is_empty f' then i else i +:+ String "." f'.
Proof.
  intros Hi Hne Hf. destruct (trim_end_prefix "0"%char f) as [k Ef]. exists (trim_end_matches "0"%char f), k.
  set (f' := trim_end_matches "0"%char f) in *.
  assert (Hf' : all_digits f' = true) by (unfold all_digits in *; rewrite Ef, str_forall_app in Hf; by apply andb_true_iff in Hf as [Hf _]).
  split_and!; [done..|]. rewrite trim_end_stop by done. fold f'. destruct f' as [|c r] eqn:E; cbn [is_empty].
  - destruct (digits_end i Hi Hne) as (u & d & -> & Hd). rewrite <- str_app_assoc. cbn [String.append].
    rewrite trim_end_stop by (intros ->; by vm_compute in Hd). done.
  - assert (Hc : c <> "."%char) by (cbn in Hf'; intros ->; by vm_compute in Hf').
    change (i +:+ String "." (String c r)) with (i +:+ (String "." "" +:+ String c r)). rewrite str_app_assoc, trim_end_stop by done.
    cbn in Hf'. apply andb_true_iff in Hf' as [_ Hr]. by rewrite trim_point_digits.
Qed.

(** A number of digits, with or without decimals, has no blanks around it. *)
Lemma trim_digits s i f : all_digits i = true -> i <> "" -> all_digits f = true ->
  s = i \/ (f <> "" /\ s = i +:+ String "." f) -> trim s = s.
Proof.
  intros Hi Hne Hf Hs. pose proof (digits_end i Hi Hne) as (u & d & Ei & Hd). destruct i as [|c t]; [done|].
  cbn in Hi. apply andb_true_iff in Hi as [Hc _].
  destruct Hs as [->|[Hf0 ->]].
  - by eapply (trim_plain _ c d t u); [done| |apply Amount.digit_plain..].
  - destruct (digits_end f Hf Hf0) as (u' & d' & Ef & Hd').
    eapply (trim_plain _ c d' _ ((String c t +:+ ".") +:+ u')); [done| |by apply Amount.digit_plain..].
    rewrite <- !str_app_assoc, <- Ef. done.
Qed.

(** The mails show the amount. For every amount below 536870912 units, a withdrawal's amount as the
    mails print it, through a double and without its trailing zeros, reads back as exactly that number
    of stroops. *)
Lemma amount_shown_exact (stroops : Z) :
  0 <= stroops < 2 ^ 29 * Amount.STROOPS_PER_UNIT -> Amount.to_stroops (format_amount stroops) = Some stroops.
Proof.
  intros Hs. unfold format_amount. change Amount.STROOPS_PER_UNIT with (10 ^ 7) in Hs.
  rewrite Float64.format_div_exact by done.
  set (i := print_dec (stroops / 10 ^ 7)). set (f := print_fixed 7 (stroops mod 10 ^ 7)).
  assert (Hi : all_digits i = true) by apply all_digits_print_dec. assert (Hne : i <> "") by apply print_dec_nonempty.
  assert (Hf : all_digits f = true) by apply all_digits_print_fixed.
  change (i +:+ "." +:+ f) with (i +:+ String "." f). destruct (trim_number i f Hi Hne Hf) as (f' & k & Ef & Hf' & ->).
  assert (Hl : slen f' + Z.of_nat k = 7) by (rewrite <- (slen_repeat "0"%char k), <- slen_app, <- Ef; apply slen_print_fixed).
  rewrite (Amount.to_stroops_denotes _ i f').
  - replace (Amount.stroops_value i f') with (Amount.stroops_value i f).
    + change (10 ^ 7) with Amount.STROOPS_PER_UNIT in *. unfold i, f. rewrite Amount.horizon_text_value by lia.
      apply guard_range_in. unfold i64_MIN, i64_MAX, Amount.STROOPS_PER_UNIT in *. lia.
    + unfold Amount.stroops_value. rewrite Ef, dec_val_app, dec_val_zeros, slen_app, slen_repeat.
      replace (7 - (slen f' + Z.of_nat k)) with 0 by lia. replace (7 - slen f') with (Z.of_nat k) by lia. lia.
  - split_and!; [|done|done|done|lia]. destruct f' as [|c r]; cbn [is_empty].
    + right. split; [|done]. by apply (trim_digits i i ""); [..|left].
    + left. apply (trim_digits _ i (String c r)); [done..|]. by right.
Qed.

Lemma amount_shown_exact_witness : format_amount 5368709119999999 = "536870911.9999999" /\ Amount.to_stroops (format_amount 5368709119999999) = Some 5368709119999999.
Proof. split; [vm_compute; reflexivity|]. apply amount_shown_exact. split; [discriminate|reflexivity]. Defined.

(** Beyond, the double is too coarse: a mail may name an amount that was not sent. *)
Example amount_shown_rounded : format_amount 9223372036854775807 = "922337203685.4775391".
Proof. vm_compute. reflexivity. Qed.
End AmountText.
