(* ===== verification/Withdraw.v ===== *)
(** * Withdrawals

    The handlers of [crates/api/src/routes/submit.rs] around the relay of [Submit]: the submission
    of a signed transaction with a credential of the wallet, the withdrawal of a signed-in user
    that is confirmed by a code sent by mail and bound to the transaction, the signing parameters
    and the estimate. *)

From S2P Require Import Prelude Float64 Resilience Db Moments Paging WalletAddress Store Sponsorship Otp AuditChain AuditLog Users Account HorizonIngest ApiHorizon Fees Crypto Signer Submit Net Email AmountText Token Auth AuthSafe.

Module Withdraw.
Import Db Runs Moments.
Import Store (Uuid, Wallet).
Import WalletAddress (Strkey).
Import Signer (Codec, StellarNetwork).
Import Users (SqlLower, UuidText, uuid_text, parse_uuid).
Import ApiHorizon (ApiError(..), Outside, Horizon, from_store_error).
Import Email (Digest).
Import Submit (Wire, horizon_of, posted_of, with_wire, SubmitSignedResponse, RelayOutcome,
  ro_response, ro_destination, ro_amount_stroops, ro_asset_code, ssr_status, ssr_stellar_tx_hash, ssr_detail,
  validate_signed_xdr, inner_tx_hash, relay_signed_transaction, ps_amount_stroops, ps_asset_code, ps_destination).
Import AmountText (format_amount).
Import Token Auth.
Local Open Scope db_scope.

#[local] Existing Instances Account.core_part Account.policies_part.

Definition WITHDRAW_OTP_TTL_MINUTES : Z := 10.

Definition WALLET : string := "wallet".

Record SubmitSignedRequest := mkSubmitSignedRequest { sr_transaction_xdr : option string }.
Record WithdrawOtpRequest := mkWithdrawOtpRequest { wo_transaction_xdr : option string }.
Record WithdrawConfirmRequest := mkWithdrawConfirmRequest { wc_transaction_xdr : option string; wc_code : option string }.

Definition require_xdr (x : option string) : result string ApiError :=
  ok_or (opt_filter (fun x => negb (is_empty x)) x) (BadRequest "transaction_xdr is required").

Record SigningInfo := mkSigningInfo {
  si_account : string;
  si_sequence : Z;
  si_network_passphrase : string;
  si_base_fee_stroops : Z;
  si_max_time : Z
}.

Record WithdrawEstimateParams := mkWithdrawEstimateParams {
  we_asset_code : option string;
  we_asset_issuer : option string;
  we_amount_stroops : option Z;
  we_operations : option Z
}.

Section Handlers.
Context `{Digest} `{AuditChain.Hmac} `{Base64Url} `{JwtJson} `{Argon2} `{Lowercase} `{UuidText} `{SqlLower} `{Strkey} `{Codec}.
Context {X : Type} `{Env X} `{Wire X}.
Variable rank : Otp.Row -> Z.
Variable state : AppState.
(** [state.network()], [state.signing_policy()], and what the Horizon client meets. *)
Variable network : StellarNetwork.
Variable policy : Fees.SigningPolicy.
Variable out : Outside.
Notation M := (M Account.Db X).

Definition tx_hash_of (xdr : string) : result string ApiError :=
  map_err (fun _ => BadRequest "transaction_xdr could not be hashed") (inner_tx_hash network xdr).

(** A call of the Horizon client; a panic ends the task. *)
Definition horizon_call {A} (f : Horizon -> option (result A ApiError) * Horizon) : M (result A ApiError) := fun w =>
  let '(r, h) := f (horizon_of (ext w)) in
  let w' := mkWorld (db w) (ticks w) (with_wire h (posted_of (ext w)) (ext w)) in
  match r with Some r => (Ret r, w') | None => (Crashed, w') end.

Definition submit_signed (wallet_id : Uuid) (headers : HeaderMap) (body : Payload SubmitSignedRequest) :
    M (result SubmitSignedResponse ApiError) :=
  try _ <- authorize_wallet_scope state headers wallet_id "write" | same;
  do audit_user <- authenticate state headers;
  try wallet <- get_wallet wallet_id | from_store_error;
  if Store.is_archived wallet then ret (Err (Forbidden "wallet is archived")) else
  try req <- ret (parse_optional (mkSubmitSignedRequest None) body) | same;
  try signed_xdr <- ret (require_xdr (sr_transaction_xdr req)) | same;
  try outcome <- relay_signed_transaction network out wallet_id wallet signed_xdr | same;
  do _ <- match audit_user with
          | Ok user_id =>
              record state user_id ("submitted a signed transaction (" +:+ ssr_status (ro_response outcome) +:+ ")") WALLET
                (ro_destination outcome) headers
          | Err _ => ret tt
          end;
  ret (Ok (ro_response outcome)).

(** The checks that both steps of a withdrawal begin with: the caller and the wallet. *)
Definition withdrawing (wallet_id : Uuid) (headers : HeaderMap) : M (result (Uuid * Users.User * Wallet) ApiError) :=
  try user_id <- require_login state headers | same;
  try wallet <- get_wallet wallet_id | from_store_error;
  if Store.is_archived wallet then ret (Err (Forbidden "wallet is archived")) else
  if negb (bool_decide (Store.w_user_id wallet = Some user_id)) then ret (Err NotFound) else
  try found <- get_user user_id | internal;
  try user <- ret (ok_or found NotFound) | same;
  ret (Ok (user_id, user, wallet)).

Definition withdraw_request_otp (wallet_id : Uuid) (headers : HeaderMap) (body : Payload WithdrawOtpRequest) : M (result bool ApiError) :=
  try p <- withdrawing wallet_id headers | same; let '(user_id, user, wallet) := p in
  try req <- ret (parse_optional (mkWithdrawOtpRequest None) body) | same;
  try signed_xdr <- ret (require_xdr (wo_transaction_xdr req)) | same;
  try _ <- ret (validate_signed_xdr signed_xdr (Store.w_stellar_account_g wallet)) | same;
  try tx_hash <- ret (tx_hash_of signed_xdr) | same;
  do n <- ext_call (gen_range 1000000);
  let code := Email.generate_otp n in
  try _ <- create_otp user_id "withdrawal" (Email.hash_otp code) (Some tx_hash)
             (WITHDRAW_OTP_TTL_MINUTES * 60 * second) | internal;
  try _ <- ext_call (send_mail (Users.u_email user) "Your Octo verification code"
                       (Email.otp_email (current_year state) code "withdrawal")) | internal;
  ret (Ok true).

(** The message about a refused code. *)
Definition refused_mail (user : Users.User) (payment : option Submit.PaymentSummary) : M unit :=
  match payment with
  | Some p =>
      do _ <- ext_call (send_mail (Users.u_email user) "Withdrawal attempt failed"
                          (Email.withdrawal_failed_email (current_year state) (format_amount (ps_amount_stroops p))
                             (ps_asset_code p) (ps_destination p) "an incorrect verification code was entered"));
      ret tt
  | None => ret tt
  end.

(** The message about the outcome of the relay. *)
Definition outcome_mail (user : Users.User) (outcome : RelayOutcome) : M unit :=
  match option_map format_amount (ro_amount_stroops outcome), ro_asset_code outcome, ro_destination outcome with
  | Some amount, Some asset, Some destination =>
      let r := ro_response outcome in
      let confirmed := bool_decide (ssr_status r = "confirmed") in
      let body :=
        if confirmed then
          Email.withdrawal_success_email (current_year state) amount asset destination (default "" (ssr_stellar_tx_hash r))
        else
          Email.withdrawal_failed_email (current_year state) amount asset destination
            (default "the transaction was rejected" (ssr_detail r)) in
      let subject := if confirmed then "Withdrawal successful" else "Withdrawal attempt failed" in
      do _ <- ext_call (send_mail (Users.u_email user) subject body); ret tt
  | _, _, _ => ret tt
  end.

Definition withdraw_confirm (wallet_id : Uuid) (headers : HeaderMap) (body : Payload WithdrawConfirmRequest) :
    M (result SubmitSignedResponse ApiError) :=
  try p <- withdrawing wallet_id headers | same; let '(user_id, user, wallet) := p in
  try req <- ret (parse_optional (mkWithdrawConfirmRequest None None) body) | same;
  try signed_xdr <- ret (require_xdr (wc_transaction_xdr req)) | same;
  try code <- ret (code_of (wc_code req)) | same;
  try tx_hash <- ret (tx_hash_of signed_xdr) | same;
  let code_hash := Email.hash_otp code in
  try payment <- ret (validate_signed_xdr signed_xdr (Store.w_stellar_account_g wallet)) | same;
  do verified <- verify_and_consume_otp rank user_id "withdrawal" code_hash (Some tx_hash);
  match verified with
  | Err _ => do _ <- refused_mail user payment; ret (Err (BadRequest "invalid or expired code"))
  | Ok _ =>
      try outcome <- relay_signed_transaction network out wallet_id wallet signed_xdr | same;
      do _ <- record state user_id ("confirmed a withdrawal (" +:+ ssr_status (ro_response outcome) +:+ ")") WALLET
                (ro_destination outcome) headers;
      do _ <- outcome_mail user outcome;
      ret (Ok (ro_response outcome))
  end.

(** An account Horizon does not know is not funded. *)
Definition unfunded (e : ApiError) : ApiError :=
  match e with
  | NotFound => BadRequest "This wallet is not funded on-chain yet. Fund it with XLM (testnet friendbot) first."
  | other => other
  end.

Definition signing_info (wallet_id : Uuid) (headers : HeaderMap) : M (result SigningInfo ApiError) :=
  try _ <- authorize_wallet state headers wallet_id | same;
  try wallet <- get_wallet wallet_id | from_store_error;
  try sequence <- horizon_call (ApiHorizon.account_sequence out (Store.w_stellar_account_g wallet)) | unfunded;
  try base_fee_stroops <- horizon_call (fun h => let '(fee, h') := Fees.selected_signing_fee out policy h in (Some (Ok fee), h')) | same;
  do now <- now_secs;
  ret (Ok (mkSigningInfo (Store.w_stellar_account_g wallet) sequence (Signer.passphrase network) base_fee_stroops
             (Fees.max_time policy now))).

Definition estimate_asset (q : WithdrawEstimateParams) : result (option (string * string)) ApiError :=
  match opt_filter (fun c => negb (is_empty c)) (we_asset_code q), we_asset_issuer q with
  | None, _ => Ok None
  | Some code, Some issuer =>
      if negb (is_empty issuer) then Ok (Some (code, issuer)) else Err (BadRequest "asset_issuer is required with asset_code")
  | Some _, None => Err (BadRequest "asset_issuer is required with asset_code")
  end.

(** [t1] and [t2] are the clock readings around the cache of the fee statistics. *)
Definition withdraw_estimate (t1 t2 : Z) (wallet_id : Uuid) (headers : HeaderMap) (q : WithdrawEstimateParams) :
    M (result Fees.WithdrawalEstimate ApiError) :=
  try _ <- authorize_wallet state headers wallet_id | same;
  try asset <- ret (estimate_asset q) | same;
  let req := Fees.mkEstimateRequest asset (we_amount_stroops q) (default 1 (we_operations q)) in
  try wallet <- get_wallet wallet_id | from_store_error;
  try info <- horizon_call (ApiHorizon.account_info out (Store.w_stellar_account_g wallet)) | unfunded;
  try fees <- horizon_call (ApiHorizon.fee_stats out t1 t2) | same;
  ret (Fees.estimate info fees req).
End Handlers.

(** ** What does not reach Horizon *)

Section Apart.
Context {X : Type} `{Env X} `{Wire X}.

(** The client and its posts. *)
Definition wire_of (x : X) : Horizon * list string := (horizon_of x, posted_of x).

(** The other services do not go through the client. *)
Class Apart : Prop := {
  apart_now : forall x, wire_of (snd (utc_now x)) = wire_of x;
  apart_rate : forall k c l n x, wire_of (snd (rate_check k c l n x)) = wire_of x;
  apart_range : forall n x, wire_of (snd (gen_range n x)) = wire_of x;
  apart_v4 : forall x, wire_of (snd (new_v4 x)) = wire_of x;
  apart_mail : forall a b c x, wire_of (snd (send_mail a b c x)) = wire_of x
}.
End Apart.

(** Every step of the computation leaves the client alone; [tac] handles the rest. *)
Ltac quiet_by tac := repeat first [progress cbn beta iota zeta | case_match | solve [auto 1 with leaves] | tac
  | apply leaves_try; [|intros ?] | apply leaves_bind; [|intros ?]
  | apply leaves_ext; intros ?; first [apply apart_now | apply apart_rate | apply apart_range | apply apart_v4 | apply apart_mail]].

(** ** Nothing is withdrawn without its code *)

Section Gate.
Context `{dg : Digest} `{hm : AuditChain.Hmac} `{bu : Base64Url} `{jj : JwtJson} `{ar : Argon2} `{lc : Lowercase} `{ut : UuidText} `{sl : SqlLower} `{sk : Strkey} `{cd : Codec}.
Context {X : Type} `{env : Env X} `{wr : !Wire X}.
Variable rank : Otp.Row -> Z.
Variable state : AppState.
Variable network : StellarNetwork.
Variable out : Outside.
Notation World := (World Account.Db X).

Context {ap : Apart}.
Notation silent := (leaves (S := Account.Db) wire_of).
Ltac quiet := quiet_by ltac:(solve [auto 1 with leaves]).

Lemma quiet_users {A} conv (stmt : Z -> Users.State -> result A sqlx_error * Users.State) : silent (users_call conv stmt).
Proof. unfold users_call. quiet. Qed.
Hint Resolve quiet_users : leaves.

Lemma quiet_authenticate headers : silent (authenticate_session state headers).
Proof. unfold authenticate_session, bearer_claims, verify, now_secs, is_session_valid. quiet. Qed.
Hint Resolve quiet_authenticate : leaves.

Lemma quiet_withdrawing wallet_id headers : silent (withdrawing state wallet_id headers).
Proof. unfold withdrawing, require_login, require_login_session, get_wallet, get_user. quiet. Qed.

Lemma quiet_verify u p h b : silent (verify_and_consume_otp rank u p h b).
Proof. unfold verify_and_consume_otp. quiet. Qed.

Lemma quiet_refused user payment : silent (refused_mail state user payment).
Proof. unfold refused_mail. quiet. Qed.

Lemma quiet_outcome user o : silent (outcome_mail state user o).
Proof. unfold outcome_mail. quiet. Qed.

Lemma quiet_record u a c t headers : silent (record state u a c t headers).
Proof. unfold record, record_audit, flatten. quiet. Qed.
Hint Resolve quiet_withdrawing quiet_verify quiet_refused quiet_outcome quiet_record : leaves.

(** The relay posts at most the envelope, once, and only one that passes the validation. *)
Lemma relay_posts wallet_id wallet xdr (w : World) :
  0 <= Resilience.max_delay_ms (ApiHorizon.h_retry (horizon_of (ext w))) ->
  let posted := posted_of (ext (snd (relay_signed_transaction network out wallet_id wallet xdr w))) in
  posted = posted_of (ext w) \/ posted = xdr :: posted_of (ext w).
Proof.
  intros Hd posted. unfold posted. clear posted.
  change (Submit.at_most_posts xdr (posted_of (ext w)) (ext (snd (relay_signed_transaction network out wallet_id wallet xdr w)))).
  unfold relay_signed_transaction. destruct (validate_signed_xdr _ _) as [payment|]; [|by left].
  apply (after_quiet_try (fun x => x) (Submit.at_most_posts xdr (posted_of (ext w)))); [|by left|].
  { unfold Submit.allowlist_check, Submit.get_withdrawal_allowlist_config, Submit.is_address_whitelisted. quiet. }
  intros [] w1 _ Ew. destruct (inner_tx_hash network xdr) as [h|]; [|cbn; rewrite Ew; by left].
  rewrite <- Ew in *. exact (Submit.relay_tail_ext out wallet_id wallet payment h xdr w1 Hd).
Qed.

(** The request, which meets the world [w], is that of a signed-in owner of the wallet, which is not
    archived: the login is checked in [w] and leaves [w1], and the wallet is the row that the statement
    after it finds. *)
Definition owner (headers : HeaderMap) (wallet_id : Uuid) (user_id : Uuid) (wallet : Wallet) (w w1 : World) : Prop :=
  require_login state headers w = (Ret (Ok user_id), w1) /\
  List.find (fun r => bool_decide (Store.w_id r = wallet_id)) (Store.wallets (Account.d_core (db (advance w1)))) = Some wallet /\
  Store.w_user_id wallet = Some user_id /\ Store.w_archived_at wallet = None.

(** In the world [w]: the newest code of the user for this purpose is in the table, unused, in time and
    with an attempt left, it is the code given and bound to this transaction, and once the attempt is
    counted the next statement marks it as used. *)
Definition redeemed (user_id : Uuid) (purpose code : string) (bound : option string) (w : World) : Prop :=
  let claim := Account.on_otp (Otp.claim_stmt rank user_id purpose) in
  let s := Account.otp_view (db (advance w)) in
  let w1 := performed claim w in
  exists newest o,
    Otp.latest rank user_id purpose s = Some newest /\ Otp.o_user_id newest = user_id /\ Otp.o_purpose newest = purpose /\
    o ∈ Otp.otps s /\ Otp.o_id o = Otp.o_id newest /\ Otp.redeemable (tick_now w) o = true /\
    Otp.o_code_hash o = Email.hash_otp code /\ Otp.o_tx_hash_bound o = bound /\
    fst (Otp.consume_stmt (Otp.o_id o) (tick_now w1) (Account.otp_view (db (advance w1)))) = Ok 1.

Lemma get_wallet_row wallet_id wallet (w w' : World) :
  get_wallet wallet_id w = (Ret (Ok wallet), w') -> Store.w_id wallet = wallet_id.
Proof.
  unfold get_wallet. intros ([[r|]|e] & w1 & E1 & E2)%bind_returns; try done. injection E2 as -> _.
  apply query_returns in E1 as [now E1]. apply List.find_some in E1 as [_ E1]. by apply bool_decide_eq_true in E1.
Qed.

Lemma withdrawing_owner wallet_id headers user_id user wallet (w w' : World) :
  withdrawing state wallet_id headers w = (Ret (Ok (user_id, user, wallet)), w') ->
  exists w1, owner headers wallet_id user_id wallet w w1 /\ w' = advance (advance w1).
Proof.
  unfold withdrawing. intros (u & w1 & E1 & Hm)%try_returns. apply try_returns in Hm as (wal & w2 & E2 & Hm).
  unfold get_wallet in E2. apply bind_returns in E2 as ([[r|]|e] & w3 & E2 & [= -> <-]); try done.
  apply query_at in E2 as [E2 ->]. unfold Store.is_archived in Hm. case_bool_decide as Ea; [done|].
  case_bool_decide as Eo; [|done]. cbn [negb] in Hm.
  apply try_returns in Hm as (found & w3 & E3 & Hm). unfold get_user in E3. apply bind_returns in E3 as ([f|e] & w4 & E3 & [= Ef <-]).
  apply query_at in E3 as [_ ->]. apply try_ret_returns in Hm as (us & _ & [= -> _ -> <-]).
  exists w1. split; [|done]. split_and!; [done|by symmetry|done|]. by apply eq_None_not_Some.
Qed.

Lemma latest_user u p s r : Otp.latest rank u p s = Some r -> Otp.o_user_id r = u /\ Otp.o_purpose r = p.
Proof.
  intros Hl. unfold Otp.latest in Hl. apply head_Some_elem_of in Hl. rewrite Paging.sort_by_perm in Hl.
  by apply list_elem_of_In, filter_In in Hl as [_ [?%bool_decide_eq_true ?%bool_decide_eq_true]%andb_true_iff].
Qed.

Lemma verify_redeemed u p code b t (w w' : World) :
  verify_and_consume_otp rank u p (Email.hash_otp code) b w = (Ret (Ok t), w') -> redeemed u p code b w.
Proof.
  unfold verify_and_consume_otp. intros ([o|] & w1 & E1 & Hm)%try_returns; [|done].
  destruct (Otp.accepts _ b o) eqn:Ea; [|done]. cbn [negb] in Hm. apply try_returns in Hm as (n & w2 & E2 & Hm).
  destruct (Z.eqb_spec n 1) as [->|]; [|done].
  apply call_at in E1 as [E1 ->]. apply call_at in E2 as [E2 _].
  unfold Otp.accepts in Ea. apply andb_true_iff in Ea as [Eh%bool_decide_eq_true Eb%bool_decide_eq_true].
  unfold redeemed. cbv zeta. unfold Account.on_otp at 1 in E1. unfold Otp.claim_stmt at 1 in E1.
  destruct (Otp.latest rank u p _) as [newest|] eqn:El; [|done].
  destruct (List.find _ _) as [o1|] eqn:Ef; [|done]. cbn in E1. injection E1 as <-.
  apply Store.find_elem in Ef as [Hin [Eid%bool_decide_eq_true Hr]%andb_true_iff]. destruct (latest_user _ _ _ _ El) as [Hu Hp].
  exists newest, o1. by split_and!.
Qed.

(** C14: no withdrawal without its code. Whatever other requests, failures and crashes come between: a
    request to confirm a withdrawal posts to Horizon at most the envelope it carries, at most once, and
    only when the login of the request is good when it arrives, the row of the wallet that the next
    statement reads is owned by that user and not archived, the envelope passes the validation for that
    wallet's account, and the newest code of this user for a withdrawal, in the database that the request
    then meets (two statements later), is unused, in time, with an attempt left, the one the request
    carries and bound to the hash of this very transaction, and is marked as used by the request. *)
Theorem withdrawal_gate wallet_id headers body (w : World) :
  0 <= Resilience.max_delay_ms (ApiHorizon.h_retry (horizon_of (ext w))) ->
  let posted := posted_of (ext (snd (withdraw_confirm rank state network out wallet_id headers body w))) in
  posted = posted_of (ext w) \/
  exists req xdr code hash user_id wallet payment w1,
    posted = xdr :: posted_of (ext w) /\ body = Json req /\ wc_transaction_xdr req = Some xdr /\ wc_code req = Some code /\
    owner headers wallet_id user_id wallet w w1 /\
    validate_signed_xdr xdr (Store.w_stellar_account_g wallet) = Ok payment /\
    inner_tx_hash network xdr = Ok hash /\ redeemed user_id "withdrawal" code (Some hash) (advance (advance w1)).
Proof.
  intros Hd posted. unfold posted. clear posted.
  match goal with |- ?G => match G with context [posted_of (ext (snd ?x))] => set (m := x) end end.
  set (P := fun y : Horizon * list string => snd y = posted_of (ext w) \/
    exists req xdr code hash user_id wallet payment w1,
      snd y = xdr :: posted_of (ext w) /\ body = Json req /\ wc_transaction_xdr req = Some xdr /\ wc_code req = Some code /\
      owner headers wallet_id user_id wallet w w1 /\
      validate_signed_xdr xdr (Store.w_stellar_account_g wallet) = Ok payment /\
      inner_tx_hash network xdr = Ok hash /\ redeemed user_id "withdrawal" code (Some hash) (advance (advance w1))).
  enough (HP : P (wire_of (ext (snd m)))) by exact HP. unfold m, withdraw_confirm. clear m.
  assert (Hold : forall w1 : World, wire_of (ext w1) = wire_of (ext w) -> P (wire_of (ext w1))) by (intros w1 ->; by left).
  apply (after_quiet_try wire_of P); [auto with leaves|by apply Hold|]. intros [[user_id user] wallet] w1 E1 Ew1.
  apply withdrawing_owner in E1 as (w0 & Ho & ->).
  apply (after_quiet_try wire_of P); [auto with leaves|by apply Hold|]. intros req w2 [= Ereq <-] _.
  apply (after_quiet_try wire_of P); [auto with leaves|by apply Hold|]. intros xdr w2 [= Exdr <-] _.
  apply (after_quiet_try wire_of P); [auto with leaves|by apply Hold|]. intros code w2 [= Ecode <-] _.
  apply (after_quiet_try wire_of P); [auto with leaves|by apply Hold|]. intros hash w2 [= Ehash <-] _.
  apply (after_quiet_try wire_of P); [auto with leaves|by apply Hold|]. intros payment w2 [= Epay <-] _.
  apply (after_quiet wire_of P); [auto with leaves|by apply Hold|]. intros [t|e] w2 E2 Ew2; cycle 1.
  { apply (after_quiet wire_of P); [auto with leaves|apply Hold; congruence|]. intros [] w3 _ Ew3. cbn. apply Hold. congruence. }
  apply verify_redeemed in E2.
  assert (Hsuffix : forall o, silent (do _ <- record state user_id ("confirmed a withdrawal (" +:+ ssr_status (ro_response o) +:+ ")") WALLET (ro_destination o) headers;
            do _ <- outcome_mail state user o; ret (Ok (E := ApiError) (ro_response o)))) by (intros o; quiet).
  assert (Hrelay : P (wire_of (ext (snd (relay_signed_transaction network out wallet_id wallet xdr w2))))).
  { assert (Ew : wire_of (ext w2) = wire_of (ext w)) by congruence. injection Ew as Eh Ep.
    destruct (relay_posts wallet_id wallet xdr w2) as [E|E]; [by rewrite Eh|left; cbn; by rewrite E|].
    right. exists req, xdr, code, hash, user_id, wallet, payment, w0. cbn. rewrite E, Ep. split_and!; try done.
    - destruct body; cbn in Ereq; [|congruence|done]. injection Ereq as <-. done.
    - unfold require_xdr, opt_filter in Exdr. destruct (wc_transaction_xdr req) as [x|]; [|done]. destruct (negb _); [|done]. cbn in Exdr. congruence.
    - unfold code_of, opt_filter in Ecode. destruct (wc_code req) as [x|]; [|done]. destruct (negb _); [|done]. cbn in Ecode. congruence.
    - unfold tx_hash_of in Ehash. destruct (inner_tx_hash network xdr); [|done]. cbn in Ehash. congruence. }
  unfold try_bind, bind at 1. destruct (relay_signed_transaction network out wallet_id wallet xdr w2) as [[[o|e]|] w3]; [|exact Hrelay..].
  cbn [snd] in Hrelay. by rewrite (Hsuffix o w3).
Qed.
End Gate.
(** ** A withdrawal of a sample account *)

(** Services side by side: the environment in one part, the client in the other. *)
#[export] Instance paired_env {X Y : Type} `{Env X} : Env (X * Y) := {|
  utc_now x := let '(a, y) := utc_now (fst x) in (a, (y, snd x));
  rate_check k c l n x := let '(a, y) := rate_check k c l n (fst x) in (a, (y, snd x));
  gen_range n x := let '(a, y) := gen_range n (fst x) in (a, (y, snd x));
  gen_salt x := let '(a, y) := gen_salt (fst x) in (a, (y, snd x));
  fill_bytes n x := let '(a, y) := fill_bytes n (fst x) in (a, (y, snd x));
  new_v4 x := let '(a, y) := new_v4 (fst x) in (a, (y, snd x));
  send_mail a b c x := let '(r, y) := send_mail a b c (fst x) in (r, (y, snd x))
|}.

#[export] Instance paired_wire {X Y : Type} `{Wire Y} : Wire (X * Y) := {|
  horizon_of x := horizon_of (snd x);
  posted_of x := posted_of (snd x);
  with_wire h l x := (fst x, with_wire h l (snd x));
  Submit.posted_with_wire h l x := Submit.posted_with_wire h l (snd x)
|}.

Lemma paired_apart {X Y : Type} `{Env X} `{Wire Y} : Apart (X := X * Y).
Proof.
  split; intros; cbn; [destruct (utc_now (fst x))|destruct (rate_check k c l n (fst x))|destruct (gen_range n (fst x))|destruct (new_v4 (fst x))
    |destruct (send_mail a b c (fst x))]; done.
Qed.

#[local] Existing Instances AuditLog.checksum Users.dec_uuid Users.ascii_lower Token.Sample.digest Token.Sample.base64 Token.Sample.json
  Auth.Sample.env Auth.Sample.argon2 Auth.Sample.lowercase WalletAddress.Toy.toy_strkey Submit.Ext_wire paired_apart.
#[local] Instance demo_codec : Codec := Submit.reads [Submit.payment_to Submit.other_key].

(** The user owns the wallet of the key that signed the sample transaction. *)
Definition demo_wallet : Wallet := Store.mkWallet 7 "testnet" (Submit.account_of Submit.the_key) None None None None 0 None (Some 2)
  None "client" None None 0 0 None true false None.

Definition demo_start : World Account.Db (Z * Submit.Ext) :=
  mkWorld (Account.set_core Auth.Sample.db (Store.mkState 100 [demo_wallet] [] [] [] [] [] [])) []
    (2000, Submit.mkExt (ApiHorizon.Horizon_new "https://h/") [] []).

Definition demo_headers : HeaderMap := Auth.Sample.header (AuthSafe.demo_token 5).

(** The code that the request for one sent. *)
Notation demo_asked := (snd (withdraw_request_otp Auth.Sample.app Signer.Testnet 7 demo_headers
  (Json (mkWithdrawOtpRequest (Some "xdr"))) demo_start)).
Notation demo_confirm code := (withdraw_confirm (fun _ => 0) Auth.Sample.app Signer.Testnet ApiHorizon.silent_net 7 demo_headers
  (Json (mkWithdrawConfirmRequest (Some "xdr") (Some code))) demo_asked).

Lemma withdrawal_gate_witness :
  posted_of (ext (snd (demo_confirm "002000"))) = ["xdr"] /\
  exists hash user_id wallet w1, inner_tx_hash Signer.Testnet "xdr" = Ok hash /\
    owner Auth.Sample.app demo_headers 7 user_id wallet demo_asked w1 /\
    redeemed (fun _ => 0) user_id "withdrawal" "002000" (Some hash) (advance (advance w1)).
Proof.
  assert (E : posted_of (ext (snd (demo_confirm "002000"))) = ["xdr"]) by (vm_compute; reflexivity). split; [exact E|].
  assert (E0 : posted_of (ext demo_asked) = []) by (vm_compute; reflexivity).
  destruct (withdrawal_gate (fun _ => 0) Auth.Sample.app Signer.Testnet ApiHorizon.silent_net 7 demo_headers
    (Json (mkWithdrawConfirmRequest (Some "xdr") (Some "002000"))) demo_asked) as [H|(req & xdr & code & hash & user & wallet & pay & w1 & _ & Eb & Ex & Ec & Ho & _ & Eh & Hr)].
  - vm_compute. discriminate.
  - pose proof (eq_trans (eq_sym E) (eq_trans H E0)) as H'. discriminate H'.
  - injection Eb as <-. injection Ex as <-. injection Ec as <-. exists hash, user, wallet, w1. split; [exact Eh|]. split; [exact Ho|exact Hr].
Defined.

(** Another code, and the same code once more, post nothing. *)
Example withdrawal_needs_the_code :
  posted_of (ext (snd (demo_confirm "002001"))) = [] /\
  posted_of (ext (snd (withdraw_confirm (fun _ => 0) Auth.Sample.app Signer.Testnet ApiHorizon.silent_net 7 demo_headers
    (Json (mkWithdrawConfirmRequest (Some "xdr") (Some "002000"))) (snd (demo_confirm "002000"))))) = ["xdr"].
Proof. split; vm_compute; reflexivity. Qed.

(** The same transaction, with the same login, is posted without any code by [submit_signed]. *)
Example submit_signed_needs_no_code :
  posted_of (ext (snd (submit_signed Auth.Sample.app Signer.Testnet ApiHorizon.silent_net 7 demo_headers
    (Json (mkSubmitSignedRequest (Some "xdr"))) demo_start))) = ["xdr"].
Proof. vm_compute. reflexivity. Qed.
End Withdraw.
