(* ===== verification/LinkRoutes.v ===== *)
(** * Payment links: the handlers

    [crates/api/src/routes/payment_links.rs]: creating (with an idempotency key), listing, editing
    and closing links for the wallet's owner, and the public pay page: the link, an intent with its
    own deposit address, its status, and the relay of the payer's signed transaction. *)

From S2P Require Import Prelude Float64 Resilience Db Moments Paging WalletAddress Store PaymentLinks Addresses Sponsorship Idempotency Otp AuditChain AuditLog Users Account HorizonIngest ApiHorizon Fees Crypto Signer Submit Net Email Token Auth Webhooks RouteCommon AmountText Withdraw.

Module LinkRoutes.
Import Db Runs Moments.
Import Store (Uuid, Wallet, PaymentLink, PaymentLinkPayment, pl_id, pl_wallet_id, pl_address_id, pl_slug, pl_name, pl_description,
  pl_image_url, pl_redirect_url, pl_amount_usdc_stroops, pl_active, pl_created_at, pl_expires_at, pl_cancelled_at,
  p_id, p_payer_name, p_payer_email, p_amount_usdc_stroops, p_status, p_transaction_id, p_address_id, p_created_at).
Import WalletAddress (Strkey).
Import Signer (Codec, StellarNetwork, from_xdr_base64, TransactionEnvelope(..), t_signatures, v1_tx, t_operations, op_body, OperationBody(..), p_destination, p_asset).
Import Users (SqlLower, UuidText, uuid_text, parse_uuid).
Import ApiHorizon (ApiError(..), Outside, Horizon, from_store_error).
Import Email (Digest).
Import PaymentLinks (status_at).
Import Token Auth RouteCommon.
Local Open Scope db_scope.

#[local] Existing Instances Account.core_part Account.policies_part Account.hooks_part Account.idem_part Store.PaymentLink_row Store.PaymentLinkPayment_row.

Definition USDC_ASSET_CODE : string := "USDC".
Definition USDC_TESTNET_ISSUER : string := "GBBD47IF6LWK7P7MDEVSCWR7DPUWV3NY3DTQEVFL4NAT4AQH3ZLLFLA5".
Definition MAX_LINK_LIFETIME_DAYS : Z := 365.
Definition CREATE_LINK_IDEMPOTENCY_SCOPE : string := "payment_link.create".
Definition MAX_PAYMENT_INTENT_AMOUNT : Z := 10000000000.
Definition PAYMENT_LINK : string := "configuration".

(** ** Data *)

Record PaymentLinkView := mkPaymentLinkView {
  lv_id : Uuid;
  lv_slug : string;
  lv_name : string;
  lv_description : option string;
  lv_image_url : option string;
  lv_redirect_url : option string;
  lv_amount_usdc_stroops : option Z;
  lv_active : bool;
  lv_status : string;
  lv_expires_at : option Z;
  lv_cancelled_at : option Z;
  lv_collected_usdc_stroops : Z;
  lv_created_at : Z;
  lv_url : string
}.

Record CreatePaymentLinkRequest := mkCreatePaymentLinkRequest {
  cl_name : option string;
  cl_description : option string;
  cl_image_url : option string;
  cl_redirect_url : option string;
  cl_amount_usdc_stroops : option Z;
  cl_expires_at : option Z
}.

(** The bytes of a body, and the body as the handler reads it. *)
Record LinkBody := mkLinkBody { body_bytes : list Z; body_json : Payload CreatePaymentLinkRequest }.

(** A new link, or the stored answer to the key with its status code. *)
Inductive CreateLinkResponse := LinkCreated (view : PaymentLinkView) | LinkReplayed (status status_code : Z) (data : json).

Record PaymentLinkPaymentView := mkPaymentLinkPaymentView {
  pv_id : Uuid;
  pv_payer_name : option string;
  pv_payer_email : option string;
  pv_amount_usdc_stroops : Z;
  pv_status : string;
  pv_transaction_id : option Uuid;
  pv_created_at : Z
}.

Record SetPaymentLinkActiveRequest := mkSetPaymentLinkActiveRequest { sa_active : option bool }.

(** [None]: the field is absent; [Some None]: it is null. *)
Record UpdatePaymentLinkRequest := mkUpdatePaymentLinkRequest {
  up_description : option (option string);
  up_redirect_url : option (option string);
  up_amount_usdc_stroops : option (option Z)
}.

Record PublicPaymentLinkView := mkPublicPaymentLinkView {
  pub_name : string;
  pub_description : option string;
  pub_image_url : option string;
  pub_redirect_url : option string;
  pub_amount_usdc_stroops : option Z;
  pub_status : string;
  pub_expires_at : option Z;
  pub_deposit_address : option string;
  pub_asset_code : string
}.

Record CreatePaymentIntentRequest := mkCreatePaymentIntentRequest {
  ci_payer_name : option string;
  ci_payer_email : option string;
  ci_amount_usdc_stroops : option Z
}.

Record PaymentIntentView := mkPaymentIntentView { iv_payment_id : Uuid; iv_deposit_address : string; iv_amount_usdc_stroops : Z }.

Record PaymentStatusView := mkPaymentStatusView {
  sv_status : string;
  sv_transaction_id : option Uuid;
  sv_expected_usdc_stroops : Z;
  sv_received_usdc_stroops : option Z
}.

Record SubmitPaymentRequest := mkSubmitPaymentRequest { sp_transaction_xdr : option string; sp_payment_id : option Uuid }.
Record SubmitPaymentResponse := mkSubmitPaymentResponse {
  spr_status : string;
  spr_stellar_tx_hash : option string;
  spr_detail : option string
}.

(** ** Checks *)

(** [HeaderValue::to_str]: visible ASCII, blanks and tabs. *)
Definition to_str (raw : string) : option string :=
  if str_forall (fun c => in_range 32 126 (byte_val c) || (byte_val c =? 9)) raw then Some raw else None.

Definition idempotency_key (header : option string) : result (option string) ApiError :=
  match header with
  | None => Ok None
  | Some raw =>
      let key := default "" (to_str raw) in
      if in_range 1 255 (slen key) && str_forall (fun c => in_range 33 126 (byte_val c)) key then Ok (Some key)
      else Err (BadRequest "Idempotency-Key must be 1-255 visible ASCII characters")
  end.

(** [url::Url::parse]: the scheme of a valid absolute URL. *)
Class UrlScheme := { url_scheme : string -> option string }.

Definition validate_redirect_url `{UrlScheme} (url : string) : result unit ApiError :=
  if is_empty url then Ok tt else
  match url_scheme url with
  | Some scheme =>
      if negb (bool_decide (scheme = "http")) && negb (bool_decide (scheme = "https")) then
        Err (BadRequest "redirect_url must use http:// or https:// scheme")
      else Ok tt
  | None => Err (BadRequest "redirect_url must be a valid absolute URL")
  end.

Definition validate_link_expiry (expires_at now : Z) : result unit ApiError :=
  if expires_at <=? now then Err (BadRequest "expires_at must be in the future") else
  if now + MAX_LINK_LIFETIME_DAYS * Users.day <? expires_at then
    Err (BadRequest ("expires_at must be at most " +:+ print_dec MAX_LINK_LIFETIME_DAYS +:+ " days from now"))
  else Ok tt.

Definition validate_link_amount (amount : Z) : result unit ApiError :=
  if (amount <=? 0) || (MAX_PAYMENT_INTENT_AMOUNT <? amount) then
    Err (BadRequest ("amount_usdc_stroops must be between 1 and " +:+ print_dec MAX_PAYMENT_INTENT_AMOUNT))
  else Ok tt.

Definition ensure_payable (link : PaymentLink) (now : Z) : result unit ApiError :=
  let status := status_at link now in
  if bool_decide (status = "cancelled") then Err (Gone "payment link has been cancelled")
  else if bool_decide (status = "expired") then Err (Gone "payment link has expired")
  else if bool_decide (status = "inactive") then Err NotFound
  else Ok tt.

Definition validate_slug `{Lowercase} (input : string) : result string ApiError :=
  let normalized := to_lowercase (trim input) in
  if is_empty normalized then Err (BadRequest "slug cannot be empty") else
  if slen normalized <? 3 then Err (BadRequest "slug must be at least 3 characters long") else
  if 64 <? slen normalized then Err (BadRequest "slug must be at most 64 characters long") else
  if bool_decide (normalized ∈ ["api"; "admin"; "health"]) then Err (BadRequest ("slug '" +:+ normalized +:+ "' is reserved")) else
  if negb (str_forall (fun c => in_range 97 122 (byte_val c) || is_ascii_digit c || bool_decide (c = "-"%char)) normalized) then
    Err (BadRequest "slug must contain only lowercase letters, digits, and hyphens")
  else Ok normalized.

Definition check {A} (o : option A) (f : A -> result unit ApiError) : result unit ApiError :=
  match o with Some a => f a | None => Ok tt end.

(** ** Handlers *)

Section Handlers.
Context `{Digest} `{AuditChain.Hmac} `{Base64Url} `{JwtJson} `{Argon2} `{Lowercase} `{UuidText} `{SqlLower} `{Strkey} `{Codec} `{UrlScheme}.
Context `{Webhooks.JsonBytes} `{Net.UrlParser}.
Context {X : Type} `{Env X} `{Submit.Wire X} `{Webhooks.Wire X}.
Variable state : AppState.
Variable public_app_url : string.
Variable network : StellarNetwork.
Variable policy : Fees.SigningPolicy.
Variable out : Outside.
(** [state.webhooks()], its backoff's [powi] and whether local targets are allowed. *)
Variable powi : Float64.f64 -> Z -> Float64.f64.
Variable allow_local : bool.
Variable sender : Webhooks.WebhookSender.
(** [DateTime] as serde writes it. *)
Variable timestamp : Z -> json.
Notation M := (M Account.Db X).

Definition checkout_url (slug : string) : string := public_app_url +:+ "/pay/" +:+ slug.

Definition link_view (now : Z) (link : PaymentLink) (collected : Z) : PaymentLinkView :=
  mkPaymentLinkView (pl_id link) (pl_slug link) (pl_name link) (pl_description link) (pl_image_url link) (pl_redirect_url link)
    (pl_amount_usdc_stroops link) (pl_active link) (status_at link now) (pl_expires_at link) (pl_cancelled_at link) collected
    (pl_created_at link) (checkout_url (pl_slug link)).

(** [PaymentLinkView::new], which reads the clock. *)
Definition PaymentLinkView_new (link : PaymentLink) (collected : Z) : M PaymentLinkView :=
  do now <- ext_call utc_now; ret (link_view now link collected).

Definition view_json (v : PaymentLinkView) : json :=
  JObj [("id", JId (lv_id v)); ("slug", JStr (lv_slug v)); ("name", JStr (lv_name v)); ("description", json_opt JStr (lv_description v));
        ("image_url", json_opt JStr (lv_image_url v)); ("redirect_url", json_opt JStr (lv_redirect_url v));
        ("amount_usdc_stroops", json_opt JNum (lv_amount_usdc_stroops v)); ("active", JBool (lv_active v)); ("status", JStr (lv_status v));
        ("expires_at", json_opt timestamp (lv_expires_at v)); ("cancelled_at", json_opt timestamp (lv_cancelled_at v));
        ("collected_usdc_stroops", JNum (lv_collected_usdc_stroops v)); ("created_at", timestamp (lv_created_at v)); ("url", JStr (lv_url v))].

(** The first ten digits of a new identifier, written without hyphens. *)
Definition new_slug (id : Uuid) : string :=
  String.substring 0 10 (string_of_list_ascii (List.filter (fun c => negb (bool_decide (c = "-"%char))) (list_ascii_of_string (uuid_text id)))).

Definition create_link (wallet_id : Uuid) (body : LinkBody) : M (result PaymentLinkView ApiError) :=
  try req <- ret (parse_optional (mkCreatePaymentLinkRequest None None None None None None) (body_json body)) | same;
  try name <- ret (ok_or (opt_filter (fun n => negb (is_empty n)) (cl_name req)) (BadRequest "name is required")) | same;
  try _ <- ret (check (cl_redirect_url req) validate_redirect_url) | same;
  try _ <- ret (check (cl_amount_usdc_stroops req) validate_link_amount) | same;
  try _ <- match cl_expires_at req with
           | Some expires_at => do now <- ext_call utc_now; ret (validate_link_expiry expires_at now)
           | None => ret (Ok tt)
           end | same;
  try wallet <- Auth.get_wallet wallet_id | from_store_error;
  try address <- Addresses.allocate_address wallet_id (muxed_for (Store.w_stellar_account_g wallet)) None (JObj []) | from_store_error;
  do id <- ext_call new_v4;
  try link <- PaymentLinks.create_payment_link
                (PaymentLinks.mkNewPaymentLink wallet_id (Store.a_id address) (new_slug id) name (cl_description req) (cl_image_url req)
                   (cl_redirect_url req) (cl_amount_usdc_stroops req) (cl_expires_at req)) | from_store_error;
  do view <- PaymentLinkView_new link 0;
  ret (Ok view).

(** The handler once the caller is known; [key] is the valid key of the request. *)
Definition create_with_key (wallet_id : Uuid) (key : string) (body : LinkBody) : M (result CreateLinkResponse ApiError) :=
  let request_hash := Email.hex_encode (Email.sha256 (body_bytes body)) in
  let scope := CREATE_LINK_IDEMPOTENCY_SCOPE in
  try claim <- Idempotency.claim_idempotency_key wallet_id scope key request_hash | from_store_error;
  match claim with
  | Idempotency.Claimed =>
      do made <- create_link wallet_id body;
      match made with
      | Ok view =>
          do _ <- Idempotency.complete_idempotency_key wallet_id scope key 201 (view_json view);
          ret (Ok (LinkCreated view))
      | Err e =>
          do _ <- Idempotency.release_idempotency_key wallet_id scope key;
          ret (Err e)
      end
  | Idempotency.Replay status_code response =>
      ret (Ok (LinkReplayed (if in_range 100 999 status_code then status_code else 201) status_code response))
  | Idempotency.Mismatch => ret (Err (ConflictWith "Idempotency-Key was already used with a different request body"))
  | Idempotency.InProgress => ret (Err (ConflictWith "a request with this Idempotency-Key is still in progress; retry shortly"))
  end.

Definition create_payment_link (wallet_id : Uuid) (headers : HeaderMap) (key_header : option string) (body : LinkBody) :
    M (result CreateLinkResponse ApiError) :=
  try _ <- authorize_wallet_scope state headers wallet_id "write" | same;
  try key <- ret (idempotency_key key_header) | same;
  match key with
  | None => try view <- create_link wallet_id body | same; ret (Ok (LinkCreated view))
  | Some key => create_with_key wallet_id key body
  end.

Definition list_payment_links (wallet_id : Uuid) (headers : HeaderMap) (q : ListParams) :
    M (result (list PaymentLinkView * option Uuid) ApiError) :=
  try _ <- authorize_wallet state headers wallet_id | same;
  try limit <- ret (validated_limit (lp_limit q)) | same;
  try rows <- PaymentLinks.list_payment_links wallet_id (limit + 1) (lp_before q) | from_store_error;
  let '(items, next_cursor) := paginate limit rows in
  try totals <- PaymentLinks.sum_payment_link_collected_batch (map pl_id items) | from_store_error;
  do now <- ext_call utc_now;
  ret (Ok (map (fun l => link_view now l (total_of totals (pl_id l))) items, next_cursor)).

(** A link with what it collected. *)
Definition with_collected (link : PaymentLink) : M (result PaymentLinkView ApiError) :=
  try collected <- PaymentLinks.sum_payment_link_collected (pl_id link) | from_store_error;
  do view <- PaymentLinkView_new link collected;
  ret (Ok view).

Definition get_payment_link (wallet_id link_id : Uuid) (headers : HeaderMap) : M (result PaymentLinkView ApiError) :=
  try _ <- authorize_wallet state headers wallet_id | same;
  try link <- PaymentLinks.get_payment_link wallet_id link_id | from_store_error;
  with_collected link.

Definition payment_view (p : PaymentLinkPayment) : PaymentLinkPaymentView :=
  mkPaymentLinkPaymentView (p_id p) (p_payer_name p) (p_payer_email p) (p_amount_usdc_stroops p) (p_status p) (p_transaction_id p) (p_created_at p).

Definition list_payment_link_payments (wallet_id link_id : Uuid) (headers : HeaderMap) (q : ListParams) :
    M (result (list PaymentLinkPaymentView * option Uuid) ApiError) :=
  try _ <- authorize_wallet state headers wallet_id | same;
  try link <- PaymentLinks.get_payment_link wallet_id link_id | from_store_error;
  try limit <- ret (validated_limit (lp_limit q)) | same;
  try rows <- PaymentLinks.list_payment_link_payments (pl_id link) (limit + 1) (lp_before q) | from_store_error;
  let '(items, next_cursor) := paginate limit rows in
  ret (Ok (map payment_view items, next_cursor)).

(** [StoreError::Conflict] with a message of the handler's. *)
Definition conflict_with (message : string) (e : StoreError) : ApiError :=
  match e with Db.Conflict => ConflictWith message | other => from_store_error other end.

Definition set_payment_link_active (wallet_id link_id : Uuid) (headers : HeaderMap) (body : Payload SetPaymentLinkActiveRequest) :
    M (result PaymentLinkView ApiError) :=
  try _ <- authorize_wallet_scope state headers wallet_id "write" | same;
  try req <- ret (parse_optional (mkSetPaymentLinkActiveRequest None) body) | same;
  try active <- ret (ok_or (sa_active req) (BadRequest "active is required")) | same;
  try link <- PaymentLinks.set_payment_link_active wallet_id link_id active
              | (conflict_with "payment link is cancelled and cannot be reactivated");
  with_collected link.

(** The audit entry for the wallet's owner. *)
Definition record_link (wallet_id : Uuid) (link : PaymentLink) (action : string) (headers : HeaderMap) : M (result unit ApiError) :=
  try wallet <- Auth.get_wallet wallet_id | from_store_error;
  do _ <- match Store.w_user_id wallet with
          | Some uid => record state uid action PAYMENT_LINK (Some (uuid_text (pl_id link))) headers
          | None => ret tt
          end;
  ret (Ok tt).

Definition update_payment_link (wallet_id link_id : Uuid) (headers : HeaderMap) (body : Payload UpdatePaymentLinkRequest) :
    M (result PaymentLinkView ApiError) :=
  try _ <- authorize_wallet_scope state headers wallet_id "write" | same;
  try req <- ret (parse_optional (mkUpdatePaymentLinkRequest None None None) body) | same;
  if bool_decide (up_description req = None) && bool_decide (up_redirect_url req = None) && bool_decide (up_amount_usdc_stroops req = None)
  then ret (Err (BadRequest "provide at least one of description, redirect_url, amount_usdc_stroops")) else
  let description := option_map (opt_filter (fun s => negb (is_empty (trim s)))) (up_description req) in
  let redirect_url := option_map (opt_filter (fun s => negb (is_empty s))) (up_redirect_url req) in
  try _ <- ret (match redirect_url with Some (Some url) => validate_redirect_url url | _ => Ok tt end) | same;
  try _ <- ret (match up_amount_usdc_stroops req with Some (Some amount) => validate_link_amount amount | _ => Ok tt end) | same;
  try link <- PaymentLinks.update_unpaid_payment_link wallet_id link_id
                (PaymentLinks.mkPaymentLinkUpdate description redirect_url (up_amount_usdc_stroops req))
              | (conflict_with "payment link has a pending or completed payment and can no longer be edited");
  try _ <- record_link wallet_id link "edited a payment link" headers | same;
  with_collected link.

Definition cancelled_event (link : PaymentLink) (payment : PaymentLinkPayment) : Webhooks.Event :=
  Webhooks.mkEvent "payment_link.cancelled"
    (JObj [("payment_link_id", JId (pl_id link)); ("payment_id", JId (p_id payment)); ("slug", JStr (pl_slug link));
           ("payer_name", json_opt JStr (p_payer_name payment)); ("payer_email", json_opt JStr (p_payer_email payment));
           ("amount_usdc_stroops", JNum (p_amount_usdc_stroops payment))]).

Fixpoint announce (wallet_id : Uuid) (link : PaymentLink) (cancelled : list PaymentLinkPayment) : M unit :=
  match cancelled with
  | [] => ret tt
  | payment :: rest =>
      do _ <- Webhooks.dispatch powi allow_local sender wallet_id (cancelled_event link payment);
      announce wallet_id link rest
  end.

Definition cancel_payment_link (wallet_id link_id : Uuid) (headers : HeaderMap) : M (result PaymentLinkView ApiError) :=
  try _ <- authorize_wallet_scope state headers wallet_id "write" | same;
  try p <- PaymentLinks.cancel_payment_link wallet_id link_id | from_store_error; let '(link, cancelled) := p in
  do _ <- announce wallet_id link cancelled;
  try _ <- record_link wallet_id link "cancelled a payment link" headers | same;
  with_collected link.

(** ** The pay page *)

Definition PAY_READ_LIMIT : Z := 60.
Definition PAY_INTENT_LIMIT : Z := 5.
Definition PAY_STATUS_LIMIT : Z := 60.
Definition PAY_SIGNING_INFO_LIMIT : Z := 60.
Definition PAY_SUBMIT_LIMIT : Z := 20.
Definition PAY_WINDOW : Z := 60.

Definition check_public_rate_limit (headers : HeaderMap) (peer : option Net.IpAddr) (class : string) (limit window : Z) :
    M (result unit ApiError) :=
  rate_limited (peer_ip state headers peer) class limit window "too many requests — slow down and try again shortly".

Definition get_public_payment_link (slug : string) (peer : option Net.IpAddr) (headers : HeaderMap) : M (result PublicPaymentLinkView ApiError) :=
  try _ <- check_public_rate_limit headers peer "pay_read" PAY_READ_LIMIT PAY_WINDOW | same;
  try link <- PaymentLinks.get_payment_link_by_slug slug | from_store_error;
  do now <- ext_call utc_now;
  let status := status_at link now in
  if bool_decide (status = "inactive") then ret (Err NotFound) else
  try deposit_address <-
    (if bool_decide (status = "active") then
       try address <- Store.get_address (pl_address_id link) | from_store_error;
       ret (match address with Some a => Ok (Some (Store.a_muxed_address a)) | None => Err NotFound end)
     else ret (Ok None)) | same;
  ret (Ok (mkPublicPaymentLinkView (pl_name link) (pl_description link) (pl_image_url link) (pl_redirect_url link)
             (pl_amount_usdc_stroops link) status (pl_expires_at link) deposit_address USDC_ASSET_CODE)).

(** The link of a slug, if a payer may act on it now. *)
Definition payable_link (slug : string) : M (result PaymentLink ApiError) :=
  try link <- PaymentLinks.get_payment_link_by_slug slug | from_store_error;
  do now <- ext_call utc_now;
  try _ <- ret (ensure_payable link now) | same;
  ret (Ok link).

Definition intent_amount (link : PaymentLink) (req : CreatePaymentIntentRequest) : result Z ApiError :=
  match pl_amount_usdc_stroops link with
  | Some fixed => Ok fixed
  | None => ok_or (opt_filter (fun a => 0 <? a) (ci_amount_usdc_stroops req)) (BadRequest "amount_usdc_stroops is required")
  end.

Definition create_payment_intent (slug : string) (peer : option Net.IpAddr) (headers : HeaderMap) (body : Payload CreatePaymentIntentRequest) :
    M (result PaymentIntentView ApiError) :=
  try _ <- check_public_rate_limit headers peer "pay_intent" PAY_INTENT_LIMIT PAY_WINDOW | same;
  try link <- payable_link slug | same;
  try req <- ret (parse_optional (mkCreatePaymentIntentRequest None None None) body) | same;
  try amount <- ret (intent_amount link req) | same;
  try wallet <- Auth.get_wallet (pl_wallet_id link) | from_store_error;
  try address <- Addresses.allocate_address (pl_wallet_id link) (muxed_for (Store.w_stellar_account_g wallet)) None
                   (JObj [("payment_link_slug", JStr slug)]) | from_store_error;
  try payment <- PaymentLinks.record_payment_link_intent (pl_id link) (ci_payer_name req) (ci_payer_email req) amount
                   (Some (Store.a_id address)) | from_store_error;
  ret (Ok (mkPaymentIntentView (p_id payment) (Store.a_muxed_address address) amount)).

Definition get_payment_status (slug : string) (payment_id : Uuid) (peer : option Net.IpAddr) (headers : HeaderMap) :
    M (result PaymentStatusView ApiError) :=
  try _ <- check_public_rate_limit headers peer "pay_status" PAY_STATUS_LIMIT PAY_WINDOW | same;
  try link <- PaymentLinks.get_payment_link_by_slug slug | from_store_error;
  try payment <- PaymentLinks.get_payment_link_payment (pl_id link) payment_id | from_store_error;
  try received <- match p_transaction_id payment with
                  | Some tx_id =>
                      try tx <- Store.get_transaction tx_id | from_store_error;
                      ret (Ok (option_map Store.tx_amount_stroops tx))
                  | None => ret (Ok None)
                  end | same;
  do now <- ext_call utc_now;
  let at_ := status_at link now in
  let status := if (bool_decide (at_ = "expired") || bool_decide (at_ = "cancelled")) && bool_decide (p_status payment = "pending")
                then at_ else p_status payment in
  ret (Ok (mkPaymentStatusView status (p_transaction_id payment) (p_amount_usdc_stroops payment) received)).

Definition public_signing_info (slug : string) (account : option string) (peer : option Net.IpAddr) (headers : HeaderMap) :
    M (result Withdraw.SigningInfo ApiError) :=
  try _ <- check_public_rate_limit headers peer "pay_signing_info" PAY_SIGNING_INFO_LIMIT PAY_WINDOW | same;
  try link <- payable_link slug | same;
  try account <- match account with
                 | Some a => ret (Ok a)
                 | None => try wallet <- Auth.get_wallet (pl_wallet_id link) | from_store_error; ret (Ok (Store.w_stellar_account_g wallet))
                 end | same;
  try sequence <- Withdraw.horizon_call (ApiHorizon.account_sequence out account) | same;
  try base_fee_stroops <- Withdraw.horizon_call (fun h => let '(fee, h') := Fees.selected_signing_fee out policy h in (Some (Ok fee), h')) | same;
  do now <- now_secs;
  ret (Ok (Withdraw.mkSigningInfo account sequence (Signer.passphrase network) base_fee_stroops (Fees.max_time policy now))).

(** The address that the payment must go to. *)
Definition target_address (link : PaymentLink) (payment_id : option Uuid) : M (result Uuid ApiError) :=
  match payment_id with
  | Some payment_id =>
      try payment <- PaymentLinks.get_payment_link_payment (pl_id link) payment_id | from_store_error;
      if negb (bool_decide (p_status payment = "pending")) then
        ret (Err (ConflictWith ("payment is " +:+ p_status payment +:+ " and can no longer be paid")))
      else ret (Ok (default (pl_address_id link) (p_address_id payment)))
  | None => ret (Ok (pl_address_id link))
  end.

Definition pays (muxed_address : string) (op : Signer.Operation) : bool :=
  match op_body op with
  | Payment p =>
      if negb (bool_decide (Submit.muxed_to_string (p_destination p) = muxed_address)) then false else
      let '(asset_code, asset_issuer) := Submit.asset_parts (p_asset p) in
      bool_decide (asset_code = USDC_ASSET_CODE) && bool_decide (asset_issuer = Some USDC_TESTNET_ISSUER)
  | _ => false
  end.

Definition validate_payment_xdr (signed_xdr muxed_address : string) : result unit ApiError :=
  match from_xdr_base64 signed_xdr with
  | None => Err (BadRequest "transaction_xdr is not valid base64 XDR")
  | Some (Tx v1) =>
      if bool_decide (t_signatures v1 = []) then
        Err (BadRequest "transaction_xdr carries no signatures; sign it client-side first") else
      let has_matching_payment := existsb (pays muxed_address) (t_operations (v1_tx v1)) in
      if negb has_matching_payment || negb (Nat.eqb (length (t_operations (v1_tx v1))) 1) then
        Err (BadRequest "transaction_xdr must contain exactly one USDC Payment to this payment's deposit address")
      else Ok tt
  | Some _ => Err (BadRequest "transaction_xdr must be a v1 TransactionEnvelope")
  end.

Definition payment_outcome (submit : result ApiHorizon.SubmitResult ApiError) : SubmitPaymentResponse :=
  match submit with
  | Ok r =>
      if ApiHorizon.s_successful r then mkSubmitPaymentResponse "confirmed" (Some (ApiHorizon.s_hash r)) None
      else
        let reason :=
          match List.find (fun c => negb (bool_decide (c = "op_success"))) (ApiHorizon.s_operation_codes r) with
          | Some c => Some c
          | None => ApiHorizon.s_transaction_code r
          end in
        mkSubmitPaymentResponse "failed" (Some (ApiHorizon.s_hash r)) reason
  | Err (BadRequest msg) => mkSubmitPaymentResponse "failed" None (Some msg)
  | Err _ => mkSubmitPaymentResponse "failed" None (Some "Could not reach the Stellar network — try again.")
  end.

Definition submit_payment (slug : string) (peer : option Net.IpAddr) (headers : HeaderMap) (body : Payload SubmitPaymentRequest) :
    M (result SubmitPaymentResponse ApiError) :=
  try _ <- check_public_rate_limit headers peer "pay_submit" PAY_SUBMIT_LIMIT PAY_WINDOW | same;
  try link <- payable_link slug | same;
  try req <- ret (parse_optional (mkSubmitPaymentRequest None None) body) | same;
  try address_id <- target_address link (sp_payment_id req) | same;
  try found <- Store.get_address address_id | from_store_error;
  try address <- ret (ok_or found NotFound) | same;
  try signed_xdr <- ret (Withdraw.require_xdr (sp_transaction_xdr req)) | same;
  try _ <- ret (validate_payment_xdr signed_xdr (Store.a_muxed_address address)) | same;
  do submitted <- Submit.submit out signed_xdr;
  ret (Ok (payment_outcome submitted)).
End Handlers.

(** ** The pay page relays payments to the link only *)

Section Gate.
Context `{dg : Digest} `{hm : AuditChain.Hmac} `{bu : Base64Url} `{jj : JwtJson} `{ar : Argon2} `{lc : Lowercase} `{ut : UuidText} `{sl : SqlLower} `{sk : Strkey} `{cd : Codec}.
Context {X : Type} `{env : Env X} `{wr : !Submit.Wire X} {ap : Withdraw.Apart}.
Variable state : AppState.
Variable out : Outside.
Notation World := (World Account.Db X).
Notation wire_of := (Withdraw.wire_of (X := X)).
Notation silent := (leaves (S := Account.Db) wire_of).
Ltac quiet := Withdraw.quiet_by ltac:(fail).

Lemma quiet_public headers peer class limit window : silent (check_public_rate_limit state headers peer class limit window).
Proof using ap. unfold check_public_rate_limit, rate_limited. quiet. Qed.

Lemma quiet_by_slug slug : silent (PaymentLinks.get_payment_link_by_slug slug).
Proof. unfold PaymentLinks.get_payment_link_by_slug. quiet. Qed.
Hint Resolve quiet_by_slug : leaves.

Lemma quiet_payable slug : silent (payable_link slug).
Proof using ap. unfold payable_link. quiet. Qed.

Lemma quiet_target link pid : silent (target_address link pid).
Proof. unfold target_address, PaymentLinks.get_payment_link_payment. quiet. Qed.

Lemma quiet_address id : silent (Store.get_address id).
Proof. unfold Store.get_address. quiet. Qed.
Hint Resolve quiet_public quiet_payable quiet_target quiet_address : leaves.

(** A request that the rate limit let through. *)
Lemma public_allowed headers peer class limit window t (w w1 : World) :
  check_public_rate_limit state headers peer class limit window w = (Ret (Ok t), w1) ->
  let allowed := rate_check (peer_ip state headers peer) class limit window (ext w) in
  fst allowed = true /\ ext w1 = snd allowed /\ later 0 w w1.
Proof.
  unfold check_public_rate_limit, rate_limited. intros (ok & w2 & E & [= Er <-])%bind_returns.
  pose proof (later_ext _ _ _ _ _ _ (later_refl w) E) as Hl. apply ext_at in E as [E _]. cbv zeta. rewrite E. by destruct ok.
Qed.

(** The link that the database [d] has under this slug, open to payers at the time [now]. *)
Definition open_link (slug : string) (link : PaymentLink) (d : Account.Db) (now : Z) : Prop :=
  List.find (fun l => bool_decide (pl_slug l = slug)) (Store.payment_links (Account.d_core d)) = Some link /\ status_at link now = "active".

Lemma payable_open n slug link (w w1 w2 : World) :
  later n w w1 -> payable_link slug w1 = (Ret (Ok link), w2) ->
  open_link slug link (moment (S n) w) (fst (utc_now (ext w1))) /\ later (S n) w w2.
Proof.
  intros Hl. unfold payable_link. intros (l & w3 & E1 & Hm)%try_returns.
  unfold PaymentLinks.get_payment_link_by_slug in E1. apply bind_returns in E1 as ([[r|]|] & w4 & E1 & [= -> <-]); try done.
  assert (Ex : ext w4 = ext w1) by (by apply query_at in E1 as [_ ->]).
  apply (later_part_query n _ w) in E1 as [E1 Hl4]; [|done].
  apply bind_returns in Hm as (now & w5 & En & Hm). pose proof (later_ext _ _ _ _ _ _ Hl4 En) as Hl5. apply ext_at in En as [En _].
  apply try_ret_returns in Hm as ([] & Ep & [= -> <-]). split; [|done]. split; [by symmetry|]. rewrite <- Ex, En. cbn [fst].
  revert Ep. unfold ensure_payable, status_at. destruct (bool_decide (is_Some _)); [by vm_compute|].
  destruct (match pl_expires_at link with Some e => e <=? now | None => false end); [by vm_compute|].
  destruct (pl_active link); by vm_compute.
Qed.

(** The deposit address that the request pays to, in the database [d]: that of a pending intent of the
    link, or the link's. *)
Definition payment_target (link : PaymentLink) (payment_id : option Uuid) (address_id : Uuid) (d : Account.Db) : Prop :=
  match payment_id with
  | Some pid => exists p, p ∈ Store.payment_link_payments (Account.d_core d) /\ p_id p = pid /\
                  Store.p_payment_link_id p = pl_id link /\ p_status p = "pending" /\
                  address_id = default (pl_address_id link) (p_address_id p)
  | None => address_id = pl_address_id link
  end.

(** How many statements that takes. *)
Definition target_reads (payment_id : option Uuid) : nat := if payment_id then 1 else 0.

Lemma target_spec n link pid id (w w1 w2 : World) :
  later n w w1 -> target_address link pid w1 = (Ret (Ok id), w2) ->
  payment_target link pid id (moment (S n) w) /\ later (target_reads pid + n) w w2.
Proof.
  intros Hl. unfold target_address, payment_target. destruct pid as [pid|]; [|by intros [= <- <-]]. intros (p & w3 & E1 & Hm)%try_returns.
  case_bool_decide as Es; [|done]. injection Hm as <- <-. unfold PaymentLinks.get_payment_link_payment in E1.
  apply bind_returns in E1 as ([[r|]|] & w4 & E1 & [= -> <-]); try done.
  apply (later_part_query n _ w) in E1 as [E1 Hl4]; [|done]. split; [|done]. exists p. symmetry in E1.
  apply Store.find_elem in E1 as [Hin E1]. by apply andb_true_iff in E1 as [?%bool_decide_eq_true ?%bool_decide_eq_true].
Qed.

(** The address of this id in the database [d]. *)
Definition address_in (d : Account.Db) (address : Store.Address) : Prop := address ∈ Store.addresses (Account.d_core d).

Lemma address_id_spec n id a (w w1 w2 : World) :
  later n w w1 -> Store.get_address id w1 = (Ret (Ok (Some a)), w2) -> Store.a_id a = id /\ address_in (moment (S n) w) a.
Proof.
  intros Hl. unfold Store.get_address. intros ([r|] & w4 & E1 & E2)%bind_returns; [|done]. injection E2 as -> _.
  apply (later_part_query n _ w) in E1 as [E1 _]; [|done]. symmetry in E1. apply Store.find_elem in E1 as [Hin E1].
  by apply bool_decide_eq_true in E1.
Qed.

(** A signed transaction that does nothing but pay USDC to the address. *)
Definition pays_only (xdr muxed_address : string) : Prop :=
  exists v1 op p, from_xdr_base64 xdr = Some (Tx v1) /\ t_signatures v1 <> [] /\ t_operations (v1_tx v1) = [op] /\
    op_body op = Payment p /\ Submit.muxed_to_string (p_destination p) = muxed_address /\
    Submit.asset_parts (p_asset p) = (USDC_ASSET_CODE, Some USDC_TESTNET_ISSUER).

Lemma validate_payment_spec xdr m : validate_payment_xdr xdr m = Ok tt <-> pays_only xdr m.
Proof.
  unfold validate_payment_xdr, pays_only. destruct (from_xdr_base64 xdr) as [[|v1|]|]; try naive_solver.
  case_bool_decide as Es; [naive_solver|].
  destruct (t_operations (v1_tx v1)) as [|op [|]] eqn:Eo; cycle 2;
    [rewrite orb_true_r; split; [done|]; intros (v & o2 & p & [= <-] & _ & Eo' & _); by rewrite Eo in Eo'
    |split; [done|]; intros (v & o2 & p & [= <-] & _ & Eo' & _); by rewrite Eo in Eo'|].
  cbn [existsb length Nat.eqb negb orb]. rewrite !orb_false_r. destruct (pays m op) eqn:Ep; cbn [negb].
  - split; [|done]. intros _. exists v1, op. unfold pays in Ep. destruct (op_body op) eqn:Eb; try done.
    case_bool_decide as Em; [|done]. cbn [negb] in Ep. destruct (Submit.asset_parts (p_asset p)) as [c i] eqn:Ea.
    apply andb_true_iff in Ep as [->%bool_decide_eq_true ->%bool_decide_eq_true]. exists p. rewrite Eo. by split_and!.
  - split; [done|]. intros (v & o2 & p & [= <-] & _ & Eo' & Eb & Em & Ea). rewrite Eo in Eo'. injection Eo' as <-.
    unfold pays in Ep. rewrite Eb, Em, Ea in Ep. by rewrite !bool_decide_true in Ep.
Qed.

(** C15: the public relay pays the link and does nothing else. Whatever other requests and failures come
    between, an unauthenticated request to submit a payment posts to Horizon at most the envelope it
    carries, at most once, and only when the rate limit lets it through and the envelope is a signed one
    whose single operation is a USDC payment to the right deposit address. That address is the one that
    the database has, when the request looks it up, for a pending intent of the link (or, without an
    intent, for the link itself), and the link is the one that the database has under this slug at the
    first statement of the request, open at the time the request then reads. *)
Theorem payer_relay_gate slug peer headers body (w : World) :
  0 <= Resilience.max_delay_ms (ApiHorizon.h_retry (Submit.horizon_of (ext w))) ->
  let posted := Submit.posted_of (ext (snd (submit_payment state out slug peer headers body w))) in
  let allowed := rate_check (peer_ip state headers peer) "pay_submit" PAY_SUBMIT_LIMIT PAY_WINDOW (ext w) in
  posted = Submit.posted_of (ext w) \/
  exists req xdr link address,
    posted = xdr :: Submit.posted_of (ext w) /\ body = Json req /\ sp_transaction_xdr req = Some xdr /\ fst allowed = true /\
    open_link slug link (moment 1 w) (fst (utc_now (snd allowed))) /\
    payment_target link (sp_payment_id req) (Store.a_id address) (moment 2 w) /\
    address_in (moment (target_reads (sp_payment_id req) + 2) w) address /\ pays_only xdr (Store.a_muxed_address address).
Proof using ap.
  intros Hd posted allowed. unfold posted. clear posted.
  match goal with |- ?G => match G with context [Submit.posted_of (ext (snd ?x))] => set (m := x) end end.
  set (P := fun y : Horizon * list string => snd y = Submit.posted_of (ext w) \/
    exists req xdr link address,
      snd y = xdr :: Submit.posted_of (ext w) /\ body = Json req /\ sp_transaction_xdr req = Some xdr /\ fst allowed = true /\
      open_link slug link (moment 1 w) (fst (utc_now (snd allowed))) /\
      payment_target link (sp_payment_id req) (Store.a_id address) (moment 2 w) /\
      address_in (moment (target_reads (sp_payment_id req) + 2) w) address /\ pays_only xdr (Store.a_muxed_address address)).
  enough (HP : P (wire_of (ext (snd m)))) by exact HP. unfold m, submit_payment. clear m.
  assert (Hold : forall w1 : World, wire_of (ext w1) = wire_of (ext w) -> P (wire_of (ext w1))) by (intros w1 ->; by left).
  apply (after_quiet_try wire_of P); [auto with leaves|by apply Hold|]. intros t1 w1 Er Ew1. apply public_allowed in Er as (Ha & Ex1 & Hl1).
  apply (after_quiet_try wire_of P); [auto with leaves|by apply Hold|]. intros link w2 El Ew2.
  assert (Ew2' : wire_of (ext w2) = wire_of (ext w)) by congruence. apply (payable_open 0 _ _ w) in El as [El Hl2]; [|done]. rewrite Ex1 in El.
  apply (after_quiet_try wire_of P); [auto with leaves|by apply Hold|]. intros req w3 [= Ereq <-] _.
  apply (after_quiet_try wire_of P); [auto with leaves|by apply Hold|]. intros id w3 Eid Ew3.
  assert (Ew3' : wire_of (ext w3) = wire_of (ext w)) by congruence. apply (target_spec 1 _ _ _ w) in Eid as [Eid Hl3]; [|done].
  apply (after_quiet_try wire_of P); [auto with leaves|by apply Hold|]. intros found w4 Ea Ew4.
  assert (Ew4' : wire_of (ext w4) = wire_of (ext w)) by congruence.
  apply (after_quiet_try wire_of P); [auto with leaves|by apply Hold|]. intros address w5 [= Efound <-] _.
  destruct found as [a|]; [|done]. injection Efound as ->. destruct (address_id_spec _ _ _ _ _ _ Hl3 Ea) as [Eia Hin].
  apply (after_quiet_try wire_of P); [auto with leaves|by apply Hold|]. intros xdr w5 [= Exdr <-] _.
  apply (after_quiet_try wire_of P); [auto with leaves|by apply Hold|]. intros [] w5 [= Ev <-] _. apply validate_payment_spec in Ev.
  injection Ew4' as Eh Ep. assert (Hd4 : 0 <= Resilience.max_delay_ms (ApiHorizon.h_retry (Submit.horizon_of (ext w4)))) by (by rewrite Eh).
  pose proof (Submit.submit_ext out xdr w4 Hd4) as Hs.
  assert (HP : P (wire_of (ext (snd (Submit.submit (S := Account.Db) out xdr w4))))).
  { destruct Hs as [E|E]; [left; unfold Withdraw.wire_of; cbn [snd]; congruence|right]. exists req, xdr, link, address.
    unfold Withdraw.wire_of. cbn [snd]. rewrite E, Ep. split_and!; try done.
    - destruct body; cbn in Ereq; [|congruence|done]. injection Ereq as <-. done.
    - unfold Withdraw.require_xdr, opt_filter in Exdr. destruct (sp_transaction_xdr req) as [x|]; [|done]. destruct (negb _); [|done].
      cbn in Exdr. congruence.
    - by rewrite Eia.
    - by rewrite Nat.add_succ_r. }
  unfold bind. destruct (Submit.submit out xdr w4) as [[r|] w5]; exact HP.
Qed.
End Gate.

(** ** A retried creation is answered, not repeated *)

Section Retry.
Context `{dg : Digest} `{hm : AuditChain.Hmac} `{bu : Base64Url} `{jj : JwtJson} `{ar : Argon2} `{lc : Lowercase} `{ut : UuidText} `{sl : SqlLower} `{sk : Strkey} `{us : UrlScheme}.
Context {X : Type} `{env : Env X}.
Variable public_app_url : string.
Variable timestamp : Z -> json.
Notation World := (World Account.Db X).

Lemma frames_core_call {A} (stmt : Z -> Store.State -> result A sqlx_error * Store.State) :
  frames (X := X) Account.d_idem (part_call (S := Account.Db) stmt).
Proof. apply frames_call. intros now d. unfold on_part. by destruct (stmt _ _). Qed.

Lemma create_link_frame wallet_id body : frames (X := X) Account.d_idem (create_link public_app_url wallet_id body).
Proof.
  unfold create_link, Auth.get_wallet, Addresses.allocate_address, Addresses.allocate_addresses, PaymentLinks.create_payment_link, PaymentLinkView_new.
  repeat first [progress cbn beta iota zeta | case_match | apply frames_ret | apply frames_core_call | apply frames_ext
    | apply frames_call; done | apply frames_try; [|intros ?] | apply frames_bind; [|intros ?]].
Qed.

(** The row of the key. *)
Definition key_row (wallet_id : Uuid) (key : string) (d : Account.Db) : option Idempotency.Row :=
  Idempotency.find_row wallet_id CREATE_LINK_IDEMPOTENCY_SCOPE key (Account.idem_view d).

Lemma find_update_where {A} (p q : A -> bool) (g : A -> A) l r :
  List.find p l = Some r -> q r = true -> (forall x, q x = true -> p x = true /\ p (g x) = true) ->
  List.find p (Store.update_where q g l) = Some (g r).
Proof.
  intros Hf Hq Hp. unfold Store.update_where. induction l as [|x l IH]; [done|]. cbn in *. destruct (p x) eqn:Ex.
  - injection Hf as ->. rewrite Hq. by rewrite (proj2 (Hp _ Hq)).
  - destruct (q x) eqn:Eq; [by rewrite (proj1 (Hp _ Eq)) in Ex|]. rewrite Ex. by apply IH.
Qed.

Lemma find_snoc {A} (p : A -> bool) l x : List.find p l = None -> p x = true -> List.find p (l ++ [x]) = Some x.
Proof. intros Hn Hx. induction l as [|y l IH]; cbn in *; [by rewrite Hx|]. destruct (p y); [done|]. by apply IH. Qed.

(** A statement without interference. *)
Lemma calm_call {A} (stmt : Z -> Account.Db -> result A sqlx_error * Account.Db) (w : World) :
  calm w -> exists w', db_call stmt w = (Ret (fst (stmt (tick_now w) (db w))), w') /\ calm w' /\ db w' = snd (stmt (tick_now w) (db w)).
Proof.
  intros Hc. destruct (exec_call stmt (fun a w' => a = fst (stmt (tick_now w) (db w)) /\ calm w' /\ db w' = snd (stmt (tick_now w) (db w))) w Hc)
    as (a & w' & E & -> & H1 & H2); [by intros|]. by exists w'.
Qed.

Notation scope := CREATE_LINK_IDEMPOTENCY_SCOPE.

Lemma claimed_row wallet_id key hash now d d' :
  on_part (Idempotency.claim_stmt wallet_id scope key hash) now d = (Ok true, d') ->
  in_range 1 255 (slen key) = true /\ key_row wallet_id key d' = Some (Idempotency.fresh_row wallet_id scope key hash now).
Proof.
  unfold on_part, Idempotency.claim_stmt. cbn [part Account.idem_part with_part]. destruct (in_range 1 255 (slen key)); [|done].
  cbn [negb]. intros E. split; [done|]. revert E. unfold key_row. destruct (Idempotency.find_row _ _ _ _) as [r|] eqn:Ef.
  - destruct (Idempotency.i_expires_at r <=? now); [|done]. intros [= <-]. pose proof Ef as Er. apply List.find_some in Er as [_ Er].
    apply (find_update_where _ _ (fun _ => Idempotency.fresh_row wallet_id scope key hash now) _ r Ef Er).
    intros x Hx. split; [done|]. apply Idempotency.is_key_fresh.
  - destruct (bool_decide _); [|done]. intros [= <-]. unfold Idempotency.find_row in *. cbn [Account.idem_view Account.set_idem Account.d_idem Idempotency.rows] in *.
    apply find_snoc; [done|]. apply Idempotency.is_key_fresh.
Qed.

Lemma completed_row wallet_id key code response now d r :
  key_row wallet_id key d = Some r -> Idempotency.i_response r = None ->
  key_row wallet_id key (snd (on_part (Idempotency.complete_stmt wallet_id scope key code response) now d)) =
  Some (Idempotency.complete_row code response r).
Proof.
  intros Hr Hn. unfold key_row in *. cbn. unfold Idempotency.find_row. cbn. pose proof Hr as Hk. apply List.find_some in Hk as [_ Hk].
  apply (find_update_where _ _ _ _ r Hr).
  - unfold Idempotency.unanswered. by rewrite Hk, Hn.
  - intros x Hx. unfold Idempotency.unanswered in Hx. apply andb_true_iff in Hx as [Hx _]. by split.
Qed.

(** What a request that created the link leaves of its key. *)
Lemma created_row wallet_id key body (w w1 : World) view :
  calm w -> create_with_key public_app_url timestamp wallet_id key body w = (Ret (Ok (LinkCreated view)), w1) ->
  calm w1 /\ exists r, key_row wallet_id key (db w1) = Some r /\ in_range 1 255 (slen key) = true /\
    Idempotency.i_request_hash r = Email.hex_encode (Email.sha256 (body_bytes body)) /\ Idempotency.i_status_code r = Some 201 /\
    Idempotency.i_response r = Some (view_json timestamp view) /\ tick_now w + Idempotency.ttl = Idempotency.i_expires_at r.
Proof.
  intros Hc Hm. unfold create_with_key in Hm. apply try_returns in Hm as (claim & wa & Ea & Hm).
  unfold Idempotency.claim_idempotency_key, part_call in Ea.
  destruct (calm_call (on_part (Idempotency.claim_stmt wallet_id scope key (Email.hex_encode (Email.sha256 (body_bytes body))))) w Hc) as (wb & Eb & Hcb & Edb).
  unfold try_bind at 1, bind at 1 in Ea. rewrite Eb in Ea. destruct (on_part _ (tick_now w) (db w)) as [[b|e] d'] eqn:Eclaim; [|done].
  cbn [fst snd] in Ea, Edb. destruct b.
  - injection Ea as <- <-. apply claimed_row in Eclaim as [Hk Hrow]. rewrite <- Edb in Hrow.
    apply bind_returns in Hm as (made & wc & Ec & Hm). destruct (create_link_frame wallet_id body wb Hcb) as [Hcc Hic].
    rewrite Ec in Hcc, Hic. cbn in Hcc, Hic. destruct made as [v|e]; [|apply bind_returns in Hm as (? & ? & _ & ?); done].
    apply bind_returns in Hm as (t & wd & Ed & [= -> <-]). unfold Idempotency.complete_idempotency_key, part_call in Ed.
    destruct (calm_call (on_part (Idempotency.complete_stmt wallet_id scope key 201 (view_json timestamp view))) wc Hcc) as (we & Ee & Hce & Ede).
    unfold bind in Ed. rewrite Ee in Ed. injection Ed as _ <-. split; [done|]. eexists. rewrite Ede.
    rewrite (completed_row _ _ _ _ _ _ (Idempotency.fresh_row wallet_id scope key (Email.hex_encode (Email.sha256 (body_bytes body))) (tick_now w))).
    + by split_and!.
    + unfold key_row, Account.idem_view, Idempotency.find_row in *. cbn [Idempotency.rows] in *. by rewrite Hic.
    + done.
  - exfalso. apply try_returns in Ea as (r & wc & Ec & [= <- <-]). unfold Idempotency.judge in Hm. repeat case_match; done.
Qed.

(** What other connections may do while the first request runs: anything but to the row of its key.
    (The handler itself keeps requests with the same key from it; the purge of expired keys and the
    deletion of the wallet's account are what is left out.) *)
Definition leaves_key (wallet_id : Uuid) (key : string) (d d' : Account.Db) : Prop :=
  key_row wallet_id key d' = key_row wallet_id key d.

Lemma stable_key wallet_id key o : stable (leaves_key wallet_id key) (fun d => key_row wallet_id key d = o).
Proof. intros d d' Hd Hr. unfold leaves_key in Hr. congruence. Qed.

Notation rely_key wallet_id key := (triple (X := X) (leaves_key wallet_id key) (fun _ => True)).

Lemma core_call_keeps_key {A} wallet_id key o (stmt : Z -> Store.State -> result A sqlx_error * Store.State) :
  preserves (X := X) (leaves_key wallet_id key) (fun _ => True) (fun d => key_row wallet_id key d = o) (part_call (S := Account.Db) stmt).
Proof. apply preserves_db_call; [done|apply stable_key|]. intros now d Hd. unfold on_part. by destruct (stmt _ _). Qed.

Lemma create_link_keeps_key wallet_id key o id body :
  preserves (X := X) (leaves_key wallet_id key) (fun _ => True) (fun d => key_row wallet_id key d = o) (create_link public_app_url id body).
Proof.
  unfold create_link, Auth.get_wallet, Addresses.allocate_address, Addresses.allocate_addresses, PaymentLinks.create_payment_link, PaymentLinkView_new.
  repeat first [progress cbn beta iota zeta | case_match | apply preserves_ret | apply core_call_keeps_key | by apply triple_ext_call
    | apply preserves_db_call; [done|apply stable_key|done] | apply preserves_try; [|intros ?] | apply preserves_bind; [|intros ?]].
Qed.

(** From the claim on, a request that reports a creation leaves its key unanswered or with its answer. *)
Lemma after_claim wallet_id key body row :
  Idempotency.i_response row = None ->
  rely_key wallet_id key (fun d => key_row wallet_id key d = Some row)
    (bind (create_link public_app_url wallet_id body) (fun made =>
       match made with
       | Ok view =>
           do _ <- Idempotency.complete_idempotency_key wallet_id scope key 201 (view_json timestamp view);
           ret (Ok (LinkCreated view))
       | Err e => do _ <- Idempotency.release_idempotency_key wallet_id scope key; ret (Err e)
       end))
    (fun r d => match r with
                | Ok (LinkCreated view) =>
                    key_row wallet_id key d = Some row \/
                    key_row wallet_id key d = Some (Idempotency.complete_row 201 (view_json timestamp view) row)
                | _ => True
                end) (fun _ => True).
Proof.
  intros Hn. eapply triple_bind.
  { eapply triple_conseq; [apply (create_link_keeps_key wallet_id key (Some row))|done..]. }
  intros [view|e]; cbn beta iota.
  - unfold Idempotency.complete_idempotency_key. set (Q := fun d => key_row wallet_id key d = Some row \/
      key_row wallet_id key d = Some (Idempotency.complete_row 201 (view_json timestamp view) row)).
    apply (triple_bind _ _ _ _ _ (fun _ => Q)); [|intros t; by apply triple_ret].
    apply (triple_bind _ _ _ _ _ (fun _ => Q)); [|intros t; by apply triple_ret].
    apply triple_db_call; [done|apply stable_key| |unfold Q; by auto].
    intros now d Hd. pose proof (completed_row wallet_id key 201 (view_json timestamp view) now d row Hd Hn). unfold Q. auto.
  - apply (triple_bind _ _ _ _ _ (fun _ _ => True)); [|by intros; apply triple_ret].
    apply (triple_bind _ _ _ _ _ (fun _ _ => True)); [|intros t; by apply triple_ret]. apply triple_db_call; [done|apply stable_key|done..].
Qed.

(** What a request that reported a creation leaves of its key, whatever failed. *)
Lemma claimed_then wallet_id key body (w w1 : World) view :
  ticks_ok (leaves_key wallet_id key) (ticks w) ->
  create_with_key public_app_url timestamp wallet_id key body w = (Ret (Ok (LinkCreated view)), w1) ->
  in_range 1 255 (slen key) = true /\
  let row := Idempotency.fresh_row wallet_id scope key (Email.hex_encode (Email.sha256 (body_bytes body))) (tick_now w) in
  key_row wallet_id key (db w1) = Some row \/
  key_row wallet_id key (db w1) = Some (Idempotency.complete_row 201 (view_json timestamp view) row).
Proof.
  intros Ho Hm. unfold create_with_key in Hm. apply try_returns in Hm as (claim & wa & Ea & Hm).
  unfold Idempotency.claim_idempotency_key, part_call in Ea. apply try_returns in Ea as (got & wb & Eb & Ea).
  apply Moments.call_at in Eb as [Eb ->]. destruct got.
  - injection Ea as <- <-. destruct (on_part _ (tick_now w) (db (Moments.advance w))) as [r d'] eqn:Eclaim. cbn in Eb. subst r.
    pose proof Eclaim as Hrow. apply claimed_row in Hrow as [Hk Hrow]. split; [done|]. intros row.
    match type of Hm with _ ?w2 = _ => set (w2' := w2) in Hm end.
    destruct (after_claim wallet_id key body row eq_refl w2') as [_ H].
    + unfold w2', Moments.performed. cbn [db]. by rewrite Eclaim.
    + split; [|done]. unfold w2', Moments.performed, ticks_ok in *. cbn [ticks]. destruct (ticks w); [done|]. by apply Forall_cons in Ho as [_ Ho].
    + rewrite Hm in H. exact H.
  - exfalso. apply try_returns in Ea as (r & wc & Ec & [= <- <-]). unfold Idempotency.judge in Hm. repeat case_match; done.
Qed.

(** Two databases with the same rows in all tables. *)
Definition same_tables (d d' : Account.Db) : Prop :=
  Account.d_users d' = Account.d_users d /\ Account.d_otp d' = Account.d_otp d /\ Account.d_audit d' = Account.d_audit d /\
  Account.d_core d' = Account.d_core d /\ Account.d_policies d' = Account.d_policies d /\ Account.d_hooks d' = Account.d_hooks d /\
  Account.idem_view d' = Account.idem_view d.

(** What the repeat of a request finds out from the row of its key. *)
Lemma repeat_judged wallet_id key body (w : World) r :
  calm w -> key_row wallet_id key (db w) = Some r -> in_range 1 255 (slen key) = true -> tick_now w < Idempotency.i_expires_at r ->
  Idempotency.i_request_hash r = Email.hex_encode (Email.sha256 (body_bytes body)) ->
  runs (create_with_key public_app_url timestamp wallet_id key body)
    (fun a w' => same_tables (db w) (db w') /\
       a = match Idempotency.i_status_code r, Idempotency.i_response r with
           | Some code, Some response =>
               let code := default 500 (guard_range 0 65535 code) in
               Ok (LinkReplayed (if in_range 100 999 code then code else 201) code response)
           | _, _ => Err (ConflictWith "a request with this Idempotency-Key is still in progress; retry shortly")
           end) w.
Proof.
  intros Hc Hr Hk He Hh. unfold create_with_key. cbv zeta. unfold Idempotency.claim_idempotency_key, part_call.
  assert (Ec : on_part (Idempotency.claim_stmt wallet_id scope key (Email.hex_encode (Email.sha256 (body_bytes body)))) (tick_now w) (db w) = (Ok false, Account.set_idem (db w) (Account.idem_view (db w)))).
  { unfold on_part, Idempotency.claim_stmt. cbn [part Account.idem_part]. unfold key_row in Hr. rewrite Hk, Hr. cbn [negb].
    rewrite (proj2 (Z.leb_gt (Idempotency.i_expires_at r) (tick_now w))) by lia. done. }
  exec. exec. apply exec_call; [done|]. rewrite Ec. cbn [fst snd]. intros w2 Hc2 Ed2 _.
  exec. apply exec_call; [done|]. intros w3 Hc3 Ed3 _. unfold on_part in Ed3 |- *. cbn [part Account.idem_part] in Ed3 |- *.
  rewrite Ed2 in Ed3 |- *. change (Account.idem_view (Account.set_idem (db w) (Account.idem_view (db w)))) with (Account.idem_view (db w)).
  unfold key_row in Hr. rewrite Hr. cbn [ok_or fst].
  apply exec_ret. unfold Idempotency.judge. rewrite Hh, bool_decide_true by done. cbn [negb].
  assert (Edb : same_tables (db w) (db w3)) by (by rewrite Ed3).
  destruct (Idempotency.i_status_code r), (Idempotency.i_response r); apply exec_ret; done.
Qed.

(** C12: a retry never creates. Suppose that a request with an idempotency key reported that it created a
    link, under any faults, while other connections left the row of its key alone; repeat it within the
    day, with nothing else going on. The repeat changes no row of any table. It gets, with the mark of
    a replay, exactly the stored answer to the first request when that answer was stored, which is so
    when nothing failed in the first request either; when the statement that stores the answer failed,
    the key is still in progress and the repeat is refused as a conflict. *)
Theorem retry_replays wallet_id key body (w w1 : World) view :
  ticks_ok (leaves_key wallet_id key) (ticks w) ->
  create_with_key public_app_url timestamp wallet_id key body w = (Ret (Ok (LinkCreated view)), w1) ->
  calm w1 -> tick_now w1 < tick_now w + Idempotency.ttl ->
  runs (create_with_key public_app_url timestamp wallet_id key body)
    (fun r w2 => same_tables (db w1) (db w2) /\
       exists row, key_row wallet_id key (db w1) = Some row /\ (calm w -> Idempotency.i_response row <> None) /\
         match Idempotency.i_response row with
         | Some stored => stored = view_json timestamp view /\ r = Ok (LinkReplayed 201 201 stored)
         | None => r = Err (ConflictWith "a request with this Idempotency-Key is still in progress; retry shortly")
         end) w1.
Proof.
  intros Ho Hm Hc1 Ht. destruct (claimed_then wallet_id key body w w1 view Ho Hm) as [Hk Hrow]. cbv zeta in Hrow.
  assert (Hcalm : calm w -> forall row, key_row wallet_id key (db w1) = Some row -> Idempotency.i_response row <> None).
  { intros Hc row Er. destruct (created_row wallet_id key body w w1 view Hc Hm) as (_ & r & Er' & _ & _ & _ & Hv & _). congruence. }
  destruct Hrow as [Hrow|Hrow].
  - eapply exec_mono; [|apply (repeat_judged wallet_id key body w1 _ Hc1 Hrow Hk); done].
    cbn. intros r w2 [Ed ->]. split; [done|]. eexists. split; [exact Hrow|]. split; [|done]. intros Hc. by apply (Hcalm Hc _ Hrow).
  - eapply exec_mono; [|apply (repeat_judged wallet_id key body w1 _ Hc1 Hrow Hk); done].
    cbn. intros r w2 [Ed ->]. split; [done|]. eexists. split; [exact Hrow|]. split; [done|]. by cbn.
Qed.
End Retry.

(** ** A sample link *)

#[local] Existing Instances AuditLog.checksum Users.dec_uuid Users.ascii_lower Token.Sample.digest Token.Sample.base64 Token.Sample.json
  Auth.Sample.env Auth.Sample.argon2 Auth.Sample.lowercase WalletAddress.Toy.toy_strkey Submit.Ext_wire Withdraw.paired_env Withdraw.paired_wire Withdraw.paired_apart.
#[local] Instance demo_scheme : UrlScheme := {| url_scheme s := if starts_with "https://" s then Some "https" else None |}.

Definition usdc_issuer : WalletAddress.key := bytes_of "BBD47IF6LWK7P7MDEVSCWR7DPUWV3NY3DTQEVFL4NAT4AQH3ZLLFLA5".

(** A payment of USDC to the third address of the wallet. *)
#[local] Instance demo_codec : Codec :=
  Submit.reads [Signer.mkOperation None (Payment (Signer.mkPaymentOp (Signer.MuxedEd25519 3 Submit.the_key) (Signer.CreditAlphanum4 "USDC" usdc_issuer) 50))].

Definition demo_link : PaymentLink := Store.mkPaymentLink 30 7 21 "abc" "shop" None None None None true 0 0 None None.

Definition demo_db : Account.Db :=
  Account.set_core Auth.Sample.db
    (Store.mkState 100 [Withdraw.demo_wallet]
       [Store.mkAddress 21 7 3 (WalletAddress.mux_display Submit.the_key 3) None (JObj []) 0] [] [] [demo_link] [] []).

Definition demo_world : World Account.Db (Z * Submit.Ext) :=
  mkWorld demo_db [] (2000, Submit.mkExt (ApiHorizon.Horizon_new "https://h/") [] []).

Notation demo_submit := (submit_payment Auth.Sample.app ApiHorizon.silent_net "abc" None (Auth.Sample.header "")
  (Json (mkSubmitPaymentRequest (Some "xdr") None)) demo_world).

Lemma payer_relay_gate_witness :
  Submit.posted_of (ext (snd demo_submit)) = ["xdr"] /\
  exists link address, open_link "abc" link demo_db 2000 /\ Store.a_id address = pl_address_id link /\ address_in demo_db address /\
    pays_only "xdr" (Store.a_muxed_address address).
Proof.
  assert (E : Submit.posted_of (ext (snd demo_submit)) = ["xdr"]) by (vm_compute; reflexivity). split; [exact E|].
  destruct (payer_relay_gate Auth.Sample.app ApiHorizon.silent_net "abc" None (Auth.Sample.header "")
    (Json (mkSubmitPaymentRequest (Some "xdr") None)) demo_world) as [H|(req & xdr & link & address & _ & Eb & Ex & _ & Ho & Ht & Ha & Hp)].
  - vm_compute. discriminate.
  - pose proof (eq_trans (eq_sym E) H) as H'. discriminate H'.
  - injection Eb as <-. injection Ex as <-. exists link, address. split; [exact Ho|]. split; [exact Ht|]. split; [exact Ha|exact Hp].
Defined.

Definition demo_body : LinkBody :=
  mkLinkBody [1; 2] (Json (mkCreatePaymentLinkRequest (Some "shop") None None (Some "https://s.example") (Some 70) None)).

Definition demo_calm : World Account.Db Z := mkWorld demo_db [] 2000.

Notation demo_create := (create_with_key "https://app" JNum 7 "order-1" demo_body).

(** The statement that stores the answer fails, after the claim, the wallet, the address and the link. *)
Definition demo_unstored : World Account.Db Z :=
  mkWorld demo_db (repeat quiet_tick 4 ++ [mkTick FailBefore 0 (fun d => d)]) 2000.

Definition links_of (d : Account.Db) : nat := length (Store.payment_links (Account.d_core d)).

Lemma retry_replays_witness :
  (exists view w1, demo_create demo_calm = (Ret (Ok (LinkCreated view)), w1) /\ links_of (db w1) = S (links_of demo_db) /\
     runs demo_create (fun r w2 => r = Ok (LinkReplayed 201 201 (view_json JNum view)) /\ same_tables (db w1) (db w2)) w1) /\
  (exists view w1, demo_create demo_unstored = (Ret (Ok (LinkCreated view)), w1) /\ links_of (db w1) = S (links_of demo_db) /\
     runs demo_create (fun r w2 => r = Err (ConflictWith "a request with this Idempotency-Key is still in progress; retry shortly") /\ same_tables (db w1) (db w2)) w1).
Proof.
  split.
  - assert (E : match demo_create demo_calm with
                | (Ret (Ok (LinkCreated v)), w1) =>
                    (match ticks w1 with [] => true | _ => false end) && (links_of (db w1) =? S (links_of demo_db))%nat
                | _ => false end = true) by (vm_compute; reflexivity).
    destruct (demo_create demo_calm) as [[[[v|]|]|] w1] eqn:Em; try discriminate E. exists v, w1. split; [reflexivity|].
    apply andb_true_iff in E as [E El]. split; [by apply Nat.eqb_eq|].
    assert (Hc : calm demo_calm) by constructor.
    assert (Hc1 : calm w1) by (unfold calm; destruct (ticks w1); [constructor|discriminate E]).
    eapply exec_mono; [|apply (retry_replays "https://app" JNum 7 "order-1" demo_body demo_calm w1 v); [constructor|exact Em|exact Hc1|]].
    + intros r w2 (Hd & row & _ & Hn & Hr). specialize (Hn Hc). destruct (Idempotency.i_response row); [|done]. destruct Hr as [-> ->]. done.
    + unfold tick_now. destruct (ticks w1); [|discriminate E]. reflexivity.
  - assert (E : match demo_create demo_unstored with
                | (Ret (Ok (LinkCreated v)), w1) =>
                    (match ticks w1 with [] => true | _ => false end) && (links_of (db w1) =? S (links_of demo_db))%nat &&
                    match key_row 7 "order-1" (db w1) with Some r => bool_decide (Idempotency.i_response r = None) | None => false end
                | _ => false end = true) by (vm_compute; reflexivity).
    destruct (demo_create demo_unstored) as [[[[v|]|]|] w1] eqn:Em; try discriminate E. exists v, w1. split; [reflexivity|].
    apply andb_true_iff in E as [[E El]%andb_true_iff Ek]. split; [by apply Nat.eqb_eq|].
    assert (Hc1 : calm w1) by (unfold calm; destruct (ticks w1); [constructor|discriminate E]).
    eapply exec_mono; [|apply (retry_replays "https://app" JNum 7 "order-1" demo_body demo_unstored w1 v); [|exact Em|exact Hc1|]].
    + intros r w2 (Hd & row & Hk & _ & Hr). rewrite Hk in Ek. apply bool_decide_eq_true in Ek. rewrite Ek in Hr. done.
    + unfold ticks_ok. repeat constructor.
    + unfold tick_now. destruct (ticks w1); [|discriminate E]. reflexivity.
Defined.
End LinkRoutes.
