(* ===== verification/WalletRoutes.v ===== *)
(** * Wallets and addresses: the handlers

    [crates/api/src/routes/wallets.rs] and [routes/addresses.rs]: registering a wallet by proving
    that its key is held, its details, backup, gas-tank status, history and balances, and the
    allocation of deposit addresses.

    Not here, because the store has no such methods: [archive_wallet], [unarchive_wallet] and
    [create_gas_tank] (which locks a provisioning row). *)

From S2P Require Import Prelude Float64 Resilience Db Moments Paging WalletAddress Store Addresses Sponsorship Idempotency Amount Otp AuditChain AuditLog Users Account HorizonIngest ApiHorizon Fees Crypto Signer Submit Net Email Token Auth AuthSafe Wallets RouteCommon AmountText Withdraw.

Module WalletRoutes.
Import Db Runs Moments.
Import Store (Uuid, Wallet, w_id, w_network, w_stellar_account_g, w_custody, w_label, w_description, w_archived_at, w_ingest_paused,
  w_ingest_paused_at, w_user_id, w_gas_tank_account_g, w_encrypted_backup).
Import WalletAddress (Strkey, is_valid_account, is_valid_asset_code).
Import Signer (StellarNetwork, passphrase, as_str).
Import Users (SqlLower, UuidText, uuid_text, parse_uuid).
Import ApiHorizon (ApiError(..), Outside, Horizon, from_store_error).
Import Email (Digest).
Import Token Auth RouteCommon.
Local Open Scope db_scope.

#[local] Existing Instances Account.core_part Account.policies_part Wallets.Wallet_row Store.Transaction_row Store.Address_row.

Definition WALLET : string := "wallet".
Definition ADDRESS : string := "address".
Definition BACKUP_RETRIEVED : string := "retrieved encrypted seed backup".
Definition BACKUP_USER_LIMIT : Z := 5.
Definition BACKUP_USER_WINDOW : Z := 3600.

(** ** Filters of the history *)

Record TransactionFilterParams := mkTransactionFilterParams {
  tf_direction : option string;
  tf_status : option string;
  tf_asset : option string;
  tf_from : option string;
  tf_to : option string
}.

Section Filters.
Context `{Strkey}.
(** [DateTime::parse_from_rfc3339] and [NaiveDate::parse_from_str(.., "%Y-%m-%d")] at midnight. *)
Variables (parse_rfc3339 parse_date : string -> option Z).

Definition parse_asset_filter (raw : string) : result (option string * option string) ApiError :=
  if eq_ignore_ascii_case raw "native" || eq_ignore_ascii_case raw "xlm" then Ok (Some "native", None) else
  let '(code, issuer) := match split_once ":" raw with Some (c, i) => (c, Some i) | None => (raw, None) end in
  if negb (is_valid_asset_code code) then
    Err (BadRequest "asset must be native, a 1-12 byte asset code, or CODE:ISSUER") else
  match issuer with
  | Some i => if negb (is_valid_account i) then Err (BadRequest "asset issuer must be a valid Stellar account (G...)")
              else Ok (Some code, Some i)
  | None => Ok (Some code, None)
  end.

Definition parse_bound (name raw : string) : result Z ApiError :=
  match parse_rfc3339 raw with
  | Some ts => Ok ts
  | None => ok_or (parse_date raw) (BadRequest (name +:+ " must be an RFC 3339 timestamp or a YYYY-MM-DD date"))
  end.

(** [map(..).transpose()] *)
Definition parse_opt_bound (name : string) (raw : option string) : result (option Z) ApiError :=
  match raw with None => Ok None | Some v => let? t := parse_bound name v in Ok (Some t) end.

Definition choice (field valid : string) (values : list string) (v : option string) : result (option string) ApiError :=
  match v with
  | None => Ok None
  | Some d => if bool_decide (d ∈ values) then Ok (Some d)
              else Err (BadRequest ("invalid " +:+ field +:+ " filter '" +:+ d +:+ "'; valid values are: " +:+ valid))
  end.

Definition validate_filter (f : TransactionFilterParams) : result Store.TransactionFilter ApiError :=
  let? direction := choice "direction" "deposit, withdrawal" ["deposit"; "withdrawal"] (tf_direction f) in
  let? status := choice "status" "pending, confirmed, failed" ["pending"; "confirmed"; "failed"] (tf_status f) in
  let? asset := match tf_asset f with None => Ok (None, None) | Some a => parse_asset_filter a end in
  let? from := parse_opt_bound "from" (tf_from f) in
  let? to_ := parse_opt_bound "to" (tf_to f) in
  if match from, to_ with Some f, Some t => t <=? f | _, _ => false end then Err (BadRequest "from must be earlier than to")
  else Ok (Store.mkTransactionFilter direction status (fst asset) (snd asset) from to_).
End Filters.

(** ** The proof of ownership *)

Definition CHALLENGE_TTL_SECS : Z := 600.

(** What [verify_account_signature] uses of ed25519-dalek and base64. *)
Class Ed25519 := {
  valid_key : WalletAddress.key -> bool;
  b64_standard : string -> option (list Z);
  verify_strict : WalletAddress.key -> list Z -> list Z -> bool
}.

(** [str::splitn] *)
Fixpoint splitn (n : nat) (c : ascii) (s : string) : list string :=
  match n with
  | O => []
  | S O => [s]
  | S m => match split_once c s with Some (a, b) => a :: splitn m c b | None => [s] end
  end.

Section Challenge.
Context `{AuditChain.Hmac} `{Base64Url} `{UuidText} `{Strkey} `{Ed25519}.

Definition challenge_hmac_input (user_id : Uuid) (ts : Z) (nonce network_passphrase : string) : string :=
  "wallet-challenge:v2:" +:+ network_passphrase +:+ ":" +:+ uuid_text user_id +:+ ":" +:+ print_int ts +:+ ":" +:+ nonce.

Definition issue_challenge (secret : list Z) (user_id : Uuid) (ts : Z) (nonce network_passphrase : string) : string :=
  let mac := sign_hs256 secret (bytes_of (challenge_hmac_input user_id ts nonce network_passphrase)) in
  "v2." +:+ print_int ts +:+ "." +:+ nonce +:+ "." +:+ network_passphrase +:+ "." +:+ mac.

Definition bad_challenge : ApiError := BadRequest "invalid or expired ownership challenge".

(** The source uses [public_key] here without passing it in. *)
Definition verify_ownership_for_network (secret : list Z) (user_id : Uuid) (public_key expected_network_passphrase challenge signature : string)
    (now : Z) : result unit ApiError :=
  match splitn 5 "." challenge with
  | [version; ts_text; nonce; network_passphrase; mac] =>
      let? ts := ok_or (parse_i64 ts_text) bad_challenge in
      if negb (bool_decide (version = "v2")) || negb (bool_decide (network_passphrase = expected_network_passphrase)) then Err bad_challenge else
      let? age := ok_or (try_i64 (now - ts)) bad_challenge in
      if negb (in_range 0 CHALLENGE_TTL_SECS age) then Err bad_challenge else
      if negb (verify_hs256 secret (bytes_of (challenge_hmac_input user_id ts nonce network_passphrase)) mac) then Err bad_challenge else
      map_err (fun _ => BadRequest "signature does not prove ownership of public_key — sign the challenge with the account's own secret key")
        (WalletAddress.verify_account_signature valid_key b64_standard verify_strict public_key (bytes_of challenge) signature)
  | _ => Err bad_challenge
  end.
End Challenge.

(** ** Data *)

Record CreateWalletRequest := mkCreateWalletRequest {
  cw_public_key : option string;
  cw_encrypted_backup : option string;
  cw_label : option string;
  cw_description : option string;
  cw_challenge : option string;
  cw_signature : option string
}.

Record CreateWalletResponse := mkCreateWalletResponse {
  cwr_id : Uuid;
  cwr_network : string;
  cwr_address : string;
  cwr_custody : string;
  cwr_funded : bool
}.

Record WalletView := mkWalletView {
  wv_id : Uuid;
  wv_network : string;
  wv_address : string;
  wv_custody : string;
  wv_label : option string;
  wv_description : option string;
  wv_archived_at : option Z;
  wv_ingest_paused : bool;
  wv_ingest_paused_at : option Z
}.

Definition to_view (w : Wallet) : WalletView :=
  mkWalletView (w_id w) (w_network w) (w_stellar_account_g w) (w_custody w) (w_label w) (w_description w) (w_archived_at w)
    (w_ingest_paused w) (w_ingest_paused_at w).

Record BackupView := mkBackupView { bv_wallet_id : Uuid; bv_encrypted_backup : option string }.

Record GasTankStatusView := mkGasTankStatusView {
  gt_wallet_id : Uuid;
  gt_provisioned : bool;
  gt_gas_tank_address : option string;
  gt_sponsorship_enabled : bool;
  gt_daily_budget_stroops : option Z;
  gt_spent_today_stroops : Z
}.

Record UpdateWalletRequest := mkUpdateWalletRequest { uw_label : option (option string); uw_description : option (option string) }.

Record CreateAddressRequest := mkCreateAddressRequest { ca_customer_ref : option string; ca_metadata : option json }.
Record AddressListParams := mkAddressListParams { al_limit : option Z; al_before : option Uuid; al_customer_ref : option string }.

Record AddressView := mkAddressView {
  av_id : Uuid;
  av_customer_ref : option string;
  av_muxed_address : string;
  av_base_address : string;
  av_memo_id : Z;
  av_metadata : json;
  av_received_stroops : Z
}.

Definition MAX_BATCH_ADDRESSES : Z := 100.

Definition address_view (base : string) (received : Uuid -> Z) (a : Store.Address) : AddressView :=
  mkAddressView (Store.a_id a) (Store.a_customer_ref a) (Store.a_muxed_address a) base (Store.a_muxed_id a) (Store.a_metadata a)
    (received (Store.a_id a)).

(** The loop over the entries of a batch: each reference cleaned, and none twice. *)
Fixpoint clean_batch (i : Z) (seen : list string) (entries : list CreateAddressRequest) : result (list Addresses.NewAddress) ApiError :=
  match entries with
  | [] => Ok []
  | entry :: rest =>
      let field := "addresses[" +:+ print_dec i +:+ "].customer_ref" in
      let? customer_ref := clean_optional field (ca_customer_ref entry) CUSTOMER_REF_MAX in
      if match customer_ref with Some r => bool_decide (r ∈ seen) | None => false end then
        Err (ConflictWith (field +:+ " duplicates an earlier entry in this batch")) else
      let? items := clean_batch (i + 1) (match customer_ref with Some r => r :: seen | None => seen end) rest in
      Ok (Addresses.mkNewAddress customer_ref (default (JObj []) (ca_metadata entry)) :: items)
  end.

(** ** Handlers *)

Section Handlers.
Context `{Digest} `{AuditChain.Hmac} `{Base64Url} `{JwtJson} `{Argon2} `{Lowercase} `{UuidText} `{SqlLower} `{Strkey} `{Ed25519}.
Context {X : Type} `{Env X} `{Submit.Wire X}.
Variable state : AppState.
Variable network : StellarNetwork.
Variable out : Outside.
(** Whether friendbot funded the account; [None] when no friendbot is configured. *)
Variable friendbot : option (string -> X -> bool * X).
Variables (parse_rfc3339 parse_date : string -> option Z).
Notation M := (M Account.Db X).

(** The nonce is a new identifier without its hyphens. *)
Definition simple_text (id : Uuid) : string :=
  string_of_list_ascii (List.filter (fun c => negb (bool_decide (c = "-"%char))) (list_ascii_of_string (uuid_text id))).

Definition wallet_challenge (headers : HeaderMap) : M (result string ApiError) :=
  try user_id <- authenticate state headers | same;
  do ts <- now_secs;
  do nonce <- ext_call new_v4;
  ret (Ok (issue_challenge (jwt_secret state) user_id ts (simple_text nonce) (passphrase network))).

Definition verify_ownership (user_id : Uuid) (public_key challenge signature : string) : M (result unit ApiError) :=
  do now <- now_secs;
  ret (verify_ownership_for_network (jwt_secret state) user_id public_key (passphrase network) challenge signature now).

Definition nonempty (e : string) (o : option string) : result string ApiError :=
  ok_or (opt_filter (fun s => negb (is_empty s)) o) (BadRequest e).

(** The owner's row must exist. *)
Definition create_client_wallet (new : Wallets.NewClientWallet) : M (result Wallet StoreError) :=
  do r <- db_call (fun now d =>
    on_part (Wallets.create_client_wallet_stmt (fun u => existsb (Users.is_user u) (Users.users (Account.d_users d))) new) now d);
  ret (map_err from_sqlx_conflict r).

Definition fund (account_g : string) : M bool :=
  match friendbot with Some f => ext_call (f account_g) | None => ret false end.

Definition create_wallet (headers : HeaderMap) (body : Payload CreateWalletRequest) : M (result CreateWalletResponse ApiError) :=
  try user_id <- authenticate state headers | same;
  try req <- ret (parse_optional (mkCreateWalletRequest None None None None None None) body) | same;
  try label <- ret (clean_optional "label" (cw_label req) WALLET_LABEL_MAX) | same;
  try description <- ret (clean_optional "description" (cw_description req) WALLET_DESCRIPTION_MAX) | same;
  try public_key <- ret (nonempty "public_key is required (G...)" (cw_public_key req)) | same;
  if negb (is_valid_account public_key) then ret (Err (BadRequest "public_key must be a valid Stellar account (G...)")) else
  try challenge <- ret (nonempty "challenge is required (GET /v1/wallets/challenge first)" (cw_challenge req)) | same;
  try signature <- ret (nonempty "signature over the challenge is required" (cw_signature req)) | same;
  try _ <- verify_ownership user_id public_key challenge signature | same;
  try wallet <- create_client_wallet (Wallets.mkNewClientWallet (as_str network) public_key (cw_encrypted_backup req) label (Some user_id) description)
                | from_store_error;
  do _ <- record state user_id "created master wallet" WALLET (w_label wallet) headers;
  do funded <- fund (w_stellar_account_g wallet);
  ret (Ok (mkCreateWalletResponse (w_id wallet) (w_network wallet) (w_stellar_account_g wallet) (w_custody wallet) funded)).

Definition get_backup (id : Uuid) (headers : HeaderMap) : M (result BackupView ApiError) :=
  try user_id <- require_login state headers | same;
  try _ <- rate_limited ("backup:" +:+ uuid_text user_id) "backup" BACKUP_USER_LIMIT BACKUP_USER_WINDOW
             "too many backup requests — wait a while and try again" | same;
  try wallet <- Auth.get_wallet id | from_store_error;
  if negb (bool_decide (w_user_id wallet = Some user_id)) then ret (Err NotFound) else
  try _ <- record_strict state user_id BACKUP_RETRIEVED WALLET (Some (uuid_text (w_id wallet))) headers | same;
  ret (Ok (mkBackupView (w_id wallet) (w_encrypted_backup wallet))).

Definition get_gas_tank (id : Uuid) (headers : HeaderMap) : M (result GasTankStatusView ApiError) :=
  try _ <- authorize_wallet state headers id | same;
  try wallet <- Auth.get_wallet id | from_store_error;
  match w_gas_tank_account_g wallet with
  | None => ret (Ok (mkGasTankStatusView id false None false None 0))
  | Some gas_tank_address =>
      try config <- Sponsorship.get_gas_sponsorship_config id | from_store_error;
      try spent <- Sponsorship.sum_sponsored_fees_reserved_today id | internal;
      ret (Ok (mkGasTankStatusView id true (Some gas_tank_address)
                 match config with Some c => Sponsorship.g_enabled c | None => false end
                 (let* c := config in Sponsorship.g_daily_budget_stroops c) spent))
  end.

Definition get_balances (id : Uuid) (headers : HeaderMap) : M (result (list ApiHorizon.Balance) ApiError) :=
  try _ <- authorize_wallet state headers id | same;
  try wallet <- Auth.get_wallet id | from_store_error;
  try balances <- Withdraw.horizon_call (ApiHorizon.balances out (w_stellar_account_g wallet)) | same;
  ret (Ok balances).

Definition list_transactions (id : Uuid) (headers : HeaderMap) (q : ListParams) (f : TransactionFilterParams) :
    M (result (list Store.Transaction * option Uuid) ApiError) :=
  try _ <- authorize_wallet state headers id | same;
  try _ <- Auth.get_wallet id | from_store_error;
  try filter <- ret (validate_filter parse_rfc3339 parse_date f) | same;
  try limit <- ret (validated_limit (lp_limit q)) | same;
  try rows <- Store.list_transactions_page id filter (limit + 1) (lp_before q) | internal;
  ret (Ok (paginate limit rows)).

Definition get_wallet (id : Uuid) (headers : HeaderMap) : M (result WalletView ApiError) :=
  try _ <- authorize_wallet state headers id | same;
  try w <- Auth.get_wallet id | (fun e => match e with Db.NotFound => NotFound | _ => Internal end);
  ret (Ok (to_view w)).

Definition update_wallet (id : Uuid) (headers : HeaderMap) (body : Payload UpdateWalletRequest) : M (result WalletView ApiError) :=
  try _ <- authorize_wallet_scope state headers id "write" | same;
  try req <- ret (parse_optional (mkUpdateWalletRequest None None) body) | same;
  if bool_decide (uw_label req = None) && bool_decide (uw_description req = None) then
    ret (Err (BadRequest "provide at least one of label, description")) else
  try label <- ret (clean_patch_field "label" (uw_label req) WALLET_LABEL_MAX) | same;
  try description <- ret (clean_patch_field "description" (uw_description req) WALLET_DESCRIPTION_MAX) | same;
  try wallet <- Wallets.update_wallet_details id label description | from_store_error;
  do _ <- match w_user_id wallet with
          | Some uid =>
              let fields := (match label with Some _ => ["label"] | None => [] end) ++ (match description with Some _ => ["description"] | None => [] end) in
              record state uid ("updated wallet details (" +:+ Submit.join_names fields +:+ ")") WALLET (Some (uuid_text (w_id wallet))) headers
          | None => ret tt
          end;
  ret (Ok (to_view wallet)).

(** The handler also passes [include_archived], for which the store's method has no parameter. *)
Definition list_wallets (headers : HeaderMap) (q : ListParams) : M (result (list WalletView * option Uuid) ApiError) :=
  try user_id <- authenticate state headers | same;
  try limit <- ret (validated_limit (lp_limit q)) | same;
  try rows <- part_query (fun _ s => Wallets.list_wallets_for_user_page user_id (limit + 1) (lp_before q) s) | internal;
  let '(wallets, next_cursor) := paginate limit rows in
  ret (Ok (map to_view wallets, next_cursor)).

Definition set_ingest_paused (id : Uuid) (headers : HeaderMap) (paused : bool) : M (result WalletView ApiError) :=
  try user_id <- require_login state headers | same;
  try wallet <- Auth.get_wallet id | from_store_error;
  if negb (bool_decide (w_user_id wallet = Some user_id)) then ret (Err NotFound) else
  try updated <- Wallets.set_ingest_paused id paused | from_store_error;
  do _ <- record state user_id (if paused then "paused deposit ingestion" else "resumed deposit ingestion") WALLET (Some (uuid_text id)) headers;
  ret (Ok (to_view updated)).

Definition pause_ingest (id : Uuid) (headers : HeaderMap) := set_ingest_paused id headers true.
Definition resume_ingest (id : Uuid) (headers : HeaderMap) := set_ingest_paused id headers false.

(** *** Addresses *)

(** A wallet that addresses may be allocated in. *)
Definition open_wallet (wallet_id : Uuid) : M (result Wallet ApiError) :=
  try wallet <- Auth.get_wallet wallet_id | from_store_error;
  ret (if Store.is_archived wallet then Err (Forbidden "wallet is archived") else Ok wallet).

Definition record_addresses (wallet : Wallet) (action : string) (target : option string) (headers : HeaderMap) : M unit :=
  match w_user_id wallet with Some uid => record state uid action ADDRESS target headers | None => ret tt end.

Definition create_address (wallet_id : Uuid) (headers : HeaderMap) (body : Payload CreateAddressRequest) : M (result AddressView ApiError) :=
  try _ <- authorize_wallet_scope state headers wallet_id "write" | same;
  try req <- ret (parse_optional (mkCreateAddressRequest None None) body) | same;
  try customer_ref <- ret (clean_optional "customer_ref" (ca_customer_ref req) CUSTOMER_REF_MAX) | same;
  try wallet <- open_wallet wallet_id | same;
  try address <- Addresses.allocate_address wallet_id (muxed_for (w_stellar_account_g wallet)) customer_ref
                   (default (JObj []) (ca_metadata req)) | from_store_error;
  do _ <- record_addresses wallet "generated a deposit address" (w_label wallet) headers;
  ret (Ok (address_view (w_stellar_account_g wallet) (fun _ => 0) address)).

Definition create_addresses_batch (wallet_id : Uuid) (headers : HeaderMap) (body : Payload (list CreateAddressRequest)) :
    M (result (list AddressView) ApiError) :=
  try _ <- authorize_wallet_scope state headers wallet_id "write" | same;
  try entries <- ret (parse_optional [] body) | same;
  if bool_decide (entries = []) then ret (Err (BadRequest "addresses must contain at least one entry")) else
  if MAX_BATCH_ADDRESSES <? Z.of_nat (length entries) then
    ret (Err (BadRequest ("at most " +:+ print_dec MAX_BATCH_ADDRESSES +:+ " addresses may be allocated per request"))) else
  try items <- ret (clean_batch 0 [] entries) | same;
  try wallet <- open_wallet wallet_id | same;
  try addresses <- Addresses.allocate_addresses wallet_id (muxed_for (w_stellar_account_g wallet)) items | from_store_error;
  do _ <- record_addresses wallet ("generated " +:+ print_dec (Z.of_nat (length addresses)) +:+ " deposit addresses") (Some (uuid_text wallet_id)) headers;
  ret (Ok (map (address_view (w_stellar_account_g wallet) (fun _ => 0)) addresses)).

Definition list_addresses (wallet_id : Uuid) (headers : HeaderMap) (q : AddressListParams) : M (result (list AddressView * option Uuid) ApiError) :=
  try _ <- authorize_wallet state headers wallet_id | same;
  try wallet <- Auth.get_wallet wallet_id | from_store_error;
  try limit <- ret (validated_limit (al_limit q)) | same;
  try customer_ref <- ret (clean_optional "customer_ref" (al_customer_ref q) CUSTOMER_REF_MAX) | same;
  try rows <- match customer_ref with
              | Some r =>
                  try a <- Store.address_by_customer_ref wallet_id r | from_store_error;
                  ret (Ok (match a with Some a => [a] | None => [] end))
              | None => do rows <- Store.list_addresses wallet_id (limit + 1) (al_before q); ret (map_err from_store_error rows)
              end | same;
  let '(items, next_cursor) := paginate limit rows in
  try totals <- Store.sum_deposits_for_addresses (map Store.a_id items) | internal;
  ret (Ok (map (address_view (w_stellar_account_g wallet) (total_of totals)) items, next_cursor)).
End Handlers.

(** ** What a challenge proves *)

Section Ownership.
Context `{hm : AuditChain.Hmac} `{bu : Base64Url} {bl : Base64Laws} `{ut : UuidText} `{sk : Strkey} `{ed : Ed25519}.

Definition no_dot (s : string) : Prop := str_forall (fun d => bool_decide ("."%char <> d)) s = true.

Lemma splitn_five a b c d e :
  no_dot a -> no_dot b -> no_dot c -> no_dot d ->
  splitn 5 "." (a +:+ String "." (b +:+ String "." (c +:+ String "." (d +:+ String "." e)))) = [a; b; c; d; e].
Proof.
  intros Ha Hb Hc Hd. cbn [splitn].
  rewrite (proj2 (split_once_Some "." _ a _)) by done. rewrite (proj2 (split_once_Some "." _ b _)) by done.
  rewrite (proj2 (split_once_Some "." _ c _)) by done. by rewrite (proj2 (split_once_Some "." _ d _)) by done.
Qed.

Lemma challenge_parts secret u ts nonce n :
  0 <= ts -> no_dot nonce ->
  splitn 5 "." (issue_challenge secret u ts nonce (passphrase n)) =
  ["v2"; print_dec ts; nonce; passphrase n; sign_hs256 secret (bytes_of (challenge_hmac_input u ts nonce (passphrase n)))].
Proof.
  intros Ht Hn. unfold issue_challenge. cbv zeta. unfold print_int at 1. rewrite (proj2 (Z.ltb_ge ts 0)) by lia.
  apply (splitn_five "v2"); [done|by apply Amount.digits_no_point, all_digits_print_dec|done|by destruct n].
Qed.

(** C19: a challenge proves ownership to one user, on one network, for ten minutes. A challenge that the
    server issued at [ts] to the user [u] on the network [n] is accepted together with a signature, for a
    key and a user, exactly when it is presented on the same network, not before [ts] and at most 600
    seconds after it, by a user whose MAC of the challenge is the one in it, and the signature is valid
    under that key for the very text of the challenge. *)
Theorem ownership_challenge secret u ts nonce n u' pk n' signature now :
  0 <= ts <= i64_MAX -> 0 <= now <= i64_MAX -> no_dot nonce ->
  let challenge := issue_challenge secret u ts nonce (passphrase n) in
  let mac v := AuditChain.hmac secret (bytes_of (challenge_hmac_input v ts nonce (passphrase n))) in
  verify_ownership_for_network secret u' pk (passphrase n') challenge signature now = Ok tt <->
  n' = n /\ ts <= now <= ts + CHALLENGE_TTL_SECS /\ mac u' = mac u /\
  WalletAddress.verify_account_signature valid_key b64_standard verify_strict pk (bytes_of challenge) signature = Ok tt.
Proof using bl.
  intros Ht Hn Hd challenge mac. unfold verify_ownership_for_network, challenge. rewrite challenge_parts by (done || lia).
  fold challenge. unfold parse_i64. rewrite parse_int_print_dec by (unfold i64_MIN; lia). cbn [ok_or result_bind].
  assert (Hp : passphrase n = passphrase n' <-> n' = n) by (destruct n, n'; naive_solver).
  rewrite (bool_decide_eq_true_2 ("v2" = "v2")) by done. cbn [negb orb]. case_bool_decide as En; cbn [negb orb]; [|naive_solver].
  unfold try_i64, guard_range. rewrite (proj2 (in_range_spec i64_MIN i64_MAX (now - ts))) by (unfold i64_MIN, i64_MAX in *; lia).
  cbn [ok_or result_bind]. destruct (in_range 0 CHALLENGE_TTL_SECS (now - ts)) eqn:Ea; cbn [negb]; cycle 1.
  { split; [done|]. intros (_ & Hr & _). apply not_true_iff_false in Ea. destruct Ea. apply in_range_spec. unfold CHALLENGE_TTL_SECS in *. lia. }
  apply in_range_spec in Ea. unfold verify_hs256, sign_hs256. rewrite b64_roundtrip. case_bool_decide as Em; cbn [negb]; cycle 1.
  { split; [done|]. intros (_ & _ & Hm & _). destruct Em. by symmetry. }
  destruct (WalletAddress.verify_account_signature _ _ _ _ _ _) as [[]|e]; cbn [map_err].
  - split; [|done]. intros _. split_and!; [by apply Hp|unfold CHALLENGE_TTL_SECS in *; lia..|by symmetry|done].
  - split; [done|]. by intros (_ & _ & _ & ?).
Qed.
End Ownership.

(** ** What registering a wallet and reading its backup require *)

Section Gate.
Context `{dg : Digest} `{hm : AuditChain.Hmac} `{bu : Base64Url} `{jj : JwtJson} `{ar : Argon2} `{lc : Lowercase} `{ut : UuidText} `{sl : SqlLower} `{sk : Strkey} `{ed : Ed25519}.
Context {X : Type} `{env : Env X}.
Variable state : AppState.
Variable network : StellarNetwork.
Variable friendbot : option (string -> X -> bool * X).
Notation World := (World Account.Db X).

Lemma nonempty_spec e o s : nonempty e o = Ok s -> o = Some s.
Proof. unfold nonempty, opt_filter. destruct o as [x|]; [|done]. destruct (negb _); [|done]. cbn. congruence. Qed.

(** The statement that the world [w] meets next inserts a row for the account, which no row had before:
    owned by the user, with no seed of the server's; and the row is in the final database of the run,
    [d'], unless another connection took it away. *)
Definition registered (user_id : Uuid) (account : string) (id : Uuid) (w : World) (d' : Account.Db) : Prop :=
  exists wallet, let has (d : Account.Db) := wallet ∈ Store.wallets (Account.d_core d) in
    w_id wallet = id /\ w_stellar_account_g wallet = account /\ w_user_id wallet = Some user_id /\ w_custody wallet = "client" /\
    Store.w_sealed_ciphertext wallet = None /\ Store.w_sealed_nonce wallet = None /\ Store.w_sealed_salt wallet = None /\
    Forall (fun x => w_stellar_account_g x <> account) (Store.wallets (Account.d_core (db (advance w)))) /\
    (others_keep has w -> has d').

Lemma insert_wallet_ok known r s r' s' :
  Wallets.insert_wallet known r s = (Ok r', s') ->
  r' = r /\ r ∈ Store.wallets s' /\ Forall (fun x => w_stellar_account_g x <> w_stellar_account_g r) (Store.wallets s).
Proof.
  unfold Wallets.insert_wallet. destruct (negb _ || _); [done|]. destruct (existsb _ _) eqn:Ee; [done|]. intros [= <- <-]. split_and!.
  - done.
  - apply elem_of_app. right. by apply list_elem_of_singleton.
  - apply Forall_forall. intros x Hx Exa. apply not_true_iff_false in Ee. destruct Ee. apply existsb_exists. exists x.
    split; [by apply list_elem_of_In|by apply bool_decide_eq_true].
Qed.

(** The insertion, with what it leaves to whatever [m] comes after it and keeps the row. *)
Lemma create_client_wallet_registered {A} new user wallet (m : M Account.Db X A) (w w1 : World) :
  Wallets.nc_user_id new = Some user -> create_client_wallet new w = (Ret (Ok wallet), w1) ->
  maintains (fun d => wallet ∈ Store.wallets (Account.d_core d)) m ->
  registered user (Wallets.nc_stellar_account_g new) (w_id wallet) w (db (snd (m w1))) /\
  w_stellar_account_g wallet = Wallets.nc_stellar_account_g new.
Proof.
  intros Hu Hm Hk. unfold create_client_wallet in Hm. apply bind_returns in Hm as ([x|] & w2 & E1 & [= -> <-]).
  apply call_at in E1 as [E1 ->]. match goal with |- context [performed ?f w] => set (stmt := f) in * end.
  assert (Hin : wallet ∈ Store.wallets (Account.d_core (db (performed stmt w)))).
  { unfold performed. cbn [db]. revert E1. unfold stmt, on_part, Wallets.create_client_wallet_stmt.
    destruct (Wallets.insert_wallet _ _ _) as [r s] eqn:Ei. cbn. intros ->. by apply insert_wallet_ok in Ei as (-> & ? & _). }
  unfold stmt, on_part, Wallets.create_client_wallet_stmt in E1. destruct (Wallets.insert_wallet _ _ _) as [r s] eqn:Ei.
  cbn in E1. subst r. apply insert_wallet_ok in Ei as (Ew & _ & Hnew). split; [|by rewrite Ew].
  exists wallet. cbv zeta. split_and!; [done|by rewrite Ew..|done|]. intros Ho. by apply (others_keep_after (fun d => wallet ∈ Store.wallets (Account.d_core d)) stmt m).
Qed.

Lemma record_keeps_wallets P u a c t headers :
  (forall d s, P d -> P (Account.set_audit d s)) -> maintains (S := Account.Db) P (record (X := X) state u a c t headers).
Proof.
  intros HP. unfold record, record_audit, flatten. repeat first [apply maintains_bind; [|intros ?] | apply maintains_ret | apply maintains_ext | case_match].
  apply maintains_call. intros now s Hs. unfold Account.on_audit. destruct (AuditChain.record_audit_tx _ _ _ _ _ _ _ _ _). by apply HP.
Qed.

(** C18: nobody registers a key that they do not hold. Whatever other requests and failures come between,
    when the handler answers that a wallet was created, the request was authenticated when it arrived, it
    carried a challenge and a signature that the check accepted for that user, on this server's network,
    for exactly the account of the answer and at the time the server read right after the
    authentication; and the statement after that inserted a row for this account, which no row of the
    database had, owned by that user and without any seed of the server's, which is in the database when
    the handler ends unless another connection took it away. *)
Theorem registration_gate headers body (w w' : World) resp :
  create_wallet state network friendbot headers body w = (Ret (Ok resp), w') ->
  exists req user_id challenge signature now w1 w2,
    body = Json req /\ cw_public_key req = Some (cwr_address resp) /\ cw_challenge req = Some challenge /\ cw_signature req = Some signature /\
    authenticate state headers w = (Ret (Ok user_id), w1) /\ now_secs w1 = (Ret now, w2) /\
    verify_ownership_for_network (jwt_secret state) user_id (cwr_address resp) (passphrase network) challenge signature now = Ok tt /\
    registered user_id (cwr_address resp) (cwr_id resp) w2 (db w').
Proof.
  intros Hm. unfold create_wallet in Hm. apply try_returns in Hm as (user_id & w1 & E1 & Hm).
  apply try_ret_returns in Hm as (req & Ereq & Hm). apply try_ret_returns in Hm as (label & _ & Hm).
  apply try_ret_returns in Hm as (description & _ & Hm). apply try_ret_returns in Hm as (pk & Epk & Hm).
  destruct (negb (is_valid_account pk)); [done|]. apply try_ret_returns in Hm as (challenge & Ec & Hm).
  apply try_ret_returns in Hm as (signature & Es & Hm). apply try_returns in Hm as ([] & w2 & E2 & Hm).
  apply try_returns in Hm as (wallet & w3 & E3 & Hm).
  unfold verify_ownership in E2. apply bind_returns in E2 as (now & w6 & En & [= E2 <-]).
  match type of Hm with ?k w3 = _ => eapply (create_client_wallet_registered _ user_id _ k) in E3 as [Hr Ea]; [|done|] end; cycle 1.
  { apply maintains_bind; [by apply record_keeps_wallets|intros _]. apply maintains_bind; [|intros ?; apply maintains_ret].
    unfold fund. case_match; [apply maintains_ext|apply maintains_ret]. }
  rewrite Hm in Hr. cbn [snd Wallets.nc_stellar_account_g] in Hr, Ea.
  apply bind_returns in Hm as (t & w4 & _ & Hm). apply bind_returns in Hm as (funded & w5 & _ & [= <- _]).
  cbn [cwr_address cwr_id]. rewrite Ea. apply nonempty_spec in Ec, Es, Epk.
  exists req, user_id, challenge, signature, now, w1, w6. split_and!; try done.
  destruct body; cbn in Ereq; [|congruence|done]. by injection Ereq as <-.
Qed.

(** A backup leaves the server only to the signed-in owner of its wallet, after the entry in the
    owner's audit log was committed. *)
Lemma backup_gate id headers (w w' : World) view :
  get_backup state id headers w = (Ret (Ok view), w') ->
  exists user_id wallet created_at now s, (exists w1 w2 : World, require_login state headers w1 = (Ret (Ok user_id), w2)) /\
    w_user_id wallet = Some user_id /\ w_id wallet = id /\ view = mkBackupView id (w_encrypted_backup wallet) /\
    fst (AuditChain.record_audit_tx (audit_chain_key state) user_id BACKUP_RETRIEVED WALLET (Some (uuid_text id)) (client_ip headers) created_at now s) = Ok (Ok tt).
Proof.
  intros Hm. unfold get_backup in Hm. apply try_returns in Hm as (user_id & w1 & E1 & Hm). apply try_returns in Hm as (t & w2 & _ & Hm).
  apply try_returns in Hm as (wallet & w3 & E3 & Hm). case_bool_decide as Eo; [|done]. cbn [negb] in Hm.
  apply try_returns in Hm as ([] & w4 & E4 & [= <- _]). apply Withdraw.get_wallet_row in E3. subst id.
  unfold record_strict, record_audit in E4. apply bind_returns in E4 as ([[]|] & w5 & E4 & [= _]).
  apply bind_returns in E4 as (created_at & w6 & _ & E4). unfold flatten in E4. apply bind_returns in E4 as (r & w7 & E4 & E5).
  apply bind_returns in E4 as (q & w8 & E4 & E6). destruct q as [q|]; [|injection E6 as <- _; done]. injection E6 as <- _. cbn in E5.
  injection E5 as -> _. apply call_returns in E4 as (now & d & E4). unfold Account.on_audit in E4.
  destruct (AuditChain.record_audit_tx _ _ _ _ _ _ _ _ _) as [r s] eqn:Er. injection E4 as -> _.
  exists user_id, wallet, created_at, now, (Account.audit_view d). rewrite Er. split_and!; try done. by exists w, w1.
Qed.
End Gate.

(** ** A registration *)

#[local] Existing Instances AuditLog.checksum Users.dec_uuid Users.ascii_lower Token.Sample.digest Token.Sample.base64 Token.Sample.base64_laws Token.Sample.json
  Auth.Sample.env Auth.Sample.argon2 Auth.Sample.lowercase WalletAddress.Toy.toy_strkey.
#[local] Instance demo_ed25519 : Ed25519 := {|
  valid_key _ := true;
  b64_standard s := if bool_decide (s = "sig") then Some (repeat 7 64) else None;
  verify_strict _ _ sig := bool_decide (sig = repeat 7 64)
|}.

Definition demo_account : string := Submit.account_of Submit.other_key.
Definition demo_challenge : string := issue_challenge Token.Sample.secret 2 0 "n1" (passphrase Signer.Testnet).

Lemma ownership_challenge_witness :
  verify_ownership_for_network Token.Sample.secret 2 demo_account (passphrase Signer.Testnet) demo_challenge "sig" 600 = Ok tt /\
  verify_ownership_for_network Token.Sample.secret 2 demo_account (passphrase Signer.Testnet) demo_challenge "sig" 601 <> Ok tt /\
  verify_ownership_for_network Token.Sample.secret 2 demo_account (passphrase Signer.Public) demo_challenge "sig" 600 <> Ok tt.
Proof.
  assert (H0 : 0 <= 0 <= i64_MAX) by (split; discriminate). assert (Hd : no_dot "n1") by reflexivity.
  assert (Hn : forall t, 0 <= t <= 601 -> 0 <= t <= i64_MAX) by (unfold i64_MAX; lia).
  split; [|split].
  - apply (ownership_challenge Token.Sample.secret 2 0 "n1" Signer.Testnet 2 demo_account Signer.Testnet "sig" 600 H0 (Hn 600 ltac:(lia)) Hd).
    split; [reflexivity|]. split; [unfold CHALLENGE_TTL_SECS; lia|]. split; [reflexivity|vm_compute; reflexivity].
  - intros E. apply (ownership_challenge Token.Sample.secret 2 0 "n1" Signer.Testnet 2 demo_account Signer.Testnet "sig" 601 H0 (Hn 601 ltac:(lia)) Hd) in E.
    destruct E as (_ & Ht & _). unfold CHALLENGE_TTL_SECS in Ht. lia.
  - intros E. apply (ownership_challenge Token.Sample.secret 2 0 "n1" Signer.Testnet 2 demo_account Signer.Public "sig" 600 H0 (Hn 600 ltac:(lia)) Hd) in E.
    destruct E as (En & _). discriminate En.
Defined.

Definition demo_request : CreateWalletRequest :=
  mkCreateWalletRequest (Some demo_account) (Some "blob") (Some " Shop ") None (Some demo_challenge) (Some "sig").

Notation demo_register := (create_wallet Auth.Sample.app Signer.Testnet None (Auth.Sample.header (AuthSafe.demo_token 5)) (Json demo_request) AuthSafe.demo_world).

Lemma registration_gate_witness :
  exists resp w' user_id, demo_register = (Ret (Ok resp), w') /\ cwr_address resp = demo_account /\
    exists wallet, wallet ∈ Store.wallets (Account.d_core (db w')) /\ w_id wallet = cwr_id resp /\
      w_user_id wallet = Some user_id /\ w_stellar_account_g wallet = demo_account.
Proof.
  assert (E : match demo_register with (Ret (Ok resp), w1) => bool_decide (cwr_address resp = demo_account) | _ => false end = true)
    by (vm_compute; reflexivity).
  destruct demo_register as [[[resp|]|] w'] eqn:Em; try discriminate E. apply bool_decide_eq_true in E.
  destruct (registration_gate Auth.Sample.app Signer.Testnet None (Auth.Sample.header (AuthSafe.demo_token 5)) (Json demo_request)
    AuthSafe.demo_world w' resp Em) as (req & user & c & sig & now & w1 & w2 & _ & _ & _ & _ & Hauth & Hnow & _ & wallet & Hid & Hacc & Hu & _ & _ & _ & _ & _ & Hin).
  exists resp, w', user. split; [reflexivity|]. split; [exact E|]. exists wallet.
  assert (Ht : ticks w2 = []).
  { assert (E1 : ticks (snd (authenticate Auth.Sample.app (Auth.Sample.header (AuthSafe.demo_token 5)) AuthSafe.demo_world)) = []) by (vm_compute; reflexivity).
    rewrite Hauth in E1. unfold now_secs in Hnow. apply bind_returns in Hnow as (t & w3 & (_ & _ & Et)%ext_at & [= _ <-]). rewrite Et. exact E1. }
  split; [apply Hin; unfold others_keep; rewrite Ht; constructor|]. split; [exact Hid|]. split; [exact Hu|]. rewrite <- E. exact Hacc.
Defined.
End WalletRoutes.
