(* ===== verification/ConfigRoutes.v ===== *)
(** * Configuring a wallet: the handlers

    [crates/api/src/routes/whitelist.rs] (the withdrawal allowlist), [routes/sponsorship.rs] (gas
    sponsorship), [routes/webhooks.rs] (endpoints and owner-triggered sends), [routes/trustlines.rs],
    [routes/uploads.rs] and [routes/audit.rs], with [list_audit_logs] of
    [crates/store/src/audit_logs.rs].

    [list_webhooks] calls [wallet_webhook_delivery_health], which the store does not have: what it
    answers is a parameter of the handler. *)

From S2P Require Import Prelude Float64 Resilience Db Paging WalletAddress Store Sponsorship Idempotency Amount Otp AuditChain AuditLog Users WebhookStore Account Wallets HorizonIngest ApiHorizon Fees Crypto Signer Submit Net Email Token Auth AuthSafe Webhooks RouteCommon AmountText Withdraw WalletRoutes.

Module ConfigRoutes.
Import Db Paging.
Import Store (Uuid, Wallet, w_stellar_account_g, w_user_id).
Import WalletAddress (Strkey, to_base_account, WalletError(..)).
Import Signer (StellarNetwork, passphrase).
Import Users (SqlLower, UuidText, uuid_text).
Import ApiHorizon (ApiError(..), Outside, Horizon, from_store_error).
Import Email (Digest, sha256, hex_encode).
Import Net (UrlParser, url_host).
Import Submit (ALLOWED_OP_TYPES, join_names, normalize_wallet_allowlist).
Import WebhookStore (WebhookEndpoint, WebhookDelivery, we_id, we_wallet_id, we_url, we_secret, we_active, we_deleted_at,
  we_auto_disabled_at, wd_event_type).
Import Float64 Token Auth.
Local Open Scope db_scope.

#[local] Existing Instances Account.core_part Account.policies_part Account.hooks_part.

(** ** [audit.rs]: categories *)

Definition WALLET : string := "wallet".
Definition ADDRESS : string := "address".
Definition WEBHOOK : string := "configuration".
Definition SPONSORSHIP : string := "sponsorship".
Definition categories : list string := [AUTH; WALLET; ADDRESS; CREDENTIALS; WEBHOOK; SPONSORSHIP].

(** ** Requests and views *)

Record AllowlistConfigView := mkAllowlistConfigView { ac_enabled : bool }.
Record AllowlistConfigRequest := mkAllowlistConfigRequest { ar_enabled : option bool }.

Record WhitelistedAddressView := mkWhitelistedAddressView {
  wv_id : Uuid;
  wv_address : string;
  wv_label : option string;
  wv_created_at : Z
}.

Definition whitelisted_view (w : Sponsorship.WhitelistedAddress) : WhitelistedAddressView :=
  mkWhitelistedAddressView (Sponsorship.wl_id w) (Sponsorship.wl_address w) (Sponsorship.wl_label w) (Sponsorship.wl_created_at w).

Record AddWhitelistedAddressRequest := mkAddWhitelistedAddressRequest { aw_address : option string; aw_label : option string }.

Record SponsorshipConfigRequest := mkSponsorshipConfigRequest {
  sr_enabled : option bool;
  sr_per_tx_fee_cap_stroops : option Z;
  sr_daily_budget_stroops : option Z;
  sr_allowed_operations : option (option (list string))
}.

Record SponsorshipConfigView := mkSponsorshipConfigView {
  sv_enabled : bool;
  sv_per_tx_fee_cap_stroops : option Z;
  sv_daily_budget_stroops : option Z;
  sv_fees_spent_today_stroops : Z;
  sv_spent_today_stroops : Z;
  sv_allowed_operations : option (list string);
  sv_effective_allowed_operations : list string
}.

Definition effective_allowlist (wallet_list : option (list string)) : list string := default ALLOWED_OP_TYPES wallet_list.

Definition sponsorship_view (spent_today : Z) (config : option Sponsorship.GasSponsorshipConfig) : SponsorshipConfigView :=
  match config with
  | Some c =>
      mkSponsorshipConfigView (Sponsorship.g_enabled c) (Sponsorship.g_per_tx_fee_cap_stroops c) (Sponsorship.g_daily_budget_stroops c)
        spent_today spent_today (Sponsorship.g_allowed_operations c) (effective_allowlist (Sponsorship.g_allowed_operations c))
  | None => mkSponsorshipConfigView false None None spent_today spent_today None (effective_allowlist None)
  end.

(** The checks of [put_config], before anything is written. *)
Definition checked_limits (cap budget : option Z) : result unit ApiError :=
  if match cap with Some c => c <? 0 | None => false end then Err (BadRequest "per_tx_fee_cap_stroops must be >= 0") else
  if match budget with Some b => b <? 0 | None => false end then Err (BadRequest "daily_budget_stroops must be >= 0") else
  match cap, budget with
  | Some c, Some b =>
      if b <? c then
        Err (BadRequest ("per_tx_fee_cap_stroops (" +:+ print_int c +:+ ") must not exceed daily_budget_stroops (" +:+ print_int b
                         +:+ "); lower the per-transaction cap or raise the daily budget"))
      else Ok tt
  | _, _ => Ok tt
  end.

(** [map(|list| list.map(normalize).transpose()).transpose()] *)
Definition checked_operations (req : option (option (list string))) : result (option (option (list string))) ApiError :=
  match req with
  | Some (Some ops) => let? l := normalize_wallet_allowlist ops in Ok (Some (Some l))
  | Some None => Ok (Some None)
  | None => Ok None
  end.

Record TrustlineRequest := mkTrustlineRequest {
  tr_asset_code : option string;
  tr_asset_issuer : option string;
  tr_limit_stroops : option Z
}.

Record TrustlineSigningInfo := mkTrustlineSigningInfo {
  ti_account : string;
  ti_sequence : Z;
  ti_network_passphrase : string;
  ti_base_fee_stroops : Z;
  ti_max_time : Z;
  ti_asset_code : string;
  ti_asset_issuer : string;
  ti_limit_stroops : Z;
  ti_submit_url : string
}.

Record CloudinaryConfig := mkCloudinaryConfig { cl_cloud_name : string; cl_api_key : string; cl_api_secret : string }.

Record UploadSignature := mkUploadSignature {
  us_cloud_name : string;
  us_api_key : string;
  us_timestamp : Z;
  us_folder : string;
  us_signature : string
}.

Definition UPLOAD_FOLDER : string := "octo/payment-links".

Definition cloudinary_signature `{Digest} (folder : string) (timestamp : Z) (api_secret : string) : string :=
  hex_encode (sha256 (bytes_of ("folder=" +:+ folder +:+ "&timestamp=" +:+ print_int timestamp +:+ api_secret))).

Record AuditQuery := mkAuditQuery { aq_category : option string; aq_search : option string }.

Record CreateWebhookRequest := mkCreateWebhookRequest { ch_url : option string; ch_secret : option string }.

Record WebhookView := mkWebhookView {
  hv_id : Uuid;
  hv_url : string;
  hv_secret : string;
  hv_active : bool;
  hv_recent_failure_count : Z;
  hv_last_successful_delivery_at : option Z;
  hv_auto_disabled_at : option Z
}.

Definition webhook_view (failures : Z) (last_ : option Z) (ep : WebhookEndpoint) : WebhookView :=
  mkWebhookView (we_id ep) (we_url ep) (we_secret ep) (we_active ep) failures last_ (we_auto_disabled_at ep).

Record DeliveriesQuery := mkDeliveriesQuery { dq_limit : option Z; dq_status : option string }.
Definition DELIVERY_STATUSES : list string := ["pending"; "delivered"; "failed"; "dead"].

Record DeliveryResultView := mkDeliveryResultView {
  rv_delivery_id : option Uuid;
  rv_status : string;
  rv_delivered : bool;
  rv_attempts : Z;
  rv_response_code : option Z
}.

Definition delivery_result_view (r : Webhooks.DeliveryResult) : DeliveryResultView :=
  mkDeliveryResultView (Webhooks.delivery_id r) (Webhooks.r_status r) (Webhooks.is_delivered r) (Webhooks.r_attempts r)
    (Webhooks.r_response_code r).

Definition WEBHOOK_TEST_LIMIT : Z := 5.
Definition WEBHOOK_TEST_WINDOW : Z := 60.
Definition WEBHOOK_REDELIVER_LIMIT : Z := 10.
Definition WEBHOOK_REDELIVER_WINDOW : Z := 60.

Definition targets_host `{UrlParser} (url expected_host : string) : bool :=
  match url_host url with
  | Some (Some host) => eq_ignore_ascii_case host expected_host
  | _ => false
  end.

(** [ILIKE] of the database: the text, the pattern. *)
Class Ilike := { ilike : string -> string -> bool }.

Section Handlers.
Context `{Digest} `{AuditChain.Hmac} `{Base64Url} `{JwtJson} `{Argon2} `{Lowercase} `{UuidText} `{SqlLower} `{Strkey} `{UrlParser} `{Webhooks.JsonBytes} `{Ilike}.
Context {X : Type} `{Env X} `{Submit.Wire X} `{Webhooks.Wire X}.
Variable state : AppState.
(** What else of [AppState] the handlers read. *)
Variable network : StellarNetwork.
Variable policy : Fees.SigningPolicy.
Variable out : Outside.
Variable cloudinary : option CloudinaryConfig.
Variable public_api_host : option string.
Variable powi : f64 -> Z -> f64.
Variable allow_local : bool.
Variable sender : Webhooks.WebhookSender.
Notation M := (M Account.Db X).

(** ** The withdrawal allowlist *)

Definition owned_wallet (headers : HeaderMap) (wallet_id : Uuid) : M (result Wallet ApiError) :=
  try user_id <- require_login state headers | same;
  try wallet <- Auth.get_wallet wallet_id | from_store_error;
  ret (if negb (bool_decide (w_user_id wallet = Some user_id)) then Err NotFound else Ok wallet).

Definition get_allowlist_config (wallet_id : Uuid) (headers : HeaderMap) : M (result AllowlistConfigView ApiError) :=
  try _ <- owned_wallet headers wallet_id | same;
  try config <- Sponsorship.get_withdrawal_allowlist_config wallet_id | internal;
  ret (Ok (mkAllowlistConfigView match config with Some c => Sponsorship.al_enabled c | None => false end)).

Definition put_allowlist_config (wallet_id : Uuid) (headers : HeaderMap) (body : Payload AllowlistConfigRequest) :
    M (result AllowlistConfigView ApiError) :=
  try _ <- owned_wallet headers wallet_id | same;
  try req <- ret (parse_optional (mkAllowlistConfigRequest None) body) | same;
  if bool_decide (ar_enabled req = None) then ret (Err (BadRequest "at least one field must be provided")) else
  let enabled := default false (ar_enabled req) in
  try _ <- (if enabled : bool then
              try entries <- Sponsorship.list_whitelisted_addresses wallet_id | internal;
              ret (if bool_decide (entries = [])
                   then Err (BadRequest "add at least one address before enabling the withdrawal allowlist") else Ok tt)
            else ret (Ok tt)) | same;
  try _ <- Sponsorship.upsert_withdrawal_allowlist_config wallet_id enabled | internal;
  ret (Ok (mkAllowlistConfigView enabled)).

Definition list_addresses (wallet_id : Uuid) (headers : HeaderMap) : M (result (list WhitelistedAddressView) ApiError) :=
  try _ <- owned_wallet headers wallet_id | same;
  try rows <- Sponsorship.list_whitelisted_addresses wallet_id | internal;
  ret (Ok (map whitelisted_view rows)).

Definition add_address (wallet_id : Uuid) (headers : HeaderMap) (body : Payload AddWhitelistedAddressRequest) :
    M (result WhitelistedAddressView ApiError) :=
  try _ <- owned_wallet headers wallet_id | same;
  try req <- ret (parse_optional (mkAddWhitelistedAddressRequest None None) body) | same;
  try raw_address <- ret (WalletRoutes.nonempty "address is required" (aw_address req)) | same;
  try base_address <- ret (to_base_account raw_address) | (fun _ => BadRequest "address must be a valid G... or M... address");
  try row <- Sponsorship.add_whitelisted_address wallet_id base_address (aw_label req) | from_store_error;
  ret (Ok (whitelisted_view row)).

Definition remove_address (wallet_id entry_id : Uuid) (headers : HeaderMap) : M (result unit ApiError) :=
  try _ <- owned_wallet headers wallet_id | same;
  try _ <- Sponsorship.remove_whitelisted_address wallet_id entry_id | from_store_error;
  ret (Ok tt).

(** ** Gas sponsorship *)

Definition get_sponsorship_config (wallet_id : Uuid) (headers : HeaderMap) : M (result SponsorshipConfigView ApiError) :=
  try _ <- authorize_wallet state headers wallet_id | same;
  try config <- Sponsorship.get_gas_sponsorship_config wallet_id | from_store_error;
  try spent_today <- Sponsorship.sum_sponsored_fees_today wallet_id | internal;
  ret (Ok (sponsorship_view spent_today config)).

Definition is_None {A} (o : option A) : bool := match o with None => true | Some _ => false end.

Definition put_sponsorship_config (wallet_id : Uuid) (headers : HeaderMap) (body : Payload SponsorshipConfigRequest) :
    M (result SponsorshipConfigView ApiError) :=
  try _ <- authorize_wallet_scope state headers wallet_id "sponsor" | same;
  try wallet <- Auth.get_wallet wallet_id | from_store_error;
  if Store.is_archived wallet then ret (Err (Forbidden "wallet is archived")) else
  try req <- ret (parse_optional (mkSponsorshipConfigRequest None None None None) body) | same;
  if is_None (sr_enabled req) && is_None (sr_per_tx_fee_cap_stroops req) && is_None (sr_daily_budget_stroops req)
     && is_None (sr_allowed_operations req)
  then ret (Err (BadRequest "at least one field must be provided")) else
  let enabled := default false (sr_enabled req) in
  try _ <- ret (checked_limits (sr_per_tx_fee_cap_stroops req) (sr_daily_budget_stroops req)) | same;
  try allowed_operations <- ret (checked_operations (sr_allowed_operations req)) | same;
  try config <- Sponsorship.upsert_gas_sponsorship_config wallet_id enabled (sr_per_tx_fee_cap_stroops req)
                  (sr_daily_budget_stroops req) allowed_operations | from_store_error;
  try spent_today <- Sponsorship.sum_sponsored_fees_today wallet_id | internal;
  try wallet <- Auth.get_wallet wallet_id | from_store_error;
  do _ <- match w_user_id wallet with
          | Some uid =>
              let ops := match Sponsorship.g_allowed_operations config with Some l => join_names l | None => "global" end in
              record state uid ("updated sponsorship config (enabled: " +:+ (if enabled then "true" else "false") +:+ ", operations: " +:+ ops +:+ ")")
                SPONSORSHIP (Some (uuid_text wallet_id)) headers
          | None => ret tt
          end;
  ret (Ok (sponsorship_view spent_today (Some config))).

(** ** Trustlines *)

Definition trustline_refused (e : WalletError) : ApiError :=
  BadRequest match e with
             | InvalidAssetCode => "asset_code must be 1-12 bytes"
             | InvalidAddress => "asset_issuer must be a valid G... account"
             | _ => "limit_stroops must be >= 0"
             end.

Definition add_trustline (wallet_id : Uuid) (headers : HeaderMap) (body : Payload TrustlineRequest) : M (result TrustlineSigningInfo ApiError) :=
  try _ <- authorize_wallet_scope state headers wallet_id "write" | same;
  try req <- ret (parse_optional (mkTrustlineRequest None None None) body) | same;
  try asset_code <- ret (ok_or (tr_asset_code req) (BadRequest "asset_code is required")) | same;
  try asset_issuer <- ret (ok_or (tr_asset_issuer req) (BadRequest "asset_issuer is required")) | same;
  try _ <- ret (Signer.validate_change_trust asset_code asset_issuer (tr_limit_stroops req)) | trustline_refused;
  try wallet <- Auth.get_wallet wallet_id | from_store_error;
  if bool_decide (asset_issuer = w_stellar_account_g wallet) then
    ret (Err (BadRequest "a wallet cannot add a trustline to an asset it issues")) else
  try sequence <- Withdraw.horizon_call (ApiHorizon.account_sequence out (w_stellar_account_g wallet)) | Withdraw.unfunded;
  try base_fee_stroops <- Withdraw.horizon_call (fun h => let '(fee, h') := Fees.selected_signing_fee out policy h in (Some (Ok fee), h')) | same;
  do now <- now_secs;
  ret (Ok (mkTrustlineSigningInfo (w_stellar_account_g wallet) sequence (passphrase network) base_fee_stroops (Fees.max_time policy now)
             asset_code asset_issuer (default i64_MAX (tr_limit_stroops req)) ("/v1/wallets/" +:+ uuid_text wallet_id +:+ "/submit-signed"))).

(** ** Uploads *)

Definition upload_signature (headers : HeaderMap) : M (result UploadSignature ApiError) :=
  try _ <- authenticate state headers | same;
  try cfg <- ret (ok_or cloudinary (BadRequest "image uploads are not configured on this server (set CLOUDINARY_CLOUD_NAME, CLOUDINARY_API_KEY and CLOUDINARY_API_SECRET)")) | same;
  do timestamp <- now_secs;
  ret (Ok (mkUploadSignature (cl_cloud_name cfg) (cl_api_key cfg) timestamp UPLOAD_FOLDER
             (cloudinary_signature UPLOAD_FOLDER timestamp (cl_api_secret cfg)))).

(** ** The audit log *)

Definition audit_matches (user_id : Uuid) (category search : option string) (r : AuditChain.AuditRow) : bool :=
  bool_decide (AuditChain.a_user_id r = user_id)
  && match category with None => true | Some c => bool_decide (AuditChain.a_category r = c) end
  && match search with
     | None => true
     | Some s => let p := "%" +:+ s +:+ "%" in ilike (AuditChain.a_action r) p || ilike (default "" (AuditChain.a_target r)) p
     end.

Definition store_list_audit_logs (user_id : Uuid) (category search : option string) (limit : Z) : M (result (list AuditChain.AuditRow) StoreError) :=
  do r <- query (fun _ d => sql_limit limit (sort_by (fun a b => AuditChain.a_created_at b <=? AuditChain.a_created_at a)
                              (List.filter (audit_matches user_id category search) (AuditChain.audit_logs (Account.d_audit d)))));
  ret (map_err from_sqlx r).

Definition audit_category (category : option string) : result (option string) ApiError :=
  match opt_filter (fun c => negb (is_empty c) && negb (bool_decide (c = "all"))) category with
  | None => Ok None
  | Some cat =>
      if bool_decide (cat ∈ categories) then Ok (Some cat)
      else Err (BadRequest ("invalid category filter '" +:+ cat +:+ "'; valid categories are: " +:+ join_names categories))
  end.

Definition list_audit_logs (headers : HeaderMap) (q : AuditQuery) : M (result (list AuditChain.AuditRow) ApiError) :=
  try user_id <- authenticate state headers | same;
  try category <- ret (audit_category (aq_category q)) | same;
  let search := opt_filter (fun s => negb (is_empty s)) (aq_search q) in
  try rows <- store_list_audit_logs user_id category search 200 | internal;
  ret (Ok rows).

(** ** Webhooks *)

Definition generate_secret : M string :=
  do a <- ext_call new_v4;
  do b <- ext_call new_v4;
  ret (WalletRoutes.simple_text a +:+ WalletRoutes.simple_text b).

Definition create_webhook_endpoint (wallet_id : Uuid) (url secret : string) : M (result WebhookEndpoint StoreError) :=
  do r <- part_call (WebhookStore.create_webhook_endpoint_stmt wallet_id url secret);
  ret (map_err from_sqlx_conflict r).

Definition get_webhook_endpoint (id : Uuid) : M (result WebhookEndpoint StoreError) :=
  try r <- part_query (fun _ s => WebhookStore.get_webhook_endpoint id s) | from_sqlx; ret r.

(** The configured host is refused; without one every host passes. *)
Definition is_own_host (url : string) : bool := match public_api_host with Some h => targets_host url h | None => false end.

Definition create_webhook (wallet_id : Uuid) (headers : HeaderMap) (body : Payload CreateWebhookRequest) : M (result WebhookView ApiError) :=
  try _ <- authorize_wallet_scope state headers wallet_id "write" | same;
  try req <- ret (parse_optional (mkCreateWebhookRequest None None) body) | same;
  try url <- ret (WalletRoutes.nonempty "url is required" (ch_url req)) | same;
  if negb (Net.is_safe_url allow_local url) then ret (Err (BadRequest "url must be a public http(s) endpoint")) else
  if is_own_host url then ret (Err (BadRequest "url must not point to this API's public host")) else
  try _ <- Auth.get_wallet wallet_id | from_store_error;
  do secret <- match ch_secret req with Some s => ret s | None => generate_secret end;
  try ep <- create_webhook_endpoint wallet_id url secret | from_store_error;
  ret (Ok (webhook_view 0 None ep)).

Definition owned_endpoint (wallet_id endpoint_id : Uuid) : M (result WebhookEndpoint ApiError) :=
  try endpoint <- get_webhook_endpoint endpoint_id | from_store_error;
  ret (if negb (bool_decide (we_wallet_id endpoint = wallet_id)) || negb (is_None (we_deleted_at endpoint)) then Err NotFound else Ok endpoint).

Definition check_send_rate_limit (endpoint_id : Uuid) (class : string) (limit window : Z) : M (result unit ApiError) :=
  rate_limited (uuid_text endpoint_id) class limit window "too many requests — slow down and try again shortly".

Definition audit_send (wallet_id : Uuid) (action : string) (target : Uuid) (headers : HeaderMap) : M unit :=
  do wallet <- Auth.get_wallet wallet_id;
  match wallet with
  | Ok w => match w_user_id w with Some uid => record state uid action WEBHOOK (Some (uuid_text target)) headers | None => ret tt end
  | Err _ => ret tt
  end.

Definition test_webhook (wallet_id endpoint_id : Uuid) (headers : HeaderMap) : M (result DeliveryResultView ApiError) :=
  try _ <- authorize_wallet state headers wallet_id | same;
  try endpoint <- owned_endpoint wallet_id endpoint_id | same;
  try _ <- check_send_rate_limit endpoint_id "webhook_test" WEBHOOK_TEST_LIMIT WEBHOOK_TEST_WINDOW | same;
  do result <- Webhooks.send_ping powi allow_local sender endpoint;
  do _ <- audit_send wallet_id "sent a webhook test ping" endpoint_id headers;
  ret (Ok (delivery_result_view result)).

Definition redeliver_webhook (wallet_id endpoint_id delivery_id : Uuid) (headers : HeaderMap) : M (result DeliveryResultView ApiError) :=
  try _ <- authorize_wallet state headers wallet_id | same;
  try endpoint <- owned_endpoint wallet_id endpoint_id | same;
  try original <- (try r <- part_query (fun _ s => WebhookStore.get_webhook_delivery endpoint_id delivery_id s) | from_sqlx; ret r) | from_store_error;
  if negb (we_active endpoint) then ret (Err (ConflictWith "endpoint is inactive; fix the receiver and send a test ping first")) else
  if bool_decide (wd_event_type original = Webhooks.PING_EVENT) then ret (Err (BadRequest "test pings cannot be redelivered")) else
  try _ <- check_send_rate_limit endpoint_id "webhook_redeliver" WEBHOOK_REDELIVER_LIMIT WEBHOOK_REDELIVER_WINDOW | same;
  do result <- Webhooks.redeliver powi allow_local sender endpoint original;
  do _ <- audit_send wallet_id "redelivered a webhook event" delivery_id headers;
  ret (Ok (delivery_result_view result)).

Definition delete_webhook (wallet_id endpoint_id : Uuid) (headers : HeaderMap) : M (result (Uuid * bool) ApiError) :=
  try _ <- authorize_wallet_scope state headers wallet_id "write" | same;
  try endpoint <- get_webhook_endpoint endpoint_id | from_store_error;
  if negb (bool_decide (we_wallet_id endpoint = wallet_id)) then ret (Err NotFound) else
  try _ <- part_call (WebhookStore.delete_webhook_stmt endpoint_id) | (fun e => from_store_error (from_sqlx e));
  ret (Ok (endpoint_id, false)).

(** The failures and the last success of an endpoint; zero and none for one that is not in the map. *)
Definition list_webhooks (wallet_webhook_delivery_health : Uuid -> M (result (gmap Uuid (Z * option Z)) StoreError))
    (wallet_id : Uuid) (headers : HeaderMap) : M (result (list WebhookView) ApiError) :=
  try _ <- authorize_wallet state headers wallet_id | same;
  try _ <- Auth.get_wallet wallet_id | from_store_error;
  try eps <- part_query (fun _ s => WebhookStore.active_webhook_endpoints wallet_id s) | (fun e => from_store_error (from_sqlx e));
  try health_map <- wallet_webhook_delivery_health wallet_id | internal;
  ret (Ok (map (fun ep => let health := default (0, None) (health_map !! we_id ep) in webhook_view (fst health) (snd health) ep) eps)).

Definition list_deliveries (wallet_id endpoint_id : Uuid) (headers : HeaderMap) (q : DeliveriesQuery) : M (result (list WebhookDelivery) ApiError) :=
  try _ <- authorize_wallet state headers wallet_id | same;
  let limit := default 50 (dq_limit q) in
  if negb (in_range 1 200 limit) then ret (Err (BadRequest "limit must be between 1 and 200")) else
  try _ <- Auth.get_wallet wallet_id | from_store_error;
  try endpoint <- get_webhook_endpoint endpoint_id | from_store_error;
  if negb (bool_decide (we_wallet_id endpoint = wallet_id)) then ret (Err NotFound) else
  match dq_status q with
  | Some s =>
      if bool_decide (s ∈ DELIVERY_STATUSES) then
        do rows <- part_query (fun _ t => WebhookStore.list_webhook_deliveries_with_status endpoint_id s limit t);
        ret (map_err (fun e => from_store_error (from_sqlx e)) rows)
      else ret (Err (BadRequest ("status must be one of: " +:+ join_names DELIVERY_STATUSES)))
  | None =>
      do rows <- part_query (fun _ t => WebhookStore.list_webhook_deliveries endpoint_id limit t);
      ret (map_err (fun e => from_store_error (from_sqlx e)) rows)
  end.
End Handlers.
End ConfigRoutes.
