(* ===== verification/ConfigInv.v ===== *)
(** * What the configuration tables hold

    The invariant of the rows that [ConfigRoutes] writes: limits that do not contradict each other,
    operation lists within the global one, allowlist entries in the form in which withdrawals are
    compared with them, endpoints that are public. *)

From S2P Require Import Prelude Float64 Resilience Db Paging WalletAddress Store Sponsorship Idempotency Amount Otp AuditChain AuditLog Users WebhookStore Account Wallets HorizonIngest ApiHorizon Fees Crypto Signer Submit Net Email Token Auth AuthSafe Webhooks RouteCommon AmountText Withdraw WalletRoutes ConfigRoutes.

Module ConfigInv.
Import Db Paging.
Import Store (Uuid).
Import WalletAddress (Strkey, StrkeyLaws, to_base_account).
Import Users (SqlLower, UuidText).
Import ApiHorizon (ApiError(..), Outside, from_store_error).
Import Email (Digest).
Import Net (UrlParser).
Import Submit (ALLOWED_OP_TYPES).
Import Float64 Token Auth ConfigRoutes.
Import Sponsorship (g_wallet_id, g_per_tx_fee_cap_stroops, g_daily_budget_stroops, g_allowed_operations, al_wallet_id, wl_wallet_id, wl_address).

#[local] Existing Instances Account.core_part Account.policies_part Account.hooks_part.

(** ** Rows *)

Record limits_ok (cap budget : option Z) : Prop := mkLimitsOk {
  cap_nonneg : forall c, cap = Some c -> 0 <= c;
  budget_nonneg : forall b, budget = Some b -> 0 <= b;
  cap_within_budget : forall c b, cap = Some c -> budget = Some b -> c <= b
}.

(** A wallet's own list, when it has one, only narrows the global list, and not to nothing. *)
Definition narrows (ops : option (list string)) : Prop :=
  forall l, ops = Some l -> l <> [] /\ NoDup l /\ forall op, op ∈ l -> op ∈ ALLOWED_OP_TYPES.

Definition config_ok (c : Sponsorship.GasSponsorshipConfig) : Prop :=
  limits_ok (g_per_tx_fee_cap_stroops c) (g_daily_budget_stroops c) /\ narrows (g_allowed_operations c).

Lemma checked_limits_ok cap budget : checked_limits cap budget = Ok tt -> limits_ok cap budget.
Proof.
  unfold checked_limits. destruct cap as [c|], budget as [b|]; repeat case_match; try done; intros _;
    split; intros; simplify_eq; lia.
Qed.

Lemma checked_operations_ok req l : checked_operations req = Ok (Some l) -> narrows l.
Proof.
  unfold checked_operations. destruct req as [[ops|]|]; [|by intros [= <-]|done].
  destruct (Submit.normalize_wallet_allowlist ops) as [r|e] eqn:E; [|done]. intros [= <-] l' [= <-].
  apply Submit.normalize_spec in E as (Hne & Hd & Hin & Hg). split_and!; [|done..].
  destruct ops as [|op rest]; [done|]. intros ->. assert (op ∈ []) by (apply Hin; left). set_solver.
Qed.

(** ** Tables *)

Section Tables.
Context `{sk : Strkey} `{up : UrlParser}.
Variable allow_local : bool.
Variable public_api_host : option string.

(** An entry is a base account: what [to_base_account] makes of any address of that account. *)
Definition entry_ok (r : Sponsorship.WhitelistedAddress) : Prop := to_base_account (wl_address r) = Ok (wl_address r).

Record policies_ok (s : Sponsorship.State) : Prop := mkPoliciesOk {
  configs_ok : Forall config_ok (Sponsorship.configs s);
  one_config : NoDup (map g_wallet_id (Sponsorship.configs s));
  one_switch : NoDup (map al_wallet_id (Sponsorship.allowlists s));
  entries_ok : Forall entry_ok (Sponsorship.whitelisted s);
  one_entry : NoDup (map (fun r => (wl_wallet_id r, wl_address r)) (Sponsorship.whitelisted s))
}.

Definition endpoint_ok (e : WebhookStore.WebhookEndpoint) : Prop :=
  WebhookStore.we_url e <> "" /\ Net.is_safe_url allow_local (WebhookStore.we_url e) = true /\
  is_own_host public_api_host (WebhookStore.we_url e) = false.

Definition hooks_ok (s : WebhookStore.State) : Prop := Forall endpoint_ok (WebhookStore.endpoints s).

Definition configured (d : Account.Db) : Prop := policies_ok (Account.d_policies d) /\ hooks_ok (Account.d_hooks d).

Lemma policies_ok_view d : policies_ok (Account.d_policies d) <-> policies_ok (Account.policies_view d).
Proof. split; intros []; by split. Qed.

(** *** Statements *)

Lemma update_where_key_on {A B} (key : A -> B) p f l :
  (forall a, p a = true -> key (f a) = key a) -> map key (Store.update_where p f l) = map key l.
Proof. intros Hf. unfold Store.update_where. rewrite map_map. apply map_ext. intros a. destruct (p a) eqn:E; auto. Qed.

(** A row whose key is in no row of the table. *)
Lemma keys_snoc {A B} (key : A -> B) l a : NoDup (map key l) -> (forall b, b ∈ l -> key b <> key a) -> NoDup (map key (l ++ [a])).
Proof.
  intros Hl Ha. rewrite map_app. apply NoDup_app. split_and!; [done| |apply NoDup_singleton].
  intros x Hx ->%list_elem_of_singleton. apply list_elem_of_fmap in Hx as (b & Eb & Hb). by apply (Ha b).
Qed.

Lemma find_absent {A B} `{EqDecision B} (key : A -> B) (k : B) l b :
  List.find (fun a => bool_decide (key a = k)) l = None -> b ∈ l -> key b <> k.
Proof. intros Ef Hb%list_elem_of_In. pose proof (List.find_none _ _ Ef b Hb) as Hn. cbn in Hn. by apply bool_decide_eq_false in Hn. Qed.

Lemma upsert_config_ok w enabled cap budget ops now s :
  limits_ok cap budget -> (forall l, ops = Some l -> narrows l) -> policies_ok s ->
  policies_ok (snd (Sponsorship.upsert_config_stmt w enabled cap budget ops now s)).
Proof.
  intros Hl Ho Hs. unfold Sponsorship.upsert_config_stmt. destruct (List.find _ _) as [c|] eqn:Ef.
  - cbn. destruct Hs as [H1 H2 H3 H4 H5]. split; cbn; try done.
    + apply (Store.update_where_Forall config_ok _ _ _ _ H1). intros c' _ Hc'. case_bool_decide; [|done].
      split; [done|]. cbn. destruct ops as [l|]; [by apply Ho|by destruct Hc'].
    + rewrite update_where_key_on; [done|]. intros c' Hc'%bool_decide_eq_true. by cbn.
  - destruct (Sponsorship.wallet_fk s w) eqn:Ew; [|done]. destruct Hs as [H1 H2 H3 H4 H5]. split; cbn; try done.
    + apply Forall_app. split; [done|]. apply Forall_singleton. split; [done|]. cbn. destruct ops as [l|]; [by apply Ho|done].
    + apply keys_snoc; [done|]. intros b Hb. cbn. by eapply find_absent.
Qed.

Lemma upsert_allowlist_ok w enabled now s : policies_ok s -> policies_ok (snd (Sponsorship.upsert_allowlist_stmt w enabled now s)).
Proof.
  intros Hs. unfold Sponsorship.upsert_allowlist_stmt. destruct (List.find _ _) as [c|] eqn:Ef; cbn.
  - destruct Hs as [H1 H2 H3 H4 H5]. split; cbn; try done. rewrite update_where_key_on; [done|]. intros c' Hc'%bool_decide_eq_true. by cbn.
  - destruct (Sponsorship.wallet_fk s w) eqn:Ew; [|done]. destruct Hs as [H1 H2 H3 H4 H5]. split; cbn; try done.
    apply keys_snoc; [done|]. intros b Hb. cbn. by eapply find_absent.
Qed.

Lemma add_whitelisted_ok w a label now s :
  to_base_account a = Ok a -> policies_ok s -> policies_ok (snd (Sponsorship.add_whitelisted_stmt w a label now s)).
Proof.
  intros Ha Hs. unfold Sponsorship.add_whitelisted_stmt. destruct (existsb _ _) eqn:Ee; [done|].
  destruct (negb _); [done|]. destruct Hs as [H1 H2 H3 H4 H5]. split; cbn; try done.
  - apply Forall_app. split; [done|]. by apply Forall_singleton.
  - apply keys_snoc; [done|]. intros b Hb. cbn. intros [= E1 E2]. apply not_true_iff_false in Ee. destruct Ee.
    apply existsb_exists. exists b. split; [by apply list_elem_of_In|]. by rewrite !bool_decide_eq_true_2.
Qed.

Lemma NoDup_map_filter {A B} (key : A -> B) (p : A -> bool) l : NoDup (map key l) -> NoDup (map key (List.filter p l)).
Proof.
  induction l as [|a l IH]; [done|]. intros [Ha Hl]%NoDup_cons. cbn. destruct (p a); [|by apply IH]. apply NoDup_cons. split; [|by apply IH].
  intros (b & Eb & Hb)%list_elem_of_fmap. apply Ha. rewrite Eb. apply list_elem_of_fmap_2. apply list_elem_of_In in Hb.
  by apply filter_In in Hb as [Hb%list_elem_of_In _].
Qed.

Lemma remove_whitelisted_ok p s : policies_ok s -> policies_ok (Sponsorship.set_whitelisted s (List.filter p (Sponsorship.whitelisted s))).
Proof.
  intros [H1 H2 H3 H4 H5]. split; cbn; try done; [|by apply NoDup_map_filter].
  rewrite Forall_forall in H4 |- *. intros r Hr%list_elem_of_In. apply filter_In in Hr as [Hr%list_elem_of_In _]. auto.
Qed.

Lemma create_endpoint_ok w url secret now s :
  url <> "" -> Net.is_safe_url allow_local url = true -> is_own_host public_api_host url = false ->
  hooks_ok s -> hooks_ok (snd (WebhookStore.create_webhook_endpoint_stmt w url secret now s)).
Proof.
  intros Hu Hs Ho Hk. unfold WebhookStore.create_webhook_endpoint_stmt. destruct (negb _); [done|]. cbn.
  apply Forall_app. split; [done|]. by apply Forall_singleton.
Qed.

(** An update that keeps the endpoints' URLs. *)
Lemma update_endpoints_ok p f l :
  (forall e, WebhookStore.we_url (f e) = WebhookStore.we_url e) -> Forall endpoint_ok l -> Forall endpoint_ok (Store.update_where p f l).
Proof.
  intros Hf Hl. apply (Store.update_where_Forall _ _ _ _ _ Hl). intros e _ He. destruct (p e); [|done].
  unfold endpoint_ok. by rewrite Hf.
Qed.

Lemma record_outcome_ok id dead n now s : hooks_ok s -> hooks_ok (snd (WebhookStore.record_outcome_stmt id dead n now s)).
Proof.
  intros Hs. unfold WebhookStore.record_outcome_stmt. destruct dead; cbn; [|by apply update_endpoints_ok].
  destruct (List.find _ _); [|done]. destruct (_ <? _); [done|]. by apply update_endpoints_ok.
Qed.

Lemma log_delivery_ok id et p st n code now s : hooks_ok s -> hooks_ok (snd (WebhookStore.log_webhook_delivery_stmt id et p st n code now s)).
Proof. intros Hs. unfold WebhookStore.log_webhook_delivery_stmt. by destruct (_ || _). Qed.
End Tables.

(** ** Handlers *)

(** One request to the configuration endpoints. *)
Inductive Call :=
| GetAllowlist (wallet_id : Uuid)
| PutAllowlist (wallet_id : Uuid) (body : Payload AllowlistConfigRequest)
| ListEntries (wallet_id : Uuid)
| AddEntry (wallet_id : Uuid) (body : Payload AddWhitelistedAddressRequest)
| RemoveEntry (wallet_id entry_id : Uuid)
| GetSponsorship (wallet_id : Uuid)
| PutSponsorship (wallet_id : Uuid) (body : Payload SponsorshipConfigRequest)
| CreateWebhook (wallet_id : Uuid) (body : Payload CreateWebhookRequest)
| TestWebhook (wallet_id endpoint_id : Uuid)
| Redeliver (wallet_id endpoint_id delivery_id : Uuid)
| DeleteWebhook (wallet_id endpoint_id : Uuid)
| ListDeliveries (wallet_id endpoint_id : Uuid) (q : DeliveriesQuery).

Section Handlers.
Context `{dg : Digest} `{hm : AuditChain.Hmac} `{bu : Base64Url} `{jj : JwtJson} `{ar : Argon2} `{lc : Lowercase} `{ut : UuidText} `{sl : SqlLower}.
Context `{sk : Strkey} {sklaws : StrkeyLaws} `{up : UrlParser} `{jb : Webhooks.JsonBytes}.
Context {X : Type} `{env : Env X} `{ww : Webhooks.Wire X}.
Variable state : AppState.
Variable public_api_host : option string.
Variable powi : f64 -> Z -> f64.
Variable allow_local : bool.
Variable sender : Webhooks.WebhookSender.
Notation configured := (configured allow_local public_api_host).
Notation World := (World Account.Db X).

Definition handle (headers : HeaderMap) (c : Call) : M Account.Db X unit :=
  let done {A} (m : M Account.Db X (result A ApiError)) := bind m (fun _ => ret tt) in
  match c with
  | GetAllowlist w => done (get_allowlist_config state w headers)
  | PutAllowlist w body => done (put_allowlist_config state w headers body)
  | ListEntries w => done (list_addresses state w headers)
  | AddEntry w body => done (add_address state w headers body)
  | RemoveEntry w e => done (remove_address state w e headers)
  | GetSponsorship w => done (get_sponsorship_config state w headers)
  | PutSponsorship w body => done (put_sponsorship_config state w headers body)
  | CreateWebhook w body => done (create_webhook state public_api_host allow_local w headers body)
  | TestWebhook w e => done (test_webhook state powi allow_local sender w e headers)
  | Redeliver w e d => done (redeliver_webhook state powi allow_local sender w e d headers)
  | DeleteWebhook w e => done (delete_webhook state w e headers)
  | ListDeliveries w e q => done (list_deliveries state w e headers q)
  end.

(** Requests one after the other; one that dies does not stop the next. *)
Definition serve (calls : list (HeaderMap * Call)) (w : World) : World :=
  fold_left (fun w c => snd (handle (fst c) (snd c) w)) calls w.

Notation kept := (maintains (X := X) configured).

(** One step of a computation that writes to no configuration table, or writes as a lemma allows. *)
Ltac kept :=
  repeat first
    [ solve [eauto 2 with maintains]
    | apply maintains_try_ret; intros ? ?
    | apply maintains_try; [|intros ?]
    | apply maintains_bind; [|intros ?]
    | progress case_match ].

Lemma kept_users {A} conv (stmt : Z -> Users.State -> result A sqlx_error * Users.State) : kept (users_call conv stmt).
Proof. unfold users_call. kept. apply maintains_call. intros now d Hd. unfold Account.on_users. by destruct (stmt _ _). Qed.

Lemma kept_get_wallet id : kept (Auth.get_wallet id).
Proof. unfold Auth.get_wallet. kept. Qed.

Lemma kept_record u a c t h : kept (record state u a c t h).
Proof.
  unfold record, record_audit, flatten. kept. apply maintains_call. intros now d Hd. unfold Account.on_audit. by destruct (AuditChain.record_audit_tx _ _ _ _ _ _ _ _ _).
Qed.

#[local] Hint Resolve kept_users kept_get_wallet kept_record : maintains.

Lemma kept_session h : kept (authenticate_session state h).
Proof. unfold authenticate_session, bearer_claims, verify, now_secs, is_session_valid. kept. Qed.
#[local] Hint Resolve kept_session : maintains.

Lemma kept_login h : kept (require_login state h).
Proof. unfold require_login, require_login_session. kept. Qed.

Lemma kept_scope h w s : kept (authorize_wallet_scope state h w s).
Proof. unfold authorize_wallet_scope, use_api_key, authenticate. kept. Qed.
#[local] Hint Resolve kept_login kept_scope : maintains.

Lemma kept_authorize h w : kept (authorize_wallet state h w).
Proof. apply kept_scope. Qed.

Lemma kept_owned h w : kept (owned_wallet state h w).
Proof. unfold owned_wallet. kept. Qed.

Lemma kept_rate k c l n m : kept (rate_limited k c l n m).
Proof. unfold rate_limited. kept. Qed.

Lemma kept_get_endpoint id : kept (get_webhook_endpoint id).
Proof. unfold get_webhook_endpoint. kept. Qed.
#[local] Hint Resolve kept_authorize kept_owned kept_rate kept_get_endpoint : maintains.

Lemma kept_owned_endpoint w e : kept (owned_endpoint w e).
Proof. unfold owned_endpoint. kept. Qed.

Lemma kept_audit_send w a t h : kept (audit_send state w a t h).
Proof. unfold audit_send. kept. Qed.

Lemma nonempty_nonempty e o s : WalletRoutes.nonempty e o = Ok s -> s <> "".
Proof.
  unfold WalletRoutes.nonempty, opt_filter. destruct o as [x|]; [|done]. destruct (is_empty x) eqn:E; [done|]. cbn.
  intros [= <-]. by apply is_empty_false.
Qed.

(** *** Writes *)

Lemma kept_policies {A} (stmt : Z -> Sponsorship.State -> result A sqlx_error * Sponsorship.State) :
  (forall now s, policies_ok s -> policies_ok (snd (stmt now s))) -> kept (part_call stmt).
Proof. intros Hs. apply maintains_part_call. intros now d [Hp Hh]. split; [|done]. cbn. apply Hs. by apply policies_ok_view. Qed.

Lemma kept_hooks {A} (stmt : Z -> WebhookStore.State -> result A sqlx_error * WebhookStore.State) :
  (forall now s, hooks_ok allow_local public_api_host s -> hooks_ok allow_local public_api_host (snd (stmt now s))) -> kept (part_call stmt).
Proof. intros Hs. apply maintains_part_call. intros now d [Hp Hh]. split; [done|]. cbn. by apply Hs. Qed.

Lemma kept_spent w : kept (Sponsorship.sum_sponsored_fees_today w).
Proof. unfold Sponsorship.sum_sponsored_fees_today. kept. by apply kept_policies. Qed.

Lemma kept_log ep et body st n code : kept (Webhooks.log_webhook_delivery ep et body st n code).
Proof. unfold Webhooks.log_webhook_delivery. kept. apply kept_hooks. intros. by apply log_delivery_ok. Qed.
#[local] Hint Resolve kept_owned_endpoint kept_audit_send kept_spent kept_log : maintains.

Lemma kept_send ep et body kind : kept (Webhooks.send powi allow_local sender ep et body kind).
Proof.
  unfold Webhooks.send, Webhooks.deliver_with_retry. kept. apply kept_hooks. intros. by apply record_outcome_ok.
Qed.
#[local] Hint Resolve kept_send : maintains.

Lemma kept_add_address w h body : kept (add_address state w h body).
Proof using sklaws.
  unfold add_address, Sponsorship.add_whitelisted_address. kept. apply kept_policies. intros now s.
  apply add_whitelisted_ok.
  match goal with Ha : to_base_account _ = Ok ?b |- to_base_account ?b = _ => by apply WalletAddress.to_base_account_normal in Ha as (_ & ? & _) end.
Qed.

Lemma kept_put_sponsorship w h body : kept (put_sponsorship_config state w h body).
Proof.
  unfold put_sponsorship_config, Sponsorship.upsert_gas_sponsorship_config. kept. apply kept_policies. intros now s.
  apply upsert_config_ok; [match goal with Hl : checked_limits _ _ = Ok ?u |- _ => destruct u; by apply checked_limits_ok end|]. intros l ->. by eapply checked_operations_ok.
Qed.

Lemma kept_create_webhook w h body : kept (create_webhook state public_api_host allow_local w h body).
Proof.
  unfold create_webhook, create_webhook_endpoint, generate_secret. kept. apply kept_hooks. intros now s.
  apply create_endpoint_ok; [by eapply nonempty_nonempty|by apply negb_false_iff|done].
Qed.

Lemma kept_redeliver w e d h : kept (redeliver_webhook state powi allow_local sender w e d h).
Proof. unfold redeliver_webhook, check_send_rate_limit, Webhooks.redeliver. kept. Qed.

Lemma kept_list_deliveries w e h q : kept (list_deliveries state w e h q).
Proof. unfold list_deliveries. kept. Qed.
#[local] Hint Resolve kept_add_address kept_put_sponsorship kept_create_webhook kept_redeliver kept_list_deliveries : maintains.

Lemma kept_handle h c : kept (handle h c).
Proof using sklaws.
  destruct c; cbn [handle]; kept.
  - apply kept_policies. intros now s. apply upsert_allowlist_ok.
  - apply kept_policies. intros now s. apply remove_whitelisted_ok.
  - apply kept_hooks. intros now s. by apply update_endpoints_ok.
Qed.

(** C22: the configuration tables stay well formed. From a database in which every sponsorship row has
    non-negative limits with the cap within the budget and an operation list that is absent or a
    non-empty part of the global list, every allowlist entry is a base account listed once for its
    wallet, and every webhook endpoint has a URL that passes the checks, any sequence of requests to
    the configuration endpoints, with any bodies and credentials, leads to such a database, whatever
    statements fail or kill a request and whatever other connections do in between, as long as they
    keep the tables well formed too. *)
Theorem configuration_typed calls (w : World) :
  configured (db w) -> Forall (fun t => forall d, configured d -> configured (t_others t d)) (ticks w) ->
  configured (db (serve calls w)).
Proof using sklaws.
  revert w. induction calls as [|[h c] calls IH]; intros w Hd Ht; [done|]. cbn.
  destruct (maintains_db configured (handle h c) w (kept_handle h c) Hd Ht) as [Hd' Ht']. by apply IH.
Qed.
End Handlers.

(** In well-formed tables a withdrawal is compared with the entries account by account: in whichever
    form the destination is written, it is listed exactly when one of the wallet's entries is its base account. *)
Lemma listed_by_account `{sk : Strkey} s wallet_id destination b :
  policies_ok s -> to_base_account destination = Ok b ->
  (Sponsorship.whitelists wallet_id b s = true <->
   exists r, r ∈ Sponsorship.whitelisted s /\ wl_wallet_id r = wallet_id /\ to_base_account (wl_address r) = to_base_account destination).
Proof.
  intros [_ _ _ He _] Hb. unfold Sponsorship.whitelists. rewrite existsb_exists, Hb. rewrite Forall_forall in He. split.
  - intros (r & Hr%list_elem_of_In & [E1%bool_decide_eq_true E2%bool_decide_eq_true]%andb_true_iff). exists r.
    split_and!; [done..|]. rewrite (He r Hr). by rewrite E2.
  - intros (r & Hr & E1 & E2). exists r. split; [by apply list_elem_of_In|]. rewrite (He r Hr) in E2. injection E2 as E2.
    by rewrite !bool_decide_eq_true_2.
Qed.

(** ** A wallet being configured *)

#[local] Existing Instances AuditLog.checksum Users.dec_uuid Users.ascii_lower Token.Sample.digest Token.Sample.base64 Token.Sample.json
  Auth.Sample.env Auth.Sample.argon2 Auth.Sample.lowercase WalletAddress.Toy.toy_strkey WalletAddress.Toy.toy_laws Net.sample_parser
  Webhooks.plain_json Withdraw.paired_env.
#[local] Instance demo_wire {X} : Webhooks.Wire (X * list Webhooks.Request) := {|
  Webhooks.wire x := (Webhooks.demo_plan, x);
  Webhooks.emit l x := (fst x, snd x ++ l);
  Webhooks.unix_now x := (0, x)
|}.

Definition demo_start : World Account.Db (Z * list Webhooks.Request) :=
  mkWorld (Account.set_hooks (Account.set_policies (Account.set_core Auth.Sample.db
             (Store.mkState 100 [Withdraw.demo_wallet] [] [] [] [] [] [])) (Sponsorship.mkState 50 [] [] [] [] []))
             (WebhookStore.mkState 60 [] [] [])) [] (2000, []).

Notation serving calls := (serve Auth.Sample.app (Some "api.octo.dev") Webhooks.demo_powi false Webhooks.demo_sender
  (map (fun c => (Withdraw.demo_headers, c)) calls) demo_start).

(** An entry given as a muxed address, the switch, a cap with a list of operations, an endpoint and a ping to it. *)
Definition demo_calls : list Call :=
  [AddEntry 7 (Json (mkAddWhitelistedAddressRequest (Some WalletAddress.toy_muxed) None));
   PutAllowlist 7 (Json (mkAllowlistConfigRequest (Some true)));
   PutSponsorship 7 (Json (mkSponsorshipConfigRequest (Some true) (Some 500) (Some 9000) (Some (Some ["Payment"]))));
   CreateWebhook 7 (Json (mkCreateWebhookRequest (Some "https://hooks.example.com/octo") (Some "s")));
   TestWebhook 7 60].

Lemma demo_start_configured : configured false (Some "api.octo.dev") (db demo_start).
Proof. split; [split|]; cbn; constructor. Qed.

Lemma configuration_typed_witness :
  let d := db (serving demo_calls) in
  map wl_address (Sponsorship.whitelisted (Account.d_policies d)) = [WalletAddress.toy_account] /\
  map g_allowed_operations (Sponsorship.configs (Account.d_policies d)) = [Some ["Payment"]] /\
  map WebhookStore.we_url (WebhookStore.endpoints (Account.d_hooks d)) = ["https://hooks.example.com/octo"] /\
  configured false (Some "api.octo.dev") d.
Proof.
  cbv zeta. split; [vm_compute; reflexivity|]. split; [vm_compute; reflexivity|]. split; [vm_compute; reflexivity|].
  apply (configuration_typed Auth.Sample.app (Some "api.octo.dev") Webhooks.demo_powi false Webhooks.demo_sender
    (map (fun c => (Withdraw.demo_headers, c)) demo_calls) demo_start); [exact demo_start_configured|constructor].
Defined.

(** An enabled allowlist can lose its last entry, after which no destination is reachable. *)
Example allowlist_emptied :
  let d := db (serving (demo_calls ++ [RemoveEntry 7 50])) in
  Sponsorship.whitelisted (Account.d_policies d) = [] /\
  map Sponsorship.al_enabled (Sponsorship.allowlists (Account.d_policies d)) = [true].
Proof. split; vm_compute; reflexivity. Qed.

(** A request that gives only the operations switches sponsorship off and clears both limits. *)
Example sponsorship_reset :
  let d := db (serving (demo_calls ++ [PutSponsorship 7 (Json (mkSponsorshipConfigRequest None None None (Some None)))])) in
  map (fun c => (Sponsorship.g_enabled c, g_per_tx_fee_cap_stroops c, g_daily_budget_stroops c)) (Sponsorship.configs (Account.d_policies d))
  = [(false, None, None)].
Proof. vm_compute. reflexivity. Qed.
End ConfigInv.
