(* ===== verification/ServerConfig.v ===== *)
(** * The server's configuration

    [bin/server/src/main.rs] ([Config::from_env], [MetricsConfig::from_env], the keys that are taken
    out of the environment), [bin/server/src/mainnet_guard.rs], [bin/server/src/telemetry.rs]
    ([TelemetryConfig::from_env]), [decode_master_key] of [crates/api/src/state.rs], and the summary
    that [bin/server/src/check_config.rs] prints. *)

From S2P Require Import Prelude Float64 Resilience Db Store RateLimit ApiHorizon Fees Crypto Signer Net Wallets MigrateKeys.

Module ServerConfig.
Import Float64.
Import Signer (StellarNetwork(..)).
Import Crypto (bytes, MASTER_KEY_LEN).
Import Wallets (StoreConfig, StoreConfigError).
Import Resilience (ResilienceConfig).

#[export] Instance StellarNetwork_eq_dec : EqDecision StellarNetwork.
Proof. solve_decision. Defined.

(** ** The environment *)

Inductive Var := Text (s : string) | NotText.
Definition Env : Type := gmap string Var.

Inductive VarError := NotPresent | NotUnicode.

Definition env_var (name : string) (env : Env) : result string VarError :=
  match env !! name with Some (Text s) => Ok s | Some NotText => Err NotUnicode | None => Err NotPresent end.

(** [std::env::var(name).ok()] *)
Definition env_ok (env : Env) (name : string) : option string := result_ok (env_var name env).

Inductive ConfigError :=
| Message (m : string)
| OfVar (e : VarError)
| OfStore (e : StoreConfigError).

(** Reading that may remove variables: [Result<A>] beside the environment left. *)
Definition Boot (A : Type) : Type := Env -> result A ConfigError * Env.

Definition pure {A} (r : result A ConfigError) : Boot A := fun env => (r, env).
Definition reads {A} (f : Env -> result A ConfigError) : Boot A := fun env => (f env, env).
Definition and_then {A B} (m : Boot A) (k : A -> Boot B) : Boot B := fun env =>
  match m env with (Ok a, env') => k a env' | (Err e, env') => (Err e, env') end.
Definition remove_var (name : string) : Boot unit := fun env => (Ok tt, delete name env).

Declare Scope boot_scope.
Delimit Scope boot_scope with boot.
Notation "'read' x <- m ; k" := (and_then m (fun x => k)) (at level 200, x pattern, m at level 100, k at level 200) : boot_scope.
Local Open Scope boot_scope.

Definition required (name message : string) : Boot string :=
  reads (fun env => map_err (fun _ => Message message) (env_var name env)).
Definition with_default (name default_ : string) : Boot string := reads (fun env => Ok (default default_ (env_ok env name))).

(** ** Keys *)

Section Keys.
(** The standard base64 decoder. *)
Variable b64 : MigrateKeys.Base64Decode.

(** The buffer has 48 bytes; a longer text does not decode into it. *)
Definition decode_master_key (text : string) : option bytes :=
  let* raw := b64 (trim text) in
  if (48 <? length raw)%nat then None else
  if (length raw =? MASTER_KEY_LEN)%nat then Some raw else None.

Definition take_key_from_env (name : string) : Boot (option bytes) := fun env =>
  match env_var name env with
  | Err NotPresent => (Ok None, env)
  | Err NotUnicode => (Err (Message (name +:+ " must be valid UTF-8")), env)
  | Ok raw =>
      match decode_master_key raw with
      | Some key => (Ok (Some key), delete name env)
      | None => (Err (Message (name +:+ " must be base64-encoded 32 bytes")), delete name env)
      end
  end.

Definition audit_chain_key_from_env : Boot bytes :=
  read key <- take_key_from_env "AUDIT_CHAIN_KEY";
  pure (ok_or key (Message "AUDIT_CHAIN_KEY is required (base64 32 bytes; signs the audit hash chain)")).
End Keys.

(** ** The mainnet guard *)

Definition MAINNET_MIN_JWT_SECRET_LEN : Z := 32.
Definition MIN_ENTROPY_BITS : f64 := of_Z 128.

Definition KNOWN_PLACEHOLDERS : list string := ["supersecretjwtkeyforminimumnsixteenbytes"; "re_test_dummy_key_for_ci"].
Definition PLACEHOLDER_MARKERS : list string :=
  ["<"; ">"; "changeme"; "change_me"; "change-me"; "placeholder"; "example"; "dummy"; "your_"; "your-"; "supersecret"; "xxxxxxxx"].

Fixpoint contains (m s : string) : bool := starts_with m s || match s with String _ r => contains m r | EmptyString => false end.

(** The value is text: [from_utf8_lossy] leaves it as it is. *)
Definition is_placeholder (value : bytes) : bool :=
  let lower := to_ascii_lowercase (trim (str_of value)) in
  existsb (fun p => bool_decide (lower = p)) KNOWN_PLACEHOLDERS || existsb (fun m => contains m lower) PLACEHOLDER_MARKERS.

(** [log2] of the mathematical library. *)
Class Log2 := { log2 : f64 -> f64 }.

Definition occurrences (bytes : bytes) (b : Z) : Z := Z.of_nat (length (List.filter (fun x => x =? b) bytes)).

Definition estimated_entropy_bits `{Log2} (bytes : bytes) : f64 :=
  let counts := map (fun b => occurrences bytes (Z.of_nat b)) (seq 0 256) in
  let len := of_Z (Z.of_nat (length bytes)) in
  fold_left add
    (map (fun c => let p := div (of_Z c) len in mul (mul (neg p) (log2 p)) len) (List.filter (fun c => 0 <? c) counts)) zero.

Fixpoint windows (l : list Z) : list (Z * Z) :=
  match l with a :: ((b :: _) as r) => (a, b) :: windows r | _ => [] end.

Definition wrapping_sub (a b : Z) : Z := (a - b) mod 256.

Definition is_weak_key `{Log2} (key : bytes) : bool :=
  let step := wrapping_sub (nth 1 key 0) (nth 0 key 0) in
  let arithmetic := forallb (fun w => wrapping_sub (snd w) (fst w) =? step) (windows key) in
  arithmetic || ltb (estimated_entropy_bits key) MIN_ENTROPY_BITS.

Definition is_https (url : string) : bool :=
  let url := trim url in
  eq_ignore_ascii_case (substring 0 8 url) "https://" &&
  match substring 8 (String.length url - 8) url with String c _ => negb (bool_decide (c = "/"%char)) | EmptyString => false end.

Record MainnetCheck := mkMainnetCheck {
  mc_jwt_secret : bytes;
  mc_master_key : bytes;
  mc_master_key_next : option bytes;
  mc_resend_api_key : string;
  mc_horizon_url : string;
  mc_public_app_url : string;
  mc_public_api_url : option string
}.

Definition problem (b : bool) (m : string) : list string := if b then [m] else [].

Definition check `{Log2} (network : StellarNetwork) (cfg : MainnetCheck) : result unit (list string) :=
  if negb (bool_decide (network = Public)) then Ok tt else
  let url name u := problem match u with Some u => negb (is_https u) | None => false end (name +:+ " must be an https:// URL with a host on mainnet") in
  let problems :=
    problem (Z.of_nat (length (mc_jwt_secret cfg)) <? MAINNET_MIN_JWT_SECRET_LEN)
      ("JWT_SECRET must be at least " +:+ print_dec MAINNET_MIN_JWT_SECRET_LEN +:+ " bytes on mainnet") ++
    problem (is_placeholder (mc_jwt_secret cfg)) "JWT_SECRET is a placeholder value" ++
    problem (ltb (estimated_entropy_bits (mc_jwt_secret cfg)) MIN_ENTROPY_BITS)
      "JWT_SECRET has too little entropy (use `openssl rand -hex 32`)" ++
    problem (is_weak_key (mc_master_key cfg)) "MASTER_KEY has too little entropy (use `openssl rand -base64 32`)" ++
    match mc_master_key_next cfg with
    | Some next =>
        problem (is_weak_key next) "MASTER_KEY_NEXT has too little entropy (use `openssl rand -base64 32`)" ++
        problem (bool_decide (next = mc_master_key cfg)) "MASTER_KEY_NEXT must differ from MASTER_KEY"
    | None => []
    end ++
    problem (is_placeholder (bytes_of (mc_resend_api_key cfg))) "RESEND_API_KEY is a placeholder value" ++
    url "HORIZON_URL" (Some (mc_horizon_url cfg)) ++ url "PUBLIC_APP_URL" (Some (mc_public_app_url cfg)) ++
    url "PUBLIC_API_URL" (mc_public_api_url cfg) in
  match problems with [] => Ok tt | _ => Err problems end.

(** ** The metrics listener *)

(** [SocketAddr::from_str]: an IPv4 address, or an IPv6 address in brackets with an optional scope, and a port. *)
Definition read_port (s : string) : option (Z * string) := let* r := Net.read_char ":" s in Net.read_number 10 u32_MAX 65535 true r.

Record SocketAddr := mkSocketAddr { sa_ip : Net.IpAddr; sa_scope_id : Z; sa_port : Z }.

Definition parse_socket_addr (s : string) : option SocketAddr :=
  let finish ip scope r := let* p := read_port r in if is_empty (snd p) then Some (mkSocketAddr ip scope (fst p)) else None in
  match (let* p := Net.read_ipv4 s in finish (Net.V4 (fst p)) 0 (snd p)) with
  | Some a => Some a
  | None =>
      let* r := Net.read_char "[" s in
      let* p := Net.read_ipv6 r in
      let '(scope, r) := match (let* z := Net.read_char "%" (snd p) in Net.read_number 10 u32_MAX u32_MAX true z) with
                         | Some (scope, r) => (scope, r)
                         | None => (0, snd p)
                         end in
      let* r := Net.read_char "]" r in
      finish (Net.V6 (fst p)) scope r
  end.

Definition is_loopback (ip : Net.IpAddr) : bool :=
  match ip with Net.V4 a => Net.is_loopback_v4 a | Net.V6 l => Net.is_loopback_v6 l end.

Record MetricsConfig := mkMetricsConfig { me_bind_addr : SocketAddr; me_token : option string }.

Definition MIN_TOKEN_LEN : Z := 32.

Section Reading.
(** [format!("{raw:?}")] of a text. *)
Variable debug : string -> string.

Definition MetricsConfig_from_env : Boot (option MetricsConfig) := fun env =>
  let raw := default "" (env_ok env "METRICS_BIND_ADDR") in
  if is_empty (trim raw) then (Ok None, env) else
  match parse_socket_addr (trim raw) with
  | None => (Err (Message ("METRICS_BIND_ADDR must be an ip:port (got " +:+ debug raw +:+ ")")), env)
  | Some bind_addr =>
      let token := match env_ok env "METRICS_TOKEN" with Some t => if is_empty t then None else Some t | None => None end in
      let env := delete "METRICS_TOKEN" env in
      if match token with Some t => slen t <? MIN_TOKEN_LEN | None => false end then
        (Err (Message ("METRICS_TOKEN must be at least " +:+ print_dec MIN_TOKEN_LEN +:+ " bytes")), env) else
      if negb (is_loopback (sa_ip bind_addr)) && match token with None => true | Some _ => false end then
        (Err (Message "METRICS_TOKEN is required when METRICS_BIND_ADDR is not a loopback address"), env)
      else (Ok (Some (mkMetricsConfig bind_addr token)), env)
  end.

(** ** Trace export *)

Record TelemetryConfig := mkTelemetryConfig {
  te_endpoint : option string;
  te_service_name : string;
  te_headers : list (string * string);
  te_sample_ratio : f64
}.

(** [trim_end_matches('/')] *)
Fixpoint drop_slashes (l : list ascii) : list ascii :=
  match l with [] => [] | c :: r => if ascii_dec c "/" then drop_slashes r else l end.
Definition trim_end_slashes (s : string) : string := string_of_list_ascii (rev (drop_slashes (rev (list_ascii_of_string s)))).

Fixpoint parse_pairs (pairs : list string) : result (list (string * string)) ConfigError :=
  match pairs with
  | [] => Ok []
  | entry :: rest =>
      let? kv := ok_or (split_once "=" entry) (Message "OTEL_EXPORTER_OTLP_HEADERS entries must be key=value") in
      let? l := parse_pairs rest in
      Ok ((trim (fst kv), trim (snd kv)) :: l)
  end.

Definition parse_headers (raw : string) : result (list (string * string)) ConfigError :=
  parse_pairs (List.filter (fun p => negb (is_empty p)) (map trim (Net.split "," raw))).

(** [f64::from_str] *)
Variable parse_f64 : string -> option f64.

Definition TelemetryConfig_from_env : Boot TelemetryConfig := fun env =>
  let endpoint := match env_ok env "OTEL_EXPORTER_OTLP_ENDPOINT" with
                  | Some v => let v := trim_end_slashes (trim v) in if is_empty v then None else Some v
                  | None => None
                  end in
  if match endpoint with Some u => negb (starts_with "http://" u || starts_with "https://" u) | None => false end then
    (Err (Message "OTEL_EXPORTER_OTLP_ENDPOINT must be an http(s) URL"), env) else
  let service_name := match env_ok env "OTEL_SERVICE_NAME" with Some v => if is_empty (trim v) then "octo-server" else v | None => "octo-server" end in
  let raw_headers := default "" (env_ok env "OTEL_EXPORTER_OTLP_HEADERS") in
  let env := delete "OTEL_EXPORTER_OTLP_HEADERS" env in
  match parse_headers raw_headers with
  | Err e => (Err e, env)
  | Ok headers =>
      let sample_ratio :=
        match env_ok env "OTEL_TRACES_SAMPLE_RATIO" with
        | Some raw =>
            match parse_f64 (trim raw) with
            | Some r => if leb zero r && leb r (of_Z 1) then Ok r
                        else Err (Message ("OTEL_TRACES_SAMPLE_RATIO must be 0.0-1.0, got " +:+ debug raw))
            | None => Err (Message ("OTEL_TRACES_SAMPLE_RATIO must be 0.0-1.0, got " +:+ debug raw))
            end
        | None => Ok (of_Z 1)
        end in
      match sample_ratio with
      | Err e => (Err e, env)
      | Ok r => (Ok (mkTelemetryConfig endpoint service_name headers r), env)
      end
  end.

(** ** The server *)

Record Config := mkConfig {
  database_url : string;
  store : StoreConfig;
  rate_limit_backend : RateLimit.RateLimitBackend;
  network : StellarNetwork;
  horizon_url : string;
  signing_policy : Fees.SigningPolicy;
  friendbot_url : option string;
  public_app_url : string;
  public_api_url : option string;
  resend_api_key : string;
  email_from_address : string;
  master_key : bytes;
  master_key_next : option bytes;
  jwt_secret : bytes;
  audit_chain_key : bytes;
  bind_addr : string;
  ingest_interval_secs : Z;
  ingest_page_limit : Z;
  ingest_lock_retry : Z;
  shutdown_drain_timeout : Z;
  run_migrations : bool;
  metrics : option MetricsConfig;
  resilience : ResilienceConfig
}.

Definition parse_env_or (parse : string -> option Z) (name : string) (default_ : Z) : Boot Z := reads (fun env =>
  match env_var name env with
  | Ok raw => ok_or (parse raw) (Message (name +:+ " must be a valid number (got " +:+ debug raw +:+ ")"))
  | Err NotPresent => Ok default_
  | Err e => Err (OfVar e)
  end).

Definition parse_u8 : string -> option Z := parse_int 0 255.

(** [.ok().and_then(|s| s.parse().ok()).unwrap_or(default)] *)
Definition lenient (parse : string -> option Z) (name : string) (default_ : Z) : Boot Z :=
  reads (fun env => Ok (default default_ (let* s := env_ok env name in parse s))).

Definition DEFAULT_LOCK_RETRY : Z := 5.

Definition rate_limit_backend_from_env : Boot RateLimit.RateLimitBackend := reads (fun env =>
  match env_var "RATE_LIMIT_BACKEND" env with
  | Ok raw => ok_or (RateLimit.parse raw) (Message ("RATE_LIMIT_BACKEND must be `postgres` or `memory` (got " +:+ debug raw +:+ ")"))
  | Err _ => Ok RateLimit.Postgres
  end).

Definition lock_retry_from_env : Boot Z := reads (fun env =>
  match env_var "INGEST_LOCK_RETRY_SECS" env with
  | Ok raw =>
      let bad := Err (Message ("INGEST_LOCK_RETRY_SECS must be a whole number >= 1 (got " +:+ debug raw +:+ ")")) in
      match parse_u64 (trim raw) with Some secs => if 1 <=? secs then Ok secs else bad | None => bad end
  | Err _ => Ok DEFAULT_LOCK_RETRY
  end).

Definition run_migrations_from_env : Boot bool := reads (fun env =>
  match env_ok env "RUN_MIGRATIONS" with
  | None => Ok true
  | Some v =>
      if bool_decide (v = "true") || bool_decide (v = "1") then Ok true else
      if bool_decide (v = "false") || bool_decide (v = "0") then Ok false else
      Err (Message ("RUN_MIGRATIONS must be true or false, got " +:+ debug v))
  end).

Variable b64 : MigrateKeys.Base64Decode.

Definition Config_from_env : Boot Config :=
  read database_url <- required "DATABASE_URL" "DATABASE_URL is required";
  read store <- reads (fun env => map_err OfStore (Wallets.from_env (env_ok env)));
  read rate_limit_backend <- rate_limit_backend_from_env;
  read network_str <- with_default "NETWORK" "testnet";
  read network <- pure (ok_or (Signer.parse network_str) (Message ("invalid NETWORK: " +:+ network_str)));
  read horizon_url <- with_default "HORIZON_URL" "https://horizon-testnet.stellar.org";
  read max_age <- parse_env_or parse_u64 "STELLAR_TX_MAX_AGE_SECS" 300;
  read percentile <- parse_env_or parse_u8 "STELLAR_FEE_PERCENTILE" 50;
  read ceiling <- parse_env_or parse_i64 "STELLAR_FEE_CEILING_STROOPS" 10000;
  read signing_policy <- pure (map_err Message (Fees.SigningPolicy_new max_age percentile ceiling));
  read friendbot_url <- reads (fun env => Ok (env_ok env "FRIENDBOT_URL"));
  read public_app_url <- with_default "PUBLIC_APP_URL" "http://localhost:3000";
  let public_app_url := trim_end_slashes public_app_url in
  read public_api_url <- reads (fun env => Ok (let* u := env_ok env "PUBLIC_API_URL" in if is_empty (trim u) then None else Some u));
  read resend_api_key <- required "RESEND_API_KEY" "RESEND_API_KEY is required";
  read email_from_address <- required "EMAIL_FROM_ADDRESS" "EMAIL_FROM_ADDRESS is required";
  read master_key <- take_key_from_env b64 "MASTER_KEY";
  read master_key <- pure (ok_or master_key (Message "MASTER_KEY is required"));
  read master_key_next <- take_key_from_env b64 "MASTER_KEY_NEXT";
  read audit_chain_key <- audit_chain_key_from_env b64;
  read jwt_secret <- required "JWT_SECRET" "JWT_SECRET is required (used to sign dashboard auth tokens)";
  let jwt_secret := bytes_of jwt_secret in
  read _ <- pure (if (length jwt_secret <? 16)%nat then Err (Message "JWT_SECRET must be at least 16 bytes") else Ok tt);
  read bind_addr <- with_default "BIND_ADDR" "0.0.0.0:8080";
  read ingest_interval_secs <- lenient parse_u64 "INGEST_INTERVAL_SECS" 5;
  read ingest_page_limit <- lenient parse_u32 "INGEST_PAGE_LIMIT" 50;
  read ingest_lock_retry <- lock_retry_from_env;
  read shutdown_drain_timeout <- lenient parse_u64 "SHUTDOWN_DRAIN_TIMEOUT_SECS" 25;
  read run_migrations <- run_migrations_from_env;
  read resilience <- reads (fun env => Ok (Resilience.from_env (env_ok env)));
  read metrics <- MetricsConfig_from_env;
  pure (Ok (mkConfig database_url store rate_limit_backend network horizon_url signing_policy friendbot_url public_app_url public_api_url
              resend_api_key email_from_address master_key master_key_next jwt_secret audit_chain_key bind_addr ingest_interval_secs
              ingest_page_limit ingest_lock_retry shutdown_drain_timeout run_migrations metrics resilience)).
End Reading.

Definition ensure_safe_for_network `{Log2} (cfg : Config) : result unit (list string) :=
  check (network cfg) (mkMainnetCheck (jwt_secret cfg) (master_key cfg) (master_key_next cfg) (resend_api_key cfg) (horizon_url cfg)
                         (public_app_url cfg) (public_api_url cfg)).

(** ** The summary of [--check-config] *)

(** [s.split_once("://")] *)
Fixpoint split_scheme (s : string) : option (string * string) :=
  match strip_prefix "://" s with
  | Some r => Some (EmptyString, r)
  | None => match s with
            | EmptyString => None
            | String c r => let* p := split_scheme r in Some (String c (fst p), snd p)
            end
  end.

(** [s.split(p).next()] *)
Fixpoint before (p : ascii -> bool) (s : string) : string :=
  match s with EmptyString => EmptyString | String c r => if p c then EmptyString else String c (before p r) end.

(** [s.rsplit_once(c)]: around the last occurrence. *)
Fixpoint rsplit_once (c : ascii) (s : string) : option (string * string) :=
  match s with
  | EmptyString => None
  | String d r =>
      match rsplit_once c r with
      | Some (a, b) => Some (String d a, b)
      | None => if bool_decide (c = d) then Some (EmptyString, r) else None
      end
  end.

Definition query_or_fragment (c : ascii) : bool := bool_decide (c = "?"%char) || bool_decide (c = "#"%char).

Definition redact_url (raw : string) : string :=
  match split_scheme raw with
  | None => "[not a URL]"
  | Some (scheme, rest) =>
      let rest := before query_or_fragment rest in
      let '(authority, path) := match split_once "/" rest with Some p => p | None => (rest, EmptyString) end in
      let '(creds, host) := match rsplit_once "@" authority with Some (_, host) => ("***@", host) | None => ("", authority) end in
      scheme +:+ "://" +:+ creds +:+ host +:+ (if is_empty path then "" else String "/" path)
  end.

Definition socket_string (a : SocketAddr) : string :=
  match sa_ip a with
  | Net.V4 _ => Net.ip_string (sa_ip a) +:+ ":" +:+ print_dec (sa_port a)
  | Net.V6 _ => "[" +:+ Net.ip_string (sa_ip a) +:+ (if sa_scope_id a =? 0 then "" else "%" +:+ print_dec (sa_scope_id a)) +:+ "]:"
                +:+ print_dec (sa_port a)
  end.

Definition Summary_new (cfg : Config) (telemetry : TelemetryConfig) : list (string * string) :=
  let set (present : bool) := if present then "set" else "unset" in
  let shown (unset : string) (f : string -> string) (o : option string) := match o with Some v => f v | None => unset end in
  let db := store cfg in
  let r := resilience cfg in
  [("NETWORK", Signer.as_str (network cfg));
   ("BIND_ADDR", bind_addr cfg);
   ("DATABASE_URL", redact_url (database_url cfg));
   ("DB pool", "max=" +:+ print_dec (Wallets.max_connections db) +:+ " acquire=" +:+ print_dec (Wallets.acquire_timeout db) +:+ "s idle="
               +:+ print_dec (Wallets.idle_timeout db) +:+ "s statement=" +:+ print_dec (Wallets.statement_timeout db) +:+ "s");
   ("RUN_MIGRATIONS", if run_migrations cfg then "true" else "false");
   ("RATE_LIMIT_BACKEND", RateLimit.as_str (rate_limit_backend cfg));
   ("HORIZON_URL", redact_url (horizon_url cfg));
   ("FRIENDBOT_URL", shown "unset" redact_url (friendbot_url cfg));
   ("PUBLIC_APP_URL", redact_url (public_app_url cfg));
   ("PUBLIC_API_URL", shown "unset" redact_url (public_api_url cfg));
   ("EMAIL_FROM_ADDRESS", email_from_address cfg);
   ("RESEND_API_KEY", set (negb (is_empty (resend_api_key cfg))));
   ("MASTER_KEY", set true);
   ("MASTER_KEY_NEXT", set (bool_decide (is_Some (master_key_next cfg))));
   ("JWT_SECRET", set (negb (bool_decide (jwt_secret cfg = []))));
   ("AUDIT_CHAIN_KEY", set true);
   ("Ingest", "interval=" +:+ print_dec (ingest_interval_secs cfg) +:+ "s page_limit=" +:+ print_dec (ingest_page_limit cfg) +:+ " lock_retry="
              +:+ print_dec (ingest_lock_retry cfg) +:+ "s");
   ("SHUTDOWN_DRAIN_TIMEOUT_SECS", print_dec (shutdown_drain_timeout cfg));
   ("Horizon resilience", "attempts=" +:+ print_dec (Resilience.cfg_max_attempts r) +:+ " delay=" +:+ print_dec (Resilience.cfg_base_delay_ms r)
              +:+ ".." +:+ print_dec (Resilience.cfg_max_delay_ms r) +:+ "ms breaker=" +:+ print_dec (Resilience.cb_failure_threshold r)
              +:+ " failures/" +:+ print_dec (Resilience.cb_reset_timeout_secs r) +:+ "s");
   ("METRICS_BIND_ADDR", match metrics cfg with Some m => socket_string (me_bind_addr m) | None => "unset (disabled)" end);
   ("METRICS_TOKEN", set match metrics cfg with Some m => bool_decide (is_Some (me_token m)) | None => false end);
   ("OTEL_EXPORTER_OTLP_ENDPOINT", shown "unset (disabled)" redact_url (te_endpoint telemetry));
   ("OTEL_EXPORTER_OTLP_HEADERS", print_dec (Z.of_nat (length (te_headers telemetry))) +:+ " set")].

(** ** What a configuration that was read satisfies *)

Lemma and_then_ok {A B} (m : Boot A) (k : A -> Boot B) env b env' :
  and_then m k env = (Ok b, env') -> exists a env1, m env = (Ok a, env1) /\ k a env1 = (Ok b, env').
Proof. unfold and_then. destruct (m env) as [[a|e] env1]; [|done]. intros E. by exists a, env1. Qed.

Lemma reads_then_ok {A B} (f : Env -> result A ConfigError) (k : A -> Boot B) env b env' :
  and_then (reads f) k env = (Ok b, env') -> exists a, f env = Ok a /\ k a env = (Ok b, env').
Proof. intros (a & env1 & [= E <-] & H)%and_then_ok. by exists a. Qed.

Lemma pure_then_ok {A B} (r : result A ConfigError) (k : A -> Boot B) env b env' :
  and_then (pure r) k env = (Ok b, env') -> exists a, r = Ok a /\ k a env = (Ok b, env').
Proof. intros (a & env1 & [= E <-] & H)%and_then_ok. by exists a. Qed.

(** Walks through a reading that succeeded. *)
Ltac boot H :=
  repeat first
    [ let a := fresh "v" in let E := fresh "E" in apply pure_then_ok in H as (a & E & H); cbv beta in H
    | let a := fresh "v" in let E := fresh "E" in apply reads_then_ok in H as (a & E & H); cbv beta in H
    | let a := fresh "v" in let e := fresh "env" in let E := fresh "E" in apply and_then_ok in H as (a & e & E & H); cbv beta in H
    | progress cbv zeta in H ].

Section Read.
Variable debug : string -> string.
Variable b64 : MigrateKeys.Base64Decode.

Lemma take_key_ok name env key env' :
  take_key_from_env b64 name env = (Ok key, env') -> env' = delete name env /\ forall k, key = Some k -> length k = MASTER_KEY_LEN.
Proof.
  unfold take_key_from_env, env_var. destruct (env !! name) as [[raw|]|] eqn:Ev; [|done|].
  - unfold decode_master_key. destruct (b64 (trim raw)) as [k|]; [|done]. cbn [mbind option_bind]. destruct (48 <? length k)%nat; [done|].
    destruct (Nat.eqb_spec (length k) MASTER_KEY_LEN); [|done]. intros [= <- <-]. split; [done|]. by intros k' [= <-].
  - intros [= <- <-]. split; [|done]. symmetry. by apply (delete_id (M := gmap string)).
Qed.

Lemma take_audit_key_ok env key env' :
  audit_chain_key_from_env b64 env = (Ok key, env') -> env' = delete "AUDIT_CHAIN_KEY" env /\ length key = MASTER_KEY_LEN.
Proof.
  unfold audit_chain_key_from_env. intros (k & env1 & E & H)%and_then_ok. apply take_key_ok in E as [-> Hk].
  destruct k as [k|]; [|done]. injection H as <- <-. split; [done|by apply Hk].
Qed.

(** A listener that others can reach asks for a token of at least 32 bytes. *)
Definition guarded (m : MetricsConfig) : Prop :=
  (is_loopback (sa_ip (me_bind_addr m)) = true \/ is_Some (me_token m)) /\ forall t, me_token m = Some t -> MIN_TOKEN_LEN <= slen t.

Lemma metrics_ok env m env' :
  MetricsConfig_from_env debug env = (Ok m, env') ->
  env' = match m with Some _ => delete "METRICS_TOKEN" env | None => env end /\ forall c, m = Some c -> guarded c.
Proof.
  unfold MetricsConfig_from_env. destruct (is_empty (trim _)); [by intros [= <- <-]|].
  destruct (parse_socket_addr _) as [a|]; [|done]. set (tok := match env_ok env "METRICS_TOKEN" with Some t => _ | None => _ end).
  cbv zeta. destruct (match tok with Some t => slen t <? MIN_TOKEN_LEN | None => false end) eqn:El; [done|].
  destruct (negb (is_loopback (sa_ip a)) && _) eqn:Eg; [done|]. intros [= <- <-]. split; [done|].
  intros c [= <-]. unfold guarded. cbn [me_bind_addr me_token]. destruct tok as [t|].
  - apply Z.ltb_ge in El. split; [by right; eexists|]. by intros t' [= <-].
  - split; [|done]. left. by destruct (is_loopback (sa_ip a)).
Qed.

Record sound (cfg : Config) : Prop := mkSound {
  master_key_full : length (master_key cfg) = MASTER_KEY_LEN;
  next_key_full : forall k, master_key_next cfg = Some k -> length k = MASTER_KEY_LEN;
  audit_key_full : length (audit_chain_key cfg) = MASTER_KEY_LEN;
  jwt_secret_long : (16 <= length (jwt_secret cfg))%nat;
  policy_valid : exists age percentile ceiling, Fees.SigningPolicy_new age percentile ceiling = Ok (signing_policy cfg);
  lock_retry_positive : 1 <= ingest_lock_retry cfg;
  metrics_guarded : forall m, metrics cfg = Some m -> guarded m
}.

(** The variables that are gone once the configuration was read. *)
Definition scrubbed (metrics : option MetricsConfig) (env : Env) : Env :=
  let env := delete "AUDIT_CHAIN_KEY" (delete "MASTER_KEY_NEXT" (delete "MASTER_KEY" env)) in
  match metrics with Some _ => delete "METRICS_TOKEN" env | None => env end.

Lemma config_read env cfg env' :
  Config_from_env debug b64 env = (Ok cfg, env') -> sound cfg /\ env' = scrubbed (metrics cfg) env.
Proof.
  intros H. unfold Config_from_env, required, with_default, parse_env_or, lenient, rate_limit_backend_from_env, lock_retry_from_env,
    run_migrations_from_env in H. boot H. injection H as <- <-.
  repeat match goal with
         | E : take_key_from_env _ _ _ = (Ok _, _) |- _ => apply take_key_ok in E as [-> ?]
         | E : audit_chain_key_from_env _ _ = (Ok _, _) |- _ => apply take_audit_key_ok in E as [-> ?]
         | E : MetricsConfig_from_env _ _ = (Ok _, _) |- _ => apply metrics_ok in E as [-> ?]
         | E : ok_or ?o _ = Ok _ |- _ => destruct o eqn:?; [injection E as ->|discriminate E]
         | E : map_err _ ?r = Ok _ |- _ => destruct r eqn:?; [injection E as ->|discriminate E]
         end.
  split; [split; cbn|done]; auto.
  - match goal with E : (if (_ <? 16)%nat then _ else _) = Ok _ |- _ => destruct (Nat.ltb_spec (length (bytes_of v13)) 16) in E; [done|lia] end.
  - by eexists _, _, _.
  - match goal with E : match env_var "INGEST_LOCK_RETRY_SECS" _ with _ => _ end = _ |- _ => revert E end.
    destruct (env_var "INGEST_LOCK_RETRY_SECS" _); [|by intros [= <-]]. destruct (parse_u64 _) as [n|]; [|done].
    destruct (Z.leb_spec 1 n); [by intros [= <-]|done].
Qed.
End Read.

(** ** What the summary shows *)

Record Url := mkUrl {
  u_scheme : string;
  u_creds : option string;
  u_host : string;
  u_path : option string;
  u_tail : option (ascii * string)
}.

Definition url_text (u : Url) : string :=
  u_scheme u +:+ "://" +:+ match u_creds u with Some c => c +:+ "@" | None => "" end +:+ u_host u +:+
  match u_path u with Some p => String "/" p | None => "" end +:+ match u_tail u with Some (c, t) => String c t | None => "" end.

Definition lacks (cs : list ascii) (s : string) : Prop := str_forall (fun c => negb (bool_decide (c ∈ cs))) s = true.

(** The parts hold no delimiter of a part after them; a tail is a query or a fragment. *)
Record url_ok (u : Url) : Prop := mkUrlOk {
  scheme_ok : lacks [":"%char] (u_scheme u);
  creds_ok : forall c, u_creds u = Some c -> lacks ["/"; "?"; "#"]%char c;
  host_ok : lacks ["/"; "?"; "#"; "@"]%char (u_host u);
  path_ok : forall p, u_path u = Some p -> lacks ["?"; "#"]%char p;
  tail_ok : forall c t, u_tail u = Some (c, t) -> query_or_fragment c = true
}.

Lemma lacks_app cs a b : lacks cs (a +:+ b) <-> lacks cs a /\ lacks cs b.
Proof. unfold lacks. by rewrite str_forall_app, andb_true_iff. Qed.

Lemma lacks_incl cs cs' s : (forall c, c ∈ cs' -> c ∈ cs) -> lacks cs s -> lacks cs' s.
Proof.
  intros Hi. unfold lacks. induction s as [|c s IH]; [done|]. cbn. rewrite !andb_true_iff, !negb_true_iff, !bool_decide_eq_false.
  intros [Hc Hs]. split; [|by apply IH]. intros Hin. by apply Hc, Hi.
Qed.

Lemma split_scheme_text s r : lacks [":"%char] s -> split_scheme (s +:+ "://" +:+ r) = Some (s, r).
Proof.
  induction s as [|c s IH]; [done|]. intros [Hc Hs]%andb_true_iff.
  change (String c s +:+ "://" +:+ r) with (String c (s +:+ "://" +:+ r)). cbn [split_scheme strip_prefix].
  destruct (bool_decide (":"%char = c)) eqn:Ec; [apply bool_decide_eq_true in Ec; by subst c|]. by rewrite IH.
Qed.

Lemma before_text p a b : str_forall (fun c => negb (p c)) a = true -> match b with String c _ => p c = true | EmptyString => True end -> before p (a +:+ b) = a.
Proof.
  intros Ha Hb. induction a as [|c a IH].
  - destruct b as [|c b]; [done|]. cbn. by rewrite Hb.
  - apply andb_true_iff in Ha as [Hc Ha]. change (String c a +:+ b) with (String c (a +:+ b)). cbn. apply negb_true_iff in Hc. rewrite Hc, IH; done.
Qed.

Lemma rsplit_none c s : lacks [c] s -> rsplit_once c s = None.
Proof.
  induction s as [|d s IH]; [done|]. intros [Hd Hs]%andb_true_iff. cbn. rewrite IH by done.
  apply negb_true_iff, bool_decide_eq_false in Hd. rewrite bool_decide_eq_false_2; [done|]. intros ->. apply Hd. left.
Qed.

Lemma rsplit_text c a b : lacks [c] b -> rsplit_once c (a +:+ String c b) = Some (a, b).
Proof.
  intros Hb. induction a as [|d a IH].
  - cbn. rewrite rsplit_none by done. by rewrite bool_decide_eq_true_2.
  - change (String d a +:+ String c b) with (String d (a +:+ String c b)). cbn. by rewrite IH.
Qed.

Lemma split_once_lacking c s : lacks [c] s -> split_once c s = None.
Proof.
  induction s as [|d s IH]; [done|]. intros [Hd Hs]%andb_true_iff. cbn. rewrite IH by done.
  apply negb_true_iff, bool_decide_eq_false in Hd. rewrite bool_decide_eq_false_2; [done|]. intros ->. apply Hd. left.
Qed.

Lemma split_once_text c a b : lacks [c] a -> split_once c (a +:+ String c b) = Some (a, b).
Proof.
  intros Ha. apply split_once_Some. split; [done|]. revert Ha. apply str_forall_impl. intros d Hd%negb_true_iff.
  apply bool_decide_eq_false in Hd. apply bool_decide_eq_true. intros ->. apply Hd. left.
Qed.

(** The URL as the summary prints it. *)
Definition redacted (u : Url) : Url :=
  mkUrl (u_scheme u) (option_map (fun _ => "***") (u_creds u)) (u_host u)
    match u_path u with Some p => if is_empty p then None else Some p | None => None end None.

Definition creds_text (u : Url) : string := match u_creds u with Some c => c +:+ "@" | None => "" end.

Lemma authority_lacks u : url_ok u -> lacks ["/"; "?"; "#"]%char (creds_text u +:+ u_host u).
Proof.
  intros [_ Hc Hh _ _]. apply lacks_app. split; [|revert Hh; apply lacks_incl; set_solver]. unfold creds_text.
  destruct (u_creds u) as [c|]; [|done]. apply lacks_app. split; [by apply Hc|done].
Qed.

Lemma rsplit_authority u : url_ok u ->
  rsplit_once "@" (creds_text u +:+ u_host u) = option_map (fun c => (c, u_host u)) (u_creds u).
Proof.
  intros [_ _ Hh _ _]. assert (Hat : lacks ["@"%char] (u_host u)) by (revert Hh; apply lacks_incl; set_solver). unfold creds_text.
  destruct (u_creds u) as [c|]; cbn [option_map]; [|by apply rsplit_none]. rewrite <- str_app_assoc. by apply rsplit_text.
Qed.

Lemma redact_exact u : url_ok u -> redact_url (url_text u) = url_text (redacted u).
Proof.
  intros Hu. pose proof (authority_lacks u Hu) as Ha. pose proof (rsplit_authority u Hu) as Hr. destruct Hu as [Hs Hc Hh Hp Ht].
  unfold redact_url, url_text at 1. fold (creds_text u). rewrite split_scheme_text by done.
  set (pt := match u_path u with Some p => String "/" p | None => "" end).
  assert (Hpt : lacks ["?"; "#"]%char pt) by (unfold pt; destruct (u_path u) as [p|]; [by apply (Hp p)|done]).
  replace (creds_text u +:+ u_host u +:+ pt +:+ _)
    with (((creds_text u +:+ u_host u) +:+ pt) +:+ match u_tail u with Some (c, t) => String c t | None => "" end)
    by (by rewrite <- !str_app_assoc).
  rewrite before_text; cycle 1.
  { assert (Hl : lacks ["?"; "#"]%char ((creds_text u +:+ u_host u) +:+ pt)).
    { apply lacks_app. split; [|done]. revert Ha. apply lacks_incl. set_solver. }
    revert Hl. apply str_forall_impl. intros c Hl%negb_true_iff. apply bool_decide_eq_false in Hl. apply negb_true_iff. unfold query_or_fragment.
    rewrite !bool_decide_eq_false_2 by (intros ->; apply Hl; set_solver). done. }
  { destruct (u_tail u) as [[c t]|]; [by eapply Ht|done]. }
  assert (Hsl : lacks ["/"%char] (creds_text u +:+ u_host u)) by (revert Ha; apply lacks_incl; set_solver).
  unfold pt, redacted, url_text. cbn [u_scheme u_creds u_host u_path u_tail]. destruct (u_path u) as [p|].
  - rewrite split_once_text by done. rewrite Hr. unfold creds_text. destruct (u_creds u), (is_empty p); cbn [option_map]; rewrite ?str_app_empty_r; done.
  - rewrite str_app_empty_r, split_once_lacking by done. rewrite Hr. unfold creds_text. destruct (u_creds u); cbn [option_map is_empty]; rewrite ?str_app_empty_r; done.
Qed.

(** Two texts that differ at most in the credentials, the query and the fragment of a URL. *)
Inductive like_url : string -> string -> Prop :=
| like_same s : like_url s s
| like_parts u u' : url_ok u -> url_ok u' -> redacted u = redacted u' -> like_url (url_text u) (url_text u').

Lemma like_url_redacts s s' : like_url s s' -> redact_url s = redact_url s'.
Proof. intros [t|u u' Hu Hu' E]; [done|]. by rewrite !redact_exact, E. Qed.

Definition like_opt_url (a b : option string) : Prop :=
  match a, b with Some s, Some s' => like_url s s' | None, None => True | _, _ => False end.

(** Two configurations that differ at most in secrets: the keys, the tokens and the values of the
    export headers themselves, and the credentials and queries within URLs. *)
Record alike (cfg cfg' : Config) (t t' : TelemetryConfig) : Prop := mkAlike {
  like_database : like_url (database_url cfg) (database_url cfg');
  like_store : store cfg = store cfg';
  like_backend : rate_limit_backend cfg = rate_limit_backend cfg';
  like_network : network cfg = network cfg';
  like_horizon : like_url (horizon_url cfg) (horizon_url cfg');
  like_friendbot : like_opt_url (friendbot_url cfg) (friendbot_url cfg');
  like_app : like_url (public_app_url cfg) (public_app_url cfg');
  like_api : like_opt_url (public_api_url cfg) (public_api_url cfg');
  like_resend : resend_api_key cfg = "" <-> resend_api_key cfg' = "";
  like_from : email_from_address cfg = email_from_address cfg';
  like_next : master_key_next cfg = None <-> master_key_next cfg' = None;
  like_jwt : jwt_secret cfg = [] <-> jwt_secret cfg' = [];
  like_bind : bind_addr cfg = bind_addr cfg';
  like_interval : ingest_interval_secs cfg = ingest_interval_secs cfg';
  like_page : ingest_page_limit cfg = ingest_page_limit cfg';
  like_retry : ingest_lock_retry cfg = ingest_lock_retry cfg';
  like_drain : shutdown_drain_timeout cfg = shutdown_drain_timeout cfg';
  like_migrations : run_migrations cfg = run_migrations cfg';
  like_metrics : option_map (fun m => (me_bind_addr m, bool_decide (is_Some (me_token m)))) (metrics cfg) =
                 option_map (fun m => (me_bind_addr m, bool_decide (is_Some (me_token m)))) (metrics cfg');
  like_resilience : resilience cfg = resilience cfg';
  like_endpoint : like_opt_url (te_endpoint t) (te_endpoint t');
  like_headers : map fst (te_headers t) = map fst (te_headers t')
}.

Lemma shown_alike a b d : like_opt_url a b ->
  match a with Some v => redact_url v | None => d end = match b with Some v => redact_url v | None => d end.
Proof. destruct a, b; cbn; [apply like_url_redacts|done..]. Qed.

Lemma is_empty_iff a b : (a = "" <-> b = "") -> is_empty a = is_empty b.
Proof. destruct a, b; cbn; try done; intros [H1 H2]; [by discriminate H1|by discriminate H2]. Qed.

(** The configuration report shows no secret. The summary that [--check-config] prints is the same
    for any two configurations that differ only in secrets: the key material, the mail key, the token
    secret, the metrics token and the values of the export headers, and the credentials, queries and
    fragments of the database, Horizon, friendbot, application, API and collector URLs. *)
Lemma summary_hides_secrets cfg cfg' t t' : alike cfg cfg' t t' -> Summary_new cfg t = Summary_new cfg' t'.
Proof.
  intros [Hdb Hst Hrl Hnet Hho Hfr Hap Hapi Hre Hfrom Hnext Hjwt Hbind Hint Hpage Hretry Hdrain Hmig Hmet Hres Hend Hhead].
  unfold Summary_new. rewrite Hst, Hrl, Hnet, Hfrom, Hbind, Hint, Hpage, Hretry, Hdrain, Hmig, Hres.
  rewrite (like_url_redacts _ _ Hdb), (like_url_redacts _ _ Hho), (like_url_redacts _ _ Hap), (is_empty_iff _ _ Hre).
  rewrite (shown_alike _ _ "unset" Hfr), (shown_alike _ _ "unset" Hapi), (shown_alike _ _ "unset (disabled)" Hend).
  rewrite (bool_decide_ext _ _ Hjwt), <- (length_map fst (te_headers t)), Hhead, length_map.
  assert (Ek : bool_decide (is_Some (master_key_next cfg)) = bool_decide (is_Some (master_key_next cfg'))).
  { apply bool_decide_ext. rewrite <- !not_eq_None_Some. by rewrite Hnext. }
  rewrite Ek. destruct (metrics cfg) as [m|], (metrics cfg') as [m'|]; try done. injection Hmet as Ea Et. by rewrite Ea, Et.
Qed.

(** ** A configuration with two sets of secrets *)

Definition demo_database (password : string) : Url :=
  mkUrl "postgres" (Some ("octo:" +:+ password)) "db:5432" (Some "octo") (Some ("?"%char, "sslmode=require&password=" +:+ password)).

Definition demo_config (password : string) (key : bytes) (token : string) : Config :=
  mkConfig (url_text (demo_database password)) Wallets.StoreConfig_default RateLimit.Postgres Testnet "https://horizon.example"
    Fees.SigningPolicy_default None "http://localhost:3000" None token "noreply@octo.dev" key (Some key) (bytes_of token) key "0.0.0.0:8080"
    5 50 5 25 true (Some (mkMetricsConfig (mkSocketAddr (Net.V4 (Net.v4 10 0 0 1)) 0 9100) (Some token))) Resilience.ResilienceConfig_default.

Definition demo_telemetry (value : string) : TelemetryConfig := mkTelemetryConfig None "octo-server" [("x-api-key", value)] (of_Z 1).

Lemma demo_database_ok password : lacks ["/"; "?"; "#"]%char password -> url_ok (demo_database password).
Proof. intros Hp. split; [done|by intros c [= <-]; apply (lacks_app _ "octo:")|done|by intros c [= <-]|by intros c t [= <- _]]. Qed.

Lemma summary_hides_secrets_witness :
  let a := demo_config "hunter2" (repeat 1 32) "first token" in
  let b := demo_config "swordfish" (repeat 2 32) "second token" in
  url_text (demo_database "hunter2") = "postgres://octo:hunter2@db:5432/octo?sslmode=require&password=hunter2" /\
  List.find (fun p => String.eqb (fst p) "DATABASE_URL") (Summary_new a (demo_telemetry "x")) = Some ("DATABASE_URL", "postgres://***@db:5432/octo") /\
  Summary_new a (demo_telemetry "x") = Summary_new b (demo_telemetry "y").
Proof.
  cbv zeta. split; [vm_compute; reflexivity|]. split; [vm_compute; reflexivity|].
  apply (summary_hides_secrets (demo_config "hunter2" (repeat 1 32) "first token") (demo_config "swordfish" (repeat 2 32) "second token")
    (demo_telemetry "x") (demo_telemetry "y")).
  split; try reflexivity; try apply like_same; try exact I; try (split; discriminate).
  apply like_parts; [apply demo_database_ok; reflexivity|apply demo_database_ok; reflexivity|reflexivity].
Defined.

(** A slash that is not escaped in a password ends the authority: the rest of the password, and the host, are shown as the path. *)
Example slash_in_password_shown : redact_url "postgres://octo:p/ssw0rd@db:5432/octo" = "postgres://octo:p/ssw0rd@db:5432/octo".
Proof. vm_compute. reflexivity. Qed.
End ServerConfig.
