(* ===== verification/ServerBoot.v ===== *)
(** * Starting the server

    [bin/server/src/main.rs] ([Command], [serve] up to the listeners, the metrics listener's check,
    [verify_audit_chain]), [bin/server/src/check_config.rs] ([run]) and
    [crates/api/src/self_test.rs]. Connecting, migrating and binding sockets are the operating
    system's and the driver's: their outcomes come from [Host]. The tasks that [serve] spawns are
    listed; what they do is modelled by the components they belong to. *)

From S2P Require Import Prelude Float64 Resilience Db Moments Store RateLimit AuditChain AuditLog Users Account Paging Wallets HorizonIngest ApiHorizon Fees Crypto Signer Submit Net MigrateKeys LinkRoutes ServerConfig.

Module ServerBoot.
Import Db Runs Moments.
Import Store (Uuid, Wallet, w_id, w_stellar_account_g, w_gas_tank_account_g, w_sealed_ciphertext, w_sealed_nonce, w_sealed_salt, w_sealed_scheme).
Import Crypto (bytes, Aead, CryptoError, SealedSeed, open_with_account_id, from_parts_with_scheme, all_zero).
Import Signer (StellarNetwork(..), crypto_context, as_str).
Import Users (UuidText, parse_uuid).
Import Net (UrlParser, url_host).
Import LinkRoutes (UrlScheme, url_scheme).
Import ServerConfig.
Local Open Scope db_scope.

#[local] Existing Instance Account.core_part.

(** ** What this invocation does *)

Record VerifyConfig := mkVerifyConfig { vc_database_url : string; vc_audit_chain_key : bytes; vc_user : option Uuid }.

Inductive Command :=
| MigrateOnly (database_url : string)
| VerifyAuditChain (cfg : VerifyConfig)
| CheckConfig (cfg : Config) (summary : list (string * string))
| Serve (cfg : Config)
| ExitUnsafe (problems : list string).

Section Commands.
Context `{Log2} `{UuidText}.
Variable debug : string -> string.
Variable b64 : MigrateKeys.Base64Decode.
(** [std::env::args()]; the first is the program. *)
Variable args : list string.
Local Open Scope boot_scope.

Definition user_argument : result (option Uuid) ConfigError :=
  match nth_error (MigrateKeys.skip_to "--user" args) 1 with
  | None => Ok None
  | Some v => let? u := ok_or (parse_uuid v) (Message "--user must be a UUID") in Ok (Some u)
  end.

Definition VerifyConfig_from_env : Boot VerifyConfig :=
  read database_url <- required "DATABASE_URL" "DATABASE_URL is required";
  read key <- audit_chain_key_from_env b64;
  read user <- pure user_argument;
  pure (Ok (mkVerifyConfig database_url key user)).

Definition Command_from_env (telemetry : TelemetryConfig) : Boot Command :=
  let arg := default "" (nth_error args 1) in
  if bool_decide (arg = "--migrate-only") then
    read database_url <- required "DATABASE_URL" "DATABASE_URL is required"; pure (Ok (MigrateOnly database_url))
  else if bool_decide (arg = "verify-audit-chain") then
    read cfg <- VerifyConfig_from_env; pure (Ok (VerifyAuditChain cfg))
  else if bool_decide (arg = "--check-config") then
    read cfg <- Config_from_env debug b64; pure (Ok (CheckConfig cfg (Summary_new cfg telemetry)))
  else
    read cfg <- Config_from_env debug b64;
    pure (Ok match ensure_safe_for_network cfg with Ok _ => Serve cfg | Err problems => ExitUnsafe problems end).
End Commands.

(** ** [--check-config] *)

(** The database as the checks meet it: no connection, or the answers to a ping and to the count of
    pending migrations. *)
Definition Probe : Type := result (result unit string * result Z string) string.

Definition migrations_outcome (run_migrations : bool) (pending : result Z string) : result string string :=
  match pending with
  | Ok n => if n =? 0 then Ok "up to date" else
            if run_migrations then Ok (print_dec n +:+ " pending (applied on startup)")
            else Err (print_dec n +:+ " pending and RUN_MIGRATIONS=false")
  | Err e => Err ("cannot read: " +:+ e)
  end.

Definition join_problems (problems : list string) : string :=
  "refusing to start on mainnet with an unsafe configuration: " +:+ String.concat "; " problems.

Definition checks `{Log2} (cfg : Config) (probe : Probe) : list (string * result string string) :=
  ("network safety", match ensure_safe_for_network cfg with
                     | Ok _ => Ok ("safe for " +:+ as_str (network cfg))
                     | Err problems => Err (join_problems problems)
                     end) ::
  match probe with
  | Err e => [("database", Err ("cannot connect: " +:+ e))]
  | Ok (ping, pending) =>
      [("database", match ping with Ok _ => Ok "connected" | Err e => Err e end);
       ("migrations", migrations_outcome (run_migrations cfg) pending)]
  end.

Definition check_config_run `{Log2} (cfg : Config) (probe : Probe) : result unit string :=
  let failed := length (List.filter (fun c => negb (is_ok (snd c))) (checks cfg probe)) in
  if (0 <? failed)%nat then Err (print_dec (Z.of_nat failed) +:+ " configuration check(s) failed") else Ok tt.

(** ** The self-test of the keys *)

Inductive BootError :=
| KeyFailed (name : string) (e : CryptoError)
| SealedUnread (e : StoreError)
| SealedIncomplete (id : Uuid)
| SealedScheme (id : Uuid)
| SealedMalformed (id : Uuid) (e : CryptoError)
| CannotOpen (id : Uuid)
| ConnectFailed
| MigrateFailed
| BadApiUrl (m : string)
| BindFailed (addr : string).

(** The entropy source: the canaries of a test, the salt and the nonce of its seal; and the system's
    answers when the server connects, migrates and binds. *)
Class Host (X : Type) := {
  canaries : X -> option (bytes * bytes) * X;
  seal_randomness : X -> (bytes * bytes) * X;
  connects : string -> X -> bool * X;
  migrates : X -> bool * X;
  binds : string -> X -> bool * X
}.

(** What of [AppState] the test reads. *)
Definition opening_keys (cfg : Config) : list bytes :=
  match master_key_next cfg with Some next => [next; master_key cfg] | None => [master_key cfg] end.

Section Start.
Context `{Aead} `{UrlParser} `{UrlScheme}.
Context {X : Type} `{Host X}.
Variable tie : Wallet -> Z.
Notation M := (M Account.Db X).

(** The random bytes are drawn before the test rather than in the course of it. *)
Definition self_test (name : string) (key : bytes) : M (result unit BootError) :=
  do draws <- ext_call canaries;
  do salt_nonce <- ext_call seal_randomness;
  ret (map_err (KeyFailed name) (Crypto.self_test draws (fst salt_nonce) (snd salt_nonce) key)).

Definition account_id_of (w : Wallet) : string := default (w_stellar_account_g w) (w_gas_tank_account_g w).

Definition sealed_of (w : Wallet) : result SealedSeed BootError :=
  match w_sealed_ciphertext w, w_sealed_nonce w, w_sealed_salt w, w_sealed_scheme w with
  | Some ciphertext, Some nonce, Some salt, Some scheme =>
      if negb (in_range 0 255 scheme) then Err (SealedScheme (w_id w)) else
      map_err (SealedMalformed (w_id w)) (from_parts_with_scheme ciphertext nonce salt scheme)
  | _, _, _, _ => Err (SealedIncomplete (w_id w))
  end.

Definition opens (cfg : Config) (w : Wallet) (sealed : SealedSeed) : bool :=
  existsb (fun key => is_ok (open_with_account_id key sealed (crypto_context (network cfg)) (account_id_of w))) (opening_keys cfg).

Definition open_latest_sealed_row (cfg : Config) : M (result unit BootError) :=
  try wallet <- part_query (fun _ s => Wallets.latest_sealed_wallet tie (as_str (network cfg)) s) | (fun e => SealedUnread (from_sqlx e));
  match wallet with
  | None => ret (Ok tt)
  | Some w =>
      try sealed <- ret (sealed_of w) | (fun e => e);
      ret (if opens cfg w sealed then Ok tt else Err (CannotOpen (w_id w)))
  end.

Definition self_test_run (cfg : Config) : M (result unit BootError) :=
  try _ <- self_test "MASTER_KEY" (master_key cfg) | (fun e => e);
  try _ <- match master_key_next cfg with Some next => self_test "MASTER_KEY_NEXT" next | None => ret (Ok tt) end | (fun e => e);
  open_latest_sealed_row cfg.

(** ** [serve] *)

Definition api_host (url : option string) : result (option string) BootError :=
  match url with
  | None => Ok None
  | Some u =>
      match url_scheme u with
      | None => Err (BadApiUrl "PUBLIC_API_URL must be an absolute URL")
      | Some scheme =>
          if negb (bool_decide (scheme = "http") || bool_decide (scheme = "https")) then Err (BadApiUrl "PUBLIC_API_URL must use http or https") else
          match url_host u with
          | Some (Some host) => Ok (Some (to_ascii_lowercase host))
          | _ => Err (BadApiUrl "PUBLIC_API_URL must include a hostname")
          end
      end
  end.

(** What runs from then on; periods in seconds. *)
Inductive Task :=
| IngestSupervisor (network : string) (interval page_limit lock_retry : Z)
| PruneRateLimits (backend : RateLimit.RateLimitBackend) (every : Z)
| ReconcileSponsorships (every older_than : Z)
| ReconcileWithdrawals
| PurgeExpired (every : Z)
| MetricsListener (cfg : MetricsConfig)
| ApiListener (addr : string) (public_api_host : option string).

Definition check_bind (addr : string) : M (result unit BootError) :=
  do ok <- ext_call (binds addr); ret (if ok then Ok tt else Err (BindFailed addr)).

Definition start (cfg : Config) : M (result (list Task) BootError) :=
  do connected <- ext_call (connects (database_url cfg));
  if negb connected then ret (Err ConnectFailed) else
  do migrated <- (if run_migrations cfg then ext_call migrates else ret true);
  if negb migrated then ret (Err MigrateFailed) else
  try host <- ret (api_host (public_api_url cfg)) | (fun e => e);
  try _ <- self_test_run cfg | (fun e => e);
  let background :=
    [IngestSupervisor (as_str (network cfg)) (ingest_interval_secs cfg) (ingest_page_limit cfg) (ingest_lock_retry cfg);
     PruneRateLimits (rate_limit_backend cfg) 60; ReconcileSponsorships 60 300; ReconcileWithdrawals; PurgeExpired (60 * 60)] in
  try listeners <- match metrics cfg with
                   | Some m => try _ <- check_bind (socket_string (me_bind_addr m)) | (fun e => e); ret (Ok [MetricsListener m])
                   | None => ret (Ok [])
                   end | (fun e => e);
  try _ <- check_bind (bind_addr cfg) | (fun e => e);
  ret (Ok (background ++ listeners ++ [ApiListener (bind_addr cfg) host])).
End Start.

(** ** The metrics listener *)

(** [a.len() == b.len() && fold(|acc, (x, y)| acc | (x ^ y)) == 0] *)
Definition constant_time_eq (a b : bytes) : bool :=
  (length a =? length b)%nat && (fold_left (fun acc p => Z.lor acc (Z.lxor (fst p) (snd p))) (combine a b) 0 =? 0).

(** Whether a scrape with this [Authorization] header is answered. *)
Definition metrics_allowed (token authorization : option string) : bool :=
  match token with
  | None => true
  | Some expected =>
      let presented := default "" (let* v := authorization in strip_prefix "Bearer " v) in
      constant_time_eq (bytes_of presented) (bytes_of expected)
  end.

(** ** [verify-audit-chain] *)

(** The exit status of the command for its reports: how many of how many are broken. *)
Definition verify_verdict (reports : list AuditChain.AuditChainReport) : result unit (Z * Z) :=
  let broken := length (List.filter (fun r => match AuditChain.r_status r with AuditChain.Broken _ _ => true | _ => false end) reports) in
  if (0 <? broken)%nat then Err (Z.of_nat broken, Z.of_nat (length reports)) else Ok tt.

(** ** What a server that listens has checked *)

Section Guard.
Context `{lg : Log2}.

Definition secret_ok (b : bytes) : Prop := is_placeholder b = false /\ Float64.ltb (estimated_entropy_bits b) MIN_ENTROPY_BITS = false.

Record mainnet_safe (c : MainnetCheck) : Prop := mkMainnetSafe {
  jwt_long : MAINNET_MIN_JWT_SECRET_LEN <= Z.of_nat (length (mc_jwt_secret c));
  jwt_strong : secret_ok (mc_jwt_secret c);
  master_strong : is_weak_key (mc_master_key c) = false;
  next_strong : forall k, mc_master_key_next c = Some k -> is_weak_key k = false /\ k <> mc_master_key c;
  resend_real : is_placeholder (bytes_of (mc_resend_api_key c)) = false;
  horizon_https : is_https (mc_horizon_url c) = true;
  app_https : is_https (mc_public_app_url c) = true;
  api_https : forall u, mc_public_api_url c = Some u -> is_https u = true
}.

Lemma problem_nil b m : problem b m = [] <-> b = false.
Proof. by destruct b. Qed.

Lemma check_exact c : check Public c = Ok tt <-> mainnet_safe c.
Proof.
  unfold check. rewrite bool_decide_eq_true_2 by done. cbn [negb]. cbv zeta.
  match goal with |- match ?l with _ => _ end = _ <-> _ => assert (Hl : match l with [] => Ok tt | _ :: _ => Err l end = Ok tt <-> l = []) by (by destruct l) end.
  rewrite Hl. clear Hl. rewrite !app_nil, !problem_nil. split.
  - intros (H1 & H2 & H3 & H4 & H5 & H6 & H7 & H8 & H9). split; [by apply Z.ltb_ge|done|done| |done|by apply negb_false_iff|by apply negb_false_iff|].
    + intros k E. rewrite E, app_nil, !problem_nil, bool_decide_eq_false in H5. done.
    + intros u E. rewrite E in H9. by apply negb_false_iff.
  - intros [H1 [H2 H2'] H3 H4 H5 H6 H7 H8]. rewrite H6, H7. split_and!; try done; [by apply Z.ltb_ge| |].
    + destruct (mc_master_key_next c) as [k|]; [|done]. rewrite app_nil, !problem_nil, bool_decide_eq_false. by apply H4.
    + destruct (mc_public_api_url c) as [u|]; [|done]. by rewrite H8.
Qed.

(** A key of one repeated byte, or of bytes in a constant step, never passes. *)
Lemma arithmetic_weak (a step : Z) (n : nat) :
  is_weak_key (map (fun i => (a + step * Z.of_nat i) mod 256) (seq 0 (S (S n)))) = true.
Proof.
  unfold is_weak_key. apply orb_true_iff. left. apply forallb_forall.
  assert (Hs : forall m i, forall w, In w (windows (map (fun i => (a + step * Z.of_nat i) mod 256) (seq i m))) ->
    wrapping_sub (snd w) (fst w) = step mod 256).
  { induction m as [|m IH]; [done|]. intros i w. destruct m as [|m]; [done|]. cbn [seq map windows]. intros [<-|Hw].
    - cbn [fst snd]. unfold wrapping_sub. rewrite <- Zminus_mod. f_equal. lia.
    - by apply (IH (S i)). }
  intros w Hw. rewrite (Hs _ _ _ Hw). apply Z.eqb_eq. symmetry. cbn [seq map nth]. unfold wrapping_sub. rewrite <- Zminus_mod. f_equal. lia.
Qed.
End Guard.

Section Gate.
Context `{lg : Log2} `{ut : UuidText} `{ae : Aead} `{up : UrlParser} `{us : UrlScheme}.
Context {X : Type} `{ho : Host X}.
Variable debug : string -> string.
Variable b64 : MigrateKeys.Base64Decode.
Variable args : list string.
Variable tie : Wallet -> Z.
Notation World := (World Account.Db X).

Definition guard_of (cfg : Config) : MainnetCheck :=
  mkMainnetCheck (jwt_secret cfg) (master_key cfg) (master_key_next cfg) (resend_api_key cfg) (horizon_url cfg) (public_app_url cfg) (public_api_url cfg).

(** One of the configured keys opens the newest sealed seed of the network. *)
Definition newest_opens (cfg : Config) (s : Store.State) : Prop :=
  forall w, Wallets.latest_sealed_wallet tie (as_str (network cfg)) s = Some w ->
  exists sealed key plaintext, sealed_of w = Ok sealed /\ key ∈ opening_keys cfg /\
    open_with_account_id key sealed (crypto_context (network cfg)) (account_id_of w) = Ok plaintext.

Lemma serve_command telemetry env cfg env' :
  Command_from_env debug b64 args telemetry env = (Ok (Serve cfg), env') ->
  Config_from_env debug b64 env = (Ok cfg, env') /\ ensure_safe_for_network cfg = Ok tt.
Proof.
  unfold Command_from_env. cbv zeta. repeat (case_bool_decide as Ha; [by intros (? & ? & _ & [=])%and_then_ok|clear Ha]).
  intros (cfg' & env1 & E & H)%and_then_ok. injection H as Hs <-.
  destruct (ensure_safe_for_network cfg') as [[]|] eqn:Eg; [|done]. injection Hs as ->. done.
Qed.

Lemma self_test_nonzero name key (w w' : World) : self_test name key w = (Ret (Ok tt), w') -> all_zero key = false.
Proof.
  unfold self_test. intros (d & w1 & _ & H)%bind_returns. apply bind_returns in H as (r & w2 & _ & H).
  injection H as H _. unfold Crypto.self_test in H. by destruct (all_zero key).
Qed.

Lemma newest_opened cfg n (w w1 w2 : World) :
  later n w w1 -> open_latest_sealed_row tie cfg w1 = (Ret (Ok tt), w2) -> newest_opens cfg (Account.d_core (moment (S n) w)).
Proof.
  intros Hl. unfold open_latest_sealed_row. intros (o & w3 & Eq & H)%try_returns.
  apply (later_part_query n _ w) in Eq as [Eo _]; [|done]. intros x Ex. cbn [part Account.core_part] in Eo. rewrite Ex in Eo. subst o.
  apply try_ret_returns in H as (sealed & Es & H). injection H as H _. destruct (opens cfg x sealed) eqn:Eop; [|done].
  apply existsb_exists in Eop as (key & Hk & Hop). destruct (open_with_account_id key sealed _ _) as [m|] eqn:Em; [|done].
  exists sealed, key, m. split_and!; [done|by apply list_elem_of_In|done].
Qed.

Lemma self_test_later name key n (w w1 w2 : World) r : later n w w1 -> self_test name key w1 = (Ret r, w2) -> later n w w2.
Proof.
  intros Hl. unfold self_test. intros (d & w3 & E3 & H)%bind_returns. apply bind_returns in H as (sn & w4 & E4 & [= _ <-]).
  by eauto using later_ext.
Qed.

End Gate.

(** A scrape is answered exactly when no token is configured or the header carries it. *)
Lemma constant_time_eq_spec a b : constant_time_eq a b = true <-> a = b.
Proof.
  unfold constant_time_eq. rewrite andb_true_iff, Nat.eqb_eq, Z.eqb_eq.
  assert (Hf : forall l acc, fold_left (fun acc p => Z.lor acc (Z.lxor (fst p) (snd p))) l acc = 0 <->
    acc = 0 /\ Forall (fun p : Z * Z => fst p = snd p) l).
  { induction l as [|[x y] l IH]; intros acc; cbn; [naive_solver|]. rewrite IH, Z.lor_eq_0_iff, Z.lxor_eq_0_iff, Forall_cons. naive_solver. }
  rewrite Hf. revert b. induction a as [|x a IH]; intros [|y b]; cbn; [naive_solver|naive_solver lia|naive_solver lia|].
  rewrite Forall_cons. cbn. specialize (IH b). split.
  - intros (Hl & _ & -> & Hr). f_equal. apply IH. naive_solver lia.
  - intros [= -> E]. apply IH in E as (Hl & _ & Hr). naive_solver lia.
Qed.

(** ** A server on the public network *)

#[local] Existing Instances Crypto.Toy.toy_aead Users.dec_uuid Net.sample_parser.
#[local] Instance demo_log2 : Log2 := {| log2 _ := Float64.of_Z (-8) |}.
#[local] Instance demo_scheme : UrlScheme := {| url_scheme u := if starts_with "https://" u then Some "https" else None |}.
#[local] Instance demo_host : Host unit := {|
  canaries x := (Some (repeat 1 32, repeat 2 32), x);
  seal_randomness x := ((Crypto.ex_salt, Crypto.ex_nonce), x);
  connects _ x := (true, x);
  migrates x := (true, x);
  binds _ x := (true, x)
|}.

Definition demo_key : bytes := [249; 103; 17; 40] ++ repeat 9 28.
Definition demo_b64 (s : string) : option bytes := if String.eqb s "k" then Some demo_key else None.
Definition demo_env : Env :=
  list_to_map [("DATABASE_URL", Text "postgres://db/octo"); ("NETWORK", Text "public"); ("RESEND_API_KEY", Text "re_9fK2mQ7xLp4vT8wZ3nB6hJ1c");
    ("EMAIL_FROM_ADDRESS", Text "noreply@octo.dev"); ("MASTER_KEY", Text "k"); ("AUDIT_CHAIN_KEY", Text "k");
    ("JWT_SECRET", Text "e0214f45e62929235961abd74a25ad658e1a3400bdbf6c638f91a0163b9f48df"); ("PUBLIC_APP_URL", Text "https://app.octo.dev")].

Definition demo_sealed : Wallet :=
  let context := crypto_context Public in
  Store.mkWallet 1 (as_str Public) "GA" (Some (Z.of_nat (length context) :: context ++ [11])) (Some Crypto.ex_nonce) (Some Crypto.ex_salt)
    (Some 1) 1 None None None "server" None None 0 0 None false false None.
Definition demo_world : World Account.Db unit :=
  mkWorld (Account.set_core Account.demo_account (Store.mkState 10 [demo_sealed] [] [] [] [] [] [])) [] tt.

Notation demo_command := (Command_from_env (fun s => s) demo_b64 ["octo-server"] (demo_telemetry "x") demo_env).

End ServerBoot.
