(* ===== verification/Evm.v ===== *)
(** * EVM keys and addresses

    [crates/evm-core/src]: EIP-55 addresses ([address.rs]), the derivation path ([derive.rs]), signing
    and recovery ([signer.rs]) and the checks of the adapter ([adapter.rs]). Keccak, secp256k1 (k256)
    and BIP-32 are libraries.

    Not here: sealing a key ([EvmSigner::seal] and [unseal] call [octo_crypto] with arguments it does
    not take) and the adapter's constructors (they call functions that the crate does not have). *)

From S2P Require Import Prelude AuditChain RouteCommon Net.

Module Evm.
Import AuditChain (bytes, be_bytes).

(** ** Libraries *)

Class Keccak := { keccak256 : bytes -> bytes }.

(** The order of the group. *)
Definition ORDER : Z := 0xfffffffffffffffffffffffffffffffebaaedce6af48a03bbfd25e8cd0364141.

Class K256 := {
  (** [SigningKey::from_bytes(..).is_ok()], the uncompressed point of its public key. *)
  valid_secret : bytes -> bool;
  public_point : bytes -> bytes;
  (** [sign_prehash_recoverable]: both scalars and the recovery id. *)
  sign_prehash : bytes -> bytes -> option (Z * Z * Z);
  (** [Signature::from_scalars(..).is_ok()] and [normalize_s]. *)
  from_scalars : Z -> Z -> bool;
  normalize_s : Z -> option Z;
  (** [VerifyingKey::recover_from_prehash], as the uncompressed point. *)
  recover_from_prehash : bytes -> Z -> Z -> Z -> option bytes
}.

Class K256Laws `{K256} := {
  scalars_spec : forall r s, from_scalars r s = true <-> 0 < r < ORDER /\ 0 < s < ORDER;
  normalize_spec : forall s, 0 < s < ORDER -> normalize_s s = if ORDER / 2 <? s then Some (ORDER - s) else None;
  sign_scalars : forall sk d r s v, sign_prehash sk d = Some (r, s, v) -> (0 < r < ORDER /\ 0 < s < ORDER) /\ 0 <= v <= 3;
  sign_recovers : forall sk d r s v, sign_prehash sk d = Some (r, s, v) -> recover_from_prehash d r s v = Some (public_point sk);
  recover_negated : forall d r s v, 0 < s < ORDER -> recover_from_prehash d r (ORDER - s) (Z.lxor v 1) = recover_from_prehash d r s v
}.

(** ** [address.rs] *)

Definition ADDRESS_LENGTH : nat := 20.
Definition ADDRESS_HEX_LENGTH : nat := ADDRESS_LENGTH * 2.

(** The 20 bytes. *)
Definition Address : Type := bytes.

Inductive AddressError :=
| InvalidPublicKeyLength (len : Z)
| InvalidPublicKeyPrefix (byte : Z)
| InvalidLength (len : Z)
| InvalidCharacter (c : Z)
| InvalidChecksum.

(** The half-bytes of a byte string, the high one of each byte first. *)
Definition nibbles (b : bytes) : list Z := flat_map (fun x => [Z.shiftr x 4; Z.land x 15]) b.

Definition lower_digit (v : Z) : Z := if v <? 10 then 48 + v else 87 + v.
Definition upper_digit (v : Z) : Z := if v <? 10 then 48 + v else 55 + v.

Section Address.
Context `{Keccak}.

Definition from_uncompressed_public_key (public_key : bytes) : result Address AddressError :=
  if negb (length public_key =? 65)%nat then Err (InvalidPublicKeyLength (Z.of_nat (length public_key))) else
  if negb (nth 0 public_key 0 =? 4) then Err (InvalidPublicKeyPrefix (nth 0 public_key 0)) else
  Ok (drop 12 (keccak256 (drop 1 public_key))).

Definition to_lowercase_hex (a : Address) : string := str_of (map lower_digit (nibbles a)).

(** [ch.to_ascii_uppercase()] where the half-byte of the hash is at least 8. *)
Definition checksum_digits (a : Address) : list Z :=
  let hash := keccak256 (bytes_of (to_lowercase_hex a)) in
  map (fun p => if 8 <=? snd p then upper_digit (fst p) else lower_digit (fst p)) (combine (nibbles a) (nibbles hash)).

Definition to_checksum_hex (a : Address) : string := str_of (checksum_digits a).
Definition to_checksum_string (a : Address) : string := "0x" +:+ to_checksum_hex a.

(** The value of a hexadecimal digit, and whether it is an upper-case letter and a lower-case one. *)
Definition digit_of (c : Z) : option (Z * bool * bool) :=
  if in_range 48 57 c then Some (c - 48, false, false) else
  if in_range 97 102 c then Some (c - 97 + 10, false, true) else
  if in_range 65 70 c then Some (c - 65 + 10, true, false) else None.

(** The values of the digits, and the cases seen. *)
Fixpoint scan (l : bytes) : result (list Z * bool * bool) AddressError :=
  match l with
  | [] => Ok ([], false, false)
  | c :: rest =>
      match digit_of c with
      | None => Err (InvalidCharacter (default c (head (RouteCommon.chars l))))
      | Some (v, up, low) =>
          let? p := scan rest in
          let '(vs, has_upper, has_lower) := p in
          Ok (v :: vs, up || has_upper, low || has_lower)
      end
  end.

Fixpoint pack (vs : list Z) : bytes :=
  match vs with a :: b :: rest => Z.lor (Z.shiftl a 4) b :: pack rest | _ => [] end.

Definition strip_0x (input : string) : string :=
  match strip_prefix "0x" input with
  | Some h => h
  | None => match strip_prefix "0X" input with Some h => h | None => input end
  end.

Definition validate_address (input : string) : result Address AddressError :=
  let hex := strip_0x input in
  if negb (String.length hex =? ADDRESS_HEX_LENGTH)%nat then Err (InvalidLength (slen hex)) else
  let? p := scan (bytes_of hex) in
  let '(vs, has_upper, has_lower) := p in
  let address := pack vs in
  if has_upper && has_lower && negb (bool_decide (hex = to_checksum_hex address)) then Err InvalidChecksum else Ok address.

Definition address_from_public_key (public_key : bytes) : result string AddressError :=
  let? address := from_uncompressed_public_key public_key in Ok (to_checksum_string address).

(** ** [derive.rs] *)

Definition EVM_COIN_TYPE : Z := 60.
Definition EVM_ACCOUNT : Z := 0.
Definition EVM_CHANGE_EXTERNAL : Z := 0.

(** [ChildNumber::new]: an index below 2^31, hardened or not. *)
Definition child_number (index : Z) (hardened : bool) : option (Z * bool) := if index <? 2 ^ 31 then Some (index, hardened) else None.

(** [None]: the [expect] on the last level panics. *)
Definition evm_derivation_path (index : Z) : option (list (Z * bool)) :=
  let* a := child_number 44 true in
  let* b := child_number EVM_COIN_TYPE true in
  let* c := child_number EVM_ACCOUNT true in
  let* d := child_number EVM_CHANGE_EXTERNAL false in
  let* e := child_number index false in
  Some [a; b; c; d; e].

Inductive EvmError := InvalidSecretKey | SigningFailed | InvalidSignature | RecoveryFailed | Derivation.

Context `{K256}.

Definition signing_key_from_bytes (b : bytes) : result bytes EvmError := if valid_secret b then Ok b else Err InvalidSecretKey.

(** [xprv seed path]: the 32 bytes of the derived private key. *)
Definition derive_signing_key (xprv : bytes -> list (Z * bool) -> option bytes) (seed : bytes) (index : Z) : option (result bytes EvmError) :=
  let* path := evm_derivation_path index in
  Some match xprv seed path with Some secret => signing_key_from_bytes secret | None => Err Derivation end.

(** ** [signer.rs] *)

Definition EVM_SEAL_CONTEXT_PREFIX : string := "octo:eip155".
Definition seal_context (chain_id : Z) : string := EVM_SEAL_CONTEXT_PREFIX +:+ ":" +:+ print_dec chain_id.

Record SignatureParts := mkSignatureParts { sig_r : bytes; sig_s : bytes; sig_v : Z }.

(** A big-endian number. *)
Definition from_be (b : bytes) : Z := fold_left (fun acc x => acc * 256 + x) b 0.

Definition from_parts (r s recid : Z) : SignatureParts :=
  let '(s, recid) := match normalize_s s with Some s' => (s', Z.lxor recid 1) | None => (s, recid) end in
  mkSignatureParts (be_bytes 32 r) (be_bytes 32 s) recid.

Definition to_bytes (p : SignatureParts) : bytes := sig_r p ++ sig_s p ++ [sig_v p].

(** [is_some] of [normalize_s] tells a high [s]. *)
Definition from_bytes (b : bytes) : result SignatureParts EvmError :=
  let r := take 32 b in
  let s := take 32 (drop 32 b) in
  let v := nth 64 b 0 in
  if 1 <? v then Err InvalidSignature else
  if negb (from_scalars (from_be r) (from_be s)) then Err InvalidSignature else
  match normalize_s (from_be s) with Some _ => Err InvalidSignature | None => Ok (mkSignatureParts r s v) end.

Definition address_from_verifying_key (point : bytes) : Address := drop 12 (keccak256 (drop 1 point)).

Definition address_of (secret : bytes) : Address := address_from_verifying_key (public_point secret).

Definition sign_digest (secret digest : bytes) : result SignatureParts EvmError :=
  match sign_prehash secret digest with Some (r, s, recid) => Ok (from_parts r s recid) | None => Err SigningFailed end.

Definition sign_digest_bytes (secret digest : bytes) : result bytes EvmError := let? parts := sign_digest secret digest in Ok (to_bytes parts).

Definition personal_message_digest (message : bytes) : bytes :=
  keccak256 (25 :: bytes_of "Ethereum Signed Message:" ++ 10 :: bytes_of (print_dec (Z.of_nat (length message))) ++ message).

Definition sign_personal_message (secret message : bytes) : result SignatureParts EvmError := sign_digest secret (personal_message_digest message).

Definition parts_recover_address (p : SignatureParts) (digest : bytes) : result Address EvmError :=
  if negb (from_scalars (from_be (sig_r p)) (from_be (sig_s p))) then Err InvalidSignature else
  if 3 <? sig_v p then Err InvalidSignature else
  match recover_from_prehash digest (from_be (sig_r p)) (from_be (sig_s p)) (sig_v p) with
  | Some point => Ok (address_from_verifying_key point)
  | None => Err RecoveryFailed
  end.

Definition recover_address (digest signature : bytes) : result Address EvmError :=
  let? parts := from_bytes signature in parts_recover_address parts digest.

Definition recover_personal_message_address (message signature : bytes) : result Address EvmError :=
  recover_address (personal_message_digest message) signature.

Definition verify_address (digest signature : bytes) (expected : Address) : result bool EvmError :=
  let? recovered := recover_address digest signature in Ok (bool_decide (recovered = expected)).

(** ** [adapter.rs] *)

Inductive AdapterError := InvalidDigestLength (n : Z) | AdapterSigningFailed | AdapterRecoveryFailed.

Definition sign_transaction_hash (secret digest : bytes) : result SignatureParts AdapterError :=
  if negb (length digest =? 32)%nat then Err (InvalidDigestLength (Z.of_nat (length digest))) else
  map_err (fun _ => AdapterSigningFailed) (sign_digest secret digest).

Definition adapter_recover_address (digest : bytes) (signature : SignatureParts) : result Address AdapterError :=
  if negb (length digest =? 32)%nat then Err (InvalidDigestLength (Z.of_nat (length digest))) else
  map_err (fun _ => AdapterRecoveryFailed) (parts_recover_address signature digest).
End Address.

(** ** Addresses and their texts *)

Definition is_byte (x : Z) : Prop := 0 <= x < 256.
Definition is_nibble (v : Z) : Prop := 0 <= v < 16.

Lemma high_low x : is_byte x -> Z.shiftr x 4 = x / 16 /\ Z.land x 15 = x mod 16.
Proof. intros Hx. rewrite Z.shiftr_div_pow2 by lia. change 15 with (Z.ones 4). rewrite Z.land_ones by lia. done. Qed.

Lemma join_nibbles a b : is_nibble b -> Z.lor (Z.shiftl a 4) b = a * 16 + b.
Proof.
  intros Hb. unfold is_nibble in Hb. rewrite Z.shiftl_mul_pow2 by lia.
  assert (Hd : Z.land (a * 2 ^ 4) b = 0).
  { apply Z.bits_inj'. intros n Hn. rewrite Z.land_spec, Z.bits_0. destruct (Z.ltb_spec n 4) as [Hl|Hl].
    - by rewrite Z.mul_pow2_bits_low by lia.
    - apply andb_false_iff. right. destruct (Z.eq_dec b 0) as [->|]; [apply Z.bits_0|].
      apply Z.bits_above_log2; [lia|]. apply Z.log2_lt_pow2; [lia|].
      apply Z.lt_le_trans with (2 ^ 4); [lia|]. apply Z.pow_le_mono_r; lia. }
  rewrite <- Z.lxor_lor, <- Z.add_nocarry_lxor by done. lia.
Qed.

Lemma nibbles_range b : Forall is_byte b -> Forall is_nibble (nibbles b).
Proof.
  induction 1 as [|x b Hx _ IH]; [done|]. cbn. destruct (high_low x Hx) as [-> ->]. unfold is_byte in Hx.
  constructor; [split; [apply Z.div_pos; lia|apply Z.div_lt_upper_bound; lia]|]. constructor; [apply Z.mod_pos_bound; lia|done].
Qed.

Lemma pack_nibbles b : Forall is_byte b -> pack (nibbles b) = b.
Proof.
  induction 1 as [|x b Hx _ IH]; [done|]. change (nibbles (x :: b)) with (Z.shiftr x 4 :: Z.land x 15 :: nibbles b). cbn [pack].
  destruct (high_low x Hx) as [-> ->]. rewrite join_nibbles, IH by (apply Z.mod_pos_bound; lia). f_equal. unfold is_byte in Hx.
  pose proof (Z.div_mod x 16). lia.
Qed.

Lemma nibbles_pack vs n : length vs = (n * 2)%nat -> Forall is_nibble vs -> nibbles (pack vs) = vs /\ Forall is_byte (pack vs) /\ length (pack vs) = n.
Proof.
  revert vs. induction n as [|n IH]; intros vs Hl Hv; [by destruct vs|]. destruct vs as [|a [|b vs]]; [done..|].
  apply Forall_cons in Hv as [Ha Hv]. apply Forall_cons in Hv as [Hb Hv]. destruct (IH vs) as (E & Hf & Hn); [cbn in Hl; lia|done|].
  cbn [pack]. rewrite join_nibbles by done. assert (Hx : is_byte (a * 16 + b)) by (unfold is_byte, is_nibble in *; lia).
  change (nibbles (a * 16 + b :: pack vs)) with (Z.shiftr (a * 16 + b) 4 :: Z.land (a * 16 + b) 15 :: nibbles (pack vs)).
  destruct (high_low _ Hx) as [-> ->]. rewrite E. unfold is_nibble in *. split_and!.
  - f_equal; [rewrite Z.div_add_l by lia; rewrite Z.div_small by lia; lia|]. f_equal.
    rewrite Z.add_comm, Z.mod_add by lia. apply Z.mod_small. lia.
  - by constructor.
  - cbn. by rewrite Hn.
Qed.

(** A digit of either case. *)
Definition spells (v c : Z) : Prop := is_nibble v /\ (c = lower_digit v \/ c = upper_digit v).

Lemma digit_spec c v up low : digit_of c = Some (v, up, low) <->
  spells v c /\ up = negb (c =? lower_digit v) /\ low = negb (c =? upper_digit v).
Proof.
  unfold digit_of, spells, is_nibble, lower_digit, upper_digit, in_range. split.
  - repeat case_match; intros [= <- <- <-]; repeat case_match; lia.
  - intros ((Hv & Hc) & -> & ->). destruct Hc as [-> | ->]; repeat case_match; try lia; repeat f_equal; lia.
Qed.

Lemma scan_ok l vs up low : scan l = Ok (vs, up, low) <->
  Forall2 spells vs l /\ up = existsb (fun p => negb (snd p =? lower_digit (fst p))) (combine vs l) /\
  low = existsb (fun p => negb (snd p =? upper_digit (fst p))) (combine vs l).
Proof.
  revert vs up low. induction l as [|c l IH]; intros vs up low.
  { cbn. split; [by intros [= <- <- <-]|]. intros (H & -> & ->). by apply Forall2_nil_inv_r in H as ->. }
  cbn [scan]. split.
  - destruct (digit_of c) as [[[v u] w]|] eqn:Ed; [|done]. apply digit_spec in Ed as (Hs & -> & ->).
    destruct (scan l) as [[[vs' u'] w']|]; [|done]. cbn. intros [= <- <- <-].
    destruct (proj1 (IH vs' u' w') eq_refl) as (Hf & -> & ->). split; [by constructor|]. by cbn.
  - intros (H & -> & ->). destruct vs as [|v vs]; [by apply Forall2_nil_inv_l in H|]. apply Forall2_cons in H as [Hs Hf].
    destruct (digit_of c) as [[[v' u] w]|] eqn:Ed.
    + assert (Ed' := proj2 (digit_spec c v _ _) (conj Hs (conj eq_refl eq_refl))). rewrite Ed in Ed'. injection Ed' as -> -> ->.
      destruct (scan l) as [[[vs' u'] w']|] eqn:Es.
      * assert (Es' := proj2 (IH vs _ _) (conj Hf (conj eq_refl eq_refl))). injection Es' as -> -> ->. by cbn.
      * assert (Es' := proj2 (IH vs _ _) (conj Hf (conj eq_refl eq_refl))). done.
    + assert (Ed' := proj2 (digit_spec c v _ _) (conj Hs (conj eq_refl eq_refl))). by rewrite Ed in Ed'.
Qed.

Lemma one_case (f : Z -> Z) vs l : length vs = length l ->
  existsb (fun p => negb (snd p =? f (fst p))) (combine vs l) = false <-> l = map f vs.
Proof.
  revert l. induction vs as [|v vs IH]; intros [|c l] Hl; try done. cbn. rewrite orb_false_iff, negb_false_iff, Z.eqb_eq, IH by (cbn in Hl; lia).
  split; [by intros [-> ->]|by intros [= -> ->]].
Qed.

Lemma spells_ascii v c : spells v c -> 0 <= c < 256 /\ c <> 120 /\ c <> 88.
Proof. unfold spells, is_nibble, lower_digit, upper_digit. intros [Hv [-> | ->]]; case_match; lia. Qed.

Lemma byte_val_of z : 0 <= z < 256 -> byte_val (ascii_of_N (Z.to_N z)) = z.
Proof. intros Hz. unfold byte_val. rewrite N_ascii_embedding by lia. lia. Qed.

Lemma bytes_of_str_of l : Forall (fun c => 0 <= c < 256) l -> bytes_of (str_of l) = l.
Proof.
  unfold bytes_of, str_of. rewrite list_ascii_of_string_of_list_ascii, map_map. induction 1 as [|c l Hc _ IH]; [done|].
  cbn [map]. by rewrite byte_val_of, IH.
Qed.

Lemma str_of_length l : String.length (str_of l) = length l.
Proof. unfold str_of. induction l as [|c l IH]; [done|]. cbn. by f_equal. Qed.

Lemma text_length t : length (bytes_of t) = String.length t.
Proof. unfold bytes_of. induction t as [|c t IH]; [done|]. cbn. by f_equal. Qed.

Section Eip55.
Context `{kc : Keccak}.

(** A text of an address: its digits in cases of their own. *)
Definition text_of (a : Address) (l : list Z) : Prop := Forall2 spells (nibbles a) l.

Lemma text_bytes a l : text_of a l -> Forall (fun c => 0 <= c < 256) l.
Proof. intros H. induction H as [|v c vs l Hs _ IH]; constructor; [by apply spells_ascii in Hs as [? _]|done]. Qed.

Lemma strip_prefix_text p s r : strip_prefix p s = Some r -> s = p +:+ r.
Proof.
  revert s. induction p as [|c p IH]; intros s; cbn; [by intros [= ->]|]. destruct s as [|d s]; [done|].
  case_bool_decide; [subst d|done]. intros ->%IH. done.
Qed.

Lemma strip_0x_cases s : s = strip_0x s \/ s = "0x" +:+ strip_0x s \/ s = "0X" +:+ strip_0x s.
Proof.
  unfold strip_0x. destruct (strip_prefix "0x" s) as [h|] eqn:E1; [right; left; by apply strip_prefix_text|].
  destruct (strip_prefix "0X" s) as [h|] eqn:E2; [right; right; by apply strip_prefix_text|by left].
Qed.

(** No text of an address begins like a prefix. *)
Lemma strip_text a l : text_of a l -> strip_0x (str_of l) = str_of l.
Proof.
  intros H. assert (Hn : forall x, x = 120 \/ x = 88 -> strip_prefix (String "0" (String (ascii_of_N (Z.to_N x)) "")) (str_of l) = None).
  { intros x Hx. destruct H as [|v c vs l Hs H]; [done|]. destruct H as [|v' c' vs l Hs' _].
    - cbn. by case_bool_decide.
    - cbn [str_of map string_of_list_ascii strip_prefix]. case_bool_decide; [|done]. case_bool_decide as E; [|done].
      apply spells_ascii in Hs' as (Hb & H1 & H2). apply (f_equal byte_val) in E. rewrite !byte_val_of in E by lia. lia. }
  unfold strip_0x. assert (E1 : strip_prefix "0x" (str_of l) = None) by exact (Hn 120 (or_introl eq_refl)).
  assert (E2 : strip_prefix "0X" (str_of l) = None) by exact (Hn 88 (or_intror eq_refl)). by rewrite E1, E2.
Qed.

(** The other texts that an address has. *)
Definition to_uppercase_hex (a : Address) : string := str_of (map upper_digit (nibbles a)).

Definition is_address (a : Address) : Prop := length a = ADDRESS_LENGTH /\ Forall is_byte a.

Lemma case_text (f : Z -> Z) a : (forall v, f v = lower_digit v \/ f v = upper_digit v) -> is_address a -> text_of a (map f (nibbles a)).
Proof.
  intros Hf [_ Ha]. unfold text_of. pose proof (nibbles_range a Ha) as Hn. induction Hn as [|v vs Hv _ IH]; [constructor|].
  cbn. constructor; [split; [done|apply Hf]|done].
Qed.

Lemma nibbles_length b : length (nibbles b) = (length b * 2)%nat.
Proof.
  induction b as [|x b IH]; [done|]. change (nibbles (x :: b)) with (Z.shiftr x 4 :: Z.land x 15 :: nibbles b). cbn [length Nat.mul]. lia.
Qed.

Lemma checksum_text a : length (keccak256 (bytes_of (to_lowercase_hex a))) = 32%nat -> is_address a -> text_of a (checksum_digits a).
Proof.
  intros Hk [Hl Ha]. unfold text_of, checksum_digits. set (h := keccak256 _).
  assert (Hlen : (length (nibbles a) <= length (nibbles h))%nat) by (rewrite !nibbles_length; unfold h; rewrite Hk, Hl; cbn; lia).
  revert Hlen. generalize (nibbles h). pose proof (nibbles_range a Ha) as Hn. induction Hn as [|v vs Hv _ IH]; [intros; constructor|].
  intros [|x hs]; cbn; [lia|]. intros Hlen. constructor; [split; [done|case_match; auto]|apply IH; lia].
Qed.

(** What [validate_address] makes of the text of an address. *)
Lemma validate_text a l :
  is_address a -> text_of a l ->
  validate_address (str_of l) =
    if bool_decide (l = map lower_digit (nibbles a)) || bool_decide (l = map upper_digit (nibbles a)) || bool_decide (str_of l = to_checksum_hex a)
    then Ok a else Err InvalidChecksum.
Proof.
  intros [Ha Hb] Ht. unfold validate_address. rewrite (strip_text a l) by done.
  assert (Hl : length l = 40%nat) by (rewrite <- (Forall2_length _ _ _ Ht), nibbles_length, Ha; done).
  rewrite str_of_length, Hl. cbn [Nat.eqb negb ADDRESS_HEX_LENGTH ADDRESS_LENGTH Nat.mul Nat.add].
  rewrite bytes_of_str_of by (by eapply text_bytes). rewrite (proj2 (scan_ok l (nibbles a) _ _) (conj Ht (conj eq_refl eq_refl))).
  cbn [result_bind]. rewrite pack_nibbles by done. pose proof (Forall2_length _ _ _ Ht) as Hlen.
  pose proof (one_case lower_digit _ _ Hlen) as E1. pose proof (one_case upper_digit _ _ Hlen) as E2.
  destruct (existsb (fun p => negb (snd p =? lower_digit (fst p))) _); cbn [andb].
  - rewrite (bool_decide_eq_false_2 (l = map lower_digit _)) by naive_solver. cbn [orb].
    destruct (existsb (fun p => negb (snd p =? upper_digit (fst p))) _).
    + rewrite (bool_decide_eq_false_2 (l = map upper_digit _)) by naive_solver. cbn [orb]. by case_bool_decide.
    + by rewrite (bool_decide_eq_true_2 (l = map upper_digit _)) by naive_solver.
  - by rewrite (bool_decide_eq_true_2 (l = map lower_digit _)) by naive_solver.
Qed.

(** The prefixes that may stand before the digits, and the texts that are accepted. *)
Definition prefixes : list string := [""; "0x"; "0X"].
Definition accepted (a : Address) : list string := [to_lowercase_hex a; to_uppercase_hex a; to_checksum_hex a].

Lemma validate_prefixed pre a l : pre ∈ prefixes -> text_of a l -> validate_address (pre +:+ str_of l) = validate_address (str_of l).
Proof.
  intros Hp Ht. unfold validate_address. rewrite (strip_text a l) by done.
  assert (E : strip_0x (pre +:+ str_of l) = str_of l); [|by rewrite E].
  set_unfold in Hp. destruct Hp as [-> |[-> |[-> |[]]]]; [by apply (strip_text a)|done..].
Qed.

(** What is accepted is the text of an address. *)
Lemma validated_text s a : validate_address s = Ok a ->
  is_address a /\ exists pre l, pre ∈ prefixes /\ s = pre +:+ str_of l /\ text_of a l.
Proof.
  unfold validate_address. destruct (String.length (strip_0x s) =? ADDRESS_HEX_LENGTH)%nat eqn:El; [|done]. cbn [negb].
  destruct (scan (bytes_of (strip_0x s))) as [[[vs up] low]|] eqn:Es; [|done]. cbn [result_bind].
  intros Ha. assert (E : a = pack vs) by (case_match; congruence). clear Ha.
  apply scan_ok in Es as (Hf & _ & _). apply Nat.eqb_eq in El. pose proof (Forall2_length _ _ _ Hf) as Hl.
  rewrite text_length, El in Hl. destruct (nibbles_pack vs ADDRESS_LENGTH Hl) as (Hn & Hb & Hlen).
  { clear -Hf. induction Hf as [|v c vs l [Hv _] _ IH]; by constructor. }
  subst a. split; [done|]. assert (Hs : str_of (bytes_of (strip_0x s)) = strip_0x s).
  { unfold str_of, bytes_of. rewrite map_map. rewrite <- (string_of_list_ascii_of_string (strip_0x s)) at 2. f_equal.
    rewrite <- (map_id (list_ascii_of_string (strip_0x s))) at 2. apply map_ext. intros c. unfold byte_val. by rewrite N2Z.id, ascii_N_embedding. }
  destruct (strip_0x_cases s) as [E|[E|E]]; [exists ""|exists "0x"|exists "0X"]; exists (bytes_of (strip_0x s));
    (split_and!; [set_solver|by rewrite Hs|unfold text_of; by rewrite Hn]).
Qed.

Context (keccak_length : forall m, length (keccak256 m) = 32%nat).

Lemma accepted_text a h : is_address a -> h ∈ accepted a ->
  exists l, h = str_of l /\ text_of a l /\ validate_address (str_of l) = Ok a.
Proof using keccak_length.
  intros Ha Hh. assert (Hl : exists l, h = str_of l /\ text_of a l) by (set_unfold in Hh; destruct Hh as [-> |[-> |[-> |[]]]];
    eexists; (split; [reflexivity|]); [apply case_text; auto..|by apply checksum_text]).
  destruct Hl as (l & -> & Ht). exists l. split_and!; [done..|]. rewrite (validate_text a l) by done.
  set_unfold in Hh. destruct Hh as [E|[E|[E|[]]]].
  - apply (f_equal bytes_of) in E. unfold to_lowercase_hex in E. rewrite !bytes_of_str_of in E by (eapply text_bytes; first [done|apply case_text; auto]).
    by rewrite bool_decide_eq_true_2.
  - apply (f_equal bytes_of) in E. unfold to_uppercase_hex in E. rewrite !bytes_of_str_of in E by (eapply text_bytes; first [done|apply case_text; auto]).
    by rewrite (bool_decide_eq_true_2 (l = map upper_digit _)), orb_true_r.
  - by rewrite (bool_decide_eq_true_2 (str_of l = _)), orb_true_r.
Qed.

(** [validate_address] accepts exactly the forty hexadecimal digits of an address, with or without
    a prefix, all in lower case, all in upper case or with the cases of the EIP-55 checksum, and gives
    back the address that was spelled; a spelling in any other mixture of cases is an
    [InvalidChecksum], so one wrong case is enough to have it refused. What [to_checksum_string] prints
    is therefore read back as the same address. *)
Lemma eip55_exact :
  (forall s a, validate_address s = Ok a <-> is_address a /\ exists pre h, pre ∈ prefixes /\ h ∈ accepted a /\ s = pre +:+ h) /\
  (forall a l pre, is_address a -> text_of a l -> pre ∈ prefixes -> str_of l ∉ accepted a -> validate_address (pre +:+ str_of l) = Err InvalidChecksum) /\
  (forall a, is_address a -> validate_address (to_checksum_string a) = Ok a).
Proof using keccak_length.
  assert (Hback : forall a pre h, is_address a -> pre ∈ prefixes -> h ∈ accepted a -> validate_address (pre +:+ h) = Ok a).
  { intros a pre h Ha Hp Hh. destruct (accepted_text a h Ha Hh) as (l & -> & Ht & Hv). by rewrite (validate_prefixed pre a l). }
  assert (Hbad : forall a l pre, is_address a -> text_of a l -> pre ∈ prefixes -> str_of l ∉ accepted a ->
    validate_address (pre +:+ str_of l) = Err InvalidChecksum).
  { intros a l pre Ha Ht Hp Hn. rewrite (validate_prefixed pre a l), (validate_text a l) by done. unfold accepted in Hn.
    rewrite !bool_decide_eq_false_2; [done|..]; intros E; apply Hn; rewrite E; set_solver. }
  split_and!; [|done|].
  - intros s a. split.
    + intros Hv. destruct (validated_text s a Hv) as (Ha & pre & l & Hp & -> & Ht). split; [done|]. exists pre, (str_of l).
      split_and!; [done| |done]. destruct (decide (str_of l ∈ accepted a)) as [|Hn]; [done|]. by rewrite (Hbad a l pre) in Hv.
    + intros (Ha & pre & h & Hp & Hh & ->). auto.
  - intros a Ha. apply (Hback a "0x"); [done|set_solver..].
Qed.
End Eip55.

Definition toy_keccak : Keccak := {| keccak256 := fun m => take 32 (rev m ++ repeat 0 32) |}.
Definition demo_address : Address := [0x5a; 0xae; 0xb6; 0x05; 0x3f; 0x3e; 0x94; 0xc9; 0xb9; 0xa0; 0x9f; 0x33; 0x66; 0x94; 0x35; 0xe7; 0xef; 0x1b; 0xea; 0xed].

Lemma eip55_exact_witness :
  @validate_address toy_keccak "0x5AaeB6053f3e94c9b9A09f33669435E7ef1beaed" = Err InvalidChecksum /\
  @validate_address toy_keccak (@to_checksum_string toy_keccak demo_address) = Ok demo_address.
Proof.
  split; [reflexivity|]. assert (Hl : forall m, length (@keccak256 toy_keccak m) = 32%nat).
  { intros m. unfold keccak256, toy_keccak. rewrite length_take, length_app, repeat_length. lia. }
  apply (proj2 (proj2 (@eip55_exact toy_keccak Hl)) demo_address). split; [reflexivity|]. unfold demo_address. repeat constructor; lia.
Defined.

(** ** Signatures *)

Lemma from_be_snoc b x : from_be (b ++ [x]) = from_be b * 256 + x.
Proof. unfold from_be. by rewrite fold_left_app. Qed.

Lemma be_roundtrip n z : 0 <= z < 256 ^ Z.of_nat n -> from_be (be_bytes n z) = z.
Proof.
  revert z. induction n as [|n IH]; intros z Hz; [change (256 ^ Z.of_nat 0) with 1 in Hz; change (0 = z); lia|].
  cbn [be_bytes]. rewrite from_be_snoc. rewrite Nat2Z.inj_succ, Z.pow_succ_r in Hz by lia.
  rewrite IH; [pose proof (Z.div_mod z 256); lia|]. split; [apply Z.div_pos; lia|apply Z.div_lt_upper_bound; lia].
Qed.

Lemma scalar_length n z : length (be_bytes n z) = n.
Proof. revert z. induction n as [|n IH]; intros z; [done|]. cbn [be_bytes]. rewrite length_app, IH. cbn. lia. Qed.

Section Signing.
Context `{kc : Keccak, k : K256, kl : !@K256Laws k}.

(** The parts of a signature with these scalars, as bytes. *)
Definition parts (r s v : Z) : SignatureParts := mkSignatureParts (be_bytes 32 r) (be_bytes 32 s) v.

Lemma scalar_bytes z : 0 < z < ORDER -> from_be (be_bytes 32 z) = z.
Proof. intros Hz. apply be_roundtrip. unfold ORDER in Hz. change (256 ^ Z.of_nat 32) with (2 ^ 256). lia. Qed.

Lemma from_bytes_parts r s v : 0 < r < ORDER -> 0 < s < ORDER ->
  from_bytes (to_bytes (parts r s v)) = if (1 <? v) || (ORDER / 2 <? s) then Err InvalidSignature else Ok (parts r s v).
Proof.
  intros Hr Hs. unfold from_bytes, to_bytes, parts. cbn [sig_r sig_s sig_v].
  rewrite take_app_length' by (symmetry; apply scalar_length). rewrite drop_app_length' by (symmetry; apply scalar_length).
  rewrite take_app_length' by (symmetry; apply scalar_length).
  rewrite app_nth2 by (rewrite scalar_length; lia). rewrite app_nth2 by (rewrite !scalar_length; lia).
  rewrite !scalar_length. change (nth (64 - 32 - 32) [v] 0) with v. rewrite !scalar_bytes by done.
  destruct (1 <? v); [done|]. rewrite (proj2 (scalars_spec r s)) by done. cbn [negb orb]. rewrite normalize_spec by done.
  by destruct (ORDER / 2 <? s).
Qed.

Lemma recover_parts d r s v : 0 < r < ORDER -> 0 < s < ORDER -> v <= 3 ->
  parts_recover_address (parts r s v) d = from_option (fun p => Ok (address_from_verifying_key p)) (Err RecoveryFailed) (recover_from_prehash d r s v).
Proof.
  intros Hr Hs Hv. unfold parts_recover_address, parts. cbn [sig_r sig_s sig_v]. rewrite !scalar_bytes by done.
  rewrite (proj2 (scalars_spec r s)) by done. cbn [negb]. by rewrite (proj2 (Z.ltb_ge 3 v)) by lia.
Qed.

(** What signing gives: scalars in range, the second one low, that recover the key that signed. *)
Lemma sign_digest_low sk d p : sign_digest sk d = Ok p ->
  exists r s v, p = parts r s v /\ 0 < r < ORDER /\ 0 < s <= ORDER / 2 /\ 0 <= v <= 3 /\ recover_from_prehash d r s v = Some (public_point sk).
Proof.
  unfold sign_digest. destruct (sign_prehash sk d) as [[[r s] v]|] eqn:E; [|done]. intros [= <-].
  pose proof (sign_scalars _ _ _ _ _ E) as ((Hr & Hs) & Hv). pose proof (sign_recovers _ _ _ _ _ E) as Hrec.
  unfold from_parts. rewrite normalize_spec by done. destruct (Z.ltb_spec (ORDER / 2) s) as [Hh|Hl].
  - exists r, (ORDER - s), (Z.lxor v 1). split; [done|]. rewrite recover_negated by done.
    assert (Hx : 0 <= Z.lxor v 1 <= 3) by (assert (v = 0 \/ v = 1 \/ v = 2 \/ v = 3) as [-> |[-> |[-> | ->]]] by lia; by vm_compute).
    assert (ORDER <= 2 * (ORDER / 2) + 1) by (pose proof (Z.div_mod ORDER 2); pose proof (Z.mod_pos_bound ORDER 2); lia).
    split_and!; try done; lia.
  - exists r, s, v. split_and!; try done; lia.
Qed.

(** A signature that [sign_digest] makes is 65 bytes with a low second scalar, and recovers to the
    address of the key that made it. Read back from its bytes it is the same signature, it recovers to
    that address and verifies for that address and no other; the exception is a recovery id of 2 or 3,
    which [from_bytes] refuses although [sign_digest] may give it. The other signature of the same
    digest, with the second scalar negated and the recovery id flipped, is always refused: a signature
    cannot be altered and still count. *)
Lemma sign_recover sk d p :
  sign_digest sk d = Ok p ->
  length (to_bytes p) = 65%nat /\ 0 < from_be (sig_s p) <= ORDER / 2 /\ parts_recover_address p d = Ok (address_of sk) /\
  (if sig_v p <=? 1
   then from_bytes (to_bytes p) = Ok p /\ recover_address d (to_bytes p) = Ok (address_of sk) /\
        forall a, verify_address d (to_bytes p) a = Ok (bool_decide (address_of sk = a))
   else from_bytes (to_bytes p) = Err InvalidSignature) /\
  from_bytes (to_bytes (mkSignatureParts (sig_r p) (be_bytes 32 (ORDER - from_be (sig_s p))) (Z.lxor (sig_v p) 1))) = Err InvalidSignature.
Proof.
  intros Hp. destruct (sign_digest_low _ _ _ Hp) as (r & s & v & -> & Hr & Hs & Hv & Hrec). clear Hp.
  assert (Ho : 2 * (ORDER / 2) < ORDER) by (vm_compute; done). assert (Hs' : 0 < s < ORDER) by lia.
  cbn [parts sig_r sig_s sig_v]. fold (parts r s v). rewrite scalar_bytes by done.
  fold (parts r (ORDER - s) (Z.lxor v 1)). rewrite !from_bytes_parts by (try done; lia).
  assert (Hrec' : parts_recover_address (parts r s v) d = Ok (address_of sk)) by (rewrite recover_parts, Hrec by lia; done).
  rewrite (proj2 (Z.ltb_ge (ORDER / 2) s)) by lia. rewrite (proj2 (Z.ltb_lt (ORDER / 2) (ORDER - s))) by lia. rewrite orb_true_r, orb_false_r.
  split_and!; try done; try lia.
  - unfold verify_address, recover_address. rewrite from_bytes_parts by done. rewrite (proj2 (Z.ltb_ge (ORDER / 2) s)) by lia. rewrite orb_false_r.
    destruct (Z.leb_spec v 1); [rewrite (proj2 (Z.ltb_ge 1 v)) by lia|by rewrite (proj2 (Z.ltb_lt 1 v)) by lia].
    cbn [result_bind]. by rewrite Hrec'.
Qed.
End Signing.

(** A group with one key, which always signs with a high second scalar. *)
Definition toy_point : bytes := 4 :: repeat 7 64.
Definition toy_k256 : K256 := {|
  valid_secret := fun _ => true; public_point := fun _ => toy_point;
  sign_prehash := fun _ d => Some (1 + from_be d mod (ORDER - 1), ORDER - 5, 0);
  from_scalars := fun r s => (0 <? r) && (r <? ORDER) && (0 <? s) && (s <? ORDER);
  normalize_s := fun s => if ORDER / 2 <? s then Some (ORDER - s) else None;
  recover_from_prehash := fun _ _ _ _ => Some toy_point |}.

Definition toy_k256_laws : @K256Laws toy_k256.
Proof.
  split; cbn.
  - intros r s. rewrite !andb_true_iff, !Z.ltb_lt. tauto.
  - done.
  - intros sk d r s v [= <- <- <-]. pose proof (Z.mod_pos_bound (from_be d) (ORDER - 1) ltac:(unfold ORDER; lia)). unfold ORDER in *. lia.
  - done.
  - done.
Defined.

Lemma sign_recover_witness :
  match @sign_digest toy_k256 [1] (repeat 9 32) with
  | Ok p => sig_v p = 1 /\ from_be (sig_s p) = 5 /\
            @recover_address toy_keccak toy_k256 (repeat 9 32) (to_bytes p) = Ok (@address_of toy_keccak toy_k256 [1])
  | Err _ => False
  end.
Proof.
  destruct (@sign_digest toy_k256 [1] (repeat 9 32)) as [p|] eqn:E; [|discriminate E].
  pose proof (@sign_recover toy_keccak toy_k256 toy_k256_laws [1] (repeat 9 32) p E) as (_ & _ & _ & H & _).
  vm_compute in E. injection E as <-. cbn [sig_v Z.leb Z.compare Pos.compare Pos.compare_cont] in H. split; [reflexivity|]. split; [reflexivity|apply H].
Defined.
End Evm.
