(* ===== verification/EvmRpc.v ===== *)
(** * The EVM JSON-RPC client

    [crates/evm-rpc/src]: the client of [client.rs] with its typed calls, and the errors of
    [error.rs]. The HTTP client and the node are an oracle that answers the n-th request; reading JSON
    text, the text of a JSON value and the two parsers of [U256] are libraries. The client calls its
    circuit breaker and its retry policy through functions that [octo_resilience] does not have
    ([allow], [record_success], [record_failure], [backoff_for]): they are parameters too, and so is
    the state of the breaker.

    The texts of [Transport] and [InvalidHex] are dropped. The fields of an object are listed in the
    order of the Rust structure. *)

From S2P Require Import Prelude.

Module EvmRpc.

Definition zlen {A} (l : list A) : Z := Z.of_nat (length l).

(** ** JSON values *)

(** [serde_json::Number]. *)
Inductive Num := PosInt (z : Z) | NegInt (z : Z) | Float (text : string).

#[warnings="-register-all"]
Inductive Value : Type :=
| Null
| Bool (b : bool)
| Number (n : Num)
| Str (s : string)
| Array (l : list Value)
| Object (fields : list (string * Value)).

Definition is_null (v : Value) : bool := match v with Null => true | _ => false end.
Definition as_str (v : Value) : option string := match v with Str s => Some s | _ => None end.

(** *** Derived [Deserialize] *)

(** A field of a structure: there, absent from the object, or beyond the end of the array. *)
Inductive Field := Present (v : Value) | MissingKey | MissingElement.

Fixpoint nth_field (l : list Value) (n : nat) : Field :=
  match l, n with [], _ => MissingElement | v :: _, O => Present v | _ :: r, S n => nth_field r n end.

(** A structure is read from an object, in which a known field may not be twice and other fields are
    ignored, or from an array with the fields in order. *)
Definition struct_fields (names : list string) (v : Value) : option (list Field) :=
  match v with
  | Object fs =>
      let all k := List.filter (fun f => bool_decide (f.1 = k)) fs in
      if forallb (fun k => (length (all k) <=? 1)%nat) names
      then Some (map (fun k => match all k with [] => MissingKey | f :: _ => Present f.2 end) names) else None
  | Array l => if (length l <=? length names)%nat then Some (map (nth_field l) (seq 0 (length names))) else None
  | _ => None
  end.

Definition required {A} (f : Field) (dec : Value -> option A) : option A := match f with Present v => dec v | _ => None end.
Definition defaulted {A} (f : Field) (d : A) (dec : Value -> option A) : option A := match f with Present v => dec v | _ => Some d end.
(** An [Option] without [default]. *)
Definition optional {A} (f : Field) (dec : Value -> option (option A)) : option (option A) :=
  match f with Present v => dec v | MissingKey => Some None | MissingElement => None end.

Definition de_option {A} (dec : Value -> option A) (v : Value) : option (option A) := if is_null v then Some None else Some <$> dec v.
Definition de_string : Value -> option string := as_str.
Definition de_bool (v : Value) : option bool := match v with Bool b => Some b | _ => None end.
Definition de_value (v : Value) : option Value := Some v.
Definition de_number (v : Value) : option Num := match v with Number n => Some n | _ => None end.
Definition de_i64 (v : Value) : option Z :=
  match v with
  | Number (PosInt z) => if z <=? i64_MAX then Some z else None
  | Number (NegInt z) => Some z
  | _ => None
  end.

Fixpoint de_all {A} (dec : Value -> option A) (l : list Value) : option (list A) :=
  match l with [] => Some [] | v :: r => let* a := dec v in let* rest := de_all dec r in Some (a :: rest) end.
Definition de_vec {A} (dec : Value -> option A) (v : Value) : option (list A) := match v with Array l => de_all dec l | _ => None end.

(** ** Data *)

Definition MAX_RESPONSE_BODY_BYTES : Z := 16 * 1024 * 1024.
Definition JSONRPC_REVERT_CODE : Z := 3.
Definition JSONRPC_RANGE_TOO_LARGE_CODE : Z := -32005.
Definition JSONRPC_LIMIT_EXCEEDED_CODE : Z := -32005.

Inductive EvmRpcError :=
| Transport
| JsonRpc (code : Z) (message : string)
| Revert (data : string)
| RangeTooLarge (message : string)
| RateLimited (retry_after : option Z)
| CircuitOpen
| ResponseTooLarge (limit : Z)
| InvalidHex
| ChainIdMismatch (expected actual : string).

Definition is_retryable (e : EvmRpcError) : bool := match e with Transport | RateLimited _ => true | _ => false end.

Record RpcErrorObject := mkRpcErrorObject { eo_code : Z; eo_message : string; eo_data : option Value }.
Record RpcResponse := mkRpcResponse { rr_result : option Value; rr_error : option RpcErrorObject }.

Definition de_RpcErrorObject (v : Value) : option RpcErrorObject :=
  match struct_fields ["code"; "message"; "data"] v with
  | Some [c; m; d] =>
      let* code := required c de_i64 in
      let* message := required m de_string in
      let* data := defaulted d None (de_option de_value) in
      Some (mkRpcErrorObject code message data)
  | _ => None
  end.

Definition de_RpcResponse (v : Value) : option RpcResponse :=
  match struct_fields ["result"; "error"] v with
  | Some [r; e] =>
      let* result := defaulted r None (de_option de_value) in
      let* error := defaulted e None (de_option de_RpcErrorObject) in
      Some (mkRpcResponse result error)
  | _ => None
  end.

Record Log := mkLog {
  lg_address : string; lg_topics : list string; lg_data : string; lg_block_number : string;
  lg_transaction_hash : string; lg_log_index : string; lg_removed : bool }.

Definition de_Log (v : Value) : option Log :=
  match struct_fields ["address"; "topics"; "data"; "blockNumber"; "transactionHash"; "logIndex"; "removed"] v with
  | Some [a; t; d; b; h; i; r] =>
      let* address := required a de_string in
      let* topics := required t (de_vec de_string) in
      let* data := required d de_string in
      let* block_number := required b de_string in
      let* transaction_hash := required h de_string in
      let* log_index := required i de_string in
      let* removed := defaulted r false de_bool in
      Some (mkLog address topics data block_number transaction_hash log_index removed)
  | _ => None
  end.

Record Block := mkBlock { bk_number : string; bk_hash : string; bk_parent_hash : string; bk_timestamp : string }.

Definition de_Block (v : Value) : option Block :=
  match struct_fields ["number"; "hash"; "parentHash"; "timestamp"] v with
  | Some [n; h; p; t] =>
      let* number := required n de_string in
      let* hash := required h de_string in
      let* parent_hash := required p de_string in
      let* timestamp := required t de_string in
      Some (mkBlock number hash parent_hash timestamp)
  | _ => None
  end.

Record TransactionReceipt := mkTransactionReceipt {
  tr_transaction_hash : string; tr_block_number : option string; tr_status : option string; tr_logs : list Log }.

Definition de_TransactionReceipt (v : Value) : option TransactionReceipt :=
  match struct_fields ["transactionHash"; "blockNumber"; "status"; "logs"] v with
  | Some [h; b; s; l] =>
      let* transaction_hash := required h de_string in
      let* block_number := optional b (de_option de_string) in
      let* status := defaulted s None (de_option de_string) in
      let* logs := defaulted l [] (de_vec de_Log) in
      Some (mkTransactionReceipt transaction_hash block_number status logs)
  | _ => None
  end.

(** The ratios before their conversion to [f64]. *)
Record FeeHistory := mkFeeHistory {
  fh_oldest_block : string; fh_base_fee_per_gas : list string; fh_gas_used_ratio : list Num; fh_reward : option (list (list string)) }.

Definition de_FeeHistory (v : Value) : option FeeHistory :=
  match struct_fields ["oldestBlock"; "baseFeePerGas"; "gasUsedRatio"; "reward"] v with
  | Some [o; b; g; r] =>
      let* oldest_block := required o de_string in
      let* base_fee_per_gas := required b (de_vec de_string) in
      let* gas_used_ratio := required g (de_vec de_number) in
      let* reward := defaulted r None (de_option (de_vec (de_vec de_string))) in
      Some (mkFeeHistory oldest_block base_fee_per_gas gas_used_ratio reward)
  | _ => None
  end.

Record LogFilter := mkLogFilter { lf_from_block : string; lf_to_block : string; lf_address : option Value; lf_topics : option (list Value) }.

(** A field that is left out when it is [None]. *)
Definition if_some {A} (k : string) (o : option A) (f : A -> Value) : list (string * Value) := match o with Some a => [(k, f a)] | None => [] end.

Definition ser_LogFilter (f : LogFilter) : Value :=
  Object ([("fromBlock", Str (lf_from_block f)); ("toBlock", Str (lf_to_block f))] ++ if_some "address" (lf_address f) id ++ if_some "topics" (lf_topics f) Array).

Record CallRequest := mkCallRequest {
  cr_from : option string; cr_to : option string; cr_gas : option string; cr_gas_price : option string;
  cr_value : option string; cr_data : option string }.

Definition ser_CallRequest (r : CallRequest) : Value :=
  Object (if_some "from" (cr_from r) Str ++ if_some "to" (cr_to r) Str ++ if_some "gas" (cr_gas r) Str ++
          if_some "gasPrice" (cr_gas_price r) Str ++ if_some "value" (cr_value r) Str ++ if_some "data" (cr_data r) Str).

(** ** Classifying an error *)

Fixpoint contains (pattern s : string) : bool :=
  starts_with pattern s || match s with EmptyString => false | String _ r => contains pattern r end.

Definition is_range_too_large_message (msg : string) : bool :=
  let m := to_ascii_lowercase msg in
  (contains "range" m && (contains "too large" m || contains "exceed" m)) || contains "block range" m ||
  contains "query returned more than" m || contains "limit exceeded" m.

(** Libraries: [serde_json::from_slice] into a value, [Value::to_string], and [U256]'s parsers. *)
Class Json := { from_slice : list Z -> option Value; value_text : Value -> string }.
Class U256Text := { from_dec_str : string -> option Z; from_str_radix_16 : string -> option Z }.

Section Mapping.
Context `{Json}.

Definition map_rpc_error (err : RpcErrorObject) : EvmRpcError :=
  if eo_code err =? JSONRPC_REVERT_CODE then
    Revert match eo_data err with Some (Str s) => s | Some other => value_text other | None => "" end
  else if (eo_code err =? JSONRPC_RANGE_TOO_LARGE_CODE) || (eo_code err =? JSONRPC_LIMIT_EXCEEDED_CODE) ||
          is_range_too_large_message (eo_message err) then RangeTooLarge (eo_message err)
  else JsonRpc (eo_code err) (eo_message err).
End Mapping.

(** ** Numbers *)

Section Quantities.
Context `{U256Text}.

Definition parse_u256_hex (s : string) : result Z EvmRpcError :=
  match (match strip_prefix "0x" s with Some h => Some h | None => strip_prefix "0X" s end) with
  | None => Err InvalidHex
  | Some stripped => if is_empty stripped then Err InvalidHex else ok_or (from_str_radix_16 stripped) InvalidHex
  end.

Definition parse_u256_value (v : Value) : result Z EvmRpcError := match v with Str s => parse_u256_hex s | _ => Err InvalidHex end.

Definition parse_caip2_chain_id (caip2 : string) : result Z EvmRpcError :=
  match split_once ":"%char caip2 with
  | None => Err InvalidHex
  | Some (namespace, reference) =>
      if negb (bool_decide (namespace = "eip155")) then Err InvalidHex else ok_or (from_dec_str reference) InvalidHex
  end.
End Quantities.

(** ** One request *)

(** What comes back: no response, or a status, the [Retry-After] header ([None] inside: not visible
    ASCII), the announced length, and the chunks of the body, one of which may fail. *)
Record Response := mkResponse {
  rs_status : Z; rs_retry_after : option (option string); rs_content_length : option Z; rs_chunks : list (option (list Z)) }.
Inductive Answer := SendFailed | Answered (r : Response).

Definition is_success (status : Z) : bool := in_range 200 299 status.

Definition parse_retry_after (header : option (option string)) : option Z :=
  let* v := header in let* s := v in parse_u64 (trim s).

Fixpoint read_chunks (limit : Z) (body : list Z) (chunks : list (option (list Z))) : result (list Z) EvmRpcError :=
  match chunks with
  | [] => Ok body
  | None :: _ => Err Transport
  | Some c :: rest => if limit <? zlen body + zlen c then Err (ResponseTooLarge limit) else read_chunks limit (body ++ c) rest
  end.

Definition read_body_capped (r : Response) (limit : Z) : result (list Z) EvmRpcError :=
  if from_option (fun len => limit <? len) false (rs_content_length r) then Err (ResponseTooLarge limit) else read_chunks limit [] (rs_chunks r).

Section Response.
Context `{Json}.

Definition from_slice_RpcResponse (body : list Z) : option RpcResponse := let* v := from_slice body in de_RpcResponse v.

(** What [call_once] makes of the answer. *)
Definition on_answer (a : Answer) : result Value EvmRpcError :=
  match a with
  | SendFailed => Err Transport
  | Answered r =>
      if rs_status r =? 429 then Err (RateLimited (parse_retry_after (rs_retry_after r))) else
      let? body := read_body_capped r MAX_RESPONSE_BODY_BYTES in
      if negb (is_success (rs_status r)) then
        Err match from_slice_RpcResponse body with
            | Some (mkRpcResponse _ (Some err)) => map_rpc_error err
            | _ => Transport
            end
      else
        match from_slice_RpcResponse body with
        | None => Err Transport
        | Some parsed => match rr_error parsed with Some err => Err (map_rpc_error err) | None => ok_or (rr_result parsed) Transport end
        end
  end.
End Response.

(** ** The client *)

Record RpcRequest := mkRpcRequest { rq_id : Z; rq_method : string; rq_params : Value }.

(** The circuit breaker, used only for reads. *)
Class Breaker (B : Type) := { allow : B -> bool * B; record_success : B -> B; record_failure : B -> B }.

(** The counter and the breaker that the clones of a client share, the requests sent and the pauses. *)
Record World (B : Type) := mkWorld { next_id : Z; breaker : B; sent : list RpcRequest; slept : list Z }.
Arguments mkWorld {B}.
Arguments next_id {B}.
Arguments breaker {B}.
Arguments sent {B}.
Arguments slept {B}.

Section Client.
Context `{Json} `{U256Text} {B : Type} `{Breaker B}.
Context (answer : nat -> RpcRequest -> Answer) (max_attempts : Z) (backoff_for : Z -> Z).

Definition call_once (method : string) (params : Value) (w : World B) : result Value EvmRpcError * World B :=
  let req := mkRpcRequest (next_id w) method params in
  (on_answer (answer (length (sent w)) req), mkWorld ((next_id w + 1) mod 2 ^ 64) (breaker w) (sent w ++ [req]) (slept w)).

Definition with_breaker (f : B -> B) (w : World B) : World B := mkWorld (next_id w) (f (breaker w)) (sent w) (slept w).
Definition sleep (d : Z) (w : World B) : World B := mkWorld (next_id w) (breaker w) (sent w) (slept w ++ [d]).

(** The loop; [None] when the fuel runs out. [attempt] is a [u32]. *)
Fixpoint read_loop (fuel : nat) (attempt : Z) (method : string) (params : Value) (w : World B) : option (result Value EvmRpcError * World B) :=
  match fuel with
  | O => None
  | S fuel =>
      match call_once method params w with
      | (Ok v, w) => Some (Ok v, with_breaker record_success w)
      | (Err e, w) =>
          if negb (is_retryable e) then Some (Err e, w) else
          let w := with_breaker record_failure w in
          let attempt := (attempt + 1) mod 2 ^ 32 in
          if max_attempts <? attempt then Some (Err e, w) else
          read_loop fuel attempt method params (sleep (backoff_for attempt) w)
      end
  end.

Definition call_read (method : string) (params : Value) (w : World B) : option (result Value EvmRpcError * World B) :=
  let '(ok, b) := allow (breaker w) in
  let w := with_breaker (fun _ => b) w in
  if ok then read_loop (S (Z.to_nat max_attempts)) 0 method params w else Some (Err CircuitOpen, w).

Definition and_then {A C} (m : option (result A EvmRpcError * World B)) (f : A -> result C EvmRpcError) : option (result C EvmRpcError * World B) :=
  let* p := m in Some (result_bind (fst p) f, snd p).

Definition chain_id (w : World B) := and_then (call_read "eth_chainId" (Array []) w) parse_u256_value.
Definition block_number (w : World B) := and_then (call_read "eth_blockNumber" (Array []) w) parse_u256_value.

(** A value that may be null. *)
Definition nullable {A} (dec : Value -> option A) (v : Value) : result (option A) EvmRpcError :=
  if is_null v then Ok None else ok_or (Some <$> dec v) Transport.

Definition get_block_by_number (block : string) (full_tx : bool) (w : World B) :=
  and_then (call_read "eth_getBlockByNumber" (Array [Str block; Bool full_tx]) w) (nullable de_Block).
Definition get_logs (filter : LogFilter) (w : World B) :=
  and_then (call_read "eth_getLogs" (Array [ser_LogFilter filter]) w) (fun v => ok_or (de_vec de_Log v) Transport).
Definition get_transaction_receipt (tx_hash : string) (w : World B) :=
  and_then (call_read "eth_getTransactionReceipt" (Array [Str tx_hash]) w) (nullable de_TransactionReceipt).
Definition get_transaction_count (address block : string) (w : World B) :=
  and_then (call_read "eth_getTransactionCount" (Array [Str address; Str block]) w) parse_u256_value.
Definition call (req : CallRequest) (block : string) (w : World B) :=
  and_then (call_read "eth_call" (Array [ser_CallRequest req; Str block]) w) (fun v => ok_or (as_str v) Transport).
Definition estimate_gas (req : CallRequest) (w : World B) :=
  and_then (call_read "eth_estimateGas" (Array [ser_CallRequest req]) w) parse_u256_value.
Definition fee_history (block_count newest_block : string) (reward_percentiles : list Num) (w : World B) :=
  and_then (call_read "eth_feeHistory" (Array [Str block_count; Str newest_block; Array (map Number reward_percentiles)]) w)
    (fun v => ok_or (de_FeeHistory v) Transport).

Definition send_raw_transaction (raw_tx : string) (w : World B) : result string EvmRpcError * World B :=
  let '(r, w) := call_once "eth_sendRawTransaction" (Array [Str raw_tx]) w in
  (result_bind r (fun v => ok_or (as_str v) Transport), w).

Definition assert_chain_id (expected_caip2 : string) (w : World B) : option (result unit EvmRpcError * World B) :=
  match parse_caip2_chain_id expected_caip2 with
  | Err e => Some (Err e, w)
  | Ok expected =>
      and_then (chain_id w) (fun actual =>
        if actual =? expected then Ok tt else Err (ChainIdMismatch expected_caip2 ("eip155:" +:+ print_dec actual)))
  end.
End Client.

(** ** [error.rs] *)

(** The [EvmRpcError] of this file, which the client does not use. *)
Module Errors.
Inductive ErrorKind :=
| Transport
| Http (status : Z) (body : option string)
| JsonRpc (code : Z) (message : string)
| Revert (data : option (list Z))
| RangeTooLarge
| RateLimited (retry_after : option Z)
| CircuitOpen
| ResponseTooLarge (limit : Z)
| Malformed (text : string)
| InvalidHex (text : string)
| ChainIdMismatch (configured actual : string).

Definition is_retriable (e : ErrorKind) : bool :=
  match e with
  | Transport => true
  | Http status _ => 500 <=? status
  | RateLimited _ => true
  | _ => false
  end.

Definition retry_after (e : ErrorKind) : option Z := match e with RateLimited r => r | _ => None end.
End Errors.

(** ** What the client does *)

Section Proofs.
Context `{js : Json} `{ut : U256Text} {B : Type} `{br : Breaker B}.
Context (answer : nat -> RpcRequest -> Answer) (max_attempts : Z) (backoff_for : Z -> Z).

(** The [n]-th request from a world on, and what its answer means. *)
Definition request (method : string) (params : Value) (w : World B) (n : nat) : RpcRequest :=
  mkRpcRequest (match n with O => next_id w | S _ => (next_id w + Z.of_nat n) mod 2 ^ 64 end) method params.
Definition outcome (method : string) (params : Value) (w : World B) (n : nat) : result Value EvmRpcError :=
  on_answer (answer (length (sent w) + n) (request method params w n)).

Definition transient (r : result Value EvmRpcError) : bool := match r with Err e => is_retryable e | Ok _ => false end.

(** What the last outcome tells the breaker. *)
Definition record_last (r : result Value EvmRpcError) : B -> B :=
  match r with Ok _ => record_success | Err e => if is_retryable e then record_failure else id end.

Lemma body_capped r limit body : read_body_capped r limit = Ok body -> 0 <= limit -> zlen body <= limit.
Proof.
  unfold read_body_capped. destruct (from_option _ _ _); [done|].
  assert (Hc : forall chunks pre, read_chunks limit pre chunks = Ok body -> zlen pre <= limit -> zlen body <= limit); [|intros Hr Hl; by apply (Hc _ _ Hr)].
  induction chunks as [|[c|] rest IH]; intros pre; cbn; [by intros [= ->]| |done]. destruct (Z.ltb_spec limit (zlen pre + zlen c)); [done|].
  intros Hr _. apply (IH _ Hr). unfold zlen in *. rewrite length_app. lia.
Qed.

Lemma result_not_null v resp x : de_RpcResponse v = Some resp -> rr_result resp = Some x -> x <> Null.
Proof.
  unfold de_RpcResponse. destruct (struct_fields _ v) as [[|a [|b [|]]]|]; try done.
  destruct (defaulted a None (de_option de_value)) as [res|] eqn:Ea; [|done]. cbn.
  destruct (defaulted b None _); [|done]. cbn. intros [= <-] E ->. cbn in E. subst res.
  destruct a as [u| |]; cbn in Ea; try done. unfold de_option in Ea. destruct u; cbn in Ea; congruence.
Qed.

(** A success is a 2xx response, within the cap, with a result and no error. *)
Lemma success_exact a v : on_answer a = Ok v <->
  exists r body, a = Answered r /\ 200 <= rs_status r <= 299 /\ read_body_capped r MAX_RESPONSE_BODY_BYTES = Ok body /\
    from_slice_RpcResponse body = Some (mkRpcResponse (Some v) None).
Proof.
  split.
  - destruct a as [|r]; [done|]. cbn [on_answer]. destruct (rs_status r =? 429); [done|].
    destruct (read_body_capped r _) as [body|] eqn:Eb; [|done]. cbn [result_bind].
    destruct (is_success (rs_status r)) eqn:Es; cbn [negb]; [|done].
    destruct (from_slice_RpcResponse body) as [[res err]|] eqn:Ej; [|done]. cbn. destruct err; [done|]. destruct res as [v'|]; [|done].
    intros [= ->]. exists r, body. unfold is_success, in_range in Es. split_and!; try done; lia.
  - intros (r & body & -> & Hs & Hb & Hj). cbn [on_answer]. rewrite (proj2 (Z.eqb_neq (rs_status r) 429)) by lia. rewrite Hb. cbn [result_bind].
    unfold is_success, in_range. rewrite (proj2 (Z.leb_le 200 _)), (proj2 (Z.leb_le _ 299)) by lia. cbn [andb negb]. by rewrite Hj.
Qed.

Lemma success_not_null a v : on_answer a = Ok v -> v <> Null.
Proof.
  intros (r & body & _ & _ & _ & Hj)%success_exact. unfold from_slice_RpcResponse in Hj.
  destruct (from_slice body) as [u|]; [|done]. by apply (result_not_null u _ v) in Hj.
Qed.

(** The next world of the loop after a transient failure. *)
Definition retried (attempt : Z) (method : string) (params : Value) (w : World B) : World B :=
  sleep (backoff_for attempt) (with_breaker record_failure (snd (call_once answer method params w))).

Lemma outcome_retried attempt method params w n : outcome method params (retried attempt method params w) n = outcome method params w (S n).
Proof.
  unfold outcome, request. cbn [retried sleep with_breaker call_once snd next_id sent].
  rewrite length_app. cbn [length]. do 2 f_equal; [lia|]. f_equal. destruct n as [|n]; [f_equal; lia|].
  rewrite Z.add_mod_idemp_l by lia. f_equal. lia.
Qed.

Lemma request_retried attempt method params w n : request method params (retried attempt method params w) n = request method params w (S n).
Proof.
  unfold request. cbn [retried sleep with_breaker call_once snd next_id]. f_equal. destruct n as [|n]; [f_equal; lia|].
  rewrite Z.add_mod_idemp_l by lia. f_equal. lia.
Qed.

(** What a run of the loop that made [S n] requests leaves. *)
Definition ran (method : string) (params : Value) (w : World B) (attempt : Z) (n : nat) (w' : World B) : Prop :=
  sent w' = sent w ++ map (request method params w) (seq 0 (S n)) /\
  slept w' = slept w ++ map (fun i => backoff_for (attempt + Z.of_nat i)) (seq 1 n) /\
  breaker w' = record_last (outcome method params w n) (Nat.iter n record_failure (breaker w)).

Lemma ran_retried method params w attempt n w' :
  ran method params (retried (attempt + 1) method params w) (attempt + 1) n w' ->
  ran method params w attempt (S n) w'.
Proof.
  intros (Hs & Hl & Hb). unfold ran. rewrite <- (outcome_retried (attempt + 1)). split_and!.
  - rewrite Hs. cbn [retried sleep with_breaker call_once snd sent]. rewrite <- app_assoc. f_equal.
    change (seq 0 (S (S n))) with (0%nat :: seq 1 (S n)). cbn [map app]. f_equal. rewrite <- (seq_shift (S n) 0), map_map. apply map_ext.
    intros i. apply request_retried.
  - rewrite Hl. cbn [retried sleep with_breaker call_once snd slept]. rewrite <- app_assoc. f_equal. cbn [seq map app]. f_equal.
    rewrite <- (seq_shift n 1), map_map. apply map_ext. intros i. f_equal. lia.
  - rewrite Hb. f_equal. rewrite Nat.iter_succ_r. done.
Qed.

Lemma read_loop_runs method params fuel : forall attempt w,
  0 <= attempt <= max_attempts -> max_attempts < u32_MAX -> (fuel = S (Z.to_nat (max_attempts - attempt)))%nat ->
  exists n w', read_loop answer max_attempts backoff_for fuel attempt method params w = Some (outcome method params w n, w') /\
    attempt + Z.of_nat n <= max_attempts /\ (forall i, (i < n)%nat -> transient (outcome method params w i) = true) /\
    (transient (outcome method params w n) = true -> attempt + Z.of_nat n = max_attempts) /\ ran method params w attempt n w'.
Proof.
  induction fuel as [|fuel IH]; intros attempt w Ha Hm Hf; [done|]. cbn [read_loop].
  assert (E0 : call_once answer method params w = (outcome method params w 0, snd (call_once answer method params w))).
  { unfold call_once, outcome, request. cbn [snd]. by rewrite Nat.add_0_r. }
  assert (Hstop : forall r, outcome method params w 0 = r -> ran method params w attempt 0 (with_breaker (record_last r) (snd (call_once answer method params w)))).
  { intros r <-. unfold ran. cbn [with_breaker call_once snd sent slept breaker seq map Nat.iter]. rewrite app_nil_r. by split_and!. }
  rewrite E0. destruct (outcome method params w 0) as [v|e] eqn:Eo.
  { exists 0%nat. eexists. rewrite Eo. split; [reflexivity|]. split_and!; [lia|lia|done|]. by apply (Hstop (Ok v)). }
  destruct (is_retryable e) eqn:Er; cbn [negb].
  2: { exists 0%nat. eexists. rewrite Eo. split; [reflexivity|]. cbn [transient]. rewrite Er. split_and!; [lia|lia|done|].
    specialize (Hstop (Err e) eq_refl). cbn [record_last] in Hstop. rewrite Er in Hstop. exact Hstop. }
  rewrite Z.mod_small by (unfold u32_MAX in Hm; lia). destruct (Z.ltb_spec max_attempts (attempt + 1)) as [Hlt|Hge].
  { exists 0%nat. eexists. rewrite Eo. split; [reflexivity|]. split_and!; [lia|lia|lia|].
    specialize (Hstop (Err e) eq_refl). cbn [record_last] in Hstop. rewrite Er in Hstop. exact Hstop. }
  destruct (IH (attempt + 1) (retried (attempt + 1) method params w)) as (n & w' & El & Hn & Ht & Hl & Hr); [lia|done|lia|].
  exists (S n), w'. rewrite outcome_retried in El, Hl. split_and!; [exact El|lia| | |].
  - intros [|i] Hi; [by rewrite Eo|]. rewrite <- (outcome_retried (attempt + 1)). apply Ht. lia.
  - intros Hx. specialize (Hl Hx). lia.
  - by apply ran_retried.
Qed.

(** The retry discipline of the client. A read that the breaker lets through always ends, after at
    most [max_attempts + 1] requests that are the same but for their ids: the answers before the last
    are transport failures or rate limits, each counted once against the breaker and followed by the
    pause of its attempt, and the result is what the last answer means; a read that the breaker refuses
    sends nothing. Sending a transaction makes one request, whatever comes back, and neither asks nor
    tells the breaker. An answer counts as a success exactly when it is a 2xx response whose body,
    within the cap, is an envelope with a result and no error, so an error reported under HTTP 200 is
    never taken for a result. *)
Lemma rpc_discipline method params w :
  0 <= max_attempts < u32_MAX ->
  (let w1 := with_breaker (fun _ => snd (allow (breaker w))) w in
   if fst (allow (breaker w)) then
     exists n w', call_read answer max_attempts backoff_for method params w = Some (outcome method params w1 n, w') /\
       Z.of_nat n <= max_attempts /\ (forall i, (i < n)%nat -> transient (outcome method params w1 i) = true) /\
       (transient (outcome method params w1 n) = true -> Z.of_nat n = max_attempts) /\ ran method params w1 0 n w'
   else call_read answer max_attempts backoff_for method params w = Some (Err CircuitOpen, w1)) /\
  (forall raw, let '(r, w') := send_raw_transaction answer raw w in
     let sends := request "eth_sendRawTransaction" (Array [Str raw]) w 0 in
     sent w' = sent w ++ [sends] /\ slept w' = slept w /\ breaker w' = breaker w /\
     (forall h, r = Ok h <-> on_answer (answer (length (sent w)) sends) = Ok (Str h))) /\
  (forall a v, on_answer a = Ok v <->
     exists r body, a = Answered r /\ 200 <= rs_status r <= 299 /\ read_body_capped r MAX_RESPONSE_BODY_BYTES = Ok body /\
       zlen body <= MAX_RESPONSE_BODY_BYTES /\ from_slice_RpcResponse body = Some (mkRpcResponse (Some v) None)).
Proof.
  intros Hm. split_and!.
  - cbv zeta. unfold call_read. destruct (allow (breaker w)) as [ok b]. cbn [fst snd]. destruct ok; [|done].
    destruct (read_loop_runs method params (S (Z.to_nat max_attempts)) 0 (with_breaker (fun _ => b) w)) as (n & w' & H); [lia..|f_equal; f_equal; lia|].
    exists n, w'. exact H.
  - intros raw. unfold send_raw_transaction, call_once. cbv zeta. cbn [sent slept breaker request]. split_and!; try done. intros h.
    destruct (on_answer _) as [v|e]; cbn; [|split; done]. destruct v; cbn; split; intros E; congruence.
  - intros a v. rewrite success_exact. split; intros (r & body & H).
    + destruct H as (-> & Hs & Hb & Hj). exists r, body. split_and!; try done; try lia. by apply (body_capped r).
    + exists r, body. tauto.
Qed.

(** Every read that gives a result gives what some answer carried. *)
Lemma call_read_ok method params w v w' :
  0 <= max_attempts < u32_MAX -> call_read answer max_attempts backoff_for method params w = Some (Ok v, w') ->
  exists k req, rq_method req = method /\ rq_params req = params /\ on_answer (answer k req) = Ok v.
Proof.
  unfold call_read. destruct (allow (breaker w)) as [[|] b]; [|done]. intros Hm. set (w1 := with_breaker (fun _ => b) w).
  destruct (read_loop_runs method params (S (Z.to_nat max_attempts)) 0 w1) as (n & w2 & E & _); [lia..|f_equal; f_equal; lia|].
  rewrite E. intros [= Ho _]. unfold outcome in Ho. by eexists _, (request method params w1 n).
Qed.

(** Passing the startup check means that the node reported the configured chain. *)
Lemma chain_asserted caip2 w w' :
  0 <= max_attempts < u32_MAX -> assert_chain_id answer max_attempts backoff_for caip2 w = Some (Ok tt, w') ->
  exists n reference k req s, caip2 = "eip155:" +:+ reference /\ from_dec_str reference = Some n /\
    rq_method req = "eth_chainId" /\ on_answer (answer k req) = Ok (Str s) /\ parse_u256_hex s = Ok n.
Proof.
  intros Hm. unfold assert_chain_id. destruct (parse_caip2_chain_id caip2) as [n|] eqn:Ec; [|done].
  unfold chain_id, and_then. destruct (call_read answer max_attempts backoff_for "eth_chainId" (Array []) w) as [[[v|] w2]|] eqn:Er; cbn; [|done..].
  destruct (parse_u256_value v) as [actual|] eqn:Ev; cbn; [|done]. destruct (Z.eqb_spec actual n); [subst actual|done]. intros _.
  destruct (call_read_ok _ _ _ _ _ Hm Er) as (k & req & Hreq & _ & Ha). destruct v as [| | |s| |]; try done.
  unfold parse_caip2_chain_id in Ec. destruct (split_once _ caip2) as [[ns reference]|] eqn:Es; [|done].
  case_bool_decide as Hns; [subst ns|done]. cbn [negb] in Ec. unfold ok_or in Ec. destruct (from_dec_str reference) as [n'|] eqn:Ed; [|done].
  injection Ec as ->. apply split_once_Some in Es as [Es _]. exists n, reference, k, req, s. by rewrite Es.
Qed.

(** The receipt of a transaction that is not mined yet, and a block that does not exist, are results
    that are null: they come back as failures and not as [None]. *)
Lemma receipt_never_pending tx_hash w w' :
  0 <= max_attempts < u32_MAX -> get_transaction_receipt answer max_attempts backoff_for tx_hash w <> Some (Ok None, w').
Proof.
  intros Hm. unfold get_transaction_receipt, and_then.
  destruct (call_read answer max_attempts backoff_for "eth_getTransactionReceipt" (Array [Str tx_hash]) w) as [[[v|] w2]|] eqn:Er; cbn; [|done..].
  destruct (call_read_ok _ _ _ _ _ Hm Er) as (k & req & _ & _ & Ha). apply success_not_null in Ha.
  unfold nullable. destruct v; try done; cbn [is_null]; by destruct (de_TransactionReceipt _).
Qed.
End Proofs.

(** *** A node that fails twice *)

Definition plain_json : Json := {|
  from_slice := fun b => match b with [] => None | 0 :: _ => Some (Object [("result", Null)]) | _ => Some (Object [("id", Number (PosInt 1)); ("result", Str "0x1")]) end;
  value_text := fun _ => "" |}.
Definition counting : Breaker (Z * Z) := {| allow := fun b => (true, b); record_success := fun b => (fst b + 1, snd b); record_failure := fun b => (fst b, snd b + 1) |}.
Definition start_world : World (Z * Z) := mkWorld 1 (0, 0) [] [].
Definition demo_answer (n : nat) (_ : RpcRequest) : Answer :=
  match n with
  | O => SendFailed
  | 1%nat => Answered (mkResponse 429 (Some (Some "3")) None [])
  | _ => Answered (mkResponse 200 None (Some 2) [Some [1]; Some [2]])
  end.

Lemma rpc_discipline_witness :
  @call_read plain_json _ counting demo_answer 3 (Z.mul 200) "eth_chainId" (Array []) start_world =
    Some (Ok (Str "0x1"), mkWorld 4 (1, 2) (map (fun i => mkRpcRequest i "eth_chainId" (Array [])) [1; 2; 3]) [200; 400]) /\
  sent (snd (@send_raw_transaction plain_json _ demo_answer "0x00" start_world)) = [mkRpcRequest 1 "eth_sendRawTransaction" (Array [Str "0x00"])] /\
  @on_answer plain_json (Answered (mkResponse 200 None None [Some [0]])) <> Ok Null.
Proof.
  split; [vm_compute; reflexivity|].
  pose proof (@rpc_discipline plain_json _ counting demo_answer 3 (Z.mul 200) "eth_chainId" (Array []) start_world ltac:(unfold u32_MAX; lia)) as (_ & Hs & Ha).
  split; [exact (proj1 (Hs "0x00"))|]. intros E. apply Ha in E as (r & body & [= <-] & _ & [= <-] & _ & E). discriminate E.
Defined.

(** A 404 is retried like a lost connection, where [error.rs] has it for permanent. *)
Example client_errors_retried :
  let refuse (n : nat) (_ : RpcRequest) := Answered (mkResponse 404 None None []) in
  length (sent (from_option snd start_world (@call_read plain_json _ counting refuse 3 (Z.mul 200) "eth_call" (Array []) start_world))) = 4%nat /\
  Errors.is_retriable (Errors.Http 404 None) = false.
Proof. split; vm_compute; reflexivity. Qed.
End EvmRpc.
