(* ===== verification/Sse.v ===== *)
(** * Server-sent events

    The decoder of [crates/ingest/src/horizon.rs] ([SseDecoder], [parse_sse_data]) and the stream that
    it feeds ([PaymentStream]). Text is its UTF-8 bytes. Reading a payment record from JSON is
    [serde_json]'s.

    The theorem is that decoding undoes the encoding of events, however the bytes are cut into
    chunks. *)

From S2P Require Import Prelude Redact HorizonIngest.

Module Sse.
Import HorizonIngest (PaymentRecord, HorizonError(..)).
Import Redact (bytes, first_chunk, Chunk(..)).

Definition MAX_SSE_EVENT_BYTES : nat := Z.to_nat (1024 * 1024).

(** [serde_json::from_str::<PaymentRecord>] *)
Class RecordJson := { parse_record : bytes -> option PaymentRecord }.

(** ** Text *)

(** [std::str::from_utf8(..).is_ok()] *)
Fixpoint valid_utf8 (fuel : nat) (l : bytes) : bool :=
  match fuel, l with
  | S f, _ :: _ => match first_chunk l with Valid n => valid_utf8 f (drop n l) | Invalid _ => false end
  | _, _ => true
  end.
Definition is_utf8 (l : bytes) : bool := valid_utf8 (length l) l.

Definition is_newline (b : Z) : bool := (b =? 10) || (b =? 13).

(** [trim_end_matches(['\n', '\r'])] *)
Fixpoint drop_newlines (l : bytes) : bytes := match l with b :: r => if is_newline b then drop_newlines r else l | [] => [] end.
Definition trim_newlines (l : bytes) : bytes := rev (drop_newlines (rev l)).

Fixpoint strip_bytes (p l : bytes) : option bytes :=
  match p, l with
  | [], _ => Some l
  | x :: p, y :: l => if x =? y then strip_bytes p l else None
  | _ :: _, [] => None
  end.

(** Up to the first line feed and with it, and what follows. *)
Fixpoint split_line (l : bytes) : option (bytes * bytes) :=
  match l with
  | [] => None
  | b :: r => if b =? 10 then Some ([b], r) else match split_line r with Some (line, rest) => Some (b :: line, rest) | None => None end
  end.

(** ** The decoder *)

Record SseDecoder := mkSseDecoder { sd_buf : bytes; sd_data : bytes }.
Definition SseDecoder_default : SseDecoder := mkSseDecoder [] [].

Definition DATA : bytes := bytes_of "data:".

Section Decoder.
Context `{RecordJson}.

Definition parse_sse_data (data : bytes) : result (option PaymentRecord) HorizonError :=
  match trim_start data with
  | 123 :: _ => match parse_record data with Some r => Ok (Some r) | None => Err Decode end
  | _ => Ok None
  end.

Definition feed (d : SseDecoder) (b : bytes) : result SseDecoder HorizonError :=
  let buf := sd_buf d ++ b in
  if (MAX_SSE_EVENT_BYTES <? length buf)%nat && negb (existsb (Z.eqb 10) buf) then Err Decode else Ok (mkSseDecoder buf (sd_data d)).

(** What one line does: the data that is left, and the record if the line ends an event. *)
Definition on_line (data raw : bytes) : result (bytes * option PaymentRecord) HorizonError :=
  if negb (is_utf8 raw) then Err Decode else
  let line := trim_newlines raw in
  match line with
  | [] => let? r := parse_sse_data data in Ok ([], r)
  | _ =>
      match strip_bytes DATA line with
      | Some value =>
          let data := (if (length data =? 0)%nat then data else data ++ [10]) ++ default value (strip_bytes [32] value) in
          if (MAX_SSE_EVENT_BYTES <? length data)%nat then Err Decode else Ok (data, None)
      | None => Ok (data, None)
      end
  end.

(** The loop of [SseDecoder::next_record]: every turn takes a line from the buffer. *)
Fixpoint next_loop (fuel : nat) (d : SseDecoder) : result (option PaymentRecord) HorizonError * SseDecoder :=
  match fuel with
  | O => (Ok None, d)
  | S f =>
      match split_line (sd_buf d) with
      | None => (Ok None, d)
      | Some (raw, rest) =>
          match on_line (sd_data d) raw with
          | Err e => (Err e, mkSseDecoder rest (sd_data d))
          | Ok (data, Some r) => (Ok (Some r), mkSseDecoder rest data)
          | Ok (data, None) => next_loop f (mkSseDecoder rest data)
          end
      end
  end.
Definition decoder_next (d : SseDecoder) : result (option PaymentRecord) HorizonError * SseDecoder := next_loop (S (length (sd_buf d))) d.

(** ** The stream *)

(** What arrives on the connection: bytes, its end, an error, or nothing for longer than the reader
    waits. *)
Inductive Wire := Bytes (b : bytes) | Closed | Broken | Silence.

(** [PaymentStream::next_record] under the timeout of the session. *)
Inductive Next := Got (r : PaymentRecord) | Ended | Failed (e : HorizonError) | TimedOut.

Fixpoint next_record (wire : list Wire) (d : SseDecoder) : Next * (list Wire * SseDecoder) :=
  match decoder_next d with
  | (Err e, d) => (Failed e, (wire, d))
  | (Ok (Some r), d) => (Got r, (wire, d))
  | (Ok None, d) =>
      match wire with
      | [] => (TimedOut, ([], d))
      | Bytes b :: rest => match feed d b with Err e => (Failed e, (rest, d)) | Ok d => next_record rest d end
      | Closed :: rest => (Ended, (rest, d))
      | Broken :: rest => (Failed Request, (rest, d))
      | Silence :: rest => (TimedOut, (rest, d))
      end
  end.

(** The records that successive calls give, until one gives none. *)
Fixpoint received (fuel : nat) (wire : list Wire) (d : SseDecoder) : list PaymentRecord * Next :=
  match fuel with
  | O => ([], TimedOut)
  | S f =>
      match next_record wire d with
      | (Got r, (wire, d)) => let '(rs, last) := received f wire d in (r :: rs, last)
      | (other, _) => ([], other)
      end
  end.
End Decoder.

(** ** Lines *)

(** The complete lines of a text, and what follows the last. *)
Fixpoint lines_of (l : bytes) : list bytes * bytes :=
  match l with
  | [] => ([], [])
  | b :: r =>
      let '(ls, t) := lines_of r in
      if b =? 10 then ([b] :: ls, t) else match ls with [] => ([], b :: t) | l :: ls => ((b :: l) :: ls, t) end
  end.

Lemma lines_of_concat l ls t : lines_of l = (ls, t) -> concat ls ++ t = l.
Proof.
  revert ls t. induction l as [|b r IH]; intros ls t; cbn; [by intros [= <- <-]|].
  destruct (lines_of r) as [ls' t']. specialize (IH _ _ eq_refl). destruct (b =? 10).
  - intros [= <- <-]. cbn. by rewrite IH.
  - destruct ls' as [|l' ls']; intros [= <- <-]; cbn in *; by rewrite IH.
Qed.

Lemma lines_of_app a c : lines_of (a ++ c) =
  let '(l1, r1) := lines_of a in let '(l2, r2) := lines_of (r1 ++ c) in (l1 ++ l2, r2).
Proof.
  induction a as [|b a IH]; cbn; [by destruct (lines_of c)|]. rewrite IH. destruct (lines_of a) as [l1 r1].
  destruct (b =? 10) eqn:Eb; [by destruct (lines_of (r1 ++ c))|]. destruct l1 as [|l l1]; cbn [app].
  - cbn [lines_of app]. destruct (lines_of (r1 ++ c)) as [l2 r2]. rewrite Eb. by destruct l2.
  - by destruct (lines_of (r1 ++ c)).
Qed.

(** Lines that [lines_of] gives. *)
Definition line_ok (l : bytes) : Prop := exists body, l = body ++ [10] /\ Forall (fun b => b <> 10) body.

Lemma lines_of_ok l ls t : lines_of l = (ls, t) -> Forall line_ok ls /\ Forall (fun b => b <> 10) t.
Proof.
  revert ls t. induction l as [|b r IH]; intros ls t; cbn; [by intros [= <- <-]|].
  destruct (lines_of r) as [ls' t']. destruct (IH _ _ eq_refl) as [Hl Ht]. destruct (Z.eqb_spec b 10).
  - intros [= <- <-]. subst b. split; [constructor; [by exists []|done]|done].
  - destruct ls' as [|l' ls']; intros [= <- <-]; [split; [done|by constructor]|]. apply Forall_cons in Hl as [(body & -> & Hb) Hl].
    split; [|done]. constructor; [|done]. exists (b :: body). split; [done|by constructor].
Qed.

Lemma lines_of_tail t : Forall (fun b => b <> 10) t -> lines_of t = ([], t).
Proof. induction 1 as [|b t Hb _ IH]; [done|]. cbn. rewrite IH. by rewrite (proj2 (Z.eqb_neq b 10) Hb). Qed.

Lemma lines_of_line l r : line_ok l -> lines_of (l ++ r) = let '(ls, t) := lines_of r in (l :: ls, t).
Proof.
  intros (body & -> & Hb). induction Hb as [|b body Hb _ IH]; cbn.
  - by destruct (lines_of r).
  - rewrite IH. destruct (lines_of r) as [ls t]. by rewrite (proj2 (Z.eqb_neq b 10) Hb).
Qed.

Lemma lines_of_lines ls r : Forall line_ok ls -> lines_of (concat ls ++ r) = let '(ls', t) := lines_of r in (ls ++ ls', t).
Proof.
  induction 1 as [|l ls Hl _ IH]; cbn; [by destruct (lines_of r)|]. rewrite <- app_assoc, lines_of_line by done. rewrite IH. by destruct (lines_of r).
Qed.

Lemma split_line_none t : Forall (fun b => b <> 10) t -> split_line t = None.
Proof. induction 1 as [|b t Hb _ IH]; [done|]. cbn. by rewrite (proj2 (Z.eqb_neq b 10) Hb), IH. Qed.

Lemma split_line_line l r : line_ok l -> split_line (l ++ r) = Some (l, r).
Proof.
  intros (body & -> & Hb). induction Hb as [|b body Hb _ IH]; [done|]. cbn. rewrite (proj2 (Z.eqb_neq b 10) Hb). by rewrite IH.
Qed.

(** ** What the decoder does with the lines of a text *)

Section Spec.
Context `{rj : RecordJson}.

(** The outcome of the next record, the lines that are left and the data. *)
Fixpoint next_spec (ls : list bytes) (data : bytes) : result (option PaymentRecord) HorizonError * (list bytes * bytes) :=
  match ls with
  | [] => (Ok None, ([], data))
  | l :: ls =>
      match on_line data l with
      | Err e => (Err e, (ls, data))
      | Ok (data, Some r) => (Ok (Some r), (ls, data))
      | Ok (data, None) => next_spec ls data
      end
  end.

Lemma decoder_next_spec ls t data : Forall line_ok ls -> Forall (fun b => b <> 10) t ->
  decoder_next (mkSseDecoder (concat ls ++ t) data) =
    let '(o, (ls', data')) := next_spec ls data in (o, mkSseDecoder (concat ls' ++ t) data').
Proof.
  intros Hl Ht. unfold decoder_next. cbn [sd_buf].
  assert (Hf : (length ls < S (length (concat ls ++ t)))%nat).
  { rewrite length_app. apply Nat.lt_succ_r. clear -Hl. induction Hl as [|l ls (body & -> & _) _ IH]; cbn; [lia|].
    rewrite !length_app in *. cbn. lia. }
  revert Hf. generalize (S (length (concat ls ++ t))). intros fuel. revert fuel data.
  induction Hl as [|l ls Hl' _ IH]; intros fuel data Hf; (destruct fuel as [|fuel]; [cbn in Hf; lia|]); cbn [next_loop sd_buf sd_data concat app next_spec].
  - by rewrite split_line_none.
  - rewrite <- app_assoc, split_line_line by done. destruct (on_line data l) as [[data' [r|]]|e]; [done| |done]. apply IH. cbn in Hf. lia.
Qed.

Lemma next_spec_app l1 l2 data : next_spec (l1 ++ l2) data =
  match next_spec l1 data with
  | (Ok None, (_, data')) => next_spec l2 data'
  | (o, (ls, data')) => (o, (ls ++ l2, data'))
  end.
Proof.
  revert data. induction l1 as [|l l1 IH]; intros data; [done|]. cbn. destruct (on_line data l) as [[data' [r|]]|e]; [done|apply IH|done].
Qed.

Lemma next_spec_left ls data o ls' data' : next_spec ls data = (o, (ls', data')) -> exists used, ls = used ++ ls'.
Proof.
  revert data. induction ls as [|l ls IH]; intros data; cbn; [intros [= <- <- <-]; by exists []|].
  destruct (on_line data l) as [[d [r|]]|e]; [intros [= <- <- <-]; by exists [l]| |intros [= <- <- <-]; by exists [l]].
  intros (used & ->)%IH. by exists (l :: used).
Qed.

(** No line is longer than the buffer may be. *)
Definition short (b : bytes) : Prop := let '(ls, t) := lines_of b in Forall (fun l => (length l <= MAX_SSE_EVENT_BYTES)%nat) ls /\ (length t <= MAX_SSE_EVENT_BYTES)%nat.

Lemma short_prefix t c : Forall (fun b => b <> 10) t -> short (t ++ c) -> (length t <= MAX_SSE_EVENT_BYTES)%nat.
Proof.
  unfold short. intros Ht. assert (E : match lines_of (t ++ c) with (l :: _, _) => exists r, l = t ++ r | ([], u) => exists r, u = t ++ r end).
  { induction Ht as [|b t Hb _ IH]; cbn; [destruct (lines_of c) as [[|l ls] u]; by eexists|].
    destruct (lines_of (t ++ c)) as [[|l ls] u]; rewrite (proj2 (Z.eqb_neq b 10) Hb); destruct IH as [r ->]; by exists r. }
  destruct (lines_of (t ++ c)) as [[|l ls] u]; destruct E as [r ->].
  - intros [_ Hu]. rewrite length_app in Hu. lia.
  - intros [Hl _]. apply Forall_cons in Hl as [Hl _]. rewrite length_app in Hl. lia.
Qed.

Lemma feed_short t c rest data : Forall (fun b => b <> 10) t -> short (t ++ c ++ rest) -> feed (mkSseDecoder t data) c = Ok (mkSseDecoder (t ++ c) data).
Proof.
  intros Ht Hs. unfold feed. cbn [sd_buf sd_data]. destruct (existsb (Z.eqb 10) (t ++ c)) eqn:E; [by rewrite andb_false_r|].
  assert (Hn : Forall (fun b => b <> 10) (t ++ c)).
  { apply Forall_forall. intros b Hb ->. assert (existsb (Z.eqb 10) (t ++ c) = true); [|congruence].
    apply existsb_exists. exists 10. split; [by apply list_elem_of_In|done]. }
  rewrite app_assoc in Hs. apply short_prefix in Hs; [|done]. by rewrite (proj2 (Nat.ltb_ge _ _) Hs).
Qed.

Lemma short_after a c l1 r1 : lines_of a = (l1, r1) -> short (a ++ c) -> short (r1 ++ c).
Proof.
  unfold short. intros E. rewrite lines_of_app, E. destruct (lines_of (r1 ++ c)) as [l2 r2]. intros [H1 H2]. split; [|done].
  by apply Forall_app in H1 as [_ H1].
Qed.

(** How a stream can end. *)
Inductive final : Wire -> Next -> Prop :=
| final_closed : final Closed Ended
| final_broken : final Broken (Failed Request)
| final_silence : final Silence TimedOut.

Lemma next_record_spec fin out cs : final fin out -> forall buf data ls t,
  short (buf ++ concat cs) -> lines_of (buf ++ concat cs) = (ls, t) ->
  match next_spec ls data with
  | (Ok (Some r), (ls', data')) =>
      exists cs' buf', next_record (map Bytes cs ++ [fin]) (mkSseDecoder buf data) = (Got r, (map Bytes cs' ++ [fin], mkSseDecoder buf' data')) /\
        lines_of (buf' ++ concat cs') = (ls', t)
  | (Ok None, _) => fst (next_record (map Bytes cs ++ [fin]) (mkSseDecoder buf data)) = out
  | (Err e, _) => fst (next_record (map Bytes cs ++ [fin]) (mkSseDecoder buf data)) = Failed e
  end.
Proof.
  intros Hfin. induction cs as [|c cs IH]; intros buf data ls t Hs E; destruct (lines_of buf) as [l1 r1] eqn:Eb;
    destruct (lines_of_ok _ _ _ Eb) as [Hl Ht]; pose proof (lines_of_concat _ _ _ Eb) as Ebuf;
    pose proof (decoder_next_spec l1 r1 data Hl Ht) as Hd; rewrite Ebuf in Hd.
  - cbn [concat map app] in *. rewrite app_nil_r in E. rewrite Eb in E. injection E as -> ->. cbn [next_record]. rewrite Hd.
    destruct (next_spec ls data) as [[[r|]|e] [ls' data']] eqn:En; [|by destruct Hfin|done].
    exists [], (concat ls' ++ t). split; [done|]. cbn [concat]. rewrite app_nil_r. destruct (next_spec_left _ _ _ _ _ En) as [used ->].
    apply Forall_app in Hl as [_ Hl]. rewrite lines_of_lines, lines_of_tail by done. by rewrite app_nil_r.
  - rewrite lines_of_app, Eb in E. destruct (lines_of (r1 ++ concat (c :: cs))) as [l2 r2] eqn:E2. injection E as <- <-.
    rewrite next_spec_app. cbn [next_record map app]. rewrite Hd. destruct (next_spec l1 data) as [[[r|]|e] [ls' data']] eqn:En.
    + exists (c :: cs), (concat ls' ++ r1). split; [done|]. destruct (next_spec_left _ _ _ _ _ En) as [used ->].
      apply Forall_app in Hl as [_ Hl]. rewrite <- app_assoc, lines_of_lines, E2 by done. done.
    + assert (ls' = []) as -> by (clear -En; revert data En; induction l1 as [|l l1 IH]; intros data; cbn;
        [by intros [= <- _]|destruct (on_line data l) as [[d [r|]]|e]; [done|apply IH|done]]).
      cbn [concat app]. pose proof (short_after _ _ _ _ Eb Hs) as Hs1. cbn [concat] in Hs1. rewrite (feed_short _ _ _ _ Ht Hs1).
      apply IH; rewrite <- app_assoc; [done|exact E2].
    + done.
Qed.

(** The records of the lines, and the error that ends them if there is one. *)
Fixpoint decode_lines (ls : list bytes) (data : bytes) : list PaymentRecord * option HorizonError :=
  match ls with
  | [] => ([], None)
  | l :: ls =>
      match on_line data l with
      | Err e => ([], Some e)
      | Ok (data, Some r) => let '(rs, e) := decode_lines ls data in (r :: rs, e)
      | Ok (data, None) => decode_lines ls data
      end
  end.

Lemma decode_next ls data : decode_lines ls data =
  match next_spec ls data with
  | (Ok (Some r), (ls', data')) => let '(rs, e) := decode_lines ls' data' in (r :: rs, e)
  | (Ok None, _) => ([], None)
  | (Err e, _) => ([], Some e)
  end.
Proof. revert data. induction ls as [|l ls IH]; intros data; [done|]. cbn. destruct (on_line data l) as [[d [r|]]|e]; [done|apply IH|done]. Qed.

Lemma received_lines fin out cs : final fin out -> forall fuel buf data ls t,
  short (buf ++ concat cs) -> lines_of (buf ++ concat cs) = (ls, t) -> (length ls < fuel)%nat ->
  received fuel (map Bytes cs ++ [fin]) (mkSseDecoder buf data) =
    let '(rs, e) := decode_lines ls data in (rs, from_option Failed out e).
Proof.
  intros Hfin fuel. revert cs. induction fuel as [|fuel IH]; intros cs buf data ls t Hs E Hf; [lia|]. cbn [received].
  pose proof (next_record_spec fin out cs Hfin buf data ls t Hs E) as Hn. rewrite decode_next.
  destruct (next_spec ls data) as [[[r|]|e] [ls' data']] eqn:En.
  - destruct Hn as (cs' & buf' & -> & E'). destruct (next_spec_left _ _ _ _ _ En) as [used Eu].
    assert (used <> []) by (intros ->; cbn in Eu; subst ls'; clear -En; revert data En; induction ls as [|l ls IHl]; intros data; cbn; [done|];
      destruct (on_line data l) as [[d [x|]]|]; [intros [= _ E _]; by apply (f_equal length) in E; cbn in E; lia| |done];
      intros Hx; destruct (next_spec_left _ _ _ _ _ Hx) as [u Ex]; apply (f_equal length) in Ex; rewrite length_app in Ex; cbn in Ex; lia).
    rewrite (IH cs' buf' data' ls' t); [by destruct (decode_lines ls' data')| |done|].
    + unfold short in *. rewrite E in Hs. rewrite E'. destruct Hs as [Hs1 Hs2]. split; [|done]. rewrite Eu in Hs1. by apply Forall_app in Hs1 as [_ ?].
    + rewrite Eu, length_app in Hf. destruct used; [done|]. cbn in Hf. lia.
  - destruct (next_record _ _) as [o p]. cbn in Hn. subst o. by destruct Hfin.
  - destruct (next_record _ _) as [o p]. cbn in Hn. by subst o.
Qed.

(** ** Events *)

(** Lines that are not data, and the payload. *)
Record SseEvent := mkSseEvent { se_other : list bytes; se_payload : bytes }.

Definition other_line (f : bytes) : bytes := f ++ [10].
Definition data_line (payload : bytes) : bytes := (DATA ++ 32 :: payload) ++ [10].
Definition event_lines (e : SseEvent) : list bytes := map other_line (se_other e) ++ [data_line (se_payload e); [10]].
Definition encode (evs : list SseEvent) : bytes := concat (concat (map event_lines evs)).

(** A line that the decoder passes over. *)
Definition other_ok (f : bytes) : Prop :=
  Forall (fun b => b <> 10) f /\ is_utf8 (other_line f) = true /\ trim_newlines (other_line f) <> [] /\
  strip_bytes DATA (trim_newlines (other_line f)) = None /\ (length (other_line f) <= MAX_SSE_EVENT_BYTES)%nat.

(** A payload that is a record, or that is not an object. *)
Definition payload_ok (p : bytes) : Prop :=
  Forall (fun b => b <> 10) p /\ is_utf8 (data_line p) = true /\ last p <> Some 13 /\
  (length (data_line p) <= MAX_SSE_EVENT_BYTES)%nat /\ is_ok (parse_sse_data p) = true.

Definition event_ok (e : SseEvent) : Prop := Forall other_ok (se_other e) /\ payload_ok (se_payload e).

Definition record_of (e : SseEvent) : option PaymentRecord := match parse_sse_data (se_payload e) with Ok o => o | Err _ => None end.

Lemma trim_data p : last p <> Some 13 -> Forall (fun b => b <> 10) p -> trim_newlines (data_line p) = DATA ++ 32 :: p.
Proof.
  intros Hl Hn. unfold trim_newlines, data_line. rewrite rev_app_distr. change (rev [10] ++ ?l) with (10 :: l). change (drop_newlines (10 :: ?l)) with (drop_newlines l).
  assert (E : drop_newlines (rev (DATA ++ 32 :: p)) = rev (DATA ++ 32 :: p)); [|by rewrite E, rev_involutive].
  destruct p as [|x p _] using rev_ind; [done|]. rewrite last_snoc in Hl. apply Forall_app in Hn as [_ Hn]. apply Forall_cons in Hn as [Hx _].
  rewrite app_comm_cons, app_assoc, rev_app_distr. cbn [rev app drop_newlines]. unfold is_newline.
  rewrite (proj2 (Z.eqb_neq x 10) Hx), (proj2 (Z.eqb_neq x 13)) by congruence. done.
Qed.

Lemma strip_bytes_app p l : strip_bytes p (p ++ l) = Some l.
Proof. induction p as [|x p IH]; [done|]. cbn. by rewrite Z.eqb_refl. Qed.

Lemma decode_other fs ls data : Forall other_ok fs -> decode_lines (map other_line fs ++ ls) data = decode_lines ls data.
Proof.
  induction 1 as [|f fs (_ & Hu & Ht & Hs & _) _ IH]; [done|]. cbn [map app decode_lines]. unfold on_line. rewrite Hu. cbn [negb].
  destruct (trim_newlines (other_line f)) eqn:E; [done|]. by rewrite Hs.
Qed.

Lemma decode_payload p ls : payload_ok p -> decode_lines (data_line p :: [10] :: ls) [] =
  let '(rs, e) := decode_lines ls [] in (match parse_sse_data p with Ok (Some r) => r :: rs | _ => rs end, e).
Proof.
  intros (Hn & Hu & Hl & Hlen & Hp). assert (E : on_line [] (data_line p) = Ok (p, None)).
  { unfold on_line. rewrite Hu, trim_data by done. cbn [negb]. destruct (DATA ++ 32 :: p) as [|x y] eqn:E; [done|]. rewrite <- E. clear x y E.
    rewrite strip_bytes_app. change (strip_bytes [32] (32 :: p)) with (Some p). change ((if (length ([] : bytes) =? 0)%nat then [] else [] ++ [10]) ++ default (32 :: p) (Some p)) with p. cbv zeta.
    unfold data_line in Hlen. rewrite !length_app in Hlen. cbn [length] in Hlen. by rewrite (proj2 (Nat.ltb_ge MAX_SSE_EVENT_BYTES (length p))) by lia. }
  cbn [decode_lines]. rewrite E. change (on_line p [10]) with (let? r := parse_sse_data p in Ok ([] : bytes, r)).
  destruct (parse_sse_data p) as [[r|]|e]; [done| |done]. cbn. by destruct (decode_lines ls []).
Qed.

Lemma decode_events evs : Forall event_ok evs -> decode_lines (concat (map event_lines evs)) [] = (omap record_of evs, None).
Proof.
  induction 1 as [|e evs [Ho Hp] _ IH]; [done|]. cbn [map concat]. unfold event_lines at 1. rewrite <- !app_assoc, decode_other by done.
  cbn [app]. rewrite decode_payload, IH by done.
  change (omap record_of (e :: evs)) with (match record_of e with Some r => r :: omap record_of evs | None => omap record_of evs end).
  assert (E : record_of e = match parse_sse_data (se_payload e) with Ok o => o | Err _ => None end) by done. rewrite E.
  by destruct (parse_sse_data (se_payload e)) as [[r|]|].
Qed.

Lemma event_lines_ok e : event_ok e -> Forall line_ok (event_lines e) /\ Forall (fun l => (length l <= MAX_SSE_EVENT_BYTES)%nat) (event_lines e).
Proof.
  intros [Ho Hp]. unfold event_lines. rewrite !Forall_app, !Forall_map. split; (split; [eapply Forall_impl; [exact Ho|]; intros f Hf|]).
  - destruct Hf as (Hf & _). by exists f.
  - destruct Hp as (Hp & _). constructor; [|constructor; [by exists []|done]]. exists (DATA ++ 32 :: se_payload e). split; [done|].
    apply Forall_app. split; [unfold DATA; repeat constructor; done|by constructor].
  - apply Hf.
  - destruct Hp as (_ & _ & _ & Hp & _). constructor; [exact Hp|]. constructor; [|done].
    unfold data_line in Hp. rewrite !length_app in Hp. cbn in *. lia.
Qed.

(** C8: decoding undoes encoding. Whatever the lengths of the chunks in which the text of some events
    arrives, a reader that asks for records until there are no more gets the record of every event
    that carries one, in order and each once, passes over the greeting, the farewell, comments and
    other fields, and then sees the stream end the way it ended. *)
Theorem sse_roundtrip evs chunks fin out fuel :
  Forall event_ok evs -> concat chunks = encode evs -> final fin out -> (length (concat (map event_lines evs)) < fuel)%nat ->
  received fuel (map Bytes chunks ++ [fin]) SseDecoder_default = (omap record_of evs, out).
Proof.
  intros He Hc Hfin Hf. assert (Hl : Forall line_ok (concat (map event_lines evs)) /\
    Forall (fun l => (length l <= MAX_SSE_EVENT_BYTES)%nat) (concat (map event_lines evs))).
  { clear -He. induction He as [|e evs He _ [IH1 IH2]]; [done|]. cbn. destruct (event_lines_ok e He) as [H1 H2]. by rewrite !Forall_app. }
  destruct Hl as [Hl Hs]. assert (E : lines_of ([] ++ concat chunks) = (concat (map event_lines evs), [])).
  { cbn [app]. rewrite Hc. unfold encode. rewrite <- (app_nil_r (concat (concat _))), lines_of_lines by done. cbn. by rewrite app_nil_r. }
  unfold SseDecoder_default. rewrite (received_lines fin out chunks Hfin fuel [] [] _ _) with (2 := E); [|unfold short; rewrite E; split; [done|cbn; lia]|done].
  by rewrite decode_events.
Qed.
End Spec.

(** *** A greeting, a comment and two records *)

Definition toy_record (b : bytes) : PaymentRecord :=
  HorizonIngest.mkPaymentRecord (str_of b) (str_of b) "payment" None true None None None None None None None None None None None None.
Definition toy_json : RecordJson := {| parse_record := fun b => Some (toy_record b) |}.

Definition demo_events : list SseEvent :=
  [mkSseEvent [bytes_of "retry: 1000"; bytes_of "event: open"] (34 :: bytes_of "hello" ++ [34]);
   mkSseEvent [bytes_of ": comment"; bytes_of "id: 7"] (bytes_of "{7}"); mkSseEvent [] (bytes_of "{8}")].

Lemma below_max n : (Z.of_nat n <=? 1048576) = true -> (n <= MAX_SSE_EVENT_BYTES)%nat.
Proof. unfold MAX_SSE_EVENT_BYTES. lia. Qed.

Lemma sse_roundtrip_witness :
  @received toy_json 40 (map Bytes [take 3 (encode demo_events); take 40 (drop 3 (encode demo_events)); drop 43 (encode demo_events)] ++ [Closed])
    SseDecoder_default = ([toy_record (bytes_of "{7}"); toy_record (bytes_of "{8}")], Ended).
Proof.
  apply (@sse_roundtrip toy_json demo_events _ Closed Ended).
  - unfold demo_events. repeat (apply Forall_cons; split); try apply Forall_nil; try exact I;
      (split; [repeat (apply Forall_cons; split); try (apply Forall_nil; exact I)|]);
      (split_and!; [vm_compute; repeat constructor; discriminate|reflexivity|vm_compute; discriminate|first [reflexivity|apply below_max; reflexivity]|first [reflexivity|apply below_max; reflexivity]]).
  - reflexivity.
  - constructor.
  - cbn [length]. vm_compute. lia.
Defined.
End Sse.
