(* ===== verification/Streaming.v ===== *)
(** * Payment streams

    [crates/ingest/src/stream.rs] with [open_payment_stream] of [horizon.rs]: one wallet's stream of
    operations ([stream_session], [run_stream]), the delay before it is opened again
    ([reconnect_delay]), and the set of streams of a leader ([StreamSet]).

    What Horizon answers and sends is [Streams], what the task meets besides is [Session]: the clock,
    the readings of the breaker, and after which records the shutdown wins the race. The first theorem
    extends [ExactlyOnce] from polls to any mixture of polls and streams. *)

From S2P Require Import Prelude Float64 Resilience Db Amount Toid Store WalletAddress PaymentLinks HorizonIngest Ingest ExactlyOnce Redact Sse.

Module Streaming.
Import Db Store WalletAddress HorizonIngest Ingest ExactlyOnce.
Import Sse (Wire(..), Next(..), SseDecoder, SseDecoder_default, RecordJson, next_record, received).
Local Open Scope db_scope.

(** ** Reconnecting *)

(** Durations are in nanoseconds. *)
Definition SECOND : Z := 1000000000.
Definition STREAM_IDLE_TIMEOUT : Z := 60 * SECOND.
Definition HEALTHY_SESSION : Z := 30 * SECOND.
Definition RECONNECT_BASE : Z := 1 * SECOND.
Definition RECONNECT_MAX : Z := 300 * SECOND.

(** [1u32.checked_shl(unhealthy.min(16))] is never [None]; [saturating_mul] stays far below its bound. *)
Definition reconnect_delay (unhealthy : Z) (wallet_id : Uuid) : Z :=
  let factor := Z.shiftl 1 (Z.min unhealthy 16) in
  let base := Z.min (RECONNECT_BASE * factor) RECONNECT_MAX in
  let jitter_pct := wallet_id mod 26 in
  Z.min (base + base * jitter_pct / 100) RECONNECT_MAX.

(** ** Opening a stream *)

(** No response in time, or a status and what arrives after it. *)
Inductive StreamResponse := NoStream | Opened (status : Z) (wire : list Wire).

(** The answer to the n-th request, at a URL and from a cursor. *)
Definition Streams : Type := nat -> string -> string -> StreamResponse.

Record Session := mkSession {
  ss_clock : Z;                            (* the host's clock, for the ledger ceiling *)
  ss_check : Z * Z;                        (* [circuit.check()] *)
  ss_during : list Resilience.event;       (* other users of the breaker, while connecting *)
  ss_fail : Z;                             (* [circuit.on_failure()] *)
  ss_cancelled : nat -> bool;              (* the shutdown wins the [select!] of this turn *)
  ss_elapsed : Z
}.

Definition stream_url (base_url account_g : string) : string :=
  trim_end_matches "/"%char base_url +:+ "/accounts/" +:+ account_g +:+ "/operations".

Definition set_circuit (h : HorizonPayments) (c : Resilience.CircuitBreaker) : HorizonPayments :=
  mkHorizonPayments (hp_base_url h) (hp_retry h) c (hp_requests h).

Section Stream.
Context `{Strkey} `{RecordJson}.
Variable out : Outside.
Variable streams : Streams.
Variables (wallet_id : Uuid) (account_g : string) (webhooks tracker : bool).

Definition open_payment_stream (cursor : string) (p : Session) (h : HorizonPayments) :
    option (result (list Wire) HorizonError) * HorizonPayments :=
  let '(ok, c) := Resilience.check (hp_circuit h) (fst (ss_check p)) (snd (ss_check p)) in
  match ok with
  | Err _ => (Some (Err CircuitOpenError), set_circuit h c)
  | Ok _ =>
      let n := hp_requests h in
      let c := fold_left Resilience.apply_event (ss_during p) c in
      let h := mkHorizonPayments (hp_base_url h) (hp_retry h) c (S n) in
      match streams n (stream_url (hp_base_url h) account_g) cursor with
      | NoStream => (Some (Err Request), set_circuit h (Resilience.on_failure c (ss_fail p)))
      | Opened status wire =>
          if is_server_error status then (Some (Err Request), set_circuit h (Resilience.on_failure c (ss_fail p))) else
          let h := set_circuit h (Resilience.on_success c) in
          if negb (is_success status) then (Some (Err Request), h) else (Some (Ok wire), h)
      end
  end.

(** ** One session *)

Definition process := Ingest.process out wallet_id account_g webhooks.

(** The loop; [n] counts its turns. The fuel is the number of turns that the wire can give. *)
Fixpoint session_loop (p : Session) (fuel n : nat) (wire : list Wire) (d : SseDecoder) : M (result unit IngestError) :=
  match fuel with
  | O => ret (Ok tt)
  | S fuel =>
      if ss_cancelled p n then ret (Ok tt) else
      match next_record wire d with
      | (TimedOut, _) => ret (Ok tt)
      | (Failed _, _) => ret (Err HorizonFailed)
      | (Ended, _) => ret (Ok tt)
      | (Got rec, (wire, d)) =>
          try _ <- process (ss_clock p) rec | (fun e => e);
          try _ <- set_cursor wallet_id (r_paging_token rec) | StoreFailed;
          do _ <- record_poll_success wallet_id tracker;
          session_loop p fuel (S n) wire d
      end
  end.

(** Every record takes a line from the wire. *)
Definition wire_bytes (w : Wire) : nat := match w with Bytes b => length b | _ => 0 end.
Definition wire_fuel (wire : list Wire) : nat := S (list_sum (map wire_bytes wire)).

Definition stream_session (p : Session) : M (result unit IngestError) :=
  try cursor <- get_cursor wallet_id | StoreFailed;
  let cursor := default "0" cursor in
  try wire <- horizon_call (open_payment_stream cursor p) | (fun _ => HorizonFailed);
  do _ <- emit (StreamOpened wallet_id);
  do _ <- record_poll_success wallet_id tracker;
  session_loop p (wire_fuel wire) 0 wire SseDecoder_default.

(** ** Keeping a stream open *)

(** The sessions of a stream until it is cancelled. *)
Fixpoint run_sessions (ps : list Session) (unhealthy : Z) : M unit :=
  match ps with
  | [] => ret tt
  | p :: ps =>
      do outcome <- stream_session p;
      do _ <- emit (StreamClosed wallet_id);
      let unhealthy := if is_ok outcome && (HEALTHY_SESSION <=? ss_elapsed p) then 0 else Z.min (unhealthy + 1) u32_MAX in
      do _ <- emit (Paused (reconnect_delay unhealthy wallet_id));
      run_sessions ps unhealthy
  end.
Definition run_stream (ps : list Session) : M unit := do _ <- run_sessions ps 0; emit (StreamClosed wallet_id).
End Stream.

(** ** The streams of a leader *)

(** A task: whether it has been told to stop, and whether it has ended. *)
Record StreamTask := mkStreamTask { st_wallet : Uuid; st_cancelled : bool; st_finished : bool }.

(** The tasks that [sync] keeps an entry for, and those that it let go of. *)
Record StreamSet := mkStreamSet { sset_tasks : list StreamTask; sset_dropped : list StreamTask }.

Definition cancel (t : StreamTask) : StreamTask := mkStreamTask (st_wallet t) true (st_finished t).
Definition has_task (id : Uuid) (ts : list StreamTask) : bool := existsb (fun t => bool_decide (st_wallet t = id)) ts.

Definition start_missing (ts : list StreamTask) (w : Wallet) : list StreamTask :=
  if has_task (w_id w) ts then ts else ts ++ [mkStreamTask (w_id w) false false].

Definition sync (s : StreamSet) (wanted : list Wallet) : StreamSet :=
  let keep t := bool_decide (st_wallet t ∈ map w_id wanted) && negb (st_finished t) in
  let kept := List.filter keep (sset_tasks s) in
  let dropped := map cancel (List.filter (fun t => negb (keep t)) (sset_tasks s)) in
  mkStreamSet (fold_left start_missing wanted kept) (sset_dropped s ++ dropped).

(** ** Streams credit once *)

Section Once.
Context `{sk : Strkey} `{rj : RecordJson}.
Variable out : Outside.
Variables (wallet_id : Uuid) (account_g : string) (webhooks tracker : bool).
Variables (base_url : string) (retry : Resilience.RetryPolicy).
Variable chain : list PaymentRecord.
Variable claim_fact : string -> option ClaimCredit.
Variable origin_fact : string -> option ClaimOrigin.
Hypothesis H_horizon : horizon_ok out account_g base_url retry chain claim_fact origin_fact.

Notation Inv := (Inv wallet_id account_g chain claim_fact origin_fact).
Notation good := (good wallet_id account_g chain claim_fact origin_fact).
Notation rely := (rely wallet_id account_g chain claim_fact origin_fact).
Notation client_ok := (client_ok base_url retry).

Lemma emit_spec (P C : State -> Prop) e : triple rely client_ok P (emit e) (fun _ => P) C.
Proof. by apply triple_ext_call. Qed.

Lemma session_loop_spec p fuel : forall n wire d pre post,
  chain = pre ++ fst (received fuel wire d) ++ post ->
  triple rely client_ok (good pre) (session_loop out wallet_id account_g webhooks tracker p fuel n wire d) (fun _ => Inv) Inv.
Proof using H_horizon.
  assert (Hret : forall pre (r : result unit IngestError), triple rely client_ok (good pre) (ret r) (fun _ => Inv) Inv)
    by (intros pre r; apply triple_ret; by intros s [? _]).
  induction fuel as [|fuel IH]; intros n wire d pre post; cbn [session_loop received]; [intros _; apply Hret|].
  destruct (ss_cancelled p n); [intros _; apply Hret|]. destruct (next_record wire d) as [[rec| |e|] [wire' d']]; try (intros _; apply Hret).
  specialize (IH (S n) wire' d'). destruct (received fuel wire' d') as [rs nx]. cbn [fst] in *. intros Hch.
  assert (Hr : rec ∈ chain) by (rewrite Hch; set_solver).
  eapply triple_try; [by eapply process_spec| |by intros e s [[] _]].
  intros r. eapply triple_try with (R := fun _ => good (pre ++ [rec])); [| |by intros e s []].
  - eapply triple_conseq; [apply (set_cursor_spec _ _ _ _ _ _ _ pre rec (rs ++ post)); by rewrite Hch| |done|done].
    intros s [[Hi Hc] Hrec]. split; [done|]. apply covered_snoc. auto.
  - intros _. eapply triple_bind; [apply record_poll_success_spec|]. intros ?. apply (IH (pre ++ [rec]) post). rewrite Hch. by rewrite <- app_assoc.
Qed.

Variable streams : Streams.

(** Horizon sends the part of the history that follows the cursor, from the start for the cursor 0. *)
Definition streams_ok : Prop := forall n c status wire,
  (c = None \/ exists r, r ∈ chain /\ c = Some (r_paging_token r)) ->
  streams n (stream_url base_url account_g) (default "0" c) = Opened status wire -> is_success status = true ->
  let sent := fst (received (wire_fuel wire) wire SseDecoder_default) in
  sent = [] \/ exists pre post, chain = pre ++ sent ++ post /\ cursor_at c pre.
Hypothesis H_streams : streams_ok.

Lemma open_stream_spec cursor p h : hp_base_url h = base_url ->
  let '(r, h') := open_payment_stream streams account_g cursor p h in
  hp_base_url h' = base_url /\ hp_retry h' = hp_retry h /\
  exists r', r = Some r' /\ forall wire, r' = Ok wire ->
    exists n status, streams n (stream_url base_url account_g) cursor = Opened status wire /\ is_success status = true.
Proof.
  intros Hb. unfold open_payment_stream. destruct (Resilience.check _ _ _) as [[|] c]; [|split_and!; [done..|]; by eexists].
  cbv zeta. cbn [hp_base_url set_circuit hp_retry hp_circuit hp_requests]. rewrite Hb. destruct (streams _ _ cursor) as [|status wire] eqn:Es; [split_and!; [done..|]; by eexists|].
  destruct (is_server_error status); [split_and!; [done..|]; by eexists|].
  destruct (is_success status) eqn:Eo; cbn [negb]; (split_and!; [done..|]); eexists; (split; [done|]); [|done].
  intros w [= <-]. eauto.
Qed.

Lemma stream_session_spec p :
  triple rely client_ok Inv (stream_session out streams wallet_id account_g webhooks tracker p) (fun _ => Inv) Inv.
Proof using H_horizon H_streams.
  unfold stream_session. eapply triple_try; [apply get_cursor_spec| |done].
  intros c. intros w (pre & post & Hch & Hat & Hg) Hw. revert w Hg Hw.
  change (triple rely client_ok (good pre)
    (try_bind (horizon_call (open_payment_stream streams account_g (default "0" c) p)) (fun _ => HorizonFailed)
       (fun wire => bind (emit (StreamOpened wallet_id)) (fun _ => bind (record_poll_success wallet_id tracker)
          (fun _ => session_loop out wallet_id account_g webhooks tracker p (wire_fuel wire) 0 wire SseDecoder_default)))) (fun _ => Inv) Inv).
  eapply triple_try with (R := fun r s => good pre s /\ forall wire, r = Ok wire ->
    exists post', chain = pre ++ fst (received (wire_fuel wire) wire SseDecoder_default) ++ post').
  - intros w Hg [Ht [Hb Hr]]. unfold horizon_call. pose proof (open_stream_spec (default "0" c) p (x_horizon (ext w)) Hb) as Ho.
    destruct (open_payment_stream _ _ _ _ _) as [r h']. destruct Ho as (Hb' & Hr' & r' & -> & Hwire). cbn [fst snd].
    split; [split; [done|]; split; [done|]; cbn; congruence|]. split; [done|]. intros wire ->.
    destruct (Hwire _ eq_refl) as (n & status & Es & Eo). assert (Hc : c = None \/ exists r, r ∈ chain /\ c = Some (r_paging_token r)).
    { destruct c as [t|]; [right|by left]. destruct Hat as (q & r & -> & <-). exists r. split; [rewrite Hch; set_solver|done]. }
    destruct (H_streams n c status wire Hc Es Eo) as [-> |(pre' & post' & Hch' & Hat')]; [by exists post|].
    assert (pre' = pre) as -> by (by eapply nodup_token_prefix). by exists post'.
  - intros wire w [Hg Hp]. destruct (Hp _ eq_refl) as [post' Hch']. refine (triple_bind _ _ _ _ (good pre) (fun _ => good pre) (fun _ => Inv) Inv _ _ w Hg).
    + apply emit_spec.
    + intros _. eapply triple_bind with (R := fun _ => good pre); [apply record_poll_success_spec|]. intros _. by eapply session_loop_spec.
  - by intros e s [[] _].
Qed.

Lemma run_stream_spec ps : preserves rely client_ok Inv (run_stream out streams wallet_id account_g webhooks tracker ps).
Proof using H_horizon H_streams.
  unfold run_stream. apply preserves_bind; [|intros; apply emit_spec]. generalize 0.
  induction ps as [|p ps IH]; intros u; cbn [run_sessions]; [apply preserves_ret|].
  apply preserves_bind; [apply stream_session_spec|]. intros r. apply preserves_bind; [apply emit_spec|]. intros _.
  apply preserves_bind; [apply emit_spec|]. intros _. apply IH.
Qed.

(** ** Polls and streams together *)

(** What a wallet sees in the course of time: a poll, the mark that follows it, and a stream. *)
Inductive Activity := Poll (limit clock : Z) | Mark | Stream (ps : list Session).

Definition perform (a : Activity) (w : World State Ext) : World State Ext :=
  match a with
  | Poll limit clock => snd (poll_once out wallet_id account_g webhooks tracker clock limit w)
  | Mark => snd (mark_polled wallet_id w)
  | Stream ps => snd (run_stream out streams wallet_id account_g webhooks tracker ps w)
  end.

Lemma same_cursor_Inv s s' :
  transactions s' = transactions s /\ next_uuid s' = next_uuid s -> cursor_of s' wallet_id = cursor_of s wallet_id -> Inv s -> Inv s'.
Proof.
  intros [Ht Hn] Hc (H1 & H2 & H3 & (pre & post & H4 & H5 & H6)).
  unfold ExactlyOnce.Inv, ids_below, rows_ok, op_ids_unique, cursor_ok, covered, recorded in *. rewrite Ht, Hn, Hc. split_and!; [done..|]. by exists pre, post.
Qed.

Lemma cursor_of_mark now s : cursor_of (snd (mark_polled_stmt wallet_id now s)) wallet_id = cursor_of s wallet_id.
Proof.
  unfold mark_polled_stmt, upsert_cursor, cursor_of. destruct (existsb _ (ingest_cursor s)) eqn:E; cbn.
  - clear E. induction (ingest_cursor s) as [|c l IH]; [done|]. cbn. destruct (bool_decide (ic_wallet_id c = wallet_id)) eqn:Ec.
    + cbn. by rewrite bool_decide_eq_true_2.
    + rewrite Ec. exact IH.
  - destruct (existsb _ (wallets s)); [|done]. cbn. induction (ingest_cursor s) as [|c l IH]; cbn in *; [by destruct (bool_decide _)|].
    apply orb_false_iff in E as [E1 E2]. rewrite E1. auto.
Qed.

Lemma mark_polled_spec : preserves rely client_ok Inv (mark_polled wallet_id).
Proof.
  unfold mark_polled. apply preserves_bind; [|intros; apply preserves_ret].
  apply triple_db_call; [apply rely_refl|apply stable_Inv| |done].
  intros now s Hi. assert (Hi' : Inv (snd (mark_polled_stmt wallet_id now s))).
  { eapply same_cursor_Inv; [apply upsert_cursor_tables|apply cursor_of_mark|done]. }
  naive_solver.
Qed.

Lemma activities_Inv l w : Inv (db w) -> world_ok rely client_ok w ->
  Inv (db (fold_left (fun w a => perform a w) l w)).
Proof using H_horizon H_streams.
  revert w. induction l as [|a l IH]; intros w Hi Hw; [done|]. cbn [fold_left].
  assert (H : Inv (db (perform a w)) /\ world_ok rely client_ok (perform a w)); [|destruct H; by apply IH].
  destruct a as [limit clock| |ps]; cbn [perform].
  - destruct (poll_once_spec _ wallet_id _ webhooks tracker _ _ _ _ _ H_horizon clock limit w Hi Hw) as [Hw' Hi']. split; [by destruct (fst _)|done].
  - destruct (mark_polled_spec w Hi Hw) as [Hw' Hi']. split; [by destruct (fst _)|done].
  - destruct (run_stream_spec ps w Hi Hw) as [Hw' Hi']. split; [by destruct (fst _)|done].
Qed.
End Once.

(** *** The fuel of a session *)

Section Fuel.
Context `{rj : RecordJson}.
Import Sse.

Definition unread (wire : list Wire) (d : SseDecoder) : nat := list_sum (map wire_bytes wire) + length (sd_buf d).

Lemma split_line_length l line rest : split_line l = Some (line, rest) -> (length rest < length l)%nat.
Proof.
  revert line. induction l as [|b l IH]; intros line; cbn; [done|]. destruct (b =? 10); [intros [= _ <-]; lia|].
  destruct (split_line l) as [[line' rest']|]; [|done]. intros [= _ <-]. specialize (IH _ eq_refl). lia.
Qed.

Lemma next_loop_shrinks fuel d o d' : next_loop fuel d = (o, d') ->
  (length (sd_buf d') <= length (sd_buf d))%nat /\ (forall r, o = Ok (Some r) -> (length (sd_buf d') < length (sd_buf d))%nat).
Proof.
  revert d. induction fuel as [|fuel IH]; intros d; cbn; [by intros [= <- <-]|].
  destruct (split_line (sd_buf d)) as [[raw rest]|] eqn:E; [|by intros [= <- <-]]. apply split_line_length in E.
  destruct (on_line (sd_data d) raw) as [[data [r|]]|e]; [intros [= <- <-]; cbn; split; [lia|intros; lia]| |intros [= <- <-]; cbn; split; [lia|done]].
  intros [H1 H2]%IH. cbn in *. split; [lia|]. intros r Hr. specialize (H2 r Hr). lia.
Qed.

Lemma next_record_shrinks wire : forall d r wire' d', next_record wire d = (Got r, (wire', d')) -> (unread wire' d' < unread wire d)%nat.
Proof.
  induction wire as [|w wire IH]; intros d r wire' d'; cbn [next_record]; destruct (decoder_next d) as [[[x|]|e] d1] eqn:E; try done;
    apply next_loop_shrinks in E as [H1 H2].
  - intros [= -> <- <-]. specialize (H2 _ eq_refl). unfold unread. lia.
  - intros [= -> <- <-]. specialize (H2 _ eq_refl). unfold unread. lia.
  - destruct w as [b| | |]; try done. unfold feed. destruct (_ && _); [done|]. intros Hn%IH. unfold unread in *. cbn [sd_buf map list_sum wire_bytes] in *.
    rewrite length_app in Hn. unfold list_sum in *. cbn [fold_right]. lia.
Qed.

(** More fuel gives no more records: a session reads all that arrives. *)
Lemma received_all fuel k : forall wire d, (unread wire d < fuel)%nat -> received (fuel + k) wire d = received fuel wire d.
Proof.
  induction fuel as [|fuel IH]; intros wire d Hm; [lia|]. cbn [received Nat.add].
  destruct (next_record wire d) as [[r| |e|] [wire' d']] eqn:E; try done. apply next_record_shrinks in E. by rewrite IH by lia.
Qed.

Lemma session_fuel wire k : received (wire_fuel wire + k) wire SseDecoder_default = received (wire_fuel wire) wire SseDecoder_default.
Proof. apply received_all. unfold unread, wire_fuel. cbn. lia. Qed.
End Fuel.

(** C2: exactly once, with streams. Take any sequence of polls, marks and streams of a wallet, in which
    statements fail before or after taking effect, tasks die and are restarted, connections break at any
    byte and Horizon fails at will, while other connections change the database in any way that keeps the
    invariant. No operation gets more than one row, a row is the one that its operation deserves, and
    every operation before the cursor that deserves a credit has exactly one: a stream may take over from
    the polls and the polls from a stream at any point without a deposit being lost or counted twice. *)
Theorem stream_exactly_once `{Strkey} `{RecordJson} (out : Outside) (streams : Streams) (wallet_id : Uuid) (account_g : string)
    (webhooks tracker : bool) (base_url : string) (retry : Resilience.RetryPolicy) (chain : list PaymentRecord)
    (claim_fact : string -> option ClaimCredit) (origin_fact : string -> option ClaimOrigin) (l : list Activity) (w : World State Ext) :
  horizon_ok out account_g base_url retry chain claim_fact origin_fact -> streams_ok account_g base_url chain streams ->
  Inv wallet_id account_g chain claim_fact origin_fact (db w) ->
  world_ok (rely wallet_id account_g chain claim_fact origin_fact) (client_ok base_url retry) w ->
  once wallet_id account_g chain claim_fact origin_fact (db (fold_left (fun w a => perform out wallet_id account_g webhooks tracker streams a w) l w)).
Proof. intros Hh Hs Hi Hw. apply Inv_once. by eapply activities_Inv. Qed.

(** *** A stream that is cut in the middle of a record *)

Module Example.
Import WalletAddress.Toy ExactlyOnce.Example.

Definition text_json : RecordJson := {| Sse.parse_record := fun b =>
  if bool_decide (b = bytes_of "{1}") then Some rec1 else if bool_decide (b = bytes_of "{2}") then Some rec2 else None |}.

Definition text : list Z := Sse.encode [Sse.mkSseEvent [bytes_of "id: 1"] (bytes_of "{1}"); Sse.mkSseEvent [bytes_of "id: 2"] (bytes_of "{2}")].

(** The first connection breaks within the second record. *)
Definition demo_streams : Streams := fun n _ cursor =>
  if bool_decide (cursor = "0") then
    Opened 200 (if (n =? 0)%nat then [Bytes (take 7 text); Bytes (take 23 (drop 7 text)); Broken] else [Bytes text; Closed])
  else NoStream.

Lemma demo_streams_ok : @streams_ok text_json acct "https://h/" history demo_streams.
Proof.
  intros n c status wire Hc E _. unfold demo_streams in E. destruct c as [t|].
  - destruct Hc as [|(r & Hr & [= ->])]; [done|]. apply list_elem_of_In in Hr as [<-|[<-|[]]]; vm_compute in E; discriminate E.
  - change (bool_decide (default "0" None = "0")) with true in E. destruct (n =? 0)%nat; injection E as <- <-; right.
    + exists [], [rec2]. vm_compute. split; reflexivity.
    + exists [], []. vm_compute. split; reflexivity.
Qed.

Definition demo_session : Session := mkSession 0 (0, 0) [] 0 (fun _ => false) 5.

Lemma stream_exactly_once_witness :
  let s := db (fold_left (fun w a => @perform toy_strkey text_json horizon 1 acct true false demo_streams a w) [Stream [demo_session]; Poll 10 0; Mark] world0) in
  cursor_of s 1 = Some "12884905985" /\ map tx_amount_stroops (transactions s) = [125000000] /\ once 1 acct history no_claim no_origin s.
Proof.
  cbv zeta. split; [vm_compute; reflexivity|]. split; [vm_compute; reflexivity|].
  apply (@stream_exactly_once toy_strkey text_json horizon demo_streams 1 acct true false "https://h/" Resilience.RetryPolicy_default history
    no_claim no_origin [Stream [demo_session]; Poll 10 0; Mark] world0).
  - exact horizon_is_ok.
  - exact demo_streams_ok.
  - exact empty_db_Inv.
  - split; [|split; reflexivity]. unfold ticks_ok. cbn.
    repeat (apply Forall_cons_2; [intros s; apply rely_refl|]). apply Forall_nil_2.
Defined.
End Example.

(** ** Delays and the set of streams *)

Lemma jittered base id : 0 <= base <= RECONNECT_MAX -> base <= Z.min (base + base * (id mod 26) / 100) RECONNECT_MAX <= RECONNECT_MAX.
Proof.
  intros Hb. assert (0 <= id mod 26 < 26) by (apply Z.mod_pos_bound; lia). assert (0 <= base * (id mod 26) / 100) by (apply Z.div_pos; nia). lia.
Qed.

(** The delay is between the base and the cap, and grows with every unhealthy session. *)
Lemma reconnect_bounds n id : 0 <= n ->
  RECONNECT_BASE <= reconnect_delay n id <= RECONNECT_MAX /\ (forall m, n <= m -> reconnect_delay n id <= reconnect_delay m id) /\
  reconnect_delay 0 0 = RECONNECT_BASE.
Proof.
  intros Hn. assert (Hf : forall a b, 0 <= a <= b -> 1 <= Z.shiftl 1 (Z.min a 16) <= Z.shiftl 1 (Z.min b 16)).
  { intros a b Hab. rewrite !Z.shiftl_mul_pow2, !Z.mul_1_l by lia. split; [|apply Z.pow_le_mono_r; lia].
    change 1 with (2 ^ 0) at 1. apply Z.pow_le_mono_r; lia. }
  split; [|split; [|reflexivity]].
  - unfold reconnect_delay. pose proof (Hf n n ltac:(lia)) as Hs. set (f := Z.shiftl _ _) in *. set (base := Z.min (RECONNECT_BASE * f) RECONNECT_MAX).
    assert (Hb : RECONNECT_BASE <= base <= RECONNECT_MAX) by (unfold base, RECONNECT_BASE, RECONNECT_MAX, SECOND in *; lia).
    pose proof (jittered base id ltac:(unfold RECONNECT_BASE, SECOND in Hb; lia)). lia.
  - intros m Hm. unfold reconnect_delay. pose proof (Hf n m ltac:(lia)) as Hs. assert (0 <= id mod 26 < 26) by (apply Z.mod_pos_bound; lia).
    set (a := Z.min (RECONNECT_BASE * Z.shiftl 1 (Z.min n 16)) RECONNECT_MAX). set (b := Z.min (RECONNECT_BASE * Z.shiftl 1 (Z.min m 16)) RECONNECT_MAX).
    assert (Hab : 0 <= a <= b) by (unfold a, b, RECONNECT_BASE, RECONNECT_MAX, SECOND in *; lia).
    assert (a * (id mod 26) / 100 <= b * (id mod 26) / 100) by (apply Z.div_le_mono; nia). lia.
Qed.

Definition task_ids (s : StreamSet) : list Uuid := map st_wallet (sset_tasks s).

Lemma has_task_spec id ts : has_task id ts = true <-> id ∈ map st_wallet ts.
Proof.
  unfold has_task. rewrite existsb_exists, list_elem_of_In, in_map_iff. split; intros (t & H1 & H2); exists t; [by apply bool_decide_eq_true in H2|].
  subst id. by rewrite bool_decide_eq_true_2.
Qed.

Lemma filter_map_nodup {A B} (f : A -> B) (p : A -> bool) l : NoDup (map f l) -> NoDup (map f (List.filter p l)).
Proof.
  induction l as [|x l IH]; cbn; [done|]. intros [Hx Hnd]%NoDup_cons. destruct (p x); cbn; [|auto]. apply NoDup_cons. split; [|auto].
  intros (y & Ey & [Hy _]%filter_In)%list_elem_of_In%in_map_iff. apply Hx, list_elem_of_In, in_map_iff. eauto.
Qed.

Lemma filter_split {A B} (f : A -> B) (p : A -> bool) l :
  Permutation (map f (List.filter (fun x => negb (p x)) l) ++ map f (List.filter p l)) (map f l).
Proof.
  induction l as [|x l IH]; [done|]. cbn. destruct (p x); cbn; [|by apply perm_skip].
  etransitivity; [symmetry; apply Permutation_middle|by apply perm_skip].
Qed.

Lemma start_missing_spec wanted : forall ts, NoDup (map st_wallet ts) -> Forall (fun t => st_cancelled t = false /\ st_finished t = false) ts ->
  let ts' := fold_left start_missing wanted ts in
  NoDup (map st_wallet ts') /\ Forall (fun t => st_cancelled t = false /\ st_finished t = false) ts' /\
  (forall id, id ∈ map st_wallet ts' <-> id ∈ map st_wallet ts \/ id ∈ map w_id wanted).
Proof.
  induction wanted as [|w wanted IH]; intros ts Hnd Hok; cbn [fold_left map]; [split_and!; [done..|]; set_solver|].
  unfold start_missing at 2 4 6. destruct (has_task (w_id w) ts) eqn:E.
  - destruct (IH ts Hnd Hok) as (H1 & H2 & H3). split_and!; [done..|]. intros id. rewrite H3. apply has_task_spec in E. set_solver.
  - destruct (IH (ts ++ [mkStreamTask (w_id w) false false])) as (H1 & H2 & H3).
    + rewrite map_app. cbn. apply NoDup_app. split_and!; [done| |apply NoDup_singleton]. intros x Hx ->%list_elem_of_singleton.
      assert (has_task (w_id w) ts = true) by (by apply has_task_spec). congruence.
    + apply Forall_app. split; [done|]. by repeat constructor.
    + split_and!; [done..|]. intros id. rewrite H3, map_app. cbn. set_solver.
Qed.

(** A pass leaves one running task for every wanted wallet and none for any other; the tasks that it
    lets go of were not wanted or had ended, and every one of them has been told to stop. *)
Lemma sync_exact s wanted : NoDup (task_ids s) -> Forall (fun t => st_cancelled t = false) (sset_tasks s) ->
  let s' := sync s wanted in
  NoDup (task_ids s') /\ (forall id, id ∈ task_ids s' <-> id ∈ map w_id wanted) /\
  Forall (fun t => st_cancelled t = false /\ st_finished t = false) (sset_tasks s') /\
  exists let_go, sset_dropped s' = sset_dropped s ++ let_go /\ Forall (fun t => st_cancelled t = true /\ (st_wallet t ∉ map w_id wanted \/ st_finished t = true)) let_go /\
    Permutation (map st_wallet let_go ++ map st_wallet (List.filter (fun t => bool_decide (st_wallet t ∈ map w_id wanted) && negb (st_finished t)) (sset_tasks s))) (task_ids s).
Proof.
  intros Hnd Hc. unfold sync. set (keep := fun t => _ && _). cbv zeta. cbn [sset_tasks sset_dropped task_ids].
  assert (Hk : forall t, keep t = true <-> st_wallet t ∈ map w_id wanted /\ st_finished t = false).
  { intros t. unfold keep. rewrite andb_true_iff, bool_decide_eq_true, negb_true_iff. done. }
  destruct (start_missing_spec wanted (List.filter keep (sset_tasks s))) as (H1 & H2 & H3).
  - by apply filter_map_nodup.
  - apply Forall_forall. intros t Ht. apply list_elem_of_In, filter_In in Ht as [Ht Hkt]. apply Hk in Hkt as [_ Hf].
    rewrite Forall_forall in Hc. split; [apply Hc; by apply list_elem_of_In|done].
  - split_and!; [done| |done|].
    + intros id. unfold task_ids. cbn. rewrite H3. split; [|by right]. intros [Hi|Hi]; [|done].
      apply list_elem_of_In, in_map_iff in Hi as (t & <- & [_ Hkt]%filter_In). by apply Hk in Hkt as [? _].
    + eexists. split; [reflexivity|]. split.
      * apply Forall_map, Forall_forall. intros t Ht. apply list_elem_of_In, filter_In in Ht as [_ Hkt]. cbn. split; [done|].
        unfold keep in Hkt. apply negb_true_iff, andb_false_iff in Hkt as [Hn|Hf]; [left; by apply bool_decide_eq_false in Hn|right; by apply negb_false_iff in Hf].
      * unfold task_ids. rewrite map_map. exact (filter_split st_wallet keep (sset_tasks s)).
Qed.
End Streaming.
