(* ===== verification/Supervisor.v ===== *)
(** * The ingest supervisor

    One tick of the [Supervisor] of [crates/ingest/src/lib.rs] over the wallets that are due ([tick],
    [spawn_page], [settle]). It is written against an interface, [TickWorld]: how a page of due wallets
    is read, how one page of a wallet is polled, and whether a stream serves a wallet. Which of the
    waiting polls ends next is an oracle, so nothing depends on the order in which the runtime runs the
    tasks. [Leader] has the instance with the real polls and the schedule of [Wallets]. *)

From S2P Require Import Prelude Float64 Resilience Db Amount Toid Paging Store WalletAddress Wallets PaymentLinks HorizonIngest Ingest Streaming.

Module Supervisor.
Import Db Store.
Import HorizonIngest (Outside, PaymentRecord).
Import Wallets (ascending).

(** ** Constants *)

Definition FANOUT_PAGE_SIZE : Z := 500.
Definition MAX_STREAMS : Z := 200.
Definition MAX_CONCURRENT_POLLS : Z := 20.
Definition MAX_HORIZON_PAGE_LIMIT : Z := 200.
Definition MAX_PAGES_PER_TICK : Z := 10.
Definition MAX_RECORDS_PER_WALLET_PER_TICK : Z := 500.
Definition ACTIVE_AFTER_SECS : Z := 60 * 60.
Definition IDLE_INTERVAL_SECS : Z := 120.
Definition DORMANT_AFTER_SECS : Z := 24 * 60 * 60.
Definition DORMANT_INTERVAL_SECS : Z := 600.

(** ** Turns *)

Record WalletTurn := mkWalletTurn { tn_wallet : Wallet; tn_pages : Z; tn_records : Z }.

(** A page poll that was spawned, and how it ended: with some records, an error or a panic. *)
Record PageTask := mkPageTask { pt_turn : WalletTurn; pt_limit : Z }.
Inductive PageOutcome := Polled (n : Z) | PollFailed | Panicked.

Definition wallet_of (t : PageTask) : Uuid := w_id (tn_wallet (pt_turn t)).

(** [saturating_sub] on [usize] and [try_from(..).unwrap_or(u32::MAX)]. *)
Definition spawn_page (page_limit : Z) (turn : WalletTurn) : PageTask :=
  let remaining := Z.max 0 (MAX_RECORDS_PER_WALLET_PER_TICK - tn_records turn) in
  mkPageTask turn (Z.min page_limit (if remaining <=? u32_MAX then remaining else u32_MAX)).

(** The turn after its page. *)
Definition after_page (t : PageTask) (o : PageOutcome) : WalletTurn :=
  let turn := pt_turn t in
  mkWalletTurn (tn_wallet turn) (tn_pages turn + 1) (tn_records turn + match o with Polled n => n | _ => 0 end).

(** The records counted, and the page that is queued again. *)
Definition settle (page_limit : Z) (t : PageTask) (o : PageOutcome) : Z * list PageTask :=
  match o with
  | Polled n =>
      let turn := after_page t o in
      (n, if Ingest.page_was_full n (pt_limit t) && (tn_pages turn <? MAX_PAGES_PER_TICK) && (tn_records turn <? MAX_RECORDS_PER_WALLET_PER_TICK)
          then [spawn_page page_limit turn] else [])
  | _ => (0, [])
  end.

(** ** A tick *)

Class TickWorld (W : Type) := {
  (** [wallets_due_for_poll_page]: after this id, at most [FANOUT_PAGE_SIZE]. *)
  due_page : option Uuid -> W -> result (list Wallet) StoreError * W;
  (** The body of the task that [spawn_page] spawns. *)
  run_page : PageTask -> W -> PageOutcome * W;
  is_live : Uuid -> W -> bool
}.

(** The tasks that have not been joined, the count, and for the theorems the wallets that got a turn and
    the pages polled. *)
Record Pass := mkPass { ps_tasks : list PageTask; ps_total : Z; ps_seen : list Wallet; ps_polls : list (PageTask * PageOutcome) }.

Section Tick.
Context {W : Type} `{TickWorld W}.
(** Which of the tasks ends next, after so many have ended. *)
Variable pick : nat -> nat.

Definition join_next (page_limit : Z) (p : Pass) (w : W) : option (Pass * W) :=
  let i := (pick (length (ps_polls p)) mod length (ps_tasks p))%nat in
  match ps_tasks p !! i with
  | None => None
  | Some t =>
      let '(o, w) := run_page t w in
      let '(n, again) := settle page_limit t o in
      Some (mkPass (delete i (ps_tasks p) ++ again) (ps_total p + n) (ps_seen p) (ps_polls p ++ [(t, o)]), w)
  end.

(** [while tasks.len() > keep { join_next }] *)
Fixpoint drain (keep : nat) (fuel : nat) (page_limit : Z) (p : Pass) (w : W) : option (Pass * W) :=
  if (length (ps_tasks p) <=? keep)%nat then Some (p, w) else
  match fuel with
  | O => None
  | S fuel => let* q := join_next page_limit p w in drain keep fuel page_limit (fst q) (snd q)
  end.

(** Every task can still be queued this often. *)
Definition drain_fuel (p : Pass) : nat := 10 * length (ps_tasks p).

Definition spawn_wallet (page_limit : Z) (w : W) (p : Pass) (x : Wallet) : Pass :=
  if is_live (w_id x) w then p else
  mkPass (ps_tasks p ++ [spawn_page page_limit (mkWalletTurn x 0 0)]) (ps_total p) (ps_seen p ++ [x]) (ps_polls p).

(** The pages of due wallets; the error if one could not be read. *)
Fixpoint fan_out (fuel : nat) (page_limit : Z) (after : option Uuid) (p : Pass) (w : W) : option (option StoreError * Pass * W) :=
  match fuel with
  | O => None
  | S fuel =>
      match due_page after w with
      | (Err e, w) => Some (Some e, p, w)
      | (Ok page, w) =>
          let p := fold_left (spawn_wallet page_limit w) page p in
          if Z.of_nat (length page) <? FANOUT_PAGE_SIZE then Some (None, p, w) else
          let* q := drain (Z.to_nat FANOUT_PAGE_SIZE) (drain_fuel p) page_limit p w in
          fan_out fuel page_limit (w_id <$> last page) (fst q) (snd q)
      end
  end.

(** [page_limit] is a [u32]. *)
Definition tick_pass (fuel : nat) (page_limit : Z) (w : W) : option (result Z StoreError * Pass * W) :=
  let page_limit := Z.min (Z.max page_limit 1) MAX_HORIZON_PAGE_LIMIT in
  let* f := fan_out fuel page_limit None (mkPass [] 0 [] []) w in
  let '(error, p, w) := f in
  let* q := drain 0 (drain_fuel p) page_limit p w in
  let '(p, w) := q in
  Some (match error with Some e => Err e | None => Ok (ps_total p) end, p, w).
End Tick.

(** ** Laws *)

Class TickLaws {W : Type} `{TickWorld W} (ok : W -> Prop) (known : list Uuid) := {
  due_law : forall after w, ok w ->
    ok (snd (due_page after w)) /\ forall page, fst (due_page after w) = Ok page ->
      ascending page /\ (Z.of_nat (length page) <= FANOUT_PAGE_SIZE) /\
      Forall (fun x => (match after with Some a => a < w_id x | None => True end) /\ w_id x ∈ known) page;
  run_law : forall t w, ok w -> 1 <= pt_limit t ->
    ok (snd (run_page t w)) /\ forall n, fst (run_page t w) = Polled n -> 0 <= n <= pt_limit t
}.

(** The pages of a wallet, and their records. *)
Definition polls_of (id : Uuid) (l : list (PageTask * PageOutcome)) : list (PageTask * PageOutcome) :=
  List.filter (fun e => bool_decide (wallet_of (fst e) = id)) l.
Definition counted (o : PageOutcome) : Z := match o with Polled n => n | _ => 0 end.
Definition records_of (l : list (PageTask * PageOutcome)) : Z := foldr (fun e a => counted (snd e) + a) 0 l.

(** What is true of a pass at any time. *)
Record pass_ok (limit : Z) (p : Pass) : Prop := mkPassOk {
  seen_once : NoDup (map w_id (ps_seen p));
  tasks_once : NoDup (map wallet_of (ps_tasks p));
  tasks_seen : forall t, t ∈ ps_tasks p -> wallet_of t ∈ map w_id (ps_seen p);
  tasks_turn : forall t, t ∈ ps_tasks p ->
    tn_pages (pt_turn t) = Z.of_nat (length (polls_of (wallet_of t) (ps_polls p))) /\
    tn_records (pt_turn t) = records_of (polls_of (wallet_of t) (ps_polls p)) /\
    tn_pages (pt_turn t) < MAX_PAGES_PER_TICK /\ tn_records (pt_turn t) < MAX_RECORDS_PER_WALLET_PER_TICK /\
    pt_limit t = Z.min limit (MAX_RECORDS_PER_WALLET_PER_TICK - tn_records (pt_turn t));
  polls_budget : forall id, Z.of_nat (length (polls_of id (ps_polls p))) <= MAX_PAGES_PER_TICK /\
    0 <= records_of (polls_of id (ps_polls p)) <= MAX_RECORDS_PER_WALLET_PER_TICK;
  polls_limit : Forall (fun e => 1 <= pt_limit (fst e) <= limit /\ wallet_of (fst e) ∈ map w_id (ps_seen p)) (ps_polls p);
  polled_or_waiting : forall x, x ∈ ps_seen p -> w_id x ∈ map wallet_of (ps_tasks p) \/ polls_of (w_id x) (ps_polls p) <> [];
  total_counts : ps_total p = records_of (ps_polls p)
}.

Lemma polls_of_snoc id l e : polls_of id (l ++ [e]) = polls_of id l ++ (if bool_decide (wallet_of (fst e) = id) then [e] else []).
Proof. unfold polls_of. rewrite List.filter_app. cbn. by destruct (bool_decide _). Qed.

Lemma records_of_app a b : records_of (a ++ b) = records_of a + records_of b.
Proof. unfold records_of. induction a as [|e a IH]; cbn; [done|]. rewrite IH. lia. Qed.

Lemma polls_of_none id l : ~ id ∈ map (fun e => wallet_of (fst e)) l -> polls_of id l = [].
Proof.
  induction l as [|e l IH]; [done|]. cbn. intros Hn. rewrite bool_decide_eq_false_2 by set_solver. apply IH. set_solver.
Qed.

Section Passes.
Variable limit : Z.
Context (Hlimit : 1 <= limit <= MAX_HORIZON_PAGE_LIMIT).

Lemma spawn_limit turn : tn_records turn < MAX_RECORDS_PER_WALLET_PER_TICK -> 0 <= tn_records turn ->
  pt_limit (spawn_page limit turn) = Z.min limit (MAX_RECORDS_PER_WALLET_PER_TICK - tn_records turn).
Proof.
  intros H1 H2. unfold spawn_page, MAX_RECORDS_PER_WALLET_PER_TICK, u32_MAX in *. cbn [pt_limit].
  case_match; lia.
Qed.

(** The page of a task in its turn. *)
Lemma task_limit p t : pass_ok limit p -> t ∈ ps_tasks p -> 1 <= pt_limit t <= limit.
Proof using Hlimit. intros Hp Ht. destruct (tasks_turn _ _ Hp t Ht) as (_ & _ & _ & Hr & ->). unfold MAX_HORIZON_PAGE_LIMIT, MAX_RECORDS_PER_WALLET_PER_TICK in *. lia. Qed.

(** How often the tasks can still be queued. *)
Definition turns_left (ts : list PageTask) : Z := foldr (fun t a => MAX_PAGES_PER_TICK - tn_pages (pt_turn t) + a) 0 ts.

Lemma turns_left_app a b : turns_left (a ++ b) = turns_left a + turns_left b.
Proof. unfold turns_left. induction a as [|t a IH]; cbn; [done|]. rewrite IH. lia. Qed.

(** A task that is joined, between the others. *)
Lemma pass_settled a t b total seen polls o n again :
  pass_ok limit (mkPass (a ++ t :: b) total seen polls) -> (forall k, o = Polled k -> 0 <= k <= pt_limit t) ->
  settle limit t o = (n, again) ->
  pass_ok limit (mkPass (a ++ b ++ again) (total + n) seen (polls ++ [(t, o)])) /\ turns_left (a ++ b ++ again) < turns_left (a ++ t :: b).
Proof using Hlimit.
  intros Hp Ho Es. pose proof (task_limit _ t Hp ltac:(cbn; set_solver)) as Hlim. destruct (polls_budget _ _ Hp (wallet_of t)) as [_ Hrec0].
  destruct Hp as [H1 H2 H3 H4 H5 H6 H7 H8]. cbn [ps_tasks ps_total ps_seen ps_polls] in *.
  destruct (H4 t ltac:(set_solver)) as (E1 & E2 & Hpg & Hrc & Elim).
  assert (Hn : n = counted o /\ 0 <= n <= pt_limit t) by (destruct o as [k| |]; injection Es as <- <-; cbn; [specialize (Ho k eq_refl)| |]; lia).
  destruct Hn as [En Hn]. assert (Hag : again = [] \/ again = [spawn_page limit (after_page t o)] /\ tn_pages (pt_turn t) + 1 < MAX_PAGES_PER_TICK /\ tn_records (pt_turn t) + n < MAX_RECORDS_PER_WALLET_PER_TICK).
  { destruct o as [k| |]; cbn [settle] in Es; [|injection Es as <- <-; by left..]. injection Es as <- <-.
    destruct (_ && _) eqn:E; [right|by left]. cbn in E |- *. rewrite !andb_true_iff, !Z.ltb_lt in E. split; [done|]. cbn in En. lia. }
  rewrite map_app in H2. cbn [map] in H2. assert (Hother : forall x, x ∈ a ++ b -> wallet_of x <> wallet_of t).
  { intros x Hx E. apply NoDup_app in H2 as (_ & Hd & [Ht _]%NoDup_cons). apply elem_of_app in Hx as [Hx|Hx].
    - apply (Hd (wallet_of t)); [rewrite <- E; by apply list_elem_of_fmap_2|set_solver].
    - apply Ht. rewrite <- E. by apply list_elem_of_fmap_2. }
  assert (Hmine : forall x, x ∈ again -> wallet_of x = wallet_of t) by (destruct Hag as [-> |(-> & _)]; set_solver).
  split.
  - constructor; cbn [ps_tasks ps_total ps_seen ps_polls].
    + done.
    + rewrite app_assoc, map_app. apply NoDup_app. split_and!.
      * rewrite map_app. apply NoDup_app in H2 as (Ha & Hd & [_ Hb]%NoDup_cons). apply NoDup_app. split_and!; [done| |done]. intros x Hx Hx'. apply (Hd x Hx). set_solver.
      * intros x Hx Hx'. apply list_elem_of_fmap in Hx as (y & -> & Hy), Hx' as (z & E & Hz). apply (Hother y Hy). rewrite E. by apply Hmine.
      * destruct Hag as [-> |(-> & _)]; cbn; [constructor|apply NoDup_singleton].
    + intros x Hx. rewrite app_assoc in Hx. apply elem_of_app in Hx as [Hx|Hx]; [apply H3; set_solver|]. rewrite (Hmine x Hx). apply H3. set_solver.
    + intros x Hx. rewrite app_assoc in Hx. apply elem_of_app in Hx as [Hx|Hx].
      * rewrite polls_of_snoc. cbn [fst]. rewrite bool_decide_eq_false_2 by (intros E; by apply (Hother x Hx)). rewrite app_nil_r. apply H4. set_solver.
      * rewrite (Hmine x Hx), polls_of_snoc. cbn [fst]. rewrite bool_decide_eq_true_2, length_app, records_of_app by done. cbn.
        destruct Hag as [-> |(-> & Ha1 & Ha2)]; [by apply elem_of_nil in Hx|]. apply list_elem_of_singleton in Hx as ->. cbn [pt_turn spawn_page after_page tn_pages tn_records].
        change (match o with Polled n0 => n0 | _ => 0 end) with (counted o). rewrite <- En. split_and!; try lia.
        rewrite spawn_limit; cbn [after_page tn_records]; change (match o with Polled n0 => n0 | _ => 0 end) with (counted o); rewrite <- ?En; lia.
    + intros id. rewrite polls_of_snoc. cbn [fst]. case_bool_decide as Hid; [subst id|rewrite app_nil_r; apply H5].
      rewrite length_app, records_of_app. cbn. rewrite <- En. unfold MAX_PAGES_PER_TICK, MAX_RECORDS_PER_WALLET_PER_TICK in *. lia.
    + apply Forall_app. split; [done|]. constructor; [|done]. cbn. split; [done|apply H3; set_solver].
    + intros x Hx. rewrite polls_of_snoc. cbn [fst]. case_bool_decide as Hid; [right; intros E; by apply app_eq_nil in E as [_ ?]|]. rewrite app_nil_r.
      destruct (H7 x Hx) as [Hw|Hw]; [left|by right]. rewrite map_app in Hw. cbn in Hw. rewrite app_assoc, !map_app. set_solver.
    + rewrite records_of_app, H8. cbn. lia.
  - rewrite !turns_left_app. change (turns_left (t :: b)) with (MAX_PAGES_PER_TICK - tn_pages (pt_turn t) + turns_left b).
    destruct Hag as [-> |(-> & Ha1 & Ha2)]; [change (turns_left []) with 0; lia|].
    change (turns_left [spawn_page limit (after_page t o)]) with (MAX_PAGES_PER_TICK - (tn_pages (pt_turn t) + 1) + 0). lia.
Qed.
Context {W : Type} {tw : TickWorld W} (ok : W -> Prop) (known : list Uuid) {tl : TickLaws ok known}.
Variable pick : nat -> nat.

Lemma join_ok p w : pass_ok limit p -> ok w -> ps_tasks p <> [] ->
  exists p' w', join_next pick limit p w = Some (p', w') /\ pass_ok limit p' /\ ok w' /\ ps_seen p' = ps_seen p /\
    turns_left (ps_tasks p') < turns_left (ps_tasks p).
Proof using Hlimit tl.
  intros Hp Hw Ht. unfold join_next. set (i := (_ mod _)%nat).
  assert (Hi : (i < length (ps_tasks p))%nat) by (apply Nat.mod_upper_bound; by destruct (ps_tasks p)).
  destruct (lookup_lt_is_Some_2 _ _ Hi) as [t Et]. rewrite Et. pose proof (list_elem_of_lookup_2 _ _ _ Et) as Hin.
  pose proof (task_limit p t Hp Hin) as Hlim. destruct (run_law t w Hw ltac:(lia)) as [Hw' Hn].
  destruct (run_page t w) as [o w1]. cbn [fst snd] in *. destruct (settle limit t o) as [n again] eqn:Es.
  pose proof (take_drop_middle _ _ _ Et) as Em. rewrite delete_take_drop, <- app_assoc.
  destruct p as [ts total seen polls]. cbn [ps_tasks ps_total ps_seen ps_polls] in *. rewrite <- Em in Hp.
  destruct (pass_settled _ _ _ _ _ _ _ _ _ Hp Hn Es) as [Hp' Hlt]. rewrite Em in Hlt. eexists _, _. split; [reflexivity|]. done.
Qed.

Lemma turns_left_nonneg p : pass_ok limit p -> 0 <= turns_left (ps_tasks p) <= 10 * Z.of_nat (length (ps_tasks p)).
Proof.
  intros Hp. assert (H : Forall (fun t => 0 <= tn_pages (pt_turn t) < MAX_PAGES_PER_TICK) (ps_tasks p)).
  { apply Forall_forall. intros t Ht. destruct (tasks_turn _ _ Hp t Ht) as (E & _ & Hlt & _). lia. }
  clear Hp. induction H as [|t ts Ht _ IH]; cbn [turns_left foldr length] in *; [lia|].
  change (foldr _ 0 ts) with (turns_left ts). unfold MAX_PAGES_PER_TICK in *. lia.
Qed.

Lemma drain_ok keep fuel : forall p w, pass_ok limit p -> ok w -> turns_left (ps_tasks p) <= Z.of_nat fuel ->
  exists p' w', drain pick keep fuel limit p w = Some (p', w') /\ pass_ok limit p' /\ ok w' /\ ps_seen p' = ps_seen p /\ (length (ps_tasks p') <= keep)%nat.
Proof using Hlimit tl.
  induction fuel as [|fuel IH]; intros p w Hp Hw Hf; cbn [drain]; destruct (Nat.leb_spec (length (ps_tasks p)) keep) as [Hl|Hl];
    try (by exists p, w); (assert (Hne : ps_tasks p <> []) by (intros E; rewrite E in Hl; cbn in Hl; lia));
    destruct (join_ok p w Hp Hw Hne) as (p1 & w1 & E & Hp1 & Hw1 & Hs1 & Hlt); pose proof (turns_left_nonneg p1 Hp1).
  - lia.
  - rewrite E. cbn. destruct (IH p1 w1 Hp1 Hw1 ltac:(lia)) as (p2 & w2 & E2 & Hp2 & Hw2 & Hs2 & Hl2). exists p2, w2. rewrite E2, Hs2. done.
Qed.

Lemma drain_enough keep p w : pass_ok limit p -> ok w ->
  exists p' w', drain pick keep (drain_fuel p) limit p w = Some (p', w') /\ pass_ok limit p' /\ ok w' /\ ps_seen p' = ps_seen p /\ (length (ps_tasks p') <= keep)%nat.
Proof using Hlimit tl. intros Hp Hw. apply drain_ok; [done..|]. pose proof (turns_left_nonneg p Hp). unfold drain_fuel. lia. Qed.

(** A wallet that gets its turn. *)
Lemma spawn_ok w p x : pass_ok limit p -> w_id x ∉ map w_id (ps_seen p) -> pass_ok limit (spawn_wallet limit w p x).
Proof using Hlimit tl.
  intros Hp Hx. unfold spawn_wallet. destruct (is_live _ _); [done|]. destruct Hp as [H1 H2 H3 H4 H5 H6 H7 H8].
  assert (Hnp : polls_of (w_id x) (ps_polls p) = []).
  { apply polls_of_none. intros (e & E & He)%list_elem_of_fmap. rewrite Forall_forall in H6. apply Hx. rewrite E. by apply H6. }
  assert (Hw : wallet_of (spawn_page limit (mkWalletTurn x 0 0)) = w_id x) by done.
  constructor; cbn [ps_tasks ps_total ps_seen ps_polls].
  - rewrite map_app. apply NoDup_app. split_and!; [done| |apply NoDup_singleton]. intros y Hy ->%list_elem_of_singleton. done.
  - rewrite map_app. apply NoDup_app. split_and!; [done| |apply NoDup_singleton]. intros y Hy ->%list_elem_of_singleton.
    apply list_elem_of_fmap in Hy as (t & E & Ht). apply Hx. change (w_id x) with (wallet_of (spawn_page limit (mkWalletTurn x 0 0))). rewrite E. by apply H3.
  - intros t Ht. rewrite map_app. apply elem_of_app in Ht as [Ht| ->%list_elem_of_singleton]; [|rewrite Hw; set_solver]. specialize (H3 t Ht). set_solver.
  - intros t Ht. apply elem_of_app in Ht as [Ht| ->%list_elem_of_singleton]; [by apply H4|]. rewrite Hw, Hnp. rewrite spawn_limit by done. split_and!; done.
  - done.
  - eapply Forall_impl; [exact H6|]. cbn. intros e [He1 He2]. split; [done|]. rewrite map_app. set_solver.
  - intros y Hy. apply elem_of_app in Hy as [Hy| ->%list_elem_of_singleton].
    + destruct (H7 y Hy); [left; rewrite map_app; set_solver|by right].
    + left. rewrite map_app. cbn. set_solver.
  - done.
Qed.

Lemma spawn_seen w page : forall p, ps_seen (fold_left (spawn_wallet limit w) page p) = ps_seen p ++ List.filter (fun x => negb (is_live (w_id x) w)) page.
Proof.
  induction page as [|x page IH]; intros p; cbn; [by rewrite app_nil_r|]. rewrite IH. unfold spawn_wallet. destruct (is_live _ _); cbn; [done|].
  by rewrite <- app_assoc.
Qed.

Lemma spawn_page_ok w page : forall p, pass_ok limit p -> NoDup (map w_id page) -> (forall x, x ∈ page -> w_id x ∉ map w_id (ps_seen p)) ->
  pass_ok limit (fold_left (spawn_wallet limit w) page p).
Proof using Hlimit tl.
  induction page as [|x page IH]; intros p Hp Hnd Hx; [done|]. cbn in Hnd |- *. apply NoDup_cons in Hnd as [Hx1 Hnd]. apply IH.
  - apply spawn_ok; [done|]. apply Hx. set_solver.
  - done.
  - intros y Hy. assert (w_id y <> w_id x) by (intros E; apply Hx1; rewrite <- E; by apply list_elem_of_fmap_2). specialize (Hx y ltac:(set_solver)).
    unfold spawn_wallet. destruct (is_live _ _); [done|]. cbn. rewrite map_app. set_solver.
Qed.

(** *** The pages of due wallets *)

(** Those seen come no later than the cursor of the walk. *)
Definition seen_upto (after : option Uuid) (p : Pass) : Prop :=
  match after with Some a => Forall (fun x => w_id x <= a) (ps_seen p) | None => ps_seen p = [] end.

Definition beyond (after : option Uuid) : list Uuid := List.filter (fun i => match after with Some a => a <? i | None => true end) known.

Lemma ascending_last page : ascending page -> NoDup (map w_id page) /\ forall x, last page = Some x -> Forall (fun y => w_id y <= w_id x) page.
Proof.
  intros Ha. split.
  - induction Ha as [|x l _ IH Hx]; cbn; [constructor|]. apply NoDup_cons. split; [|done]. intros (y & E & Hy)%list_elem_of_fmap.
    rewrite Forall_forall in Hx. specialize (Hx y Hy). lia.
  - intros x (l & ->)%last_Some. apply Wallets.ascending_app in Ha as (_ & _ & Hl). apply Forall_app. split; [|constructor; [lia|done]].
    apply Forall_forall. intros y Hy. enough (w_id y < w_id x) by lia. apply Hl; set_solver.
Qed.

Lemma beyond_shrinks after page x :
  ascending page -> last page = Some x ->
  Forall (fun y => (match after with Some a => a < w_id y | None => True end) /\ w_id y ∈ known) page ->
  (length page + length (beyond (Some (w_id x))) <= length (beyond after))%nat.
Proof.
  intros Ha Hx Hp. destruct (ascending_last page Ha) as [Hnd Hle]. specialize (Hle x Hx).
  assert (Hax : match after with Some a => a < w_id x | None => True end).
  { rewrite Forall_forall in Hp. apply (Hp x). apply last_Some in Hx as [l ->]. set_solver. }
  set (mid := List.filter (fun i => (match after with Some a => a <? i | None => true end) && (i <=? w_id x)) known).
  assert (E : length (beyond after) = (length mid + length (beyond (Some (w_id x))))%nat).
  { unfold beyond, mid. clear -Hax. induction known as [|i l IH]; [done|]. cbn. destruct after as [a|]; cbn in *.
    - destruct (Z.ltb_spec a i), (Z.leb_spec i (w_id x)), (Z.ltb_spec (w_id x) i); cbn; try lia.
    - destruct (Z.leb_spec i (w_id x)), (Z.ltb_spec (w_id x) i); cbn; lia. }
  rewrite E. enough (length (map w_id page) <= length mid)%nat by (rewrite length_map in *; lia).
  apply NoDup_incl_length; [by apply NoDup_ListNoDup|]. intros i Hi. apply in_map_iff in Hi as (y & <- & Hy%list_elem_of_In). unfold mid. apply filter_In.
  rewrite Forall_forall in Hp, Hle. destruct (Hp y Hy) as [H1 H2]. specialize (Hle y Hy). split; [by apply list_elem_of_In|].
  apply andb_true_iff. split; [destruct after; lia|lia].
Qed.

Lemma fan_out_ok fuel : forall after p w, pass_ok limit p -> seen_upto after p -> ok w ->
  Z.of_nat (length (beyond after)) < FANOUT_PAGE_SIZE * Z.of_nat fuel ->
  exists e p' w', fan_out pick fuel limit after p w = Some (e, p', w') /\ pass_ok limit p' /\ ok w'.
Proof using Hlimit tl.
  induction fuel as [|fuel IH]; intros after p w Hp Hs Hw Hf; [lia|]. cbn [fan_out].
  destruct (due_law after w Hw) as [Hw1 Hd]. destruct (due_page after w) as [[page|e] w1]; cbn [fst snd] in *; [|by exists (Some e), p, w1].
  destruct (Hd page eq_refl) as (Ha & Hlen & Hpg). destruct (ascending_last page Ha) as [Hnd Hle].
  assert (Hp1 : pass_ok limit (fold_left (spawn_wallet limit w1) page p)).
  { apply spawn_page_ok; [done..|]. intros x Hx (y & E & Hy)%list_elem_of_fmap. rewrite Forall_forall in Hpg. destruct (Hpg x Hx) as [Hx1 _].
    destruct after as [a|]; [|cbn in Hs; rewrite Hs in Hy; by apply elem_of_nil in Hy]. cbn in Hs. rewrite Forall_forall in Hs. specialize (Hs y Hy). lia. }
  destruct (Z.ltb_spec (Z.of_nat (length page)) FANOUT_PAGE_SIZE) as [Hlt|Hge]; [by eexists _, _, _|].
  destruct (drain_enough (Z.to_nat FANOUT_PAGE_SIZE) _ w1 Hp1 Hw1) as (p2 & w2 & -> & Hp2 & Hw2 & Es & _). cbn [fst snd].
  destruct (last page) as [x|] eqn:El; [|apply last_None in El; subst page; cbn in Hge; unfold FANOUT_PAGE_SIZE in Hge; lia].
  apply IH; [done| |done|].
  - cbn. rewrite Es, spawn_seen. apply Forall_app. split.
    + assert (Hx : x ∈ page) by (apply last_Some in El as [l ->]; set_solver). rewrite Forall_forall in Hpg. destruct (Hpg x Hx) as [Hx1 _].
      destruct after as [a|]; cbn in Hs; [|by rewrite Hs]. eapply Forall_impl; [exact Hs|]. cbn. lia.
    + apply Forall_forall. intros y Hy. apply list_elem_of_In, filter_In in Hy as [Hy _]. specialize (Hle x eq_refl). rewrite Forall_forall in Hle. apply Hle. by apply list_elem_of_In.
  - pose proof (beyond_shrinks after page x Ha El Hpg). cbn. lia.
Qed.

(** *** A schedule that holds still *)

(** The wallets that are due, in order, when no other connection changes the schedule: polling a wallet
    changes nothing for those after it. *)
Definition steady (due : list Wallet) (live : Uuid -> bool) : Prop :=
  ascending due /\ forall w, ok w ->
    (forall after, fst (due_page after w) = Ok (take (Z.to_nat FANOUT_PAGE_SIZE) (Wallets.rest_after after due))) /\ forall id, is_live id w = live id.

Lemma live_filter (live : Uuid -> bool) w page : (forall id, is_live id w = live id) ->
  List.filter (fun x => negb (is_live (w_id x) w)) page = List.filter (fun x => negb (live (w_id x))) page.
Proof. intros H. apply filter_ext. intros x. by rewrite H. Qed.

Lemma fan_out_complete due live fuel : steady due live -> forall pre post after p w e p' w',
  due = pre ++ post -> Wallets.rest_after after due = post -> pass_ok limit p -> seen_upto after p -> ok w ->
  fan_out pick fuel limit after p w = Some (e, p', w') -> e = None /\ ps_seen p' = ps_seen p ++ List.filter (fun x => negb (live (w_id x))) post.
Proof using Hlimit tl.
  intros [Had Hst]. induction fuel as [|fuel IH]; intros pre post after p w e p' w' Ed Er Hp Hs Hw; [done|]. cbn [fan_out].
  destruct (Hst w Hw) as [Hd _]. specialize (Hd after). destruct (due_law after w Hw) as [Hw1 Hlaw].
  destruct (due_page after w) as [r w1]. cbn [fst snd] in *. subst r. rewrite Er in *. destruct (Hlaw _ eq_refl) as (Ha & Hlen & Hpg).
  destruct (Hst w1 Hw1) as [_ Hlive]. set (page := take (Z.to_nat FANOUT_PAGE_SIZE) post) in *. destruct (ascending_last page Ha) as [Hnd Hle].
  assert (Hp1 : pass_ok limit (fold_left (spawn_wallet limit w1) page p)).
  { apply spawn_page_ok; [done..|]. intros x Hx (y & E & Hy)%list_elem_of_fmap. rewrite Forall_forall in Hpg. destruct (Hpg x Hx) as [Hx1 _].
    destruct after as [a|]; [|cbn in Hs; rewrite Hs in Hy; by apply elem_of_nil in Hy]. cbn in Hs. rewrite Forall_forall in Hs. specialize (Hs y Hy). lia. }
  destruct (Z.ltb_spec (Z.of_nat (length page)) FANOUT_PAGE_SIZE) as [Hlt|Hge].
  { intros [= <- <- <-]. split; [done|]. rewrite spawn_seen, (live_filter live) by done. f_equal. f_equal. unfold page in *. rewrite length_take in Hlt.
    apply take_ge. lia. }
  destruct (drain_enough (Z.to_nat FANOUT_PAGE_SIZE) _ w1 Hp1 Hw1) as (p2 & w2 & -> & Hp2 & Hw2 & Es & _). cbn [fst snd].
  destruct (last page) as [x|] eqn:El; [|apply last_None in El; rewrite El in Hge; cbn in Hge; unfold FANOUT_PAGE_SIZE in Hge; lia].
  pose proof El as (mid & Em)%last_Some. pose proof (take_drop (Z.to_nat FANOUT_PAGE_SIZE) post) as Etd. fold page in Etd. rewrite Em in Etd.
  assert (Eall : due = (pre ++ mid) ++ x :: drop (Z.to_nat FANOUT_PAGE_SIZE) post) by (rewrite Ed, <- Etd at 1; by rewrite <- !app_assoc).
  intros Hf. destruct (IH (pre ++ mid ++ [x]) (drop (Z.to_nat FANOUT_PAGE_SIZE) post) (w_id <$> Some x) p2 w2 e p' w') as [-> Hseen]; [| |done| |done|done|].
  - rewrite Eall. by rewrite <- !app_assoc.
  - rewrite Eall. apply Wallets.rest_after_split. by rewrite <- Eall.
  - cbn. rewrite Es, spawn_seen. apply Forall_app. split.
    + assert (Hx : x ∈ page) by (rewrite Em; set_solver). rewrite Forall_forall in Hpg. destruct (Hpg x Hx) as [Hx1 _].
      destruct after as [a|]; cbn in Hs; [|by rewrite Hs]. eapply Forall_impl; [exact Hs|]. cbn. lia.
    + apply Forall_forall. intros y Hy. apply list_elem_of_In, filter_In in Hy as [Hy _]. specialize (Hle x eq_refl). rewrite Forall_forall in Hle. apply Hle. by apply list_elem_of_In.
  - split; [done|]. rewrite Hseen, Es, spawn_seen, (live_filter live) by done. rewrite <- app_assoc, <- List.filter_app. do 2 f_equal. apply take_drop.
Qed.
End Passes.

(** What a pass leaves: no task, every wallet within its budget, and the count of the records. *)
Record pass_done {W} `{TickWorld W} (r : result Z StoreError) (p : Pass) : Prop := mkPassDone {
  done_tasks : ps_tasks p = [];
  done_once : NoDup (map w_id (ps_seen p));
  done_budget : Forall (fun x => let l := polls_of (w_id x) (ps_polls p) in
    1 <= Z.of_nat (length l) <= MAX_PAGES_PER_TICK /\ 0 <= records_of l <= MAX_RECORDS_PER_WALLET_PER_TICK) (ps_seen p);
  done_limits : Forall (fun e => 1 <= pt_limit (fst e) <= MAX_HORIZON_PAGE_LIMIT /\ wallet_of (fst e) ∈ map w_id (ps_seen p)) (ps_polls p);
  done_count : forall n, r = Ok n -> n = records_of (ps_polls p)
}.

Lemma pass_bounded {W} {tw : TickWorld W} (ok : W -> Prop) (known : list Uuid) {tl : TickLaws ok known} pick fuel page_limit w :
  ok w -> Z.of_nat (length known) < FANOUT_PAGE_SIZE * Z.of_nat fuel ->
  exists r p w', tick_pass pick fuel page_limit w = Some (r, p, w') /\ ok w' /\ pass_done r p /\
    (forall due live, steady ok due live -> is_ok r = true /\ ps_seen p = List.filter (fun x => negb (live (w_id x))) due).
Proof.
  intros Hw Hf. unfold tick_pass. set (limit := Z.min (Z.max page_limit 1) MAX_HORIZON_PAGE_LIMIT).
  assert (Hlimit : 1 <= limit <= MAX_HORIZON_PAGE_LIMIT) by (unfold limit, MAX_HORIZON_PAGE_LIMIT; lia).
  assert (Hp0 : pass_ok limit (mkPass [] 0 [] [])) by (constructor; cbn; try constructor; try set_solver; unfold MAX_PAGES_PER_TICK, MAX_RECORDS_PER_WALLET_PER_TICK; lia).
  assert (Hb : beyond known None = known) by (unfold beyond; clear; induction known as [|i l IH]; cbn; [done|by rewrite IH]).
  destruct (fan_out_ok limit Hlimit ok known pick fuel None _ w Hp0 eq_refl Hw ltac:(by rewrite Hb)) as (e & p1 & w1 & Ef & Hp1 & Hw1).
  rewrite Ef. cbn [option_bind]. destruct (drain_enough limit Hlimit ok known pick 0 p1 w1 Hp1 Hw1) as (p2 & w2 & -> & Hp2 & Hw2 & Es & Hl). cbn [option_bind].
  assert (Ht : ps_tasks p2 = []) by (destruct (ps_tasks p2); [done|cbn in Hl; lia]).
  eexists _, p2, w2. split; [reflexivity|]. split; [done|]. split; [constructor|].
  - done.
  - apply Hp2.
  - apply Forall_forall. intros x Hx. destruct (polls_budget _ _ Hp2 (w_id x)) as [H1 H2]. split; [|done]. split; [|done].
    destruct (polled_or_waiting _ _ Hp2 x Hx) as [Hn|Hn]; [rewrite Ht in Hn; by apply elem_of_nil in Hn|]. destruct (polls_of _ _); [done|cbn; lia].
  - eapply Forall_impl; [apply Hp2|]. cbn. intros e0 [H1 H2]. split; [lia|done].
  - intros n. destruct e; [done|]. intros [= <-]. apply Hp2.
  - intros due live Hst. destruct (fan_out_complete limit Hlimit ok known pick due live fuel Hst [] due None _ w e p1 w1 eq_refl (Wallets.rest_after_None due) Hp0 eq_refl Hw Ef) as [-> Eseen].
    split; [done|]. rewrite Es, Eseen. done.
Qed.

(** C4: a tick is bounded, complete and fair to every wallet. Whatever the limit that is configured and
    whichever order the page polls end in, a tick ends; every wallet that got a turn is polled at least
    once, at most ten pages and at most 500 records, with a limit between 1 and 200 for every page, and
    no wallet gets two turns; the count it returns is that of the records. When no other connection
    changes the schedule, the wallets that get a turn are exactly those that are due and have no open
    stream, in the order of their ids. *)
Theorem tick_fair {W} {tw : TickWorld W} (ok : W -> Prop) (known : list Uuid) {tl : TickLaws ok known} pick fuel page_limit w :
  ok w -> Z.of_nat (length known) < FANOUT_PAGE_SIZE * Z.of_nat fuel ->
  exists r p w', tick_pass pick fuel page_limit w = Some (r, p, w') /\ ok w' /\ pass_done r p /\
    (forall due live, steady ok due live -> is_ok r = true /\ ps_seen p = List.filter (fun x => negb (live (w_id x))) due).
Proof. intros Hw Hf. exact (pass_bounded ok known pick fuel page_limit w Hw Hf). Qed.

(** *** Two wallets, one of them with a backlog, and one that streams *)

Definition demo_wallet (id : Z) : Wallet :=
  mkWallet id "testnet" "G" None None None None 0 None None None "client" None None 0 0 None false false None.

Definition demo_ids : list Uuid := [1; 2; 3].

(** The world is the backlog of wallet 1. *)
Definition demo_world : TickWorld Z := {|
  due_page := fun after w => (Ok (take (Z.to_nat FANOUT_PAGE_SIZE) (Wallets.rest_after after (map demo_wallet demo_ids))), w);
  run_page := fun t w => if wallet_of t =? 1 then let n := Z.max 0 (Z.min w (pt_limit t)) in (Polled n, w - n) else (PollFailed, w);
  is_live := fun id _ => id =? 3 |}.

Lemma demo_due after : Wallets.ascending (Wallets.rest_after after (map demo_wallet demo_ids)) /\
  Forall (fun x => (match after with Some a => a < w_id x | None => True end) /\ w_id x ∈ demo_ids) (Wallets.rest_after after (map demo_wallet demo_ids)) /\
  (length (Wallets.rest_after after (map demo_wallet demo_ids)) <= 3)%nat.
Proof.
  unfold Wallets.rest_after. cbn. destruct after as [a|].
  - destruct (Z.ltb_spec a 1), (Z.ltb_spec a 2), (Z.ltb_spec a 3); cbn; try (exfalso; lia); (split; [|split; [|cbn; lia]]); repeat constructor; cbn; try lia; set_solver.
  - split; [|split; [|cbn; lia]]; repeat constructor; cbn; try lia; set_solver.
Qed.

Definition demo_laws : @TickLaws Z demo_world (fun _ => True) demo_ids.
Proof.
  split.
  - intros after w _. split; [done|]. unfold due_page, demo_world. destruct (demo_due after) as (H1 & H2 & H3). revert H1 H2 H3.
    generalize (Wallets.rest_after after (map demo_wallet demo_ids)). intros l H1 H2 H3 page E. cbn [fst] in E.
    rewrite take_ge in E by (unfold FANOUT_PAGE_SIZE; lia). injection E as <-. split; [done|]. split; [unfold FANOUT_PAGE_SIZE; lia|done].
  - intros t w _ Hl. split; [done|]. intros n. cbn. destruct (wallet_of t =? 1); [|done]. cbn. intros [= <-]. lia.
Defined.

Lemma tick_fair_witness : exists p w',
  @tick_pass Z demo_world (fun n => n) 2 1000 700 = Some (Ok 500, p, w') /\ map w_id (ps_seen p) = [1; 2] /\ w' = 200.
Proof.
  destruct (@tick_fair Z demo_world (fun _ => True) demo_ids demo_laws (fun n => n) 2 1000 700 I ltac:(unfold FANOUT_PAGE_SIZE; cbn; lia)) as (r & p & w' & E & _ & _ & Hst).
  assert (Hs : steady (fun _ : Z => True) (tw := demo_world) (map demo_wallet demo_ids) (fun id => id =? 3)) by (split; [apply (demo_due None)|done]).
  destruct (Hst _ _ Hs) as [_ Eseen]. exists p, w'. rewrite Eseen. vm_compute in E. injection E as <- <- <-. split; [vm_compute; reflexivity|]. split; reflexivity.
Defined.
End Supervisor.
