(* ===== verification/Leader.v ===== *)
(** * Ticks of a leader

    The tick of [Supervisor] run with the real polls and the real schedule, and the sweep of stale payment
    intents that opens it. Its laws discharge the interface [Supervisor.TickLaws]; the loops around a tick
    are in [Leadership]. *)

From S2P Require Import Prelude Float64 Resilience Db Amount Toid Paging Store WalletAddress Wallets PaymentLinks HorizonIngest Ingest ExactlyOnce Redact Sse Streaming Supervisor.

Module Leader.
Import Db Store WalletAddress HorizonIngest Ingest PaymentLinks Supervisor.
Local Open Scope db_scope.

(** ** A tick with real polls *)

(** The set of [LiveStreams], from the streams opened and closed so far, the latest first. *)
Fixpoint live_in (id : Uuid) (effects : list effect) : bool :=
  match effects with
  | StreamOpened i :: rest => if bool_decide (i = id) then true else live_in id rest
  | StreamClosed i :: rest => if bool_decide (i = id) then false else live_in id rest
  | _ :: rest => live_in id rest
  | [] => false
  end.

Section Real.
Context `{Strkey}.
Variable out : Outside.
Variable network : string.
(** The host clock when a page is polled. *)
Variable clock : World State Ext -> Z.

(** [ingestor_for] attaches the webhooks and the tracker. *)
Definition poll_page (t : PageTask) : M (result Z IngestError) := fun w =>
  let x := tn_wallet (pt_turn t) in
  (do r <- poll_once out (w_id x) (w_stellar_account_g x) true true (clock w) (pt_limit t);
   do _ <- mark_polled (w_id x);
   ret r) w.

Definition due_query (after : option Uuid) : M (result (list Wallet) StoreError) :=
  do r <- query (fun now s => Wallets.wallets_due_for_poll_page network ACTIVE_AFTER_SECS IDLE_INTERVAL_SECS DORMANT_AFTER_SECS
                               DORMANT_INTERVAL_SECS (Some FANOUT_PAGE_SIZE) after now s);
  ret (map_err from_sqlx r).

(** A task that dies leaves what its statements did; a query that dies counts as one that failed. *)
Definition real_world : TickWorld (World State Ext) := {|
  due_page := fun after w => match due_query after w with (Ret r, w) => (r, w) | (Crashed, w) => (Err Database, w) end;
  run_page := fun t w => match poll_page t w with
                         | (Ret (Ok n), w) => (Polled n, w)
                         | (Ret (Err _), w) => (PollFailed, w)
                         | (Crashed, w) => (Panicked, w)
                         end;
  is_live := fun id w => live_in id (x_effects (ext w)) |}.

(** ** Stale payment intents *)

Definition expired_event (link : PaymentLink) (payment : PaymentLinkPayment) : Event :=
  mkEvent "payment_link.expired" (JObj [
    ("payment_link_id", JId (pl_id link)); ("payment_id", JId (p_id payment)); ("slug", JStr (pl_slug link));
    ("payer_name", json_opt JStr (p_payer_name payment)); ("payer_email", json_opt JStr (p_payer_email payment));
    ("amount_usdc_stroops", JNum (p_amount_usdc_stroops payment))]).

Fixpoint announce_expired (payments : list PaymentLinkPayment) : M unit :=
  match payments with
  | [] => ret tt
  | payment :: rest =>
      do link <- get_payment_link_by_id (p_payment_link_id payment);
      do _ <- match link with
              | Ok (Some link) => emit (Dispatch (pl_wallet_id link) (expired_event link payment))
              | _ => ret tt
              end;
      announce_expired rest
  end.

Definition sweep_expired : M unit :=
  do expired <- expire_stale_payment_link_payments;
  match expired with Ok rows => announce_expired rows | Err _ => ret tt end.

(** A whole tick: the sweep, then the pass; [None] when the process dies or the fuel runs out. *)
Definition tick (pick : nat -> nat) (fuel : nat) (page_limit : Z) (w : World State Ext) : option (result Z StoreError * World State Ext) :=
  match sweep_expired w with
  | (Crashed, _) => None
  | (Ret _, w) => let* r := @tick_pass _ real_world pick fuel page_limit w in Some (fst (fst r), snd r)
  end.
End Real.

(** ** The laws *)

Section Laws.
Context `{sk : Strkey}.
Variable out : Outside.
Variable network : string.
Variable clock : World State Ext -> Z.
(** The ids of the wallets that there can be. *)
Variable known : list Uuid.

(** Ids are unique and known. *)
Definition wallets_ok (s : State) : Prop := NoDup (map w_id (wallets s)) /\ Forall (fun i => i ∈ known) (map w_id (wallets s)).
Definition rely (s s' : State) : Prop := wallets_ok s -> wallets_ok s'.
Definition client_ok (x : Ext) : Prop := 0 <= Resilience.max_delay_ms (hp_retry (x_horizon x)).
Notation keeps := (preserves rely client_ok wallets_ok).

Lemma tick_keeps_call {A} (stmt : Z -> State -> result A sqlx_error * State) :
  (forall now s, wallets (snd (stmt now s)) = wallets s) -> keeps (db_call stmt).
Proof.
  intros Hs. apply preserves_db_call; [intros s Hw; exact Hw|intros s s' H1 H2; exact (H2 H1)|]. intros now s. unfold wallets_ok. by rewrite Hs.
Qed.

Lemma tick_keeps_query {A} (q : Z -> State -> A) : keeps (query q).
Proof. by apply tick_keeps_call. Qed.

Lemma keeps_emit e : keeps (emit e).
Proof. apply triple_ext_call; [|done]. intros x Hx. exact Hx. Qed.

Lemma keeps_horizon {A} (f : HorizonPayments -> option (result A HorizonError) * HorizonPayments) :
  (forall h, 0 <= Resilience.max_delay_ms (hp_retry h) -> hp_retry (snd (f h)) = hp_retry h) -> keeps (horizon_call f).
Proof.
  intros Hf w Hw [Ht Hx]. unfold horizon_call. specialize (Hf _ Hx). destruct (f (x_horizon (ext w))) as [o h']. cbn in Hf.
  destruct o; cbn; (split; [split; [done|]; unfold client_ok; cbn; by rewrite Hf|done]).
Qed.

Lemma keeps_payments a c l : keeps (horizon_call (payments_after out a c l)).
Proof.
  apply keeps_horizon. intros h Hh. unfold payments_after. pose proof (fetch_records_spec out (http_operations out) (operations_url (hp_base_url h) a c l) h Hh) as (_ & E & _).
  by destruct (fetch_records _ _ _ _).
Qed.

Lemma keeps_claim i a : keeps (horizon_call (claim_credit out i a)).
Proof.
  apply keeps_horizon. intros h Hh. unfold claim_credit. pose proof (fetch_records_spec out (http_effects out) (effects_url (hp_base_url h) i) h Hh) as (_ & E & _).
  by destruct (fetch_records _ _ _ _).
Qed.

Lemma keeps_origin b : keeps (horizon_call (claimable_balance_origin out b)).
Proof.
  apply keeps_horizon. intros h Hh. unfold claimable_balance_origin. pose proof (fetch_records_spec out (http_origin out) (origin_url (hp_base_url h) b) h Hh) as (_ & E & _).
  by destruct (fetch_records _ _ _ _).
Qed.

Lemma insert_wallets t s : wallets (snd (insert_transaction t s)) = wallets s.
Proof. unfold insert_transaction. repeat case_match; done. Qed.

Lemma settle_wallets i t st now s : wallets (snd (settle_payment_stmt i t st now s)) = wallets s.
Proof. unfold settle_payment_stmt, flip_pending. repeat case_match; try done; simplify_eq; done. Qed.

Lemma upsert_wallets i fresh upd s : wallets (snd (upsert_cursor i fresh upd s)) = wallets s.
Proof. unfold upsert_cursor. repeat case_match; done. Qed.

(** One step into a computation. *)
Ltac keep := repeat first
  [ apply preserves_ret | apply keeps_emit | apply tick_keeps_query | apply keeps_payments | apply keeps_claim | apply keeps_origin
  | apply tick_keeps_call; intros; first [apply insert_wallets | apply settle_wallets | apply upsert_wallets]
  | apply preserves_bind; [|intros ?] | apply preserves_try; [|intros ?] | case_match ].

Lemma keeps_process i a c rec : keeps (Ingest.process out i a true c rec).
Proof.
  unfold Ingest.process, claim_credit_of, record_credit, address_by_muxed_id, record_deposit, fire_deposit_webhook, get_address, confirm_payment_link,
    match_payment, pending_payment_by_address, get_payment_link, get_payment_link_by_address, oldest_pending_payment_link_payment,
    mark_payment_link_payment_mismatched, confirm_payment_link_payment, confirm_stmt, dispatch, part_query. keep.
Qed.

(** Horizon gives no more records than were asked for. *)
Definition limit_honoured : Prop := forall n base a c l k rs,
  answered (http_operations out n (operations_url base a c l) k) rs -> Z.of_nat (length rs) <= l.
Hypothesis H_limit : limit_honoured.

Lemma process_all_counts i a c rs : forall count,
  triple rely client_ok wallets_ok (process_all out i a true c rs count)
    (fun r s => wallets_ok s /\ forall n, r = Ok n -> n = count + Z.of_nat (length rs)) wallets_ok.
Proof.
  induction rs as [|rec rs IH]; intros count; cbn [process_all].
  - apply triple_ret. intros s Hs. split; [done|]. intros n [= <-]. cbn. lia.
  - eapply triple_try; [apply keeps_process| |by intros e s].
    intros r. eapply triple_try with (R := fun _ => wallets_ok); [unfold set_cursor; keep| |by intros e s].
    intros u. eapply triple_conseq; [apply IH|done| |done]. intros r' s [Hs Hn]. split; [done|]. intros n Hr. rewrite (Hn n Hr). cbn [length]. lia.
Qed.

Definition polled_ok (limit : Z) (r : result Z IngestError) (s : State) : Prop := wallets_ok s /\ forall n, r = Ok n -> 0 <= n <= limit.

Lemma poll_counts i a c limit :
  triple rely client_ok wallets_ok (poll_once out i a true true c limit) (polled_ok limit) wallets_ok.
Proof using H_limit.
  unfold poll_once. eapply triple_try with (R := fun _ => wallets_ok); [unfold get_cursor; keep| |by intros e s].
  intros cur. eapply triple_try with (R := fun r s => wallets_ok s /\ forall rs, r = Ok rs -> Z.of_nat (length rs) <= limit).
  - intros w Hw [Ht Hx]. destruct (keeps_payments a cur limit w Hw (conj Ht Hx)) as [Hk1 Hk2]. split; [exact Hk1|]. revert Hk2. unfold horizon_call, payments_after.
    destruct (fetch_records_spec out (http_operations out) (operations_url (hp_base_url (x_horizon (ext w))) a cur limit) (x_horizon (ext w)) Hx) as ((r & Er & Ha) & _ & _).
    destruct (fetch_records _ _ _ _) as [o h']. cbn in Er. subst o. cbn. intros Hk2. split; [done|]. intros rs E. destruct r as [rs'|]; [|done]. injection E as ->.
    destruct Ha as [k Ha]. by apply (H_limit _ _ _ _ _ _ _ Ha).
  - intros rs w [Hw Hrs]. refine (triple_try _ _ _ _ _ wallets_ok _ (polled_ok limit) wallets_ok (process_all_counts i a c rs 0) _ _ w Hw).
    + intros n. intros w' [Hw' Hn]. specialize (Hn n eq_refl). specialize (Hrs rs eq_refl).
      refine (triple_bind _ _ _ _ wallets_ok (fun _ => wallets_ok) (polled_ok limit) wallets_ok _ _ w' Hw'); [unfold record_poll_success; keep|].
      intros u. apply triple_ret. intros s Hs. split; [done|]. intros m [= <-]. lia.
    + by intros e s [].
  - by intros e s [].
Qed.

Lemma page_poll_counts t :
  triple rely client_ok wallets_ok (poll_page out clock t) (polled_ok (pt_limit t)) wallets_ok.
Proof using H_limit.
  intros w. unfold poll_page. revert w. set (x := tn_wallet (pt_turn t)).
  intros w Hw. refine (triple_bind _ _ _ _ wallets_ok _ (polled_ok (pt_limit t)) wallets_ok (poll_counts (w_id x) (w_stellar_account_g x) (clock w) (pt_limit t)) _ w Hw).
  intros r w' [Hw' Hn]. refine (triple_bind _ _ _ _ wallets_ok (fun _ => wallets_ok) (polled_ok (pt_limit t)) wallets_ok _ _ w' Hw').
  - unfold mark_polled. keep.
  - intros u. by apply triple_ret.
Qed.

Lemma ascending_take n l : Wallets.ascending l -> Wallets.ascending (take n l).
Proof. intros Ha. rewrite <- (take_drop n l) in Ha. by apply Wallets.ascending_app in Ha as (Ha & _ & _). Qed.

Definition page_ok (after : option Uuid) (page : list Wallet) : Prop :=
  Wallets.ascending page /\ Z.of_nat (length page) <= FANOUT_PAGE_SIZE /\
  Forall (fun x => (match after with Some a => a < w_id x | None => True end) /\ w_id x ∈ known) page.

Lemma due_query_ok after :
  triple rely client_ok wallets_ok (due_query network after) (fun r s => wallets_ok s /\ forall page, r = Ok page -> page_ok after page) wallets_ok.
Proof.
  unfold due_query. eapply triple_bind with (R := fun r s => wallets_ok s /\ forall page, r = Ok page -> page_ok after page).
  - apply triple_query; [intros s Hs; exact Hs|intros s s' H1 H2; exact (H2 H1)| |done|done].
    intros now s [Hnd Hk]. split; [done|]. intros page [= <-]. unfold Wallets.wallets_due_for_poll_page, Wallets.page_after.
    set (l := List.filter _ (wallets s)). assert (Hl : NoDup (map w_id l)) by (by apply Streaming.filter_map_nodup).
    split; [apply ascending_take, Wallets.sorted_ascending, Hl|]. split; [unfold Paging.sql_limit; rewrite length_take; unfold FANOUT_PAGE_SIZE; lia|].
    apply Forall_forall. intros x (j & Hx%list_elem_of_lookup_2 & _)%elem_of_take. unfold l in Hx. rewrite Paging.sort_by_perm in Hx. apply list_elem_of_In, filter_In in Hx as [Hx Hp].
    apply andb_true_iff in Hp as [_ Hp]. split; [destruct after; [lia|done]|]. rewrite Forall_map, Forall_forall in Hk. apply Hk. by apply list_elem_of_In.
  - intros [page|e]; apply triple_ret; cbn; [|intros s [Hs _]; split; [done|done]]. intros s [Hs Hp]. split; [done|]. intros pg [= <-]. by apply Hp.
Qed.

(** The interface is met: by databases in which the ids are unique, whatever else other connections do. *)
Definition tick_ok (w : World State Ext) : Prop := wallets_ok (db w) /\ world_ok rely client_ok w.

#[export] Instance real_laws : @TickLaws _ (real_world out network clock) tick_ok known.
Proof using H_limit.
  split.
  - intros after w [Hw Hok]. pose proof (due_query_ok after w Hw Hok) as [Hok' Hq]. cbn. destruct (due_query network after w) as [[r|] w']; cbn in *; [|by split].
    destruct Hq as [Hw' Hq]. by split.
  - intros t w [Hw Hok] _. pose proof (page_poll_counts t w Hw Hok) as [Hok' Hq]. cbn. destruct (poll_page out clock t w) as [[[n|e]|] w']; cbn in *.
    + destruct Hq as [Hw' Hn]. split; [done|]. intros m [= <-]. by apply Hn.
    + destruct Hq as [Hw' _]. by split.
    + by split.
Qed.

Lemma expire_wallets now s : wallets (snd (expire_stmt now s)) = wallets s.
Proof. unfold expire_stmt, flip_pending. repeat case_match; try done; simplify_eq; done. Qed.

Lemma keeps_sweep : keeps sweep_expired.
Proof.
  unfold sweep_expired, expire_stale_payment_link_payments.
  assert (Ha : forall rows, keeps (announce_expired rows)) by (induction rows as [|p rows IH]; cbn [announce_expired]; unfold get_payment_link_by_id; keep; exact IH).
  repeat (apply preserves_bind; [|intros ?]).
  - apply tick_keeps_call. intros. apply expire_wallets.
  - keep.
  - case_match; [apply Ha|keep].
Qed.

(** A tick with real polls ends with an answer, unless the process dies in the sweep: no schedule of the
    other connections and no answer of Horizon makes it run out of fuel. *)
Lemma real_tick pick fuel page_limit w : tick_ok w -> Z.of_nat (length known) < FANOUT_PAGE_SIZE * Z.of_nat fuel ->
  fst (sweep_expired w) <> Crashed -> exists r w', tick out network clock pick fuel page_limit w = Some (r, w') /\ tick_ok w'.
Proof using H_limit.
  intros [Hw Hok] Hf Hc. unfold tick. destruct (keeps_sweep w Hw Hok) as [Hok' Hw']. destruct (sweep_expired w) as [[u|] w1]; [|done]. cbn in *.
  destruct (@pass_bounded _ _ tick_ok known real_laws pick fuel page_limit w1 (conj Hw' Hok') Hf) as (r & p & w' & -> & Hok'' & _). cbn. eauto.
Qed.
End Laws.
End Leader.
