(* ===== verification/Leadership.v ===== *)
(** * Leadership of the ingester

    Several replicas run a supervisor against one database; a session-level advisory lock of Postgres
    elects one of them for each network ([IngestLeaderLock] of [crates/store/src/lib.rs],
    [try_acquire_ingest_leader] of [ingest.rs], [run_until_cancelled], [wait_for_leadership] and [lead]
    of [crates/ingest/src/lib.rs]). A replica is a state machine whose control points are those of the
    three loops; the cluster adds the lock table and the sessions that are alive. The environment
    chooses who moves, how the database answers, when a session dies and when a replica is told to stop.
    What a tick does is in [Leader]; here it is an entry of the log. *)

From S2P Require Import Prelude Db Store WalletAddress Wallets Streaming Supervisor.

Module Leadership.
Import Db Store.
Import Streaming (StreamSet, StreamTask, mkStreamSet, mkStreamTask, sset_tasks, sset_dropped, st_wallet, st_cancelled, st_finished, sync).

(** ** The lock *)

Definition INGEST_LOCK_CLASS : Z := 0x4F435449.

(** A database session, numbered in the order in which they took the lock. *)
Definition SessionId : Type := nat.

Record IngestLeaderLock := mkIngestLeaderLock { conn : SessionId; lk_network : string }.

(** What Postgres keeps: who holds which advisory lock, and the sessions that are alive. *)
Record Locks := mkLocks { holders : gmap (Z * Z) SessionId; alive : gset SessionId; next_session : SessionId }.

(** How a statement ends: with an answer, without effect, or with its answer lost. *)
Inductive Reply := Answered | Failed | AnswerLost.

Section Lock.
(** [hashtext] of Postgres. *)
Variable hashtext : string -> Z.

Definition lock_key (network : string) : Z * Z := (INGEST_LOCK_CLASS, hashtext network).

(** [pg_try_advisory_lock] from a session that has no lock yet. *)
Definition grant (network : string) (l : Locks) : bool * Locks :=
  match holders l !! lock_key network with
  | Some _ => (false, l)
  | None => (true, mkLocks (<[lock_key network := next_session l]> (holders l)) ({[next_session l]} ∪ alive l) (S (next_session l)))
  end.

Definition try_acquire_ingest_leader (network : string) (reply : Reply) (l : Locks) : result (option IngestLeaderLock) StoreError * Locks :=
  match reply with
  | Failed => (Err Database, l)
  | AnswerLost => (Err Database, snd (grant network l))
  | Answered =>
      let '(acquired, l') := grant network l in
      (Ok (if acquired then Some (mkIngestLeaderLock (next_session l) network) else None), l')
  end.

Definition holds (lock : IngestLeaderLock) (l : Locks) : bool :=
  bool_decide (holders l !! lock_key (lk_network lock) = Some (conn lock)).

(** [unwrap_or(false)]: a session that is dead or does not answer holds nothing. *)
Definition still_held (lock : IngestLeaderLock) (reply : Reply) (l : Locks) : bool :=
  match reply with
  | Answered => bool_decide (conn lock ∈ alive l) && holds lock l
  | _ => false
  end.

(** Postgres frees the locks of a session that ends. *)
Definition session_ends (s : SessionId) (l : Locks) : Locks :=
  mkLocks (filter (fun kv => kv.2 <> s) (holders l)) (alive l ∖ {[s]}) (next_session l).

(** The connection is closed whether or not it was unlocked; when neither message arrives the session
    lives on until Postgres notices. *)
Definition release (lock : IngestLeaderLock) (reply : Reply) (l : Locks) : Locks :=
  match reply with Failed => l | _ => session_ends (conn lock) l end.

(** ** One replica *)

(** Where a replica is. *)
Inductive Phase :=
| Standby                              (** the head of the loop of [wait_for_leadership] *)
| RetrySleep                           (** its [select!] *)
| LeadHead (lock : IngestLeaderLock)   (** the head of the loop of [lead] *)
| Syncing (lock : IngestLeaderLock)    (** [still_held] was true *)
| Ticking (lock : IngestLeaderLock)
| LeadSleep (lock : IngestLeaderLock)  (** the [select!] of [lead] *)
| Stopping (lock : IngestLeaderLock)   (** [streams.stop()] *)
| Releasing (lock : IngestLeaderLock)
| Stopped.

Record Replica := mkReplica {
  re_network : string; re_shutdown : bool; re_phase : Phase;
  re_streams : StreamSet; re_leader_gauge : Z;
  (** [announced_standby] *)
  re_announced : bool
}.

Definition goto (ph : Phase) (r : Replica) : Replica :=
  mkReplica (re_network r) (re_shutdown r) ph (re_streams r) (re_leader_gauge r) (re_announced r).
Definition set_streams (s : StreamSet) (r : Replica) : Replica :=
  mkReplica (re_network r) (re_shutdown r) (re_phase r) s (re_leader_gauge r) (re_announced r).
Definition set_gauge (g : Z) (r : Replica) : Replica :=
  mkReplica (re_network r) (re_shutdown r) (re_phase r) (re_streams r) g (re_announced r).
Definition announce (b : bool) (r : Replica) : Replica :=
  mkReplica (re_network r) (re_shutdown r) (re_phase r) (re_streams r) (re_leader_gauge r) b.

Definition no_streams : StreamSet := mkStreamSet [] [].

(** A new term starts with no task of its own; the tasks that an earlier term let go of may be running. *)
Definition new_streams (s : StreamSet) : StreamSet := mkStreamSet [] (sset_dropped s).

(** [stop] cancels the tasks it has, awaits every one and forgets it. *)
Definition stop (s : StreamSet) : StreamSet := mkStreamSet [] (sset_dropped s ++ map (fun t => mkStreamTask (st_wallet t) true true) (sset_tasks s)).

(** What a replica does that others can see. *)
Inductive Entry := Acquired (i : nat) | Held (i : nat) | TickStarts (i : nat) (lock : IngestLeaderLock) | TickEnds (i : nat) | StreamsStopped (i : nat) | Released (i : nat) | Ended (i : nat).

(** Answers of the database to the statement of a move; for [streaming_wallets] the wallets too. *)
Record Answer := mkAnswer { an_reply : Reply; an_wanted : list Wallet }.

(** [sync_streams] *)
Definition sync_streams (a : Answer) (s : StreamSet) : StreamSet :=
  match an_reply a with Answered => sync s (an_wanted a) | _ => s end.

(** One turn of [wait_for_leadership]; winning enters [lead] with an empty set of streams. *)
Definition wait_move (i : nat) (a : Answer) (r : Replica) (l : Locks) : Replica * Locks * list Entry :=
  if re_shutdown r then (goto Stopped r, l, [Ended i]) else
  match try_acquire_ingest_leader (re_network r) (an_reply a) l with
  | (Ok (Some lock), l) => (goto (LeadHead lock) (set_gauge 1 (set_streams (new_streams (re_streams r)) r)), l, [Acquired i])
  | (Ok None, l) => (goto RetrySleep (announce true r), l, [])
  | (Err _, l) => (goto RetrySleep r, l, [])
  end.

Definition move (i : nat) (a : Answer) (r : Replica) (l : Locks) : Replica * Locks * list Entry :=
  match re_phase r with
  | Standby => wait_move i a r l
  | RetrySleep => (goto Standby r, l, [])
  | LeadHead lock =>
      if re_shutdown r then (goto (Stopping lock) r, l, []) else
      if still_held lock (an_reply a) l then (goto (Syncing lock) r, l, [Held i]) else (goto (Stopping lock) r, l, [])
  | Syncing lock => (goto (Ticking lock) (set_streams (sync_streams a (re_streams r)) r), l, [TickStarts i lock])
  | Ticking lock => (goto (LeadSleep lock) r, l, [TickEnds i])
  | LeadSleep lock => (goto (LeadHead lock) r, l, [])
  | Stopping lock => (goto (Releasing lock) (set_gauge 0 (set_streams (stop (re_streams r)) r)), l, [StreamsStopped i])
  | Releasing lock => (goto Standby (announce false r), release lock (an_reply a) l, [Released i])
  | Stopped => (r, l, [])
  end.

(** ** The cluster *)

Record Cluster := mkCluster { replicas : list Replica; locks : Locks; log : list Entry }.

Inductive Event :=
| Moves (i : nat) (a : Answer)
| SessionDies (s : SessionId)
| ShutDown (i : nat).

Definition shut_down (r : Replica) : Replica :=
  mkReplica (re_network r) true (re_phase r) (re_streams r) (re_leader_gauge r) (re_announced r).

Definition step (e : Event) (c : Cluster) : Cluster :=
  match e with
  | Moves i a =>
      match replicas c !! i with
      | None => c
      | Some r => let '(r', l', entries) := move i a r (locks c) in mkCluster (<[i := r']> (replicas c)) l' (log c ++ entries)
      end
  | SessionDies s => mkCluster (replicas c) (session_ends s (locks c)) (log c)
  | ShutDown i => match replicas c !! i with None => c | Some r => mkCluster (<[i := shut_down r]> (replicas c)) (locks c) (log c) end
  end.

Definition run (es : list Event) (c : Cluster) : Cluster := fold_left (fun c e => step e c) es c.

Definition new_replica (network : string) : Replica := mkReplica network false Standby no_streams 0 false.
Definition initial (networks : list string) : Cluster := mkCluster (map new_replica networks) (mkLocks ∅ ∅ 0%nat) [].
End Lock.

(** ** The invariant *)

Definition term (ph : Phase) : option IngestLeaderLock :=
  match ph with
  | LeadHead k | Syncing k | Ticking k | LeadSleep k | Stopping k | Releasing k => Some k
  | _ => None
  end.

(** The part of the term in which streams may run. *)
Definition leading (ph : Phase) : bool := match ph with LeadHead _ | Syncing _ | Ticking _ | LeadSleep _ | Stopping _ => true | _ => false end.

(** The tasks of a replica that may be running, those it let go of included, and whether every task that
    it let go of was told to stop. *)
Definition running (s : StreamSet) : list StreamTask := List.filter (fun t => negb (st_finished t)) (sset_tasks s ++ sset_dropped s).
Definition told (s : StreamSet) : Prop := Forall (fun t => st_cancelled t = true) (sset_dropped s).

Lemma told_stop s : told s -> told (stop s).
Proof. unfold told, stop. cbn. intros H. apply Forall_app. split; [done|]. apply Forall_forall. intros t Ht. by apply list_elem_of_In, in_map_iff in Ht as (x & <- & _). Qed.

Lemma told_sync a s : told s -> told (sync_streams a s).
Proof.
  unfold told, sync_streams, sync. destruct (an_reply a); cbn; [|done..]. intros H. apply Forall_app. split; [done|].
  apply Forall_forall. intros t Ht. by apply list_elem_of_In, in_map_iff in Ht as (x & <- & _).
Qed.

Lemma told_running s : told s -> sset_tasks s = [] -> Forall (fun t => st_cancelled t = true) (running s).
Proof.
  unfold told, running. intros H ->. cbn. apply Forall_forall. intros t Ht. apply list_elem_of_In, filter_In in Ht as [Ht _].
  by apply (proj1 (Forall_forall _ _) H), list_elem_of_In.
Qed.

Section Inv.
Variable hashtext : string -> Z.
Notation lock_key := (lock_key hashtext).
Notation step := (step hashtext).
Notation run := (run hashtext).

(** A replica in its term has its session's lock as long as the session lives; outside of it, no streams. *)
Record replica_ok (l : Locks) (r : Replica) : Prop := {
  term_network : forall k, term (re_phase r) = Some k -> lk_network k = re_network r;
  term_session : forall k, term (re_phase r) = Some k -> (conn k < next_session l)%nat;
  term_lock : forall k, term (re_phase r) = Some k -> conn k ∈ alive l -> holders l !! lock_key (re_network r) = Some (conn k);
  idle_streams : leading (re_phase r) = false -> sset_tasks (re_streams r) = [];
  gauge_leads : re_leader_gauge r = if leading (re_phase r) then 1 else 0;
  let_go_told : told (re_streams r)
}.

Record locks_ok (l : Locks) : Prop := {
  holders_alive : forall k s, holders l !! k = Some s -> s ∈ alive l;
  alive_old : forall s, s ∈ alive l -> (s < next_session l)%nat
}.

Record cluster_ok (c : Cluster) : Prop := {
  ok_locks : locks_ok (locks c);
  ok_replicas : forall i r, replicas c !! i = Some r -> replica_ok (locks c) r;
  (** A session is one replica's. *)
  ok_sessions : forall i j r r' k k', replicas c !! i = Some r -> replicas c !! j = Some r' ->
    term (re_phase r) = Some k -> term (re_phase r') = Some k' -> conn k = conn k' -> i = j
}.

(** Sessions only die, and a session that lives keeps its locks. *)
Record evolves (l l' : Locks) : Prop := {
  ev_next : (next_session l <= next_session l')%nat;
  ev_alive : forall s, s ∈ alive l' -> (s < next_session l)%nat -> s ∈ alive l;
  ev_holders : forall k s, holders l !! k = Some s -> s ∈ alive l' -> holders l' !! k = Some s
}.

Lemma lock_evolves_refl l : evolves l l.
Proof. by split. Qed.

Lemma grant_ok network l : locks_ok l ->
  locks_ok (snd (grant hashtext network l)) /\ evolves l (snd (grant hashtext network l)).
Proof.
  intros [Hh Ha]. unfold grant. destruct (holders l !! lock_key network) eqn:E; cbn; [split; [done|apply lock_evolves_refl]|]. split; split; cbn.
  - intros k s. rewrite lookup_insert_Some. intros [[_ <-]|[_ Hs]]; [set_solver|]. apply Hh in Hs. set_solver.
  - intros s [->%elem_of_singleton|Hs%Ha]%elem_of_union; lia.
  - lia.
  - intros s [->%elem_of_singleton|Hs]%elem_of_union; [lia|done].
  - intros k s Hk _. rewrite lookup_insert_ne; [done|congruence].
Qed.

Lemma session_ends_ok s l : locks_ok l -> locks_ok (session_ends s l) /\ evolves l (session_ends s l).
Proof.
  intros [Hh Ha]. unfold session_ends. split; split; cbn.
  - intros k s'. rewrite map_lookup_filter_Some. cbn. intros [Hk%Hh Hs]. set_solver.
  - intros s' Hs. apply Ha. set_solver.
  - lia.
  - set_solver.
  - intros k s' Hk Hs. apply map_lookup_filter_Some. cbn. set_solver.
Qed.

Lemma release_ok lock reply l : locks_ok l -> locks_ok (release lock reply l) /\ evolves l (release lock reply l).
Proof. intros Hl. destruct reply; cbn; [apply session_ends_ok, Hl|split; [done|apply lock_evolves_refl]|apply session_ends_ok, Hl]. Qed.

Lemma replica_ok_evolves l l' r : evolves l l' -> replica_ok l r -> replica_ok l' r.
Proof.
  intros [Hn Ha Hh] [H1 H2 H3 H4 H5 H6]. split; [done| |..]; try done.
  - intros k Hk. specialize (H2 k Hk). lia.
  - intros k Hk Hal. apply Hh; [|done]. apply H3; [done|]. apply Ha; [done|]. by apply H2.
Qed.

(** What a move keeps. *)
Record moved (l : Locks) (r : Replica) (out : Replica * Locks * list Entry) : Prop := {
  mv_locks : locks_ok (snd (fst out));
  mv_evolves : evolves l (snd (fst out));
  mv_replica : replica_ok (snd (fst out)) (fst (fst out));
  mv_session : forall k, term (re_phase (fst (fst out))) = Some k -> term (re_phase r) = Some k \/ conn k = next_session l
}.

(** A move within a term, or out of it. *)
Lemma moved_within l l' r r' es : locks_ok l' -> evolves l l' -> replica_ok l r -> re_network r' = re_network r ->
  (forall k, term (re_phase r') = Some k -> term (re_phase r) = Some k) ->
  (leading (re_phase r') = false -> sset_tasks (re_streams r') = []) ->
  re_leader_gauge r' = (if leading (re_phase r') then 1 else 0) -> (told (re_streams r) -> told (re_streams r')) -> moved l r (r', l', es).
Proof.
  intros Hl He Hr En Ht Hs Hg Htold. pose proof (replica_ok_evolves l l' r He Hr) as [H1 H2 H3 _ _ H6].
  split; cbn; [done|done| |by auto]. split; [| | |done|done|by auto]; intros k Hk; rewrite ?En; auto.
Qed.

Lemma wait_move_ok i a r l : locks_ok l -> replica_ok l r -> re_phase r = Standby -> moved l r (wait_move hashtext i a r l).
Proof.
  intros Hl Hr Ep. pose proof (idle_streams l r Hr) as Hi. pose proof (gauge_leads l r Hr) as Hg. rewrite Ep in Hi, Hg. specialize (Hi eq_refl).
  unfold wait_move. destruct (re_shutdown r); [apply moved_within; by (done || apply lock_evolves_refl)|].
  destruct (grant_ok (re_network r) l Hl) as [Hl' He]. unfold try_acquire_ingest_leader. destruct (an_reply a).
  - unfold grant in *. destruct (holders l !! lock_key (re_network r)) eqn:E; cbn in *; [by apply moved_within|].
    split; cbn; [done|done| |intros k [= <-]; by right]. split; cbn; try done.
    + by intros k [= <-].
    + intros k [= <-]. cbn. lia.
    + intros k [= <-] _. cbn. apply lookup_insert_eq.
    + apply (let_go_told l r Hr).
  - apply moved_within; by (done || apply lock_evolves_refl).
  - destruct (grant hashtext (re_network r) l) as [b l']. by apply moved_within.
Qed.

Lemma move_ok i a r l : locks_ok l -> replica_ok l r -> moved l r (move hashtext i a r l).
Proof.
  intros Hl Hr. pose proof (idle_streams l r Hr) as Hi. pose proof (gauge_leads l r Hr) as Hg. pose proof (lock_evolves_refl l) as He.
  unfold move. destruct (re_phase r) as [| |k|k|k|k|k|k|] eqn:Ep; cbn in Hi, Hg.
  - by apply wait_move_ok.
  - by apply moved_within; rewrite ?Ep; auto.
  - destruct (re_shutdown r); [by apply moved_within; rewrite ?Ep|]. destruct (still_held _ _ _ _); by apply moved_within; rewrite ?Ep.
  - by apply moved_within; rewrite ?Ep; try apply told_sync.
  - by apply moved_within; rewrite ?Ep.
  - by apply moved_within; rewrite ?Ep.
  - by apply moved_within; rewrite ?Ep; try apply told_stop.
  - destruct (release_ok k (an_reply a) l Hl) as [Hl' He']. apply moved_within; rewrite ?Ep; cbn; auto; done.
  - by apply moved_within; rewrite ?Ep; auto.
Qed.

Lemma step_ok e c : cluster_ok c -> cluster_ok (step e c).
Proof.
  intros [Hl Hr Hs]. destruct e as [i a|s|i]; cbn.
  - destruct (replicas c !! i) as [r|] eqn:Ei; [|by split]. pose proof (move_ok i a r (locks c) Hl (Hr i r Ei)) as Hm.
    destruct (move hashtext i a r (locks c)) as [[r' l'] es]. destruct Hm as [Hl' He Hr' Hk]; cbn in *.
    assert (Hold : forall j x, replicas c !! j = Some x -> replica_ok l' x) by eauto using replica_ok_evolves.
    assert (Hnew : forall j x k k', j <> i -> replicas c !! j = Some x -> term (re_phase x) = Some k -> term (re_phase r') = Some k' -> conn k = conn k' -> False).
    { intros j x k k' Hj Hx Hkx Hkr E. destruct (Hk k' Hkr) as [Ho|Ho]; [by apply Hj, (Hs j i x r k k')|].
      pose proof (term_session _ _ (Hr j x Hx) k Hkx). lia. }
    split; cbn; [done| |].
    + intros j x [(<- & <- & _)|[_ Hx]]%list_lookup_insert_Some; eauto.
    + intros j j' x x' k k' [(<- & <- & _)|[Hj Hx]]%list_lookup_insert_Some [(<- & <- & _)|[Hj' Hx']]%list_lookup_insert_Some Hk1 Hk2 E; [done| | |by eauto].
      * exfalso. by eapply (Hnew j' x' k' k); eauto.
      * exfalso. by eapply (Hnew j x k k'); eauto.
  - destruct (session_ends_ok s (locks c) Hl) as [Hl' He]. split; cbn; [done|by eauto using replica_ok_evolves|done].
  - destruct (replicas c !! i) as [r|] eqn:Ei; [|by split]. split; cbn; [done| |].
    + intros j x [(<- & <- & _)|[_ Hx]]%list_lookup_insert_Some; [|eauto]. destruct (Hr i r Ei). by split.
    + intros j j' x x' k k' [(<- & <- & _)|[Hj Hx]]%list_lookup_insert_Some [(<- & <- & _)|[Hj' Hx']]%list_lookup_insert_Some Hk1 Hk2 E; cbn in *; eauto.
Qed.

Lemma run_ok es : forall c, cluster_ok c -> cluster_ok (run es c).
Proof. induction es as [|e es IH]; intros c Hc; [done|]. cbn. by apply IH, step_ok. Qed.

Lemma initial_ok networks : cluster_ok (initial networks).
Proof.
  assert (Hi : forall i r, replicas (initial networks) !! i = Some r -> exists n, r = new_replica n).
  { intros i r Hr%list_elem_of_lookup_2. cbn in Hr. apply list_elem_of_In, in_map_iff in Hr as (n & <- & _). by exists n. }
  split.
  - split; cbn; set_solver.
  - intros i r [n ->]%Hi. split; try done. constructor.
  - intros i j r r' k k' [n ->]%Hi. done.
Qed.

(** ** Exclusion *)

Lemma one_live_term c i j r r' k k' : cluster_ok c -> replicas c !! i = Some r -> replicas c !! j = Some r' ->
  term (re_phase r) = Some k -> term (re_phase r') = Some k' -> re_network r = re_network r' ->
  conn k ∈ alive (locks c) -> conn k' ∈ alive (locks c) -> i = j.
Proof.
  intros [_ Hr Hs] Hi Hj Hk Hk' En Ha Ha'. apply (Hs i j r r' k k' Hi Hj Hk Hk').
  pose proof (term_lock _ _ (Hr i r Hi) k Hk Ha) as H1. pose proof (term_lock _ _ (Hr j r' Hj) k' Hk' Ha') as H2. rewrite En in H1. congruence.
Qed.

(** ** After a session has died *)

(** The ticks that were started in a session, and whether one is about to be. *)
Definition ticks_in (s : SessionId) (entries : list Entry) : nat :=
  length (List.filter (fun e => match e with TickStarts _ k => bool_decide (conn k = s) | _ => false end) entries).
Definition syncs_in (s : SessionId) (r : Replica) : bool := match re_phase r with Syncing k => bool_decide (conn k = s) | _ => false end.
Definition due_tick (s : SessionId) (c : Cluster) : nat := if existsb (syncs_in s) (replicas c) then 1 else 0.
Definition dead (s : SessionId) (c : Cluster) : Prop := s ∉ alive (locks c) /\ (s < next_session (locks c))%nat.

Lemma dead_evolves s c c' : evolves (locks c) (locks c') -> dead s c -> dead s c'.
Proof. intros [Hn Ha _] [H1 H2]. split; [|lia]. intros Hs. by apply H1, Ha. Qed.

Lemma step_evolves e c : cluster_ok c -> evolves (locks c) (locks (step e c)).
Proof.
  intros [Hl Hr _]. destruct e as [i a|s|i]; cbn.
  - destruct (replicas c !! i) as [r|] eqn:Ei; [|apply lock_evolves_refl]. pose proof (move_ok i a r (locks c) Hl (Hr i r Ei)) as [_ He _ _].
    by destruct (move hashtext i a r (locks c)) as [[r' l'] es].
  - by apply session_ends_ok.
  - destruct (replicas c !! i); apply lock_evolves_refl.
Qed.

(** What one move adds. *)
Lemma move_ticks s i a r l r' l' es : move hashtext i a r l = (r', l', es) -> s ∉ alive l ->
  (s < next_session l)%nat ->
  syncs_in s r' = false /\ ticks_in s es = (if syncs_in s r then 1 else 0)%nat.
Proof.
  unfold move, wait_move, syncs_in. intros E Hs Hn. destruct (re_phase r) as [| |k|k|k|k|k|k|] eqn:Ep; cbn in E; simplify_eq; rewrite ?Ep; try done.
  - destruct (re_shutdown r); [by simplify_eq|]. destruct (try_acquire_ingest_leader _ _ _ _) as [[[k|]|e] l'']; by simplify_eq.
  - destruct (re_shutdown r); [by simplify_eq|]. destruct (still_held _ _ _ _) eqn:Eh; simplify_eq; [|done]. cbn. split; [|done].
    apply bool_decide_eq_false. intros <-. unfold still_held in Eh. destruct (an_reply a); [|done..]. apply andb_true_iff in Eh as [Ea%bool_decide_eq_true _]. done.
  - cbn. unfold ticks_in. cbn. by destruct (bool_decide (conn k = s)).
Qed.

Lemma existsb_lookup {A} (f : A -> bool) l : existsb f l = true <-> exists i x, l !! i = Some x /\ f x = true.
Proof.
  rewrite existsb_exists. split; intros H.
  - destruct H as (x & Hx & Hf). apply list_elem_of_In, list_elem_of_lookup in Hx as [i Hi]. eauto.
  - destruct H as (i & x & Hi & Hf). exists x. split; [|done]. by eapply list_elem_of_In, list_elem_of_lookup_2.
Qed.

Lemma ticks_app s l1 l2 : ticks_in s (l1 ++ l2) = (ticks_in s l1 + ticks_in s l2)%nat.
Proof. unfold ticks_in. by rewrite List.filter_app, length_app. Qed.

Lemma step_ticks e c s : cluster_ok c -> dead s c ->
  (ticks_in s (log (step e c)) + due_tick s (step e c) <= ticks_in s (log c) + due_tick s c)%nat.
Proof.
  intros [Hl Hr Hs] [Hd Hn]. destruct e as [i a|s'|i]; cbn -[ticks_in]; [| done |].
  - destruct (replicas c !! i) as [r|] eqn:Ei; [|done]. destruct (move hashtext i a r (locks c)) as [[r' l'] es] eqn:Em.
    destruct (move_ticks s _ _ _ _ _ _ _ Em Hd Hn) as [Hr' Ht]. cbn -[ticks_in]. rewrite ticks_app, Ht.
    assert (Hle : forall j x, <[i := r']> (replicas c) !! j = Some x -> syncs_in s x = true -> j <> i /\ replicas c !! j = Some x).
    { intros j x [(<- & <- & _)|[Hj Hx]]%list_lookup_insert_Some Hsx; [congruence|done]. }
    unfold due_tick. cbn. destruct (syncs_in s r) eqn:Er.
    + assert (existsb (syncs_in s) (replicas c) = true) as -> by (apply existsb_lookup; eauto).
      destruct (existsb (syncs_in s) (<[i := r']> (replicas c))) eqn:Ex; [|lia]. apply existsb_lookup in Ex as (j & x & Hx & Hsx).
      destruct (Hle j x Hx Hsx) as [Hj Hx']. exfalso. apply Hj. unfold syncs_in in *. destruct (re_phase x) eqn:Epx; try done. destruct (re_phase r) eqn:Epr; try done.
      apply bool_decide_eq_true in Hsx, Er. eapply (Hs j i x r); [done|done|by rewrite Epx|by rewrite Epr|congruence].
    + destruct (existsb (syncs_in s) (<[i := r']> (replicas c))) eqn:Ex; [|lia]. apply existsb_lookup in Ex as (j & x & Hx & Hsx).
      destruct (Hle j x Hx Hsx) as [Hj Hx']. assert (existsb (syncs_in s) (replicas c) = true) as -> by (apply existsb_lookup; eauto). lia.
  - destruct (replicas c !! i) as [r|] eqn:Ei; [|done]. cbn. apply Nat.add_le_mono_l. unfold due_tick. cbn.
    destruct (existsb (syncs_in s) (<[i := shut_down r]> (replicas c))) eqn:Ex; [|destruct (existsb _ _); lia].
    apply existsb_lookup in Ex as (j & x & [(<- & <- & _)|[Hj Hx]]%list_lookup_insert_Some & Hsx);
      (assert (existsb (syncs_in s) (replicas c) = true) as -> by (apply existsb_lookup; eauto)); lia.
Qed.

Lemma dead_ticks es s : forall c, cluster_ok c -> dead s c -> (ticks_in s (log (run es c)) <= ticks_in s (log c) + 1)%nat.
Proof.
  intros c Hc Hd. assert (Hall : (ticks_in s (log (run es c)) <= ticks_in s (log c) + due_tick s c)%nat).
  { revert c Hc Hd. induction es as [|e es IH]; intros c Hc Hd; [unfold run; cbn [fold_left]; lia|].
    specialize (IH (step e c) (step_ok e c Hc) (dead_evolves s c _ (step_evolves e c Hc) Hd)). pose proof (step_ticks e c s Hc Hd).
    change (run (e :: es) c) with (run es (step e c)). lia. }
  unfold due_tick in Hall. destruct (existsb _ _); lia.
Qed.

(** ** Shutdown *)

(** The moves that are left. *)
Definition moves_left (ph : Phase) : nat :=
  match ph with
  | Stopped => 0 | Standby => 1 | RetrySleep | Releasing _ => 2 | Stopping _ => 3 | LeadHead _ => 4 | LeadSleep _ => 5 | Ticking _ => 6 | Syncing _ => 7
  end.
Definition moves_of (i : nat) (es : list Event) : nat := length (List.filter (fun e => match e with Moves j _ => bool_decide (j = i) | _ => false end) es).

Lemma move_stops i a r l r' l' es : move hashtext i a r l = (r', l', es) -> re_shutdown r = true ->
  re_shutdown r' = true /\ moves_left (re_phase r') = (moves_left (re_phase r) - 1)%nat.
Proof.
  unfold move, wait_move. intros E Hr. rewrite Hr in E. destruct (re_phase r) as [| |k|k|k|k|k|k|] eqn:Ep; simplify_eq; cbn; rewrite ?Ep; done.
Qed.

Lemma run_stops es i : forall c r, replicas c !! i = Some r -> re_shutdown r = true ->
  exists r', replicas (run es c) !! i = Some r' /\ re_shutdown r' = true /\ (moves_left (re_phase r') <= moves_left (re_phase r) - moves_of i es)%nat.
Proof.
  induction es as [|e es IH]; intros c r Hi Hr; [exists r; unfold moves_of; cbn; split; [done|]; split; [done|lia]|].
  assert (Hlen : (i < length (replicas c))%nat) by (by eapply lookup_lt_Some).
  assert (Hstep : exists r1, replicas (step e c) !! i = Some r1 /\ re_shutdown r1 = true /\ (moves_left (re_phase r1) = moves_left (re_phase r) - moves_of i [e])%nat).
  { destruct e as [j a|s|j]; cbn.
    - unfold moves_of. cbn. destruct (decide (j = i)) as [->|Hj]; [rewrite Hi, bool_decide_eq_true_2 by done|rewrite bool_decide_eq_false_2 by done].
      + destruct (move hashtext i a r (locks c)) as [[r' l'] es'] eqn:Em. destruct (move_stops _ _ _ _ _ _ _ Em Hr) as [H1 H2]. exists r'. cbn. by rewrite list_lookup_insert_eq.
      + exists r. cbn. split; [|split; [done|lia]]. destruct (replicas c !! j) as [x|]; [|done]. destruct (move hashtext j a x (locks c)) as [[r' l'] es']. cbn. by rewrite list_lookup_insert_ne.
    - exists r. split; [done|]. split; [done|]. unfold moves_of. cbn. lia.
    - unfold moves_of. cbn. destruct (decide (j = i)) as [->|Hj]; [rewrite Hi|].
      + exists (shut_down r). cbn. rewrite list_lookup_insert_eq by done. split; [done|]. split; [done|lia].
      + exists r. split; [|split; [done|lia]]. destruct (replicas c !! j); [|done]. cbn. by rewrite list_lookup_insert_ne. }
  destruct Hstep as (r1 & Hi1 & Hr1 & Hm1). destruct (IH _ _ Hi1 Hr1) as (r' & Hi' & Hr' & Hm'). exists r'. change (run (e :: es) c) with (run es (step e c)).
  split; [done|]. split; [done|]. enough (moves_of i (e :: es) = moves_of i [e] + moves_of i es)%nat by lia.
  unfold moves_of. cbn. destruct (match e with Moves j _ => bool_decide (j = i) | _ => false end); cbn; lia.
Qed.

(** ** Takeover *)

(** A standby whose attempt is answered wins when the holder's session has died. *)
Lemma takeover c i r k a : cluster_ok c -> replicas c !! i = Some r -> re_phase r = Standby -> re_shutdown r = false ->
  holders (locks c) !! lock_key (re_network r) = Some k -> an_reply a = Answered ->
  exists r' k', replicas (run [SessionDies k; Moves i a] c) !! i = Some r' /\ re_phase r' = LeadHead k' /\ holds hashtext k' (locks (run [SessionDies k; Moves i a] c)) = true.
Proof.
  intros Hc Hi Ep Hr Hk Ha. unfold run. cbn [fold_left]. unfold step at 1 3. cbn [replicas step locks]. rewrite Hi. unfold move. rewrite Ep. unfold wait_move. rewrite Hr.
  unfold try_acquire_ingest_leader. rewrite Ha. unfold grant, session_ends. cbn [holders].
  rewrite (proj2 (map_lookup_filter_None _ _ _)) by (right; intros s' Hs' Hne; cbn in Hne; congruence).
  eexists _, _. cbn [replicas locks]. rewrite list_lookup_insert_eq by (by eapply lookup_lt_Some). split; [done|]. split; [done|].
  unfold holds. cbn. rewrite lookup_insert_eq. by apply bool_decide_eq_true.
Qed.
End Inv.

(** C5: leadership of a network is exclusive, recoverable and given up cleanly. In any run of any
    number of replicas: of the replicas of one network that believe to lead, at most one has a session
    that is still alive, and that one holds the lock; a replica outside of its term has no stream task of
    its own, whatever task may still be running in it was told to stop (a task that a synchronisation
    let go of is not awaited), and it shows 0 in the leader gauge; after a session has died its replica
    may still believe to lead, and at most one more tick is started in it, which may overlap with the
    ticks of the next leader; once the holder's session has died, the next attempt of any standby that is
    answered wins; and a replica that is told to shut down has stopped after at most seven more moves of
    its own, whatever phase it was in and whatever the others do. *)
Theorem one_leader (hashtext : string -> Z) networks es :
  let c := run hashtext es (initial networks) in
  (forall i j r r' k k', replicas c !! i = Some r -> replicas c !! j = Some r' -> re_network r = re_network r' ->
     term (re_phase r) = Some k -> term (re_phase r') = Some k' -> conn k ∈ alive (locks c) -> conn k' ∈ alive (locks c) -> i = j /\ holds hashtext k (locks c) = true) /\
  (forall i r, replicas c !! i = Some r -> leading (re_phase r) = false ->
     sset_tasks (re_streams r) = [] /\ Forall (fun t => st_cancelled t = true) (running (re_streams r)) /\ re_leader_gauge r = 0) /\
  (forall s es', s ∉ alive (locks c) -> (s < next_session (locks c))%nat -> (ticks_in s (log (run hashtext es' c)) <= ticks_in s (log c) + 1)%nat) /\
  (forall i r s a, replicas c !! i = Some r -> re_phase r = Standby -> re_shutdown r = false ->
     holders (locks c) !! lock_key hashtext (re_network r) = Some s -> an_reply a = Answered ->
     exists r' k', replicas (run hashtext [SessionDies s; Moves i a] c) !! i = Some r' /\ re_phase r' = LeadHead k' /\
       holds hashtext k' (locks (run hashtext [SessionDies s; Moves i a] c)) = true) /\
  (forall i r es', replicas c !! i = Some r -> re_shutdown r = true -> (7 <= moves_of i es')%nat ->
     exists r', replicas (run hashtext es' c) !! i = Some r' /\ re_phase r' = Stopped /\ sset_tasks (re_streams r') = []).
Proof.
  cbv zeta. set (c := run hashtext es (initial networks)). pose proof (run_ok hashtext es _ (initial_ok hashtext networks)) as Hc. fold c in Hc.
  split; [|split; [|split; [|split]]].
  - intros i j r r' k k' Hi Hj En Hk Hk' Ha Ha'. split; [by eapply (one_live_term hashtext c i j r r' k k')|].
    pose proof (ok_replicas _ _ Hc i r Hi) as Hr. unfold holds. rewrite (term_network _ _ _ Hr k Hk). apply bool_decide_eq_true. by apply (term_lock _ _ _ Hr).
  - intros i r Hi Hl. pose proof (ok_replicas _ _ Hc i r Hi) as Hr. pose proof (idle_streams _ _ _ Hr Hl) as Hnone. split; [done|].
    split; [apply told_running; [apply (let_go_told _ _ _ Hr)|done]|]. by rewrite (gauge_leads _ _ _ Hr), Hl.
  - intros s es' Hs Hn. by apply dead_ticks.
  - intros i r s a Hi Ep Hr Hk Ha. by eapply takeover.
  - intros i r es' Hi Hr Hm. destruct (run_stops hashtext es' i c r Hi Hr) as (r' & Hi' & _ & Hl). exists r'. split; [done|].
    assert (Ep : re_phase r' = Stopped) by (assert (moves_left (re_phase r) <= 7)%nat by (destruct (re_phase r); cbn; lia); revert Hl; destruct (re_phase r'); cbn; intros Hl; first [done|lia]).
    split; [done|]. apply (idle_streams _ _ _ (ok_replicas _ _ (run_ok hashtext es' c Hc) i r' Hi')). by rewrite Ep.
Qed.

(** Two replicas of one network: the first leads and its session dies while it is about to tick. *)
Definition yes : Answer := mkAnswer Answered [].
Definition first_dies : list Event := [Moves 0%nat yes; Moves 0%nat yes; SessionDies 0%nat; Moves 1%nat yes; Moves 1%nat yes; Moves 1%nat yes].
Definition both : list string := ["testnet"; "testnet"].

Lemma one_leader_witness :
  let c := run (fun _ => 7%Z) first_dies (initial both) in
  map re_phase (replicas c) = [Syncing (mkIngestLeaderLock 0%nat "testnet"); Ticking (mkIngestLeaderLock 1%nat "testnet")] /\
  (forall es', (ticks_in 0 (log (run (fun _ => 7%Z) es' c)) <= 1)%nat) /\
  (forall es', (7 <= moves_of 0 es')%nat -> exists r', replicas (run (fun _ => 7%Z) (ShutDown 0%nat :: es') c) !! 0%nat = Some r' /\ re_phase r' = Stopped).
Proof.
  split; [vm_compute; reflexivity|]. split.
  - intros es'. destruct (one_leader (fun _ => 7%Z) both first_dies) as (_ & _ & H & _). specialize (H 0%nat es').
    apply H; [apply (bool_decide_unpack _); vm_compute; exact I|apply Nat.ltb_lt; vm_compute; reflexivity].
  - intros es' Hm. destruct (one_leader (fun _ => 7%Z) both (first_dies ++ [ShutDown 0%nat])) as (_ & _ & _ & _ & H).
    destruct (H 0%nat _ es' eq_refl eq_refl Hm) as (r' & Hr' & Hp & _). exists r'. split; [exact Hr'|exact Hp].
Defined.

(** The two do tick at once: the check that a leader makes at the head of its loop does not cover the
    tick that follows. *)
Example ticks_overlap :
  map re_phase (replicas (run (fun _ => 7%Z) (first_dies ++ [Moves 0%nat yes]) (initial both))) = [Ticking (mkIngestLeaderLock 0%nat "testnet"); Ticking (mkIngestLeaderLock 1%nat "testnet")].
Proof. vm_compute. reflexivity. Qed.
End Leadership.
