(* ===== verification/Backfill.v ===== *)
(** * Backfilling operation indices

    The tool [bin/backfill-operation-index/src/main.rs]: it reads the deposits in batches, works out the
    operation index that each one's TOID has, and writes back those that differ. A statement that names a
    column the table does not have is refused by Postgres whatever the rows are; the columns are those of
    [crates/store/migrations]. *)

From stdpp Require Import sorting.
From S2P Require Import Prelude Db Paging Toid Store.

Module Backfill.
Import Db Store.
Local Open Scope db_scope.

(** [0001_init.sql] and [0002_horizon_op_id.sql]. *)
Definition transactions_columns : list string :=
  ["id"; "wallet_id"; "address_id"; "direction"; "asset_code"; "asset_issuer"; "amount_stroops"; "source_account"; "destination_account";
   "stellar_tx_hash"; "operation_index"; "ledger"; "memo_id"; "status"; "reference"; "metadata"; "created_at"; "horizon_op_id"].

Record Args := mkArgs { batch_size : Z; dry_run : bool; limit : Z }.

Record UpdateCandidate := mkUpdateCandidate {
  uc_id : Uuid; uc_horizon_op_id : string; uc_current : Z; uc_new : Z; uc_stellar_tx_hash : string
}.

Record BackfillStats := mkBackfillStats {
  total_examined : Z; needs_update : Z; updated : Z; skipped_invalid_toid : Z; skipped_already_correct : Z; errors : Z
}.
Definition no_stats : BackfillStats := mkBackfillStats 0 0 0 0 0 0.

(** What [?] returns from the tool. *)
Inductive BackfillError := FetchFailed.

Section Tool.
Context {X : Type}.
Notation M := (M State X).
(** The columns of [transactions]. *)
Variable columns : list string.
(** The order in which a scan of a table gives its rows, statement by statement. *)
Variable scan : Z -> list Transaction -> list Transaction.
(** The host clock, when the batch at an offset is decoded. *)
Variable clock : Z -> Z.

(** ** Reading *)

Definition eligible (t : Transaction) : bool :=
  bool_decide (tx_direction t = "deposit") && match tx_horizon_op_id t with Some _ => true | None => false end.
Definition created_leb (a b : Transaction) : bool := tx_created_at a <=? tx_created_at b.

(** [LIMIT $1 OFFSET $2]; a negative number is an error. *)
Definition batch_query (limit offset : Z) (now : Z) (s : State) : result (list Transaction) sqlx_error * State :=
  let l := wrap_i64 limit in let o := wrap_i64 offset in
  if (l <? 0) || (o <? 0) then (Err OtherDbError, s) else
  (Ok (take (Z.to_nat l) (drop (Z.to_nat o) (Paging.sort_by created_leb (scan now (List.filter eligible (transactions s)))))), s).

(** [row.get] of a null into an [i32] panics: [None]. *)
Fixpoint candidates_of (now : Z) (rows : list Transaction) : option (list UpdateCandidate) :=
  match rows with
  | [] => Some []
  | t :: rest =>
      let* current := tx_operation_index t in
      let op_id := default "" (tx_horizon_op_id t) in
      let* more := candidates_of now rest in
      Some (match Toid.operation_index_from_toid op_id now with
            | Some new => if negb (new =? current) then mkUpdateCandidate (tx_id t) op_id current new (default "" (tx_stellar_tx_hash t)) :: more else more
            | None => more
            end)
  end.

Definition panic {A} : M A := fun w => (Crashed, w).

Definition find_candidates_batch (limit offset : Z) : M (result (list UpdateCandidate * Z) BackfillError) :=
  do rows <- db_call (batch_query limit offset);
  match rows with
  | Err _ => ret (Err FetchFailed)
  | Ok rows =>
      match candidates_of (clock offset) rows with
      | None => panic
      | Some cs => ret (Ok (cs, Z.of_nat (length rows)))
      end
  end.

(** ** Writing *)

Definition UPDATE_COLUMNS : list string := ["operation_index"; "updated_at"; "id"; "horizon_op_id"].

Definition set_index (n : Z) (t : Transaction) : Transaction :=
  mkTransaction (tx_id t) (tx_wallet_id t) (tx_address_id t) (tx_direction t) (tx_asset_code t) (tx_asset_issuer t) (tx_amount_stroops t)
    (tx_source_account t) (tx_destination_account t) (tx_stellar_tx_hash t) (Some n) (tx_horizon_op_id t) (tx_ledger t) (tx_memo_id t)
    (tx_status t) (tx_reference t) (tx_metadata t) (tx_created_at t).

Definition is_target (c : UpdateCandidate) (t : Transaction) : bool :=
  bool_decide (tx_id t = uc_id c) && bool_decide (tx_operation_index t = Some (uc_current c)) && bool_decide (tx_horizon_op_id t = Some (uc_horizon_op_id c)).

(** [uq_tx_onchain] *)
Definition same_operation (t u : Transaction) : bool :=
  match tx_stellar_tx_hash t, tx_operation_index t with
  | Some h, Some i => bool_decide (tx_stellar_tx_hash u = Some h) && bool_decide (tx_operation_index u = Some i)
  | _, _ => false
  end.

(** One [UPDATE]: the number of rows, and the table. *)
Definition update_stmt (c : UpdateCandidate) (ts : list Transaction) : result (Z * list Transaction) sqlx_error :=
  if negb (forallb (fun k => bool_decide (k ∈ columns)) UPDATE_COLUMNS) then Err OtherDbError else
  let hit := List.filter (is_target c) ts in
  let others := List.filter (fun t => negb (is_target c t)) ts in
  if existsb (fun t => existsb (same_operation (set_index (uc_new c) t)) others) hit then Err (UniqueViolation "uq_tx_onchain") else
  Ok (Z.of_nat (length hit), map (fun t => if is_target c t then set_index (uc_new c) t else t) ts).

(** The statements between [begin] and [commit]; the first error rolls all of them back. *)
Fixpoint update_all (cs : list UpdateCandidate) (n : Z) (ts : list Transaction) : result (Z * list Transaction) sqlx_error :=
  match cs with
  | [] => Ok (n, ts)
  | c :: rest => let? r := update_stmt c ts in update_all rest (if fst r =? 1 then n + 1 else n) (snd r)
  end.

Definition update_tx (cs : list UpdateCandidate) (_ : Z) (s : State) : result Z sqlx_error * State :=
  match update_all cs 0 (transactions s) with
  | Ok (n, ts) => (Ok n, set_transactions s ts)
  | Err e => (Err e, s)
  end.

Definition update_batch (cs : list UpdateCandidate) (dry : bool) : M (result Z sqlx_error) :=
  if bool_decide (cs = []) then ret (Ok 0) else
  if dry then ret (Ok (Z.of_nat (length cs))) else
  db_call (update_tx cs).

(** ** The loop *)

Definition examined_batch (examined : Z) (cs : list UpdateCandidate) (st : BackfillStats) : BackfillStats :=
  mkBackfillStats (total_examined st + examined) (needs_update st + Z.of_nat (length cs)) (updated st) (skipped_invalid_toid st) (skipped_already_correct st) (errors st).
Definition updated_batch (r : result Z sqlx_error) (st : BackfillStats) : BackfillStats :=
  match r with
  | Ok n => mkBackfillStats (total_examined st) (needs_update st) (updated st + n) (skipped_invalid_toid st) (skipped_already_correct st) (errors st)
  | Err _ => mkBackfillStats (total_examined st) (needs_update st) (updated st) (skipped_invalid_toid st) (skipped_already_correct st) (errors st + 1)
  end.

(** [None] when the fuel runs out. *)
Fixpoint backfill_loop (fuel : nat) (args : Args) (offset processed : Z) (st : BackfillStats) : M (option (result BackfillStats BackfillError)) :=
  match fuel with
  | O => ret None
  | S fuel =>
      let size := if 0 <? limit args then Z.min (batch_size args) (limit args - processed) else batch_size args in
      if size =? 0 then ret (Some (Ok st)) else
      do found <- find_candidates_batch size offset;
      match found with
      | Err e => ret (Some (Err e))
      | Ok (cs, examined) =>
          if examined =? 0 then ret (Some (Ok st)) else
          let st := examined_batch examined cs st in
          if bool_decide (cs = []) then
            if examined <? size then ret (Some (Ok st)) else backfill_loop fuel args (offset + examined) (processed + examined) st
          else
            do r <- update_batch cs (dry_run args);
            let st := updated_batch r st in
            if (0 <? limit args) && (limit args <=? processed + examined) then ret (Some (Ok st)) else
            backfill_loop fuel args (offset + examined) (processed + examined) st
      end
  end.

Definition run_backfill (fuel : nat) (args : Args) : M (option (result BackfillStats BackfillError)) := backfill_loop fuel args 0 0 no_stats.
End Tool.

(** ** Nothing is written *)

Section Inert.
Context {X : Type}.
Variable scan : Z -> list Transaction -> list Transaction.
Variable clock : Z -> Z.

Lemma no_update c ts : update_stmt transactions_columns c ts = Err OtherDbError.
Proof. reflexivity. Qed.

Lemma update_tx_inert cs now s : cs <> [] -> update_tx transactions_columns cs now s = (Err OtherDbError, s).
Proof. unfold update_tx. destruct cs as [|c cs]; [done|]. intros _. cbn [update_all]. by rewrite no_update. Qed.

Lemma batch_query_reads l o now s : snd (batch_query scan l o now s) = s.
Proof. unfold batch_query. by case_match. Qed.

Lemma maintains_find (P : State -> Prop) l o : maintains P (find_candidates_batch (X := X) scan clock l o).
Proof.
  unfold find_candidates_batch. apply maintains_bind; [apply maintains_call; intros now s Hs; by rewrite batch_query_reads|].
  intros [rows|]; [|apply maintains_ret]. destruct (candidates_of _ rows); [apply maintains_ret|]. by intros w Hw Hok.
Qed.

Lemma maintains_update (P : State -> Prop) cs dry : maintains P (update_batch (X := X) transactions_columns cs dry).
Proof.
  unfold update_batch. destruct (bool_decide_reflect (cs = [])) as [->|Hcs]; [apply maintains_ret|]. destruct dry; [apply maintains_ret|].
  apply maintains_call. intros now s Hs. by rewrite update_tx_inert.
Qed.

Lemma maintains_loop (P : State -> Prop) fuel args : forall o p st, maintains P (backfill_loop (X := X) transactions_columns scan clock fuel args o p st).
Proof.
  induction fuel as [|fuel IH]; intros o p st; cbn [backfill_loop]; [apply maintains_ret|]. cbv zeta.
  generalize (if 0 <? limit args then Z.min (batch_size args) (limit args - p) else batch_size args). intros size.
  destruct (size =? 0); [apply maintains_ret|]. apply maintains_bind; [apply maintains_find|]. intros [[cs n]|]; [|apply maintains_ret].
  destruct (n =? 0); [apply maintains_ret|]. destruct (bool_decide (cs = [])); [destruct (n <? size); [apply maintains_ret|apply IH]|].
  apply maintains_bind; [apply maintains_update|]. intros r. destruct ((0 <? limit args) && _); [apply maintains_ret|apply IH].
Qed.

(** ** What it reports *)

(** A row whose index is not that of its TOID. *)
Definition stale (now : Z) (t : Transaction) : bool :=
  match Toid.operation_index_from_toid (default "" (tx_horizon_op_id t)) now, tx_operation_index t with
  | Some new, Some current => negb (new =? current)
  | _, _ => false
  end.

Lemma candidates_stale now rows : Forall (fun t => tx_operation_index t <> None) rows ->
  exists cs, candidates_of now rows = Some cs /\ length cs = length (List.filter (stale now) rows).
Proof.
  induction 1 as [|t rows Ht Hr (cs & E & El)]; [by exists []|]. cbn [candidates_of List.filter]. unfold stale at 1.
  destruct (tx_operation_index t) as [cur|]; [|done]. cbn [option_bind]. rewrite E. cbn [option_bind].
  destruct (Toid.operation_index_from_toid _ now) as [new|]; [|by eexists]. destruct (new =? cur); cbn [negb]; eexists; (split; [done|]); cbn [length]; lia.
Qed.

Definition deposits (s : State) : list Transaction := Paging.sort_by created_leb (List.filter eligible (transactions s)).

(** The scans give every row once; no two deposits were created in the same instant; all have an index. *)
Record readable (s : State) : Prop := {
  rd_scan : forall now l, Permutation (scan now l) l;
  rd_times : forall t u, t ∈ transactions s -> u ∈ transactions s -> eligible t = true -> eligible u = true -> tx_created_at t = tx_created_at u -> t = u;
  rd_indexed : Forall (fun t => tx_operation_index t <> None) (deposits s);
  rd_size : Z.of_nat (length (deposits s)) <= i64_MAX
}.

Lemma created_leb_trans a b c : created_leb a b = true -> created_leb b c = true -> created_leb a c = true.
Proof. unfold created_leb. lia. Qed.

Lemma created_leb_total a b : created_leb a b = true \/ created_leb b a = true.
Proof. unfold created_leb. lia. Qed.

Lemma scan_sorted s now : readable s -> Paging.sort_by created_leb (scan now (List.filter eligible (transactions s))) = deposits s.
Proof.
  intros [Hp Ht _ _]. unfold deposits. eapply (StronglySorted_unique_strong (fun x y => created_leb x y = true)).
  - intros t u Htx Hu H1 H2. rewrite !Paging.sort_by_perm in *. rewrite (Hp now) in Htx. apply list_elem_of_In, filter_In in Htx as [Htx Et]. apply list_elem_of_In, filter_In in Hu as [Hu Eu].
    apply Ht; try done; try by apply list_elem_of_In. unfold created_leb in *. lia.
  - apply Paging.sort_by_sorted; [apply created_leb_total|apply created_leb_trans].
  - apply Paging.sort_by_sorted; [apply created_leb_total|apply created_leb_trans].
  - by rewrite !Paging.sort_by_perm, (Hp now).
Qed.

(** What the loop adds to the statistics for the rows it has not seen. *)
Record reports (dry : bool) (rest need : Z) (st st' : BackfillStats) : Prop := {
  rp_examined : total_examined st' = total_examined st + rest;
  rp_needs : needs_update st' = needs_update st + need;
  rp_updated : updated st' = updated st + if dry then need else 0;
  rp_errors : if dry || (need =? 0) then errors st' = errors st else errors st < errors st'
}.

Lemma reports_step dry n m r need st st1 st2 : 0 <= m -> 0 <= need -> reports dry n m st st1 -> reports dry r need st1 st2 -> reports dry (n + r) (m + need) st st2.
Proof.
  intros Hm Hn [A1 A2 A3 A4] [B1 B2 B3 B4]. split; [lia|lia|destruct dry; lia|].
  destruct dry; cbn in *; [lia|]. destruct (m =? 0) eqn:E1, (need =? 0) eqn:E2, (m + need =? 0) eqn:E3; lia.
Qed.

Notation need c l := (Z.of_nat (length (List.filter (stale c) l))).

Lemma idle_reports dry n st : reports dry n 0 st (examined_batch n [] st) /\ reports dry 0 0 st st.
Proof. split; split; cbn; destruct dry; cbn; change (Z.of_nat 0) with 0; lia. Qed.

Lemma batch_reports (dry : bool) n cs st r : r = (if dry then Ok (Z.of_nat (length cs)) else Err OtherDbError) -> cs <> [] ->
  reports dry n (Z.of_nat (length cs)) st (updated_batch r (examined_batch n cs st)).
Proof.
  intros -> Hcs. assert (E : (Z.of_nat (length cs) =? 0) = false) by (apply Z.eqb_neq; destruct cs; [done|cbn [length]; lia]).
  destruct dry; split; cbn; rewrite ?E; lia.
Qed.

Lemma loop_reports c size dry s (w : World State X) : 0 < size <= i64_MAX -> readable s -> (forall o, clock o = c) -> db w = s -> ticks w = [] ->
  forall fuel k st, (k <= length (deposits s))%nat -> (length (deposits s) - k < fuel)%nat ->
  exists st', backfill_loop transactions_columns scan clock fuel (mkArgs size dry 0) (Z.of_nat k) (Z.of_nat k) st w = (Ret (Some (Ok st')), w) /\
    reports dry (Z.of_nat (length (drop k (deposits s)))) (need c (drop k (deposits s))) st st'.
Proof.
  intros Hsize Hs Hclock Hdb Hq. pose proof (rd_size _ Hs) as Hlen. pose proof (rd_indexed _ Hs) as Hidx.
  induction fuel as [|fuel IH]; intros k st Hk Hf; [lia|]. cbn [backfill_loop limit batch_size dry_run]. cbv zeta.
  change (0 <? 0) with false. cbn [andb]. assert ((size =? 0) = false) as -> by lia.
  unfold bind at 1. unfold find_candidates_batch. unfold bind at 1. unfold db_call at 1. rewrite Hq. cbn [head tail default t_fault t_others t_now quiet_tick].
  unfold batch_query. rewrite !wrap_i64_id by (unfold i64_MIN, i64_MAX in *; lia).
  assert ((size <? 0) || (Z.of_nat k <? 0) = false) as -> by lia. cbv beta iota. rewrite Hdb, scan_sorted, Nat2Z.id by done.
  set (rows := take (Z.to_nat size) (drop k (deposits s))).
  assert (Hri : Forall (fun t => tx_operation_index t <> None) rows) by (by apply Forall_take, Forall_drop).
  destruct (candidates_stale (clock (Z.of_nat k)) rows Hri) as (cs & -> & Ecs). rewrite Hclock in Ecs. unfold ret at 1.
  assert (Ew : mkWorld s [] (ext w) = w) by (destruct w; cbn in *; congruence). rewrite Ew. cbv beta iota.
  assert (Hrest : drop k (deposits s) = rows ++ drop (k + length rows) (deposits s)).
  { rewrite <- drop_drop. unfold rows. rewrite <- (take_drop (Z.to_nat size) (drop k (deposits s))) at 1. f_equal. rewrite length_take, !drop_drop.
    destruct (Nat.le_ge_cases (Z.to_nat size) (length (drop k (deposits s)))) as [H|H]; [f_equal; lia|]. rewrite !drop_ge by (rewrite length_drop in *; lia). done. }
  assert (Hn : Z.of_nat (length rows) <= size) by (unfold rows; rewrite length_take; lia).
  destruct (Z.of_nat (length rows) =? 0) eqn:E0.
  { exists st. split; [done|]. assert (rows = []) as Er by (apply nil_length_inv; apply Z.eqb_eq in E0; lia).
    assert (drop k (deposits s) = []) as ->. { unfold rows in Er. apply (f_equal length) in Er. rewrite length_take in Er. cbn in Er. apply nil_length_inv. lia. }
    apply (idle_reports dry 0). }
  assert (Hk' : (k + length rows <= length (deposits s))%nat) by (unfold rows; rewrite length_take, length_drop; lia).
  rewrite Hrest, length_app, List.filter_app, length_app, !Nat2Z.inj_add.
  destruct (bool_decide_reflect (cs = [])) as [->|Hcs].
  - cbn [length] in Ecs. rewrite <- Ecs. destruct (Z.of_nat (length rows) <? size) eqn:El.
    + eexists. split; [done|]. assert (drop (k + length rows) (deposits s) = []) as ->.
      { apply Z.ltb_lt in El. apply drop_ge. revert El. unfold rows. rewrite length_take, length_drop. lia. }
      change (length (List.filter (stale c) [])) with 0%nat. rewrite !Z.add_0_r. apply idle_reports.
    + destruct (IH (k + length rows)%nat (examined_batch (Z.of_nat (length rows)) [] st) Hk' ltac:(lia)) as (st' & E & Hst'). rewrite Nat2Z.inj_add in E. rewrite E. eexists. split; [done|].
      eapply reports_step; [lia|lia|apply idle_reports|exact Hst'].
  - unfold bind. assert (Eu : update_batch transactions_columns cs dry w = (Ret (if dry then Ok (Z.of_nat (length cs)) else Err OtherDbError), w)).
    { unfold update_batch. rewrite bool_decide_eq_false_2 by done. destruct dry; [done|]. unfold db_call. rewrite Hq. cbn. rewrite update_tx_inert, Hdb by done. by rewrite Ew. }
    rewrite Eu. cbv beta iota.
    destruct (IH (k + length rows)%nat (updated_batch (if dry then Ok (Z.of_nat (length cs)) else Err OtherDbError) (examined_batch (Z.of_nat (length rows)) cs st)) Hk' ltac:(lia)) as (st' & E & Hst').
    rewrite Nat2Z.inj_add in E. rewrite E. eexists. split; [done|]. rewrite <- Ecs. eapply reports_step; [lia|lia|by apply batch_reports|exact Hst'].
Qed.
End Inert.

(** C29: the backfill tool writes nothing. With the columns that the migrations give the table, whatever
    the arguments and the schedule of faults and other connections, the tool leaves every property of the
    database that the others keep; and on a database at rest it ends, having examined every deposit with an
    operation id, having found exactly the rows whose index is not that of their TOID, and having updated
    none of them: a dry run announces them as updates, a real run counts errors exactly when there are
    any, and returns success all the same. *)
Theorem backfill_inert {X} (scan : Z -> list Transaction -> list Transaction) (clock : Z -> Z) :
  (forall (P : State -> Prop) fuel args, maintains P (run_backfill (X := X) transactions_columns scan clock fuel args)) /\
  (forall c size dry (w : World State X) fuel, 0 < size <= i64_MAX -> readable scan (db w) -> (forall o, clock o = c) -> ticks w = [] ->
     (length (deposits (db w)) < fuel)%nat ->
     exists st, run_backfill transactions_columns scan clock fuel (mkArgs size dry 0) w = (Ret (Some (Ok st)), w) /\
       reports dry (Z.of_nat (length (deposits (db w)))) (Z.of_nat (length (List.filter (stale c) (deposits (db w))))) no_stats st).
Proof.
  split; [intros P fuel args; apply maintains_loop|]. intros c size dry w fuel Hsize Hs Hc Hq Hf.
  destruct (loop_reports scan clock c size dry (db w) w Hsize Hs Hc eq_refl Hq fuel 0 no_stats ltac:(lia) ltac:(lia)) as (st & E & Hst).
  exists st. split; [exact E|]. exact Hst.
Qed.

(** A deposit by the second operation of its transaction, stored with index 0. *)
Definition demo_row : Transaction :=
  mkTransaction 1 1 None "deposit" "native" None 5 None None (Some "aa") (Some 0) (Some "12884905986") None None "confirmed" None [] 10.
Definition demo_state : State := mkState 2 [] [] [demo_row] [] [] [] [].
Definition demo_now : Z := 1800000000.

Lemma demo_readable : readable (fun _ l => l) demo_state.
Proof.
  split; [done| |by repeat constructor|vm_compute; discriminate].
  intros t u Ht Hu _ _ _. apply list_elem_of_singleton in Ht, Hu. congruence.
Qed.

Lemma backfill_inert_witness : exists st,
  run_backfill transactions_columns (fun _ l => l) (fun _ => demo_now) 2 (mkArgs 1000 false 0) (mkWorld demo_state [] tt) = (Ret (Some (Ok st)), mkWorld demo_state [] tt) /\
  needs_update st = 1 /\ updated st = 0 /\ 0 < errors st.
Proof.
  destruct (proj2 (backfill_inert (X := unit) (fun _ l => l) (fun _ => demo_now)) demo_now 1000 false (mkWorld demo_state [] tt) 2%nat) as (st & E & [H1 H2 H3 H4]).
  - vm_compute. split; [reflexivity|discriminate].
  - exact demo_readable.
  - reflexivity.
  - reflexivity.
  - vm_compute. lia.
  - exists st. split; [exact E|]. vm_compute in H2, H3, H4. split; [exact H2|]. split; [exact H3|exact H4].
Defined.

(** With the column that it names, the statement would repair the row. *)
Example repaired_with_column :
  match run_backfill ("updated_at" :: transactions_columns) (fun _ l => l) (fun _ => demo_now) 2 (mkArgs 1000 false 0) (mkWorld demo_state [] tt) with
  | (Ret (Some (Ok st)), w) => updated st = 1 /\ map tx_operation_index (transactions (db w)) = [Some 1]
  | _ => False
  end.
Proof. vm_compute. done. Qed.
End Backfill.
