(* ===== verification/Metrics.v ===== *)
(** * Metrics

    [crates/metrics/src/lib.rs]: counters, gauges and histograms with a bounded number of series, and the
    text that a scrape reads. A map of series is a [gmap]; it is rendered in the order of a [BTreeMap].
    A mutex is held for the whole of every operation, so a metric is the fold of the calls on it. *)

From Stdlib Require Import Sorted.
From S2P Require Import Prelude Float64 Paging Email.

Module Metrics.
Import Float64.

Definition MAX_SERIES : nat := 500.
Definition OVERFLOW : string := "overflow".

(** A decimal literal. *)
Definition lit (n d : Z) : f64 := div (of_Z n) (of_Z d).
Definition LATENCY_BUCKETS : list f64 :=
  [lit 5 1000; lit 1 100; lit 25 1000; lit 5 100; lit 1 10; lit 25 100; lit 5 10; lit 1 1; lit 25 10; lit 5 1; lit 10 1].
Definition TICK_BUCKETS : list f64 := [lit 5 100; lit 1 10; lit 25 100; lit 5 10; lit 1 1; lit 25 10; lit 5 1; lit 10 1; lit 30 1; lit 60 1].

(** ** Series *)

Notation Series T := (gmap (list string) T).

Definition own_key (labels values : list string) : list string := map (fun i => default "" (values !! i)) (seq 0 (length labels)).
Definition overflow_key (labels : list string) : list string := repeat OVERFLOW (length labels).

Definition bounded_key {T} (m : Series T) (labels values : list string) : list string :=
  let key := own_key labels values in
  if bool_decide (is_Some (m !! key)) || (size m <? MAX_SERIES)%nat then key else overflow_key labels.

(** An update of the series that some label values have. *)
Definition update {T} (labels values : list string) (f : option T -> T) (m : Series T) : Series T :=
  let key := bounded_key m labels values in <[key := f (m !! key)]> m.

Record Counter := mkCounter { c_name : string; c_help : string; c_labels : list string; c_series : Series f64 }.
Record Gauge := mkGauge { g_name : string; g_help : string; g_labels : list string; g_series : Series f64 }.
Record HistogramState := mkHistogramState { counts : list Z; sum : f64 }.
Record Histogram := mkHistogram { h_name : string; h_help : string; h_labels : list string; h_buckets : list f64; h_series : Series HistogramState }.

Definition Counter_new (name help : string) (labels : list string) : Counter := mkCounter name help labels ∅.
Definition Gauge_new (name help : string) (labels : list string) : Gauge := mkGauge name help labels ∅.
Definition Histogram_new (name help : string) (labels : list string) (buckets : list f64) : Histogram := mkHistogram name help labels buckets ∅.

Definition one : f64 := of_Z 1.
Definition inc (values : list string) (c : Counter) : Counter :=
  mkCounter (c_name c) (c_help c) (c_labels c) (update (c_labels c) values (fun o => add (default zero o) one) (c_series c)).

Definition set (values : list string) (v : f64) (g : Gauge) : Gauge :=
  mkGauge (g_name g) (g_help g) (g_labels g) (update (g_labels g) values (fun _ => v) (g_series g)).

(** The first bucket that the value is not above; the extra slot if there is none. *)
Fixpoint slot (buckets : list f64) (v : f64) : nat :=
  match buckets with
  | [] => 0
  | b :: rest => if leb v b then 0 else S (slot rest v)
  end.

Definition observe_in (buckets : list f64) (v : f64) (o : option HistogramState) : HistogramState :=
  let st := default (mkHistogramState (replicate (length buckets + 1) 0) zero) o in
  mkHistogramState (alter (Z.add 1) (slot buckets v) (counts st)) (add (sum st) v).

Definition observe (values : list string) (v : f64) (h : Histogram) : Histogram :=
  mkHistogram (h_name h) (h_help h) (h_labels h) (h_buckets h) (update (h_labels h) values (observe_in (h_buckets h) v) (h_series h)).

(** ** Text *)

(** The exact ratio [a / b] rounded. *)
Definition of_ratio (a b : Z) : f64 :=
  let sh := Z.max 0 (66 + Z.log2 b - Z.log2 a) in
  let q := 2 * (a * 2 ^ sh / b) + (if a * 2 ^ sh mod b =? 0 then 0 else 1) in
  round q (- sh - 1).

(** [d * 10^k] as a ratio, and without an exponent as [Display] prints it. *)
Definition decimal_ratio (d k : Z) : Z * Z := if 0 <=? k then (d * 10 ^ k, 1) else (d, 10 ^ (- k)).
Fixpoint strip_zeros (l : list ascii) : list ascii := match l with c :: r => if ascii_dec c "0" then strip_zeros r else l | [] => [] end.
Definition decimal_text (d k : Z) : string :=
  if 0 <=? k then print_dec (d * 10 ^ k) else
  let fraction := string_of_list_ascii (rev (strip_zeros (rev (list_ascii_of_string (print_fixed (Z.to_nat (- k)) (d mod 10 ^ (- k))))))) in
  print_dec (d / 10 ^ (- k)) +:+ (if bool_decide (fraction = "") then "" else "." +:+ fraction).

(** The decimal exponent of the first digit of [a / b]. *)
Definition lead_exponent (a b : Z) : Z :=
  let guess := (Z.log2 a - Z.log2 b) * 30103 / 100000 in
  let reaches q := if 0 <=? q then b * 10 ^ q <=? a else b <=? a * 10 ^ (- q) in
  if reaches (guess + 1) then guess + 1 else if reaches guess then guess else guess - 1.

(** The shortest decimal that reads back as the value, and of those the closest. *)
Fixpoint shortest (fuel : nat) (n : Z) (x : f64) (a b : Z) : string :=
  let k := lead_exponent a b - (n - 1) in
  let '(num, den) := if 0 <=? k then (a, b * 10 ^ k) else (a * 10 ^ (- k), b) in
  let lo := num / den in
  let reads d := let '(p, q) := decimal_ratio d k in eqf (of_ratio p q) x in
  let '(near, far) := if 2 * (num mod den) <=? den then (lo, lo + 1) else (lo + 1, lo) in
  if reads near then decimal_text near k else
  if reads far then decimal_text far k else
  match fuel with O => decimal_text near k | S fuel => shortest fuel (n + 1) x a b end.

(** [f64::to_string]; 17 digits are always enough. *)
Definition display (x : f64) : string :=
  match x with
  | NaN => "NaN"
  | Inf s => if s then "-inf" else "inf"
  | Fin m e =>
      if m =? 0 then "0" else
      let '(a, b) := if 0 <=? e then (Z.abs m * 2 ^ e, 1) else (Z.abs m, 2 ^ (- e)) in
      (if m <? 0 then "-" else "") +:+ shortest 16 1 (Fin (Z.abs m) e) a b
  end.

Definition fmt_f64 (v : f64) : string :=
  match v with Inf false => "+Inf" | Inf true => "-Inf" | _ => display v end.

Definition backslash : ascii := "\".
Definition newline : ascii := ascii_of_nat 10.
Definition dquote : ascii := ascii_of_nat 34.

Definition escape (v : string) : string :=
  Email.replace newline (String backslash "n") (Email.replace dquote (String backslash (String dquote "")) (Email.replace backslash (String backslash (String backslash "")) v)).

Definition line (s : string) : string := s +:+ String newline "".
Definition header (name help kind : string) : string := line ("# HELP " +:+ name +:+ " " +:+ help) +:+ line ("# TYPE " +:+ name +:+ " " +:+ kind).

Definition pair_text (p : string * string) : string := p.1 +:+ "=" +:+ String dquote (escape p.2 +:+ String dquote "").
Definition sample (name : string) (labels values : list string) (le : option string) (v : f64) : string :=
  let pairs := zip labels values ++ match le with Some le => [("le", le)] | None => [] end in
  line (name +:+ (if bool_decide (pairs = []) then "" else "{" +:+ String.concat "," (map pair_text pairs) +:+ "}") +:+ " " +:+ fmt_f64 v).

(** The order of [Vec<String>]. *)
Fixpoint key_leb (a b : list string) : bool :=
  match a, b with
  | [], _ => true
  | _ :: _, [] => false
  | x :: a, y :: b => match String.compare x y with Lt => true | Gt => false | Eq => key_leb a b end
  end.
Definition in_order {T} (m : Series T) : list (list string * T) := Paging.sort_by (fun p q => key_leb p.1 q.1) (map_to_list m).

Definition concat_text (l : list string) : string := String.concat "" l.

Definition Counter_render (c : Counter) : string :=
  header (c_name c) (c_help c) "counter" +:+ concat_text (map (fun p => sample (c_name c) (c_labels c) p.1 None p.2) (in_order (c_series c))).
Definition Gauge_render (g : Gauge) : string :=
  header (g_name g) (g_help g) "gauge" +:+ concat_text (map (fun p => sample (g_name g) (g_labels g) p.1 None p.2) (in_order (g_series g))).

(** The running totals. *)
Fixpoint cumulative (acc : Z) (l : list Z) : list Z := match l with [] => [] | n :: r => (acc + n) :: cumulative (acc + n) r end.
Definition le_text (buckets : list f64) (i : nat) : string := match buckets !! i with Some b => fmt_f64 b | None => "+Inf" end.
Definition render_state (h : Histogram) (p : list string * HistogramState) : string :=
  let totals := cumulative 0 (counts p.2) in
  concat_text (imap (fun i n => sample (h_name h +:+ "_bucket") (h_labels h) p.1 (Some (le_text (h_buckets h) i)) (of_Z n)) totals)
  +:+ sample (h_name h +:+ "_sum") (h_labels h) p.1 None (sum p.2)
  +:+ sample (h_name h +:+ "_count") (h_labels h) p.1 None (of_Z (default 0 (last totals))).
Definition Histogram_render (h : Histogram) : string :=
  header (h_name h) (h_help h) "histogram" +:+ concat_text (map (render_state h) (in_order (h_series h))).

(** ** All of them *)

Record GaugeFn := mkGaugeFn { gf_name : string; gf_help : string; gf_labels : list (string * string); gf_read : unit -> f64 }.

Record Registry := mkRegistry {
  HTTP_REQUEST_DURATION : Histogram; WEBHOOK_DELIVERIES : Counter; INGEST_TICK_DURATION : Histogram;
  INGEST_LAST_SUCCESS : Gauge; INGEST_LEADER : Gauge; INGEST_DEPOSITS : Counter; GAUGE_FNS : list GaugeFn
}.

Definition registry : Registry := mkRegistry
  (Histogram_new "octo_http_request_duration_seconds" "HTTP request latency by method, route template and status class." ["method"; "route"; "status_class"] LATENCY_BUCKETS)
  (Counter_new "octo_webhook_deliveries_total" "Webhook deliveries by kind (event, ping) and final outcome (delivered, failed, dead)." ["kind"; "outcome"])
  (Histogram_new "octo_ingest_tick_duration_seconds" "Ingest supervisor tick duration by outcome (ok, error)." ["outcome"] TICK_BUCKETS)
  (Gauge_new "octo_ingest_last_success_timestamp_seconds" "Unix time of the last successful ingest tick on this instance." [])
  (Gauge_new "octo_ingest_leader" "1 while this instance holds the ingest leader lock, else 0." [])
  (Counter_new "octo_ingest_deposits_total" "Deposits recorded by ingest, by whether they were attributed to a customer address." ["attributed"])
  [].

Definition register_gauge_fn (g : GaugeFn) (r : Registry) : Registry :=
  mkRegistry (HTTP_REQUEST_DURATION r) (WEBHOOK_DELIVERIES r) (INGEST_TICK_DURATION r) (INGEST_LAST_SUCCESS r) (INGEST_LEADER r) (INGEST_DEPOSITS r) (GAUGE_FNS r ++ [g]).

Fixpoint render_gauges (last_name : string) (gs : list GaugeFn) : string :=
  match gs with
  | [] => ""
  | g :: rest =>
      (if bool_decide (gf_name g = last_name) then "" else header (gf_name g) (gf_help g) "gauge")
      +:+ sample (gf_name g) (map fst (gf_labels g)) (map snd (gf_labels g)) None (gf_read g tt) +:+ render_gauges (gf_name g) rest
  end.

Definition render (r : Registry) : string :=
  Histogram_render (HTTP_REQUEST_DURATION r) +:+ Counter_render (WEBHOOK_DELIVERIES r) +:+ Histogram_render (INGEST_TICK_DURATION r)
  +:+ Gauge_render (INGEST_LAST_SUCCESS r) +:+ Gauge_render (INGEST_LEADER r) +:+ Counter_render (INGEST_DEPOSITS r) +:+ render_gauges "" (GAUGE_FNS r).

(** ** Which series a call counts in *)

Section Calls.
Context {V T : Type}.
Variable labels : list string.
Variable g : V -> option T -> T.
Notation key c := (own_key labels c.1).

Definition after (calls : list (list string * V)) : Series T := fold_left (fun m c => update labels c.1 (g c.2) m) calls ∅.

(** The keys in the order in which they first came, and the series of a call: its own if it is among the first. *)
Definition distinct (ks : list (list string)) : list (list string) := fold_left (fun acc k => if bool_decide (k ∈ acc) then acc else acc ++ [k]) ks [].
Definition admitted (calls : list (list string * V)) : list (list string) := take MAX_SERIES (distinct (map (fun c => key c) calls)).
Definition assigned (calls : list (list string * V)) (c : list string * V) : list string :=
  if bool_decide (key c ∈ admitted calls) then key c else overflow_key labels.

Lemma distinct_snoc ks k : distinct (ks ++ [k]) = if bool_decide (k ∈ distinct ks) then distinct ks else distinct ks ++ [k].
Proof. unfold distinct. by rewrite fold_left_app. Qed.

Lemma distinct_spec ks : NoDup (distinct ks) /\ forall k, k ∈ distinct ks <-> k ∈ ks.
Proof.
  induction ks as [|k ks [IH1 IH2]] using rev_ind; [split; [constructor|done]|]. rewrite distinct_snoc. case_bool_decide as Hk.
  - split; [done|]. intros j. rewrite IH2. apply IH2 in Hk. set_solver.
  - split; [|set_solver]. apply NoDup_app. split; [done|]. split; [|apply NoDup_singleton]. set_solver.
Qed.

(** What the map holds. *)
Definition held (calls : list (list string * V)) : gset (list string) :=
  list_to_set (admitted calls) ∪ (if (length (distinct (map (fun c => key c) calls)) <=? MAX_SERIES)%nat then ∅ else {[overflow_key labels]}).

Lemma admitted_size calls : size (list_to_set (admitted calls) : gset (list string)) = Nat.min MAX_SERIES (length (distinct (map (fun c => key c) calls))).
Proof.
  unfold admitted. rewrite size_list_to_set, length_take; [done|]. eapply sublist_NoDup; [apply distinct_spec|apply sublist_take].
Qed.

Lemma held_key (calls : list (list string * V)) (c : list string * V) (m : Series T) : dom m = held calls -> bounded_key m labels c.1 = assigned (calls ++ [c]) c /\
  held (calls ++ [c]) = {[bounded_key m labels c.1]} ∪ held calls.
Proof.
  intros Hd. pose proof (distinct_spec (map (fun c => key c) calls)) as [Hnd _]. unfold bounded_key, assigned, held, admitted. pose proof (admitted_size calls) as Hsz.
  rewrite map_app. cbn [map]. rewrite distinct_snoc. unfold admitted in Hsz. set (D := distinct (map (fun c => key c) calls)) in *. set (k := key c).
  assert (Hin : is_Some (m !! own_key labels c.1) <-> k ∈ held calls) by (by rewrite <- elem_of_dom, Hd). rewrite (bool_decide_ext _ _ Hin).
  rewrite <- size_dom, Hd. unfold held, admitted. fold D. destruct (Nat.leb_spec (length D) MAX_SERIES) as [Hl|Hl].
  - rewrite take_ge in * by done. rewrite union_empty_r_L. rewrite Hsz. destruct (bool_decide_reflect (k ∈ D)) as [Hk|Hk].
    + rewrite (bool_decide_eq_true_2 (k ∈ (list_to_set D : gset _))) by set_solver. cbn [orb]. rewrite (take_ge D) by done. rewrite (bool_decide_eq_true_2 (k ∈ D)) by done.
      split; [done|]. rewrite (proj2 (Nat.leb_le _ _) Hl). set_solver.
    + rewrite (bool_decide_eq_false_2 (k ∈ (list_to_set D : gset _))) by set_solver. cbn [orb]. destruct (Nat.ltb_spec (Nat.min MAX_SERIES (length D)) MAX_SERIES) as [Hlt|Hge].
      * rewrite take_ge by (rewrite length_app; cbn; lia). rewrite bool_decide_eq_true_2 by set_solver. split; [done|].
        rewrite (proj2 (Nat.leb_le _ _)) by (rewrite length_app; cbn; lia). set_solver.
      * rewrite take_app_le, take_ge by lia. rewrite bool_decide_eq_false_2 by done. split; [done|].
        rewrite (proj2 (Nat.leb_gt _ _)) by (rewrite length_app; cbn; lia). set_solver.
  - assert (Hfull : (size (list_to_set (take MAX_SERIES D) ∪ {[overflow_key labels]} : gset (list string)) <? MAX_SERIES)%nat = false).
    { apply Nat.ltb_ge. etransitivity; [|apply subseteq_size, union_subseteq_l]. rewrite Hsz. lia. }
    rewrite Hfull, orb_false_r.
    assert (Ht : forall b : bool, take MAX_SERIES (if b then D else D ++ [k]) = take MAX_SERIES D) by (intros []; [done|apply take_app_le; lia]). rewrite !Ht.
    assert (Hb : forall b : bool, (length (if b then D else D ++ [k]) <=? MAX_SERIES)%nat = false) by (intros []; apply Nat.leb_gt; rewrite ?length_app; lia). rewrite Hb.
    destruct (bool_decide_reflect (k ∈ take MAX_SERIES D)) as [Hk|Hk].
    + rewrite bool_decide_eq_true_2 by set_solver. split; [done|]. set_solver.
    + destruct (decide (k = overflow_key labels)) as [E|E].
      * rewrite bool_decide_eq_true_2 by set_solver. split; [done|]. set_solver.
      * rewrite bool_decide_eq_false_2 by set_solver. split; [done|]. set_solver.
Qed.

Lemma after_snoc calls c : after (calls ++ [c]) = update labels c.1 (g c.2) (after calls).
Proof. unfold after. by rewrite fold_left_app. Qed.

Lemma after_dom calls : dom (after calls) = held calls.
Proof.
  induction calls as [|c calls IH] using rev_ind; [by unfold held, admitted|]. rewrite after_snoc. unfold update. rewrite dom_insert_L, IH.
  by destruct (held_key calls c (after calls) IH) as [_ ->].
Qed.

Lemma series_bounded calls : (size (after calls) <= MAX_SERIES + 1)%nat.
Proof.
  rewrite <- size_dom, after_dom. unfold held. rewrite size_union_alt, admitted_size.
  assert (forall X : gset (list string), (size (X ∖ list_to_set (admitted calls)) <= size X)%nat) as Hd by (intros X; apply subseteq_size; set_solver).
  specialize (Hd (if (length (distinct (map (fun c => key c) calls)) <=? MAX_SERIES)%nat then ∅ else {[overflow_key labels]})).
  case_match; [rewrite size_empty in Hd|rewrite size_singleton in Hd]; lia.
Qed.

Lemma assigned_app calls c x : x ∈ calls -> assigned (calls ++ [c]) x = assigned calls x.
Proof.
  intros Hx. unfold assigned, admitted. rewrite map_app. cbn [map]. rewrite distinct_snoc. set (D := distinct _).
  assert (Hk : key x ∈ D) by (apply distinct_spec, list_elem_of_In, in_map_iff; exists x; split; [done|by apply list_elem_of_In]).
  destruct (bool_decide (key c ∈ D)); [done|]. destruct (Nat.le_gt_cases MAX_SERIES (length D)) as [Hl|Hl]; [by rewrite take_app_le|].
  rewrite !take_ge by (rewrite ?length_app; cbn; lia). rewrite !bool_decide_eq_true_2 by set_solver. done.
Qed.

Definition counted_in (k : list string) (calls : list (list string * V)) : list (list string * V) := List.filter (fun c => bool_decide (assigned calls c = k)) calls.

(** A series is the fold of the calls that are assigned to it. *)
Lemma series_exact calls k : after calls !! k = fold_left (fun o c => Some (g c.2 o)) (counted_in k calls) None.
Proof.
  induction calls as [|c calls IH] using rev_ind; [done|]. rewrite after_snoc. unfold update. destruct (held_key calls c (after calls) (after_dom calls)) as [-> _].
  assert (E : counted_in k (calls ++ [c]) = counted_in k calls ++ (if bool_decide (assigned (calls ++ [c]) c = k) then [c] else [])).
  { unfold counted_in. rewrite List.filter_app. cbn [List.filter]. f_equal. apply filter_ext_in. intros x Hx%list_elem_of_In. by rewrite assigned_app. }
  rewrite E, fold_left_app, <- IH. case_bool_decide as Hk; cbn [fold_left].
  - rewrite Hk. apply lookup_insert_eq.
  - by apply lookup_insert_ne.
Qed.
End Calls.

(** ** Counters *)

Lemma of_Z_small n : 0 <= n < 2 ^ 53 -> of_Z n = Fin n 0.
Proof.
  intros Hn. unfold of_Z, round. assert ((n <? 0) = false) as -> by lia. unfold round_mag. destruct (n =? 0) eqn:E; [f_equal; lia|].
  assert (Hl : Z.log2 n < 53) by (apply Z.log2_lt_pow2; lia). assert (0 <= Z.log2 n) by apply Z.log2_nonneg.
  assert ((Z.max (0 + Z.log2 n + 1 - 53) (-1074) <=? 0) = true) as -> by lia. assert ((1024 <=? 0 + Z.log2 n) = false) as -> by lia. done.
Qed.

Lemma add_one n : 0 <= n < 2 ^ 53 -> add (of_Z n) one = of_Z (n + 1).
Proof.
  intros Hn. unfold one. rewrite (of_Z_small n Hn), (of_Z_small 1) by lia. cbn [add align]. change (Z.min 0 0) with 0. change (0 - 0) with 0. change (2 ^ 0) with 1.
  unfold of_Z. f_equal; lia.
Qed.

Lemma count_fold {V} (l : list V) n : 0 <= n -> n + Z.of_nat (length l) <= 2 ^ 53 ->
  fold_left (fun o (_ : V) => Some (add (default zero o) one)) l (Some (of_Z n)) = Some (of_Z (n + Z.of_nat (length l))).
Proof.
  revert n. induction l as [|c l IH]; intros n Hn Hl; cbn [fold_left length default from_option id]; [by rewrite Z.add_0_r|]. cbn [length] in Hl.
  rewrite add_one, IH by lia. do 2 f_equal. lia.
Qed.

Definition count_text (n : nat) : option f64 := match n with O => None | S _ => Some (of_Z (Z.of_nat n)) end.

Lemma counter_value {V} (l : list V) : Z.of_nat (length l) <= 2 ^ 53 -> fold_left (fun o (_ : V) => Some (add (default zero o) one)) l None = count_text (length l).
Proof.
  destruct l as [|c l]; [done|]. intros Hl. cbn [fold_left length default from_option id count_text] in *. change zero with (of_Z 0). rewrite add_one, count_fold by lia. do 2 f_equal. lia.
Qed.

(** ** Histograms *)

Definition scaled (h m e : Z) : Z := m * 2 ^ (e - h).

Lemma scaled_le h m e n f : h <= e -> h <= f -> leb (Fin m e) (Fin n f) = (scaled h m e <=? scaled h n f).
Proof.
  intros He Hf. unfold leb, ltb, eqf, align, scaled. set (g := Z.min e f).
  assert (Ee : 2 ^ (e - h) = 2 ^ (e - g) * 2 ^ (g - h)) by (rewrite <- Z.pow_add_r by lia; f_equal; lia).
  assert (Ef : 2 ^ (f - h) = 2 ^ (f - g) * 2 ^ (g - h)) by (rewrite <- Z.pow_add_r by lia; f_equal; lia).
  assert (0 < 2 ^ (g - h)) by (apply Z.pow_pos_nonneg; lia). rewrite Ee, Ef. set (a := 2 ^ (e - g)). set (b := 2 ^ (f - g)). set (p := 2 ^ (g - h)) in *.
  destruct (Z.ltb_spec (m * a) (n * b)), (Z.eqb_spec (m * a) (n * b)), (Z.leb_spec (m * (a * p)) (n * (b * p))); cbn; try done; nia.
Qed.

Lemma leb_trans x y z : leb x y = true -> leb y z = true -> leb x z = true.
Proof.
  destruct x as [|[]|m e], y as [|[]|n f], z as [|[]|o d]; try done.
  set (h := Z.min e (Z.min f d)). rewrite !(scaled_le h) by lia. lia.
Qed.

(** Buckets ascend. *)
Definition ascends (buckets : list f64) : Prop := StronglySorted (fun a b => leb a b = true) buckets.

Lemma slot_le buckets v i b : ascends buckets -> buckets !! i = Some b -> (slot buckets v <= i)%nat <-> leb v b = true.
Proof.
  intros Ha. revert i. induction Ha as [|b0 buckets Ha IH Hb]; intros i Hi; [done|]. cbn [slot]. destruct i as [|i].
  - cbn in Hi. injection Hi as <-. destruct (leb v b0); split; (done || lia).
  - cbn in Hi. destruct (leb v b0) eqn:E; [|rewrite <- (IH i Hi); lia]. split; [intros _|lia]. rewrite Forall_forall in Hb.
    eapply leb_trans; [exact E|]. by apply Hb, (list_elem_of_lookup_2 _ i).
Qed.

Lemma slot_bound buckets v : (slot buckets v <= length buckets)%nat.
Proof. induction buckets as [|b l IH]; cbn; [lia|]. destruct (leb v b); lia. Qed.

Definition slot_count (buckets : list f64) (vs : list f64) (i : nat) : Z := Z.of_nat (length (List.filter (fun v => (slot buckets v =? i)%nat) vs)).

Lemma observed_counts buckets vs : vs <> [] -> exists st,
  fold_left (fun o v => Some (observe_in buckets v o)) vs None = Some st /\ counts st = map (slot_count buckets vs) (seq 0 (length buckets + 1)).
Proof.
  induction vs as [|v vs IH] using rev_ind; [done|]. intros _. rewrite fold_left_app. cbn [fold_left]. set (o := fold_left _ vs None) in *.
  assert (Hc : counts (default (mkHistogramState (replicate (length buckets + 1) 0) zero) o) = map (slot_count buckets vs) (seq 0 (length buckets + 1))).
  { destruct (decide (vs = [])) as [->|Hne].
    - cbn. apply list_eq. intros i. rewrite list_lookup_fmap. destruct (decide (i < length buckets + 1)%nat) as [Hi|Hi].
      + rewrite lookup_seq_lt by done. cbn. by rewrite lookup_replicate_2.
      + rewrite lookup_seq_ge by lia. cbn. apply lookup_ge_None_2. rewrite length_replicate. lia.
    - destruct (IH Hne) as (st & -> & E). exact E. }
  eexists. split; [done|]. cbn [counts observe_in]. unfold observe_in. cbn [counts]. rewrite Hc. apply list_eq. intros i.
  assert (Es : slot_count buckets (vs ++ [v]) i = slot_count buckets vs i + if (slot buckets v =? i)%nat then 1 else 0).
  { unfold slot_count. rewrite List.filter_app, length_app. cbn [List.filter]. destruct (slot buckets v =? i)%nat; cbn [length]; lia. }
  destruct (decide (i < length buckets + 1)%nat) as [Hi|Hi]; [|etransitivity; [apply lookup_ge_None_2|symmetry; apply lookup_ge_None_2]; rewrite ?length_alter, length_map, length_seq; lia].
  rewrite (list_lookup_fmap _ (seq _ _)), lookup_seq_lt by done. cbn. rewrite Es. destruct (Nat.eqb_spec (slot buckets v) i) as [Ei|Hne].
  - rewrite Ei, list_lookup_alter_eq, (list_lookup_fmap _ (seq _ _)), lookup_seq_lt by done. cbn. f_equal. lia.
  - rewrite list_lookup_alter_ne, (list_lookup_fmap _ (seq _ _)), lookup_seq_lt by done. cbn. f_equal. lia.
Qed.

Definition below (buckets vs : list f64) (i j : nat) : Z := Z.of_nat (length (List.filter (fun v => (i <=? slot buckets v)%nat && (slot buckets v <? j)%nat) vs)).

Lemma below_step buckets vs i j : (i < j)%nat -> below buckets vs i j = slot_count buckets vs i + below buckets vs (S i) j.
Proof.
  intros Hij. unfold below, slot_count. rewrite <- Nat2Z.inj_add. f_equal. induction vs as [|v vs IH]; [done|]. cbn [List.filter].
  destruct (Nat.eqb_spec (slot buckets v) i), (Nat.leb_spec i (slot buckets v)), (Nat.ltb_spec (slot buckets v) j), (Nat.leb_spec (S i) (slot buckets v)); cbn [andb length]; lia.
Qed.

Lemma cumulative_counts buckets vs n : forall s acc i, (i < n)%nat ->
  cumulative acc (map (slot_count buckets vs) (seq s n)) !! i = Some (acc + below buckets vs s (s + i + 1)).
Proof.
  induction n as [|n IH]; intros s acc i Hi; [lia|]. cbn [seq map cumulative]. destruct i as [|i].
  - cbn. f_equal. rewrite below_step by lia. assert (below buckets vs (S s) (s + 0 + 1) = 0) as ->; [|lia]. unfold below.
    rewrite Paging.filter_none; [done|]. apply Forall_forall. intros v _. destruct (Nat.leb_spec (S s) (slot buckets v)), (Nat.ltb_spec (slot buckets v) (s + 0 + 1)); try done; lia.
  - cbn [lookup list_lookup]. etransitivity; [apply IH; lia|]. f_equal. rewrite (below_step buckets vs s) by lia.
    replace (S s + i + 1)%nat with (s + S i + 1)%nat by lia. lia.
Qed.

Definition at_most (b : f64) (vs : list f64) : Z := Z.of_nat (length (List.filter (fun v => leb v b) vs)).

(** The running totals of a series that some values were observed in. *)
Lemma totals_exact buckets vs st : ascends buckets -> fold_left (fun o v => Some (observe_in buckets v o)) vs None = Some st ->
  (forall i b, buckets !! i = Some b -> cumulative 0 (counts st) !! i = Some (at_most b vs)) /\
  cumulative 0 (counts st) !! length buckets = Some (Z.of_nat (length vs)).
Proof.
  intros Ha E. assert (Hne : vs <> []) by (intros ->; done). destruct (observed_counts buckets vs Hne) as (st' & E' & Ec). assert (st' = st) as -> by congruence.
  rewrite Ec. split.
  - intros i b Hb. pose proof (lookup_lt_Some _ _ _ Hb) as Hi. rewrite cumulative_counts by lia. f_equal. rewrite Z.add_0_l. unfold below, at_most. do 2 f_equal.
    apply filter_ext. intros v. pose proof (slot_le buckets v i b Ha Hb) as Hs. cbn [Nat.leb andb]. destruct (leb v b), (Nat.ltb_spec (slot buckets v) (0 + i + 1)); try done; exfalso.
    + assert (slot buckets v <= i)%nat by (by apply Hs). lia.
    + assert (false = true) by (apply Hs; lia). done.
  - rewrite cumulative_counts by lia. f_equal. rewrite Z.add_0_l. unfold below. do 2 f_equal. apply Paging.filter_all, Forall_forall. intros v _. cbn.
    apply Nat.ltb_lt. pose proof (slot_bound buckets v). lia.
Qed.

Lemma observe_all buckets (l : list (list string * f64)) : forall o,
  fold_left (fun o c => Some (observe_in buckets c.2 o)) l o = fold_left (fun o v => Some (observe_in buckets v o)) (map snd l) o.
Proof. induction l as [|c l IH]; intros o; [done|]. cbn. apply IH. Qed.

(** The metrics after some calls. *)
Definition counter_after (c : Counter) (calls : list (list string)) : Counter := fold_left (fun c v => inc v c) calls c.
Definition histogram_after (h : Histogram) (calls : list (list string * f64)) : Histogram := fold_left (fun h c => observe c.1 c.2 h) calls h.

Lemma counter_after_series name help labels calls :
  c_series (counter_after (Counter_new name help labels) calls) = after labels (fun (_ : unit) o => add (default zero o) one) (map (fun v => (v, tt)) calls).
Proof.
  unfold counter_after, after, Counter_new. generalize (∅ : Series f64). induction calls as [|v calls IH]; intros m; [done|]. cbn [fold_left map]. unfold inc at 2. cbn. apply IH.
Qed.

Lemma histogram_after_series name help labels buckets calls :
  h_series (histogram_after (Histogram_new name help labels buckets) calls) = after labels (observe_in buckets) calls.
Proof.
  unfold histogram_after, after, Histogram_new. generalize (∅ : Series HistogramState). induction calls as [|v calls IH]; intros m; [done|]. cbn [fold_left]. unfold observe at 2. cbn. apply IH.
Qed.

(** Scrapes are exact and bounded. However many label values the callers make up, a counter keeps at
    most 501 series; every call counts in exactly one, its own for the first 500 combinations of labels
    and the overflow series for all others, and a series shows exactly the number of its calls (up to
    2^53, where the counter stops). A series of a histogram shows for each of its ascending buckets
    exactly the number of values observed that are not above the bucket, and in the last one, and in the
    count, the number of all of them. *)
Lemma metrics_exact name help labels :
  (forall calls k, Z.of_nat (length calls) <= 2 ^ 53 ->
     let s := c_series (counter_after (Counter_new name help labels) calls) in
     (size s <= MAX_SERIES + 1)%nat /\ s !! k = count_text (length (counted_in labels k (map (fun v => (v, tt)) calls)))) /\
  (forall buckets calls k, ascends buckets ->
     let s := h_series (histogram_after (Histogram_new name help labels buckets) calls) in
     let vs := map snd (counted_in labels k calls) in
     (size s <= MAX_SERIES + 1)%nat /\
     match s !! k with
     | None => vs = []
     | Some st => (forall i b, buckets !! i = Some b -> cumulative 0 (counts st) !! i = Some (at_most b vs)) /\
                  cumulative 0 (counts st) !! length buckets = Some (Z.of_nat (length vs))
     end).
Proof.
  split.
  - intros calls k Hl. cbv zeta. rewrite counter_after_series. split; [apply series_bounded|]. rewrite series_exact. apply counter_value.
    unfold counted_in. etransitivity; [|exact Hl]. apply Nat2Z.inj_le. rewrite <- (length_map (fun v => (v, tt)) calls). apply filter_length_le.
  - intros buckets calls k Ha. cbv zeta. rewrite histogram_after_series. split; [apply series_bounded|]. rewrite series_exact, observe_all.
    destruct (fold_left _ (map snd _) None) as [st|] eqn:E; [by apply totals_exact|].
    destruct (map snd (counted_in labels k calls)) as [|v vs] eqn:Ev; [done|]. destruct (observed_counts buckets (v :: vs) ltac:(done)) as (st & E' & _). congruence.
Qed.

Lemma metrics_exact_witness : exists st,
  h_series (histogram_after (Histogram_new "t" "test" ["route"] TICK_BUCKETS) [(["/a"], of_Z 1); (["/a"], of_Z 7); (["/a"], of_Z 99)]) !! ["/a"] = Some st /\
  cumulative 0 (counts st) !! length TICK_BUCKETS = Some 3.
Proof.
  destruct (proj2 (metrics_exact "t" "test" ["route"]) TICK_BUCKETS [(["/a"], of_Z 1); (["/a"], of_Z 7); (["/a"], of_Z 99)] ["/a"]) as [_ H].
  - repeat (constructor; [|repeat (constructor; [vm_compute; reflexivity|]); constructor]). constructor.
  - set (o := h_series _ !! _) in *. destruct o as [st|] eqn:E; [exists st; split; [reflexivity|apply H]|]. vm_compute in E. discriminate.
Defined.

(** The buckets of the program ascend. *)
Example buckets_ascend : ascends LATENCY_BUCKETS /\ ascends TICK_BUCKETS.
Proof. split; repeat (constructor; [|repeat (constructor; [vm_compute; reflexivity|]); constructor]); constructor. Qed.

(** ** Escaping *)

(** What a reader of the text format undoes. *)
Fixpoint unescape (s : string) : string :=
  match s with
  | String c r =>
      if ascii_dec c backslash then
        match r with
        | String d r' => String (if ascii_dec d "n" then newline else d) (unescape r')
        | EmptyString => s
        end
      else String c (unescape r)
  | EmptyString => s
  end.

(** A label value is read back as it was, and cannot end its line or its quotes. *)
Lemma escape_roundtrip v : unescape (escape v) = v /\ str_forall (fun c => negb (bool_decide (c = newline))) (escape v) = true.
Proof.
  induction v as [|c v [IH1 IH2]]; [done|]. unfold escape in *.
  destruct (ascii_dec c backslash) as [->|H1]; [|destruct (ascii_dec c dquote) as [->|H2]; [|destruct (ascii_dec c newline) as [->|H3]]].
  - rewrite Email.replace_same. cbn [append String.append]. rewrite !Email.replace_other by done. cbn. by rewrite IH1, IH2.
  - rewrite Email.replace_other, Email.replace_same by done. cbn [append String.append]. rewrite !Email.replace_other by done. cbn. by rewrite IH1, IH2.
  - rewrite !Email.replace_other by done. rewrite Email.replace_same. cbn. by rewrite IH1, IH2.
  - rewrite !Email.replace_other by done. cbn [unescape str_forall]. destruct (ascii_dec c backslash); [done|]. rewrite IH1, bool_decide_eq_false_2 by done. by split.
Qed.
End Metrics.
