(* ===== verification/Router.v ===== *)
(** * The router and its middleware

    [crates/api/src/lib.rs] and the envelope of [error.rs]: the table of routes, the layers that every
    request passes, the timeout of the routes that wait for Horizon and the readiness probe. The
    handlers are an argument, as are the parts of the HTTP stack: the CORS layer, the random request id
    and the canonical reason of a status code. *)

From S2P Require Import Prelude Float64 Db Amount Resilience HorizonIngest ApiHorizon Metrics.

Module Router.
Import ApiHorizon (ApiError(..)).

(** ** Messages *)

Inductive Method := GET | POST | PUT | PATCH | DELETE | OPTIONS | HEAD | OtherMethod.
#[export] Instance Method_eq_dec : EqDecision Method.
Proof. solve_decision. Defined.

(** Names of headers are in lower case; [insert] replaces. *)
Definition Headers : Type := list (string * string).
Fixpoint get_header (name : string) (hs : Headers) : option string :=
  match hs with [] => None | (n, v) :: r => if bool_decide (n = name) then Some v else get_header name r end.
Definition insert_header (name value : string) (hs : Headers) : Headers := (name, value) :: List.filter (fun p => negb (bool_decide (p.1 = name))) hs.

Record Request := mkRequest { rq_method : Method; rq_path : string; rq_headers : Headers }.

Inductive Body := JsonBody (j : json) | RawBody (s : string).
Record Response := mkResponse { rs_status : Z; rs_headers : Headers; rs_body : Body }.

Definition with_headers (r : Response) (hs : Headers) : Response := mkResponse (rs_status r) hs (rs_body r).

(** ** The error envelope *)

Definition ERROR_CODES : list (string * Z) :=
  [("bad_request", 400); ("stale_sequence", 400); ("unauthorized", 401); ("forbidden", 403); ("not_found", 404); ("method_not_allowed", 405);
   ("already_exists", 409); ("conflict", 409); ("gone", 410); ("payload_too_large", 413); ("unsupported_media_type", 415);
   ("too_many_requests", 429); ("internal_error", 500); ("upstream_timeout", 504)].

Definition code_for_status (status : Z) : string :=
  if status =? 401 then "unauthorized" else if status =? 403 then "forbidden" else if status =? 404 then "not_found"
  else if status =? 405 then "method_not_allowed" else if status =? 409 then "conflict" else if status =? 410 then "gone"
  else if status =? 413 then "payload_too_large" else if status =? 415 then "unsupported_media_type"
  else if status =? 429 then "too_many_requests" else if status =? 504 then "upstream_timeout"
  else if 500 <=? status then "internal_error" else "bad_request".

Definition envelope (status : Z) (code message : string) : json :=
  JObj [("statusCode", JNum status); ("code", JStr code); ("message", JStr message); ("data", JNull)].

Definition error_response (status : Z) (code message : string) : Response :=
  mkResponse status [("content-type", "application/json")] (JsonBody (envelope status code message)).

(** There is no arm for [ServiceUnavailable]: [None]. *)
Definition code (e : ApiError) : option string :=
  match e with
  | BadRequest _ => Some "bad_request" | Unauthorized => Some "unauthorized" | Forbidden _ => Some "forbidden" | NotFound => Some "not_found"
  | Conflict => Some "already_exists" | ConflictWith _ => Some "conflict" | Gone _ => Some "gone" | TooManyRequests _ => Some "too_many_requests"
  | StaleSequence _ => Some "stale_sequence" | Internal => Some "internal_error" | GatewayTimeout _ => Some "upstream_timeout"
  | ServiceUnavailable _ => None
  end.

Definition parts (e : ApiError) : Z * string :=
  match e with
  | BadRequest m => (400, m) | Unauthorized => (401, "unauthorized") | Forbidden m => (403, m) | NotFound => (404, "not found")
  | Conflict => (409, "already exists") | ConflictWith m => (409, m) | Gone m => (410, m) | TooManyRequests m => (429, m)
  | StaleSequence m => (400, m) | Internal => (500, "internal server error") | GatewayTimeout m => (504, m) | ServiceUnavailable m => (503, m)
  end.

Definition into_response (e : ApiError) : option Response :=
  let* c := code e in let '(status, message) := parts e in Some (error_response status c message).

Definition Envelope_ok (data : json) : Response :=
  mkResponse 200 [("content-type", "application/json")] (JsonBody (JObj [("statusCode", JNum 200); ("message", JStr "OK"); ("data", data)])).
Definition Envelope_created (data : json) : Response :=
  mkResponse 201 [("content-type", "application/json")] (JsonBody (JObj [("statusCode", JNum 201); ("message", JStr "Created"); ("data", data)])).

(** ** Routes *)

(** A path, the handlers of its methods, and whether the timeout layer is around them. *)
Record Route := mkRoute { rt_path : string; rt_handlers : list (Method * string); rt_timeout : bool }.

Definition ROUTES : list Route :=
  [
   mkRoute "/health" [(GET, "health")] false;
   mkRoute "/health/ready" [(GET, "health_ready")] false;
   mkRoute "/v1/auth/signup" [(POST, "auth::signup")] false;
   mkRoute "/v1/auth/verify-email" [(POST, "auth::verify_email")] false;
   mkRoute "/v1/auth/resend-otp" [(POST, "auth::resend_otp")] false;
   mkRoute "/v1/auth/request-password-reset" [(POST, "auth::request_password_reset")] false;
   mkRoute "/v1/auth/confirm-password-reset" [(POST, "auth::confirm_password_reset")] false;
   mkRoute "/v1/auth/change-email" [(POST, "auth::request_email_change")] false;
   mkRoute "/v1/auth/change-email/confirm" [(POST, "auth::confirm_email_change")] false;
   mkRoute "/v1/auth/login" [(POST, "auth::login")] false;
   mkRoute "/v1/auth/refresh" [(POST, "auth::refresh")] false;
   mkRoute "/v1/auth/me" [(GET, "auth::me"); (PATCH, "auth::update_username")] false;
   mkRoute "/v1/auth/logout" [(POST, "auth::logout")] false;
   mkRoute "/v1/auth/change-password" [(POST, "auth::change_password")] false;
   mkRoute "/v1/auth/account/export/request-otp" [(POST, "account::export_request_otp")] false;
   mkRoute "/v1/auth/account/export" [(POST, "account::export_account")] false;
   mkRoute "/v1/auth/account/delete/request-otp" [(POST, "account::delete_request_otp")] true;
   mkRoute "/v1/auth/account/delete" [(POST, "account::delete_account")] true;
   mkRoute "/v1/auth/sessions" [(GET, "sessions::list_sessions")] false;
   mkRoute "/v1/auth/sessions/revoke-others" [(POST, "sessions::revoke_other_sessions")] false;
   mkRoute "/v1/auth/sessions/:id" [(DELETE, "sessions::revoke_session")] false;
   mkRoute "/v1/audit-logs" [(GET, "audit::list_audit_logs")] false;
   mkRoute "/v1/uploads/signature" [(GET, "uploads::upload_signature")] false;
   mkRoute "/v1/wallets" [(POST, "wallets::create_wallet"); (GET, "wallets::list_wallets")] false;
   mkRoute "/v1/wallets/challenge" [(GET, "wallets::wallet_challenge")] false;
   mkRoute "/v1/wallets/:id" [(GET, "wallets::get_wallet"); (PATCH, "wallets::update_wallet")] false;
   mkRoute "/v1/wallets/:id/archive" [(PATCH, "wallets::archive_wallet")] false;
   mkRoute "/v1/wallets/:id/unarchive" [(PATCH, "wallets::unarchive_wallet")] false;
   mkRoute "/v1/wallets/:id/ingest/pause" [(PATCH, "wallets::pause_ingest")] false;
   mkRoute "/v1/wallets/:id/ingest/resume" [(PATCH, "wallets::resume_ingest")] false;
   mkRoute "/v1/wallets/:id/balances" [(GET, "wallets::get_balances")] true;
   mkRoute "/v1/wallets/:id/transactions" [(GET, "wallets::list_transactions")] false;
   mkRoute "/v1/wallets/:id/transactions.csv" [(GET, "transactions_csv::export_transactions_csv")] false;
   mkRoute "/v1/wallets/:id/addresses" [(POST, "addresses::create_address"); (GET, "addresses::list_addresses")] false;
   mkRoute "/v1/wallets/:id/addresses/batch" [(POST, "addresses::create_addresses_batch")] false;
   mkRoute "/v1/wallets/:id/webhooks" [(POST, "webhooks::create_webhook"); (GET, "webhooks::list_webhooks")] false;
   mkRoute "/v1/wallets/:id/webhooks/:endpoint_id/deliveries" [(GET, "webhooks::list_deliveries")] false;
   mkRoute "/v1/wallets/:id/webhooks/:endpoint_id" [(DELETE, "webhooks::delete_webhook")] false;
   mkRoute "/v1/wallets/:id/webhooks/:endpoint_id/test" [(POST, "webhooks::test_webhook")] false;
   mkRoute "/v1/wallets/:id/webhooks/:endpoint_id/deliveries/:delivery_id/redeliver" [(POST, "webhooks::redeliver_webhook")] false;
   mkRoute "/v1/wallets/:id/api-key" [(POST, "apikeys::generate_key"); (GET, "apikeys::get_key"); (DELETE, "apikeys::delete_key")] false;
   mkRoute "/v1/wallets/:id/withdraw" [(POST, "withdrawals::withdraw")] false;
   mkRoute "/v1/wallets/:id/trustlines" [(POST, "trustlines::add_trustline")] false;
   mkRoute "/v1/wallets/:id/submit-signed" [(POST, "submit::submit_signed")] false;
   mkRoute "/v1/wallets/:id/withdraw/request-otp" [(POST, "submit::withdraw_request_otp")] false;
   mkRoute "/v1/wallets/:id/withdraw/confirm" [(POST, "submit::withdraw_confirm")] false;
   mkRoute "/v1/wallets/:id/withdraw/estimate" [(GET, "submit::withdraw_estimate")] true;
   mkRoute "/v1/wallets/:id/signing-info" [(GET, "submit::signing_info")] false;
   mkRoute "/v1/wallets/:id/backup" [(GET, "wallets::get_backup")] false;
   mkRoute "/v1/wallets/:id/gas-tank" [(POST, "wallets::create_gas_tank"); (GET, "wallets::get_gas_tank")] false;
   mkRoute "/v1/wallets/:id/sponsorship" [(GET, "sponsorship::get_config"); (PUT, "sponsorship::put_config")] false;
   mkRoute "/v1/wallets/:id/sponsor" [(POST, "sponsor::sponsor")] false;
   mkRoute "/v1/wallets/:id/sponsor/validate" [(POST, "sponsor::validate_sponsor")] true;
   mkRoute "/v1/wallets/:id/sponsored-transactions" [(GET, "sponsor::list_sponsored_transactions")] false;
   mkRoute "/v1/wallets/:id/whitelist/config" [(GET, "whitelist::get_config"); (PUT, "whitelist::put_config")] false;
   mkRoute "/v1/wallets/:id/whitelist" [(GET, "whitelist::list_addresses"); (POST, "whitelist::add_address")] false;
   mkRoute "/v1/wallets/:id/whitelist/:entry_id" [(DELETE, "whitelist::remove_address")] false;
   mkRoute "/v1/wallets/:id/payment-links" [(POST, "payment_links::create_payment_link"); (GET, "payment_links::list_payment_links")] false;
   mkRoute "/v1/wallets/:id/payment-links/:link_id" [(GET, "payment_links::get_payment_link"); (PUT, "payment_links::set_payment_link_active"); (PATCH, "payment_links::update_payment_link")] false;
   mkRoute "/v1/wallets/:id/payment-links/:link_id/payments" [(GET, "payment_links::list_payment_link_payments")] false;
   mkRoute "/v1/wallets/:id/payment-links/:link_id/cancel" [(POST, "payment_links::cancel_payment_link")] false;
   mkRoute "/v1/pay/:slug" [(GET, "payment_links::get_public_payment_link")] false;
   mkRoute "/v1/pay/:slug/intent" [(POST, "payment_links::create_payment_intent")] false;
   mkRoute "/v1/pay/:slug/payments/:payment_id" [(GET, "payment_links::get_payment_status")] false;
   mkRoute "/v1/pay/:slug/signing-info" [(GET, "payment_links::public_signing_info")] false;
   mkRoute "/v1/pay/:slug/submit-signed" [(POST, "payment_links::submit_payment")] false].

(** ** Layers *)

(** A service answers a request; the state is the metrics. *)
Definition Service : Type := Request -> Metrics.Registry -> Response * Metrics.Registry.
Definition Layer : Type := Service -> Service.

(** A layer that only touches the answer. *)
Definition map_response (f : Request -> Response -> Response) : Layer := fun next req m => let '(r, m) := next req m in (f req r, m).

Definition starts_with (p s : string) : bool := match strip_prefix p s with Some _ => true | None => false end.
Definition ends_with (p s : string) : bool := starts_with (string_of_list_ascii (rev (list_ascii_of_string p))) (string_of_list_ascii (rev (list_ascii_of_string s))).

(** [HeaderValue::to_str]: visible ASCII, space and tab. *)
Definition visible (c : ascii) : bool := in_range 32 126 (byte_val c) || (byte_val c =? 9).
Definition to_str (v : string) : option string := if str_forall visible v then Some v else None.

Section Layers.
(** [Uuid::new_v4], [ENABLE_HSTS], the time a request took and the template that matched it. *)
Variable new_v4 : string.
Variable enable_hsts : option string.
Variable elapsed : Request -> Float64.f64.
Variable matched_path : Request -> option string.
Variable canonical_reason : Z -> option string.
(** The text of a body that is not JSON, if it is UTF-8. *)
Variable utf8 : string -> bool.

Definition request_id (req : Request) : string :=
  match (let* v := get_header "x-request-id" (rq_headers req) in to_str v) with
  | Some v => let s := trim v in if is_empty s then new_v4 else s
  | None => new_v4
  end.

Definition request_id_middleware : Layer := map_response (fun req r => with_headers r (insert_header "x-request-id" (request_id req) (rs_headers r))).

Definition method_label (m : Method) : string :=
  match m with GET => "GET" | POST => "POST" | PUT => "PUT" | PATCH => "PATCH" | DELETE => "DELETE" | OPTIONS => "OPTIONS" | HEAD => "HEAD" | OtherMethod => "other" end.
Definition status_class (s : Z) : string :=
  if in_range 100 199 s then "1xx" else if in_range 200 299 s then "2xx" else if in_range 300 399 s then "3xx" else if in_range 400 499 s then "4xx" else "5xx".

Definition observe_request (labels : list string) (t : Float64.f64) (m : Metrics.Registry) : Metrics.Registry :=
  Metrics.mkRegistry (Metrics.observe labels t (Metrics.HTTP_REQUEST_DURATION m)) (Metrics.WEBHOOK_DELIVERIES m) (Metrics.INGEST_TICK_DURATION m)
    (Metrics.INGEST_LAST_SUCCESS m) (Metrics.INGEST_LEADER m) (Metrics.INGEST_DEPOSITS m) (Metrics.GAUGE_FNS m).

Definition http_metrics_middleware : Layer := fun next req m =>
  let '(r, m) := next req m in
  (r, observe_request [method_label (rq_method req); default "unmatched" (matched_path req); status_class (rs_status r)] (elapsed req) m).

Definition CSP : string := "default-src 'none'; frame-ancestors 'none'".
Definition security_headers_middleware : Layer := map_response (fun _ r =>
  let hs := insert_header "content-security-policy" CSP (insert_header "referrer-policy" "no-referrer" (insert_header "x-content-type-options" "nosniff" (rs_headers r))) in
  with_headers r (if bool_decide (enable_hsts = Some "1") then insert_header "strict-transport-security" "max-age=31536000; includeSubDomains" hs else hs)).

Definition REJECTION_MESSAGE_LIMIT : Z := 512.

Definition is_error (s : Z) : bool := in_range 400 599 s.
Definition is_json (r : Response) : bool :=
  match (let* v := get_header "content-type" (rs_headers r) in to_str v) with Some ct => starts_with "application/json" ct | None => false end.

(** [to_bytes] fails for a longer body. *)
Definition detail (b : Body) : option string :=
  match b with
  | JsonBody _ => None
  | RawBody s => if (Z.of_nat (String.length s) <=? REJECTION_MESSAGE_LIMIT) && utf8 s then let t := trim s in if is_empty t then None else Some t else None
  end.

Definition ascii_lower (c : ascii) : ascii := if in_range 65 90 (byte_val c) then ascii_of_N (Z.to_N (byte_val c + 32)) else c.
Definition to_ascii_lowercase (s : string) : string := str_map ascii_lower s.

Definition rejection_message (r : Response) : string :=
  default (to_ascii_lowercase (default "error" (canonical_reason (rs_status r)))) (detail (rs_body r)).

Definition wrap_error (r : Response) : Response :=
  if negb (is_error (rs_status r)) || is_json r then r else
  let wrapped := error_response (rs_status r) (code_for_status (rs_status r)) (rejection_message r) in
  match get_header "allow" (rs_headers r) with
  | Some allow => with_headers wrapped (insert_header "allow" allow (rs_headers wrapped))
  | None => wrapped
  end.
Definition error_envelope_middleware : Layer := map_response (fun _ => wrap_error).

Definition sensitive (req : Request) : bool :=
  starts_with "/v1/auth/" (rq_path req) || ends_with "/api-key" (rq_path req) || ends_with "/backup" (rq_path req)
  || (bool_decide (rq_path req = "/v1/wallets") && bool_decide (rq_method req = POST)).
Definition secret_response_cache_middleware : Layer := map_response (fun req r =>
  if sensitive req then with_headers r (insert_header "pragma" "no-cache" (insert_header "cache-control" "no-store" (rs_headers r))) else r).

Definition REQUEST_BODY_LIMIT : Z := 64 * 1024.

(** [build_router]: the layer that is added last is the outermost. *)
Definition build_router (cors : Layer) (routes : Service) : Service :=
  request_id_middleware (secret_response_cache_middleware (security_headers_middleware (cors (http_metrics_middleware (error_envelope_middleware routes))))).
End Layers.

(** ** Timeouts and probes *)

Definition OUTBOUND_ROUTE_TIMEOUT : Z := 10 * 1000000000.

(** What a handler would answer and how long it would take: [None] if it never ends. *)
Definition outbound_route_timeout (answer : option (Z * Response)) : Z * option Response :=
  match answer with
  | Some (t, r) => if t <=? OUTBOUND_ROUTE_TIMEOUT then (t, Some r) else (OUTBOUND_ROUTE_TIMEOUT, into_response (GatewayTimeout "upstream did not respond in time; please retry"))
  | None => (OUTBOUND_ROUTE_TIMEOUT, into_response (GatewayTimeout "upstream did not respond in time; please retry"))
  end.

(** [check_reachability]: the request's error, or the status it was answered with. *)
Definition check_reachability (http : result Z string) (show_status : Z -> string) : result unit string :=
  match http with
  | Err e => Err ("horizon unreachable: " +:+ e)
  | Ok s => if HorizonIngest.is_success s then Ok tt else Err ("horizon returned HTTP " +:+ show_status s)
  end.

Definition probe_text (r : result unit string) : string := match r with Ok _ => "ok" | Err e => e end.

(** The array [failed] is written as the object of its indices. *)
Definition health_ready (ping horizon : result unit string) : Z * list (string * json) :=
  if is_ok ping && is_ok horizon then (200, [("status", JStr "ready"); ("database", JStr "ok"); ("horizon", JStr "ok")]) else
  let failed := (if is_ok ping then [] else ["database"]) ++ (if is_ok horizon then [] else ["horizon"]) in
  (503, [("status", JStr "not_ready"); ("database", JStr (probe_text ping)); ("horizon", JStr (probe_text horizon));
         ("failed", JObj (imap (fun i f => (print_dec (Z.of_nat i), JStr f)) failed));
         ("error", JStr ("unreachable dependencies: " +:+ String.concat ", " failed))]).

(** ** Headers *)

Lemma get_insert name v hs : get_header name (insert_header name v hs) = Some v.
Proof. cbn. by rewrite bool_decide_eq_true_2. Qed.

Lemma get_insert_ne name name' v hs : name' <> name -> get_header name (insert_header name' v hs) = get_header name hs.
Proof.
  intros Hn. cbn. rewrite bool_decide_eq_false_2 by done. induction hs as [|[n w] hs IH]; [done|]. cbn.
  destruct (bool_decide_reflect (n = name')) as [->|H1]; cbn; [by rewrite bool_decide_eq_false_2|]. by rewrite IH.
Qed.

Ltac headers := repeat first [rewrite get_insert | rewrite get_insert_ne by done].

(** ** Uniform answers *)

(** What the CORS layer does: it answers a preflight, which is any request with the method OPTIONS,
    itself and with 200, and it adds headers of its own to the answer of any other request. *)
Definition preflight (req : Request) : bool := bool_decide (rq_method req = OPTIONS).

Record cors_laws (cors : Layer) : Prop := {
  cors_preflight : forall next req m, preflight req = true ->
    rs_status (fst (cors next req m)) = 200 /\ snd (cors next req m) = m;
  cors_passes : forall next req m, preflight req = false ->
    rs_status (fst (cors next req m)) = rs_status (fst (next req m)) /\ rs_body (fst (cors next req m)) = rs_body (fst (next req m)) /\
    get_header "content-type" (rs_headers (fst (cors next req m))) = get_header "content-type" (rs_headers (fst (next req m))) /\
    snd (cors next req m) = snd (next req m)
}.

Lemma code_catalogued status : code_for_status status ∈ map fst ERROR_CODES.
Proof. unfold code_for_status. repeat case_match; vm_compute; repeat (first [left|right]; fail) || idtac; apply list_elem_of_In; cbn; tauto. Qed.

(** The error of a handler carries a code of the catalogue, with its status. *)
Lemma api_error_catalogued e r : into_response e = Some r -> exists c, code e = Some c /\ (c, rs_status r) ∈ ERROR_CODES /\
  rs_status r = fst (parts e) /\ rs_body r = JsonBody (envelope (rs_status r) c (snd (parts e))) /\ is_json r = true.
Proof.
  unfold into_response. destruct e; cbn; try done; intros [= <-]; (eexists; split; [reflexivity|]); (split; [apply list_elem_of_In; cbn; tauto|]); repeat split.
Qed.

Section Uniform.
Variable new_v4 : string.
Variable enable_hsts : option string.
Variable elapsed : Request -> Float64.f64.
Variable matched_path : Request -> option string.
Variable canonical_reason : Z -> option string.
Variable utf8 : string -> bool.
Notation wrap := (wrap_error canonical_reason utf8).
Notation router := (build_router new_v4 enable_hsts elapsed matched_path canonical_reason utf8).

Lemma wrap_spec r : rs_status (wrap r) = rs_status r /\
  (is_error (rs_status r) = true ->
   is_json (wrap r) = true /\
   rs_body (wrap r) = if is_json r then rs_body r else JsonBody (envelope (rs_status r) (code_for_status (rs_status r)) (rejection_message canonical_reason utf8 r))).
Proof.
  unfold wrap_error. destruct (is_error (rs_status r)) eqn:E; cbn [negb orb]; [|by split]. destruct (is_json r) eqn:Ej; [by split|].
  destruct (get_header "allow" (rs_headers r)); (split; [done|]); intros _; (split; [|done]); unfold is_json; cbn [rs_headers with_headers]; by headers.
Qed.

(** The requests whose answers no cache may keep. *)
Definition not_stored (req : Request) : Prop :=
  starts_with "/v1/auth/" (rq_path req) = true \/ ends_with "/api-key" (rq_path req) = true \/ ends_with "/backup" (rq_path req) = true \/
  (rq_path req = "/v1/wallets" /\ rq_method req = POST).

Lemma not_stored_sensitive req : not_stored req -> sensitive req = true.
Proof. unfold not_stored, sensitive. intros [->|[->|[->|[-> ->]]]]; by rewrite ?orb_true_r. Qed.

(** The headers of every answer. *)
Record uniform_headers (req : Request) (hs : Headers) : Prop := {
  uh_request_id : get_header "x-request-id" hs = Some (request_id new_v4 req);
  uh_nosniff : get_header "x-content-type-options" hs = Some "nosniff";
  uh_referrer : get_header "referrer-policy" hs = Some "no-referrer";
  uh_csp : get_header "content-security-policy" hs = Some CSP;
  uh_hsts : enable_hsts = Some "1" -> get_header "strict-transport-security" hs = Some "max-age=31536000; includeSubDomains";
  uh_secret : not_stored req -> get_header "cache-control" hs = Some "no-store" /\ get_header "pragma" hs = Some "no-cache"
}.

(** What the three outer layers add. *)
Definition outer (req : Request) (r : Response) : Response :=
  fst (request_id_middleware new_v4 (secret_response_cache_middleware (security_headers_middleware enable_hsts (fun _ m => (r, m)))) req Metrics.registry).

Lemma router_outer cors routes req m : router cors routes req m =
  (outer req (fst (cors (http_metrics_middleware elapsed matched_path (error_envelope_middleware canonical_reason utf8 routes)) req m)),
   snd (cors (http_metrics_middleware elapsed matched_path (error_envelope_middleware canonical_reason utf8 routes)) req m)).
Proof.
  unfold build_router, request_id_middleware, secret_response_cache_middleware, security_headers_middleware, map_response, outer. by destruct (cors _ req m).
Qed.

Lemma outer_spec req r : rs_status (outer req r) = rs_status r /\ rs_body (outer req r) = rs_body r /\ uniform_headers req (rs_headers (outer req r)) /\
  get_header "content-type" (rs_headers (outer req r)) = get_header "content-type" (rs_headers r).
Proof.
  unfold outer, request_id_middleware, secret_response_cache_middleware, security_headers_middleware, map_response. cbn [fst].
  destruct (sensitive req) eqn:Es, (bool_decide_reflect (enable_hsts = Some "1")) as [Eh|Eh]; cbn [rs_status rs_body rs_headers with_headers];
    (split; [done|]); (split; [done|]); (split; [split|]); intros; repeat match goal with H : not_stored _ |- _ => apply not_stored_sensitive in H end; repeat split; headers; first [done|congruence].
Qed.
End Uniform.

(** C24: every answer of the API is uniform. Whatever the handlers do, each answer echoes the caller's
    request id or a fresh one, carries the security headers, HSTS when it is enabled, and no-store on the
    paths under /v1/auth/, those that end in /api-key or /backup and the creation of a wallet (the
    creation of a webhook, whose answer has a secret too, is not among them). A preflight is answered
    with 200 and not observed. For every other request the status is that of the handler; an answer that
    is an error is JSON, and where the framework and not a handler produced it, it is the envelope with
    the same status, a code of the catalogue, and as its message the framework's text or the reason of
    the status; and the request is observed once in the latency metric, under the route's template and
    never under the raw path. *)
Theorem responses_uniform new_v4 enable_hsts elapsed matched_path canonical_reason utf8 cors routes req m :
  cors_laws cors ->
  let r := fst (build_router new_v4 enable_hsts elapsed matched_path canonical_reason utf8 cors routes req m) in
  let m' := snd (build_router new_v4 enable_hsts elapsed matched_path canonical_reason utf8 cors routes req m) in
  let inner := fst (routes req m) in
  uniform_headers new_v4 enable_hsts req (rs_headers r) /\
  (preflight req = true -> rs_status r = 200 /\ m' = m) /\
  (preflight req = false ->
   rs_status r = rs_status inner /\
   (is_error (rs_status r) = true ->
      is_json r = true /\ code_for_status (rs_status r) ∈ map fst ERROR_CODES /\
      rs_body r = (if is_json inner then rs_body inner else
                   JsonBody (envelope (rs_status r) (code_for_status (rs_status r)) (rejection_message canonical_reason utf8 inner)))) /\
   m' = observe_request [method_label (rq_method req); default "unmatched" (matched_path req); status_class (rs_status r)] (elapsed req) (snd (routes req m))).
Proof.
  intros [Hp Hc]. cbv zeta. rewrite router_outer. cbn [fst snd]. set (next := http_metrics_middleware _ _ _). specialize (Hp next req m). specialize (Hc next req m).
  destruct (cors next req m) as [rc mc]. cbn [fst snd] in *. destruct (outer_spec new_v4 enable_hsts req rc) as (Es & Eb & Hh & Ect). split; [done|].
  assert (En : next req m = (wrap_error canonical_reason utf8 (fst (routes req m)),
     observe_request [method_label (rq_method req); default "unmatched" (matched_path req); status_class (rs_status (wrap_error canonical_reason utf8 (fst (routes req m))))]
       (elapsed req) (snd (routes req m)))).
  { unfold next, http_metrics_middleware, error_envelope_middleware, map_response. by destruct (routes req m). }
  rewrite En in Hc. cbn [fst snd] in Hc. destruct (wrap_spec canonical_reason utf8 (fst (routes req m))) as [Ews Hw].
  split; [intros Ep; rewrite Es; by apply Hp|]. intros Ep. destruct (Hc Ep) as (H1 & H2 & H3 & H4). rewrite Ews in H1, H4. rewrite Es, H1. split; [done|]. split; [|exact H4].
  intros He. destruct (Hw He) as [Hj Hb]. split; [unfold is_json in *; by rewrite Ect, H3|]. split; [apply code_catalogued|]. by rewrite Eb, H2, Hb.
Qed.

(** A CORS layer that adds nothing but the answer to a preflight, and a framework rejection. *)
Definition plain_cors : Layer := fun next req m => if preflight req then (mkResponse 200 [] (RawBody ""), m) else next req m.
Definition not_allowed : Service := fun _ m => (mkResponse 405 [("allow", "POST")] (RawBody ""), m).
Definition demo_request : Request := mkRequest GET "/v1/auth/login" [("x-request-id", " abc ")].

Lemma responses_uniform_witness :
  let r := fst (build_router "fresh" None (fun _ => Float64.zero) (fun _ => Some "/v1/auth/login") (fun _ => Some "Method Not Allowed") (fun _ => true) plain_cors not_allowed demo_request Metrics.registry) in
  get_header "x-request-id" (rs_headers r) = Some "abc" /\ get_header "cache-control" (rs_headers r) = Some "no-store" /\
  rs_body r = JsonBody (envelope 405 "method_not_allowed" "method not allowed").
Proof.
  assert (Hc : cors_laws plain_cors) by (split; intros next req m Ep; unfold plain_cors; rewrite Ep; repeat split).
  destruct (responses_uniform "fresh" None (fun _ => Float64.zero) (fun _ => Some "/v1/auth/login") (fun _ => Some "Method Not Allowed") (fun _ => true) plain_cors not_allowed demo_request Metrics.registry Hc)
    as [[H1 _ _ _ _ H2] [_ H3]]. split; [rewrite H1; vm_compute; reflexivity|]. split; [apply H2; left; vm_compute; reflexivity|].
  destruct (H3 eq_refl) as (_ & H4 & _). destruct H4 as (_ & _ & H5); [vm_compute; reflexivity|]. rewrite H5. vm_compute. reflexivity.
Defined.

(** ** The table *)

(** The segments of a path. *)
Fixpoint segments_from (cur s : string) : list string :=
  match s with
  | EmptyString => [cur]
  | String c r => if ascii_dec c "/" then cur :: segments_from "" r else segments_from (cur +:+ String c "") r
  end.
Definition segments (s : string) : list string := segments_from "" s.
Definition is_param (s : string) : bool := starts_with ":" s.

(** A capture takes any segment that is not empty. *)
Fixpoint matches (pattern path : list string) : bool :=
  match pattern, path with
  | [], [] => true
  | p :: pattern, s :: path => (if is_param p then negb (is_empty s) else bool_decide (p = s)) && matches pattern path
  | _, _ => false
  end.

(** Two patterns that cannot both be registered: the same one, or captures of different names in one place. *)
Fixpoint clash (p q : list string) : bool :=
  match p, q with
  | [], [] => true
  | a :: p, b :: q => if bool_decide (a = b) then clash p q else is_param a && is_param b
  | _, _ => false
  end.

Fixpoint pairwise {A} (f : A -> A -> bool) (l : list A) : bool := match l with [] => true | a :: r => forallb (f a) r && pairwise f r end.

(** The router is built: [route] panics for none of the paths. *)
Lemma routes_register : pairwise (fun p q => negb (clash p q)) (map (fun r => segments (rt_path r)) ROUTES) = true.
Proof. vm_compute. reflexivity. Qed.

(** A static segment takes priority over a capture. *)
Definition shape (p : list string) : list bool := map is_param p.

(** Two patterns of one shape that match one path cannot both be registered. *)
Lemma same_shape_clash : forall p q path, matches p path = true -> matches q path = true -> shape p = shape q -> clash p q = true.
Proof.
  induction p as [|a p IH]; intros [|b q] [|s path] Hp Hq Hs; try done. cbn in *. apply andb_true_iff in Hp as [Ha Hp], Hq as [Hb Hq]. injection Hs as Hab Hs.
  destruct (bool_decide_reflect (a = b)) as [->|Hne]; [by apply (IH q path)|]. rewrite <- Hab in Hb |- *. destruct (is_param a); [done|].
  apply bool_decide_eq_true in Ha, Hb. congruence.
Qed.

Lemma pairwise_lookup {A} (f : A -> A -> bool) (l : list A) i j a b : pairwise f l = true -> (i < j)%nat -> l !! i = Some a -> l !! j = Some b -> f a b = true.
Proof.
  revert i j. induction l as [|x l IH]; intros i j Hp Hij Hi Hj; [done|]. cbn in Hp. apply andb_true_iff in Hp as [Hx Hp]. destruct j as [|j]; [lia|]. destruct i as [|i].
  - injection Hi as ->. rewrite forallb_forall in Hx. apply Hx, list_elem_of_In. by eapply list_elem_of_lookup_2.
  - apply (IH i j); [done|lia|done|done].
Qed.

(** So the patterns that match a path differ in shape, and the router's choice among them is determined. *)
Lemma resolution_unique i j p q path : (i < j)%nat ->
  map (fun r => segments (rt_path r)) ROUTES !! i = Some p -> map (fun r => segments (rt_path r)) ROUTES !! j = Some q ->
  matches p path = true -> matches q path = true -> shape p <> shape q.
Proof.
  intros Hij Hi Hj Hp Hq Hs. pose proof (pairwise_lookup _ _ i j p q routes_register Hij Hi Hj) as Hc. cbv beta in Hc. by rewrite (same_shape_clash p q path Hp Hq Hs) in Hc.
Qed.

(** A route with the timeout answers within ten seconds, with the handler's answer or the envelope of a 504. *)
Lemma timeout_bounded answer : fst (outbound_route_timeout answer) <= OUTBOUND_ROUTE_TIMEOUT /\
  exists r, snd (outbound_route_timeout answer) = Some r /\ ((exists t, answer = Some (t, r) /\ fst (outbound_route_timeout answer) = t) \/ rs_status r = 504).
Proof.
  unfold outbound_route_timeout. destruct answer as [[t r]|]; [destruct (Z.leb_spec t OUTBOUND_ROUTE_TIMEOUT)|]; (split; [cbn; lia|]); eexists; (split; [reflexivity|]); eauto.
Qed.

(** The answer with the secret of a new webhook may be stored by a cache. *)
Example webhook_secret_cacheable : sensitive (mkRequest POST "/v1/wallets/7/webhooks" []) = false.
Proof. reflexivity. Qed.

(** A rejected body is answered with 422 and a code that the catalogue lists for 400. *)
Example unprocessable_code : code_for_status 422 = "bad_request" /\ ("bad_request", 422) ∉ ERROR_CODES.
Proof. split; [reflexivity|]. apply (bool_decide_unpack _). vm_compute. exact I. Qed.
End Router.
