(* ===== verification/SponsorRoutes.v ===== *)
(** * Sponsorship: the dry-run endpoint and the history

    The rest of [crates/api/src/routes/sponsor.rs]: the answer of [validate_sponsor] to the dry run of
    [Sponsor], and [list_sponsored_transactions]. *)

From S2P Require Import Prelude Float64 Resilience Db Paging WalletAddress Store Sponsorship Otp AuditChain AuditLog Users WebhookStore Account Wallets HorizonIngest ApiHorizon Fees Crypto Signer Submit Sponsor Net Email Token Auth RouteCommon Webhooks ConfigRoutes Router.

Module SponsorRoutes.
Import Db Paging.
Import Store (Uuid).
Import WalletAddress (Strkey).
Import Signer (StellarNetwork, Codec).
Import Users (SqlLower, UuidText).
Import Email (Digest).
Import Token Auth.
Import ApiHorizon (ApiError(..), from_store_error).
Import Sponsor (SponsorRequest, sr_max_base_fee_stroops, Preflight, pf_max_fee, pf_inner_hash_hex).
Import Sponsorship (SponsoredTransaction, SponsoredTransaction_row, s_wallet_id, s_status).
Local Open Scope db_scope.

(** ** The verdict *)

Record SponsorValidateResponse := mkSponsorValidateResponse {
  sv_verdict : string;
  sv_reason : option string;
  sv_rejection_status : option Z;
  sv_rejection_code : option string;
  sv_projected_fee_stroops : option Z;
  sv_inner_tx_hash : option string;
  sv_budget_remaining_stroops : option Z
}.

Definition is_verdict (status : Z) : bool := in_range 400 499 status && negb (status =? 401).

(** Who is authorized has been checked. A code that the error does not have is as in [Router.code]. *)
Definition verdict (req : SponsorRequest) (r : result (Preflight * option Z) ApiError) : result SponsorValidateResponse ApiError :=
  let requested_fee := match sr_max_base_fee_stroops req with Some f => if 0 <? f then Some f else None | None => None end in
  match r with
  | Ok (p, remaining) => Ok (mkSponsorValidateResponse "accepted" None None None (Some (pf_max_fee p)) (Some (pf_inner_hash_hex p)) remaining)
  | Err e =>
      let '(status, message) := Router.parts e in
      if negb (is_verdict status) then Err e else
      Ok (mkSponsorValidateResponse "rejected" (Some message) (Some status) (Router.code e) requested_fee None None)
  end.

Section Validate.
Context {strkey : Strkey} {codec : Codec} {aead : Crypto.Aead}.
Variables (network : StellarNetwork) (out : ApiHorizon.Outside).

Definition validate_sponsor (wallet_id : Uuid) (req : SponsorRequest) : Db.M Submit.DbState Submit.Ext (result SponsorValidateResponse ApiError) :=
  do r <- Sponsor.dry_run network out wallet_id req;
  ret (verdict req r).
End Validate.

(** A rejection is the answer that the error itself would have been, with its code of the catalogue;
    what is no refusal of the request stays an error. *)
Lemma verdict_mirrors req r v : verdict req r = Ok v ->
  (sv_verdict v = "accepted" /\ exists p remaining, r = Ok (p, remaining) /\ sv_projected_fee_stroops v = Some (pf_max_fee p) /\
     sv_inner_tx_hash v = Some (pf_inner_hash_hex p) /\ sv_budget_remaining_stroops v = remaining /\ sv_rejection_code v = None) \/
  (sv_verdict v = "rejected" /\ exists e resp c, r = Err e /\ Router.into_response e = Some resp /\ sv_rejection_status v = Some (Router.rs_status resp) /\
     sv_rejection_code v = Some c /\ (c, Router.rs_status resp) ∈ Router.ERROR_CODES /\ sv_reason v = Some (snd (Router.parts e)) /\ e <> Unauthorized).
Proof.
  unfold verdict. destruct r as [[p remaining]|e]; [intros [= <-]; left; cbn; eauto 10|]. destruct (Router.parts e) as [status message] eqn:Ep.
  destruct (is_verdict status) eqn:Ev; [|done]. cbn [negb]. intros [= <-]. right. cbn. split; [done|]. unfold is_verdict in Ev.
  destruct (Router.into_response e) as [resp|] eqn:Er; [|destruct e; cbn in Er, Ep; try done; injection Ep as <- <-; done].
  destruct (Router.api_error_catalogued e resp Er) as (c & Ec & Hc & Es & _ & _). rewrite Ep in Es. cbn in Es. exists e, resp, c. rewrite Es in Hc |- *. rewrite Ep.
  do 6 (split; [done|]). intros ->. cbn in Ep. injection Ep as <- <-. done.
Qed.

(** ** History *)

Record SponsoredTxnQuery := mkSponsoredTxnQuery { stq_limit : option Z; stq_status : option string; stq_before : option Uuid }.

Definition SPONSORED_STATUSES : list string := ["pending"; "confirmed"; "failed"].
Definition status_filter (q : SponsoredTxnQuery) : result (option string) ApiError :=
  match stq_status q with
  | Some s => if is_empty s then Ok None else
              if bool_decide (s ∈ SPONSORED_STATUSES) then Ok (Some s) else Err (BadRequest "status must be one of: pending, confirmed, failed")
  | None => Ok None
  end.

#[local] Existing Instances Sponsorship.SponsoredTransaction_row Account.core_part Account.policies_part Account.hooks_part.

Section History.
Context `{Digest} `{AuditChain.Hmac} `{Base64Url} `{JwtJson} `{Argon2} `{Lowercase} `{UuidText} `{SqlLower} `{Strkey}.
Context {X : Type} `{Env X}.
Variable state : AppState.

(** Login and ownership, then the query for one row more than the page. *)
Definition list_sponsored_transactions (wallet_id : Uuid) (headers : HeaderMap) (q : SponsoredTxnQuery) :
    M Account.Db X (result (list SponsoredTransaction * option Uuid) ApiError) :=
  try _ <- ConfigRoutes.owned_wallet state headers wallet_id | (fun e => e);
  try limit <- ret (RouteCommon.validated_limit (stq_limit q)) | (fun e => e);
  try status <- ret (status_filter q) | (fun e => e);
  try rows <- Sponsorship.list_sponsored_transactions wallet_id (limit + 1) status (stq_before q) | from_store_error;
  ret (Ok (RouteCommon.paginate limit rows)).
End History.
End SponsorRoutes.
